(* ===== verification/_CoqProject ===== *)
-Q . S2P
Prelude.v
Bitmap.v
KList.v
KTypes.v
RunQueue.v
RingBuf.v
Kernel.v
Pend.v
Alloc.v
Task.v
Sem.v
Mutex.v
Queue.v
Event.v
MmBlk.v
Mm.v
MmBits.v
MmList.v
MmLayout.v
MmFree.v
MmAlloc.v
MmRealloc.v
MmHeap.v
Timer.v
Workqueue.v
TaskDyn.v
Sys.v
Time.v
RingSpec.v
Fifo.v
TimerSpec.v
Invariant.v
InvPend.v
PriInherit.v
KInv.v
ApiInv.v
MutexInv.v
TaskInv.v
TaskApiInv.v
TaskDelInv.v
TaskDynInv.v
Cx.v
Reach.v
Boot.v
Safety.v
Timeout.v
RingQueue.v
Structures.v
Effects.v
MutexEffects.v
TaskEffects.v
EventEffects.v
QueueEffects.v
Errors.v
KernelHeap.v
Kv.v
KvLog.v
KvFind.v
KvOps.v
KvSpec.v
KvRecover.v
KvCrash.v
KvClaims.v
FlashDrv.v
FlashSpec.v
FlashClaims.v
Vfs.v
VfsInv.v
VfsDev.v
VfsPower.v
VfsClaims.v
EvDev.v
LocalEvent.v
EvClaims.v
Yloop.v
YloopSpec.v
YloopClaims.v
Base64.v
Crc.v
Md5.v
