(* ===== verification/Prelude.v ===== *)
(** * A model of the Rhino kernel and of the services on it

    The repository is the firmware of two STM32L4 boards: board tests, drivers, a GUI and
    network stacks on top of AliOS Things.  Its core is the Rhino real-time kernel,
    [src/kernel/rhino/core], which this development models and verifies, with services of
    AliOS Things on it: the key-value store [src/kernel/modules/fs/kv] that keeps the settings
    of the boards in flash and the flash driver of the boards ([flash_l4.c], [flash_port.c])
    below it, the virtual file system [src/kernel/vfs] with its device drivers, the events and
    the event loop of [src/kernel/yloop], and the encodings and digests of [src/utility].

    ** The program

    Rhino schedules tasks by fixed priority with round robin among equals ([k_sched.c]),
    counts ticks and times out blocked tasks ([k_tick.c], [k_time.c], [k_pend.c]),
    and offers tasks ([k_task.c]), semaphores ([k_sem.c], [k_task_sem.c]), mutexes with
    priority inheritance ([k_mutex.c]), message queues ([k_queue.c]), buffer queues
    ([k_buf_queue.c]) over ring buffers ([k_ringbuf.c]), event flags ([k_event.c]),
    software timers ([k_timer.c]), work queues ([k_workqueue.c]), a two-level allocator
    ([k_mm.c]), block pools ([k_mm_blk.c]), FIFOs ([k_fifo.c]), and the reclamation of the
    memory of deleted tasks ([k_dyn_mem_proc.c]).  [k_sys.c] starts the system.  All of it works on a handful of
    linked lists ([k_list.h]) and a priority bitmap ([k_bitmap.h]) inside critical
    sections that mask interrupts; a critical section that may have changed who should run
    ends in [core_sched].

    The key-value store ([kvmgr.c]) appends items to a log in one of two flash blocks, marks
    the old version of an item as deleted, and, when the block is nearly full, lets a task
    copy the live items to the other block and erase the first.  The driver maps the two
    blocks to partitions of the internal flash; it changes bytes by reading a page, erasing
    it and writing it back.

    The virtual file system ([vfs.c], [vfs_inode.c], [vfs_register.c]) keeps a table of nodes,
    under which drivers and file systems are registered by path, and a table of open files.
    Eight drivers ([device/vfs_*.c]) put the hardware abstraction layer under it; the event
    device ([device.c]) is a queue of messages that can be polled.  [local_event.c] posts
    events and scheduled calls to that device and delivers what the event loop reads from it.
    The loop ([yloop.c]) polls the descriptors of its readers until the first of its delayed
    actions is due, runs that action and calls the readers that are ready.

    [base64.c] encodes bytes as characters; [crc.c] and [CheckSumUtils.c] compute checksums,
    among them that of firmware updates; [md5.c], [hmac.c] and [digest_algorithm.c] compute
    MD5 and its keyed form.

    ** The model

    Files that translate code, in dependency order:
    - [Prelude]: machine integers with explicit wrap-around, record update
      ([r <| f := v |>]), list lemmas shared by all files, tactics;
    - [Bitmap] ([k_bitmap.h]), [KList] ([k_list.h], over an explicit heap of nodes; the
      other files represent a ring by the list of its elements, which [KList] justifies),
      [KTypes] (structures, enumerations, configuration), [RunQueue] (the ready queue of
      [k_sched.c]), [RingBuf] ([k_ringbuf.c]);
    - [Kernel]: the record [kstate] of all kernel globals and of the memory the kernel
      manages, critical sections, [core_sched], interrupt entry and exit, time slices;
    - [Pend]: blocking and waking ([k_pend.c]), the tick list ([k_tick.c]), the priority
      propagation shared by [k_mutex.c] and [k_task.c];
    - [Alloc]: [krhino_mm_alloc] and [krhino_mm_free] as an interface (a type class with
      laws), instantiated by a reference allocator and, in [KernelHeap], by the allocator of
      [k_mm.c];
    - [Mm]: the allocator of [k_mm.c], on a memory of words;
    - [Task], [Sem], [Mutex], [Queue], [Event], [MmBlk], [Timer], [Workqueue], [TaskDyn],
      [Sys], [Time], [Fifo]: the files of the same names; every operation is one
      function of the state, with the parameter checks, early returns, critical sections
      and scheduling points of the source in their order;
    - [Kv]: [kvmgr.c], on its own state [kv_mgr_t], over the interface [Flash] of the flash
      driver and with memory allocations that may fail;
    - [FlashDrv]: [flash_l4.c] and [flash_port.c], over the interface [Chip] of the chip and
      the vendor's library;
    - [Vfs]: [vfs.c], [vfs_inode.c] and [vfs_register.c], over the interface [Aos] of mutexes,
      memory and the descriptors of sockets; a call returns nothing when the code has
      undefined behaviour; [VfsDev]: the drivers, over the interface [Hal];
    - [EvDev]: the event device and polling; [LocalEvent]: [local_event.c] on top of it;
      [Yloop]: [yloop.c], over the interface [LoopOs] of the clock, memory, polling and the
      event device, with callbacks that are programs calling the loop;
    - [Base64], [Crc], [Md5]: the files of [src/utility], on arrays of bytes; a read or write
      outside an array is a missing result.

    A C function on the kernel becomes [args -> kstate -> result * kstate].  Pointers are
    addresses in [Z] with [NULL = 0]; a structure is a record in the map of its kind.
    A blocking call is cut where the caller is switched out: its first half returns
    [None], and [blocked_return] (or the [_return] function of a queue) is what the caller
    executes when it runs again.  Interrupts are explicit: [krhino_intrpt_enter],
    [krhino_tick_proc] and [krhino_intrpt_exit] are steps like the calls, so that a run is
    any interleaving of calls of tasks and handlers.  Callbacks (timer callbacks, work
    handlers) are not part of the source and are parameters.

    The configuration is that of both boards: one CPU, 62 priorities, 100 ticks per
    second, 32-bit little-endian words, no hooks, no tracing, no dynamic tick, with round
    robin, event flags, task semaphores, wait abortion, timers and work queues enabled.

    ** The theorems

    - [Invariant], [InvPend], [PriInherit], [KInv]: the kernel invariant [kinv].  Ready
      queue, block lists and tick list hold exactly the tasks whose state says so, sorted
      the way the code relies on; the chain of mutexes of a task is what it owns; a task's
      priority is the most urgent of its base priority and of the tasks waiting for it;
      nobody waits for an object that has something to offer; outside interrupts and
      scheduler locks the preferred task runs; no fatal error was reported.
    - [ApiInv], [MutexInv], [TaskInv], [TaskApiInv], [TaskDelInv], [TaskDynInv], [Cx]:
      every operation preserves it; [Boot]: [krhino_init] establishes it.
    - [Reach] defines runs (any sequence of calls, interrupts and ticks whose callers
      respect the calling conventions) and [Safety] states what holds in every reachable
      state.
    - [Cx], [Reach]: interrupt mask, scheduler lock and active task across calls.
    - [Timeout], [Effects], [MutexEffects], [TaskEffects], [EventEffects], [QueueEffects]:
      what each call does, on every branch; [Errors]: failing calls change nothing,
      priority propagation terminates.
    - [Structures], [RingSpec], [RingQueue], [MmBlk], [Fifo]: bitmap, linked list, ready
      queue, ring buffer, block pool and FIFO refine a set, a list, a map, a message
      queue, a counter and a byte queue.
    - [MmBits], [MmList], [MmLayout]: size words and size classes, free lists and bitmaps,
      the physical layout of a region; [MmFree], [MmAlloc], [MmRealloc]: what
      each function does to them; [MmHeap]: what clients of the heap rely on, for every
      sequence of operations on a heap made of a pool; [KernelHeap]: the
      allocator implements the interface the kernel is proved against.
    - [KvLog], [KvFind], [KvOps]: the bytes of the log, its traversal, what
      the operations and the collection do to it; [KvSpec]: the map it stands for, and that the store
      refines a finite map with a space count; [KvRecover], [KvCrash]: what the
      start makes of everything the flash can hold when the power is lost; [KvClaims]: the
      guarantees from an unformatted flash on, and executions that show where they end.  The
      flash is any instance of [FlashOk]: bytes are read as written, inside a block, and
      each write or erasure happens as a whole or not at all.
    - [FlashSpec], [FlashClaims]: what the driver does on a chip that obeys
      [ChipOk], and the driver as the [Flash] of the store.  Reads, erasures of a block and
      writes inside a page do what [FlashOk] asks for; a write that crosses a page also
      changes bytes behind it ([flash_update_exact]), so the driver is not a [FlashOk]: what
      the store relies on is met except by writes that cross the middle of a block.
    - [VfsInv], [VfsPower], [VfsClaims]: every call of the file system keeps its
      tables well-formed and is defined, also when calls are interleaved where they release
      the mutex; a device is on exactly while it is open; executions that show what happens
      when a descriptor is closed twice or a device is opened by two tasks at once.
    - [EvClaims]: the event device is a queue, and what is posted is delivered once,
      in order, urgent events first; a polled device wakes its task ([poll_tells],
      [write_tells]).
    - [YloopSpec], [YloopClaims]: the history of a loop is one of an abstract loop that runs
      every action when it is due, in order, and calls exactly the ready readers; executions
      that show what happens when callbacks cancel readers.
    - [Base64]: the functions implement RFC 4648 and are inverse to each other.  [Crc]: the
      checksums are remainders of polynomials, and which changes of a message they detect.
      [Md5]: digests of messages in portions are those of RFC 1321 and RFC 2104.
    - [Time]: bounds of the conversions between ticks and milliseconds.  [TimerSpec]: the
      timer task runs exactly the due timers and re-arms them.

    ** Fuel

    Loops that are not structural take fuel: chains of mutexes [S (size (mutexes s))],
    because a chain visits a mutex at most once ([held_fuel]); priority propagation
    [pri_fuel], because every step moves one priority in one direction ([pri_loop]);
    waking all waiters the length of the block list; initialising a block pool the number
    of its blocks ([pool_init_spec]); merging regions the number of regions; the timer task's inner loop the number of due timers
    ([timer_expiry_exact]); the traversal of a block of the key-value store 513 items, because
    a block of 4096 bytes holds at most 341 ([traverse_scan], [recover_traverse]); an update of the
    flash a round for every page ([flash_update_exact]); encoding, decoding and hashing the
    length of the array ([base64_roundtrip], [digests_exact]); a byte of the CRC-16 eight
    rounds ([crc16_detects]).  The theorems named show that the fuel suffices.  The event loop
    runs until a callback ends it: its theorem is about any number of rounds.

    ** Not modelled

    The register frame and stack contents of tasks and the assembly of the context switch;
    tracing, statistics and hooks, which the boards disable; the fixed-size blocks inside the
    heap ([RHINO_CONFIG_MM_TLF_BLK_SIZE] is 0) and the debug fields of its blocks; the object
    sets of [k_obj_set.c], which the boards disable.  Adding regions to a heap is modelled
    ([krhino_add_mm_region]), but the theorems on the heap are about one region.  Of the key-value store:
    its mutex and its command line.  Of the flash driver: [FLASH_set_boot_bank], the secure
    partitions and the vendor's library.  The crash theorem takes a write as atomic; a power
    loss inside [FLASH_update], between the erasure of a page and its programming, is not
    covered.  Of the file system: the two configurations of polling with a network stack, and
    races inside the parts of a call.  Of the events: the work functions, and the mutex of the
    event device, under which its operations run as a whole.  Of the loop: the theorem excludes
    callbacks that cancel readers, for which the code is not always defined, and calls of
    other tasks on the same loop.  Of the digests: [digest_md5_file] and the third-party
    [sha2.c].  Outside: the sensor service, the wrappers of [src/kernel/vcall], the other drivers and vendor code, lwIP, FatFs, LoRaWAN, the GUI and the board tests. *)
From stdpp Require Export base numbers list gmap sorting.
From Stdlib Require Export ZArith Lia.

(** A step of a computation that may fail, without computing what it returns. *)
Lemma some_bind {A B} (f : A -> option B) x : (y ← Some x; f y) = f x.
Proof. done. Qed.

(** * Machine integers

    A [w]-bit unsigned C integer is a [Z] in [[0, 2^w)]; every operation that can
    leave that range is written with its wrap-around. *)
Module MachInt.
Local Open Scope Z_scope.

Definition wrap8 (x : Z) : Z := x mod 2 ^ 8.
Definition wrap16 (x : Z) : Z := x mod 2 ^ 16.
Definition wrap32 (x : Z) : Z := x mod 2 ^ 32.
Definition wrap64 (x : Z) : Z := x mod 2 ^ 64.

Definition u8 (x : Z) : Prop := 0 <= x < 2 ^ 8.
Definition byte (x : Z) : Prop := 0 <= x < 256.
#[export] Instance byte_dec x : Decision (byte x).
Proof. unfold byte. apply _. Defined.
Definition u32 (x : Z) : Prop := 0 <= x < 2 ^ 32.

Lemma wrap8_range x : u8 (wrap8 x).
Proof. unfold u8, wrap8. apply Z.mod_pos_bound. lia. Qed.

Lemma wrap32_range x : u32 (wrap32 x).
Proof. unfold u32, wrap32. apply Z.mod_pos_bound. lia. Qed.

Lemma wrap8_small x : u8 x -> wrap8 x = x.
Proof. unfold u8, wrap8. intros. by apply Z.mod_small. Qed.

Lemma wrap32_small x : u32 x -> wrap32 x = x.
Proof. unfold u32, wrap32. intros. by apply Z.mod_small. Qed.

Lemma wrap32_sub_l a b : wrap32 (wrap32 a - b) = wrap32 (a - b).
Proof. unfold wrap32. by rewrite Zminus_mod_idemp_l. Qed.

Lemma wrap32_sub_r a b : wrap32 (a - wrap32 b) = wrap32 (a - b).
Proof. unfold wrap32. by rewrite Zminus_mod_idemp_r. Qed.

Lemma wrap32_add_l a b : wrap32 (wrap32 a + b) = wrap32 (a + b).
Proof. unfold wrap32. by rewrite Zplus_mod_idemp_l. Qed.

End MachInt.
Export MachInt.

(** * Record update

    [r <| fld := v |>] is [r] with field [fld] replaced and [r <| fld ::= f |>]
    applies [f] to it.  A record type supports the notation once its eta-expansion
    is declared as an instance of [Eta]; the setter is computed from it. *)
Class Eta (R : Type) := { eta_expand : R -> R }.
Class Setter {R T : Type} (proj : R -> T) := { set_with : (T -> T) -> R -> R }.
Arguments set_with {R T} proj {_} _ _.

Ltac build_setter proj :=
  match type of proj with
  | ?R -> ?T =>
      let e := constr:(_ : Eta R) in
      let e' := eval hnf in e in
      match e' with
      | {| eta_expand := ?x |} =>
          let g := eval pattern proj in x in
          match g with
          | ?body _ =>
              let t := eval cbv beta in (fun (f : T -> T) => body (fun r => f (proj r))) in
              exact {| set_with := t |}
          end
      end
  end.

#[global] Hint Extern 1 (Setter ?p) => build_setter p : typeclass_instances.

Declare Scope rec_scope.
Delimit Scope rec_scope with rec.
Notation "r <| fld := v |>" := (set_with fld (fun _ => v) r)
  (at level 1, left associativity, format "r  <|  fld  :=  v  |>") : rec_scope.
Notation "r <| fld ::= f |>" := (set_with fld f r)
  (at level 1, left associativity, format "r  <|  fld  ::=  f  |>") : rec_scope.
Open Scope rec_scope.

(** [rsimpl] computes projections of updated records and nothing else, so that the
    other fields stay folded. *)
Ltac rsimpl_res p R T q i f r :=
  match goal with
  | _ => let _ := constr:(eq_refl : (fun (f' : T -> T) (r' : R) => p (@set_with R T q i f' r')) =
                                    (fun f' r' => p r')) in constr:(p r)
  | _ => let _ := constr:(eq_refl : (fun (f' : T -> T) (r' : R) => p (@set_with R T q i f' r')) =
                                    (fun f' r' => f' (q r'))) in
         let res := eval cbv beta in (f (q r)) in constr:(res)
  end.
Ltac rsimpl :=
  cbv beta;
  repeat match goal with
  | |- context [?p (@set_with ?R ?T ?q ?i ?f ?r)] =>
      let res := rsimpl_res p R T q i f r in change (p (@set_with R T q i f r)) with res
  end.
Ltac rsimpl_in H :=
  cbv beta in H;
  repeat match type of H with
  | context [?p (@set_with ?R ?T ?q ?i ?f ?r)] =>
      let res := rsimpl_res p R T q i f r in change (p (@set_with R T q i f r)) with res in H
  end.

(** Hints that close the recurring side conditions of the development. *)
Create HintDb rhino.
Create Rewrite HintDb rhino_rw.

(** * Lists *)

(** Insert [x] before the first element satisfying [stop], or at the end: what the
    kernel's "walk until [break], then [klist_insert]" loops compute. *)
Fixpoint insert_where {A} (stop : A -> bool) (x : A) (l : list A) : list A :=
  match l with
  | [] => [x]
  | y :: rest => if stop y then x :: y :: rest else y :: insert_where stop x rest
  end.

(** Remove every occurrence of an address. *)
Definition remove_addr (x : Z) (l : list Z) : list Z := filter (fun y => y <> x) l.

Section ListFacts.
Context {A : Type}.
Implicit Types (l : list A) (stop : A -> bool).

Lemma insert_where_split stop x l :
  exists l1 l2, l = l1 ++ l2 /\ insert_where stop x l = l1 ++ x :: l2.
Proof.
  induction l as [|y l IH]; simpl; [by exists [], []|].
  destruct (stop y); [by exists [], (y :: l)|].
  destruct IH as (l1 & l2 & -> & ->). by exists (y :: l1), l2.
Qed.

Lemma insert_where_ext stop stop' x l :
  (forall y, y ∈ l -> stop y = stop' y) -> insert_where stop x l = insert_where stop' x l.
Proof.
  induction l as [|y l IH]; simpl; [done|]. intros Hs. rewrite (Hs y) by set_solver.
  destruct (stop' y); [done|]. f_equal. apply IH. set_solver.
Qed.

Lemma insert_where_Permutation stop x l : insert_where stop x l ≡ₚ x :: l.
Proof.
  destruct (insert_where_split stop x l) as (l1 & l2 & -> & ->). symmetry. apply Permutation_middle.
Qed.

Lemma elem_of_insert_where stop x y l : y ∈ insert_where stop x l <-> y = x \/ y ∈ l.
Proof. rewrite (insert_where_Permutation stop x l). apply elem_of_cons. Qed.

Lemma NoDup_insert_where stop x l : NoDup (insert_where stop x l) <-> (x ∉ l) /\ NoDup l.
Proof. rewrite (insert_where_Permutation stop x l). apply NoDup_cons. Qed.

(** Inserting before the first strictly larger key keeps a list sorted by key. *)
Lemma insert_where_sorted (key : A -> Z) stop x l :
  (forall y, stop y = true <-> (key x < key y)%Z) ->
  StronglySorted (fun a b => key a <= key b)%Z l ->
  StronglySorted (fun a b => key a <= key b)%Z (insert_where stop x l).
Proof.
  intros Hstop. induction 1 as [|y l Hl IH Hy]; simpl; [by repeat constructor|].
  destruct (stop y) eqn:E.
  - apply Hstop in E. constructor; [by constructor|]. constructor; [lia|].
    eapply Forall_impl; [exact Hy|]. intros z ?; simpl in *; lia.
  - assert (~ key x < key y)%Z by (rewrite <- Hstop; congruence).
    constructor; [done|]. rewrite Forall_forall in *. intros z Hz.
    apply elem_of_insert_where in Hz as [->|Hz]; [lia|by apply Hy].
Qed.

Lemma StronglySorted_filter' (R : A -> A -> Prop) (P : A -> Prop) `{forall a, Decision (P a)} l :
  StronglySorted R l -> StronglySorted R (filter P l).
Proof.
  induction 1 as [|y l Hl IH Hy]; simpl; [constructor|].
  rewrite filter_cons. case_decide; [|done]. constructor; [done|].
  rewrite Forall_forall in *. intros z [_ Hz]%list_elem_of_filter. by apply Hy.
Qed.

Lemma StronglySorted_impl (R R' : A -> A -> Prop) l :
  (forall x y, x ∈ l -> y ∈ l -> R x y -> R' x y) -> StronglySorted R l -> StronglySorted R' l.
Proof.
  intros HR. induction 1 as [|y l Hl IH Hy]; [constructor|]. constructor.
  - apply IH. set_solver.
  - rewrite Forall_forall in *. intros z Hz. apply HR; [set_solver..|by apply Hy].
Qed.

(** Sortedness only depends on the keys of the list's own elements. *)
Lemma StronglySorted_ext (f g : A -> Z) l :
  (forall x, x ∈ l -> f x = g x) ->
  StronglySorted (fun a b => f a <= f b)%Z l -> StronglySorted (fun a b => g a <= g b)%Z l.
Proof.
  intros Heq. induction 1 as [|y l Hl IH Hy]; [constructor|].
  constructor.
  - apply IH. intros z Hz. apply Heq. by right.
  - rewrite Forall_forall in *. intros z Hz. rewrite <- !Heq by set_solver. by apply Hy.
Qed.

Lemma StronglySorted_head (key : A -> Z) x l y :
  StronglySorted (fun a b => key a <= key b)%Z (x :: l) -> y ∈ x :: l -> (key x <= key y)%Z.
Proof.
  intros Hs. inversion Hs as [|? ? ? Hf]; subst. rewrite Forall_forall in Hf.
  intros [->|Hy]%elem_of_cons; [lia|by apply Hf].
Qed.
End ListFacts.

Lemma elem_of_remove_addr x y l : y ∈ remove_addr x l <-> y <> x /\ y ∈ l.
Proof. unfold remove_addr. by rewrite list_elem_of_filter. Qed.

Lemma NoDup_remove_addr x l : NoDup l -> NoDup (remove_addr x l).
Proof. apply NoDup_filter. Qed.

Lemma remove_addr_not_in x l : x ∉ l -> remove_addr x l = l.
Proof.
  induction l as [|y l IH]; [done|]. intros Hx. unfold remove_addr in *. rewrite filter_cons.
  rewrite decide_True by set_solver. f_equal. apply IH. set_solver.
Qed.

Lemma remove_addr_middle x l1 l2 : x ∉ l1 -> x ∉ l2 -> remove_addr x (l1 ++ x :: l2) = l1 ++ l2.
Proof.
  intros H1 H2. unfold remove_addr. rewrite filter_app, filter_cons, decide_False by auto.
  f_equal; by apply remove_addr_not_in.
Qed.

Lemma remove_addr_head x l : NoDup (x :: l) -> remove_addr x (x :: l) = l.
Proof. intros [Hx Hl]%NoDup_cons. apply (remove_addr_middle x [] l); set_solver. Qed.

#[export] Hint Resolve NoDup_remove_addr StronglySorted_filter' : rhino.
