(* ===== verification/Bitmap.v ===== *)
(** * The priority bitmap ([kernel/rhino/core/include/k_bitmap.h])

    A bitmap is an array of 32-bit words numbered from the most significant bit
    of word 0.  [krhino_find_first_bit] is the software variant
    ([RHINO_CONFIG_BITMAP_HW == 0]): a scan over words followed by a binary search
    inside the first non-zero word.  The file proves that it returns the smallest
    set bit, and how [krhino_bitmap_set] and [krhino_bitmap_clear] act on bits. *)
From S2P Require Import Prelude.
Local Open Scope Z_scope.

Definition BITMAP_UNIT_SIZE : Z := 32.
Definition BITMAP_UNIT_MASK : Z := 0x1F.
Definition BITMAP_UNIT_BITS : Z := 5.

Definition BITMAP_MASK (nr : Z) : Z :=
  Z.shiftl 1 (BITMAP_UNIT_SIZE - 1 - Z.land nr BITMAP_UNIT_MASK).
Definition BITMAP_WORD (nr : Z) : Z := Z.shiftr nr BITMAP_UNIT_BITS.

Definition krhino_bitmap_set (bitmap : list Z) (nr : Z) : list Z :=
  alter (fun w => Z.lor w (BITMAP_MASK nr)) (Z.to_nat (BITMAP_WORD nr)) bitmap.

Definition krhino_bitmap_clear (bitmap : list Z) (nr : Z) : list Z :=
  alter (fun w => Z.land w (wrap32 (Z.lnot (BITMAP_MASK nr)))) (Z.to_nat (BITMAP_WORD nr)) bitmap.

(** The five tests of the binary search, applied to the first non-zero word. *)
Definition first_bit_in_word (tmp nr : Z) : Z :=
  let '(tmp, nr) := if Z.land tmp 0xFFFF0000 =? 0 then (wrap32 (Z.shiftl tmp 16), nr + 16) else (tmp, nr) in
  let '(tmp, nr) := if Z.land tmp 0xFF000000 =? 0 then (wrap32 (Z.shiftl tmp 8), nr + 8) else (tmp, nr) in
  let '(tmp, nr) := if Z.land tmp 0xF0000000 =? 0 then (wrap32 (Z.shiftl tmp 4), nr + 4) else (tmp, nr) in
  let '(tmp, nr) := if Z.land tmp 0xC0000000 =? 0 then (wrap32 (Z.shiftl tmp 2), nr + 2) else (tmp, nr) in
  if Z.land tmp 0x80000000 =? 0 then nr + 1 else nr.

(** The word scan.  [None] is the run past the end of the array that the C loop
    would make on an all-zero bitmap. *)
Fixpoint find_first_bit_from (bitmap : list Z) (nr : Z) : option Z :=
  match bitmap with
  | [] => None
  | w :: rest => if w =? 0 then find_first_bit_from rest (nr + BITMAP_UNIT_SIZE) else Some (first_bit_in_word w nr)
  end.

Definition krhino_find_first_bit (bitmap : list Z) : option Z := find_first_bit_from bitmap 0.

(** ** Specification: bit [nr] of a bitmap *)

Definition bitmap_test (bitmap : list Z) (nr : Z) : bool :=
  match bitmap !! Z.to_nat (nr / 32) with
  | Some w => Z.testbit w (31 - nr mod 32)
  | None => false
  end.

Definition bitmap_wf (bitmap : list Z) : Prop := Forall u32 bitmap.

(** ** Words *)

Lemma land_high_zero a b x :
  0 <= a -> 0 <= b -> 0 <= x < 2 ^ (a + b) ->
  Z.land x (Z.shiftl (Z.ones a) b) = 0 <-> x < 2 ^ b.
Proof.
  intros Ha Hb Hx.
  assert (Z.land x (Z.shiftl (Z.ones a) b) = Z.shiftl (Z.shiftr x b) b) as ->.
  { apply Z.bits_inj_iff'. intros n Hn. rewrite Z.land_spec, !Z.shiftl_spec by lia.
    destruct (Z.ltb_spec n b).
    - rewrite (Z.testbit_neg_r (Z.ones a)), (Z.testbit_neg_r (Z.shiftr x b)) by lia. by rewrite andb_false_r.
    - rewrite Z.shiftr_spec by lia. replace (n - b + b) with n by lia.
      destruct (Z.ltb_spec (n - b) a).
      + by rewrite Z.ones_spec_low, andb_true_r by lia.
      + rewrite Z.ones_spec_high, andb_false_r by lia. symmetry.
        destruct (decide (x = 0)) as [->|]; [apply Z.testbit_0_l|].
        apply Z.bits_above_log2; [lia|]. apply Z.log2_lt_pow2; [lia|].
        eapply Z.lt_le_trans; [apply Hx|]. apply Z.pow_le_mono_r; lia. }
  rewrite Z.shiftl_eq_0_iff, Z.shiftr_eq_0_iff by lia. split.
  - intros [->|[? Hl]]; [lia|]. apply Z.log2_lt_pow2; lia.
  - intros Hl. destruct (decide (x = 0)); [by left|]. right.
    split; [lia|]. apply Z.log2_lt_pow2; lia.
Qed.

(** One halving step of the search keeps [nr - log2 tmp] and raises the known
    lower bound of [tmp]. *)
Lemma search_step a b m tmp nr :
  0 < a -> a <= b -> a + b = 32 -> m = Z.shiftl (Z.ones a) b ->
  2 ^ (b - a) <= tmp < 2 ^ 32 ->
  let r := if Z.land tmp m =? 0 then (wrap32 (Z.shiftl tmp a), nr + a) else (tmp, nr) in
  2 ^ b <= r.1 < 2 ^ 32 /\ r.2 - Z.log2 r.1 = nr - Z.log2 tmp.
Proof.
  intros Ha Hb Hab -> [Hlo Hhi]. pose proof (Z.pow_pos_nonneg 2 (b - a)).
  pose proof (land_high_zero a b tmp ltac:(lia) ltac:(lia)) as Hz.
  rewrite Hab in Hz. specialize (Hz ltac:(lia)).
  destruct (Z.eqb_spec (Z.land tmp (Z.shiftl (Z.ones a) b)) 0) as [E|E]; simpl.
  - apply Hz in E. rewrite Z.shiftl_mul_pow2 by lia.
    assert (2 ^ b = 2 ^ (b - a) * 2 ^ a) as Hba by (rewrite <- Z.pow_add_r by lia; f_equal; lia).
    assert (2 ^ 32 = 2 ^ b * 2 ^ a) as H32 by (rewrite <- Z.pow_add_r by lia; f_equal; lia).
    pose proof (Z.pow_pos_nonneg 2 a).
    assert (tmp * 2 ^ a < 2 ^ 32) by (rewrite H32; apply Z.mul_lt_mono_pos_r; lia).
    rewrite wrap32_small by (unfold u32; nia).
    rewrite Z.log2_mul_pow2 by lia. split; [|lia].
    split; [rewrite Hba; apply Z.mul_le_mono_pos_r; lia | lia].
  - split; [|done]. split; [|lia].
    destruct (Z.le_gt_cases (2 ^ b) tmp); [done|]. exfalso. apply E, Hz. lia.
Qed.

(** The binary search returns the index, from the most significant bit, of the
    highest set bit of a non-zero word. *)
Lemma first_bit_in_word_spec w nr :
  0 < w < 2 ^ 32 -> first_bit_in_word w nr = nr + 31 - Z.log2 w.
Proof.
  intros Hw. unfold first_bit_in_word.
  destruct (search_step 16 16 0xFFFF0000 w nr) as [B1 E1]; [lia..|done|lia|].
  destruct (if Z.land w _ =? 0 then _ else _) as [t1 n1]; cbn [fst snd] in *.
  destruct (search_step 8 24 0xFF000000 t1 n1) as [B2 E2]; [lia..|done|lia|].
  destruct (if Z.land t1 _ =? 0 then _ else _) as [t2 n2]; cbn [fst snd] in *.
  destruct (search_step 4 28 0xF0000000 t2 n2) as [B3 E3]; [lia..|done|lia|].
  destruct (if Z.land t2 _ =? 0 then _ else _) as [t3 n3]; cbn [fst snd] in *.
  destruct (search_step 2 30 0xC0000000 t3 n3) as [B4 E4]; [lia..|done|lia|].
  destruct (if Z.land t3 _ =? 0 then _ else _) as [t4 n4]; cbn [fst snd] in *.
  destruct (search_step 1 31 0x80000000 t4 n4) as [B5 E5]; [lia..|done|lia|].
  assert (forall t, 2 ^ 31 <= t < 2 ^ 32 -> Z.log2 t = 31) as L.
  { intros t Ht. apply Z.log2_unique; lia. }
  pose proof (L _ B5). destruct (Z.land t4 _ =? 0); cbn [fst snd] in *; lia.
Qed.

Lemma testbit_above_log2 w i : 0 <= w -> Z.log2 w < i -> Z.testbit w i = false.
Proof. intros. by apply Z.bits_above_log2. Qed.

(** ** Bits of a bitmap *)

Lemma bitmap_test_cons_lo w l nr : 0 <= nr < 32 -> bitmap_test (w :: l) nr = Z.testbit w (31 - nr).
Proof.
  intros. unfold bitmap_test. rewrite Z.div_small, Z.mod_small by lia. done.
Qed.

Lemma bitmap_test_cons_hi w l nr : 32 <= nr -> bitmap_test (w :: l) nr = bitmap_test l (nr - 32).
Proof.
  intros. unfold bitmap_test.
  assert (nr / 32 = (nr - 32) / 32 + 1 /\ nr mod 32 = (nr - 32) mod 32) as [-> ->].
  { rewrite <- Z.div_add, <- (Z.mod_add (nr - 32) 1) by lia. split; f_equal; lia. }
  replace (Z.to_nat ((nr - 32) / 32 + 1)) with (S (Z.to_nat ((nr - 32) / 32))); [done|].
  pose proof (Z.div_pos (nr - 32) 32). lia.
Qed.

Lemma bitmap_test_nil nr : bitmap_test [] nr = false.
Proof. unfold bitmap_test. by rewrite lookup_nil. Qed.

Lemma find_first_bit_from_Some bitmap base nr :
  bitmap_wf bitmap -> find_first_bit_from bitmap base = Some nr ->
  base <= nr /\ bitmap_test bitmap (nr - base) = true /\
  (forall m, 0 <= m < nr - base -> bitmap_test bitmap m = false).
Proof.
  intros Hwf. revert base nr.
  induction Hwf as [|w l Hw Hl IH]; intros base nr; simpl; [done|].
  unfold u32, BITMAP_UNIT_SIZE in *.
  destruct (Z.eqb_spec w 0) as [->|Hnz].
  - intros [Hle [Ht Hm]]%IH. split; [lia|]. split.
    + rewrite bitmap_test_cons_hi by lia. by replace (nr - base - 32) with (nr - (base + 32)) by lia.
    + intros m Hm'. destruct (Z.lt_ge_cases m 32).
      * rewrite bitmap_test_cons_lo by lia. apply Z.testbit_0_l.
      * rewrite bitmap_test_cons_hi by lia. apply Hm. lia.
  - intros [= <-]. rewrite first_bit_in_word_spec by lia.
    pose proof (Z.log2_nonneg w). assert (Z.log2 w < 32) by (apply Z.log2_lt_pow2; lia).
    split; [lia|]. split.
    + rewrite bitmap_test_cons_lo by lia.
      replace (31 - (base + 31 - Z.log2 w - base)) with (Z.log2 w) by lia.
      apply Z.bit_log2. lia.
    + intros m Hm. rewrite bitmap_test_cons_lo by lia. apply testbit_above_log2; lia.
Qed.

Lemma find_first_bit_from_None bitmap base m :
  bitmap_wf bitmap -> find_first_bit_from bitmap base = None -> 0 <= m -> bitmap_test bitmap m = false.
Proof.
  intros Hwf. revert base m.
  induction Hwf as [|w l Hw Hl IH]; intros base m; simpl; [intros; apply bitmap_test_nil|].
  destruct (Z.eqb_spec w 0) as [->|Hnz]; [|done]. intros Hn Hm.
  destruct (Z.lt_ge_cases m 32).
  - rewrite bitmap_test_cons_lo by lia. apply Z.testbit_0_l.
  - rewrite bitmap_test_cons_hi by lia. eapply IH; [done|lia].
Qed.

(** C-level masks in terms of bit positions. *)
Lemma BITMAP_WORD_div nr : BITMAP_WORD nr = nr / 32.
Proof. unfold BITMAP_WORD, BITMAP_UNIT_BITS. by rewrite Z.shiftr_div_pow2. Qed.

Lemma BITMAP_MASK_pow nr : BITMAP_MASK nr = 2 ^ (31 - nr mod 32).
Proof.
  unfold BITMAP_MASK, BITMAP_UNIT_SIZE, BITMAP_UNIT_MASK.
  change 0x1F with (Z.ones 5). rewrite Z.land_ones by lia. change (2 ^ 5) with 32.
  rewrite Z.shiftl_1_l. f_equal.
Qed.

Lemma same_word_bit nr m :
  0 <= nr -> 0 <= m -> Z.to_nat (nr / 32) = Z.to_nat (m / 32) ->
  (31 - nr mod 32 =? 31 - m mod 32) = bool_decide (m = nr).
Proof.
  intros Hn Hm E. apply eq_bool_prop_intro. rewrite bool_decide_spec.
  pose proof (Z.div_pos nr 32). pose proof (Z.div_pos m 32).
  pose proof (Z.div_mod nr 32). pose proof (Z.div_mod m 32).
  rewrite Is_true_true, Z.eqb_eq. split; [lia|by intros ->].
Qed.

Lemma bitmap_test_set bitmap nr m :
  0 <= nr < 32 * Z.of_nat (length bitmap) -> 0 <= m ->
  bitmap_test (krhino_bitmap_set bitmap nr) m = bool_decide (m = nr) || bitmap_test bitmap m.
Proof.
  intros Hnr Hm. unfold bitmap_test, krhino_bitmap_set. rewrite BITMAP_WORD_div, BITMAP_MASK_pow.
  pose proof (Z.mod_pos_bound nr 32). pose proof (Z.mod_pos_bound m 32).
  rewrite list_lookup_alter. case_decide as E; [rewrite ?E|].
  - destruct (bitmap !! Z.to_nat (m / 32)) as [w|] eqn:Ew; simpl.
    + rewrite Z.lor_spec, Z.pow2_bits_eqb by lia.
      by rewrite orb_comm, same_word_bit by lia.
    + apply lookup_ge_None in Ew. assert (m / 32 < Z.of_nat (length bitmap)); [|lia].
      assert (nr / 32 < Z.of_nat (length bitmap)) by (apply Z.div_lt_upper_bound; lia).
      pose proof (Z.div_pos nr 32). pose proof (Z.div_pos m 32). lia.
  - rewrite bool_decide_false by congruence. done.
Qed.

Lemma bitmap_test_clear bitmap nr m :
  bitmap_wf bitmap -> 0 <= nr -> 0 <= m ->
  bitmap_test (krhino_bitmap_clear bitmap nr) m = negb (bool_decide (m = nr)) && bitmap_test bitmap m.
Proof.
  intros Hwf Hnr Hm. unfold bitmap_test, krhino_bitmap_clear. rewrite BITMAP_WORD_div, BITMAP_MASK_pow.
  pose proof (Z.mod_pos_bound nr 32). pose proof (Z.mod_pos_bound m 32).
  rewrite list_lookup_alter. case_decide as E; [rewrite ?E|].
  - destruct (bitmap !! Z.to_nat (m / 32)) as [w|] eqn:Ew; simpl; [|by rewrite andb_false_r].
    unfold wrap32. rewrite Z.land_spec, <- Z.land_ones, Z.land_spec by lia.
    rewrite Z.ones_spec_low, andb_true_r, Z.lnot_spec, Z.pow2_bits_eqb by lia.
    by rewrite andb_comm, same_word_bit by lia.
  - rewrite bool_decide_false by congruence. done.
Qed.

Lemma bitmap_wf_set bitmap nr : bitmap_wf bitmap -> bitmap_wf (krhino_bitmap_set bitmap nr).
Proof.
  intros Hwf. unfold krhino_bitmap_set. apply Forall_alter; [done|].
  intros w _ Hw. rewrite BITMAP_MASK_pow. pose proof (Z.mod_pos_bound nr 32). unfold u32 in *.
  assert (0 <= Z.lor w (2 ^ (31 - nr mod 32))).
  { apply Z.lor_nonneg. split; [lia|]. apply Z.pow_nonneg. lia. }
  split; [done|].
  destruct (decide (Z.lor w (2 ^ (31 - nr mod 32)) = 0)) as [->|]; [lia|].
  apply Z.log2_lt_pow2; [lia|]. rewrite Z.log2_lor by (try apply Z.pow_nonneg; lia).
  rewrite Z.log2_pow2 by lia. apply Z.max_lub_lt; [|lia].
  destruct (decide (w = 0)) as [->|]; [simpl; lia|]. apply Z.log2_lt_pow2; lia.
Qed.

Lemma bitmap_wf_clear bitmap nr : bitmap_wf bitmap -> bitmap_wf (krhino_bitmap_clear bitmap nr).
Proof.
  intros Hwf. unfold krhino_bitmap_clear. apply Forall_alter; [done|].
  intros w _ Hw. unfold u32 in *.
  pose proof (wrap32_range (Z.lnot (BITMAP_MASK nr))) as Hr. unfold u32 in Hr.
  assert (0 <= Z.land w (wrap32 (Z.lnot (BITMAP_MASK nr)))) by (apply Z.land_nonneg; lia).
  split; [done|].
  destruct (decide (Z.land w (wrap32 (Z.lnot (BITMAP_MASK nr))) = 0)) as [->|]; [lia|].
  apply Z.log2_lt_pow2; [lia|]. eapply Z.le_lt_trans; [apply Z.log2_land; lia|].
  apply Z.min_lt_iff. left. destruct (decide (w = 0)) as [->|]; [simpl; lia|]. apply Z.log2_lt_pow2; lia.
Qed.

Lemma length_bitmap_set bitmap nr : length (krhino_bitmap_set bitmap nr) = length bitmap.
Proof. apply length_alter. Qed.

Lemma length_bitmap_clear bitmap nr : length (krhino_bitmap_clear bitmap nr) = length bitmap.
Proof. apply length_alter. Qed.

#[export] Hint Resolve bitmap_wf_set bitmap_wf_clear : rhino.
#[export] Hint Rewrite length_bitmap_set length_bitmap_clear : rhino_rw.
