(* ===== verification/KList.v ===== *)
(** * Intrusive doubly linked lists ([kernel/rhino/core/include/k_list.h])

    Every list of the kernel is a ring of [klist_t] nodes embedded in larger
    structures.  Here the nodes live in an explicit heap from addresses to their
    two pointers, and each operation performs the C assignments in order.  The
    predicate [ring h l] says that the nodes [l] form one ring of [h].  The
    theorems show that the pointer operations implement list operations on rings
    (append, insert before an element, remove, rotate) and leave every disjoint
    ring alone; the other files of the development therefore represent a list
    with sentinel [H], [ring h (H :: l)], by [l], and a sentinel-free ready list
    whose [cur_list_item] is [x], [ring h (x :: l)], by [x :: l]. *)
From S2P Require Import Prelude.

Record klist_t := { next : Z; prev : Z }.
#[export] Instance eta_klist : Eta klist_t := {| eta_expand := fun n => {| next := next n; prev := prev n |} |}.
#[export] Instance klist_inhabited : Inhabited klist_t := populate {| next := 0; prev := 0 |}.

Abbreviation heap := (gmap Z klist_t).

Implicit Types (h : heap) (a b e x y head : Z) (l : list Z).

(** [a->next = v] and [a->prev = v]. *)
Definition store_next (a v : Z) (h : heap) : heap := <[a := (h !!! a) <| next := v |>]> h.
Definition store_prev (a v : Z) (h : heap) : heap := <[a := (h !!! a) <| prev := v |>]> h.

Definition klist_init (list_head : Z) (h : heap) : heap :=
  store_prev list_head list_head (store_next list_head list_head h).

Definition is_klist_empty (list : Z) (h : heap) : bool := bool_decide (next (h !!! list) = list).

Definition klist_insert (head element : Z) (h : heap) : heap :=
  let h := store_prev element (prev (h !!! head)) h in
  let h := store_next element head h in
  let h := store_next (prev (h !!! head)) element h in
  store_prev head element h.

Definition klist_add (head element : Z) (h : heap) : heap :=
  let h := store_prev element head h in
  let h := store_next element (next (h !!! head)) h in
  let h := store_prev (next (h !!! head)) element h in
  store_next head element h.

Definition klist_rm (element : Z) (h : heap) : heap :=
  let h := store_next (prev (h !!! element)) (next (h !!! element)) h in
  store_prev (next (h !!! element)) (prev (h !!! element)) h.

Definition klist_rm_init (element : Z) (h : heap) : heap :=
  let h := store_next (prev (h !!! element)) (next (h !!! element)) h in
  let h := store_prev (next (h !!! element)) (prev (h !!! element)) h in
  let h := store_prev element element h in
  store_next element (prev (h !!! element)) h.

(** ** Reading a stored heap *)

Lemma next_store_next h a v b : next (store_next a v h !!! b) = if decide (a = b) then v else next (h !!! b).
Proof.
  unfold store_next. case_decide; subst; [by rewrite lookup_total_insert_eq|by rewrite lookup_total_insert_ne].
Qed.

Lemma prev_store_next h a v b : prev (store_next a v h !!! b) = prev (h !!! b).
Proof.
  unfold store_next. destruct (decide (a = b)) as [->|];
    [by rewrite lookup_total_insert_eq|by rewrite lookup_total_insert_ne].
Qed.

Lemma prev_store_prev h a v b : prev (store_prev a v h !!! b) = if decide (a = b) then v else prev (h !!! b).
Proof.
  unfold store_prev. case_decide; subst; [by rewrite lookup_total_insert_eq|by rewrite lookup_total_insert_ne].
Qed.

Lemma next_store_prev h a v b : next (store_prev a v h !!! b) = next (h !!! b).
Proof.
  unfold store_prev. destruct (decide (a = b)) as [->|];
    [by rewrite lookup_total_insert_eq|by rewrite lookup_total_insert_ne].
Qed.

#[export] Hint Rewrite next_store_next prev_store_next prev_store_prev next_store_prev : rhino_rw.

(** Case analysis on every address comparison of a heap read. *)
Ltac heap_cases :=
  autorewrite with rhino_rw;
  repeat (case_decide; subst; autorewrite with rhino_rw in *; try congruence).

(** ** Rings *)

Definition link (h : heap) (a b : Z) : Prop := next (h !!! a) = b /\ prev (h !!! b) = a.

(** [seg h a l b]: following [next] from [a] visits [l] and then reaches [b], and
    the [prev] pointers agree. *)
Fixpoint seg (h : heap) (a : Z) (l : list Z) (b : Z) : Prop :=
  match l with
  | [] => link h a b
  | x :: l' => link h a x /\ seg h x l' b
  end.

Definition ring (h : heap) (l : list Z) : Prop :=
  NoDup l /\ match l with [] => False | x :: l' => seg h x l' x end.

Lemma seg_app h a l1 x l2 b : seg h a (l1 ++ x :: l2) b <-> seg h a l1 x /\ seg h x l2 b.
Proof. revert a. induction l1 as [|y l1 IH]; intros a; simpl; [done|]. rewrite IH. tauto. Qed.

Lemma seg_snoc h a l x b : seg h a (l ++ [x]) b <-> seg h a l x /\ link h x b.
Proof. by rewrite seg_app. Qed.

(** A segment depends only on the [next] fields of its sources and the [prev]
    fields of its targets. *)
Lemma seg_frame h h' a l b :
  (forall y, y ∈ a :: l -> next (h' !!! y) = next (h !!! y)) ->
  (forall y, y ∈ l ++ [b] -> prev (h' !!! y) = prev (h !!! y)) ->
  seg h a l b -> seg h' a l b.
Proof.
  revert a. induction l as [|x l IH]; intros a Hn Hp; simpl.
  - intros [Ha Hb]. split; [rewrite Hn by set_solver|rewrite Hp by set_solver]; done.
  - intros [[Ha Hx] Hs]. split.
    + split; [rewrite Hn by set_solver|rewrite Hp by set_solver]; done.
    + apply IH; [set_solver..|done].
Qed.

Lemma ring_rotate h x l1 y l2 : ring h (x :: l1 ++ y :: l2) <-> ring h (y :: l2 ++ x :: l1).
Proof.
  unfold ring. rewrite !seg_app, (Permutation_app_comm (x :: l1) (y :: l2)).
  simpl. tauto.
Qed.

Lemma seg_last_prev h x l :
  seg h x l x -> exists l' z, x :: l = l' ++ [z] /\ prev (h !!! x) = z.
Proof.
  destruct l as [|y l] using rev_ind; simpl.
  - intros [_ Hp]. by exists [], x.
  - rewrite seg_snoc. intros [_ [_ Hp]]. by exists (x :: l), y.
Qed.

(** Pointers into the rest of a ring. *)
Lemma ring_prev_in h x l : ring h (x :: l) -> prev (h !!! x) ∈ x :: l.
Proof.
  intros [_ Hs]. destruct (seg_last_prev _ _ _ Hs) as (l' & z & -> & ->). set_solver.
Qed.

(** ** The operations on rings *)

Lemma klist_init_ring h x : ring (klist_init x h) [x].
Proof. split; [apply NoDup_singleton|]. unfold klist_init, link; simpl. split; heap_cases. Qed.

Lemma is_klist_empty_ring h x l : ring h (x :: l) -> is_klist_empty x h = bool_decide (l = []).
Proof.
  intros [Hd Hs]. unfold is_klist_empty. apply bool_decide_ext.
  destruct l as [|y l]; simpl in Hs; [split; [done|intros _; apply Hs]|]. destruct Hs as [[-> _] _].
  split; [|done]. intros ->. by apply NoDup_cons_1_1 in Hd; destruct Hd; left.
Qed.

(** The heap after [klist_insert] and [klist_rm], field by field. *)
Lemma klist_insert_reads h x e y :
  e <> x -> prev (h !!! x) <> e ->
  next (klist_insert x e h !!! y) =
    (if decide (y = prev (h !!! x)) then e else if decide (y = e) then x else next (h !!! y)) /\
  prev (klist_insert x e h !!! y) =
    (if decide (y = x) then e else if decide (y = e) then prev (h !!! x) else prev (h !!! y)).
Proof. intros Hne Hp. unfold klist_insert. split; heap_cases. Qed.

Lemma klist_rm_reads h e y :
  prev (h !!! e) <> e ->
  next (klist_rm e h !!! y) = (if decide (y = prev (h !!! e)) then next (h !!! e) else next (h !!! y)) /\
  prev (klist_rm e h !!! y) = (if decide (y = next (h !!! e)) then prev (h !!! e) else prev (h !!! y)).
Proof. intros Hp. unfold klist_rm. split; heap_cases. Qed.

Lemma seg_last h a l b : seg h a l b -> prev (h !!! b) = List.last l a.
Proof.
  destruct l as [|z l _] using rev_ind; simpl; [by intros [_ ?]|].
  rewrite seg_snoc, List.last_last. by intros [_ [_ ?]].
Qed.

Lemma seg_head h a l b : seg h a l b -> next (h !!! a) = hd b l.
Proof. destruct l; simpl; [by intros [? _]|by intros [[? _] _]]. Qed.

Lemma last_in l a : List.last l a ∈ a :: l.
Proof.
  destruct l as [|z l _] using rev_ind; simpl; [by left|].
  rewrite List.last_last. rewrite !elem_of_cons, elem_of_app, list_elem_of_singleton. tauto.
Qed.

(** Re-linking the end of a segment: writing the [next] field of its last node and
    the [prev] field of its target leaves the inner links alone. *)
Lemma seg_relink h h' a l b c :
  NoDup (a :: l) -> c ∉ l ->
  (forall y, y ∈ a :: l -> y <> List.last l a -> next (h' !!! y) = next (h !!! y)) ->
  (forall y, y ∈ l -> prev (h' !!! y) = prev (h !!! y)) ->
  next (h' !!! List.last l a) = c -> prev (h' !!! c) = List.last l a ->
  seg h a l b -> seg h' a l c.
Proof.
  destruct l as [|z l _] using rev_ind; simpl; [by split|].
  rewrite !seg_snoc, List.last_last. intros Hd Hc Hn Hp Hnz Hpc [Hs _]. split; [|by split].
  apply (NoDup_app (a :: l) [z]) in Hd as (Hd & Hz & _).
  eapply seg_frame; [| |exact Hs]; intros y Hy.
  - apply Hn; [rewrite app_comm_cons; apply elem_of_app; by left|].
    intros ->. apply (Hz _ Hy). by left.
  - by apply Hp.
Qed.

(** [klist_insert] at ring position [x] appends at the end of the ring that starts
    at [x]. *)
Lemma klist_insert_ring h x l e :
  ring h (x :: l) -> e ∉ x :: l -> ring (klist_insert x e h) (x :: l ++ [e]).
Proof.
  intros [Hd Hs] He. pose proof (seg_last _ _ _ _ Hs) as Hp. pose proof (last_in l x) as Hl.
  assert (e <> x) by (intros ->; apply He; by left).
  assert (prev (h !!! x) <> e) as Hpe by (rewrite Hp; intros <-; done).
  pose proof (fun y => klist_insert_reads h x e y H Hpe) as R. rewrite Hp in R.
  assert (List.last l x <> e) as Hle by congruence.
  split; [apply (NoDup_app (x :: l) [e]); split_and!; [done|set_solver +He|apply NoDup_singleton]|].
  rewrite seg_snoc. split.
  - eapply seg_relink; [done|..|exact Hs].
    + intros Hin. apply He. by right.
    + intros y Hy Hyl. rewrite (proj1 (R y)), !decide_False; [done|by intros ->|done].
    + intros y Hy. apply NoDup_cons in Hd as [Hx _].
      rewrite (proj2 (R y)), !decide_False; [done| |by intros ->].
      intros ->. apply He. by right.
    + rewrite (proj1 (R _)). by rewrite decide_True.
    + rewrite (proj2 (R e)). by rewrite decide_False, decide_True.
  - split; [rewrite (proj1 (R e))|rewrite (proj2 (R x))].
    + by rewrite decide_False, decide_True by done.
    + by rewrite decide_True.
Qed.

(** Insertion before the element [y] of a list with sentinel [x]. *)
Lemma klist_insert_before h x l1 y l2 e :
  ring h (x :: l1 ++ y :: l2) -> e ∉ x :: l1 ++ y :: l2 ->
  ring (klist_insert y e h) (x :: l1 ++ e :: y :: l2).
Proof.
  intros Hr He. apply ring_rotate in Hr.
  apply (klist_insert_ring _ _ _ e) in Hr; [|set_solver +He].
  rewrite <- app_assoc in Hr. simpl in Hr.
  apply (ring_rotate _ y l2 x (l1 ++ [e])) in Hr. by rewrite <- app_assoc in Hr.
Qed.

Lemma klist_add_ring h x l e :
  ring h (x :: l) -> e ∉ x :: l -> ring (klist_add x e h) (x :: e :: l).
Proof.
  intros [Hd Hs] He. assert (e <> x) by (intros ->; apply He; by left).
  pose proof (seg_head _ _ _ _ Hs) as Hn.
  assert (next (h !!! x) <> e) as Hne.
  { rewrite Hn. intros E. apply He. destruct l; simpl in E; subst; set_solver +. }
  assert (forall y, next (klist_add x e h !!! y) =
      (if decide (y = x) then e else if decide (y = e) then next (h !!! x) else next (h !!! y)) /\
    prev (klist_add x e h !!! y) =
      (if decide (y = next (h !!! x)) then e else if decide (y = e) then x else prev (h !!! y))) as R.
  { intros y. unfold klist_add. split; heap_cases. }
  rewrite Hn in *. apply NoDup_cons in Hd as [Hx Hd].
  split; [rewrite !NoDup_cons; set_solver +He Hx Hd|]. simpl. split; [split|].
  - by rewrite (proj1 (R x)), decide_True.
  - by rewrite (proj2 (R e)), decide_False, decide_True.
  - destruct l as [|z l]; simpl in *.
    + split; [by rewrite (proj1 (R e)), decide_False, decide_True|by rewrite (proj2 (R x)), decide_True].
    + destruct Hs as [_ Hs]. apply NoDup_cons in Hd as [Hz Hd]. split; [split|].
      * by rewrite (proj1 (R e)), decide_False, decide_True.
      * by rewrite (proj2 (R z)), decide_True.
      * eapply seg_frame; [| |exact Hs]; intros y Hy.
        -- rewrite (proj1 (R y)), !decide_False; [done| |]; intros ->; set_solver +He Hx Hy.
        -- rewrite (proj2 (R y)), !decide_False; [done| |]; intros ->; set_solver +He Hx Hz Hy.
Qed.

(** [klist_rm] unlinks an element of the ring that starts at [x]. *)
Lemma klist_rm_ring h x l1 e l2 :
  ring h (x :: l1 ++ e :: l2) -> ring (klist_rm e h) (x :: l1 ++ l2).
Proof.
  intros [Hd Hs]. rewrite seg_app in Hs. destruct Hs as [Hs1 Hs2].
  pose proof (seg_last _ _ _ _ Hs1) as Hp. pose proof (seg_head _ _ _ _ Hs2) as Hn.
  pose proof (last_in l1 x) as Hl.
  assert (NoDup (e :: (x :: l1) ++ l2)) as Hd'.
  { rewrite app_comm_cons in Hd. by rewrite <- Permutation_middle in Hd. }
  apply NoDup_cons in Hd' as [He Hd']. split; [done|].
  assert (List.last l1 x <> e) as Hle.
  { intros E. apply He, elem_of_app. left. by rewrite <- E. }
  pose proof (fun y => klist_rm_reads h e y) as R. rewrite Hp, Hn in R. specialize (fun y => R y Hle).
  apply NoDup_app in Hd' as (Hd1 & H12 & Hd2).
  assert (forall c, c = hd x l2 -> c ∉ l1) as Hc.
  { intros c ->. destruct l2 as [|z l2]; simpl.
    - by apply NoDup_cons in Hd1 as [? _].
    - intros Hz. apply (H12 z); [by right|by left]. }
  assert (seg (klist_rm e h) x l1 (hd x l2)) as S1.
  { eapply seg_relink; [done|by apply Hc|..|exact Hs1].
    - intros y Hy Hyl. by rewrite (proj1 (R y)), decide_False.
    - intros y Hy. rewrite (proj2 (R y)), decide_False; [done|]. intros ->. exact (Hc _ eq_refl Hy).
    - by rewrite (proj1 (R _)), decide_True.
    - by rewrite (proj2 (R _)), decide_True. }
  destruct l2 as [|z l2]; simpl in S1; [by rewrite app_nil_r|].
  apply seg_app. split; [done|]. destruct Hs2 as [_ Hs2]. apply NoDup_cons in Hd2 as [Hz Hd2].
  eapply seg_frame; [| |exact Hs2]; intros y Hy; simpl in R.
  - rewrite (proj1 (R y)), decide_False; [done|]. intros ->. exact (H12 _ Hl Hy).
  - rewrite (proj2 (R y)), decide_False; [done|]. intros ->.
    apply elem_of_app in Hy as [Hy|Hy]; [done|]. apply list_elem_of_singleton in Hy. subst.
    apply (H12 x); by left.
Qed.

Lemma klist_rm_init_eq h e : prev (h !!! e) <> e -> klist_rm_init e h = klist_init e (klist_rm e h).
Proof.
  intros Hp. unfold klist_rm_init, klist_init. fold (klist_rm e h).
  assert (prev (store_prev e e (klist_rm e h) !!! e) = e) as -> by heap_cases.
  unfold store_next, store_prev. rewrite !lookup_total_insert_eq, !insert_insert_eq. by simpl.
Qed.

(** Initialising or removing nodes touches no node outside the ring. *)
Lemma ring_frame h h' l :
  (forall y, y ∈ l -> h' !!! y = h !!! y) -> ring h l -> ring h' l.
Proof.
  intros Heq [Hd Hs]. split; [done|]. destruct l as [|x l]; [done|].
  eapply seg_frame; [| |exact Hs]; intros y Hy; rewrite Heq; set_solver +Hy.
Qed.

Lemma klist_insert_frame h x l e l' :
  ring h (x :: l) -> ring h l' -> (forall y, y ∈ l' -> y ∉ e :: x :: l) ->
  ring (klist_insert x e h) l'.
Proof.
  intros Hr Hr' Hdis. pose proof (ring_prev_in _ _ _ Hr) as Hp. eapply ring_frame, Hr'.
  intros y Hy. specialize (Hdis _ Hy). unfold klist_insert, store_next, store_prev.
  assert (y <> e /\ y <> x /\ y <> prev (h !!! x)) as (? & ? & ?) by set_solver +Hdis Hp.
  destruct (decide (e = x)) as [->|].
  - rewrite !lookup_total_insert_ne by (rewrite ?lookup_total_insert_eq; simpl; auto). done.
  - rewrite !lookup_total_insert_ne by (rewrite ?lookup_total_insert_ne by auto; auto). done.
Qed.

Lemma klist_rm_frame h x l1 e l2 l' :
  ring h (x :: l1 ++ e :: l2) -> ring h l' -> (forall y, y ∈ l' -> y ∉ x :: l1 ++ e :: l2) ->
  ring (klist_rm e h) l'.
Proof.
  intros Hr Hr' Hdis. pose proof (proj1 (ring_rotate _ _ _ _ _) Hr) as Hr2.
  pose proof (ring_prev_in _ _ _ Hr2) as Hp.
  assert (next (h !!! e) ∈ x :: l1 ++ e :: l2) as Hn.
  { destruct Hr as [_ Hs]. rewrite seg_app in Hs. destruct Hs as [_ Hs].
    rewrite (seg_head _ _ _ _ Hs). destruct l2; simpl; set_solver +. }
  eapply ring_frame, Hr'. intros y Hy. specialize (Hdis _ Hy). unfold klist_rm.
  assert (y <> prev (h !!! e)) by set_solver +Hdis Hp.
  unfold store_prev. rewrite lookup_total_insert_ne.
  - unfold store_next. by rewrite lookup_total_insert_ne.
  - intros E. apply Hdis. rewrite <- E, next_store_next. case_decide; done.
Qed.

(** ** Walking a list

    [for (tmp = head->next; tmp != head; tmp = tmp->next) if (stop) break;]: the
    loop of [pend_list_add], [tick_list_pri_insert] and [timer_list_pri_insert].
    The fuel bounds the number of iterations. *)
Fixpoint klist_walk (fuel : nat) (stop : Z -> bool) (tmp list_end : Z) (h : heap) : Z :=
  match fuel with
  | O => tmp
  | S fuel =>
      if decide (tmp = list_end) then tmp
      else if stop tmp then tmp
      else klist_walk fuel stop (next (h !!! tmp)) list_end h
  end.

Definition klist_walk_insert (fuel : nat) (stop : Z -> bool) (head element : Z) (h : heap) : heap :=
  klist_insert (klist_walk fuel stop (next (h !!! head)) head h) element h.

Lemma klist_walk_spec h fuel stop a l b e :
  seg h a l b -> b ∉ l -> (length l <= fuel)%nat ->
  exists l1 l2, l = l1 ++ l2 /\ insert_where stop e l = l1 ++ e :: l2 /\
    klist_walk fuel stop (hd b l) b h = hd b l2.
Proof.
  revert fuel a. induction l as [|y l IH]; intros fuel a Hs Hb Hf; simpl.
  - exists [], []. split_and!; [done..|]. destruct fuel; simpl; [done|]. by rewrite decide_True.
  - destruct fuel as [|fuel]; simpl in Hf; [lia|]. destruct Hs as [_ Hs]. simpl.
    rewrite decide_False by set_solver +Hb. destruct (stop y) eqn:E.
    + by exists [], (y :: l).
    + rewrite (seg_head _ _ _ _ Hs).
      destruct (IH fuel y Hs ltac:(set_solver +Hb) ltac:(lia)) as (l1 & l2 & -> & -> & ->).
      by exists (y :: l1), l2.
Qed.

(** The pointer walk followed by [klist_insert] computes [insert_where]. *)
Lemma klist_walk_insert_ring h fuel stop head l e :
  ring h (head :: l) -> e ∉ head :: l -> (length l <= fuel)%nat ->
  ring (klist_walk_insert fuel stop head e h) (head :: insert_where stop e l).
Proof.
  intros Hr He Hf. pose proof Hr as [Hd Hs]. apply NoDup_cons in Hd as [Hh _].
  destruct (klist_walk_spec h fuel stop _ _ _ e Hs Hh Hf) as (l1 & l2 & El & Ei & Ew).
  unfold klist_walk_insert. rewrite (seg_head _ _ _ _ Hs), Ew, Ei. subst l.
  destruct l2 as [|z l2]; simpl.
  - rewrite app_nil_r in Hr, He. by apply klist_insert_ring.
  - by apply klist_insert_before.
Qed.

(** Removing [t] from a sentinel-free ring through [cur_list_item], as
    [ready_list_rm] does: the new current item is the next one when [t] was current. *)
Lemma klist_rm_cur h c l t :
  ring h (c :: l) -> l <> [] -> t ∈ c :: l ->
  let c' := if decide (c = t) then next (h !!! c) else c in
  exists l', remove_addr t (c :: l) = c' :: l' /\ ring (klist_rm t h) (c' :: l').
Proof.
  intros Hr Hl Ht. pose proof Hr as [Hd Hs]. simpl. case_decide as E.
  - subst. destruct l as [|y l]; [done|]. rewrite remove_addr_head by done.
    exists l. rewrite (seg_head _ _ _ _ Hs). split; [done|].
    apply (ring_rotate h t [] y l) in Hr. apply klist_rm_ring in Hr. by rewrite app_nil_r in Hr.
  - apply elem_of_cons in Ht as [->|Ht]; [done|].
    apply list_elem_of_split in Ht as (l1 & l2 & ->).
    exists (l1 ++ l2). split; [|by apply klist_rm_ring].
    rewrite app_comm_cons in Hd. apply NoDup_app in Hd as (_ & H1 & H2). apply NoDup_cons in H2 as [H2 _].
    apply (remove_addr_middle t (c :: l1) l2); [|done].
    intros Hin. apply (H1 t Hin). by left.
Qed.
