(* ===== verification/KTypes.v ===== *)
(** * Kernel types ([k_err.h], [k_obj.h], [k_task.h], [k_sem.h], [k_mutex.h], [k_event.h])

    Enumerations and structures of the kernel.  Pointers are addresses ([Z], [0] is
    [NULL]).  The [blk_obj_t] header that every blocking object starts with and the
    rest of the object live in separate maps of [kstate] under the same address, so
    the C casts between [blk_obj_t *] and [ksem_t *], [kmutex_t *], ... are
    lookups of one address in another map. *)
From S2P Require Import Prelude Bitmap.
Local Open Scope Z_scope.

Definition NULL : Z := 0.

(** ** Configuration ([k_config.h] of both boards, [k_default_config.h], [k_sys.h]) *)
Definition RHINO_CONFIG_PRI_MAX : Z := 62.
Definition NUM_WORDS : Z := (RHINO_CONFIG_PRI_MAX + 31) / 32.
Definition RHINO_IDLE_PRI : Z := RHINO_CONFIG_PRI_MAX - 1.
Definition RHINO_CONFIG_TICKS_PER_SECOND : Z := 100.
Definition RHINO_CONFIG_TIME_SLICE_DEFAULT : Z := 50.
Definition RHINO_CONFIG_INTRPT_MAX_NESTED_LEVEL : Z := 188.
Definition RHINO_CONFIG_TASK_INFO_NUM : Z := 2.
Definition SCHED_MAX_LOCK_COUNT : Z := 200.
Definition KSCHED_FIFO : Z := 0.
Definition KSCHED_RR : Z := 1.
Definition RHINO_NO_WAIT : Z := 0.
Definition RHINO_WAIT_FOREVER : Z := 0xffffffff.
Definition K_OBJ_STATIC_ALLOC : Z := 1.
Definition K_OBJ_DYN_ALLOC : Z := 2.

(** ** Status codes *)
Inductive kstat_t :=
| RHINO_SUCCESS
| RHINO_SYS_FATAL_ERR
| RHINO_SYS_SP_ERR
| RHINO_RUNNING
| RHINO_STOPPED
| RHINO_INV_PARAM
| RHINO_NULL_PTR
| RHINO_INV_ALIGN
| RHINO_KOBJ_TYPE_ERR
| RHINO_KOBJ_DEL_ERR
| RHINO_KOBJ_DOCKER_EXIST
| RHINO_KOBJ_BLK
| RHINO_KOBJ_SET_FULL
| RHINO_NOTIFY_FUNC_EXIST
| RHINO_MM_POOL_SIZE_ERR
| RHINO_MM_ALLOC_SIZE_ERR
| RHINO_MM_FREE_ADDR_ERR
| RHINO_MM_CORRUPT_ERR
| RHINO_DYN_MEM_PROC_ERR
| RHINO_NO_MEM
| RHINO_RINGBUF_FULL
| RHINO_RINGBUF_EMPTY
| RHINO_SCHED_DISABLE
| RHINO_SCHED_ALREADY_ENABLED
| RHINO_SCHED_LOCK_COUNT_OVF
| RHINO_INV_SCHED_WAY
| RHINO_TASK_INV_STACK_SIZE
| RHINO_TASK_NOT_SUSPENDED
| RHINO_TASK_DEL_NOT_ALLOWED
| RHINO_TASK_SUSPEND_NOT_ALLOWED
| RHINO_SUSPENDED_COUNT_OVF
| RHINO_BEYOND_MAX_PRI
| RHINO_PRI_CHG_NOT_ALLOWED
| RHINO_INV_TASK_STATE
| RHINO_IDLE_TASK_EXIST
| RHINO_NO_PEND_WAIT
| RHINO_BLK_ABORT
| RHINO_BLK_TIMEOUT
| RHINO_BLK_DEL
| RHINO_BLK_INV_STATE
| RHINO_BLK_POOL_SIZE_ERR
| RHINO_TIMER_STATE_INV
| RHINO_NO_THIS_EVENT_OPT
| RHINO_BUF_QUEUE_INV_SIZE
| RHINO_BUF_QUEUE_SIZE_ZERO
| RHINO_BUF_QUEUE_FULL
| RHINO_BUF_QUEUE_MSG_SIZE_OVERFLOW
| RHINO_QUEUE_FULL
| RHINO_QUEUE_NOT_FULL
| RHINO_SEM_OVF
| RHINO_SEM_TASK_WAITING
| RHINO_MUTEX_NOT_RELEASED_BY_OWNER
| RHINO_MUTEX_OWNER_NESTED
| RHINO_MUTEX_NESTED_OVF
| RHINO_INTRPT_NESTED_LEVEL_OVERFLOW
| RHINO_INV_INTRPT_NESTED_LEVEL
| RHINO_NOT_CALLED_BY_INTRPT
| RHINO_TRY_AGAIN
| RHINO_WORKQUEUE_EXIST
| RHINO_WORKQUEUE_NOT_EXIST
| RHINO_WORKQUEUE_WORK_EXIST
| RHINO_WORKQUEUE_BUSY
| RHINO_WORKQUEUE_WORK_RUNNING
| RHINO_TASK_STACK_OVF
| RHINO_INTRPT_STACK_OVF.

(** The numeric value of each code. *)
Definition kstat_code (e : kstat_t) : Z :=
  match e with
  | RHINO_SUCCESS => 0
  | RHINO_SYS_FATAL_ERR => 1
  | RHINO_SYS_SP_ERR => 2
  | RHINO_RUNNING => 3
  | RHINO_STOPPED => 4
  | RHINO_INV_PARAM => 5
  | RHINO_NULL_PTR => 6
  | RHINO_INV_ALIGN => 7
  | RHINO_KOBJ_TYPE_ERR => 8
  | RHINO_KOBJ_DEL_ERR => 9
  | RHINO_KOBJ_DOCKER_EXIST => 10
  | RHINO_KOBJ_BLK => 11
  | RHINO_KOBJ_SET_FULL => 12
  | RHINO_NOTIFY_FUNC_EXIST => 13
  | RHINO_MM_POOL_SIZE_ERR => 100
  | RHINO_MM_ALLOC_SIZE_ERR => 101
  | RHINO_MM_FREE_ADDR_ERR => 102
  | RHINO_MM_CORRUPT_ERR => 103
  | RHINO_DYN_MEM_PROC_ERR => 104
  | RHINO_NO_MEM => 105
  | RHINO_RINGBUF_FULL => 106
  | RHINO_RINGBUF_EMPTY => 107
  | RHINO_SCHED_DISABLE => 200
  | RHINO_SCHED_ALREADY_ENABLED => 201
  | RHINO_SCHED_LOCK_COUNT_OVF => 202
  | RHINO_INV_SCHED_WAY => 203
  | RHINO_TASK_INV_STACK_SIZE => 300
  | RHINO_TASK_NOT_SUSPENDED => 301
  | RHINO_TASK_DEL_NOT_ALLOWED => 302
  | RHINO_TASK_SUSPEND_NOT_ALLOWED => 303
  | RHINO_SUSPENDED_COUNT_OVF => 304
  | RHINO_BEYOND_MAX_PRI => 305
  | RHINO_PRI_CHG_NOT_ALLOWED => 306
  | RHINO_INV_TASK_STATE => 307
  | RHINO_IDLE_TASK_EXIST => 308
  | RHINO_NO_PEND_WAIT => 400
  | RHINO_BLK_ABORT => 401
  | RHINO_BLK_TIMEOUT => 402
  | RHINO_BLK_DEL => 403
  | RHINO_BLK_INV_STATE => 404
  | RHINO_BLK_POOL_SIZE_ERR => 405
  | RHINO_TIMER_STATE_INV => 500
  | RHINO_NO_THIS_EVENT_OPT => 600
  | RHINO_BUF_QUEUE_INV_SIZE => 700
  | RHINO_BUF_QUEUE_SIZE_ZERO => 701
  | RHINO_BUF_QUEUE_FULL => 702
  | RHINO_BUF_QUEUE_MSG_SIZE_OVERFLOW => 703
  | RHINO_QUEUE_FULL => 704
  | RHINO_QUEUE_NOT_FULL => 705
  | RHINO_SEM_OVF => 800
  | RHINO_SEM_TASK_WAITING => 801
  | RHINO_MUTEX_NOT_RELEASED_BY_OWNER => 900
  | RHINO_MUTEX_OWNER_NESTED => 901
  | RHINO_MUTEX_NESTED_OVF => 902
  | RHINO_INTRPT_NESTED_LEVEL_OVERFLOW => 1000
  | RHINO_INV_INTRPT_NESTED_LEVEL => 1001
  | RHINO_NOT_CALLED_BY_INTRPT => 1002
  | RHINO_TRY_AGAIN => 1003
  | RHINO_WORKQUEUE_EXIST => 1100
  | RHINO_WORKQUEUE_NOT_EXIST => 1101
  | RHINO_WORKQUEUE_WORK_EXIST => 1102
  | RHINO_WORKQUEUE_BUSY => 1103
  | RHINO_WORKQUEUE_WORK_RUNNING => 1104
  | RHINO_TASK_STACK_OVF => 1200
  | RHINO_INTRPT_STACK_OVF => 1201
  end.

#[export] Instance kstat_eq_dec : EqDecision kstat_t.
Proof.
  refine (fun a b => cast_if (decide (kstat_code a = kstat_code b))).
  - abstract (destruct a; destruct b; first [reflexivity | discriminate]).
  - abstract congruence.
Defined.

(** ** Enumerations *)
Inductive task_stat_t :=
| K_SEED | K_RDY | K_PEND | K_SUSPENDED | K_PEND_SUSPENDED | K_SLEEP | K_SLEEP_SUSPENDED | K_DELETED.
Inductive blk_policy_t := BLK_POLICY_PRI | BLK_POLICY_FIFO.
Inductive blk_state_t := BLK_FINISH | BLK_ABORT | BLK_TIMEOUT | BLK_DEL | BLK_INVALID.
Inductive kobj_type_t :=
| RHINO_OBJ_TYPE_NONE | RHINO_SEM_OBJ_TYPE | RHINO_MUTEX_OBJ_TYPE | RHINO_QUEUE_OBJ_TYPE
| RHINO_BUF_QUEUE_OBJ_TYPE | RHINO_TIMER_OBJ_TYPE | RHINO_EVENT_OBJ_TYPE | RHINO_MM_BLK_OBJ_TYPE
| RHINO_MM_OBJ_TYPE.

#[export] Instance task_stat_eq_dec : EqDecision task_stat_t.
Proof. solve_decision. Defined.
#[export] Instance blk_policy_eq_dec : EqDecision blk_policy_t.
Proof. solve_decision. Defined.
#[export] Instance blk_state_eq_dec : EqDecision blk_state_t.
Proof. solve_decision. Defined.
#[export] Instance kobj_type_eq_dec : EqDecision kobj_type_t.
Proof. solve_decision. Defined.

(** ** Structures *)

(** [ktask_t].  The list nodes [task_list] and [tick_list] are represented by the
    task's membership in the lists of [kstate]; the pointer [tick_head] is [NULL] or
    [&g_tick_head] and becomes a boolean.  Context, stack and name fields are
    constants of a task and are kept as addresses. *)
Record ktask_t := {
  task_stack_base : Z;
  stack_size : Z;
  suspend_count : Z;
  mutex_list : Z;
  tick_match : Z;
  tick_remain : Z;
  tick_head : bool;
  msg : Z;
  bq_msg_size : Z;
  task_name : Z;
  task_state : task_stat_t;
  blk_state : blk_state_t;
  blk_obj : Z;
  time_slice : Z;
  time_total : Z;
  pend_flags : Z;
  pend_info : Z;
  pend_option : Z;
  sched_policy : Z;
  cpu_num : Z;
  prio : Z;
  b_prio : Z;
  mm_alloc_flag : Z;
  user_info : list Z;
  task_sem_obj : Z;
}.
#[export] Instance eta_ktask : Eta ktask_t := {| eta_expand := fun t => {|
  task_stack_base := task_stack_base t; stack_size := stack_size t; suspend_count := suspend_count t;
  mutex_list := mutex_list t; tick_match := tick_match t; tick_remain := tick_remain t;
  tick_head := tick_head t; msg := msg t; bq_msg_size := bq_msg_size t; task_name := task_name t;
  task_state := task_state t; blk_state := blk_state t; blk_obj := blk_obj t; time_slice := time_slice t;
  time_total := time_total t; pend_flags := pend_flags t; pend_info := pend_info t;
  pend_option := pend_option t; sched_policy := sched_policy t; cpu_num := cpu_num t; prio := prio t;
  b_prio := b_prio t; mm_alloc_flag := mm_alloc_flag t; user_info := user_info t;
  task_sem_obj := task_sem_obj t |} |}.

(** The all-zero task that [memset] leaves: [K_SEED] and [BLK_FINISH] are the zero
    constructors of their enumerations. *)
Definition ktask_zero : ktask_t := {|
  task_stack_base := 0; stack_size := 0; suspend_count := 0; mutex_list := NULL; tick_match := 0;
  tick_remain := 0; tick_head := false; msg := NULL; bq_msg_size := 0; task_name := NULL;
  task_state := K_SEED; blk_state := BLK_FINISH; blk_obj := NULL; time_slice := 0; time_total := 0;
  pend_flags := 0; pend_info := NULL; pend_option := 0; sched_policy := 0; cpu_num := 0; prio := 0;
  b_prio := 0; mm_alloc_flag := 0; user_info := [0; 0]; task_sem_obj := NULL |}.
#[export] Instance ktask_inhabited : Inhabited ktask_t := populate ktask_zero.

Record blk_obj_t := {
  blk_list : list Z;
  obj_name : Z;
  blk_policy : blk_policy_t;
  obj_type : kobj_type_t;
}.
#[export] Instance eta_blk_obj : Eta blk_obj_t := {| eta_expand := fun o => {|
  blk_list := blk_list o; obj_name := obj_name o; blk_policy := blk_policy o; obj_type := obj_type o |} |}.
#[export] Instance blk_obj_inhabited : Inhabited blk_obj_t := populate {|
  blk_list := []; obj_name := NULL; blk_policy := BLK_POLICY_PRI; obj_type := RHINO_OBJ_TYPE_NONE |}.

Record ksem_t := { count : Z; peak_count : Z; sem_alloc_flag : Z }.
#[export] Instance eta_ksem : Eta ksem_t := {| eta_expand := fun s => {|
  count := count s; peak_count := peak_count s; sem_alloc_flag := sem_alloc_flag s |} |}.
#[export] Instance ksem_inhabited : Inhabited ksem_t := populate {|
  count := 0; peak_count := 0; sem_alloc_flag := 0 |}.

Record kmutex_t := {
  mutex_task : Z;
  mutex_next : Z;  (** the [mutex_list] link of [kmutex_t] *)
  owner_nested : Z;
  mutex_alloc_flag : Z;
}.
#[export] Instance eta_kmutex : Eta kmutex_t := {| eta_expand := fun m => {|
  mutex_task := mutex_task m; mutex_next := mutex_next m; owner_nested := owner_nested m;
  mutex_alloc_flag := mutex_alloc_flag m |} |}.
#[export] Instance kmutex_inhabited : Inhabited kmutex_t := populate {|
  mutex_task := NULL; mutex_next := NULL; owner_nested := 0; mutex_alloc_flag := 0 |}.

Record kevent_t := { flags : Z; event_alloc_flag : Z }.
#[export] Instance eta_kevent : Eta kevent_t := {| eta_expand := fun e => {|
  flags := flags e; event_alloc_flag := event_alloc_flag e |} |}.
#[export] Instance kevent_inhabited : Inhabited kevent_t := populate {| flags := 0; event_alloc_flag := 0 |}.

(** Block pools; the free list is threaded through the first word of the free blocks. *)
Record mblk_pool_t := {
  pool_obj_type : kobj_type_t;
  pool_name : Z;
  blk_size : Z;
  blk_avail : Z;
  blk_whole : Z;
  avail_list : Z;
}.
#[export] Instance eta_mblk_pool : Eta mblk_pool_t := {| eta_expand := fun p => {|
  pool_obj_type := pool_obj_type p; pool_name := pool_name p; blk_size := blk_size p; blk_avail := blk_avail
  p; blk_whole := blk_whole p; avail_list := avail_list p |} |}.
Definition mblk_pool_zero : mblk_pool_t := {|
  pool_obj_type := RHINO_OBJ_TYPE_NONE; pool_name := 0; blk_size := 0; blk_avail := 0; blk_whole := 0;
  avail_list := 0 |}.
#[export] Instance mblk_pool_inhabited : Inhabited mblk_pool_t := populate mblk_pool_zero.

(** Software timers. *)
Inductive k_timer_state_t := TIMER_DEACTIVE | TIMER_ACTIVE.
#[export] Instance k_timer_state_eq_dec : EqDecision k_timer_state_t.
Proof. solve_decision. Defined.

Record ktimer_t := {
  to_head : bool;  (** [NULL] or [&g_timer_head] *)
  timer_name : Z;
  cb : Z;
  timer_cb_arg : Z;
  match_ : Z;
  remain : Z;
  init_count : Z;
  round_ticks : Z;
  priv : Z;
  timer_obj_type : kobj_type_t;
  timer_state : k_timer_state_t;
  timer_alloc_flag : Z;
}.
#[export] Instance eta_ktimer : Eta ktimer_t := {| eta_expand := fun t => {|
  to_head := to_head t; timer_name := timer_name t; cb := cb t; timer_cb_arg := timer_cb_arg t; match_ :=
  match_ t; remain := remain t; init_count := init_count t; round_ticks := round_ticks t; priv := priv t;
  timer_obj_type := timer_obj_type t; timer_state := timer_state t; timer_alloc_flag := timer_alloc_flag t |} |}.
Definition ktimer_zero : ktimer_t := {|
  to_head := false; timer_name := 0; cb := 0; timer_cb_arg := 0; match_ := 0; remain := 0; init_count := 0;
  round_ticks := 0; priv := 0; timer_obj_type := RHINO_OBJ_TYPE_NONE; timer_state := TIMER_DEACTIVE;
  timer_alloc_flag := 0 |}.
#[export] Instance ktimer_inhabited : Inhabited ktimer_t := populate ktimer_zero.

(** A timer command; [cb_u] is the union of [round] and [arg]. *)
Record k_timer_queue_cb := {
  cb_timer : Z;
  cb_first : Z;
  cb_u : Z;
  cb_num : Z;
}.
#[export] Instance eta_k_timer_queue_cb : Eta k_timer_queue_cb := {| eta_expand := fun c => {|
  cb_timer := cb_timer c; cb_first := cb_first c; cb_u := cb_u c; cb_num := cb_num c |} |}.
Definition k_timer_queue_cb_zero : k_timer_queue_cb := {|
  cb_timer := 0; cb_first := 0; cb_u := 0; cb_num := 0 |}.
#[export] Instance k_timer_queue_cb_inhabited : Inhabited k_timer_queue_cb := populate k_timer_queue_cb_zero.

(** Work queues. *)
Record kwork_t := {
  handle : Z;
  work_arg : Z;
  dly : Z;
  work_timer : Z;
  wq : Z;
  work_exit : Z;
}.
#[export] Instance eta_kwork : Eta kwork_t := {| eta_expand := fun w => {|
  handle := handle w; work_arg := work_arg w; dly := dly w; work_timer := work_timer w; wq := wq w; work_exit
  := work_exit w |} |}.
Definition kwork_zero : kwork_t := {|
  handle := 0; work_arg := 0; dly := 0; work_timer := 0; wq := 0; work_exit := 0 |}.
#[export] Instance kwork_inhabited : Inhabited kwork_t := populate kwork_zero.

Record kworkqueue_t := {
  work_list : list Z;
  work_current : Z;
  workqueue_name : Z;
}.
#[export] Instance eta_kworkqueue : Eta kworkqueue_t := {| eta_expand := fun w => {|
  work_list := work_list w; work_current := work_current w; workqueue_name := workqueue_name w |} |}.
Definition kworkqueue_zero : kworkqueue_t := {|
  work_list := []; work_current := 0; workqueue_name := 0 |}.
#[export] Instance kworkqueue_inhabited : Inhabited kworkqueue_t := populate kworkqueue_zero.
