(* ===== verification/RunQueue.v ===== *)
(** * The ready queue ([runqueue_t] and the ready-list functions of [k_sched.c])

    [cur_list_item[p]] points into a ring of ready tasks of priority [p]; by the
    results of [KList] the ring is represented by the list of its tasks starting at
    the current item, and [NULL] by the empty list.  A C parameter [ktask_t *task] is
    the task's address together with its [prio] field.

    [rq_rep rq m] is the queue's abstract view: [m] maps every queued task to the
    priority it is queued at.  The theorems show that adding and removing tasks
    implement insertion and deletion in [m], that the bitmap and [highest_pri] stay
    exact, and that the preferred task is one of the highest ready priority. *)
From S2P Require Import Prelude Bitmap KTypes.
Local Open Scope Z_scope.

Record runqueue_t := {
  cur_list_item : gmap Z (list Z);
  task_bit_map : list Z;
  highest_pri : Z;
}.
#[export] Instance eta_runqueue : Eta runqueue_t := {| eta_expand := fun r => {|
  cur_list_item := cur_list_item r; task_bit_map := task_bit_map r; highest_pri := highest_pri r |} |}.

Definition ready_list (rq : runqueue_t) (p : Z) : list Z := cur_list_item rq !!! p.
Definition set_ready_list (p : Z) (l : list Z) (rq : runqueue_t) : runqueue_t :=
  rq <| cur_list_item ::= <[p := l]> |>.

Arguments ready_list : simpl never.

(** The loop over [prio] clears every pointer; the bitmap is not touched. *)
Definition runqueue_init (rq : runqueue_t) : runqueue_t :=
  rq <| highest_pri := RHINO_CONFIG_PRI_MAX |> <| cur_list_item := ∅ |>.

Definition ready_list_init (rq : runqueue_t) (task prio : Z) : runqueue_t :=
  let rq := set_ready_list prio [task] rq in
  let rq := rq <| task_bit_map ::= fun bm => krhino_bitmap_set bm prio |> in
  if prio <? highest_pri rq then rq <| highest_pri := prio |> else rq.

Definition is_ready_list_empty (rq : runqueue_t) (prio : Z) : bool := bool_decide (ready_list rq prio = []).

Definition ready_list_add_tail (rq : runqueue_t) (task prio : Z) : runqueue_t :=
  if is_ready_list_empty rq prio then ready_list_init rq task prio
  else set_ready_list prio (ready_list rq prio ++ [task]) rq.

Definition ready_list_add_head (rq : runqueue_t) (task prio : Z) : runqueue_t :=
  if is_ready_list_empty rq prio then ready_list_init rq task prio
  else set_ready_list prio (task :: ready_list rq prio) rq.

(** Tasks of the running task's priority queue up behind it, others go first. *)
Definition ready_list_add (rq : runqueue_t) (task prio active_prio : Z) : runqueue_t :=
  if prio =? active_prio then ready_list_add_tail rq task prio else ready_list_add_head rq task prio.

(** The second component is the code handed to [k_err_proc], if any. *)
Definition ready_list_rm (rq : runqueue_t) (task pri : Z) : runqueue_t * option kstat_t :=
  match ready_list rq pri with
  | cur :: ((_ :: _) as rest) =>
      (set_ready_list pri (if decide (cur = task) then rest else cur :: remove_addr task rest) rq, None)
  | _ =>
      let rq := set_ready_list pri [] rq in
      let rq := rq <| task_bit_map ::= fun bm => krhino_bitmap_clear bm pri |> in
      if negb (pri =? highest_pri rq) then (rq, None)
      else match krhino_find_first_bit (task_bit_map rq) with
           | Some i => if 0 <=? i then (rq <| highest_pri := i |>, None) else (rq, Some RHINO_SYS_FATAL_ERR)
           | None => (rq, None)
           end
  end.

Definition ready_list_head_to_tail (rq : runqueue_t) (prio : Z) : runqueue_t :=
  set_ready_list prio (match ready_list rq prio with [] => [] | x :: l => l ++ [x] end) rq.

Definition preferred_cpu_ready_task_get (rq : runqueue_t) : Z := hd NULL (ready_list rq (highest_pri rq)).

(** ** Abstract view *)

Record rq_rep (rq : runqueue_t) (m : gmap Z Z) : Prop := {
  rr_nodup : forall p, NoDup (ready_list rq p);
  rr_elem : forall t p, t ∈ ready_list rq p <-> m !! t = Some p;
  rr_range : forall t p, m !! t = Some p -> 0 <= p < RHINO_CONFIG_PRI_MAX;
  rr_wf : bitmap_wf (task_bit_map rq);
  rr_len : Z.of_nat (length (task_bit_map rq)) = NUM_WORDS;
  rr_bits : forall p, 0 <= p -> bitmap_test (task_bit_map rq) p = negb (bool_decide (ready_list rq p = []));
  rr_high_le : forall t p, m !! t = Some p -> highest_pri rq <= p;
  rr_high_in : m <> ∅ -> ready_list rq (highest_pri rq) <> [];
  rr_high_empty : m = ∅ -> RHINO_CONFIG_PRI_MAX <= highest_pri rq;
}.

Lemma ready_list_set rq p l q :
  ready_list (set_ready_list p l rq) q = if decide (p = q) then l else ready_list rq q.
Proof.
  unfold ready_list, set_ready_list; simpl. case_decide; subst;
    [by rewrite lookup_total_insert_eq|by rewrite lookup_total_insert_ne].
Qed.

Lemma rq_rep_nonempty rq m p : rq_rep rq m -> ready_list rq p <> [] <-> exists t, m !! t = Some p.
Proof.
  intros H. split.
  - intros Hl. destruct (ready_list rq p) as [|t l] eqn:E; [done|]. exists t.
    apply (rr_elem _ _ H). rewrite E. by left.
  - intros [t Ht] E. apply (rr_elem _ _ H) in Ht. rewrite E in Ht. by apply not_elem_of_nil in Ht.
Qed.

Lemma runqueue_init_rep rq :
  task_bit_map rq = [0; 0] -> rq_rep (runqueue_init rq) ∅.
Proof.
  intros Hb. assert (forall p, ready_list (runqueue_init rq) p = []) as E.
  { intros p. unfold ready_list, runqueue_init; simpl. by rewrite lookup_total_empty. }
  split; try (simpl; rewrite ?Hb; done).
  - intros p. rewrite E. constructor.
  - intros t p. rewrite E, lookup_empty. split; [by intros ?%not_elem_of_nil|done].
  - simpl. rewrite Hb. unfold bitmap_wf, u32. repeat constructor; lia.
  - intros p Hp. rewrite E. simpl. rewrite Hb. unfold bitmap_test.
    destruct (Z.to_nat (p / 32)) as [|[|n]]; simpl; [by rewrite Z.testbit_0_l..|done].
Qed.

(** Adding a task that is not queued, in front of or behind its equals. *)
Lemma rq_add_rep rq m t p l :
  rq_rep rq m -> m !! t = None -> 0 <= p < RHINO_CONFIG_PRI_MAX -> ready_list rq p <> [] ->
  l ≡ₚ t :: ready_list rq p ->
  rq_rep (set_ready_list p l rq) (<[t := p]> m).
Proof.
  intros H Ht Hp Hne Hl. destruct (proj1 (rq_rep_nonempty _ _ _ H) Hne) as [t0 Ht0].
  assert (t ∉ ready_list rq p) as Htp by (rewrite (rr_elem _ _ H), Ht; done).
  split; try exact (rr_wf _ _ H); try exact (rr_len _ _ H).
  - intros q. rewrite ready_list_set. case_decide as E; [|apply H].
    rewrite Hl. apply NoDup_cons. split; [done|apply H].
  - intros t' q. rewrite ready_list_set, lookup_insert. case_decide as E; subst.
    + rewrite Hl, elem_of_cons. case_decide; subst.
      * naive_solver.
      * rewrite (rr_elem _ _ H). naive_solver.
    + rewrite (rr_elem _ _ H). case_decide; subst; [|done]. naive_solver.
  - intros t' q. rewrite lookup_insert. case_decide; [by intros [= <-]|apply H].
  - intros q Hq. simpl. rewrite (rr_bits _ _ H) by done. f_equal. rewrite ready_list_set. case_decide; [|done].
    subst. rewrite !bool_decide_false; [done| |done]. intros ->. by apply Permutation_nil_cons in Hl.
  - intros t' q. rewrite lookup_insert. case_decide; [|apply H].
    intros [= <-]. by apply (rr_high_le _ _ H t0).
  - intros _. rewrite ready_list_set. simpl. case_decide; [intros ->; by apply Permutation_nil_cons in Hl|].
    apply (rr_high_in _ _ H). intros ->. by rewrite lookup_empty in Ht0.
  - intros E. by apply insert_non_empty in E.
Qed.

Lemma ready_list_init_rep rq m t p :
  rq_rep rq m -> m !! t = None -> 0 <= p < RHINO_CONFIG_PRI_MAX -> ready_list rq p = [] ->
  rq_rep (ready_list_init rq t p) (<[t := p]> m).
Proof.
  intros H Ht Hp Hne. unfold ready_list_init.
  set (rq1 := (set_ready_list p [t] rq) <| task_bit_map ::= fun bm => krhino_bitmap_set bm p |>).
  assert (forall q, ready_list (if p <? highest_pri rq1 then rq1 <| highest_pri := p |> else rq1) q =
           if decide (p = q) then [t] else ready_list rq q) as L.
  { intros q. rewrite <- ready_list_set. by destruct (p <? highest_pri rq1). }
  assert (task_bit_map (if p <? highest_pri rq1 then rq1 <| highest_pri := p |> else rq1) =
           krhino_bitmap_set (task_bit_map rq) p) as B by (by destruct (p <? highest_pri rq1)).
  assert (highest_pri (if p <? highest_pri rq1 then rq1 <| highest_pri := p |> else rq1) =
           Z.min p (highest_pri rq)) as Hh.
  { change (highest_pri rq1) with (highest_pri rq). destruct (Z.ltb_spec p (highest_pri rq)); simpl; lia. }
  split; rewrite ?B, ?Hh.
  - intros q. rewrite L. case_decide; [apply NoDup_singleton|apply H].
  - intros t' q. rewrite L, lookup_insert. case_decide; subst.
    + rewrite list_elem_of_singleton. case_decide; subst; [naive_solver|].
      rewrite <- (rr_elem _ _ H), Hne, elem_of_nil. naive_solver.
    + rewrite (rr_elem _ _ H). case_decide; subst; [naive_solver|done].
  - intros t' q. rewrite lookup_insert. case_decide; [by intros [= <-]|apply H].
  - apply bitmap_wf_set, H.
  - rewrite length_bitmap_set. apply H.
  - intros q Hq. rewrite bitmap_test_set, (rr_bits _ _ H), L; [|done| |done].
    + case_decide; subst.
      * by rewrite (bool_decide_true (q = q)) by done.
      * by rewrite (bool_decide_false (q = p)) by auto.
    + rewrite (rr_len _ _ H). unfold NUM_WORDS, RHINO_CONFIG_PRI_MAX in *. change ((62 + 31) / 32) with 2. lia.
  - intros t' q. rewrite lookup_insert. case_decide.
    + intros [= <-]. lia.
    + intros Hq. apply (rr_high_le _ _ H) in Hq. lia.
  - intros _. rewrite L. case_decide as E; [done|]. destruct (decide (m = ∅)) as [->|Hm].
    + pose proof (rr_high_empty _ _ H eq_refl). lia.
    + replace (p `min` highest_pri rq) with (highest_pri rq) by lia. by apply (rr_high_in _ _ H).
  - intros E. by apply insert_non_empty in E.
Qed.

Lemma ready_list_add_tail_rep rq m t p :
  rq_rep rq m -> m !! t = None -> 0 <= p < RHINO_CONFIG_PRI_MAX ->
  rq_rep (ready_list_add_tail rq t p) (<[t := p]> m).
Proof.
  intros H Ht Hp. unfold ready_list_add_tail, is_ready_list_empty.
  destruct (bool_decide_reflect (ready_list rq p = [])); [by apply ready_list_init_rep|].
  apply rq_add_rep; try done. by rewrite Permutation_app_comm.
Qed.

Lemma ready_list_add_head_rep rq m t p :
  rq_rep rq m -> m !! t = None -> 0 <= p < RHINO_CONFIG_PRI_MAX ->
  rq_rep (ready_list_add_head rq t p) (<[t := p]> m).
Proof.
  intros H Ht Hp. unfold ready_list_add_head, is_ready_list_empty.
  destruct (bool_decide_reflect (ready_list rq p = [])); [by apply ready_list_init_rep|].
  by apply rq_add_rep.
Qed.

Lemma ready_list_add_rep rq m t p ap :
  rq_rep rq m -> m !! t = None -> 0 <= p < RHINO_CONFIG_PRI_MAX ->
  rq_rep (ready_list_add rq t p ap) (<[t := p]> m).
Proof.
  intros. unfold ready_list_add.
  destruct (p =? ap); [by apply ready_list_add_tail_rep|by apply ready_list_add_head_rep].
Qed.

(** Removing a queued task while another one stays queued. *)
Lemma rq_rm_other rq m t p l :
  rq_rep rq m -> m !! t = Some p -> l <> [] -> l ≡ₚ remove_addr t (ready_list rq p) ->
  rq_rep (set_ready_list p l rq) (delete t m).
Proof.
  intros H Ht Hl Hperm.
  assert (exists t0, t0 <> t /\ m !! t0 = Some p) as (t0 & Hne & Ht0).
  { destruct l as [|t0 l]; [done|]. exists t0.
    assert (t0 ∈ remove_addr t (ready_list rq p)) as [? ?]%elem_of_remove_addr by (rewrite <- Hperm; by left).
    split; [done|]. by apply (rr_elem _ _ H). }
  assert (ready_list rq p <> []) as Hrp by (apply (rq_rep_nonempty _ _ _ H); eauto).
  split; try exact (rr_wf _ _ H); try exact (rr_len _ _ H).
  - intros q. rewrite ready_list_set. case_decide; [rewrite Hperm; apply NoDup_remove_addr|]; apply H.
  - intros t' q. rewrite ready_list_set, lookup_delete. case_decide; subst.
    + rewrite Hperm, elem_of_remove_addr, (rr_elem _ _ H). case_decide; naive_solver.
    + rewrite (rr_elem _ _ H). case_decide; naive_solver.
  - intros t' q. rewrite lookup_delete. case_decide; [done|apply H].
  - intros q Hq. simpl. rewrite (rr_bits _ _ H) by done. f_equal. rewrite ready_list_set. case_decide; [|done].
    subst. by rewrite !bool_decide_false.
  - intros t' q. rewrite lookup_delete. case_decide; [done|apply H].
  - intros _. rewrite ready_list_set; simpl. case_decide; [done|]. apply (rr_high_in _ _ H).
    intros ->. by rewrite lookup_empty in Ht.
  - intros E. apply (f_equal (lookup t0)) in E. rewrite lookup_delete_ne, lookup_empty in E by auto. congruence.
Qed.

(** Removing the last task of its priority. *)
Lemma rq_rm_last rq m t p :
  rq_rep rq m -> m !! t = Some p -> ready_list rq p = [t] -> delete t m <> ∅ ->
  rq_rep (ready_list_rm rq t p).1 (delete t m) /\ (ready_list_rm rq t p).2 = None.
Proof.
  intros H Ht Hl Hm. pose proof (rr_range _ _ H _ _ Ht) as Hp. unfold ready_list_rm. rewrite Hl.
  set (rq1 := (set_ready_list p [] rq) <| task_bit_map ::= fun bm => krhino_bitmap_clear bm p |>).
  assert (forall q, ready_list rq1 q = if decide (p = q) then [] else ready_list rq q) as L.
  { intros q. apply (ready_list_set rq p [] q). }
  assert (forall t' q, delete t m !! t' = Some q <-> m !! t' = Some q /\ q <> p) as D.
  { intros t' q. rewrite lookup_delete. case_decide; subst; [naive_solver|]. split; [|naive_solver].
    intros E. split; [done|]. intros ->. apply (rr_elem _ _ H) in E. rewrite Hl in E.
    by apply list_elem_of_singleton in E. }
  assert (forall hp, (forall t' q, delete t m !! t' = Some q -> hp <= q) ->
            ready_list rq1 hp <> [] -> rq_rep (rq1 <| highest_pri := hp |>) (delete t m)) as K.
  { intros hp Hle Hin.
    assert (forall q, ready_list (rq1 <| highest_pri := hp |>) q =
              if decide (p = q) then [] else ready_list rq q) as L' by exact L.
    split.
    - intros q. rewrite L'. case_decide; [constructor|apply H].
    - intros t' q. rewrite L', D, <- (rr_elem _ _ H). case_decide; subst; [|naive_solver].
      rewrite elem_of_nil. naive_solver.
    - intros t' q [? _]%D. by eapply (rr_range _ _ H).
    - apply bitmap_wf_clear, H.
    - simpl. rewrite length_bitmap_clear. apply H.
    - intros q Hq. rewrite L'.
      change (task_bit_map (rq1 <| highest_pri := hp |>)) with (krhino_bitmap_clear (task_bit_map rq) p).
      rewrite bitmap_test_clear, (rr_bits _ _ H); [|done|apply H|lia|done]. case_decide; subst.
      + by rewrite (bool_decide_true (q = q)) by done.
      + by rewrite (bool_decide_false (q = p)) by auto.
    - done.
    - intros _. exact Hin.
    - done. }
  change (highest_pri rq1) with (highest_pri rq).
  destruct (Z.eqb_spec p (highest_pri rq)) as [E|E]; simpl.
  - change (task_bit_map rq1) with (krhino_bitmap_clear (task_bit_map rq) p).
    assert (forall q, 0 <= q -> bitmap_test (krhino_bitmap_clear (task_bit_map rq) p) q =
              negb (bool_decide (ready_list rq1 q = []))) as Bt.
    { intros q Hq. rewrite bitmap_test_clear, (rr_bits _ _ H), L; [|done|apply H|lia|done].
      case_decide as Eq; [by rewrite <- Eq, (bool_decide_true (p = p)) by done|by rewrite (bool_decide_false (q = p)) by auto]. }
    assert (forall t' q, delete t m !! t' = Some q ->
              bitmap_test (krhino_bitmap_clear (task_bit_map rq) p) q = true /\ 0 <= q) as Bm.
    { intros t' q [Hq Hqp]%D. pose proof (rr_range _ _ H _ _ Hq). split; [|lia].
      rewrite Bt, L, decide_False, bool_decide_false by (auto; lia || (apply (rq_rep_nonempty _ _ _ H); eauto)).
      done. }
    unfold krhino_find_first_bit.
    destruct (find_first_bit_from _ _) as [i|] eqn:F.
    + apply find_first_bit_from_Some in F as (Hi & Ti & Mi); [|apply bitmap_wf_clear, H].
      rewrite Z.sub_0_r in *. rewrite (proj2 (Z.leb_le _ _) Hi). split; [|done]. apply K.
      * intros t' q Hq. destruct (Bm _ _ Hq) as [Tq ?]. destruct (Z.le_gt_cases i q); [done|].
        rewrite Mi in Tq by lia. done.
      * intros Hn. rewrite Bt, bool_decide_true in Ti by done. done.
    + exfalso. apply map_choose in Hm as (t' & q & Hq). destruct (Bm _ _ Hq) as [Tq Hq0].
      rewrite (find_first_bit_from_None _ 0 q) in Tq; [done|apply bitmap_wf_clear, H|done|done].
  - split; [|done]. replace rq1 with (rq1 <| highest_pri := highest_pri rq |>) by done. apply K.
    + intros t' q [? _]%D. by eapply (rr_high_le _ _ H).
    + rewrite L, decide_False by auto. apply (rr_high_in _ _ H). intros ->. by rewrite lookup_empty in Ht.
Qed.

Lemma ready_list_rm_rep rq m t p :
  rq_rep rq m -> m !! t = Some p -> delete t m <> ∅ ->
  rq_rep (ready_list_rm rq t p).1 (delete t m) /\ (ready_list_rm rq t p).2 = None.
Proof.
  intros H Ht Hm. pose proof (proj2 (rr_elem _ _ H t p) Ht) as Hin.
  pose proof (rr_nodup _ _ H p) as Hd.
  destruct (ready_list rq p) as [|c [|y l]] eqn:E; [by apply not_elem_of_nil in Hin| |].
  - apply list_elem_of_singleton in Hin. subst. by apply rq_rm_last.
  - unfold ready_list_rm. rewrite E. split; [|done]. apply rq_rm_other; try done; simpl; case_decide; try done.
    + subst. by rewrite E, remove_addr_head.
    + rewrite E. unfold remove_addr. by rewrite (filter_cons _ c), decide_True.
Qed.

(** Rotating the tasks of one priority changes no membership. *)
Lemma ready_list_head_to_tail_rep rq m p :
  rq_rep rq m -> rq_rep (ready_list_head_to_tail rq p) m.
Proof.
  intros H. unfold ready_list_head_to_tail.
  set (l := match ready_list rq p with [] => [] | x :: l => l ++ [x] end).
  assert (l ≡ₚ ready_list rq p) as Hl.
  { subst l. destruct (ready_list rq p) as [|x l]; [done|]. by rewrite Permutation_app_comm. }
  assert (forall q, ready_list (set_ready_list p l rq) q ≡ₚ ready_list rq q) as P.
  { intros q. rewrite ready_list_set. case_decide; [by subst|done]. }
  assert (forall q, ready_list (set_ready_list p l rq) q = [] <-> ready_list rq q = []) as N.
  { intros q. specialize (P q). split; intros E; rewrite E in P;
      [by apply Permutation_nil_l in P|by apply Permutation_nil_r in P]. }
  destruct H as [? Hel ? ? ? Hb ? Hin ?]. split; try done.
  - intros q. by rewrite (P q).
  - intros t q. by rewrite (P q).
  - intros q Hq. change (task_bit_map (set_ready_list p l rq)) with (task_bit_map rq).
    rewrite Hb by done. f_equal. apply bool_decide_ext. by rewrite N.
  - intros Hm. change (highest_pri (set_ready_list p l rq)) with (highest_pri rq). rewrite N. by apply Hin.
Qed.

(** The preferred task is queued, and at the smallest (most urgent) queued level. *)
Lemma preferred_highest rq m :
  rq_rep rq m -> m <> ∅ ->
  exists p, m !! preferred_cpu_ready_task_get rq = Some p /\ forall t q, m !! t = Some q -> p <= q.
Proof.
  intros H Hm. pose proof (rr_high_in _ _ H Hm) as Hh. unfold preferred_cpu_ready_task_get.
  exists (highest_pri rq). split; [|apply (rr_high_le _ _ H)].
  apply (rr_elem _ _ H). destruct (ready_list rq (highest_pri rq)); [done|]. simpl. by left.
Qed.
