(* ===== verification/Kernel.v ===== *)
(** * Kernel state and the scheduler ([k_obj.c], [k_critical.h], [k_sched.c], [k_err.c], [k_sys.c])

    One record holds the kernel's global variables and memory: task control blocks,
    the blocking objects, the ready queue, the tick list and the interrupt mask.
    A C function that changes the kernel is a function on this record; early
    returns are nested conditionals.  The configuration is the uniprocessor one of
    both boards ([RHINO_CONFIG_CPU_NUM] is 1, so [cpu_cur_get()] is 0 and the per-CPU
    arrays are scalars), with [RHINO_CONFIG_SCHED_RR], [RHINO_CONFIG_SYSTEM_STATS] and
    [RHINO_CONFIG_TASK_WAIT_ABORT] enabled and statistics, tracing, hooks and dynamic
    tick disabled.

    A critical section saves the interrupt mask in a local [cpsr] and restores it on
    exit.  [cpu_task_switch] makes the preferred task the active one. *)
From S2P Require Import Prelude Bitmap KTypes RunQueue RingBuf.
Local Open Scope Z_scope.

Record kqueue_t := {
  q_ringbuf : k_ringbuf_t;
  queue_start : Z;
  q_size : Z;
  q_cur_num : Z;
  q_peak_num : Z;
  queue_alloc_flag : Z;
}.
#[export] Instance eta_kqueue : Eta kqueue_t := {| eta_expand := fun q => {|
  q_ringbuf := q_ringbuf q; queue_start := queue_start q; q_size := q_size q; q_cur_num := q_cur_num q;
  q_peak_num := q_peak_num q; queue_alloc_flag := queue_alloc_flag q |} |}.
#[export] Instance kqueue_inhabited : Inhabited kqueue_t := populate {|
  q_ringbuf := inhabitant; queue_start := 0; q_size := 0; q_cur_num := 0; q_peak_num := 0; queue_alloc_flag := 0 |}.

Record kbuf_queue_t := {
  bq_buf : Z;
  bq_ringbuf : k_ringbuf_t;
  max_msg_size : Z;
  bq_cur_num : Z;
  bq_peak_num : Z;
  min_free_buf_size : Z;
  buf_queue_alloc_flag : Z;
}.
#[export] Instance eta_kbuf_queue : Eta kbuf_queue_t := {| eta_expand := fun q => {|
  bq_buf := bq_buf q; bq_ringbuf := bq_ringbuf q; max_msg_size := max_msg_size q; bq_cur_num := bq_cur_num q;
  bq_peak_num := bq_peak_num q; min_free_buf_size := min_free_buf_size q;
  buf_queue_alloc_flag := buf_queue_alloc_flag q |} |}.
#[export] Instance kbuf_queue_inhabited : Inhabited kbuf_queue_t := populate {|
  bq_buf := 0; bq_ringbuf := inhabitant; max_msg_size := 0; bq_cur_num := 0; bq_peak_num := 0;
  min_free_buf_size := 0; buf_queue_alloc_flag := 0 |}.

(** The lists of all live objects kept for statistics. *)
Record kobj_list_t := {
  task_head : list Z;
  mutex_head : list Z;
  sem_head : list Z;
  queue_head : list Z;
  event_head : list Z;
  buf_queue_head : list Z;
  mblkpool_head : list Z;
}.
#[export] Instance eta_kobj_list : Eta kobj_list_t := {| eta_expand := fun k => {|
  task_head := task_head k; mutex_head := mutex_head k; sem_head := sem_head k; queue_head := queue_head k;
  event_head := event_head k; buf_queue_head := buf_queue_head k; mblkpool_head := mblkpool_head k |} |}.

(** [res_free_t]: blocks to be freed by [dyn_mem_proc_task].  The structure itself lies
    at the bottom of the deleted task's stack. *)
Record res_free_t := { res : list Z; cnt : Z }.

Record kstate := {
  g_sys_stat : kstat_t;
  g_idle_task_spawned : Z;
  g_ready_queue : runqueue_t;
  g_sched_lock : Z;
  g_intrpt_nested_level : Z;
  g_preferred_ready_task : Z;
  g_active_task : Z;
  g_tick_count : Z;
  g_tick_head : list Z;
  g_sys_time_tick : Z;
  g_kobj_list : kobj_list_t;
  g_res_list : list res_free_t;
  tasks : gmap Z ktask_t;
  blk_objs : gmap Z blk_obj_t;
  sems : gmap Z ksem_t;
  mutexes : gmap Z kmutex_t;
  events : gmap Z kevent_t;
  queues : gmap Z kqueue_t;
  buf_queues : gmap Z kbuf_queue_t;
  mblk_pools : gmap Z mblk_pool_t;
  timers : gmap Z ktimer_t;
  timer_cbs : gmap Z k_timer_queue_cb;
  g_timer_head : list Z;
  g_timer_count : Z;
  works : gmap Z kwork_t;
  workqueues : gmap Z kworkqueue_t;
  g_workqueue_list_head : list Z;
  user_words : gmap Z Z;           (** caller-owned 32-bit words, by address *)
  user_bufs : gmap Z (list Z);     (** caller-owned message buffers, by address *)
  intrpt_masked : bool;            (** interrupts disabled *)
  err_log : list kstat_t;          (** codes passed to [g_err_proc] *)
}.
#[export] Instance eta_kstate : Eta kstate := {| eta_expand := fun s => {|
  g_sys_stat := g_sys_stat s; g_idle_task_spawned := g_idle_task_spawned s; g_ready_queue := g_ready_queue s;
  g_sched_lock := g_sched_lock s; g_intrpt_nested_level := g_intrpt_nested_level s;
  g_preferred_ready_task := g_preferred_ready_task s; g_active_task := g_active_task s;
  g_tick_count := g_tick_count s; g_tick_head := g_tick_head s; g_sys_time_tick := g_sys_time_tick s;
  g_kobj_list := g_kobj_list s; g_res_list := g_res_list s; tasks := tasks s; blk_objs := blk_objs s; sems := sems s;
  mutexes := mutexes s; events := events s; queues := queues s; buf_queues := buf_queues s;
  mblk_pools := mblk_pools s; timers := timers s; timer_cbs := timer_cbs s; g_timer_head := g_timer_head s;
  g_timer_count := g_timer_count s; works := works s; workqueues := workqueues s;
  g_workqueue_list_head := g_workqueue_list_head s;
  user_words := user_words s; user_bufs := user_bufs s; intrpt_masked := intrpt_masked s; err_log := err_log s |} |}.

(** The globals as the C start-up code leaves them. *)
Definition kobj_list_zero : kobj_list_t :=
  {| task_head := []; mutex_head := []; sem_head := []; queue_head := []; event_head := []; buf_queue_head := []; mblkpool_head := [] |}.

Definition kstate_zero : kstate := {|
  g_sys_stat := RHINO_SUCCESS; g_idle_task_spawned := 0;
  g_ready_queue := {| cur_list_item := ∅; task_bit_map := replicate (Z.to_nat NUM_WORDS) 0; highest_pri := 0 |};
  g_sched_lock := 0; g_intrpt_nested_level := 0; g_preferred_ready_task := NULL; g_active_task := NULL;
  g_tick_count := 0; g_tick_head := []; g_sys_time_tick := 0; g_kobj_list := kobj_list_zero; g_res_list := [];
  tasks := ∅; blk_objs := ∅; sems := ∅; mutexes := ∅; events := ∅; queues := ∅; buf_queues := ∅;
  mblk_pools := ∅; timers := ∅; timer_cbs := ∅; g_timer_head := []; g_timer_count := 0;
  works := ∅; workqueues := ∅; g_workqueue_list_head := [];
  user_words := ∅; user_bufs := ∅; intrpt_masked := false; err_log := [] |}.

Implicit Types (s : kstate) (task t o : Z).

(** ** Memory access *)
Definition task_of s task : ktask_t := tasks s !!! task.
Definition blk_of s o : blk_obj_t := blk_objs s !!! o.
Definition sem_of s o : ksem_t := sems s !!! o.
Definition mutex_of s o : kmutex_t := mutexes s !!! o.

Definition upd_task task (f : ktask_t -> ktask_t) s : kstate :=
  s <| tasks := <[task := f (tasks s !!! task)]> (tasks s) |>.
Definition upd_blk o (f : blk_obj_t -> blk_obj_t) s : kstate :=
  s <| blk_objs := <[o := f (blk_objs s !!! o)]> (blk_objs s) |>.
Definition upd_sem o (f : ksem_t -> ksem_t) s : kstate :=
  s <| sems := <[o := f (sems s !!! o)]> (sems s) |>.
Definition upd_mutex o (f : kmutex_t -> kmutex_t) s : kstate :=
  s <| mutexes := <[o := f (mutexes s !!! o)]> (mutexes s) |>.
Definition upd_event o (f : kevent_t -> kevent_t) s : kstate :=
  s <| events := <[o := f (events s !!! o)]> (events s) |>.
Definition upd_queue o (f : kqueue_t -> kqueue_t) s : kstate :=
  s <| queues := <[o := f (queues s !!! o)]> (queues s) |>.
Definition upd_buf_queue o (f : kbuf_queue_t -> kbuf_queue_t) s : kstate :=
  s <| buf_queues := <[o := f (buf_queues s !!! o)]> (buf_queues s) |>.

(** [klist_rm(&task->task_list)] for a task on an object's block list: the node
    leaves whichever block list holds it. *)
Definition blk_list_rm task s : kstate :=
  s <| blk_objs ::= fmap (fun b : blk_obj_t => b <| blk_list ::= remove_addr task |>) |>.

(** The hook [g_err_proc] is the application's; the model records the calls. *)
Definition k_err_proc (err : kstat_t) s : kstate := s <| err_log ::= fun l => l ++ [err] |>.

(** ** Critical sections *)
Definition RHINO_CPU_INTRPT_DISABLE s : bool * kstate := (intrpt_masked s, s <| intrpt_masked := true |>).
Definition RHINO_CPU_INTRPT_ENABLE (cpsr : bool) s : kstate := s <| intrpt_masked := cpsr |>.
Definition RHINO_CRITICAL_ENTER s : bool * kstate := RHINO_CPU_INTRPT_DISABLE s.
Definition RHINO_CRITICAL_EXIT (cpsr : bool) s : kstate := RHINO_CPU_INTRPT_ENABLE cpsr s.

(** The test of [INTRPT_NESTED_LEVEL_CHK]. *)
Definition in_intrpt s : bool := 0 <? g_intrpt_nested_level s.

(** ** Ready queue of the kernel *)
Definition k_ready_list_add task s : kstate :=
  s <| g_ready_queue := ready_list_add (g_ready_queue s) task (prio (task_of s task))
                          (prio (task_of s (g_active_task s))) |>.
Definition k_ready_list_add_head task s : kstate :=
  s <| g_ready_queue := ready_list_add_head (g_ready_queue s) task (prio (task_of s task)) |>.
Definition k_ready_list_add_tail task s : kstate :=
  s <| g_ready_queue := ready_list_add_tail (g_ready_queue s) task (prio (task_of s task)) |>.
Definition k_ready_list_rm task s : kstate :=
  let '(rq, err) := ready_list_rm (g_ready_queue s) task (prio (task_of s task)) in
  let s := s <| g_ready_queue := rq |> in
  match err with Some e => k_err_proc e s | None => s end.

(** ** Scheduling *)

(** [cpu_task_switch] pends the switch exception, whose handler stores
    [g_preferred_ready_task] into [g_active_task]. *)
Definition cpu_task_switch s : kstate := s <| g_active_task := g_preferred_ready_task s |>.

Definition core_sched s : kstate :=
  let '(cpsr, s) := RHINO_CPU_INTRPT_DISABLE s in
  if 0 <? g_intrpt_nested_level s then RHINO_CPU_INTRPT_ENABLE cpsr s
  else if 0 <? g_sched_lock s then RHINO_CPU_INTRPT_ENABLE cpsr s
  else
    let s := s <| g_preferred_ready_task := preferred_cpu_ready_task_get (g_ready_queue s) |> in
    if g_preferred_ready_task s =? g_active_task s then RHINO_CPU_INTRPT_ENABLE cpsr s
    else RHINO_CPU_INTRPT_ENABLE cpsr (cpu_task_switch s).

Definition RHINO_CRITICAL_EXIT_SCHED (cpsr : bool) s : kstate := core_sched (RHINO_CPU_INTRPT_ENABLE cpsr s).

Definition krhino_sched_disable s : kstat_t * kstate :=
  let '(cpsr, s) := RHINO_CRITICAL_ENTER s in
  if in_intrpt s then (RHINO_NOT_CALLED_BY_INTRPT, RHINO_CRITICAL_EXIT cpsr s)
  else if SCHED_MAX_LOCK_COUNT <=? g_sched_lock s then (RHINO_SCHED_LOCK_COUNT_OVF, RHINO_CRITICAL_EXIT cpsr s)
  else (RHINO_SUCCESS, RHINO_CRITICAL_EXIT cpsr (s <| g_sched_lock ::= fun n => wrap8 (n + 1) |>)).

Definition krhino_sched_enable s : kstat_t * kstate :=
  let '(cpsr, s) := RHINO_CRITICAL_ENTER s in
  if in_intrpt s then (RHINO_NOT_CALLED_BY_INTRPT, RHINO_CRITICAL_EXIT cpsr s)
  else if g_sched_lock s =? 0 then (RHINO_SCHED_ALREADY_ENABLED, RHINO_CRITICAL_EXIT cpsr s)
  else
    let s := s <| g_sched_lock ::= fun n => wrap8 (n - 1) |> in
    if 0 <? g_sched_lock s then (RHINO_SCHED_DISABLE, RHINO_CRITICAL_EXIT cpsr s)
    else (RHINO_SUCCESS, RHINO_CRITICAL_EXIT_SCHED cpsr s).

(** Round-robin accounting of the first task of a priority. *)
Definition time_slice_update (task_pri : Z) s : kstate :=
  let '(cpsr, s) := RHINO_CRITICAL_ENTER s in
  let l := ready_list (g_ready_queue s) task_pri in
  if is_ready_list_empty (g_ready_queue s) task_pri then RHINO_CRITICAL_EXIT cpsr s
  else
    let task := hd NULL l in
    if sched_policy (task_of s task) =? KSCHED_FIFO then RHINO_CRITICAL_EXIT cpsr s
    else if (length l =? 1)%nat then RHINO_CRITICAL_EXIT cpsr s
    else
      let s := if 0 <? time_slice (task_of s task)
               then upd_task task (fun k => k <| time_slice ::= fun n => n - 1 |>) s else s in
      if 0 <? time_slice (task_of s task) then RHINO_CRITICAL_EXIT cpsr s
      else
        let s := s <| g_ready_queue := ready_list_head_to_tail (g_ready_queue s) (prio (task_of s task)) |> in
        let s := upd_task task (fun k => k <| time_slice := time_total k |>) s in
        RHINO_CRITICAL_EXIT cpsr s.

(** ** Interrupt entry and exit *)
Definition krhino_intrpt_enter s : kstat_t * kstate :=
  let '(cpsr, s) := RHINO_CPU_INTRPT_DISABLE s in
  if RHINO_CONFIG_INTRPT_MAX_NESTED_LEVEL <=? g_intrpt_nested_level s then
    (RHINO_INTRPT_NESTED_LEVEL_OVERFLOW,
     RHINO_CPU_INTRPT_ENABLE cpsr (k_err_proc RHINO_INTRPT_NESTED_LEVEL_OVERFLOW s))
  else (RHINO_SUCCESS, RHINO_CPU_INTRPT_ENABLE cpsr (s <| g_intrpt_nested_level ::= fun n => wrap8 (n + 1) |>)).

(** [cpu_intrpt_switch] switches like [cpu_task_switch]. *)
Definition krhino_intrpt_exit s : kstate :=
  let '(cpsr, s) := RHINO_CPU_INTRPT_DISABLE s in
  let s := if g_intrpt_nested_level s =? 0
           then k_err_proc RHINO_INV_INTRPT_NESTED_LEVEL (RHINO_CPU_INTRPT_ENABLE cpsr s) else s in
  let s := s <| g_intrpt_nested_level ::= fun n => wrap8 (n - 1) |> in
  if 0 <? g_intrpt_nested_level s then RHINO_CPU_INTRPT_ENABLE cpsr s
  else if 0 <? g_sched_lock s then RHINO_CPU_INTRPT_ENABLE cpsr s
  else
    let s := s <| g_preferred_ready_task := preferred_cpu_ready_task_get (g_ready_queue s) |> in
    if g_preferred_ready_task s =? g_active_task s then RHINO_CPU_INTRPT_ENABLE cpsr s
    else RHINO_CPU_INTRPT_ENABLE cpsr (cpu_task_switch s).
