(* ===== verification/Pend.v ===== *)
(** * Blocking, timeouts and priority inheritance

    [k_pend.c], [k_tick.c], the priority part of [k_mutex.c] ([mutex_pri_limit],
    [mutex_pri_look], [mutex_release], [mutex_task_pri_reset]) and [task_pri_change] of
    [k_task.c], which call each other.

    The chain of mutexes a task owns is a linked list through [mutex_list] and
    [mutex_next]; loops over it take fuel [S (size (mutexes s))], which is enough
    because an acyclic chain visits each mutex at most once.  The priority
    propagation loop of [task_pri_change] has fuel [pri_fuel s]; [PriInherit] shows that
    it always suffices. *)
From S2P Require Import Prelude Bitmap KTypes RunQueue RingBuf Kernel.
Local Open Scope Z_scope.

Implicit Types (s : kstate) (task t o : Z).

(** ** The tick list *)

(** Ticks left before [task] times out, as the code computes it. *)
Definition ticks_left s task : Z := wrap32 (tick_match (task_of s task) - g_tick_count s).

Definition tick_list_pri_insert task s : kstate :=
  let val := tick_remain (task_of s task) in
  s <| g_tick_head := insert_where (fun q => val <? ticks_left s q) task (g_tick_head s) |>.

Definition tick_list_insert task (time : Z) s : kstate :=
  if 0 <? time then
    let s := upd_task task (fun k => k <| tick_match := wrap32 (g_tick_count s + time) |>) s in
    let s := upd_task task (fun k => k <| tick_remain := time |>) s in
    let s := tick_list_pri_insert task s in
    upd_task task (fun k => k <| tick_head := true |>) s
  else s.

Definition tick_list_rm task s : kstate :=
  if tick_head (task_of s task) then
    let s := s <| g_tick_head ::= remove_addr task |> in
    upd_task task (fun k => k <| tick_head := false |>) s
  else s.

(** ** Block lists ([k_pend.c]) *)
Definition pend_list_add o task s : kstate :=
  upd_blk o (fun b => b <| blk_list ::= insert_where (fun x => prio (task_of s task) <? prio (task_of s x)) task |>) s.

(** The common part of [pend_task_wakeup] and [pend_task_rm]: leave the block list
    according to the task's state. *)
Definition pend_unblock task s : kstate :=
  match task_state (task_of s task) with
  | K_PEND =>
      let s := blk_list_rm task s in
      let s := k_ready_list_add task s in
      upd_task task (fun k => k <| task_state := K_RDY |>) s
  | K_PEND_SUSPENDED =>
      let s := blk_list_rm task s in
      upd_task task (fun k => k <| task_state := K_SUSPENDED |>) s
  | _ => k_err_proc RHINO_SYS_FATAL_ERR s
  end.

Definition pend_task_wakeup task s : kstate :=
  let s := pend_unblock task s in
  let s := tick_list_rm task s in
  let s := upd_task task (fun k => k <| blk_state := BLK_FINISH |>) s in
  upd_task task (fun k => k <| blk_obj := NULL |>) s.

Definition pend_task_rm task s : kstate :=
  let s := pend_unblock task s in
  let s := tick_list_rm task s in
  let s := upd_task task (fun k => k <| blk_state := BLK_DEL |>) s in
  upd_task task (fun k => k <| blk_obj := NULL |>) s.

Definition pend_to_blk_obj o task (timeout : Z) s : kstate :=
  let s := upd_task task (fun k => k <| blk_obj := o |>) s in
  let s := if negb (timeout =? RHINO_WAIT_FOREVER) then tick_list_insert task timeout s else s in
  let s := upd_task task (fun k => k <| task_state := K_PEND |>) s in
  let s := k_ready_list_rm task s in
  match blk_policy (blk_of s o) with
  | BLK_POLICY_FIFO => upd_blk o (fun b => b <| blk_list ::= fun l => l ++ [task] |>) s
  | BLK_POLICY_PRI => pend_list_add o task s
  end.

Definition pend_list_reorder task s : kstate :=
  let o := blk_obj (task_of s task) in
  match blk_policy (blk_of s o) with
  | BLK_POLICY_PRI => pend_list_add o task (blk_list_rm task s)
  | BLK_POLICY_FIFO => s
  end.

Definition pend_state_end_proc task s : kstat_t * kstate :=
  match blk_state (task_of s task) with
  | BLK_FINISH => (RHINO_SUCCESS, s)
  | BLK_ABORT => (RHINO_BLK_ABORT, s)
  | BLK_TIMEOUT => (RHINO_BLK_TIMEOUT, s)
  | BLK_DEL => (RHINO_BLK_DEL, s)
  | BLK_INVALID => (RHINO_BLK_INV_STATE, k_err_proc RHINO_BLK_INV_STATE s)
  end.

(** [while (!is_klist_empty(head)) f(first task)]: one iteration per waiter; each
    iteration removes the first one. *)
Fixpoint while_blocked (fuel : nat) o (f : Z -> kstate -> kstate) s : kstate :=
  match fuel with
  | O => s
  | S fuel => match blk_list (blk_of s o) with [] => s | t :: _ => while_blocked fuel o f (f t s) end
  end.

Definition wake_all o (f : Z -> kstate -> kstate) s : kstate :=
  while_blocked (length (blk_list (blk_of s o))) o f s.

(** ** Priorities inherited through mutexes ([k_mutex.c]) *)
Definition mutex_fuel s : nat := S (size (mutexes s)).

Fixpoint mutex_pri_limit_loop (fuel : nat) (mutex_tmp pri high_pri : Z) s : Z :=
  match fuel with
  | O => high_pri
  | S fuel =>
      if mutex_tmp =? NULL then high_pri
      else
        let pri := match blk_list (blk_of s mutex_tmp) with
                   | [] => pri
                   | first_blk_task :: _ => prio (task_of s first_blk_task)
                   end in
        let high_pri := if pri <? high_pri then pri else high_pri in
        mutex_pri_limit_loop fuel (mutex_next (mutex_of s mutex_tmp)) pri high_pri s
  end.

Definition mutex_pri_limit task (pri : Z) s : Z :=
  mutex_pri_limit_loop (mutex_fuel s) (mutex_list (task_of s task)) pri pri s.

(** [kmutex_t **prev]: the link under inspection is the task's list head or the link
    of an earlier mutex. *)
Inductive mutex_link := LinkTask (t : Z) | LinkMutex (m : Z).

Definition read_link (l : mutex_link) s : Z :=
  match l with LinkTask t => mutex_list (task_of s t) | LinkMutex m => mutex_next (mutex_of s m) end.

Definition write_link (l : mutex_link) (v : Z) s : kstate :=
  match l with
  | LinkTask t => upd_task t (fun k => k <| mutex_list := v |>) s
  | LinkMutex m => upd_mutex m (fun k => k <| mutex_next := v |>) s
  end.

Fixpoint mutex_pri_look_loop (fuel : nat) (prev : mutex_link) (mutex_rel pri new_pri : Z) s : Z * kstate :=
  match fuel with
  | O => (new_pri, s)
  | S fuel =>
      let mutex_tmp := read_link prev s in
      if mutex_tmp =? NULL then (new_pri, s)
      else if mutex_tmp =? mutex_rel then
        mutex_pri_look_loop fuel prev mutex_rel pri new_pri
          (write_link prev (mutex_next (mutex_of s mutex_tmp)) s)
      else
        let pri := match blk_list (blk_of s mutex_tmp) with
                   | [] => pri
                   | first_blk_task :: _ => prio (task_of s first_blk_task)
                   end in
        let new_pri := if pri <? new_pri then pri else new_pri in
        mutex_pri_look_loop fuel (LinkMutex mutex_tmp) mutex_rel pri new_pri s
  end.

Definition mutex_pri_look task (mutex_rel : Z) s : Z * kstate :=
  let new_pri := b_prio (task_of s task) in
  mutex_pri_look_loop (mutex_fuel s) (LinkTask task) mutex_rel new_pri new_pri s.

(** ** Priority change ([task_pri_change]) *)

(** One iteration of the [do ... while (task != NULL)] loop: the new state and
    either the next task with its new priority or the value returned. *)
Inductive pri_next := PriCont (task new_pri : Z) | PriDone (stat : kstat_t).

Definition task_pri_change_step task (new_pri : Z) s : kstate * pri_next :=
  if negb (prio (task_of s task) =? new_pri) then
    match task_state (task_of s task) with
    | K_RDY =>
        let s := k_ready_list_rm task s in
        let s := upd_task task (fun k => k <| prio := new_pri |>) s in
        let s := if task =? g_active_task s then k_ready_list_add_head task s else k_ready_list_add_tail task s in
        (s, PriDone RHINO_SUCCESS)
    | K_SLEEP | K_SUSPENDED | K_SLEEP_SUSPENDED =>
        (upd_task task (fun k => k <| prio := new_pri |>) s, PriDone RHINO_SUCCESS)
    | K_PEND | K_PEND_SUSPENDED =>
        let old_pri := prio (task_of s task) in
        let s := upd_task task (fun k => k <| prio := new_pri |>) s in
        let s := pend_list_reorder task s in
        let mutex_tmp := blk_obj (task_of s task) in
        if decide (obj_type (blk_of s mutex_tmp) = RHINO_MUTEX_OBJ_TYPE) then
          let mtask := mutex_task (mutex_of s mutex_tmp) in
          if prio (task_of s task) <? prio (task_of s mtask) then (s, PriCont mtask new_pri)
          else if prio (task_of s mtask) =? old_pri then
            let '(new_pri, s) := mutex_pri_look mtask NULL s in
            if negb (new_pri =? prio (task_of s mtask)) then (s, PriCont mtask new_pri)
            else (s, PriDone RHINO_SUCCESS)
          else (s, PriDone RHINO_SUCCESS)
        else (s, PriDone RHINO_SUCCESS)
    | K_SEED | K_DELETED => (k_err_proc RHINO_INV_TASK_STATE s, PriDone RHINO_INV_TASK_STATE)
    end
  else (s, PriDone RHINO_SUCCESS).

Fixpoint task_pri_change_loop (fuel : nat) task (new_pri : Z) s : kstat_t * kstate :=
  match fuel with
  | O => (RHINO_SUCCESS, s)
  | S fuel =>
      let '(s, n) := task_pri_change_step task new_pri s in
      match n with
      | PriCont task new_pri => task_pri_change_loop fuel task new_pri s
      | PriDone stat => (stat, s)
      end
  end.

(** Each iteration moves one 8-bit priority, first only downwards in urgency and
    then only upwards. *)
Definition pri_fuel s : nat := S (2 * (256 * size (tasks s))).

Definition task_pri_change task (new_pri : Z) s : kstat_t * kstate :=
  task_pri_change_loop (pri_fuel s) task new_pri s.

Definition mutex_release task (mutex_rel : Z) s : kstate :=
  let '(new_pri, s) := mutex_pri_look task mutex_rel s in
  if negb (new_pri =? prio (task_of s task)) then (task_pri_change task new_pri s).2 else s.

Definition mutex_task_pri_reset task s : kstate :=
  let mutex_tmp := blk_obj (task_of s task) in
  if decide (obj_type (blk_of s mutex_tmp) = RHINO_MUTEX_OBJ_TYPE) then
    let mtask := mutex_task (mutex_of s mutex_tmp) in
    if prio (task_of s mtask) =? prio (task_of s task) then mutex_release mtask NULL s else s
  else s.

(** ** The tick interrupt ([tick_list_update]) *)

(** The [switch] on the state of a task whose time has come. *)
Definition tick_expire task s : kstate :=
  match task_state (task_of s task) with
  | K_SLEEP =>
      let s := upd_task task (fun k => k <| blk_state := BLK_FINISH |>) s in
      let s := upd_task task (fun k => k <| task_state := K_RDY |>) s in
      let s := tick_list_rm task s in
      k_ready_list_add task s
  | K_PEND =>
      let s := tick_list_rm task s in
      let s := blk_list_rm task s in
      let s := k_ready_list_add task s in
      let s := upd_task task (fun k => k <| blk_state := BLK_TIMEOUT |>) s in
      let s := upd_task task (fun k => k <| task_state := K_RDY |>) s in
      let s := mutex_task_pri_reset task s in
      upd_task task (fun k => k <| blk_obj := NULL |>) s
  | K_PEND_SUSPENDED =>
      let s := tick_list_rm task s in
      let s := blk_list_rm task s in
      let s := upd_task task (fun k => k <| blk_state := BLK_TIMEOUT |>) s in
      let s := upd_task task (fun k => k <| task_state := K_SUSPENDED |>) s in
      let s := mutex_task_pri_reset task s in
      upd_task task (fun k => k <| blk_obj := NULL |>) s
  | K_SLEEP_SUSPENDED =>
      let s := upd_task task (fun k => k <| task_state := K_SUSPENDED |>) s in
      let s := upd_task task (fun k => k <| blk_state := BLK_FINISH |>) s in
      tick_list_rm task s
  | _ => k_err_proc RHINO_SYS_FATAL_ERR s
  end.

(** The [while] loop: [iter->next] is read before the task is handled, so the loop
    walks the list as it was on entry. *)
Fixpoint tick_list_walk (l : list Z) s : kstate :=
  match l with
  | [] => s
  | t :: rest => if g_tick_count s =? tick_match (task_of s t) then tick_list_walk rest (tick_expire t s) else s
  end.

Definition tick_list_update s : kstate :=
  let '(cpsr, s) := RHINO_CRITICAL_ENTER s in
  let s := s <| g_tick_count ::= fun n => wrap32 (n + 1) |> in
  let s := s <| g_sys_time_tick ::= fun n => wrap64 (n + 1) |> in
  let s := tick_list_walk (g_tick_head s) s in
  RHINO_CRITICAL_EXIT cpsr s.

(** [k_time.c]: the tick handler and the tick counter. *)
Definition krhino_tick_proc s : kstate :=
  let s := tick_list_update s in
  time_slice_update (prio (task_of s (g_active_task s))) s.

Definition krhino_sys_tick_get s : Z := g_sys_time_tick s.
