(* ===== verification/Alloc.v ===== *)
(** * The allocator interface

    [krhino_mm_alloc] and [krhino_mm_free] as the object modules see them.  The
    dynamic-creation functions are written against this class and take the heap
    state explicitly; [MemAllocOk] states what they rely on. *)
From S2P Require Import Prelude KTypes.
Local Open Scope Z_scope.

Inductive kstruct := S_ktask | S_ksem | S_kmutex | S_kevent | S_kqueue | S_kbuf_queue | S_ktimer.

Class MemAlloc (H : Type) := {
  krhino_mm_alloc : Z -> H -> Z * H;   (** [NULL] when there is no memory *)
  krhino_mm_free : Z -> H -> H;
  sizeof : kstruct -> Z;
  live : H -> Z -> bool;               (** addresses handed out and not freed, or not of the heap *)
}.

(** A block handed out is fresh, other blocks keep their status, and freeing a block that
    was handed out makes exactly that block available. *)
Class MemAllocOk (H : Type) `{MemAlloc H} : Prop := {
  alloc_fresh : forall n h p h', krhino_mm_alloc n h = (p, h') -> p <> NULL -> live h p = false /\ live h' p = true;
  alloc_frame : forall n h p h' q, krhino_mm_alloc n h = (p, h') -> q <> p -> live h' q = live h q;
  alloc_fail : forall n h h', krhino_mm_alloc n h = (NULL, h') -> forall q, live h' q = live h q;
  free_dead : forall n h p h', krhino_mm_alloc n h = (p, h') -> p <> NULL -> live (krhino_mm_free p h') p = false;
  free_frame : forall p h q, q <> p -> live (krhino_mm_free p h) q = live h q;
}.

(** A reference allocator: a counter and the set of live blocks, with a limit on the
    number of blocks. *)
Module RefAlloc.
Record heap := { limit : Z; next_addr : positive; blocks : gmap Z unit }.
#[export] Instance ref_alloc : MemAlloc heap := {
  krhino_mm_alloc n h :=
    if Zpos (next_addr h) <? limit h then
      (Zpos (next_addr h),
       {| limit := limit h; next_addr := Pos.succ (next_addr h);
          blocks := <[Zpos (next_addr h) := tt]> (filter (fun kv => kv.1 < Zpos (next_addr h)) (blocks h)) |})
    else (NULL, h);
  krhino_mm_free p h := {| limit := limit h; next_addr := next_addr h; blocks := delete p (blocks h) |};
  sizeof k := match k with S_ktask => 120 | S_ksem => 40 | S_kmutex => 44 | S_kevent => 36
                         | S_kqueue => 76 | S_kbuf_queue => 80 | S_ktimer => 72 end;
  live h p := bool_decide (is_Some (blocks h !! p)) && (0 <? p) && (p <? Zpos (next_addr h));
}.

#[export] Instance ref_alloc_ok : MemAllocOk heap.
Proof.
  split; simpl; unfold NULL.
  - intros n h p h'. destruct (Z.ltb_spec (Zpos (next_addr h)) (limit h)); intros [= <- <-]; [|done].
    intros _; simpl. rewrite Z.ltb_irrefl, andb_false_r. split; [done|].
    rewrite bool_decide_true by (rewrite lookup_insert_eq; eauto). simpl. apply Z.ltb_lt. lia.
  - intros n h p h' q. destruct (Z.ltb_spec (Zpos (next_addr h)) (limit h)); intros [= <- <-]; [|done].
    intros Hne; simpl.
    destruct (Z.ltb_spec q (Zpos (next_addr h))) as [Hlt|Hge].
    + rewrite (proj2 (Z.ltb_lt q _)) by lia. f_equal. f_equal. apply bool_decide_ext.
      rewrite lookup_insert_ne, map_lookup_filter by auto.
      destruct (blocks h !! q); simpl; [rewrite option_guard_True by done|]; done.
    + rewrite andb_false_r. apply andb_false_iff. right. apply Z.ltb_ge. lia.
  - intros n h h'. destruct (Z.ltb_spec (Zpos (next_addr h)) (limit h)); intros [=]; subst; done.
  - intros n h p h' _ _. rewrite bool_decide_false; [done|]. rewrite lookup_delete_eq. by intros [? [=]].
  - intros p h q Hne. by rewrite lookup_delete_ne by auto.
Qed.
End RefAlloc.
