(* ===== verification/Task.v ===== *)
(** * Tasks ([k_task.c])

    Creation, sleep, yield, suspension, priority change, wait abortion and deletion.
    A blocking call is cut at the context switch: the first half returns [None] when
    the caller has been switched out, and [blocked_return] is what the caller runs
    when it is active again. *)
From S2P Require Import Prelude Bitmap KTypes RunQueue RingBuf Kernel Pend Alloc.
Local Open Scope Z_scope.

Implicit Types (s : kstate) (task t o : Z).

(** The code after [RHINO_CRITICAL_EXIT_SCHED] in every blocking call. *)
Definition blocked_return s : kstat_t * kstate :=
  let '(cpsr, s) := RHINO_CPU_INTRPT_DISABLE s in
  let '(stat, s) := pend_state_end_proc (g_active_task s) s in
  (stat, RHINO_CPU_INTRPT_ENABLE cpsr s).

(** The task control block a successful [task_create] writes: zeroed, then filled. *)
Definition task_init (name prio ticks stack_buf stack_size autorun mm_flag cpu : Z) : ktask_t :=
  let k := ktask_zero in
  let k := k <| time_total := if 0 <? ticks then ticks else RHINO_CONFIG_TIME_SLICE_DEFAULT |> in
  let k := k <| time_slice := time_total k |> <| sched_policy := KSCHED_RR |> in
  let k := if 0 <? autorun then k <| task_state := K_RDY |>
           else k <| task_state := K_SUSPENDED |> <| suspend_count := 1 |> in
  k <| task_stack_base := stack_buf |> <| task_name := name |> <| KTypes.prio := prio |> <| b_prio := prio |>
    <| KTypes.stack_size := stack_size |> <| mm_alloc_flag := mm_flag |> <| cpu_num := cpu |>.

(** The stack words and the initial register frame are not part of the model. *)
Definition task_create task (name arg prio ticks stack_buf stack_size entry autorun mm_flag cpu : Z) s
    : kstat_t * kstate :=
  if task =? NULL then (RHINO_NULL_PTR, s)
  else if name =? NULL then (RHINO_NULL_PTR, s)
  else if entry =? NULL then (RHINO_NULL_PTR, s)
  else if stack_buf =? NULL then (RHINO_NULL_PTR, s)
  else if stack_size =? 0 then (RHINO_TASK_INV_STACK_SIZE, s)
  else if RHINO_CONFIG_PRI_MAX <=? prio then (RHINO_BEYOND_MAX_PRI, s)
  else
    let '(cpsr, s) := RHINO_CRITICAL_ENTER s in
    if in_intrpt s then (RHINO_NOT_CALLED_BY_INTRPT, RHINO_CRITICAL_EXIT cpsr s)
    else if (prio =? RHINO_IDLE_PRI) && (0 <? g_idle_task_spawned s) then
      (RHINO_IDLE_TASK_EXIST, RHINO_CRITICAL_EXIT cpsr s)
    else
      let s := if prio =? RHINO_IDLE_PRI then s <| g_idle_task_spawned := 1 |> else s in
      let s := RHINO_CRITICAL_EXIT cpsr s in
      let s := upd_task task (fun _ => task_init name prio ticks stack_buf stack_size autorun mm_flag cpu) s in
      let '(cpsr, s) := RHINO_CRITICAL_ENTER s in
      let s := s <| g_kobj_list ::= fun k => k <| task_head ::= fun l => l ++ [task] |> |> in
      if 0 <? autorun then
        let s := k_ready_list_add_tail task s in
        if decide (g_sys_stat s = RHINO_RUNNING) then (RHINO_SUCCESS, RHINO_CRITICAL_EXIT_SCHED cpsr s)
        else (RHINO_SUCCESS, RHINO_CRITICAL_EXIT cpsr s)
      else (RHINO_SUCCESS, RHINO_CRITICAL_EXIT cpsr s).

Definition krhino_task_create task (name arg prio ticks stack_buf stack_size entry autorun : Z) s
    : kstat_t * kstate :=
  task_create task name arg prio ticks stack_buf stack_size entry autorun K_OBJ_STATIC_ALLOC 0 s.

Section Dyn.
Context {H : Type} `{MemAlloc H}.

(** [*task] is the second component, [NULL] when it is not written or reset. *)
Definition task_dyn_create (task_null : bool) (name arg pri ticks stack entry cpu autorun : Z) (h : H) s
    : kstat_t * Z * H * kstate :=
  if task_null then (RHINO_NULL_PTR, NULL, h, s)
  else if stack =? 0 then (RHINO_INV_PARAM, NULL, h, s)
  else
    let '(task_stack, h) := krhino_mm_alloc (wrap32 (stack * 4)) h in
    if task_stack =? NULL then (RHINO_NO_MEM, NULL, h, s)
    else
      let '(task_obj, h) := krhino_mm_alloc (sizeof S_ktask) h in
      if task_obj =? NULL then (RHINO_NO_MEM, NULL, krhino_mm_free task_stack h, s)
      else
        let '(ret, s) := task_create task_obj name arg pri ticks task_stack stack entry autorun K_OBJ_DYN_ALLOC cpu s in
        if negb (bool_decide (ret = RHINO_SUCCESS)) && negb (bool_decide (ret = RHINO_STOPPED)) then
          (ret, NULL, krhino_mm_free task_obj (krhino_mm_free task_stack h), s)
        else (ret, task_obj, h, s).

Definition krhino_task_dyn_create (task_null : bool) (name arg pri ticks stack entry autorun : Z) (h : H) s
    : kstat_t * Z * H * kstate :=
  task_dyn_create task_null name arg pri ticks stack entry 0 autorun h s.
End Dyn.

Definition krhino_task_sleep (ticks : Z) s : option kstat_t * kstate :=
  if ticks =? 0 then (Some RHINO_INV_PARAM, s)
  else
    let '(cpsr, s) := RHINO_CRITICAL_ENTER s in
    if in_intrpt s then (Some RHINO_NOT_CALLED_BY_INTRPT, RHINO_CRITICAL_EXIT cpsr s)
    else if 0 <? g_sched_lock s then (Some RHINO_SCHED_DISABLE, RHINO_CRITICAL_EXIT cpsr s)
    else
      let task := g_active_task s in
      let s := upd_task task (fun k => k <| task_state := K_SLEEP |>) s in
      let s := tick_list_insert task ticks s in
      let s := k_ready_list_rm task s in
      (None, RHINO_CRITICAL_EXIT_SCHED cpsr s).

Definition krhino_task_yield s : kstat_t * kstate :=
  let '(cpsr, s) := RHINO_CRITICAL_ENTER s in
  let s := s <| g_ready_queue := ready_list_head_to_tail (g_ready_queue s) (prio (task_of s (g_active_task s))) |> in
  (RHINO_SUCCESS, RHINO_CRITICAL_EXIT_SCHED cpsr s).

Definition krhino_cur_task_get s : Z := g_active_task s.

(** ** Suspension *)
Definition SUSPEND_COUNT_MAX : Z := 255.  (** [(suspend_nested_t)-1] *)

Definition task_suspend task s : kstat_t * kstate :=
  let '(cpsr, s) := RHINO_CRITICAL_ENTER s in
  if (task =? g_active_task s) && (0 <? g_sched_lock s) then (RHINO_SCHED_DISABLE, RHINO_CRITICAL_EXIT cpsr s)
  else
    match task_state (task_of s task) with
    | K_RDY =>
        let s := upd_task task (fun k => k <| suspend_count := 1 |>) s in
        let s := upd_task task (fun k => k <| task_state := K_SUSPENDED |>) s in
        let s := k_ready_list_rm task s in
        (RHINO_SUCCESS, RHINO_CRITICAL_EXIT_SCHED cpsr s)
    | K_SLEEP =>
        let s := upd_task task (fun k => k <| suspend_count := 1 |>) s in
        let s := upd_task task (fun k => k <| task_state := K_SLEEP_SUSPENDED |>) s in
        (RHINO_SUCCESS, RHINO_CRITICAL_EXIT_SCHED cpsr s)
    | K_PEND =>
        let s := upd_task task (fun k => k <| suspend_count := 1 |>) s in
        let s := upd_task task (fun k => k <| task_state := K_PEND_SUSPENDED |>) s in
        (RHINO_SUCCESS, RHINO_CRITICAL_EXIT_SCHED cpsr s)
    | K_SUSPENDED | K_SLEEP_SUSPENDED | K_PEND_SUSPENDED =>
        if suspend_count (task_of s task) =? SUSPEND_COUNT_MAX then
          (RHINO_SUSPENDED_COUNT_OVF, RHINO_CRITICAL_EXIT cpsr s)
        else
          let s := upd_task task (fun k => k <| suspend_count ::= fun n => wrap8 (n + 1) |>) s in
          (RHINO_SUCCESS, RHINO_CRITICAL_EXIT_SCHED cpsr s)
    | K_SEED | K_DELETED => (RHINO_INV_TASK_STATE, RHINO_CRITICAL_EXIT cpsr s)
    end.

Definition krhino_task_suspend task s : kstat_t * kstate :=
  if task =? NULL then (RHINO_NULL_PTR, s)
  else if prio (task_of s task) =? RHINO_IDLE_PRI then (RHINO_TASK_SUSPEND_NOT_ALLOWED, s)
  else task_suspend task s.

Definition task_resume task s : kstat_t * kstate :=
  let '(cpsr, s) := RHINO_CRITICAL_ENTER s in
  match task_state (task_of s task) with
  | K_RDY | K_SLEEP | K_PEND => (RHINO_TASK_NOT_SUSPENDED, RHINO_CRITICAL_EXIT cpsr s)
  | K_SUSPENDED =>
      let s := upd_task task (fun k => k <| suspend_count ::= fun n => wrap8 (n - 1) |>) s in
      let s := if suspend_count (task_of s task) =? 0
               then k_ready_list_add task (upd_task task (fun k => k <| task_state := K_RDY |>) s) else s in
      (RHINO_SUCCESS, RHINO_CRITICAL_EXIT_SCHED cpsr s)
  | K_SLEEP_SUSPENDED =>
      let s := upd_task task (fun k => k <| suspend_count ::= fun n => wrap8 (n - 1) |>) s in
      let s := if suspend_count (task_of s task) =? 0
               then upd_task task (fun k => k <| task_state := K_SLEEP |>) s else s in
      (RHINO_SUCCESS, RHINO_CRITICAL_EXIT_SCHED cpsr s)
  | K_PEND_SUSPENDED =>
      let s := upd_task task (fun k => k <| suspend_count ::= fun n => wrap8 (n - 1) |>) s in
      let s := if suspend_count (task_of s task) =? 0
               then upd_task task (fun k => k <| task_state := K_PEND |>) s else s in
      (RHINO_SUCCESS, RHINO_CRITICAL_EXIT_SCHED cpsr s)
  | K_SEED | K_DELETED => (RHINO_INV_TASK_STATE, RHINO_CRITICAL_EXIT cpsr s)
  end.

Definition krhino_task_resume task s : kstat_t * kstate :=
  if task =? NULL then (RHINO_NULL_PTR, s) else task_resume task s.

(** ** Priority change.  [*old_pri] is returned beside the status. *)
Definition krhino_task_pri_change task (pri : Z) (old_pri_null : bool) s : kstat_t * option Z * kstate :=
  if task =? NULL then (RHINO_NULL_PTR, None, s)
  else if old_pri_null then (RHINO_NULL_PTR, None, s)
  else if RHINO_IDLE_PRI <=? prio (task_of s task) then (RHINO_PRI_CHG_NOT_ALLOWED, None, s)
  else if RHINO_IDLE_PRI <=? pri then (RHINO_PRI_CHG_NOT_ALLOWED, None, s)
  else if decide (task_state (task_of s task) = K_DELETED) then (RHINO_INV_TASK_STATE, None, s)
  else
    let '(cpsr, s) := RHINO_CRITICAL_ENTER s in
    if in_intrpt s then (RHINO_NOT_CALLED_BY_INTRPT, None, RHINO_CRITICAL_EXIT cpsr s)
    else
      let pri_limit := mutex_pri_limit task pri s in
      let s := upd_task task (fun k => k <| b_prio := pri |>) s in
      let old_pri := prio (task_of s task) in
      let '(error, s) := task_pri_change task pri_limit s in
      if decide (error = RHINO_SUCCESS) then (RHINO_SUCCESS, Some old_pri, RHINO_CRITICAL_EXIT_SCHED cpsr s)
      else (error, Some old_pri, RHINO_CRITICAL_EXIT cpsr s).

(** ** Aborting a wait *)
Definition krhino_task_wait_abort task s : kstat_t * kstate :=
  if task =? NULL then (RHINO_NULL_PTR, s)
  else
    let '(cpsr, s) := RHINO_CRITICAL_ENTER s in
    if in_intrpt s then (RHINO_NOT_CALLED_BY_INTRPT, RHINO_CRITICAL_EXIT cpsr s)
    else
      match task_state (task_of s task) with
      | K_RDY => (RHINO_SUCCESS, RHINO_CRITICAL_EXIT_SCHED cpsr s)
      | K_SUSPENDED =>
          let s := upd_task task (fun k => k <| task_state := K_RDY |>) s in
          let s := k_ready_list_add task s in
          (RHINO_SUCCESS, RHINO_CRITICAL_EXIT_SCHED cpsr s)
      | K_SLEEP | K_SLEEP_SUSPENDED =>
          let s := tick_list_rm task s in
          let s := k_ready_list_add task s in
          let s := upd_task task (fun k => k <| task_state := K_RDY |>) s in
          let s := upd_task task (fun k => k <| blk_state := BLK_ABORT |>) s in
          (RHINO_SUCCESS, RHINO_CRITICAL_EXIT_SCHED cpsr s)
      | K_PEND_SUSPENDED | K_PEND =>
          let s := tick_list_rm task s in
          let s := blk_list_rm task s in
          let s := k_ready_list_add task s in
          let s := upd_task task (fun k => k <| task_state := K_RDY |>) s in
          let s := upd_task task (fun k => k <| blk_state := BLK_ABORT |>) s in
          let s := mutex_task_pri_reset task s in
          let s := upd_task task (fun k => k <| blk_obj := NULL |>) s in
          (RHINO_SUCCESS, RHINO_CRITICAL_EXIT_SCHED cpsr s)
      | K_SEED | K_DELETED => (RHINO_INV_TASK_STATE, RHINO_CRITICAL_EXIT cpsr s)
      end.

(** ** Deletion *)

(** Hand every mutex of the deleted task's chain to its first waiter. *)
Fixpoint task_mutex_free_loop (fuel : nat) (next_mutex : Z) s : kstate :=
  match fuel with
  | O => s
  | S fuel =>
      let mutex := next_mutex in
      if mutex =? NULL then s
      else
        let next_mutex := mutex_next (mutex_of s mutex) in
        let s :=
          match blk_list (blk_of s mutex) with
          | next_task :: _ =>
              let s := pend_task_wakeup next_task s in
              let s := upd_mutex mutex (fun m => m <| mutex_task := next_task |>) s in
              let s := upd_mutex mutex (fun m => m <| mutex_next := mutex_list (task_of s next_task) |>) s in
              upd_task next_task (fun k => k <| mutex_list := mutex |>) s
          | [] => upd_mutex mutex (fun m => m <| mutex_task := NULL |>) s
          end in
        task_mutex_free_loop fuel next_mutex s
  end.

Definition task_mutex_free task s : kstate :=
  task_mutex_free_loop (mutex_fuel s) (mutex_list (task_of s task)) s.

(** The [switch] that takes the task out of every list; [None] is the default case. *)
Definition task_del_lists task s : option kstate :=
  match task_state (task_of s task) with
  | K_RDY =>
      let s := k_ready_list_rm task s in
      Some (upd_task task (fun k => k <| task_state := K_DELETED |>) s)
  | K_SUSPENDED => Some (upd_task task (fun k => k <| task_state := K_DELETED |>) s)
  | K_SLEEP | K_SLEEP_SUSPENDED =>
      let s := tick_list_rm task s in
      Some (upd_task task (fun k => k <| task_state := K_DELETED |>) s)
  | K_PEND | K_PEND_SUSPENDED =>
      let s := tick_list_rm task s in
      let s := blk_list_rm task s in
      let s := upd_task task (fun k => k <| task_state := K_DELETED |>) s in
      Some (mutex_task_pri_reset task s)
  | K_SEED | K_DELETED => None
  end.

(** The idle-priority return leaves the critical section open, as the source does. *)
Definition krhino_task_del task s : kstat_t * kstate :=
  let '(cpsr, s) := RHINO_CRITICAL_ENTER s in
  if in_intrpt s then (RHINO_NOT_CALLED_BY_INTRPT, RHINO_CRITICAL_EXIT cpsr s)
  else
    let task := if task =? NULL then g_active_task s else task in
    if prio (task_of s task) =? RHINO_IDLE_PRI then (RHINO_TASK_DEL_NOT_ALLOWED, s)
    else if negb (mm_alloc_flag (task_of s task) =? K_OBJ_STATIC_ALLOC) then
      (RHINO_KOBJ_DEL_ERR, RHINO_CRITICAL_EXIT cpsr s)
    else if (task =? g_active_task s) && (0 <? g_sched_lock s) then
      (RHINO_SCHED_DISABLE, RHINO_CRITICAL_EXIT cpsr s)
    else
      let s := task_mutex_free task s in
      match task_del_lists task s with
      | None => (RHINO_INV_TASK_STATE, RHINO_CRITICAL_EXIT cpsr s)
      | Some s =>
          let s := s <| g_kobj_list ::= fun k => k <| task_head ::= remove_addr task |> |> in
          (RHINO_SUCCESS, RHINO_CRITICAL_EXIT_SCHED cpsr s)
      end.

(** ** Round robin and user data *)
Definition krhino_task_time_slice_set task (slice : Z) s : kstat_t * kstate :=
  if task =? NULL then (RHINO_NULL_PTR, s)
  else
    let '(cpsr, s) := RHINO_CRITICAL_ENTER s in
    if in_intrpt s then (RHINO_NOT_CALLED_BY_INTRPT, RHINO_CRITICAL_EXIT cpsr s)
    else
      let s := upd_task task
                 (fun k => k <| time_total := if 0 <? slice then slice else RHINO_CONFIG_TIME_SLICE_DEFAULT |>) s in
      let s := upd_task task (fun k => k <| time_slice := time_total k |>) s in
      (RHINO_SUCCESS, RHINO_CRITICAL_EXIT cpsr s).

Definition krhino_sched_policy_set task (policy : Z) s : kstat_t * kstate :=
  if task =? NULL then (RHINO_NULL_PTR, s)
  else if negb (policy =? KSCHED_FIFO) && negb (policy =? KSCHED_RR) then (RHINO_INV_SCHED_WAY, s)
  else
    let '(cpsr, s) := RHINO_CRITICAL_ENTER s in
    if in_intrpt s then (RHINO_NOT_CALLED_BY_INTRPT, RHINO_CRITICAL_EXIT cpsr s)
    else (RHINO_SUCCESS, RHINO_CRITICAL_EXIT cpsr (upd_task task (fun k => k <| sched_policy := policy |>) s)).

Definition krhino_sched_policy_get task (policy_null : bool) s : kstat_t * option Z * kstate :=
  if task =? NULL then (RHINO_NULL_PTR, None, s)
  else if policy_null then (RHINO_NULL_PTR, None, s)
  else
    let '(cpsr, s) := RHINO_CRITICAL_ENTER s in
    if in_intrpt s then (RHINO_NOT_CALLED_BY_INTRPT, None, RHINO_CRITICAL_EXIT cpsr s)
    else (RHINO_SUCCESS, Some (sched_policy (task_of s task)), RHINO_CRITICAL_EXIT cpsr s).

Definition krhino_task_info_set task (idx info : Z) s : kstat_t * kstate :=
  if task =? NULL then (RHINO_NULL_PTR, s)
  else if RHINO_CONFIG_TASK_INFO_NUM <=? idx then (RHINO_INV_PARAM, s)
  else
    let '(cpsr, s) := RHINO_CPU_INTRPT_DISABLE s in
    (RHINO_SUCCESS, RHINO_CPU_INTRPT_ENABLE cpsr
       (upd_task task (fun k => k <| user_info ::= <[Z.to_nat idx := info]> |>) s)).

Definition krhino_task_info_get task (idx : Z) (info_null : bool) s : kstat_t * option Z :=
  if task =? NULL then (RHINO_NULL_PTR, None)
  else if info_null then (RHINO_NULL_PTR, None)
  else if RHINO_CONFIG_TASK_INFO_NUM <=? idx then (RHINO_INV_PARAM, None)
  else (RHINO_SUCCESS, user_info (task_of s task) !! Z.to_nat idx).
