(* ===== verification/Sem.v ===== *)
(** * Semaphores ([k_sem.c], [k_task_sem.c]) *)
From S2P Require Import Prelude Bitmap KTypes Alloc RunQueue RingBuf Kernel Pend Task.
Local Open Scope Z_scope.

Implicit Types (s : kstate) (task t sem o : Z).

Definition SEM_COUNT_MAX : Z := 0xffffffff.  (** [(sem_count_t)-1] *)
Definition WAKE_ONE_SEM : bool := false.
Definition WAKE_ALL_SEM : bool := true.

(** Initialise the block list and header of a new object. *)
Definition blk_obj_init (name : Z) : blk_obj_t :=
  {| blk_list := []; obj_name := name; blk_policy := BLK_POLICY_PRI; obj_type := RHINO_OBJ_TYPE_NONE |}.

Definition set_obj_type o (ty : kobj_type_t) s : kstate := upd_blk o (fun b => b <| obj_type := ty |>) s.

Definition sem_create sem (name cnt mm_flag : Z) s : kstat_t * kstate :=
  if sem =? NULL then (RHINO_NULL_PTR, s)
  else if name =? NULL then (RHINO_NULL_PTR, s)
  else
    let s := upd_blk sem (fun b => (blk_obj_init name) <| obj_type := obj_type b |>) s in
    let s := upd_sem sem (fun _ => {| count := cnt; peak_count := cnt; sem_alloc_flag := mm_flag |}) s in
    let '(cpsr, s) := RHINO_CRITICAL_ENTER s in
    let s := s <| g_kobj_list ::= fun k => k <| sem_head ::= fun l => l ++ [sem] |> |> in
    let s := RHINO_CRITICAL_EXIT cpsr s in
    (RHINO_SUCCESS, set_obj_type sem RHINO_SEM_OBJ_TYPE s).

Definition krhino_sem_create sem (name cnt : Z) s : kstat_t * kstate :=
  sem_create sem name cnt K_OBJ_STATIC_ALLOC s.

(** [krhino_sem_del] and [krhino_sem_dyn_del] up to the final [krhino_mm_free]; they
    differ in the allocation flag they require. *)
Definition sem_del_with (flag : Z) sem s : kstat_t * kstate :=
  if sem =? NULL then (RHINO_NULL_PTR, s)
  else
    let '(cpsr, s) := RHINO_CRITICAL_ENTER s in
    if in_intrpt s then (RHINO_NOT_CALLED_BY_INTRPT, RHINO_CRITICAL_EXIT cpsr s)
    else if decide (obj_type (blk_of s sem) <> RHINO_SEM_OBJ_TYPE) then
      (RHINO_KOBJ_TYPE_ERR, RHINO_CRITICAL_EXIT cpsr s)
    else if negb (sem_alloc_flag (sem_of s sem) =? flag) then (RHINO_KOBJ_DEL_ERR, RHINO_CRITICAL_EXIT cpsr s)
    else
      let s := set_obj_type sem RHINO_OBJ_TYPE_NONE s in
      let s := wake_all sem pend_task_rm s in
      let s := s <| g_kobj_list ::= fun k => k <| sem_head ::= remove_addr sem |> |> in
      (RHINO_SUCCESS, RHINO_CRITICAL_EXIT_SCHED cpsr s).

Definition krhino_sem_del sem s : kstat_t * kstate := sem_del_with K_OBJ_STATIC_ALLOC sem s.

Section Dyn.
Context {H : Type} `{MemAlloc H}.

(** [*sem] is the third component, [NULL] when it is not written. *)
Definition krhino_sem_dyn_create (sem_null : bool) (name cnt : Z) (h : H) s : kstat_t * Z * H * kstate :=
  if sem_null then (RHINO_NULL_PTR, NULL, h, s)
  else
    let '(sem_obj, h) := krhino_mm_alloc (sizeof S_ksem) h in
    if sem_obj =? NULL then (RHINO_NO_MEM, NULL, h, s)
    else
      let '(stat, s) := sem_create sem_obj name cnt K_OBJ_DYN_ALLOC s in
      if decide (stat = RHINO_SUCCESS) then (stat, sem_obj, h, s)
      else (stat, NULL, krhino_mm_free sem_obj h, s).

Definition krhino_sem_dyn_del sem (h : H) s : kstat_t * H * kstate :=
  let '(stat, s) := sem_del_with K_OBJ_DYN_ALLOC sem s in
  if decide (stat = RHINO_SUCCESS) then (stat, krhino_mm_free sem h, s) else (stat, h, s).
End Dyn.

Definition sem_give sem (opt_wake_all : bool) s : kstat_t * kstate :=
  let '(cpsr, s) := RHINO_CRITICAL_ENTER s in
  if decide (obj_type (blk_of s sem) <> RHINO_SEM_OBJ_TYPE) then (RHINO_KOBJ_TYPE_ERR, RHINO_CRITICAL_EXIT cpsr s)
  else
    match blk_list (blk_of s sem) with
    | [] =>
        if count (sem_of s sem) =? SEM_COUNT_MAX then (RHINO_SEM_OVF, RHINO_CRITICAL_EXIT cpsr s)
        else
          let s := upd_sem sem (fun k => k <| count ::= fun n => wrap32 (n + 1) |>) s in
          let s := if peak_count (sem_of s sem) <? count (sem_of s sem)
                   then upd_sem sem (fun k => k <| peak_count := count k |>) s else s in
          (RHINO_SUCCESS, RHINO_CRITICAL_EXIT cpsr s)
    | first :: _ =>
        let s := if opt_wake_all then wake_all sem pend_task_wakeup s else pend_task_wakeup first s in
        (RHINO_SUCCESS, RHINO_CRITICAL_EXIT_SCHED cpsr s)
    end.

Definition krhino_sem_give sem s : kstat_t * kstate :=
  if sem =? NULL then (RHINO_NULL_PTR, s) else sem_give sem WAKE_ONE_SEM s.

Definition krhino_sem_give_all sem s : kstat_t * kstate :=
  if sem =? NULL then (RHINO_NULL_PTR, s) else sem_give sem WAKE_ALL_SEM s.

Definition krhino_sem_take sem (ticks : Z) s : option kstat_t * kstate :=
  if sem =? NULL then (Some RHINO_NULL_PTR, s)
  else
    let '(cpsr, s) := RHINO_CRITICAL_ENTER s in
    if in_intrpt s then (Some RHINO_NOT_CALLED_BY_INTRPT, RHINO_CRITICAL_EXIT cpsr s)
    else if decide (obj_type (blk_of s sem) <> RHINO_SEM_OBJ_TYPE) then
      (Some RHINO_KOBJ_TYPE_ERR, RHINO_CRITICAL_EXIT cpsr s)
    else if 0 <? count (sem_of s sem) then
      (Some RHINO_SUCCESS, RHINO_CRITICAL_EXIT cpsr (upd_sem sem (fun k => k <| count ::= fun n => wrap32 (n - 1) |>) s))
    else if ticks =? RHINO_NO_WAIT then (Some RHINO_NO_PEND_WAIT, RHINO_CRITICAL_EXIT cpsr s)
    else if 0 <? g_sched_lock s then (Some RHINO_SCHED_DISABLE, RHINO_CRITICAL_EXIT cpsr s)
    else
      let s := pend_to_blk_obj sem (g_active_task s) ticks s in
      (None, RHINO_CRITICAL_EXIT_SCHED cpsr s).

Definition krhino_sem_count_set sem (sem_count : Z) s : kstat_t * kstate :=
  if sem =? NULL then (RHINO_NULL_PTR, s)
  else
    let '(cpsr, s) := RHINO_CRITICAL_ENTER s in
    if in_intrpt s then (RHINO_NOT_CALLED_BY_INTRPT, RHINO_CRITICAL_EXIT cpsr s)
    else if decide (obj_type (blk_of s sem) <> RHINO_SEM_OBJ_TYPE) then
      (RHINO_KOBJ_TYPE_ERR, RHINO_CRITICAL_EXIT cpsr s)
    else if negb (0 <? count (sem_of s sem)) && negb (bool_decide (blk_list (blk_of s sem) = [])) then
      (RHINO_SEM_TASK_WAITING, RHINO_CRITICAL_EXIT cpsr s)
    else
      let s := upd_sem sem (fun k => k <| count := sem_count |>) s in
      let s := if peak_count (sem_of s sem) <? count (sem_of s sem)
               then upd_sem sem (fun k => k <| peak_count := count k |>) s else s in
      (RHINO_SUCCESS, RHINO_CRITICAL_EXIT cpsr s).

Definition krhino_sem_count_get sem (count_null : bool) s : kstat_t * option Z :=
  if sem =? NULL then (RHINO_NULL_PTR, None)
  else if count_null then (RHINO_NULL_PTR, None)
  else (RHINO_SUCCESS, Some (count (sem_of s sem))).

Definition krhino_sem_is_valid sem s : kstat_t :=
  if sem =? NULL then RHINO_NULL_PTR
  else if decide (obj_type (blk_of s sem) <> RHINO_SEM_OBJ_TYPE) then RHINO_KOBJ_TYPE_ERR
  else RHINO_SUCCESS.

(** ** Task semaphores ([k_task_sem.c]) *)
Definition krhino_task_sem_create task sem (name cnt : Z) s : kstat_t * kstate :=
  if task =? NULL then (RHINO_NULL_PTR, s)
  else
    let '(ret, s) := krhino_sem_create sem name cnt s in
    if decide (ret = RHINO_SUCCESS) then (ret, upd_task task (fun k => k <| task_sem_obj := sem |>) s)
    else (ret, upd_task task (fun k => k <| task_sem_obj := NULL |>) s).

Definition krhino_task_sem_del task s : kstat_t * kstate :=
  if task =? NULL then (RHINO_NULL_PTR, s) else krhino_sem_del (task_sem_obj (task_of s task)) s.

Definition krhino_task_sem_give task s : kstat_t * kstate :=
  if task =? NULL then (RHINO_NULL_PTR, s) else krhino_sem_give (task_sem_obj (task_of s task)) s.

Definition krhino_task_sem_take (ticks : Z) s : option kstat_t * kstate :=
  krhino_sem_take (task_sem_obj (task_of s (krhino_cur_task_get s))) ticks s.

Definition krhino_task_sem_count_set task (sem_count : Z) s : kstat_t * kstate :=
  if task =? NULL then (RHINO_NULL_PTR, s) else krhino_sem_count_set (task_sem_obj (task_of s task)) sem_count s.

Definition krhino_task_sem_count_get task (count_null : bool) s : kstat_t * option Z :=
  if task =? NULL then (RHINO_NULL_PTR, None) else krhino_sem_count_get (task_sem_obj (task_of s task)) count_null s.
