(* ===== verification/Mutex.v ===== *)
(** * Mutexes ([k_mutex.c]) *)
From S2P Require Import Prelude Bitmap KTypes Alloc RunQueue RingBuf Kernel Pend Task Sem.
Local Open Scope Z_scope.

Implicit Types (s : kstate) (task t mutex o : Z).

Definition MUTEX_NESTED_MAX : Z := 0xffffffff.  (** [(mutex_nested_t)-1] *)

(** [owner_nested] is not initialised by the source. *)
Definition mutex_create mutex (name mm_flag : Z) s : kstat_t * kstate :=
  if mutex =? NULL then (RHINO_NULL_PTR, s)
  else if name =? NULL then (RHINO_NULL_PTR, s)
  else
    let s := upd_blk mutex (fun b => (blk_obj_init name) <| obj_type := obj_type b |>) s in
    let s := upd_mutex mutex (fun m =>
               m <| mutex_task := NULL |> <| mutex_next := NULL |> <| mutex_alloc_flag := mm_flag |>) s in
    let '(cpsr, s) := RHINO_CRITICAL_ENTER s in
    let s := s <| g_kobj_list ::= fun k => k <| mutex_head ::= fun l => l ++ [mutex] |> |> in
    let s := RHINO_CRITICAL_EXIT cpsr s in
    (RHINO_SUCCESS, set_obj_type mutex RHINO_MUTEX_OBJ_TYPE s).

Definition krhino_mutex_create mutex (name : Z) s : kstat_t * kstate :=
  mutex_create mutex name K_OBJ_STATIC_ALLOC s.

(** [krhino_mutex_del] and [krhino_mutex_dyn_del] up to the final [krhino_mm_free]. *)
Definition mutex_del_with (flag : Z) mutex s : kstat_t * kstate :=
  if mutex =? NULL then (RHINO_NULL_PTR, s)
  else
    let '(cpsr, s) := RHINO_CRITICAL_ENTER s in
    if in_intrpt s then (RHINO_NOT_CALLED_BY_INTRPT, RHINO_CRITICAL_EXIT cpsr s)
    else if decide (obj_type (blk_of s mutex) <> RHINO_MUTEX_OBJ_TYPE) then
      (RHINO_KOBJ_TYPE_ERR, RHINO_CRITICAL_EXIT cpsr s)
    else if negb (mutex_alloc_flag (mutex_of s mutex) =? flag) then
      (RHINO_KOBJ_DEL_ERR, RHINO_CRITICAL_EXIT cpsr s)
    else
      let s := set_obj_type mutex RHINO_OBJ_TYPE_NONE s in
      let s := if negb (mutex_task (mutex_of s mutex) =? NULL)
               then mutex_release (mutex_task (mutex_of s mutex)) mutex s else s in
      let s := wake_all mutex pend_task_rm s in
      let s := s <| g_kobj_list ::= fun k => k <| mutex_head ::= remove_addr mutex |> |> in
      (RHINO_SUCCESS, RHINO_CRITICAL_EXIT_SCHED cpsr s).

Definition krhino_mutex_del mutex s : kstat_t * kstate := mutex_del_with K_OBJ_STATIC_ALLOC mutex s.

Section Dyn.
Context {H : Type} `{MemAlloc H}.

Definition krhino_mutex_dyn_create (mutex_null : bool) (name : Z) (h : H) s : kstat_t * Z * H * kstate :=
  if mutex_null then (RHINO_NULL_PTR, NULL, h, s)
  else
    let '(mutex_obj, h) := krhino_mm_alloc (sizeof S_kmutex) h in
    if mutex_obj =? NULL then (RHINO_NO_MEM, NULL, h, s)
    else
      let '(stat, s) := mutex_create mutex_obj name K_OBJ_DYN_ALLOC s in
      if decide (stat = RHINO_SUCCESS) then (stat, mutex_obj, h, s)
      else (stat, NULL, krhino_mm_free mutex_obj h, s).

Definition krhino_mutex_dyn_del mutex (h : H) s : kstat_t * H * kstate :=
  let '(stat, s) := mutex_del_with K_OBJ_DYN_ALLOC mutex s in
  if decide (stat = RHINO_SUCCESS) then (stat, krhino_mm_free mutex h, s) else (stat, h, s).
End Dyn.

Definition krhino_mutex_lock mutex (ticks : Z) s : option kstat_t * kstate :=
  if mutex =? NULL then (Some RHINO_NULL_PTR, s)
  else if decide (g_sys_stat s = RHINO_STOPPED) then (Some RHINO_SUCCESS, s)
  else
    let '(cpsr, s) := RHINO_CRITICAL_ENTER s in
    if in_intrpt s then (Some RHINO_NOT_CALLED_BY_INTRPT, RHINO_CRITICAL_EXIT cpsr s)
    else if decide (obj_type (blk_of s mutex) <> RHINO_MUTEX_OBJ_TYPE) then
      (Some RHINO_KOBJ_TYPE_ERR, RHINO_CRITICAL_EXIT cpsr s)
    else
      let active := g_active_task s in
      if active =? mutex_task (mutex_of s mutex) then
        if owner_nested (mutex_of s mutex) =? MUTEX_NESTED_MAX then
          (Some RHINO_MUTEX_NESTED_OVF, RHINO_CRITICAL_EXIT cpsr (k_err_proc RHINO_MUTEX_NESTED_OVF s))
        else
          let s := upd_mutex mutex (fun m => m <| owner_nested ::= fun n => wrap32 (n + 1) |>) s in
          (Some RHINO_MUTEX_OWNER_NESTED, RHINO_CRITICAL_EXIT cpsr s)
      else
        let owner := mutex_task (mutex_of s mutex) in
        if owner =? NULL then
          let s := upd_mutex mutex (fun m => m <| mutex_task := active |>) s in
          let s := upd_mutex mutex (fun m => m <| mutex_next := mutex_list (task_of s active) |>) s in
          let s := upd_task active (fun k => k <| mutex_list := mutex |>) s in
          let s := upd_mutex mutex (fun m => m <| owner_nested := 1 |>) s in
          (Some RHINO_SUCCESS, RHINO_CRITICAL_EXIT cpsr s)
        else if ticks =? RHINO_NO_WAIT then (Some RHINO_NO_PEND_WAIT, RHINO_CRITICAL_EXIT cpsr s)
        else if 0 <? g_sched_lock s then (Some RHINO_SCHED_DISABLE, RHINO_CRITICAL_EXIT cpsr s)
        else
          let s := if prio (task_of s active) <? prio (task_of s owner)
                   then (task_pri_change owner (prio (task_of s active)) s).2 else s in
          let s := pend_to_blk_obj mutex (g_active_task s) ticks s in
          (None, RHINO_CRITICAL_EXIT_SCHED cpsr s).

Definition krhino_mutex_unlock mutex s : kstat_t * kstate :=
  if mutex =? NULL then (RHINO_NULL_PTR, s)
  else if decide (g_sys_stat s = RHINO_STOPPED) then (RHINO_SUCCESS, s)
  else
    let '(cpsr, s) := RHINO_CRITICAL_ENTER s in
    if in_intrpt s then (RHINO_NOT_CALLED_BY_INTRPT, RHINO_CRITICAL_EXIT cpsr s)
    else if decide (obj_type (blk_of s mutex) <> RHINO_MUTEX_OBJ_TYPE) then
      (RHINO_KOBJ_TYPE_ERR, RHINO_CRITICAL_EXIT cpsr s)
    else if negb (g_active_task s =? mutex_task (mutex_of s mutex)) then
      (RHINO_MUTEX_NOT_RELEASED_BY_OWNER, RHINO_CRITICAL_EXIT cpsr s)
    else
      let s := upd_mutex mutex (fun m => m <| owner_nested ::= fun n => wrap32 (n - 1) |>) s in
      if 0 <? owner_nested (mutex_of s mutex) then (RHINO_MUTEX_OWNER_NESTED, RHINO_CRITICAL_EXIT cpsr s)
      else
        let s := mutex_release (g_active_task s) mutex s in
        match blk_list (blk_of s mutex) with
        | [] => (RHINO_SUCCESS, RHINO_CRITICAL_EXIT cpsr (upd_mutex mutex (fun m => m <| mutex_task := NULL |>) s))
        | task :: _ =>
            let s := pend_task_wakeup task s in
            let s := upd_mutex mutex (fun m => m <| mutex_task := task |>) s in
            let s := upd_mutex mutex (fun m => m <| mutex_next := mutex_list (task_of s task) |>) s in
            let s := upd_task task (fun k => k <| mutex_list := mutex |>) s in
            let s := upd_mutex mutex (fun m => m <| owner_nested := 1 |>) s in
            (RHINO_SUCCESS, RHINO_CRITICAL_EXIT_SCHED cpsr s)
        end.

Definition krhino_mutex_is_valid mutex s : kstat_t :=
  if mutex =? NULL then RHINO_NULL_PTR
  else if decide (obj_type (blk_of s mutex) <> RHINO_MUTEX_OBJ_TYPE) then RHINO_KOBJ_TYPE_ERR
  else RHINO_SUCCESS.
