(* ===== verification/Queue.v ===== *)
(** * Message queues ([k_queue.c]) and buffer queues ([k_buf_queue.c])

    A [kqueue_t] is a ring buffer of 32-bit message pointers; a [kbuf_queue_t] is a
    ring buffer of variable-length messages.  A receiver that finds the queue empty
    blocks, and the next message is handed to it directly, without passing through
    the ring buffer. *)
From S2P Require Import Prelude Bitmap KTypes Alloc RunQueue RingBuf Kernel Pend Task Sem.
Local Open Scope Z_scope.

Implicit Types (s : kstate) (task t queue o : Z).

Definition queue_of s o : kqueue_t := queues s !!! o.
Definition buf_queue_of s o : kbuf_queue_t := buf_queues s !!! o.

Definition QMSG_SEND_TO_FRONT : Z := 3.
Definition QMSG_SEND_TO_END : Z := 4.
Definition sizeof_ptr : nat := 4.

(** The four bytes of a message pointer in memory. *)
Definition ptr_bytes (p : Z) : list Z := [le_byte p 0; le_byte p 1; le_byte p 2; le_byte p 3].

Module MsgQueue.

Definition task_msg_recv (m : Z) task s : kstate :=
  let s := upd_task task (fun k => k <| msg := m |>) s in
  pend_task_wakeup task s.

(** [start] is the address of the message array and [mem] its contents,
    [msg_num * sizeof(void * )] bytes. *)
Definition queue_create queue (name start msg_num mm_flag : Z) (mem : list Z) s : kstat_t * kstate :=
  if queue =? NULL then (RHINO_NULL_PTR, s)
  else if start =? NULL then (RHINO_NULL_PTR, s)
  else if name =? NULL then (RHINO_NULL_PTR, s)
  else if msg_num =? 0 then (RHINO_INV_PARAM, s)
  else
    let s := upd_blk queue (fun b => (blk_obj_init name) <| obj_type := obj_type b |>) s in
    let s := upd_queue queue (fun q => q <| queue_start := start |>) s in
    let s := upd_queue queue (fun q => q <| q_ringbuf := (ringbuf_init mem RINGBUF_TYPE_FIX sizeof_ptr).2 |>) s in
    let s := upd_queue queue (fun q => q <| q_size := msg_num |> <| q_cur_num := 0 |> <| q_peak_num := 0 |>
                                        <| queue_alloc_flag := mm_flag |>) s in
    let '(cpsr, s) := RHINO_CRITICAL_ENTER s in
    let s := s <| g_kobj_list ::= fun k => k <| queue_head ::= fun l => l ++ [queue] |> |> in
    let s := RHINO_CRITICAL_EXIT cpsr s in
    (RHINO_SUCCESS, set_obj_type queue RHINO_QUEUE_OBJ_TYPE s).

Definition krhino_queue_create queue (name start msg_num : Z) (mem : list Z) s : kstat_t * kstate :=
  queue_create queue name start msg_num K_OBJ_STATIC_ALLOC mem s.

(** [krhino_queue_del] and [krhino_queue_dyn_del] up to the final [krhino_mm_free]s. *)
Definition queue_del_with (flag : Z) queue s : kstat_t * kstate :=
  if queue =? NULL then (RHINO_NULL_PTR, s)
  else
    let '(cpsr, s) := RHINO_CRITICAL_ENTER s in
    if in_intrpt s then (RHINO_NOT_CALLED_BY_INTRPT, RHINO_CRITICAL_EXIT cpsr s)
    else if decide (obj_type (blk_of s queue) <> RHINO_QUEUE_OBJ_TYPE) then
      (RHINO_KOBJ_TYPE_ERR, RHINO_CRITICAL_EXIT cpsr s)
    else if negb (queue_alloc_flag (queue_of s queue) =? flag) then (RHINO_KOBJ_DEL_ERR, RHINO_CRITICAL_EXIT cpsr s)
    else
      let s := set_obj_type queue RHINO_OBJ_TYPE_NONE s in
      let s := wake_all queue pend_task_rm s in
      let s := s <| g_kobj_list ::= fun k => k <| queue_head ::= remove_addr queue |> |> in
      let s := upd_queue queue (fun q => q <| q_ringbuf ::= fun rb => (ringbuf_reset rb).2 |>) s in
      (RHINO_SUCCESS, RHINO_CRITICAL_EXIT_SCHED cpsr s).

Definition krhino_queue_del queue s : kstat_t * kstate := queue_del_with K_OBJ_STATIC_ALLOC queue s.

Section Dyn.
Context {H : Type} `{MemAlloc H}.

(** [mem] is what the freshly allocated message array contains. *)
Definition krhino_queue_dyn_create (queue_null : bool) (name msg_num : Z) (mem : list Z) (h : H) s
    : kstat_t * Z * H * kstate :=
  if queue_null then (RHINO_NULL_PTR, NULL, h, s)
  else
    let '(queue_obj, h) := krhino_mm_alloc (sizeof S_kqueue) h in
    if queue_obj =? NULL then (RHINO_NO_MEM, NULL, h, s)
    else
      let '(msg_start, h) := krhino_mm_alloc (wrap32 (msg_num * Z.of_nat sizeof_ptr)) h in
      if msg_start =? NULL then (RHINO_NO_MEM, NULL, krhino_mm_free queue_obj h, s)
      else
        let '(stat, s) := queue_create queue_obj name msg_start msg_num K_OBJ_DYN_ALLOC mem s in
        if decide (stat = RHINO_SUCCESS) then (stat, queue_obj, h, s)
        else (stat, NULL, krhino_mm_free queue_obj (krhino_mm_free msg_start h), s).

Definition krhino_queue_dyn_del queue (h : H) s : kstat_t * H * kstate :=
  let '(stat, s) := queue_del_with K_OBJ_DYN_ALLOC queue s in
  if decide (stat = RHINO_SUCCESS)
  then (stat, krhino_mm_free queue (krhino_mm_free (queue_start (queue_of s queue)) h), s)
  else (stat, h, s).
End Dyn.

Definition msg_send queue (p_void opt_send_method : Z) (opt_wake_all : bool) s : kstat_t * kstate :=
  if queue =? NULL then (RHINO_NULL_PTR, s)
  else
    let '(cpsr, s) := RHINO_CRITICAL_ENTER s in
    if decide (obj_type (blk_of s queue) <> RHINO_QUEUE_OBJ_TYPE) then
      (RHINO_KOBJ_TYPE_ERR, RHINO_CRITICAL_EXIT cpsr s)
    else if q_size (queue_of s queue) <=? q_cur_num (queue_of s queue) then
      (RHINO_QUEUE_FULL, RHINO_CRITICAL_EXIT cpsr s)
    else
      match blk_list (blk_of s queue) with
      | [] =>
          let s := upd_queue queue (fun q => q <| q_cur_num ::= fun n => wrap32 (n + 1) |>) s in
          let s := if q_peak_num (queue_of s queue) <? q_cur_num (queue_of s queue)
                   then upd_queue queue (fun q => q <| q_peak_num := q_cur_num q |>) s else s in
          let s := upd_queue queue (fun q => q <| q_ringbuf ::= fun rb =>
                     if opt_send_method =? QMSG_SEND_TO_END then (ringbuf_push rb (ptr_bytes p_void)).2
                     else (ringbuf_head_push rb (ptr_bytes p_void)).2 |>) s in
          (RHINO_SUCCESS, RHINO_CRITICAL_EXIT cpsr s)
      | first :: _ =>
          let s := if opt_wake_all then wake_all queue (task_msg_recv p_void) s else task_msg_recv p_void first s in
          (RHINO_SUCCESS, RHINO_CRITICAL_EXIT_SCHED cpsr s)
      end.

Definition krhino_queue_front_send queue (m : Z) s : kstat_t * kstate := msg_send queue m QMSG_SEND_TO_FRONT false s.
Definition krhino_queue_back_send queue (m : Z) s : kstat_t * kstate := msg_send queue m QMSG_SEND_TO_END false s.
Definition krhino_queue_all_send queue (m opt : Z) s : kstat_t * kstate := msg_send queue m opt true s.

(** [*msg] is the middle component ([None] when it is not written). *)
Definition krhino_queue_recv queue (ticks : Z) (msg_null : bool) s : option kstat_t * option Z * kstate :=
  if queue =? NULL then (Some RHINO_NULL_PTR, None, s)
  else if msg_null then (Some RHINO_NULL_PTR, None, s)
  else
    let '(cpsr, s) := RHINO_CRITICAL_ENTER s in
    if (0 <? g_intrpt_nested_level s) && negb (ticks =? RHINO_NO_WAIT) then
      (Some RHINO_NOT_CALLED_BY_INTRPT, None, RHINO_CRITICAL_EXIT cpsr s)
    else if decide (obj_type (blk_of s queue) <> RHINO_QUEUE_OBJ_TYPE) then
      (Some RHINO_KOBJ_TYPE_ERR, None, RHINO_CRITICAL_EXIT cpsr s)
    else if 0 <? q_cur_num (queue_of s queue) then
      let '(_, bytes, _, rb) := ringbuf_pop (q_ringbuf (queue_of s queue)) in
      let s := upd_queue queue (fun q => q <| q_ringbuf := rb |>) s in
      let s := upd_queue queue (fun q => q <| q_cur_num ::= fun n => wrap32 (n - 1) |>) s in
      (Some RHINO_SUCCESS, Some (le_word bytes), RHINO_CRITICAL_EXIT cpsr s)
    else if ticks =? RHINO_NO_WAIT then (Some RHINO_NO_PEND_WAIT, Some NULL, RHINO_CRITICAL_EXIT cpsr s)
    else if 0 <? g_sched_lock s then (Some RHINO_SCHED_DISABLE, Some NULL, RHINO_CRITICAL_EXIT cpsr s)
    else
      let s := pend_to_blk_obj queue (g_active_task s) ticks s in
      (None, None, RHINO_CRITICAL_EXIT_SCHED cpsr s).

(** The part of [krhino_queue_recv] after the context switch. *)
Definition queue_recv_return s : kstat_t * Z * kstate :=
  let '(cpsr, s) := RHINO_CPU_INTRPT_DISABLE s in
  let '(ret, s) := pend_state_end_proc (g_active_task s) s in
  let m := match ret with RHINO_SUCCESS => msg (task_of s (g_active_task s)) | _ => NULL end in
  (ret, m, RHINO_CPU_INTRPT_ENABLE cpsr s).

Definition krhino_queue_is_full queue s : kstat_t :=
  if queue =? NULL then RHINO_NULL_PTR
  else if decide (obj_type (blk_of s queue) <> RHINO_QUEUE_OBJ_TYPE) then RHINO_KOBJ_TYPE_ERR
  else if q_size (queue_of s queue) <=? q_cur_num (queue_of s queue) then RHINO_QUEUE_FULL
  else RHINO_QUEUE_NOT_FULL.

Definition krhino_queue_flush queue s : kstat_t * kstate :=
  if queue =? NULL then (RHINO_NULL_PTR, s)
  else
    let '(cpsr, s) := RHINO_CRITICAL_ENTER s in
    if in_intrpt s then (RHINO_NOT_CALLED_BY_INTRPT, RHINO_CRITICAL_EXIT cpsr s)
    else if decide (obj_type (blk_of s queue) <> RHINO_QUEUE_OBJ_TYPE) then
      (RHINO_KOBJ_TYPE_ERR, RHINO_CRITICAL_EXIT cpsr s)
    else
      let s := upd_queue queue (fun q => q <| q_cur_num := 0 |>) s in
      let s := upd_queue queue (fun q => q <| q_ringbuf ::= fun rb => (ringbuf_reset rb).2 |>) s in
      (RHINO_SUCCESS, RHINO_CRITICAL_EXIT cpsr s).

(** [msg_info_t]: the counters and the first blocked task ([NULL] for the list head). *)
Record msg_info_t := { info_peak : Z; info_cur : Z; info_start : Z; info_size : Z; pend_entry : Z }.

Definition krhino_queue_info_get queue (info_null : bool) s : kstat_t * option msg_info_t :=
  if queue =? NULL then (RHINO_NULL_PTR, None)
  else if info_null then (RHINO_NULL_PTR, None)
  else if decide (obj_type (blk_of s queue) <> RHINO_QUEUE_OBJ_TYPE) then (RHINO_KOBJ_TYPE_ERR, None)
  else
    let q := queue_of s queue in
    (RHINO_SUCCESS, Some {| info_peak := q_peak_num q; info_cur := q_cur_num q; info_start := queue_start q;
                            info_size := q_size q; pend_entry := hd NULL (blk_list (blk_of s queue)) |}).
End MsgQueue.

Module BufQueue.

Definition buf_queue_create queue (name buf size max_msg mm_flag : Z) (mem : list Z) s : kstat_t * kstate :=
  if queue =? NULL then (RHINO_NULL_PTR, s)
  else if buf =? NULL then (RHINO_NULL_PTR, s)
  else if name =? NULL then (RHINO_NULL_PTR, s)
  else if max_msg =? 0 then (RHINO_INV_PARAM, s)
  else if size =? 0 then (RHINO_BUF_QUEUE_SIZE_ZERO, s)
  else
    let s := upd_blk queue (fun b => (blk_obj_init name) <| obj_type := obj_type b |>) s in
    let s := upd_buf_queue queue (fun q => q <| bq_buf := buf |> <| bq_cur_num := 0 |> <| bq_peak_num := 0 |>
               <| max_msg_size := max_msg |> <| buf_queue_alloc_flag := mm_flag |>) s in
    let '(cpsr, s) := RHINO_CRITICAL_ENTER s in
    let s := s <| g_kobj_list ::= fun k => k <| buf_queue_head ::= fun l => l ++ [queue] |> |> in
    let s := RHINO_CRITICAL_EXIT cpsr s in
    let s := set_obj_type queue RHINO_BUF_QUEUE_OBJ_TYPE s in
    let s := upd_buf_queue queue (fun q => q <| bq_ringbuf := (ringbuf_init mem RINGBUF_TYPE_DYN 0).2 |>) s in
    let s := upd_buf_queue queue (fun q => q <| min_free_buf_size := Z.of_nat (freesize (bq_ringbuf q)) |>) s in
    (RHINO_SUCCESS, s).

Definition krhino_buf_queue_create queue (name buf size max_msg : Z) (mem : list Z) s : kstat_t * kstate :=
  buf_queue_create queue name buf size max_msg K_OBJ_STATIC_ALLOC mem s.

(** [krhino_buf_queue_del] and [krhino_buf_queue_dyn_del] up to the final frees. *)
Definition buf_queue_del_with (flag : Z) queue s : kstat_t * kstate :=
  if queue =? NULL then (RHINO_NULL_PTR, s)
  else
    let '(cpsr, s) := RHINO_CRITICAL_ENTER s in
    if in_intrpt s then (RHINO_NOT_CALLED_BY_INTRPT, RHINO_CRITICAL_EXIT cpsr s)
    else if decide (obj_type (blk_of s queue) <> RHINO_BUF_QUEUE_OBJ_TYPE) then
      (RHINO_KOBJ_TYPE_ERR, RHINO_CRITICAL_EXIT cpsr s)
    else if negb (buf_queue_alloc_flag (buf_queue_of s queue) =? flag) then
      (RHINO_KOBJ_DEL_ERR, RHINO_CRITICAL_EXIT cpsr s)
    else
      let s := set_obj_type queue RHINO_OBJ_TYPE_NONE s in
      let s := wake_all queue pend_task_rm s in
      let s := s <| g_kobj_list ::= fun k => k <| buf_queue_head ::= remove_addr queue |> |> in
      let s := upd_buf_queue queue (fun q => q <| bq_ringbuf ::= fun rb => (ringbuf_reset rb).2 |>) s in
      (RHINO_SUCCESS, RHINO_CRITICAL_EXIT_SCHED cpsr s).

Definition krhino_buf_queue_del queue s : kstat_t * kstate := buf_queue_del_with K_OBJ_STATIC_ALLOC queue s.

Section Dyn.
Context {H : Type} `{MemAlloc H}.

Definition krhino_buf_queue_dyn_create (queue_null : bool) (name size max_msg : Z) (mem : list Z) (h : H) s
    : kstat_t * Z * H * kstate :=
  if queue_null then (RHINO_NULL_PTR, NULL, h, s)
  else if size =? 0 then (RHINO_BUF_QUEUE_SIZE_ZERO, NULL, h, s)
  else
    let '(queue_obj, h) := krhino_mm_alloc (sizeof S_kbuf_queue) h in
    if queue_obj =? NULL then (RHINO_NO_MEM, NULL, h, s)
    else
      let '(buf, h) := krhino_mm_alloc size h in
      if buf =? NULL then (RHINO_NO_MEM, NULL, krhino_mm_free queue_obj h, s)
      else
        let '(stat, s) := buf_queue_create queue_obj name buf size max_msg K_OBJ_DYN_ALLOC mem s in
        if decide (stat = RHINO_SUCCESS) then (RHINO_SUCCESS, queue_obj, h, s)
        else (stat, NULL, krhino_mm_free queue_obj (krhino_mm_free buf h), s).

Definition krhino_buf_queue_dyn_del queue (h : H) s : kstat_t * H * kstate :=
  let '(stat, s) := buf_queue_del_with K_OBJ_DYN_ALLOC queue s in
  if decide (stat = RHINO_SUCCESS)
  then (stat, krhino_mm_free queue (krhino_mm_free (bq_buf (buf_queue_of s queue)) h), s)
  else (stat, h, s).
End Dyn.

(** [m] is the message, [msg_size] bytes. *)
Definition buf_queue_send queue (m : list Z) (front : bool) s : kstat_t * kstate :=
  let msg_size := Z.of_nat (length m) in
  let '(cpsr, s) := RHINO_CRITICAL_ENTER s in
  if decide (obj_type (blk_of s queue) <> RHINO_BUF_QUEUE_OBJ_TYPE) then
    (RHINO_KOBJ_TYPE_ERR, RHINO_CRITICAL_EXIT cpsr s)
  else if max_msg_size (buf_queue_of s queue) <? msg_size then
    (RHINO_BUF_QUEUE_MSG_SIZE_OVERFLOW, RHINO_CRITICAL_EXIT cpsr s)
  else if msg_size =? 0 then (RHINO_INV_PARAM, RHINO_CRITICAL_EXIT cpsr s)
  else
    match blk_list (blk_of s queue) with
    | [] =>
        let '(err, rb) := if front then ringbuf_head_push (bq_ringbuf (buf_queue_of s queue)) m
                          else ringbuf_push (bq_ringbuf (buf_queue_of s queue)) m in
        let s := upd_buf_queue queue (fun q => q <| bq_ringbuf := rb |>) s in
        if decide (err = RHINO_SUCCESS) then
          let s := upd_buf_queue queue (fun q => q <| bq_cur_num ::= fun n => wrap32 (n + 1) |>) s in
          let s := if bq_peak_num (buf_queue_of s queue) <? bq_cur_num (buf_queue_of s queue)
                   then upd_buf_queue queue (fun q => q <| bq_peak_num := bq_cur_num q |>) s else s in
          let s := if Z.of_nat (freesize (bq_ringbuf (buf_queue_of s queue))) <? min_free_buf_size (buf_queue_of s queue)
                   then upd_buf_queue queue
                          (fun q => q <| min_free_buf_size := Z.of_nat (freesize (bq_ringbuf q)) |>) s else s in
          (RHINO_SUCCESS, RHINO_CRITICAL_EXIT cpsr s)
        else
          (if decide (err = RHINO_RINGBUF_FULL) then RHINO_BUF_QUEUE_FULL else err, RHINO_CRITICAL_EXIT cpsr s)
    | task :: _ =>
        let p := msg (task_of s task) in
        let s := s <| user_bufs := <[p := mem_write 0 m (user_bufs s !!! p)]> (user_bufs s) |> in
        let s := upd_task task (fun k => k <| bq_msg_size := msg_size |>) s in
        let s := pend_task_wakeup task s in
        (RHINO_SUCCESS, RHINO_CRITICAL_EXIT_SCHED cpsr s)
    end.

Definition krhino_buf_queue_send queue (m : option (list Z)) s : kstat_t * kstate :=
  if queue =? NULL then (RHINO_NULL_PTR, s)
  else match m with None => (RHINO_NULL_PTR, s) | Some m => buf_queue_send queue m false s end.

Definition krhino_buf_queue_send_front queue (m : option (list Z)) s : kstat_t * kstate :=
  if queue =? NULL then (RHINO_NULL_PTR, s)
  else match m with None => (RHINO_NULL_PTR, s) | Some m => buf_queue_send queue m true s end.

(** [p] is the address of the receive buffer; [*size] is the middle component. *)
Definition krhino_buf_queue_recv queue (ticks p : Z) (size_null : bool) s : option kstat_t * option Z * kstate :=
  if queue =? NULL then (Some RHINO_NULL_PTR, None, s)
  else if p =? NULL then (Some RHINO_NULL_PTR, None, s)
  else if size_null then (Some RHINO_NULL_PTR, None, s)
  else
    let '(cpsr, s) := RHINO_CRITICAL_ENTER s in
    if (0 <? g_intrpt_nested_level s) && negb (ticks =? RHINO_NO_WAIT) then
      (Some RHINO_NOT_CALLED_BY_INTRPT, None, RHINO_CRITICAL_EXIT cpsr s)
    else if decide (obj_type (blk_of s queue) <> RHINO_BUF_QUEUE_OBJ_TYPE) then
      (Some RHINO_KOBJ_TYPE_ERR, None, RHINO_CRITICAL_EXIT cpsr s)
    else if negb (ringbuf_is_empty (bq_ringbuf (buf_queue_of s queue))) then
      let '(_, bytes, plen, rb) := ringbuf_pop (bq_ringbuf (buf_queue_of s queue)) in
      let s := s <| user_bufs := <[p := mem_write 0 bytes (user_bufs s !!! p)]> (user_bufs s) |> in
      let s := upd_buf_queue queue (fun q => q <| bq_ringbuf := rb |>) s in
      let s := upd_buf_queue queue (fun q => q <| bq_cur_num ::= fun n => wrap32 (n - 1) |>) s in
      (Some RHINO_SUCCESS, Some plen, RHINO_CRITICAL_EXIT cpsr s)
    else if ticks =? RHINO_NO_WAIT then (Some RHINO_NO_PEND_WAIT, Some 0, RHINO_CRITICAL_EXIT cpsr s)
    else if 0 <? g_sched_lock s then (Some RHINO_SCHED_DISABLE, Some 0, RHINO_CRITICAL_EXIT cpsr s)
    else
      let s := upd_task (g_active_task s) (fun k => k <| msg := p |>) s in
      let s := pend_to_blk_obj queue (g_active_task s) ticks s in
      (None, None, RHINO_CRITICAL_EXIT_SCHED cpsr s).

(** The part of [krhino_buf_queue_recv] after the context switch. *)
Definition buf_queue_recv_return s : kstat_t * Z * kstate :=
  let '(cpsr, s) := RHINO_CPU_INTRPT_DISABLE s in
  let '(ret, s) := pend_state_end_proc (g_active_task s) s in
  let size := match ret with RHINO_SUCCESS => bq_msg_size (task_of s (g_active_task s)) | _ => 0 end in
  (ret, size, RHINO_CPU_INTRPT_ENABLE cpsr s).

Definition krhino_buf_queue_flush queue s : kstat_t * kstate :=
  if queue =? NULL then (RHINO_NULL_PTR, s)
  else
    let '(cpsr, s) := RHINO_CRITICAL_ENTER s in
    if in_intrpt s then (RHINO_NOT_CALLED_BY_INTRPT, RHINO_CRITICAL_EXIT cpsr s)
    else if decide (obj_type (blk_of s queue) <> RHINO_BUF_QUEUE_OBJ_TYPE) then
      (RHINO_KOBJ_TYPE_ERR, RHINO_CRITICAL_EXIT cpsr s)
    else
      let s := upd_buf_queue queue (fun q => q <| bq_ringbuf ::= fun rb => (ringbuf_reset rb).2 |>) s in
      let s := upd_buf_queue queue (fun q => q <| bq_cur_num := 0 |> <| bq_peak_num := 0 |>) s in
      let s := upd_buf_queue queue (fun q => q <| min_free_buf_size := Z.of_nat (freesize (bq_ringbuf q)) |>) s in
      (RHINO_SUCCESS, RHINO_CRITICAL_EXIT cpsr s).

Record kbuf_queue_info_t := {
  bi_free : Z; bi_min_free : Z; bi_size : Z; bi_max_msg : Z; bi_cur : Z; bi_peak : Z }.

Definition krhino_buf_queue_info_get queue (info_null : bool) s : kstat_t * option kbuf_queue_info_t :=
  if queue =? NULL then (RHINO_NULL_PTR, None)
  else if info_null then (RHINO_NULL_PTR, None)
  else if decide (obj_type (blk_of s queue) <> RHINO_BUF_QUEUE_OBJ_TYPE) then (RHINO_KOBJ_TYPE_ERR, None)
  else
    let q := buf_queue_of s queue in
    (RHINO_SUCCESS, Some {| bi_free := Z.of_nat (freesize (bq_ringbuf q)); bi_min_free := min_free_buf_size q;
                            bi_size := Z.of_nat (rb_end (bq_ringbuf q)); bi_max_msg := max_msg_size q;
                            bi_cur := bq_cur_num q; bi_peak := bq_peak_num q |}).

Definition krhino_buf_queue_is_valid queue s : kstat_t :=
  if queue =? NULL then RHINO_NULL_PTR
  else if decide (obj_type (blk_of s queue) <> RHINO_BUF_QUEUE_OBJ_TYPE) then RHINO_KOBJ_TYPE_ERR
  else RHINO_SUCCESS.
End BufQueue.
