(* ===== verification/Event.v ===== *)
(** * Event flags ([k_event.c]) *)
From S2P Require Import Prelude Bitmap KTypes Alloc RunQueue RingBuf Kernel Pend Task Sem.
Local Open Scope Z_scope.

Implicit Types (s : kstate) (task t event o : Z).

Definition event_of s o : kevent_t := events s !!! o.

Definition RHINO_FLAGS_AND_MASK : Z := 0x2.
Definition RHINO_FLAGS_CLEAR_MASK : Z := 0x1.
Definition RHINO_AND : Z := 0x02.
Definition RHINO_AND_CLEAR : Z := 0x03.
Definition RHINO_OR : Z := 0x00.
Definition RHINO_OR_CLEAR : Z := 0x01.

Definition event_create event (name fl mm_flag : Z) s : kstat_t * kstate :=
  if event =? NULL then (RHINO_NULL_PTR, s)
  else if name =? NULL then (RHINO_NULL_PTR, s)
  else
    let s := upd_blk event (fun b => (blk_obj_init name) <| obj_type := obj_type b |>) s in
    let s := upd_event event (fun _ => {| flags := fl; event_alloc_flag := mm_flag |}) s in
    let '(cpsr, s) := RHINO_CRITICAL_ENTER s in
    let s := s <| g_kobj_list ::= fun k => k <| event_head ::= fun l => l ++ [event] |> |> in
    let s := RHINO_CRITICAL_EXIT cpsr s in
    (RHINO_SUCCESS, set_obj_type event RHINO_EVENT_OBJ_TYPE s).

Definition krhino_event_create event (name fl : Z) s : kstat_t * kstate :=
  event_create event name fl K_OBJ_STATIC_ALLOC s.

(** [krhino_event_del] and [krhino_event_dyn_del] up to the final [krhino_mm_free]. *)
Definition event_del_with (flag : Z) event s : kstat_t * kstate :=
  if event =? NULL then (RHINO_NULL_PTR, s)
  else
    let '(cpsr, s) := RHINO_CRITICAL_ENTER s in
    if in_intrpt s then (RHINO_NOT_CALLED_BY_INTRPT, RHINO_CRITICAL_EXIT cpsr s)
    else if decide (obj_type (blk_of s event) <> RHINO_EVENT_OBJ_TYPE) then
      (RHINO_KOBJ_TYPE_ERR, RHINO_CRITICAL_EXIT cpsr s)
    else if negb (event_alloc_flag (event_of s event) =? flag) then (RHINO_KOBJ_DEL_ERR, RHINO_CRITICAL_EXIT cpsr s)
    else
      let s := set_obj_type event RHINO_OBJ_TYPE_NONE s in
      let s := wake_all event pend_task_rm s in
      let s := upd_event event (fun e => e <| flags := 0 |>) s in
      let s := s <| g_kobj_list ::= fun k => k <| event_head ::= remove_addr event |> |> in
      (RHINO_SUCCESS, RHINO_CRITICAL_EXIT_SCHED cpsr s).

Definition krhino_event_del event s : kstat_t * kstate := event_del_with K_OBJ_STATIC_ALLOC event s.

Section Dyn.
Context {H : Type} `{MemAlloc H}.

Definition krhino_event_dyn_create (event_null : bool) (name fl : Z) (h : H) s : kstat_t * Z * H * kstate :=
  if event_null then (RHINO_NULL_PTR, NULL, h, s)
  else
    let '(event_obj, h) := krhino_mm_alloc (sizeof S_kevent) h in
    if event_obj =? NULL then (RHINO_NO_MEM, NULL, h, s)
    else
      let '(stat, s) := event_create event_obj name fl K_OBJ_DYN_ALLOC s in
      if decide (stat = RHINO_SUCCESS) then (stat, event_obj, h, s)
      else (stat, NULL, krhino_mm_free event_obj h, s).

Definition krhino_event_dyn_del event (h : H) s : kstat_t * H * kstate :=
  let '(stat, s) := event_del_with K_OBJ_DYN_ALLOC event s in
  if decide (stat = RHINO_SUCCESS) then (stat, krhino_mm_free event h, s) else (stat, h, s).
End Dyn.

(** The waiting condition: all flags for an AND option, any flag for an OR option. *)
Definition event_status (ev_flags fl opt : Z) : bool :=
  if negb (Z.land opt RHINO_FLAGS_AND_MASK =? 0) then Z.land ev_flags fl =? fl
  else 0 <? Z.land ev_flags fl.

(** [event->flags &= ~flags] on 32 bits. *)
Definition clear_flags (ev_flags fl : Z) : Z := Z.land ev_flags (wrap32 (Z.lnot fl)).

(** [actl_flags] is the address of the caller's result word. *)
Definition krhino_event_get event (fl opt actl_flags ticks : Z) s : option kstat_t * kstate :=
  if event =? NULL then (Some RHINO_NULL_PTR, s)
  else if actl_flags =? NULL then (Some RHINO_NULL_PTR, s)
  else if negb (opt =? RHINO_AND) && negb (opt =? RHINO_OR) && negb (opt =? RHINO_AND_CLEAR) &&
          negb (opt =? RHINO_OR_CLEAR) then (Some RHINO_NO_THIS_EVENT_OPT, s)
  else
    let '(cpsr, s) := RHINO_CRITICAL_ENTER s in
    if in_intrpt s then (Some RHINO_NOT_CALLED_BY_INTRPT, RHINO_CRITICAL_EXIT cpsr s)
    else if decide (obj_type (blk_of s event) <> RHINO_EVENT_OBJ_TYPE) then
      (Some RHINO_KOBJ_TYPE_ERR, RHINO_CRITICAL_EXIT cpsr s)
    else if event_status (flags (event_of s event)) fl opt then
      let s := s <| user_words ::= <[actl_flags := flags (event_of s event)]> |> in
      let s := if negb (Z.land opt RHINO_FLAGS_CLEAR_MASK =? 0)
               then upd_event event (fun e => e <| flags ::= fun f => clear_flags f fl |>) s else s in
      (Some RHINO_SUCCESS, RHINO_CRITICAL_EXIT cpsr s)
    else if ticks =? RHINO_NO_WAIT then (Some RHINO_NO_PEND_WAIT, RHINO_CRITICAL_EXIT cpsr s)
    else if 0 <? g_sched_lock s then (Some RHINO_SCHED_DISABLE, RHINO_CRITICAL_EXIT cpsr s)
    else
      let s := upd_task (g_active_task s)
                 (fun k => k <| pend_option := opt |> <| pend_flags := fl |> <| pend_info := actl_flags |>) s in
      let s := pend_to_blk_obj event (g_active_task s) ticks s in
      (None, RHINO_CRITICAL_EXIT_SCHED cpsr s).

(** The walk over the waiters: [iter->next] is read before the wake-up, so the walk
    follows the list as it was on entry. *)
Fixpoint event_set_walk event (cur_event_flags : Z) (l : list Z) s : kstate :=
  match l with
  | [] => s
  | task :: rest =>
      let k := task_of s task in
      let status := if negb (Z.land (pend_option k) RHINO_FLAGS_AND_MASK =? 0)
                    then Z.land cur_event_flags (pend_flags k) =? pend_flags k
                    else negb (Z.land cur_event_flags (pend_flags k) =? 0) in
      let s :=
        if status then
          let s := s <| user_words ::= <[pend_info k := cur_event_flags]> |> in
          let s := pend_task_wakeup task s in
          if negb (Z.land (pend_option (task_of s task)) RHINO_FLAGS_CLEAR_MASK =? 0)
          then upd_event event (fun e => e <| flags ::= fun f => clear_flags f (pend_flags (task_of s task)) |>) s
          else s
        else s in
      event_set_walk event cur_event_flags rest s
  end.

Definition event_set event (fl opt : Z) s : kstat_t * kstate :=
  let '(cpsr, s) := RHINO_CRITICAL_ENTER s in
  if decide (obj_type (blk_of s event) <> RHINO_EVENT_OBJ_TYPE) then (RHINO_KOBJ_TYPE_ERR, RHINO_CRITICAL_EXIT cpsr s)
  else if negb (Z.land opt RHINO_FLAGS_AND_MASK =? 0) then
    (RHINO_SUCCESS, RHINO_CRITICAL_EXIT cpsr (upd_event event (fun e => e <| flags ::= Z.land fl |>) s))
  else
    let s := upd_event event (fun e => e <| flags ::= Z.lor fl |>) s in
    let cur_event_flags := flags (event_of s event) in
    let s := event_set_walk event cur_event_flags (blk_list (blk_of s event)) s in
    (RHINO_SUCCESS, RHINO_CRITICAL_EXIT_SCHED cpsr s).

Definition krhino_event_set event (fl opt : Z) s : kstat_t * kstate :=
  if event =? NULL then (RHINO_NULL_PTR, s)
  else if negb (opt =? RHINO_AND) && negb (opt =? RHINO_OR) then (RHINO_NO_THIS_EVENT_OPT, s)
  else event_set event fl opt s.
