(* ===== verification/MmBlk.v ===== *)
(** * Block pools ([k_mm_blk.c])

    A pool hands out blocks of one size.  The free blocks form a list threaded through
    their first words; [user_words] is that memory.  A [size_t] has 32 bits. *)
From S2P Require Import Prelude Bitmap KTypes RunQueue RingBuf Kernel.
Local Open Scope Z_scope.

Implicit Types (s : kstate) (pool blk a b x : Z) (l free out : list Z) (w : gmap Z Z).

Definition pool_of s pool : mblk_pool_t := mblk_pools s !!! pool.
Definition upd_pool pool (f : mblk_pool_t -> mblk_pool_t) s : kstate :=
  s <| mblk_pools := <[pool := f (mblk_pools s !!! pool)]> (mblk_pools s) |>.
Definition word_of s a : Z := user_words s !!! a.
Definition upd_word a (v : Z) s : kstate := s <| user_words ::= <[a := v]> |>.

(** The loop that links the blocks: [(blks, blk_cur, blk_next)] at its exit; [None]
    when the fuel runs out. *)
Fixpoint mblk_link (fuel : nat) (blk_size pool_end blks blk_cur blk_next : Z) s : option (Z * Z * Z * kstate) :=
  match fuel with
  | O => None
  | S fuel =>
      if blk_next <? pool_end then
        let s := upd_word blk_cur blk_next s in
        mblk_link fuel blk_size pool_end (wrap32 (blks + 1)) blk_next (wrap32 (blk_next + blk_size)) s
      else Some (blks, blk_cur, blk_next, s)
  end.

(** One iteration per block is enough, unless [blk_size] is zero. *)
Definition mblk_fuel (pool_size : Z) : nat := S (Z.to_nat pool_size).

Definition addr_align_mask : Z := 3.

Definition krhino_mblk_pool_init pool (name pool_start blk_sz pool_size : Z) s : option (kstat_t * kstate) :=
  if pool =? NULL then Some (RHINO_NULL_PTR, s)
  else if name =? NULL then Some (RHINO_NULL_PTR, s)
  else if pool_start =? NULL then Some (RHINO_NULL_PTR, s)
  else if pool_size <? wrap32 (Z.shiftl blk_sz 1) then Some (RHINO_BLK_POOL_SIZE_ERR, s)
  else if 0 <? Z.land pool_start addr_align_mask then Some (RHINO_INV_ALIGN, s)
  else if 0 <? Z.land blk_sz addr_align_mask then Some (RHINO_INV_ALIGN, s)
  else if 0 <? Z.land pool_size addr_align_mask then Some (RHINO_INV_ALIGN, s)
  else
    let pool_end := wrap32 (pool_start + pool_size) in
    match mblk_link (mblk_fuel pool_size) blk_sz pool_end 0 pool_start (wrap32 (pool_start + blk_sz)) s with
    | None => None
    | Some (blks, blk_cur, blk_next, s) =>
        let blks := if blk_next =? pool_end then wrap32 (blks + 1) else blks in
        let s := upd_word blk_cur NULL s in
        let s := upd_pool pool (fun _ => {| pool_obj_type := RHINO_MM_BLK_OBJ_TYPE; pool_name := name;
                   blk_size := blk_sz; blk_avail := blks; blk_whole := blks; avail_list := pool_start |}) s in
        let '(cpsr, s) := RHINO_CRITICAL_ENTER s in
        let s := s <| g_kobj_list ::= fun k => k <| mblkpool_head ::= fun l => l ++ [pool] |> |> in
        Some (RHINO_SUCCESS, RHINO_CRITICAL_EXIT cpsr s)
    end.

(** [*blk] is the second component, [None] when it is not written. *)
Definition krhino_mblk_alloc pool (blk_null : bool) s : kstat_t * option Z * kstate :=
  if pool =? NULL then (RHINO_NULL_PTR, None, s)
  else if blk_null then (RHINO_NULL_PTR, None, s)
  else if decide (pool_obj_type (pool_of s pool) <> RHINO_MM_BLK_OBJ_TYPE) then (RHINO_KOBJ_TYPE_ERR, None, s)
  else
    let '(cpsr, s) := RHINO_CRITICAL_ENTER s in
    if 0 <? blk_avail (pool_of s pool) then
      let avail_blk := avail_list (pool_of s pool) in
      let s := upd_pool pool (fun p => p <| avail_list := word_of s avail_blk |>) s in
      let s := upd_pool pool (fun p => p <| blk_avail ::= fun n => wrap32 (n - 1) |>) s in
      (RHINO_SUCCESS, Some avail_blk, RHINO_CRITICAL_EXIT cpsr s)
    else (RHINO_NO_MEM, Some NULL, RHINO_CRITICAL_EXIT cpsr s).

Definition krhino_mblk_free pool blk s : kstat_t * kstate :=
  if pool =? NULL then (RHINO_NULL_PTR, s)
  else if blk =? NULL then (RHINO_NULL_PTR, s)
  else if decide (pool_obj_type (pool_of s pool) <> RHINO_MM_BLK_OBJ_TYPE) then (RHINO_KOBJ_TYPE_ERR, s)
  else
    let '(cpsr, s) := RHINO_CRITICAL_ENTER s in
    let s := upd_word blk (avail_list (pool_of s pool)) s in
    let s := upd_pool pool (fun p => p <| avail_list := blk |>) s in
    let s := upd_pool pool (fun p => p <| blk_avail ::= fun n => wrap32 (n + 1) |>) s in
    (RHINO_SUCCESS, RHINO_CRITICAL_EXIT cpsr s).

(** ** The free list *)

(** [l] is the list from [p] to [e] through the link words. *)
Fixpoint chain w (p : Z) l (e : Z) : Prop :=
  match l with
  | [] => p = e
  | x :: l => p = x /\ chain w (w !!! x) l e
  end.

Lemma chain_frame w w' p l e : (forall x, x ∈ l -> w' !!! x = w !!! x) -> chain w p l e -> chain w' p l e.
Proof.
  revert p. induction l as [|x l IH]; intros p Hw; [done|]. intros [-> Hc]. split; [done|].
  rewrite Hw by (by left). apply IH; [|done]. intros y Hy. apply Hw. by right.
Qed.

(** The pool has the free blocks [free]. *)
Record pool_rep s pool free : Prop := {
  pr_type : pool_obj_type (pool_of s pool) = RHINO_MM_BLK_OBJ_TYPE;
  pr_avail : blk_avail (pool_of s pool) = Z.of_nat (length free);
  pr_small : Z.of_nat (length free) < 2 ^ 32;
  pr_nodup : NoDup free;
  pr_chain : exists e, chain (user_words s) (avail_list (pool_of s pool)) free e;
}.

Lemma pool_of_upd pool f s : pool_of (upd_pool pool f s) pool = f (pool_of s pool).
Proof. unfold pool_of, upd_pool; rsimpl. by rewrite lookup_total_insert_eq. Qed.

(** Writes outside the free blocks do not disturb the pool. *)
Lemma pool_rep_frame s s' pool free :
  mblk_pools s' = mblk_pools s -> (forall x, x ∈ free -> user_words s' !!! x = user_words s !!! x) ->
  pool_rep s pool free -> pool_rep s' pool free.
Proof.
  intros Ep Hw [H1 H2 H3 H4 [e H5]]. unfold pool_of in *. split; unfold pool_of; rewrite ?Ep; try done.
  exists e. by eapply chain_frame.
Qed.

(** What [krhino_mblk_alloc] leaves alone. *)
Record pool_only pool s s' : Prop := {
  po_others : forall q, q <> pool -> pool_of s' q = pool_of s q;
  po_const : blk_size (pool_of s' pool) = blk_size (pool_of s pool) /\ blk_whole (pool_of s' pool) = blk_whole (pool_of s pool);
  po_state : exists p w, s' = s <| mblk_pools := p |> <| user_words := w |>;
}.

Lemma mblk_alloc_spec s pool free :
  pool <> NULL -> pool_rep s pool free ->
  match free with
  | [] => krhino_mblk_alloc pool false s = (RHINO_NO_MEM, Some NULL, s)
  | x :: rest => exists s', krhino_mblk_alloc pool false s = (RHINO_SUCCESS, Some x, s') /\ pool_rep s' pool rest /\
      pool_only pool s s' /\ user_words s' = user_words s
  end.
Proof.
  intros Hn [H1 H2 H3 H4 [e H5]]. unfold krhino_mblk_alloc. rewrite (proj2 (Z.eqb_neq pool NULL) Hn).
  rewrite decide_False by (by intros []). unfold RHINO_CRITICAL_ENTER, RHINO_CPU_INTRPT_DISABLE; cbv beta iota.
  set (s1 := s <| intrpt_masked := true |>). change (pool_of s1 pool) with (pool_of s pool). rewrite H2.
  destruct free as [|x rest]; [by destruct s|]. rewrite (proj2 (Z.ltb_lt 0 _)) by (simpl; lia).
  destruct H5 as [-> H5]. change (word_of s1 x) with (user_words s !!! x).
  set (s2 := upd_pool pool _ (upd_pool pool _ s1)). exists (RHINO_CRITICAL_EXIT (intrpt_masked s) s2).
  assert (pool_of s2 pool = (pool_of s pool) <| avail_list := user_words s !!! x |> <| blk_avail ::= fun n => wrap32 (n - 1) |>) as E2
    by (unfold s2; by rewrite !pool_of_upd).
  split_and!; [done| | |done].
  - apply NoDup_cons in H4 as [_ H4]. cbn [length] in *.
    split; try (change (pool_of (RHINO_CRITICAL_EXIT (intrpt_masked s) s2) pool) with (pool_of s2 pool); rewrite E2; rsimpl); try done.
    + rewrite H2, wrap32_small by (unfold u32; lia). lia.
    + lia.
    + by exists e.
  - split; [| |by exists (mblk_pools s2), (user_words s)].
    + intros q Hq. unfold pool_of, RHINO_CRITICAL_EXIT, RHINO_CPU_INTRPT_ENABLE, s2, upd_pool, s1; rsimpl.
      by rewrite !lookup_total_insert_ne by done.
    + change (pool_of (RHINO_CRITICAL_EXIT (intrpt_masked s) s2) pool) with (pool_of s2 pool). by rewrite E2.
Qed.

Lemma mblk_free_spec s pool free b :
  pool <> NULL -> b <> NULL -> pool_rep s pool free -> b ∉ free -> Z.of_nat (length free) + 1 < 2 ^ 32 ->
  exists s', krhino_mblk_free pool b s = (RHINO_SUCCESS, s') /\ pool_rep s' pool (b :: free) /\
    pool_only pool s s' /\ forall a, a <> b -> user_words s' !!! a = user_words s !!! a.
Proof.
  intros Hn Hb [H1 H2 H3 H4 [e H5]] Hnin Hlen. unfold krhino_mblk_free.
  rewrite (proj2 (Z.eqb_neq pool NULL) Hn), (proj2 (Z.eqb_neq b NULL) Hb), decide_False by (by intros []).
  unfold RHINO_CRITICAL_ENTER, RHINO_CPU_INTRPT_DISABLE; cbv beta iota. set (s1 := s <| intrpt_masked := true |>).
  change (pool_of s1 pool) with (pool_of s pool). set (s2 := upd_pool pool _ (upd_pool pool _ _)).
  exists (RHINO_CRITICAL_EXIT (intrpt_masked s) s2).
  assert (pool_of s2 pool = (pool_of s pool) <| avail_list := b |> <| blk_avail ::= fun n => wrap32 (n + 1) |>) as E2
    by (unfold s2; by rewrite !pool_of_upd).
  assert (user_words (RHINO_CRITICAL_EXIT (intrpt_masked s) s2) = <[b := avail_list (pool_of s pool)]> (user_words s)) as Ew by done.
  split_and!; [done| | |intros a Ha; by rewrite Ew, lookup_total_insert_ne by done].
  - split; try (change (pool_of (RHINO_CRITICAL_EXIT (intrpt_masked s) s2) pool) with (pool_of s2 pool); rewrite E2; rsimpl); try done.
    + rewrite H2. cbn [length]. rewrite wrap32_small by (unfold u32; lia). lia.
    + cbn [length]. lia.
    + by apply NoDup_cons.
    + exists e. rewrite Ew. split; [done|]. rewrite lookup_total_insert_eq.
      eapply chain_frame; [|exact H5]. intros x Hx. apply lookup_total_insert_ne. by intros ->.
  - split; [| |by exists (mblk_pools s2), (user_words s2)].
    + intros q Hq. unfold pool_of, RHINO_CRITICAL_EXIT, RHINO_CPU_INTRPT_ENABLE, s2, upd_pool, upd_word, s1; rsimpl.
      by rewrite !lookup_total_insert_ne by done.
    + change (pool_of (RHINO_CRITICAL_EXIT (intrpt_masked s) s2) pool) with (pool_of s2 pool). by rewrite E2.
Qed.

(** ** Initialisation *)
Section Init.
Context (start sz : Z).

Definition blk_addr (i : nat) : Z := start + Z.of_nat i * sz.
Definition blk_addrs (n : nat) : list Z := blk_addr <$> seq 0 n.

Hypothesis sz_pos : 0 < sz.

Lemma blk_addr_inj i j : blk_addr i = blk_addr j -> i = j.
Proof. unfold blk_addr. intros E. assert (Z.of_nat i = Z.of_nat j) by nia. lia. Qed.

(** The loop stops after [m] blocks, the last index with [blk_addr m < pool_end]. *)
Lemma mblk_link_spec (pe : Z) (m : nat) :
  (forall j, (j < m)%nat -> blk_addr (S j) < pe) -> pe <= blk_addr (S m) -> 0 <= start -> blk_addr (S m) < 2 ^ 32 ->
  Z.of_nat m < 2 ^ 32 ->
  forall i fuel s, (i <= m)%nat -> (m - i < fuel)%nat ->
  exists w, mblk_link fuel sz pe (Z.of_nat i) (blk_addr i) (blk_addr (S i)) s =
      Some (Z.of_nat m, blk_addr m, blk_addr (S m), s <| user_words := w |>) /\
    (forall j, (i <= j < m)%nat -> w !!! blk_addr j = blk_addr (S j)) /\
    (forall a, (forall j, (i <= j < m)%nat -> a <> blk_addr j) -> w !!! a = user_words s !!! a).
Proof.
  intros Hlt Hge Hs Hmax Hm i fuel. remember (m - i)%nat as d eqn:Ed. revert i fuel Ed.
  induction d as [|d IH]; intros i fuel Ed s Hi Hf; (destruct fuel as [|fuel]; [lia|]); cbn [mblk_link].
  - assert (i = m) as -> by lia. rewrite (proj2 (Z.ltb_ge _ _)) by lia. exists (user_words s).
    split_and!; [by destruct s|lia|done].
  - rewrite (proj2 (Z.ltb_lt _ _)) by (apply Hlt; lia).
    assert (blk_addr (S i) + sz = blk_addr (S (S i))) as E1 by (unfold blk_addr; lia). rewrite E1.
    assert (blk_addr (S (S i)) <= blk_addr (S m)) by (unfold blk_addr; nia).
    rewrite (wrap32_small (Z.of_nat i + 1)), (wrap32_small (blk_addr _)) by (unfold u32, blk_addr in *; nia).
    replace (Z.of_nat i + 1) with (Z.of_nat (S i)) by lia.
    destruct (IH (S i) fuel ltac:(lia) (upd_word (blk_addr i) (blk_addr (S i)) s) ltac:(lia) ltac:(lia)) as (w & E & Hin & Hout).
    exists w. split_and!; [done| |].
    + intros j Hj. destruct (decide (j = i)) as [->|Hne]; [|apply Hin; lia]. rewrite Hout.
      * unfold upd_word; rsimpl. apply lookup_total_insert_eq.
      * intros j Hj' Ej%blk_addr_inj. lia.
    + intros a Ha. rewrite Hout by (intros j Hj; apply Ha; lia). unfold upd_word; rsimpl.
      apply lookup_total_insert_ne. intros E2. apply (Ha i); [lia|done].
Qed.

(** The first [n] blocks are linked. *)
Lemma chain_blocks w (n i : nat) :
  (forall j, (i <= j < i + n)%nat -> w !!! blk_addr j = blk_addr (S j)) ->
  chain w (blk_addr i) (blk_addr <$> seq i n) (blk_addr (i + n)).
Proof.
  revert i. induction n as [|n IH]; intros i Hw; cbn [seq fmap list_fmap chain].
  - f_equal. lia.
  - split; [done|]. rewrite (Hw i) by lia. replace (i + S n)%nat with (S i + n)%nat by lia. apply IH. intros j Hj. apply Hw. lia.
Qed.

Lemma chain_snoc w p l x e : chain w p l x -> w !!! x = e -> chain w p (l ++ [x]) e.
Proof.
  revert p. induction l as [|y l IH]; intros p; cbn [app chain]; [by intros -> ->|]. intros [-> Hc] He. split; [done|]. by apply IH.
Qed.

Lemma elem_of_blk_addrs a n : a ∈ blk_addrs n <-> exists i, (i < n)%nat /\ a = blk_addr i.
Proof. unfold blk_addrs. rewrite list_elem_of_fmap. setoid_rewrite elem_of_seq. split; intros (i & ?); exists i; [|]; naive_solver lia. Qed.

Lemma length_blk_addrs n : length (blk_addrs n) = n.
Proof. unfold blk_addrs. by rewrite length_fmap, length_seq. Qed.

Lemma NoDup_blk_addrs n : NoDup (blk_addrs n).
Proof. apply NoDup_fmap_2_strong; [|apply NoDup_seq]. intros i j _ _. apply blk_addr_inj. Qed.

(** The number of the last block that starts inside the pool. *)
Lemma last_block (size : Z) :
  0 < size -> exists m : nat,
    (forall j, (j < m)%nat -> blk_addr (S j) < start + size) /\ start + size <= blk_addr (S m) /\
    blk_addr (S m) < start + size + sz /\
    Z.of_nat m + (if blk_addr (S m) =? start + size then 1 else 0) = size / sz.
Proof.
  intros Hs. assert (0 <= (size - 1) / sz) by (apply Z.div_pos; lia).
  pose proof (Z.div_mod (size - 1) sz ltac:(lia)). pose proof (Z.mod_pos_bound (size - 1) sz ltac:(lia)).
  exists (Z.to_nat ((size - 1) / sz)). unfold blk_addr. rewrite Nat2Z.inj_succ, Z2Nat.id by lia.
  split_and!; [|nia|nia|].
  - intros j Hj. rewrite Nat2Z.inj_succ. nia.
  - destruct (Z.eqb_spec (start + Z.succ ((size - 1) / sz) * sz) (start + size)) as [E|E].
    + apply (Z.div_unique size sz _ 0); [lia|nia].
    + apply (Z.div_unique size sz _ (size - (size - 1) / sz * sz)); nia.
Qed.
End Init.

(** Parameters for which the pool fits the address space. *)
Definition pool_ok (start sz size : Z) : Prop :=
  0 < start /\ 0 < sz /\ 2 * sz <= size /\ start + size + sz < 2 ^ 32 /\
  Z.land start addr_align_mask = 0 /\ Z.land sz addr_align_mask = 0 /\ Z.land size addr_align_mask = 0.

Lemma pool_init_spec pool name start sz size s :
  pool <> NULL -> name <> NULL -> pool_ok start sz size ->
  exists s', krhino_mblk_pool_init pool name start sz size s = Some (RHINO_SUCCESS, s') /\
    pool_rep s' pool (blk_addrs start sz (Z.to_nat (size / sz))) /\
    blk_whole (pool_of s' pool) = size / sz /\ blk_size (pool_of s' pool) = sz /\
    exists w p ks, s' = s <| user_words := w |> <| mblk_pools := p |> <| g_kobj_list := ks |>.
Proof.
  intros Hn Hm (H1 & H2 & H3 & H4 & H5 & H6 & H7). unfold krhino_mblk_pool_init.
  rewrite (proj2 (Z.eqb_neq pool NULL) Hn), (proj2 (Z.eqb_neq name NULL) Hm), (proj2 (Z.eqb_neq start NULL)) by (unfold NULL; lia).
  assert (Z.shiftl sz 1 = 2 * sz) as -> by (rewrite Z.shiftl_mul_pow2 by lia; lia).
  rewrite wrap32_small by (unfold u32; lia). rewrite (proj2 (Z.ltb_ge _ _)) by lia. rewrite H5, H6, H7. cbn [Z.ltb Z.compare].
  rewrite !wrap32_small by (unfold u32; lia). replace (start + sz) with (blk_addr start sz 1) by (unfold blk_addr; lia).
  destruct (last_block start sz H2 size ltac:(lia)) as (m & Hlt & Hge & Hlt2 & Ecnt).
  assert (Z.of_nat m <= size) as Hms by (unfold blk_addr in *; destruct m; [lia|specialize (Hlt m ltac:(lia)); nia]).
  destruct (mblk_link_spec start sz H2 (start + size) m Hlt Hge ltac:(lia) ltac:(lia) ltac:(lia) 0 (mblk_fuel size) s ltac:(lia))
    as (w & Ew & Hin & Hout); [unfold mblk_fuel; lia|].
  change (Z.of_nat 0) with 0 in Ew. replace (blk_addr start sz 0) with start in Ew by (unfold blk_addr; lia). rewrite Ew.
  assert ((if blk_addr start sz (S m) =? start + size then wrap32 (Z.of_nat m + 1) else Z.of_nat m) = size / sz) as ->.
  { rewrite <- Ecnt. destruct (_ =? _); [apply wrap32_small; unfold u32; lia|lia]. }
  eexists. split; [reflexivity|]. unfold RHINO_CRITICAL_EXIT, RHINO_CPU_INTRPT_ENABLE.
  assert (0 <= size / sz <= size) as Hq by (split; [apply Z.div_pos|apply Z.div_le_upper_bound]; nia).
  set (s1 := upd_pool pool _ _). match goal with |- pool_rep ?x _ _ /\ _ => set (s2 := x) end.
  assert (pool_of s2 pool = pool_of s1 pool) as -> by done. unfold s1. rewrite pool_of_upd.
  split_and!; [|done|done|by eexists _, _, _].
  split; change (pool_of s2 pool) with (pool_of s1 pool); unfold s1; rewrite ?pool_of_upd; cbn; rewrite ?length_blk_addrs; try lia.
  - done.
  - by apply NoDup_blk_addrs.
  - set (w' := <[blk_addr start sz m := NULL]> w). change (user_words s2) with w'. unfold blk_addrs.
    destruct (Z.eqb_spec (blk_addr start sz (S m)) (start + size)) as [E|E]; rewrite <- Ecnt.
    + exists NULL. replace (Z.to_nat (Z.of_nat m + 1)) with (m + 1)%nat by lia. rewrite seq_app, fmap_app. cbn [seq fmap list_fmap].
      apply chain_snoc; [|by apply lookup_total_insert_eq].
      replace start with (blk_addr start sz 0) at 1 by (unfold blk_addr; lia).
      apply chain_blocks. intros j Hj. unfold w'. rewrite lookup_total_insert_ne by (intros Ej%blk_addr_inj; lia). apply Hin. lia.
    + exists (blk_addr start sz m). replace (Z.to_nat (Z.of_nat m + 0)) with m by lia.
      replace start with (blk_addr start sz 0) at 1 by (unfold blk_addr; lia).
      apply chain_blocks. intros j Hj. unfold w'. rewrite lookup_total_insert_ne by (intros Ej%blk_addr_inj; lia). apply Hin. lia.
Qed.

(** What initialisation may change, whatever it returns. *)
Lemma mblk_link_frame fuel sz pe n a b s n' a' b' s' :
  mblk_link fuel sz pe n a b s = Some (n', a', b', s') -> exists w, s' = s <| user_words := w |>.
Proof.
  revert n a b s. induction fuel as [|fuel IH]; intros n a b s; cbn [mblk_link]; [done|]. destruct (_ <? _).
  - intros [w ->]%IH. by exists w.
  - intros [= <- <- <- <-]. exists (user_words s). by destruct s.
Qed.

Lemma pool_init_frame pool name start sz size s r s' :
  krhino_mblk_pool_init pool name start sz size s = Some (r, s') ->
  exists w p ks, s' = s <| user_words := w |> <| mblk_pools := p |> <| g_kobj_list := ks |>.
Proof.
  assert (exists w p ks, s = s <| user_words := w |> <| mblk_pools := p |> <| g_kobj_list := ks |>) as Hs
    by (exists (user_words s), (mblk_pools s), (g_kobj_list s); by destruct s).
  unfold krhino_mblk_pool_init. do 3 (destruct (_ =? NULL); [by intros [= <- <-]|]).
  do 4 (destruct (_ <? _); [by intros [= <- <-]|]).
  destruct (mblk_link _ _ _ _ _ _ s) as [[[[n a] b] s1]|] eqn:E; [|done]. apply mblk_link_frame in E as [w ->].
  cbv beta iota zeta. unfold RHINO_CRITICAL_ENTER, RHINO_CPU_INTRPT_DISABLE. intros [= <- <-]. by eexists _, _, _.
Qed.

(** With a block size of zero the loop never ends: [blk_next] does not move. *)
Lemma mblk_link_zero fuel pe blks a s : a < pe -> u32 a -> mblk_link fuel 0 pe blks a a s = None.
Proof.
  intros Ha Hu. revert blks s. induction fuel as [|fuel IH]; intros blks s; cbn [mblk_link]; [done|].
  rewrite (proj2 (Z.ltb_lt a pe) Ha), Z.add_0_r, (wrap32_small a Hu). apply IH.
Qed.

(** ** Any sequence of operations *)

(** Clients allocate, free blocks they hold, and write words inside blocks they hold. *)
Inductive pool_op := PAlloc | PFree (b : Z) | PWrite (a v : Z).

Definition held (sz : Z) out a : bool := existsb (fun b => (b <=? a) && (a <? b + sz)) out.

(** One operation on the pool and the list of blocks that are out; [None] when the
    client breaks the rules. *)
Definition pool_step pool (sz : Z) (op : pool_op) s out : option (kstat_t * kstate * list Z) :=
  match op with
  | PAlloc =>
      let '(st, b, s) := krhino_mblk_alloc pool false s in
      Some (st, s, match st, b with RHINO_SUCCESS, Some b => b :: out | _, _ => out end)
  | PFree b =>
      if decide (b ∈ out) then let '(st, s) := krhino_mblk_free pool b s in Some (st, s, remove_addr b out) else None
  | PWrite a v => if held sz out a then Some (RHINO_SUCCESS, upd_word a v s, out) else None
  end.

Fixpoint pool_runs pool (sz : Z) (ops : list pool_op) s out : option (list kstat_t * kstate * list Z) :=
  match ops with
  | [] => Some ([], s, out)
  | op :: ops =>
      match pool_step pool sz op s out with
      | None => None
      | Some (r, s, out) =>
          match pool_runs pool sz ops s out with
          | None => None
          | Some (rs, s, out) => Some (r :: rs, s, out)
          end
      end
  end.

(** The specification: a counter of the blocks that are out, at most [n]. *)
Definition count_step (n : nat) (op : pool_op) (c : nat) : kstat_t * nat :=
  match op with
  | PAlloc => if (c <? n)%nat then (RHINO_SUCCESS, S c) else (RHINO_NO_MEM, c)
  | PFree _ => (RHINO_SUCCESS, pred c)
  | PWrite _ _ => (RHINO_SUCCESS, c)
  end.

Fixpoint count_runs (n : nat) (ops : list pool_op) (c : nat) : list kstat_t :=
  match ops with [] => [] | op :: ops => (count_step n op c).1 :: count_runs n ops (count_step n op c).2 end.

(** The free blocks and the blocks that are out are the blocks of the pool. *)
Definition pool_inv (start sz : Z) (n : nat) pool s out : Prop :=
  exists free, pool_rep s pool free /\ free ++ out ≡ₚ blk_addrs start sz n.

Lemma remove_addr_perm b out : NoDup out -> b ∈ out -> out ≡ₚ b :: remove_addr b out.
Proof.
  intros Hnd Hb. apply NoDup_Permutation; [done| |].
  - apply NoDup_cons. split; [rewrite elem_of_remove_addr; naive_solver|]. by apply NoDup_filter.
  - intros x. rewrite elem_of_cons, elem_of_remove_addr. destruct (decide (x = b)) as [->|]; naive_solver.
Qed.

Lemma held_spec sz out a : held sz out a = true <-> exists b, b ∈ out /\ b <= a < b + sz.
Proof.
  unfold held. rewrite existsb_exists. setoid_rewrite <- list_elem_of_In. split; intros (b & ? & ?); exists b; (split; [done|lia]).
Qed.

Lemma pool_step_inv start sz n pool op s out r s' out' :
  pool <> NULL -> 0 < start -> 0 < sz -> Z.of_nat n < 2 ^ 32 ->
  pool_inv start sz n pool s out -> pool_step pool sz op s out = Some (r, s', out') ->
  pool_inv start sz n pool s' out' /\ (r, length out') = count_step n op (length out).
Proof.
  intros Hn Hs Hz Hn32 (free & Hr & Hp). assert (NoDup (free ++ out)) as Hnd by (rewrite Hp; by apply NoDup_blk_addrs).
  pose proof (Permutation_length Hp) as Hlen. rewrite length_app, length_blk_addrs in Hlen.
  apply NoDup_app in Hnd as (Hnd1 & Hdis & Hnd2). destruct op as [|b|a v]; cbn [pool_step count_step].
  - pose proof (mblk_alloc_spec s pool free Hn Hr) as Ha. destruct free as [|x rest].
    + rewrite Ha. intros [= <- <- <-]. cbn [length] in Hlen. rewrite (proj2 (Nat.ltb_ge _ _)) by lia.
      split; [by exists []|done].
    + destruct Ha as (s1 & -> & Hr1 & _). intros [= <- <- <-]. cbn [length] in Hlen. rewrite (proj2 (Nat.ltb_lt _ _)) by lia.
      split; [|done]. exists rest. split; [done|]. rewrite <- Hp. cbn [app]. symmetry. apply Permutation_middle.
  - case_decide as Hb; [|done].
    assert (exists i, (i < n)%nat /\ b = blk_addr start sz i) as (i & Hi & Eb).
    { apply elem_of_blk_addrs. rewrite <- Hp. apply elem_of_app. by right. }
    pose proof (remove_addr_perm b out Hnd2 Hb) as Hrm.
    pose proof (Permutation_length Hrm) as Hlr. cbn [length] in Hlr.
    destruct (mblk_free_spec s pool free b) as (s1 & -> & Hr1 & _);
      [done|unfold blk_addr, NULL in *; nia|done|intros Hf; by apply (Hdis b)|lia|].
    intros [= <- <- <-]. split; [|f_equal; lia]. exists (b :: free). split; [done|].
    rewrite <- Hp. rewrite Hrm at 2. cbn [app]. apply Permutation_middle.
  - destruct (held sz out a) eqn:Hh; [|done]. intros [= <- <- <-]. split; [|done].
    exists free. split; [|done]. eapply (pool_rep_frame s); [done| |done].
    intros x Hx. unfold upd_word; rsimpl. apply lookup_total_insert_ne. intros <-.
    apply held_spec in Hh as (b & Hb & Hab).
    assert (a ∈ blk_addrs start sz n) as (i & Hi & Ei)%elem_of_blk_addrs by (rewrite <- Hp; apply elem_of_app; by left).
    assert (b ∈ blk_addrs start sz n) as (j & Hj & Ej)%elem_of_blk_addrs by (rewrite <- Hp; apply elem_of_app; by right).
    assert (i = j) as -> by (unfold blk_addr in *; nia). apply (Hdis a Hx). by rewrite Ei, <- Ej.
Qed.

Lemma pool_runs_inv start sz n pool ops s out rs s' out' :
  pool <> NULL -> 0 < start -> 0 < sz -> Z.of_nat n < 2 ^ 32 ->
  pool_inv start sz n pool s out -> pool_runs pool sz ops s out = Some (rs, s', out') ->
  pool_inv start sz n pool s' out' /\ rs = count_runs n ops (length out).
Proof.
  intros Hn Hs Hz Hn32. revert s out rs. induction ops as [|op ops IH]; intros s out rs Hi; cbn [pool_runs count_runs].
  - by intros [= <- <- <-].
  - destruct (pool_step pool sz op s out) as [[[r s1] out1]|] eqn:E; [|done].
    destruct (pool_step_inv _ _ _ _ _ _ _ _ _ _ Hn Hs Hz Hn32 Hi E) as [Hi1 Ec].
    destruct (pool_runs pool sz ops s1 out1) as [[[rs1 s2] out2]|] eqn:E2; [|done]. intros [= <- <- <-].
    rewrite <- Ec. cbn [fst snd]. destruct (IH _ _ _ Hi1 E2) as [? ->]. done.
Qed.

(** C34: A block pool is an allocator of [size / sz] blocks: initialisation terminates and
    succeeds, and after any sequence of allocations, frees of blocks held and writes
    inside blocks held, the blocks that are out are distinct blocks of the pool, every
    call returned what a bounded counter says, and allocation fails exactly when all
    blocks are out. *)
Theorem mblk_pool_refines pool name start sz size s ops :
  pool <> NULL -> name <> NULL -> pool_ok start sz size ->
  match krhino_mblk_pool_init pool name start sz size s with
  | Some (RHINO_SUCCESS, s0) =>
      match pool_runs pool sz ops s0 [] with
      | Some (rs, s', out) =>
          NoDup out /\ (forall b, b ∈ out -> exists i, 0 <= i < size / sz /\ b = start + i * sz) /\
          rs = count_runs (Z.to_nat (size / sz)) ops 0 /\
          (Z.of_nat (length out) = size / sz <-> (krhino_mblk_alloc pool false s').1.1 = RHINO_NO_MEM)
      | None => True
      end
  | _ => False
  end.
Proof.
  intros Hn Hm Hok. destruct (pool_init_spec pool name start sz size s Hn Hm Hok) as (s0 & -> & Hr & _).
  destruct (pool_runs pool sz ops s0 []) as [[[rs s'] out]|] eqn:Hrun; [|done].
  destruct Hok as (H1 & H2 & H3 & H4 & _).
  assert (0 <= size / sz <= size) as Hq by (split; [apply Z.div_pos|apply Z.div_le_upper_bound]; nia).
  assert (pool_inv start sz (Z.to_nat (size / sz)) pool s0 []) as Hi by (exists (blk_addrs start sz (Z.to_nat (size / sz))); by rewrite app_nil_r).
  assert (Z.of_nat (Z.to_nat (size / sz)) < 2 ^ 32) as Hn32 by lia.
  destruct (pool_runs_inv _ _ _ _ _ _ _ _ _ _ Hn H1 H2 Hn32 Hi Hrun) as [(free & Hr' & Hp) ->].
  assert (NoDup (free ++ out)) as (_ & _ & Hnd)%NoDup_app by (rewrite Hp; by apply NoDup_blk_addrs).
  pose proof (Permutation_length Hp) as Hl. rewrite length_app, length_blk_addrs in Hl.
  split_and!; [done| |done|].
  - intros b Hb. assert (b ∈ blk_addrs start sz (Z.to_nat (size / sz))) as (i & ? & ->)%elem_of_blk_addrs
      by (rewrite <- Hp; apply elem_of_app; by right). exists (Z.of_nat i). split; [lia|done].
  - pose proof (mblk_alloc_spec s' pool free Hn Hr') as Ha. destruct free as [|x rest]; cbn [length] in Hl.
    + rewrite Ha. split; [done|lia].
    + destruct Ha as (s1 & -> & _). split; [lia|done].
Qed.

(** [krhino_mblk_pool_init] accepts a block size of zero and then never returns. *)
Theorem mblk_pool_zero_diverges start size s fuel :
  0 < size -> start + size < 2 ^ 32 -> 0 <= start ->
  mblk_link fuel 0 (wrap32 (start + size)) 0 start (wrap32 (start + 0)) s = None.
Proof.
  intros H1 H2 H3. rewrite Z.add_0_r, !wrap32_small by (unfold u32; lia). apply mblk_link_zero; [lia|unfold u32; lia].
Qed.

(** Two blocks of 8 bytes at address 16, with 4 bytes to spare: the third allocation
    fails until a block is freed. *)
Lemma mblk_pool_refines_witness :
  match krhino_mblk_pool_init 500 1 16 8 20 kstate_zero with
  | Some (RHINO_SUCCESS, s0) =>
      match pool_runs 500 8 [PAlloc; PAlloc; PWrite 20 7; PAlloc; PFree 16; PAlloc] s0 [] with
      | Some (rs, s', out) =>
          NoDup out /\ (forall b, b ∈ out -> exists i, 0 <= i < 20 / 8 /\ b = 16 + i * 8) /\
          rs = [RHINO_SUCCESS; RHINO_SUCCESS; RHINO_SUCCESS; RHINO_NO_MEM; RHINO_SUCCESS; RHINO_SUCCESS] /\
          (Z.of_nat (length out) = 20 / 8 <-> (krhino_mblk_alloc 500 false s').1.1 = RHINO_NO_MEM)
      | None => True
      end
  | _ => False
  end.
Proof.
  apply (mblk_pool_refines 500 1 16 8 20 kstate_zero [PAlloc; PAlloc; PWrite 20 7; PAlloc; PFree 16; PAlloc]);
    [discriminate|discriminate|]. unfold pool_ok. repeat split; vm_compute; reflexivity || discriminate.
Defined.

Example pool_demo_runs :
  match krhino_mblk_pool_init 500 1 16 8 20 kstate_zero with
  | Some (RHINO_SUCCESS, s0) => snd <$> pool_runs 500 8 [PAlloc; PAlloc; PWrite 20 7; PAlloc; PFree 16; PAlloc] s0 []
  | _ => None
  end = Some [16; 24].
Proof. vm_compute. reflexivity. Qed.
