(* ===== verification/Mm.v ===== *)
(** * The two-level allocator ([k_mm.c], [k_mm.h])

    A heap is a set of regions.  Each region is cut into blocks; a block starts with a
    header of two words ([prev] and [size]) that precedes its buffer.  The two low bits of
    [size] say whether the block is free and whether the block before it is free; [prev]
    points to that block when it is.  Free blocks are linked into one of [FLT_SIZE] by
    [SLT_SIZE] lists by their size, through the first two words of their buffer, and two
    levels of bitmaps tell which lists are not empty.

    [words] is the memory of the heap, word by word, and the fields of [k_mm_head] are a
    record.  A [size_t] and a pointer have 32 bits.  [fixedmblk] is [NULL]: both boards set
    [RHINO_CONFIG_MM_TLF_BLK_SIZE] to 0, so the code for fixed-size blocks is never
    reached; [RHINO_CONFIG_MM_DEBUG], [K_MM_STATISTIC] and [RHINO_CONFIG_MM_REGION_MUTEX]
    are 0 as well, so the functions run in critical sections, which do not touch the
    structures and are not represented. *)
From S2P Require Import Prelude Bitmap KTypes.
Local Open Scope Z_scope.

(** ** Constants *)
Definition RHINO_CONFIG_MM_MAXMSIZEBIT : Z := 19.
Definition MAX_MM_BIT : Z := RHINO_CONFIG_MM_MAXMSIZEBIT.
Definition MAX_MM_SIZE : Z := Z.shiftl 1 MAX_MM_BIT.
Definition MIN_FLT_BIT : Z := 7.
Definition MIN_FLT_SIZE : Z := Z.shiftl 1 MIN_FLT_BIT.
Definition MAX_LOG2_SLT : Z := 5.
Definition SLT_SIZE : Z := Z.shiftl 1 MAX_LOG2_SLT.
Definition FLT_SIZE : Z := MAX_MM_BIT - MIN_FLT_BIT + 1.
Definition MM_ALIGN_MASK : Z := 3.
Definition MM_ALIGN_UP (a : Z) : Z := Z.land (wrap32 (a + MM_ALIGN_MASK)) (wrap32 (Z.lnot MM_ALIGN_MASK)).
Definition MM_ALIGN_DOWN (a : Z) : Z := Z.land a (wrap32 (Z.lnot MM_ALIGN_MASK)).
Definition RHINO_MM_BLKSIZE_MASK : Z := 0xFFFFFFFF - MM_ALIGN_MASK.
Definition MIN_FREE_MEMORY_SIZE : Z := 1024.
Definition RHINO_CONFIG_MM_TLF_BLK_SIZE : Z := 0.
Definition RHINO_MM_PRESTAT_MASK : Z := 2.
Definition RHINO_MM_FREE : Z := 1.
Definition RHINO_MM_ALLOCED : Z := 0.
Definition RHINO_MM_PREVFREE : Z := 2.
Definition RHINO_MM_PREVALLOCED : Z := 0.
Definition SIZEOF_MM_LIST : Z := 16.        (** [sizeof(k_mm_list_t)] *)
Definition MMLIST_HEAD_SIZE : Z := 8.       (** without the free pointers *)
Definition SIZEOF_REGION_INFO : Z := 8.     (** [sizeof(k_mm_region_info_t)] *)
Definition MMREGION_USED_SIZE : Z := MM_ALIGN_UP SIZEOF_REGION_INFO + 3 * MMLIST_HEAD_SIZE.
Definition AOS_MM_TLF_ALLOC_MIN_LENGTH : Z := 8.

(** ** State *)

(** [k_mm_head] and the memory it manages. *)
Record mm_state := {
  words : gmap Z Z;
  regioninfo : Z;
  fl_bitmap : Z;
  sl_bitmap : gmap Z Z;
  mm_tbl : gmap (Z * Z) Z;
}.
#[export] Instance eta_mm_state : Eta mm_state := {| eta_expand := fun m => {|
  words := words m; regioninfo := regioninfo m; fl_bitmap := fl_bitmap m; sl_bitmap := sl_bitmap m; mm_tbl := mm_tbl m |} |}.

(** [sizeof(k_mm_head)]: two pointers, the bitmaps and the table of lists. *)
Definition SIZEOF_MM_HEAD : Z := 4 + 4 + 4 + 4 * FLT_SIZE + 4 * (FLT_SIZE * SLT_SIZE).

Implicit Types (m : mm_state) (a b blk flt slt size : Z).

Definition rd m a : Z := default 0 (words m !! a).
Definition wr a (v : Z) m : mm_state := m <| words ::= <[a := v]> |>.
Definition sl_of m flt : Z := default 0 (sl_bitmap m !! flt).
Definition tbl_of m flt slt : Z := default 0 (mm_tbl m !! (flt, slt)).

(** The fields of a [k_mm_list_t] at [b] and the address of its buffer. *)
Definition b_prev m b : Z := rd m b.
Definition b_size m b : Z := rd m (b + 4).
Definition free_prev m b : Z := rd m (b + 8).
Definition free_next m b : Z := rd m (b + 12).
Definition set_b_prev b (v : Z) m : mm_state := wr b v m.
Definition set_b_size b (v : Z) m : mm_state := wr (b + 4) v m.
Definition set_free_prev b (v : Z) m : mm_state := wr (b + 8) v m.
Definition set_free_next b (v : Z) m : mm_state := wr (b + 12) v m.
Definition buffer b : Z := b + MMLIST_HEAD_SIZE.
Definition blksize m b : Z := Z.land (b_size m b) RHINO_MM_BLKSIZE_MASK.
Definition NEXT_MM_BLK (addr r : Z) : Z := wrap32 (addr + r).

(** The region info at [r]: [end] and [next]. *)
Definition region_end m r : Z := rd m r.
Definition region_next m r : Z := rd m (r + 4).

(** ** Bits *)

(** [krhino_find_first_bit(&w)], which is only called with a word that is not zero. *)
Definition first_bit (w : Z) : Z := default BITMAP_UNIT_SIZE (krhino_find_first_bit [w]).
Definition word_set (w nr : Z) : Z := hd 0 (krhino_bitmap_set [w] nr).
Definition word_clear (w nr : Z) : Z := hd 0 (krhino_bitmap_clear [w] nr).

Inductive SEARCH_ACTION := ACTION_INSERT | ACTION_GET.

(** The status and the indices [*flt] and [*slt]. *)
Definition bitmap_search size (action : SEARCH_ACTION) : kstat_t * Z * Z :=
  let '(flt, slt) :=
    if size <? MIN_FLT_SIZE then (0, Z.shiftr size (MIN_FLT_BIT - MAX_LOG2_SLT))
    else
      let firstbit := 31 - first_bit size in
      let '(tmp_size, firstbit) :=
        match action with
        | ACTION_GET =>
            let padding_size := Z.shiftl 1 (firstbit - MAX_LOG2_SLT) - 1 in
            let tmp_size := wrap32 (size + padding_size) in
            (tmp_size, 31 - first_bit tmp_size)
        | ACTION_INSERT => (size, firstbit)
        end in
      (wrap32 (firstbit - MIN_FLT_BIT + 1),
       Z.shiftr (wrap32 (tmp_size - Z.shiftl 1 firstbit)) (firstbit - MAX_LOG2_SLT)) in
  if (FLT_SIZE <=? flt) || (SLT_SIZE <=? slt) then (RHINO_MM_FREE_ADDR_ERR, flt, slt) else (RHINO_SUCCESS, flt, slt).

(** [bitmap] as an unsigned word. *)
Definition find_last_bit (bitmap : Z) : Z :=
  if bitmap =? 0 then 0
  else
    let x := Z.land bitmap (wrap32 (- bitmap)) in
    31 - first_bit x.

(** ** Free lists *)
Definition insert_block blk flt slt m : mm_state :=
  let m := set_free_prev blk NULL m in
  let m := set_free_next blk (tbl_of m flt slt) m in
  let m := if negb (tbl_of m flt slt =? NULL) then set_free_prev (tbl_of m flt slt) blk m else m in
  let m := m <| mm_tbl ::= <[(flt, slt) := blk]> |> in
  let m := m <| sl_bitmap ::= <[flt := word_set (sl_of m flt) (31 - slt)]> |> in
  m <| fl_bitmap ::= fun w => word_set w (31 - flt) |>.

Definition get_block blk flt slt m : mm_state :=
  let m := if negb (free_next m blk =? NULL) then set_free_prev (free_next m blk) (free_prev m blk) m else m in
  let m := if negb (free_prev m blk =? NULL) then set_free_next (free_prev m blk) (free_next m blk) m else m in
  let m :=
    if tbl_of m flt slt =? blk then
      let m := m <| mm_tbl ::= <[(flt, slt) := free_next m blk]> |> in
      if tbl_of m flt slt =? NULL then
        let m := m <| sl_bitmap ::= <[flt := word_clear (sl_of m flt) (31 - slt)]> |> in
        if sl_of m flt =? 0 then m <| fl_bitmap ::= fun w => word_clear w (31 - flt) |> else m
      else m
    else m in
  let m := set_free_prev blk NULL m in
  set_free_next blk NULL m.

(** The block found ([NULL] when there is none) and the new [*flt] and [*slt]. *)
Definition findblk_byidx m flt slt : Z * Z * Z :=
  let tmp := Z.land (sl_of m flt) (wrap32 (Z.shiftl (-1) slt)) in
  if negb (tmp =? 0) then
    let slt := find_last_bit tmp in (tbl_of m flt slt, flt, slt)
  else
    let flt := find_last_bit (Z.land (fl_bitmap m) (wrap32 (Z.shiftl (-1) (flt + 1)))) in
    if 0 <? flt then
      let slt := find_last_bit (sl_of m flt) in (tbl_of m flt slt, flt, slt)
    else (NULL, flt, slt).

(** ** Allocation *)

(** The list operation inlined in [k_mm_alloc]: unlink the first block [b] of a list. *)
Definition pop_block b fl sl m : mm_state :=
  let m := m <| mm_tbl ::= <[(fl, sl) := free_next m b]> |> in
  let m :=
    if negb (tbl_of m fl sl =? NULL) then set_free_prev (tbl_of m fl sl) NULL m
    else
      let m := m <| sl_bitmap ::= <[fl := word_clear (sl_of m fl) (31 - sl)]> |> in
      if sl_of m fl =? 0 then m <| fl_bitmap ::= fun w => word_clear w (31 - fl) |> else m in
  let m := set_free_prev b NULL m in
  set_free_next b NULL m.

(** The block [b] is cut to [size] bytes; the rest, if it can hold a block, is linked. *)
Definition split_block b size m : mm_state :=
  let next_b := NEXT_MM_BLK (buffer b) (blksize m b) in
  let tmp_size := wrap32 (blksize m b - size) in
  if SIZEOF_MM_LIST <=? tmp_size then
    let tmp_size := tmp_size - MMLIST_HEAD_SIZE in
    let b2 := NEXT_MM_BLK (buffer b) size in
    let m := set_b_size b2 (Z.lor (Z.lor tmp_size RHINO_MM_FREE) RHINO_MM_PREVALLOCED) m in
    let m := set_b_prev next_b b2 m in
    let '(_, fl, sl) := bitmap_search tmp_size ACTION_INSERT in
    let m := insert_block b2 fl sl m in
    set_b_size b (Z.lor size (Z.land (b_size m b) RHINO_MM_PRESTAT_MASK)) m
  else
    let m := set_b_size next_b (Z.land (b_size m next_b) (wrap32 (Z.lnot RHINO_MM_PREVFREE))) m in
    set_b_size b (Z.land (b_size m b) (wrap32 (Z.lnot RHINO_MM_FREE))) m.

Definition k_mm_alloc size m : Z * mm_state :=
  if size =? 0 then (NULL, m)
  else
    let size := MM_ALIGN_UP size in
    let size := if size <? AOS_MM_TLF_ALLOC_MIN_LENGTH then AOS_MM_TLF_ALLOC_MIN_LENGTH else size in
    let '(stat, fl, sl) := bitmap_search size ACTION_GET in
    if decide (stat <> RHINO_SUCCESS) then (NULL, m)
    else
      let '(b, fl, sl) := findblk_byidx m fl sl in
      if b =? NULL then (NULL, m)
      else
        let m := pop_block b fl sl m in
        let m := split_block b size m in
        (buffer b, m).

(** ** Freeing *)
Definition k_mm_free (ptr : Z) m : mm_state :=
  if ptr =? NULL then m
  else
    let b := ptr - MMLIST_HEAD_SIZE in
    let m := set_b_size b (Z.lor (b_size m b) RHINO_MM_FREE) m in
    let tmp_b := NEXT_MM_BLK (buffer b) (blksize m b) in
    let m :=
      if negb (Z.land (b_size m tmp_b) RHINO_MM_FREE =? 0) then
        let '(_, fl, sl) := bitmap_search (blksize m tmp_b) ACTION_INSERT in
        let m := get_block tmp_b fl sl m in
        set_b_size b (wrap32 (b_size m b + (blksize m tmp_b + MMLIST_HEAD_SIZE))) m
      else m in
    let '(b, m) :=
      if negb (Z.land (b_size m b) RHINO_MM_PREVFREE =? 0) then
        let tmp_b := b_prev m b in
        let '(_, fl, sl) := bitmap_search (blksize m tmp_b) ACTION_INSERT in
        let m := get_block tmp_b fl sl m in
        (tmp_b, set_b_size tmp_b (wrap32 (b_size m tmp_b + (blksize m b + MMLIST_HEAD_SIZE))) m)
      else (b, m) in
    let '(_, fl, sl) := bitmap_search (blksize m b) ACTION_INSERT in
    let m := insert_block b fl sl m in
    let tmp_b := NEXT_MM_BLK (buffer b) (blksize m b) in
    let m := set_b_size tmp_b (Z.lor (b_size m tmp_b) RHINO_MM_PREVFREE) m in
    set_b_prev tmp_b b m.

(** ** Reallocation *)

(** [memcpy(dst, src, n)] for whole words. *)
Fixpoint copy_words (n : nat) (dst src : Z) m : mm_state :=
  match n with
  | O => m
  | S n => copy_words n (dst + 4) (src + 4) (wr dst (rd m src) m)
  end.

(** The tail that [k_mm_realloc] cuts off the block [b], with [tmp_size] bytes after the
    first [new_size], before the block [next_b]. *)
Definition realloc_cut b (new_size tmp_size next_b : Z) m : mm_state :=
  if SIZEOF_MM_LIST <=? tmp_size then
    let tmp_size := tmp_size - MMLIST_HEAD_SIZE in
    let tmp_b := NEXT_MM_BLK (buffer b) new_size in
    let m := set_b_size tmp_b (Z.lor (Z.lor tmp_size RHINO_MM_FREE) RHINO_MM_PREVALLOCED) m in
    let m := set_b_prev next_b tmp_b m in
    let m := set_b_size next_b (Z.lor (b_size m next_b) RHINO_MM_PREVFREE) m in
    let '(_, fl, sl) := bitmap_search tmp_size ACTION_INSERT in
    let m := insert_block tmp_b fl sl m in
    set_b_size b (Z.lor new_size (Z.land (b_size m b) RHINO_MM_PRESTAT_MASK)) m
  else m.

Definition k_mm_realloc (oldmem new_size : Z) m : Z * mm_state :=
  if oldmem =? NULL then
    if negb (new_size =? 0) then k_mm_alloc new_size m else (NULL, m)
  else if new_size =? 0 then (NULL, k_mm_free oldmem m)
  else
    let b := oldmem - MMLIST_HEAD_SIZE in
    let tmp_size := blksize m b in
    let next_b := NEXT_MM_BLK (buffer b) (blksize m b) in
    let new_size := if new_size <? SIZEOF_MM_LIST then SIZEOF_MM_LIST else MM_ALIGN_UP new_size in
    let next_free := negb (Z.land (b_size m next_b) RHINO_MM_FREE =? 0) in
    if new_size <=? tmp_size then
      let '(tmp_size, next_b, m) :=
        if next_free then
          let '(_, fl, sl) := bitmap_search (blksize m next_b) ACTION_INSERT in
          let m := get_block next_b fl sl m in
          (wrap32 (tmp_size + (blksize m next_b + MMLIST_HEAD_SIZE)), NEXT_MM_BLK (buffer next_b) (blksize m next_b), m)
        else (tmp_size, next_b, m) in
      (buffer b, realloc_cut b new_size (wrap32 (tmp_size - new_size)) next_b m)
    else if next_free && (new_size <=? wrap32 (tmp_size + blksize m next_b)) then
      let '(_, fl, sl) := bitmap_search (blksize m next_b) ACTION_INSERT in
      let m := get_block next_b fl sl m in
      let m := set_b_size b (wrap32 (b_size m b + (blksize m next_b + MMLIST_HEAD_SIZE))) m in
      let next_b := NEXT_MM_BLK (buffer b) (blksize m b) in
      let m := set_b_prev next_b b m in
      let m := set_b_size next_b (Z.land (b_size m next_b) (wrap32 (Z.lnot RHINO_MM_PREVFREE))) m in
      (buffer b, realloc_cut b new_size (wrap32 (blksize m b - new_size)) next_b m)
    else
      let '(ptr_aux, m) := k_mm_alloc new_size m in
      if ptr_aux =? NULL then (NULL, m)
      else
        let cpsize := if new_size <? blksize m b then new_size else blksize m b in
        let m := copy_words (Z.to_nat (cpsize / 4)) ptr_aux oldmem m in
        (ptr_aux, k_mm_free oldmem m).

(** ** Regions *)

(** Returns [firstblk]. *)
Definition init_mm_region (regionaddr len : Z) m : Z * mm_state :=
  let firstblk := regionaddr in
  let m := set_b_size firstblk (Z.lor (Z.lor (MM_ALIGN_UP SIZEOF_REGION_INFO) RHINO_MM_ALLOCED) RHINO_MM_PREVALLOCED) m in
  let curblk := NEXT_MM_BLK (buffer firstblk) (blksize m firstblk) in
  let m := set_b_size curblk (Z.lor (Z.lor (MM_ALIGN_DOWN (wrap32 (len - MMREGION_USED_SIZE))) RHINO_MM_ALLOCED) RHINO_MM_PREVALLOCED) m in
  let m := set_free_next curblk 0 m in
  let m := set_free_prev curblk 0 m in
  let lastblk := NEXT_MM_BLK (buffer curblk) (blksize m curblk) in
  let m := set_b_prev lastblk curblk m in
  let m := set_b_size lastblk (Z.lor (Z.lor 0 RHINO_MM_ALLOCED) RHINO_MM_PREVFREE) m in
  let region := buffer firstblk in
  let m := wr (region + 4) 0 m in
  let m := wr region lastblk m in
  (firstblk, m).

(** [mem] is what the memory contains; [*ppmmhead] and the new heap on success. *)
Definition krhino_init_mm_head (ppmmhead_null : bool) (addr len : Z) (mem : gmap Z Z) : kstat_t * option (Z * mm_state) :=
  if ppmmhead_null then (RHINO_NULL_PTR, None)
  else if addr =? NULL then (RHINO_NULL_PTR, None)
  else
    let orig_addr := addr in
    let addr := MM_ALIGN_UP addr in
    let len := wrap32 (len - (addr - orig_addr)) in
    let len := MM_ALIGN_DOWN len in
    if negb (Z.land addr MM_ALIGN_MASK =? 0) || negb (len =? MM_ALIGN_DOWN len) then (RHINO_INV_ALIGN, None)
    else if (len =? 0) || (len <? MIN_FREE_MEMORY_SIZE + RHINO_CONFIG_MM_TLF_BLK_SIZE) || (MAX_MM_SIZE <? len) then
      (RHINO_MM_POOL_SIZE_ERR, None)
    else
      let pmmhead := addr in
      let m := {| words := mem; regioninfo := 0; fl_bitmap := 0; sl_bitmap := ∅; mm_tbl := ∅ |} in
      let '(firstblk, m) := init_mm_region (addr + MM_ALIGN_UP SIZEOF_MM_HEAD) (MM_ALIGN_DOWN (wrap32 (len - SIZEOF_MM_HEAD))) m in
      let m := m <| regioninfo := buffer firstblk |> in
      let nextblk := NEXT_MM_BLK (buffer firstblk) (blksize m firstblk) in
      let m := k_mm_free (buffer nextblk) m in
      (RHINO_SUCCESS, Some (pmmhead, m)).

Definition krhino_deinit_mm_head m : kstat_t * mm_state :=
  (RHINO_SUCCESS, {| words := words m; regioninfo := 0; fl_bitmap := 0; sl_bitmap := ∅; mm_tbl := ∅ |}).

(** The merge loop of [krhino_add_mm_region]: the blocks [ib0], [b0] and [lb0] of the new
    region grow by the regions they touch, which leave the list.  Every iteration goes to
    the next region of the list. *)
Fixpoint merge_regions (fuel : nat) (ptr ptr_prev ib0 b0 lb0 : Z) m : Z * Z * Z * mm_state :=
  match fuel with
  | O => (ib0, b0, lb0, m)
  | S fuel =>
      if ptr =? NULL then (ib0, b0, lb0, m)
      else
        let ib1 := ptr - MMLIST_HEAD_SIZE in
        let b1 := NEXT_MM_BLK (buffer ib1) (blksize m ib1) in
        let lb1 := region_end m ptr in
        let unlink m := if regioninfo m =? ptr then m <| regioninfo := region_next m ptr |>
                        else wr (ptr_prev + 4) (region_next m ptr) m in
        if ib1 =? wrap32 (lb0 + MMLIST_HEAD_SIZE) then
          let next := region_next m ptr in
          let m := unlink m in
          let m := set_b_size b0 (Z.lor (Z.lor (MM_ALIGN_DOWN (wrap32 (blksize m b0 + blksize m ib1 + 2 * MMLIST_HEAD_SIZE)))
                                   RHINO_MM_ALLOCED) RHINO_MM_PREVALLOCED) m in
          let m := set_b_prev b1 b0 m in
          merge_regions fuel next ptr_prev ib0 b0 lb1 m
        else if buffer lb1 =? ib0 then
          let next := region_next m ptr in
          let m := unlink m in
          let m := set_b_size lb1 (Z.lor (Z.lor (MM_ALIGN_DOWN (wrap32 (blksize m b0 + blksize m ib0 + 2 * MMLIST_HEAD_SIZE)))
                                    RHINO_MM_ALLOCED) (Z.land (b_size m lb1) RHINO_MM_PRESTAT_MASK)) m in
          let next_b := NEXT_MM_BLK (buffer lb1) (blksize m lb1) in
          let m := set_b_prev next_b lb1 m in
          merge_regions fuel next ptr_prev ib1 lb1 lb0 m
        else merge_regions fuel (region_next m ptr) ptr ib0 b0 lb0 m
  end.

(** [nregions] bounds the number of regions of the heap. *)
Definition krhino_add_mm_region (nregions : nat) (addr len : Z) m : kstat_t * mm_state :=
  if addr =? NULL then (RHINO_NULL_PTR, m)
  else if negb (Z.land addr MM_ALIGN_MASK =? 0) || negb (len =? MM_ALIGN_DOWN len) then (RHINO_INV_ALIGN, m)
  else if (len =? 0) || (len <? SIZEOF_REGION_INFO + SIZEOF_MM_LIST * 2) then (RHINO_MM_POOL_SIZE_ERR, m)
  else
    let m := Nat.iter (Z.to_nat (len / 4)) (fun '(a, m) => (a + 4, wr a 0 m)) (addr, m) in
    let m := m.2 in
    let ptr := regioninfo m in
    let '(ib0, m) := init_mm_region addr len m in
    let b0 := NEXT_MM_BLK (buffer ib0) (blksize m ib0) in
    let lb0 := NEXT_MM_BLK (buffer b0) (blksize m b0) in
    let '(ib0, b0, lb0, m) := merge_regions (S nregions) ptr 0 ib0 b0 lb0 m in
    let ai := buffer ib0 in
    let m := wr (ai + 4) (regioninfo m) m in
    let m := wr ai lb0 m in
    let m := m <| regioninfo := ai |> in
    (RHINO_SUCCESS, k_mm_free (buffer b0) m).

Record k_mm_region_t := { r_start : Z; r_len : Z }.

(** [g_mm_region] of the board; its first region holds the head. *)
Definition k_mm_init (g_mm_region : list k_mm_region_t) (mem : gmap Z Z) : option mm_state :=
  match g_mm_region with
  | [] => None
  | r :: rs =>
      match krhino_init_mm_head false (r_start r) (r_len r) mem with
      | (_, None) => None
      | (_, Some (_, m)) =>
          Some (fold_left (fun m r => (krhino_add_mm_region (length g_mm_region) (r_start r) (r_len r) m).2) rs m)
      end
  end.

(** ** The wrappers on [g_kmm_head] *)
Definition mm_alloc size m : Z * mm_state := if size =? 0 then (NULL, m) else k_mm_alloc size m.
Definition mm_free (ptr : Z) m : mm_state := k_mm_free ptr m.
Definition mm_realloc (oldmem newsize : Z) m : Z * mm_state := k_mm_realloc oldmem newsize m.

Example alloc_demo :
  match k_mm_init [{| r_start := 1000; r_len := 4000 |}] ∅ with
  | None => False
  | Some m =>
      let '(p, m1) := mm_alloc 100 m in
      let '(q, m2) := mm_alloc 10 m1 in
      let m3 := mm_free p m2 in
      let '(r, m4) := mm_alloc 1 m3 in
      (p, q, r, blksize m4 (p - 8)) = (2752, 2860, 2752, 8)
  end.
Proof. vm_compute. reflexivity. Qed.
