(* ===== verification/MmBits.v ===== *)
(** * Size words, bitmaps and size classes of the allocator

    [enc n f pf] is the [size] word of a block of [n] bytes, free if [f], behind a free
    block if [pf].  [cls n] is the list a free block of [n] bytes belongs to; a request is
    searched from the class of [get_size s], the request rounded up to the next class
    boundary: the blocks found are exactly those of at least [search_size s] bytes
    ([search_class]), the smallest size of that class. *)
From S2P Require Import Prelude Bitmap KTypes Mm.
Local Open Scope Z_scope.

(** ** Two low bits *)
Lemma testbit_4 q r i : 0 <= r < 4 -> 0 <= i -> Z.testbit (4 * q + r) i = if i <? 2 then Z.testbit r i else Z.testbit q (i - 2).
Proof.
  intros Hr Hi. destruct (Z.ltb_spec i 2).
  - rewrite <- (Z.mod_pow2_bits_low (4 * q + r) 2 i) by lia. f_equal. change (2 ^ 2) with 4. rewrite Z.mul_comm, Z.add_comm, Z.mod_add, Z.mod_small by lia. done.
  - replace i with (i - 2 + 2) at 1 by lia. rewrite <- Z.div_pow2_bits by lia. f_equal. change (2 ^ 2) with 4.
    rewrite Z.mul_comm, Z.div_add_l, Z.div_small by lia. lia.
Qed.

Lemma small_bits4 r i : 0 <= r < 4 -> 2 <= i -> Z.testbit r i = false.
Proof. intros Hr Hi. replace r with (4 * 0 + r) by lia. rewrite testbit_4, (proj2 (Z.ltb_ge i 2)) by lia. apply Z.testbit_0_l. Qed.

Lemma land4_range r s : 0 <= r < 4 -> 0 <= s < 4 -> 0 <= Z.land r s < 4.
Proof.
  intros Hr Hs. assert (0 <= Z.land r s) by (apply Z.land_nonneg; lia). split; [done|].
  assert (r = 0 \/ r = 1 \/ r = 2 \/ r = 3) as [-> | [-> | [-> | ->]]] by lia; assert (s = 0 \/ s = 1 \/ s = 2 \/ s = 3) as [-> | [-> | [-> | ->]]] by lia; done.
Qed.

Lemma lor4_range r s : 0 <= r < 4 -> 0 <= s < 4 -> 0 <= Z.lor r s < 4.
Proof.
  intros Hr Hs. assert (r = 0 \/ r = 1 \/ r = 2 \/ r = 3) as [-> | [-> | [-> | ->]]] by lia; assert (s = 0 \/ s = 1 \/ s = 2 \/ s = 3) as [-> | [-> | [-> | ->]]] by lia; done.
Qed.

Lemma land_4 q r p s : 0 <= r < 4 -> 0 <= s < 4 -> Z.land (4 * q + r) (4 * p + s) = 4 * Z.land q p + Z.land r s.
Proof.
  intros Hr Hs. apply Z.bits_inj'. intros i Hi. rewrite Z.land_spec, !testbit_4 by (done || by apply land4_range).
  destruct (i <? 2); by rewrite Z.land_spec.
Qed.

Lemma lor_4 q r p s : 0 <= r < 4 -> 0 <= s < 4 -> Z.lor (4 * q + r) (4 * p + s) = 4 * Z.lor q p + Z.lor r s.
Proof.
  intros Hr Hs. apply Z.bits_inj'. intros i Hi. rewrite Z.lor_spec, !testbit_4 by (done || by apply lor4_range).
  destruct (i <? 2); by rewrite Z.lor_spec.
Qed.

(** ** Size words *)
Definition enc (n : Z) (f pf : bool) : Z := n + Z.b2z f + 2 * Z.b2z pf.

(** A block size: a multiple of four, in 32 bits. *)
Definition bsize (n : Z) : Prop := 0 <= n < 2 ^ 32 /\ n mod 4 = 0.

Lemma bsize_div n : bsize n -> exists q, n = 4 * q /\ 0 <= q < 2 ^ 30.
Proof. intros [Hn Hm]. exists (n / 4). change (2 ^ 32) with (4 * 2 ^ 30) in Hn. Z.to_euclidean_division_equations. lia. Qed.

(** Evaluate a bit operation on constants. *)
Ltac bit_lia :=
  unfold Z.b2z;
  repeat match goal with
  | |- context [Z.lor ?a ?b] => let v := eval vm_compute in (Z.lor a b) in change (Z.lor a b) with v
  | |- context [Z.land ?a ?b] => let v := eval vm_compute in (Z.land a b) in change (Z.land a b) with v
  end; lia.

Section Enc.
Context (n : Z) (f pf : bool) (Hn : bsize n).

Lemma enc_split : exists q r, 0 <= q < 2 ^ 30 /\ 0 <= r < 4 /\ r = Z.b2z f + 2 * Z.b2z pf /\ n = 4 * q /\ enc n f pf = 4 * q + r.
Proof. destruct (bsize_div n Hn) as (q & -> & Hq). exists q, (Z.b2z f + 2 * Z.b2z pf). unfold enc. split_and!; try lia; destruct f, pf; simpl; lia. Qed.

Lemma land_low q r p s : 0 <= q < 2 ^ 30 -> 0 <= r < 4 -> 0 <= s < 4 -> p = 2 ^ 30 - 1 -> Z.land (4 * q + r) (4 * p + s) = 4 * q + Z.land r s.
Proof.
  intros Hq Hr Hs ->. rewrite land_4 by done. change (2 ^ 30 - 1) with (Z.ones 30). rewrite Z.land_ones, Z.mod_small by lia. done.
Qed.

Lemma enc_size : Z.land (enc n f pf) RHINO_MM_BLKSIZE_MASK = n.
Proof.
  destruct enc_split as (q & r & Hq & Hr & _ & -> & ->). change RHINO_MM_BLKSIZE_MASK with (4 * (2 ^ 30 - 1) + 0).
  rewrite land_low by done. rewrite Z.land_0_r. lia.
Qed.

Lemma enc_free : Z.land (enc n f pf) RHINO_MM_FREE = Z.b2z f.
Proof.
  destruct enc_split as (q & r & Hq & Hr & Er & -> & ->). change RHINO_MM_FREE with (4 * 0 + 1). rewrite land_4, Z.land_0_r by lia. subst r. destruct f, pf; bit_lia.
Qed.

Lemma enc_prev : Z.land (enc n f pf) RHINO_MM_PREVFREE = 2 * Z.b2z pf.
Proof.
  destruct enc_split as (q & r & Hq & Hr & Er & -> & ->). change RHINO_MM_PREVFREE with (4 * 0 + 2). rewrite land_4, Z.land_0_r by lia. subst r. destruct f, pf; bit_lia.
Qed.

Lemma enc_set_free : Z.lor (enc n f pf) RHINO_MM_FREE = enc n true pf.
Proof.
  destruct enc_split as (q & r & Hq & Hr & Er & En & ->). change RHINO_MM_FREE with (4 * 0 + 1). rewrite lor_4, Z.lor_0_r by lia. subst r. unfold enc. rewrite En.
  destruct f, pf; bit_lia.
Qed.

Lemma enc_set_prev : Z.lor (enc n f pf) RHINO_MM_PREVFREE = enc n f true.
Proof.
  destruct enc_split as (q & r & Hq & Hr & Er & En & ->). change RHINO_MM_PREVFREE with (4 * 0 + 2). rewrite lor_4, Z.lor_0_r by lia. subst r. unfold enc. rewrite En.
  destruct f, pf; bit_lia.
Qed.

Lemma enc_clear_free : Z.land (enc n f pf) (wrap32 (Z.lnot RHINO_MM_FREE)) = enc n false pf.
Proof.
  destruct enc_split as (q & r & Hq & Hr & Er & En & ->). change (wrap32 (Z.lnot RHINO_MM_FREE)) with (4 * (2 ^ 30 - 1) + 2).
  rewrite land_low by done. subst r. unfold enc. rewrite En. destruct f, pf; bit_lia.
Qed.

Lemma enc_clear_prev : Z.land (enc n f pf) (wrap32 (Z.lnot RHINO_MM_PREVFREE)) = enc n f false.
Proof.
  destruct enc_split as (q & r & Hq & Hr & Er & En & ->). change (wrap32 (Z.lnot RHINO_MM_PREVFREE)) with (4 * (2 ^ 30 - 1) + 1).
  rewrite land_low by done. subst r. unfold enc. rewrite En. destruct f, pf; bit_lia.
Qed.

(** [new | (old & RHINO_MM_PRESTAT_MASK)]. *)
Lemma enc_resize k : bsize k -> Z.lor k (Z.land (enc n f pf) RHINO_MM_PRESTAT_MASK) = enc k false pf.
Proof.
  intros Hk. change RHINO_MM_PRESTAT_MASK with RHINO_MM_PREVFREE. rewrite enc_prev. destruct (bsize_div k Hk) as (q & -> & Hq).
  replace (4 * q) with (4 * q + 0) at 1 by lia. replace (2 * Z.b2z pf) with (4 * 0 + 2 * Z.b2z pf) by lia.
  rewrite lor_4, Z.lor_0_r by (destruct pf; simpl; lia). unfold enc. destruct pf; bit_lia.
Qed.
End Enc.

Lemma enc_new k : bsize k -> Z.lor (Z.lor k RHINO_MM_FREE) RHINO_MM_PREVALLOCED = enc k true false.
Proof.
  intros Hk. rewrite Z.lor_0_r. rewrite <- (enc_set_free k false false Hk). f_equal. unfold enc, Z.b2z. lia.
Qed.

Lemma align_up_spec a : 0 <= a <= 2 ^ 32 - 4 -> MM_ALIGN_UP a = 4 * ((a + 3) / 4).
Proof.
  intros Ha. unfold MM_ALIGN_UP. rewrite wrap32_small by (unfold u32, MM_ALIGN_MASK; lia). unfold MM_ALIGN_MASK.
  set (q := (a + 3) / 4). assert (a + 3 = 4 * q + (a + 3) mod 4) as -> by (unfold q; Z.to_euclidean_division_equations; lia).
  change (wrap32 (Z.lnot 3)) with (4 * (2 ^ 30 - 1) + 0).
  assert (0 <= q < 2 ^ 30) by (unfold q; change (2 ^ 32) with (4 * 2 ^ 30) in *; Z.to_euclidean_division_equations; lia).
  rewrite land_low by (done || apply Z.mod_pos_bound; lia). rewrite Z.land_0_r. lia.
Qed.

Lemma align_down_spec a : 0 <= a < 2 ^ 32 -> MM_ALIGN_DOWN a = 4 * (a / 4).
Proof.
  intros Ha. unfold MM_ALIGN_DOWN. set (q := a / 4). assert (a = 4 * q + a mod 4) as -> by (unfold q; Z.to_euclidean_division_equations; lia).
  change (wrap32 (Z.lnot MM_ALIGN_MASK)) with (4 * (2 ^ 30 - 1) + 0).
  assert (0 <= q < 2 ^ 30) by (unfold q; change (2 ^ 32) with (4 * 2 ^ 30) in *; Z.to_euclidean_division_equations; lia).
  rewrite land_low by (done || apply Z.mod_pos_bound; lia). rewrite Z.land_0_r. lia.
Qed.

(** ** Bitmap words *)
Lemma first_bit_spec w : 0 < w < 2 ^ 32 -> first_bit w = 31 - Z.log2 w.
Proof.
  intros Hw. unfold first_bit, krhino_find_first_bit; cbn [find_first_bit_from]. rewrite (proj2 (Z.eqb_neq w 0)) by lia. cbn [default].
  rewrite first_bit_in_word_spec by done. unfold id. lia.
Qed.

Lemma word_set_spec w i j : u32 w -> 0 <= i < 32 -> 0 <= j < 32 ->
  u32 (word_set w (31 - i)) /\ Z.testbit (word_set w (31 - i)) j = (if decide (j = i) then true else Z.testbit w j).
Proof.
  intros Hw Hi Hj. pose proof (bitmap_test_set [w] (31 - i) (31 - j) ltac:(simpl; lia) ltac:(lia)) as Ht.
  assert (bitmap_wf [w]) as Hwf by (by constructor). apply (bitmap_wf_set _ (31 - i)) in Hwf.
  unfold word_set. pose proof (length_bitmap_set [w] (31 - i)) as Hl.
  destruct (krhino_bitmap_set [w] (31 - i)) as [|w' [|]]; try done. cbn [hd]. apply Forall_cons in Hwf as [Hw' _]. split; [done|].
  rewrite !bitmap_test_cons_lo in Ht by lia. replace (31 - (31 - j)) with j in Ht by lia. rewrite Ht.
  destruct (decide (j = i)) as [->|]; [by rewrite bool_decide_true by lia|by rewrite bool_decide_false by lia].
Qed.

Lemma word_clear_spec w i j : u32 w -> 0 <= i < 32 -> 0 <= j < 32 ->
  u32 (word_clear w (31 - i)) /\ Z.testbit (word_clear w (31 - i)) j = (if decide (j = i) then false else Z.testbit w j).
Proof.
  intros Hw Hi Hj. assert (bitmap_wf [w]) as Hwf by (by constructor).
  pose proof (bitmap_test_clear [w] (31 - i) (31 - j) Hwf ltac:(lia) ltac:(lia)) as Ht.
  apply (bitmap_wf_clear _ (31 - i)) in Hwf.
  unfold word_clear. pose proof (length_bitmap_clear [w] (31 - i)) as Hl.
  destruct (krhino_bitmap_clear [w] (31 - i)) as [|w' [|]]; try done. cbn [hd]. apply Forall_cons in Hwf as [Hw' _]. split; [done|].
  rewrite !bitmap_test_cons_lo in Ht by lia. replace (31 - (31 - j)) with j in Ht by lia. rewrite Ht.
  destruct (decide (j = i)) as [->|]; [by rewrite bool_decide_true by lia|by rewrite bool_decide_false by lia].
Qed.

(** A word without a bit set is zero. *)
Lemma word_zero w : u32 w -> (forall i, 0 <= i < 32 -> Z.testbit w i = false) -> w = 0.
Proof.
  intros Hw H. destruct (decide (w = 0)) as [|Hne]; [done|]. unfold u32 in Hw.
  assert (Z.log2 w < 32) by (apply Z.log2_lt_pow2; lia). pose proof (Z.log2_nonneg w).
  pose proof (H (Z.log2 w) ltac:(lia)) as Hb. rewrite Z.bit_log2 in Hb by lia. done.
Qed.

(** The lowest set bit. *)
Lemma lowest_bit w : 0 < w -> exists i k, 0 <= i /\ w = 2 ^ i * (2 * k + 1) /\ 0 <= k.
Proof.
  intros Hw. assert (0 <= w) as H0 by lia. revert Hw. pattern w. apply (Zlt_0_ind); [|done]. clear. intros w IH _ Hw.
  destruct (decide (w mod 2 = 1)) as [Ho|He].
  - exists 0, (w / 2). rewrite Z.pow_0_r. Z.to_euclidean_division_equations. lia.
  - assert (w = 2 * (w / 2)) as E by (Z.to_euclidean_division_equations; lia).
    destruct (IH (w / 2)) as (i & k & Hi & Ek & Hk); [lia..|]. exists (i + 1), k. split_and!; [lia| |done].
    rewrite Z.pow_add_r by lia. change (2 ^ 1) with 2. rewrite E at 1. rewrite Ek. lia.
Qed.

Lemma isolate_low i k : 0 <= i -> 0 <= k -> 2 ^ i * (2 * k + 1) < 2 ^ 32 ->
  Z.land (2 ^ i * (2 * k + 1)) (wrap32 (- (2 ^ i * (2 * k + 1)))) = 2 ^ i.
Proof.
  intros Hi Hk Hb. pose proof (Z.pow_pos_nonneg 2 i ltac:(lia) Hi) as Hp. set (w := 2 ^ i * (2 * k + 1)) in *.
  assert (0 < w) by (unfold w; nia).
  assert (i < 32) as Hi32. { destruct (Z.lt_ge_cases i 32); [done|]. pose proof (Z.pow_le_mono_r 2 32 i). unfold w in *. nia. }
  replace (- w) with (Z.lnot (w - 1)) by (unfold Z.lnot; lia). unfold wrap32. rewrite <- Z.land_ones by lia.
  apply Z.bits_inj'. intros j Hj. rewrite !Z.land_spec, Z.lnot_spec, Z.pow2_bits_eqb by lia.
  assert (Z.testbit w j = if j <? i then false else if j =? i then true else Z.testbit k (j - i - 1)) as Ew.
  { unfold w. rewrite Z.mul_comm. destruct (Z.ltb_spec j i); [by rewrite Z.mul_pow2_bits_low by lia|].
    rewrite Z.mul_pow2_bits by lia. destruct (Z.eqb_spec j i) as [->|].
    - rewrite Z.sub_diag. by rewrite Z.testbit_odd_0.
    - rewrite <- (Z.testbit_odd_succ k) by lia. f_equal. lia. }
  assert (i <= j -> Z.testbit (w - 1) j = if j =? i then false else Z.testbit k (j - i - 1)) as Ew1.
  { intros Hij. replace j with (j - i + i) at 1 by lia. rewrite <- Z.div_pow2_bits by lia.
    assert ((w - 1) / 2 ^ i = 2 * k) as ->.
    { unfold w. replace (2 ^ i * (2 * k + 1) - 1) with (2 * k * 2 ^ i + (2 ^ i - 1)) by lia. rewrite Z.div_add_l, Z.div_small by lia. lia. }
    destruct (Z.eqb_spec j i) as [->|].
    - rewrite Z.sub_diag. by rewrite Z.testbit_even_0.
    - rewrite <- (Z.testbit_even_succ k) by lia. f_equal. lia. }
  rewrite Ew. destruct (Z.ltb_spec j i).
  - rewrite (proj2 (Z.eqb_neq i j)) by lia. done.
  - rewrite Ew1 by done. rewrite (Z.eqb_sym i j). destruct (Z.eqb_spec j i) as [->|].
    + rewrite Z.ones_spec_low by lia. done.
    + by destruct (Z.testbit k _).
Qed.

Lemma find_last_bit_spec w : u32 w -> w <> 0 ->
  0 <= find_last_bit w < 32 /\ Z.testbit w (find_last_bit w) = true /\ forall j, 0 <= j < find_last_bit w -> Z.testbit w j = false.
Proof.
  intros [Hw0 Hw] Hne. unfold find_last_bit. rewrite (proj2 (Z.eqb_neq w 0)) by done. cbv zeta.
  destruct (lowest_bit w ltac:(lia)) as (i & k & Hi & -> & Hk). rewrite isolate_low by done.
  pose proof (Z.pow_pos_nonneg 2 i ltac:(lia) Hi).
  assert (2 ^ i < 2 ^ 32) as Hp by nia. assert (i < 32) by (apply Z.pow_lt_mono_r_iff in Hp; lia).
  rewrite first_bit_spec, Z.log2_pow2 by lia. replace (31 - (31 - i)) with i by lia. rewrite Z.mul_comm. split_and!; try lia.
  - rewrite Z.mul_pow2_bits, Z.sub_diag by lia. by rewrite Z.testbit_odd_0.
  - intros j Hj. by rewrite Z.mul_pow2_bits_low by lia.
Qed.

(** The bits from [i] on. *)
Lemma mask_from w i j : u32 w -> 0 <= i <= 32 -> 0 <= j < 32 ->
  Z.testbit (Z.land w (wrap32 (Z.shiftl (-1) i))) j = if j <? i then false else Z.testbit w j.
Proof.
  intros Hw Hi Hj. unfold wrap32. rewrite Z.land_spec, <- Z.land_ones, Z.land_spec, Z.ones_spec_low, andb_true_r by lia.
  rewrite Z.shiftl_spec by lia. destruct (Z.ltb_spec j i).
  - rewrite (Z.testbit_neg_r (-1)) by lia. by rewrite andb_false_r.
  - rewrite Z.bits_m1 by lia. by rewrite andb_true_r.
Qed.

Lemma mask_u32 w v : u32 w -> u32 (Z.land w (wrap32 v)).
Proof.
  intros [Hw0 Hw]. pose proof (wrap32_range v) as [Hv0 Hv]. assert (0 <= Z.land w (wrap32 v)) by (apply Z.land_nonneg; lia). split; [done|].
  destruct (decide (Z.land w (wrap32 v) = 0)) as [->|]; [lia|]. apply Z.log2_lt_pow2; [lia|].
  eapply Z.le_lt_trans; [apply Z.log2_land; lia|]. apply Z.min_lt_iff. left.
  destruct (decide (w = 0)) as [->|]; [simpl; lia|]. apply Z.log2_lt_pow2; lia.
Qed.

(** ** Size classes *)
Definition cls (n : Z) : Z * Z :=
  if n <? 128 then (0, n / 4) else (Z.log2 n - 6, (n - 2 ^ Z.log2 n) / 2 ^ (Z.log2 n - 5)).

(** Classes are ordered: all of one row, then the next row. *)
Definition ckey (c : Z * Z) : Z := 32 * c.1 + c.2.

(** The size a request is rounded up to before the search. *)
Definition get_size (s : Z) : Z := if s <? 128 then s else s + 2 ^ (Z.log2 s - 5) - 1.

Definition idx (fl sl : Z) : Prop := 0 <= fl < FLT_SIZE /\ 0 <= sl < SLT_SIZE.

(** The sizes of blocks. *)
Definition blk_size_ok (n : Z) : Prop := 8 <= n < 2 ^ 19 /\ n mod 4 = 0.

Lemma log2_ge7 n : 128 <= n -> 7 <= Z.log2 n.
Proof. intros H. apply Z.log2_le_pow2; [lia|]. change (2 ^ 7) with 128. lia. Qed.

Lemma log2_bounds n : 0 < n -> 2 ^ Z.log2 n <= n < 2 * 2 ^ Z.log2 n.
Proof. intros H. pose proof (Z.log2_spec n H) as [H1 H2]. rewrite Z.pow_succ_r in H2 by apply Z.log2_nonneg. lia. Qed.

Lemma pow_split f : 5 <= f -> 2 ^ f = 32 * 2 ^ (f - 5) /\ 0 < 2 ^ (f - 5).
Proof. intros H. split; [|apply Z.pow_pos_nonneg; lia]. change 32 with (2 ^ 5). rewrite <- Z.pow_add_r by lia. f_equal. lia. Qed.

Lemma cls_range n : 0 <= n < 2 ^ 19 -> idx (cls n).1 (cls n).2.
Proof.
  intros Hn. unfold cls, idx, FLT_SIZE, SLT_SIZE, MAX_MM_BIT, RHINO_CONFIG_MM_MAXMSIZEBIT, MIN_FLT_BIT, MAX_LOG2_SLT.
  change (Z.shiftl 1 5) with 32. destruct (Z.ltb_spec n 128); cbn [fst snd].
  - split; [lia|]. Z.to_euclidean_division_equations. lia.
  - pose proof (log2_ge7 n ltac:(lia)). pose proof (log2_bounds n ltac:(lia)) as [L U]. destruct (pow_split (Z.log2 n)) as [E P]; [lia|].
    assert (Z.log2 n < 19) by (apply Z.log2_lt_pow2; lia). split; [lia|]. split; [apply Z.div_pos; lia|apply Z.div_lt_upper_bound; lia].
Qed.

Lemma search_row t f : 0 < t < 2 ^ 32 -> f = Z.log2 t -> 7 <= f ->
  wrap32 (f - MIN_FLT_BIT + 1) = f - 6 /\ Z.shiftr (wrap32 (t - Z.shiftl 1 f)) (f - MAX_LOG2_SLT) = (t - 2 ^ f) / 2 ^ (f - 5).
Proof.
  intros Ht -> Hf. pose proof (log2_bounds t ltac:(lia)). assert (Z.log2 t < 32) by (apply Z.log2_lt_pow2; lia).
  unfold MIN_FLT_BIT, MAX_LOG2_SLT. split; [rewrite wrap32_small by (unfold u32; lia); lia|].
  rewrite Z.shiftl_1_l, wrap32_small by (unfold u32; lia). apply Z.shiftr_div_pow2. lia.
Qed.

Lemma bitmap_search_insert n : 0 <= n < 2 ^ 19 -> bitmap_search n ACTION_INSERT = (RHINO_SUCCESS, (cls n).1, (cls n).2).
Proof.
  intros Hn. pose proof (cls_range n Hn) as [H1 H2]. unfold bitmap_search. change MIN_FLT_SIZE with 128.
  assert ((if n <? 128 then (0, Z.shiftr n (MIN_FLT_BIT - MAX_LOG2_SLT))
    else (wrap32 (31 - first_bit n - MIN_FLT_BIT + 1), Z.shiftr (wrap32 (n - Z.shiftl 1 (31 - first_bit n))) (31 - first_bit n - MAX_LOG2_SLT))) = cls n) as E.
  { unfold cls. destruct (Z.ltb_spec n 128).
    - change (MIN_FLT_BIT - MAX_LOG2_SLT) with 2. by rewrite Z.shiftr_div_pow2.
    - rewrite first_bit_spec by lia. replace (31 - (31 - Z.log2 n)) with (Z.log2 n) by lia. pose proof (log2_ge7 n ltac:(lia)).
      by destruct (search_row n (Z.log2 n)) as [-> ->]; [lia..|]. }
  cbv zeta. rewrite E. destruct (cls n) as [fl sl]; cbn [fst snd] in *.
  by rewrite (proj2 (Z.leb_gt _ _) (proj2 H1)), (proj2 (Z.leb_gt _ _) (proj2 H2)).
Qed.

Lemma get_size_ge s : 0 <= s -> s <= get_size s.
Proof. intros H. unfold get_size. destruct (Z.ltb_spec s 128); [lia|]. pose proof (log2_ge7 s ltac:(lia)). destruct (pow_split (Z.log2 s)); lia. Qed.

Lemma bitmap_search_get s : 0 <= s <= 2 ^ 31 ->
  let '(stat, fl, sl) := bitmap_search s ACTION_GET in
  if get_size s <? 2 ^ 19 then stat = RHINO_SUCCESS /\ (fl, sl) = cls (get_size s) else stat <> RHINO_SUCCESS.
Proof.
  intros Hs. unfold bitmap_search. change MIN_FLT_SIZE with 128. unfold get_size.
  destruct (Z.ltb_spec s 128) as [Hl|Hl].
  - pose proof (cls_range s ltac:(lia)) as [H1 H2]. rewrite (proj2 (Z.ltb_lt s (2 ^ 19))) by lia.
    assert (cls s = (0, Z.shiftr s (MIN_FLT_BIT - MAX_LOG2_SLT))) as E.
    { unfold cls. rewrite (proj2 (Z.ltb_lt s 128)) by done. change (MIN_FLT_BIT - MAX_LOG2_SLT) with 2. by rewrite Z.shiftr_div_pow2. }
    rewrite E in *. cbn [fst snd] in *. by rewrite (proj2 (Z.leb_gt _ _) (proj2 H1)), (proj2 (Z.leb_gt _ _) (proj2 H2)).
  - cbv zeta. rewrite (first_bit_spec s) by lia. replace (31 - (31 - Z.log2 s)) with (Z.log2 s) by lia. unfold MAX_LOG2_SLT.
    rewrite Z.shiftl_1_l. pose proof (log2_ge7 s ltac:(lia)). pose proof (log2_bounds s ltac:(lia)). destruct (pow_split (Z.log2 s)) as [E P]; [lia|].
    set (t := s + 2 ^ (Z.log2 s - 5) - 1). replace (s + (2 ^ (Z.log2 s - 5) - 1)) with t by (unfold t; lia).
    assert (s <= t < 2 ^ 32) as Ht by (unfold t; lia). rewrite !(wrap32_small t) by (unfold u32; lia). rewrite (first_bit_spec t) by lia.
    replace (31 - (31 - Z.log2 t)) with (Z.log2 t) by lia. pose proof (log2_ge7 t ltac:(lia)).
    destruct (search_row t (Z.log2 t)) as [R1 R2]; [lia|done|lia|]. unfold MAX_LOG2_SLT in R2. rewrite R1, R2.
    destruct (Z.ltb_spec t (2 ^ 19)) as [Hb|Hb].
    + pose proof (cls_range t ltac:(lia)) as [I1 I2]. unfold cls in *. rewrite (proj2 (Z.ltb_ge t 128)) in * by lia. cbn [fst snd] in *.
      by rewrite (proj2 (Z.leb_gt _ _) (proj2 I1)), (proj2 (Z.leb_gt _ _) (proj2 I2)).
    + assert (19 <= Z.log2 t) by (apply Z.log2_le_pow2; lia). change FLT_SIZE with 13. rewrite (proj2 (Z.leb_le 13 (Z.log2 t - 6))) by lia. done.
Qed.

(** The row of a size and the bounds of its class. *)
Lemma cls_bounds n : 0 <= n ->
  let g := if n <? 128 then 4 else 2 ^ (Z.log2 n - 5) in
  let lo := if n <? 128 then 0 else 2 ^ Z.log2 n in
  0 < g /\ lo + (cls n).2 * g <= n < lo + ((cls n).2 + 1) * g /\ 0 <= (cls n).2.
Proof.
  intros Hn. unfold cls. destruct (Z.ltb_spec n 128); cbn [fst snd].
  - Z.to_euclidean_division_equations. lia.
  - pose proof (log2_ge7 n ltac:(lia)). pose proof (log2_bounds n ltac:(lia)). destruct (pow_split (Z.log2 n)) as [E P]; [lia|].
    pose proof (Z.div_mod (n - 2 ^ Z.log2 n) (2 ^ (Z.log2 n - 5)) ltac:(lia)). pose proof (Z.mod_pos_bound (n - 2 ^ Z.log2 n) (2 ^ (Z.log2 n - 5)) P).
    split_and!; [done|lia|lia|apply Z.div_pos; lia].
Qed.

Lemma cls_mono a b : 0 <= a <= b -> b < 2 ^ 19 -> ckey (cls a) <= ckey (cls b).
Proof.
  intros Hab Hb. pose proof (cls_range a ltac:(lia)) as [A1 A2]. pose proof (cls_range b ltac:(lia)) as [B1 B2].
  change SLT_SIZE with 32 in *. unfold ckey. destruct (Z.lt_trichotomy (cls a).1 (cls b).1) as [H|[H|H]]; [lia| |].
  - pose proof (cls_bounds a ltac:(lia)) as Ca. pose proof (cls_bounds b ltac:(lia)) as Cb. pose proof H as H'. unfold cls in H.
    assert ((a <? 128) = (b <? 128) /\ (128 <= a -> Z.log2 a = Z.log2 b)) as [E EL].
    { destruct (Z.ltb_spec a 128), (Z.ltb_spec b 128); cbn [fst] in H;
        [split; [done|lia]|pose proof (log2_ge7 b ltac:(lia)); lia|lia|split; [done|lia]]. }
    rewrite <- E in Cb. assert ((cls a).2 <= (cls b).2); [|lia]. destruct (Z_lt_le_dec a 128) as [Ha|Ha].
    + rewrite (proj2 (Z.ltb_lt a 128) Ha) in Ca, Cb. cbv zeta in *. lia.
    + rewrite (proj2 (Z.ltb_ge a 128) Ha) in Ca, Cb. rewrite <- (EL Ha) in Cb. cbv zeta in *. nia.
  - exfalso. unfold cls in H. destruct (Z.ltb_spec a 128), (Z.ltb_spec b 128); cbn [fst] in H; try lia.
    + pose proof (log2_ge7 b ltac:(lia)). lia.
    + pose proof (Z.log2_le_mono a b ltac:(lia)). lia.
Qed.

(** The smallest block of the class a request is searched from. *)
Definition search_size (s : Z) : Z :=
  if s <? 128 then s else 2 ^ (Z.log2 s - 5) * ((s + 2 ^ (Z.log2 s - 5) - 1) / 2 ^ (Z.log2 s - 5)).

(** A size of [2 ^ f * 32 <= g * q < 2 ^ f * 64] in units of [g = 2 ^ (f - 5)]. *)
Lemma cls_row f q u : 7 <= f -> 32 <= q < 64 -> 0 <= u < 2 ^ (f - 5) -> cls (2 ^ (f - 5) * q + u) = (f - 6, q - 32).
Proof.
  intros Hf Hq Hu. destruct (pow_split f) as [E P]; [lia|]. set (g := 2 ^ (f - 5)) in *.
  assert (4 <= g) by (unfold g; change 4 with (2 ^ 2); apply Z.pow_le_mono_r; lia).
  assert (Z.log2 (g * q + u) = f) as El by (apply Z.log2_unique; [lia|]; rewrite Z.pow_succ_r by lia; nia).
  unfold cls. rewrite (proj2 (Z.ltb_ge (g * q + u) 128)), El by nia. fold g. f_equal. rewrite E.
  replace (g * q + u - 32 * g) with ((q - 32) * g + u) by lia. rewrite Z.div_add_l, Z.div_small by lia. lia.
Qed.

Lemma search_size_spec s : 0 <= s -> s mod 4 = 0 ->
  s <= search_size s <= get_size s /\ cls (search_size s) = cls (get_size s) /\
  forall n, 0 <= n -> cls n = cls (search_size s) -> search_size s <= n.
Proof.
  intros Hs H4. unfold search_size, get_size. destruct (Z.ltb_spec s 128) as [Hl|Hl].
  - split_and!; [lia|lia|done|]. intros n Hn E. unfold cls in E. rewrite (proj2 (Z.ltb_lt s 128)) in E by done.
    destruct (Z.ltb_spec n 128); [injection E; intros; Z.to_euclidean_division_equations; lia|lia].
  - pose proof (log2_ge7 s ltac:(lia)) as H7. pose proof (log2_bounds s ltac:(lia)) as Hb. destruct (pow_split (Z.log2 s)) as [E P]; [lia|]. set (f := Z.log2 s) in *. set (g := 2 ^ (f - 5)) in *.
    set (q := (s + g - 1) / g). pose proof (Z.div_mod (s + g - 1) g ltac:(lia)) as Hq. fold q in Hq. pose proof (Z.mod_pos_bound (s + g - 1) g P) as Hm. set (u := (s + g - 1) mod g) in *.
    assert (32 <= q <= 64) as Hq2 by nia. split; [lia|]. replace (s + g - 1) with (g * q + u) by lia.
    assert (forall n, 0 <= n -> cls n = cls (g * q) -> g * q <= n) as Hlow.
    { intros n Hn En. pose proof (cls_bounds n Hn) as Cn. cbv zeta in Cn. pose proof Cn as [Cn1 [[Cn2 _] _]]. rewrite En in Cn2. unfold cls in En.
      destruct (decide (q = 64)) as [->|Hne].
      - assert (cls (g * 64) = (f - 5, 0)) as Ec.
        { replace (g * 64) with (2 ^ (f + 1 - 5) * 32 + 0) by (replace (f + 1 - 5) with (Z.succ (f - 5)) by lia; rewrite Z.pow_succ_r by lia; fold g; lia).
          rewrite cls_row; [f_equal; lia|lia|lia|split; [lia|apply Z.pow_pos_nonneg; lia]]. }
        fold (cls (g * 64)) in En. rewrite Ec in En, Cn2. destruct (Z.ltb_spec n 128); [injection En; lia|]. injection En as En _. replace (Z.log2 n) with (f + 1) in * by lia.
        rewrite Z.pow_add_r in Cn2 by lia. change (2 ^ 1) with 2 in Cn2. rewrite E in Cn2. cbn [snd] in Cn2. lia.
      - assert (cls (g * q) = (f - 6, q - 32)) as Ec by (replace (g * q) with (g * q + 0) by lia; apply cls_row; lia).
        fold (cls (g * q)) in En. rewrite Ec in En, Cn2. destruct (Z.ltb_spec n 128); [injection En; lia|]. injection En as En _. replace (Z.log2 n) with f in * by lia.
        fold g in Cn2. rewrite E in Cn2. cbn [snd] in Cn2. nia. }
    split; [|done]. destruct (decide (q = 64)) as [->|Hne].
    + assert (2 * g = 2 ^ (f + 1 - 5)) as E2 by (replace (f + 1 - 5) with (Z.succ (f - 5)) by lia; rewrite Z.pow_succ_r by lia; done).
      replace (g * 64) with (2 ^ (f + 1 - 5) * 32 + 0) by lia. rewrite cls_row by lia. replace (2 ^ (f + 1 - 5) * 32 + 0 + u) with (2 ^ (f + 1 - 5) * 32 + u) by lia. by rewrite cls_row by lia.
    + replace (g * q) with (g * q + 0) at 1 by lia. unfold g. rewrite !cls_row by (done || lia). done.
Qed.

(** The blocks that a search finds. *)
Lemma search_class s n : 0 <= s -> s mod 4 = 0 -> get_size s < 2 ^ 19 -> 0 <= n < 2 ^ 19 -> ckey (cls (get_size s)) <= ckey (cls n) <-> search_size s <= n.
Proof.
  intros Hs H4 Hg Hn. destruct (search_size_spec s Hs H4) as ([H1 H2] & Ec & Hlow). rewrite <- Ec. split; intros H.
  - destruct (Z.le_gt_cases (search_size s) n) as [|Hlt]; [done|]. pose proof (cls_mono n (search_size s) ltac:(lia) ltac:(lia)) as Hm.
    apply Hlow; [lia|]. pose proof (cls_range n ltac:(lia)) as [A1 A2]. pose proof (cls_range (search_size s) ltac:(lia)) as [B1 B2]. change SLT_SIZE with 32 in *. unfold ckey in *.
    rewrite (surjective_pairing (cls n)), (surjective_pairing (cls (search_size s))). f_equal; lia.
  - apply cls_mono; lia.
Qed.

Lemma search_size_big s : 0 <= s -> s mod 4 = 0 -> 2 ^ 19 <= get_size s -> 2 ^ 19 <= search_size s.
Proof.
  intros Hs H4 Hg. destruct (search_size_spec s Hs H4) as ([H1 H2] & _). destruct (Z.le_gt_cases (2 ^ 19) s) as [|Hlt]; [lia|].
  unfold search_size, get_size in *. destruct (Z.ltb_spec s 128) as [Hl|Hl]; [lia|]. pose proof (log2_ge7 s ltac:(lia)) as H7.
  assert (Z.log2 s < 19) by (apply Z.log2_lt_pow2; lia). set (g := 2 ^ (Z.log2 s - 5)) in *. assert (0 < g) as P by (apply Z.pow_pos_nonneg; lia).
  assert (2 ^ 19 = g * 2 ^ (24 - Z.log2 s)) as E by (unfold g; rewrite <- Z.pow_add_r by lia; f_equal; lia). rewrite E in *.
  apply Z.mul_le_mono_nonneg_l; [lia|]. apply Z.div_le_lower_bound; lia.
Qed.
