(* ===== verification/MmList.v ===== *)
(** * The free lists of the allocator

    [flists m F L]: the lists [L fl sl], doubly linked through the buffers of the blocks,
    hold exactly the blocks of [F] (addresses with sizes), each in the list of its class,
    and the bitmaps tell which lists are not empty.  Linking and unlinking a block insert
    it into and delete it from [F], and only write the link words of blocks of [F]. *)
From S2P Require Import Prelude Bitmap KTypes Mm MmBits.
Local Open Scope Z_scope.

Implicit Types (m : mm_state) (a b x y n fl sl : Z) (F : gmap Z Z) (l : list Z) (L : Z -> Z -> list Z).

(** ** Memory *)
Lemma rd_wr a v m a' : rd (wr a v m) a' = if decide (a' = a) then v else rd m a'.
Proof. unfold rd, wr; rsimpl. case_decide as E; [by subst; rewrite lookup_insert_eq|by rewrite lookup_insert_ne]. Qed.

Lemma rd_wr_ne a v m a' : a' <> a -> rd (wr a v m) a' = rd m a'.
Proof. intros H. by rewrite rd_wr, decide_False. Qed.

Lemma rd_wr_eq a v m : rd (wr a v m) a = v.
Proof. by rewrite rd_wr, decide_True. Qed.

Lemma tbl_of_insert m fl sl b fl' sl' :
  tbl_of (m <| mm_tbl ::= <[(fl, sl) := b]> |>) fl' sl' = if decide ((fl', sl') = (fl, sl)) then b else tbl_of m fl' sl'.
Proof. unfold tbl_of; rsimpl. case_decide as E; [by rewrite E, lookup_insert_eq|by rewrite lookup_insert_ne]. Qed.

Lemma sl_of_insert m fl w fl' : sl_of (m <| sl_bitmap ::= <[fl := w]> |>) fl' = if decide (fl' = fl) then w else sl_of m fl'.
Proof. unfold sl_of; rsimpl. case_decide as E; [by rewrite E, lookup_insert_eq|by rewrite lookup_insert_ne]. Qed.

(** ** Doubly linked lists *)

(** The list [l] from [h] on, behind [p], up to the pointer [t]. *)
Fixpoint fseg (r : Z -> Z) (p h : Z) l (t : Z) : Prop :=
  match l with
  | [] => h = t
  | x :: l => h = x /\ x <> NULL /\ r (x + 8) = p /\ fseg r x (r (x + 12)) l t
  end.

Definition dll (r : Z -> Z) (h : Z) l : Prop := fseg r NULL h l NULL.

Lemma fseg_ext r r' p h l t :
  (forall x, x ∈ l -> r' (x + 8) = r (x + 8) /\ r' (x + 12) = r (x + 12)) -> fseg r p h l t -> fseg r' p h l t.
Proof.
  revert p h. induction l as [|x l IH]; intros p h H; cbn [fseg]; [done|]. intros (-> & Hx & Hp & Hd).
  destruct (H x) as [-> ->]; [by left|]. split_and!; try done. apply IH; [|done]. intros y Hy. apply H. by right.
Qed.

Lemma fseg_app r p h l1 l2 t : fseg r p h (l1 ++ l2) t <-> exists k, fseg r p h l1 k /\ fseg r (List.last l1 p) k l2 t.
Proof.
  revert p h. induction l1 as [|x l1 IH]; intros p h; cbn [app fseg].
  - cbn [List.last]. split; [intros H; by exists h|by intros (k & <- & H)].
  - rewrite IH. assert (List.last (x :: l1) p = List.last l1 x) as -> by (by destruct l1 using rev_ind; rewrite ?app_comm_cons, ?List.last_last).
    naive_solver.
Qed.

Lemma fseg_not_null r p h l t : fseg r p h l t -> NULL ∉ l.
Proof.
  revert p h. induction l as [|x l IH]; intros p h; cbn [fseg]; [set_solver|]. intros (_ & Hx & _ & Hd).
  apply not_elem_of_cons. split; [done|by eapply IH].
Qed.

(** Blocks are at least [16] bytes apart. *)
Definition apart x y : Prop := x + 16 <= y \/ y + 16 <= x.

(** The memory after the two link updates of an unlink. *)
Definition unlinked (r : Z -> Z) x : Z -> Z := fun a =>
  let prev := r (x + 8) in let next := r (x + 12) in
  if negb (prev =? NULL) && (a =? prev + 12) then next
  else if negb (next =? NULL) && (a =? next + 8) then prev else r a.

Lemma unlinked_prev r x u :
  (r (x + 8) = NULL \/ u = r (x + 8) \/ apart u (r (x + 8))) -> (r (x + 12) = NULL \/ u = r (x + 12) \/ apart u (r (x + 12))) ->
  unlinked r x (u + 8) = if negb (r (x + 12) =? NULL) && (u =? r (x + 12)) then r (x + 8) else r (u + 8).
Proof.
  intros H1 H2. unfold unlinked. unfold apart in *. destruct (Z.eqb_spec (r (x + 8)) NULL) as [E1|E1]; cbn [negb andb].
  - destruct (Z.eqb_spec (r (x + 12)) NULL) as [E2|E2]; cbn [negb andb]; [done|].
    by destruct (Z.eqb_spec (u + 8) (r (x + 12) + 8)), (Z.eqb_spec u (r (x + 12))); try lia.
  - rewrite (proj2 (Z.eqb_neq (u + 8) (r (x + 8) + 12))) by lia.
    destruct (Z.eqb_spec (r (x + 12)) NULL) as [E2|E2]; cbn [negb andb]; [done|].
    by destruct (Z.eqb_spec (u + 8) (r (x + 12) + 8)), (Z.eqb_spec u (r (x + 12))); try lia.
Qed.

Lemma unlinked_next r x u :
  (r (x + 8) = NULL \/ u = r (x + 8) \/ apart u (r (x + 8))) -> (r (x + 12) = NULL \/ u = r (x + 12) \/ apart u (r (x + 12))) ->
  unlinked r x (u + 12) = if negb (r (x + 8) =? NULL) && (u =? r (x + 8)) then r (x + 12) else r (u + 12).
Proof.
  intros H1 H2. unfold unlinked. unfold apart in *. destruct (Z.eqb_spec (r (x + 8)) NULL) as [E1|E1]; cbn [negb andb].
  - destruct (Z.eqb_spec (r (x + 12)) NULL) as [E2|E2]; cbn [negb andb]; [done|]. by rewrite (proj2 (Z.eqb_neq (u + 12) (r (x + 12) + 8))) by lia.
  - destruct (Z.eqb_spec (u + 12) (r (x + 8) + 12)), (Z.eqb_spec u (r (x + 8))); try lia; try done.
    destruct (Z.eqb_spec (r (x + 12)) NULL) as [E2|E2]; cbn [negb andb]; [done|]. by rewrite (proj2 (Z.eqb_neq (u + 12) (r (x + 12) + 8))) by lia.
Qed.

Lemma dll_unlink r l1 x l2 h :
  dll r h (l1 ++ x :: l2) -> NoDup (l1 ++ x :: l2) ->
  (forall y z, y ∈ l1 ++ x :: l2 -> z ∈ l1 ++ x :: l2 -> y <> z -> apart y z) ->
  r (x + 8) = List.last l1 NULL /\ r (x + 12) = hd NULL l2 /\
  dll (unlinked r x) (if h =? x then r (x + 12) else h) (l1 ++ l2).
Proof.
  unfold dll. rewrite fseg_app. intros (k & H1 & H2) Hnd Hap. cbn [fseg] in H2. destruct H2 as (-> & Hx & Hp & H2).
  assert (r (x + 12) = hd NULL l2) as Hn by (destruct l2; cbn [fseg hd] in *; [done|by destruct H2]).
  split_and!; [done|done|].
  assert (forall u, u ∈ l1 ++ x :: l2 -> (r (x + 8) = NULL \/ u = r (x + 8) \/ apart u (r (x + 8))) /\
                    (r (x + 12) = NULL \/ u = r (x + 12) \/ apart u (r (x + 12)))) as Hall.
  { intros u Hu. rewrite Hp, Hn. split.
    - destruct l1 as [|z l1' _] using rev_ind; [by left|]. rewrite List.last_last. destruct (decide (u = z)); [naive_solver|]. right; right. apply Hap; [done|set_solver|done].
    - destruct l2 as [|y l2']; [by left|]. cbn [hd]. destruct (decide (u = y)); [naive_solver|]. right; right. apply Hap; [done|set_solver|done]. }
  assert ((NULL ∉ l1) /\ (NULL ∉ l2)) as [N1 N2] by (split; by eapply fseg_not_null).
  apply NoDup_app in Hnd as (Hnd1 & Hdis & Hnd2). apply NoDup_cons in Hnd2 as [Hx2 Hnd2].
  (* links of the other elements *)
  assert (forall u, u ∈ l1 ++ l2 -> unlinked r x (u + 8) = (if decide (u ∈ l2 /\ u = hd NULL l2) then List.last l1 NULL else r (u + 8)) /\
                     unlinked r x (u + 12) = (if decide (u ∈ l1 /\ u = List.last l1 NULL) then hd NULL l2 else r (u + 12))) as Hlk.
  { intros u Hu. destruct (Hall u ltac:(set_solver)) as [A1 A2]. rewrite (unlinked_prev r x u A1 A2), (unlinked_next r x u A1 A2), Hp, Hn.
    assert (u <> NULL) as Hu0 by (intros ->; apply elem_of_app in Hu as [?|?]; done). split.
    - destruct l2 as [|y l2']; cbn [hd]; [by rewrite decide_False by set_solver|]. rewrite (proj2 (Z.eqb_neq y NULL)) by set_solver. cbn [negb andb].
      destruct (Z.eqb_spec u y) as [->|]; [by rewrite decide_True by set_solver|by rewrite decide_False by naive_solver].
    - destruct l1 as [|z l1' _] using rev_ind; [by rewrite decide_False by set_solver|]. rewrite List.last_last.
      rewrite (proj2 (Z.eqb_neq z NULL)) by set_solver. cbn [negb andb].
      destruct (Z.eqb_spec u z) as [->|]; [by rewrite decide_True by set_solver|by rewrite decide_False by naive_solver]. }
  apply fseg_app. exists (hd NULL l2). split.
  - destruct l1 as [|z l1' _] using rev_ind.
    + cbn [fseg] in *. subst h. by rewrite Z.eqb_refl.
    + apply fseg_app in H1 as (k & H1 & (-> & Hz & Hzp & Hzn)). cbn [fseg] in Hzn.
      assert (h <> x) as Hhx.
      { intros ->. destruct l1' as [|y l1']; cbn [fseg] in H1; [subst; set_solver|]. destruct H1 as (-> & _). set_solver. }
      rewrite (proj2 (Z.eqb_neq h x)) by done. rewrite List.last_last in *. apply fseg_app. exists z. split.
      * eapply fseg_ext, H1. intros u Hu. destruct (Hlk u ltac:(set_solver)) as [-> ->].
        apply NoDup_app in Hnd1 as (_ & Hd1 & _). rewrite !decide_False; [done| |].
        -- intros [_ ->]. set_solver.
        -- intros [? _]. set_solver.
      * cbn [fseg]. destruct (Hlk z ltac:(set_solver)) as [-> ->]. rewrite decide_False by set_solver. rewrite decide_True by set_solver. done.
  - destruct l2 as [|y l2']; cbn [fseg hd] in *; [done|]. destruct H2 as (Ey & Hy & Hyx & H2). apply NoDup_cons in Hnd2 as [Hy2 Hnd2].
    destruct (Hlk y ltac:(set_solver)) as [-> ->]. rewrite decide_True by set_solver. rewrite decide_False by set_solver. split_and!; try done.
    eapply fseg_ext, H2. intros u Hu. destruct (Hlk u ltac:(set_solver)) as [-> ->]. rewrite !decide_False; [done| |].
    + intros [? _]. set_solver.
    + intros [_ ->]. done.
Qed.

(** ** The lists and their bitmaps *)
Record flists m F L : Prop := {
  fl_dll : forall fl sl, idx fl sl -> dll (rd m) (tbl_of m fl sl) (L fl sl);
  fl_nodup : forall fl sl, idx fl sl -> NoDup (L fl sl);
  fl_mem : forall fl sl b, idx fl sl -> b ∈ L fl sl <-> exists n, F !! b = Some n /\ cls n = (fl, sl);
  fl_sl : forall fl, 0 <= fl < FLT_SIZE -> u32 (sl_of m fl);
  fl_sl_bit : forall fl sl, idx fl sl -> Z.testbit (sl_of m fl) sl = negb (bool_decide (L fl sl = []));
  fl_fl : u32 (fl_bitmap m);
  fl_fl_bit : forall fl, 0 <= fl < 32 -> Z.testbit (fl_bitmap m) fl = (fl <? FLT_SIZE) && negb (sl_of m fl =? 0);
  fl_apart : forall x y, is_Some (F !! x) -> is_Some (F !! y) -> x <> y -> apart x y;
  fl_size : forall x n, F !! x = Some n -> 0 < x /\ blk_size_ok n;
}.

(** The lists only depend on the link words of the blocks they hold. *)
Lemma flists_frame m m' F L :
  (forall x, is_Some (F !! x) -> rd m' (x + 8) = rd m (x + 8) /\ rd m' (x + 12) = rd m (x + 12)) ->
  mm_tbl m' = mm_tbl m -> sl_bitmap m' = sl_bitmap m -> fl_bitmap m' = fl_bitmap m -> flists m F L -> flists m' F L.
Proof.
  intros H E1 E2 E3 HF. assert (forall fl sl, tbl_of m' fl sl = tbl_of m fl sl) as Et by (intros; unfold tbl_of; by rewrite E1).
  assert (forall fl, sl_of m' fl = sl_of m fl) as Es by (intros; unfold sl_of; by rewrite E2).
  split; try (by apply HF); try (setoid_rewrite Es; by apply HF).
  - intros fl sl Hi. rewrite Et. eapply fseg_ext, HF, Hi. intros x Hx. apply H. apply (fl_mem _ _ _ HF) in Hx as (n & Hn & _); [|done]. eauto.
  - rewrite E3. apply HF.
  - setoid_rewrite Es. rewrite E3. apply HF.
Qed.

Lemma idx_cls n : blk_size_ok n -> idx (cls n).1 (cls n).2.
Proof. intros [Hn _]. apply cls_range. lia. Qed.

Lemma idx_bits fl sl : idx fl sl -> 0 <= fl < 32 /\ 0 <= sl < 32.
Proof. unfold idx. change FLT_SIZE with 13. change SLT_SIZE with 32. lia. Qed.

(** The head of a list is a block or [NULL]. *)
Lemma tbl_head m F L fl sl : flists m F L -> idx fl sl -> tbl_of m fl sl = hd NULL (L fl sl).
Proof. intros HF Hi. pose proof (fl_dll _ _ _ HF fl sl Hi) as Hd. unfold dll in Hd. destruct (L fl sl); cbn [fseg hd] in *; [done|by destruct Hd]. Qed.

Lemma list_apart m F L fl sl x y : flists m F L -> idx fl sl -> x ∈ L fl sl -> y ∈ L fl sl -> x <> y -> apart x y.
Proof. intros HF Hi Hx Hy Hne. apply (fl_mem _ _ _ HF) in Hx as (? & ? & _), Hy as (? & ? & _); [|done..]. apply (fl_apart _ _ _ HF); eauto. Qed.

Lemma list_disjoint m F L fl sl fl' sl' x :
  flists m F L -> idx fl sl -> idx fl' sl' -> x ∈ L fl sl -> x ∈ L fl' sl' -> (fl, sl) = (fl', sl').
Proof.
  intros HF Hi Hi' Hx Hx'. apply (fl_mem _ _ _ HF) in Hx as (n & Hn & E); [|done]. apply (fl_mem _ _ _ HF) in Hx' as (n' & Hn' & E'); [|done].
  congruence.
Qed.

(** *** Linking a block *)
Section Insert.
Context m F L b n (HF : flists m F L).
Context (Hb : 0 < b) (Hn : blk_size_ok n) (Hfresh : forall x, is_Some (F !! x) -> apart b x).
Let fl := (cls n).1.
Let sl := (cls n).2.
Let h := tbl_of m fl sl.

Definition linked_in : Z -> Z -> list Z := fun fl' sl' => if decide ((fl', sl') = (fl, sl)) then b :: L fl sl else L fl' sl'.

Lemma insert_fresh : F !! b = None.
Proof. destruct (F !! b) eqn:E; [|done]. destruct (Hfresh b) as [?|?]; [eauto|lia..]. Qed.

Lemma insert_rd a :
  rd (insert_block b fl sl m) a =
    if decide (a = b + 8) then NULL else if decide (a = b + 12) then h
    else if decide (h <> NULL /\ a = h + 8) then b else rd m a.
Proof.
  unfold insert_block. cbv zeta. match goal with |- context [if negb ?c then ?x else ?y] => set (m2 := if negb c then x else y) end.
  change (rd m2 a = if decide (a = b + 8) then NULL else if decide (a = b + 12) then h
    else if decide (h <> NULL /\ a = h + 8) then b else rd m a).
  change m2 with (if negb (h =? NULL) then set_free_prev h b (set_free_next b h (set_free_prev b NULL m)) else set_free_next b h (set_free_prev b NULL m)).
  pose proof (idx_cls n Hn) as Hi.
  assert (h <> NULL -> apart b h) as Hbh.
  { intros Hh. assert (h = hd NULL (L fl sl)) as Eh by exact (tbl_head _ _ _ _ _ HF Hi). rewrite Eh in Hh |- *.
    destruct (L fl sl) as [|x l] eqn:El; [done|]. cbn [hd] in *. assert (x ∈ L fl sl) as (k & Hk & _)%(fl_mem _ _ _ HF) by (rewrite El; by left); [|done]. apply Hfresh. eauto. }
  unfold apart in Hbh. destruct (Z.eqb_spec h NULL) as [E|E]; cbn [negb]; unfold set_free_prev, set_free_next; rewrite !rd_wr;
    repeat case_decide; subst; try done; try naive_solver; try lia.
Qed.

Lemma insert_frame a : a <> b + 8 -> a <> b + 12 -> (forall x, is_Some (F !! x) -> a <> x + 8) -> rd (insert_block b fl sl m) a = rd m a.
Proof.
  intros H1 H2 H3. rewrite insert_rd, !decide_False; [done|..|done|done]. intros [Hh ->].
  pose proof (idx_cls n Hn) as Hi. assert (h = hd NULL (L fl sl)) as Eh by exact (tbl_head _ _ _ _ _ HF Hi). rewrite Eh in Hh, H3.
  destruct (L fl sl) as [|x l] eqn:El; [done|]. cbn [hd] in *.
  assert (x ∈ L fl sl) as (k & Hk & _)%(fl_mem _ _ _ HF) by (rewrite El; by left); [|done]. by apply (H3 x); eauto.
Qed.

Lemma insert_tbl fl' sl' : tbl_of (insert_block b fl sl m) fl' sl' = if decide ((fl', sl') = (fl, sl)) then b else tbl_of m fl' sl'.
Proof.
  unfold insert_block. cbv zeta. match goal with |- context [if negb ?c then ?x else ?y] => set (m2 := if negb c then x else y) end.
  change (tbl_of (m2 <| mm_tbl ::= <[(fl, sl):=b]> |>) fl' sl' = if decide ((fl', sl') = (fl, sl)) then b else tbl_of m fl' sl').
  rewrite tbl_of_insert. case_decide; [done|]. unfold m2. by destruct (negb _).
Qed.

Lemma insert_sl fl' : sl_of (insert_block b fl sl m) fl' = if decide (fl' = fl) then word_set (sl_of m fl) (31 - sl) else sl_of m fl'.
Proof.
  unfold insert_block. cbv zeta. match goal with |- context [if negb ?c then ?x else ?y] => set (m2 := if negb c then x else y) end.
  set (m3 := m2 <| mm_tbl ::= _ |>). change (sl_of (m3 <| sl_bitmap ::= <[fl:=word_set (sl_of m3 fl) (31 - sl)]> |>) fl' =
    if decide (fl' = fl) then word_set (sl_of m fl) (31 - sl) else sl_of m fl').
  assert (forall g, sl_of m3 g = sl_of m g) as E by (intros g; unfold m3, m2; by destruct (negb _)). rewrite sl_of_insert, !E. done.
Qed.

Lemma insert_fl : fl_bitmap (insert_block b fl sl m) = word_set (fl_bitmap m) (31 - fl).
Proof. unfold insert_block. rsimpl. by destruct (negb _). Qed.

Lemma insert_flists : flists (insert_block b fl sl m) (<[b := n]> F) linked_in.
Proof.
  pose proof (idx_cls n Hn) as Hi. destruct (idx_bits _ _ Hi) as [Bf Bs]. fold fl sl in Hi, Bf, Bs.
  assert (b ∉ L fl sl) as Hbl by (intros (k & Hk & _)%(fl_mem _ _ _ HF); [|done]; by rewrite insert_fresh in Hk).
  split.
  - intros fl' sl' Hi'. rewrite insert_tbl. unfold linked_in. pose proof (fl_dll _ _ _ HF fl' sl' Hi') as Hd. unfold dll in *.
    case_decide as E.
    + injection E as -> ->. cbn [fseg]. rewrite !insert_rd. rewrite decide_True, (decide_False (P := b + 12 = b + 8)), decide_True by lia.
      split_and!; [done|unfold NULL; lia|done|]. fold h in Hd |- *. destruct (L fl sl) as [|x l] eqn:El; cbn [fseg] in *; [done|].
      destruct Hd as (Eh & Hx & Hxp & Hd). pose proof (fl_nodup _ _ _ HF fl sl Hi) as Hnd. rewrite El in Hnd. apply NoDup_cons in Hnd as [Hxl _].
      assert (apart b x) as Hbx. { apply Hfresh. assert (x ∈ L fl sl) as (k & Hk & _)%(fl_mem _ _ _ HF) by (rewrite El; by left); eauto. }
      assert (forall u, u ∈ l -> apart b u /\ apart x u) as Hu.
      { intros u Hu. assert (u ∈ L fl sl) as Hu' by (rewrite El; by right). split.
        - apply (fl_mem _ _ _ HF) in Hu' as (k & Hk & _); [|done]. apply Hfresh. eauto.
        - apply (list_apart m F L fl sl); [done..|rewrite El; by left|done|]. intros ->. done. }
      unfold apart in *. rewrite !insert_rd, Eh. split_and!; [done|done| |].
      * rewrite !decide_False, decide_True by lia. done.
      * rewrite !decide_False by lia. eapply fseg_ext, Hd. intros u Hul. specialize (Hu u Hul). rewrite !insert_rd, Eh, !decide_False by lia. done.
    + eapply fseg_ext, Hd. intros u Hu. assert (u ∉ L fl sl) as Hul by (intros Hin; apply E; by eapply (list_disjoint m F L)).
      apply (fl_mem _ _ _ HF) in Hu as Hu'; [|done]. destruct Hu' as (k & Hk & _). pose proof (Hfresh u ltac:(eauto)) as Hbu. unfold apart in Hbu.
      assert (h = hd NULL (L fl sl)) as Eh by exact (tbl_head _ _ _ _ _ HF Hi).
      assert (h <> NULL -> apart u h) as Huh.
      { intros Hh. rewrite Eh in *. destruct (L fl sl) as [|x l] eqn:El; [done|]. cbn [hd] in *.
        assert (x ∈ L fl sl) as (k' & Hk' & _)%(fl_mem _ _ _ HF) by (rewrite El; by left); [|done].
        apply (fl_apart _ _ _ HF); [by eauto..|]. intros ->. apply Hul. by left. }
      unfold apart in Huh. rewrite !insert_rd, !decide_False by lia. done.
  - intros fl' sl' Hi'. unfold linked_in. case_decide; [|by apply HF]. apply NoDup_cons. split; [done|by apply HF].
  - intros fl' sl' x Hi'. unfold linked_in. case_decide as E.
    + injection E as -> ->. rewrite elem_of_cons, (fl_mem _ _ _ HF) by done. destruct (decide (x = b)) as [->|Hx].
      * rewrite lookup_insert_eq. split; [|by left]. intros _. exists n. split; [done|apply surjective_pairing].
      * rewrite lookup_insert_ne by done. naive_solver.
    + rewrite (fl_mem _ _ _ HF) by done. destruct (decide (x = b)) as [->|Hx]; [|by rewrite lookup_insert_ne by done].
      rewrite lookup_insert_eq, insert_fresh. split; [naive_solver|]. intros (k & [= <-] & Ec). exfalso. apply E. rewrite <- Ec. apply surjective_pairing.
  - intros fl' Hf. rewrite insert_sl. case_decide; [|by apply HF]. apply (word_set_spec _ sl sl); [apply HF, Hi|done..].
  - intros fl' sl' Hi'. destruct (idx_bits _ _ Hi') as [_ Bs']. rewrite insert_sl. unfold linked_in. case_decide as E.
    + subst fl'. rewrite (proj2 (word_set_spec _ sl sl' (fl_sl _ _ _ HF fl ltac:(apply Hi)) Bs Bs')), (fl_sl_bit _ _ _ HF) by done.
      destruct (decide (sl' = sl)) as [->|Hne]; [by rewrite decide_True|]. by rewrite decide_False by congruence.
    + rewrite decide_False by congruence. by apply HF.
  - rewrite insert_fl. apply (word_set_spec _ fl fl); [apply HF|done..].
  - intros fl' Hf. rewrite insert_fl, insert_sl, (proj2 (word_set_spec _ fl fl' (fl_fl _ _ _ HF) Bf Hf)), (fl_fl_bit _ _ _ HF) by done.
    case_decide as E; [|done]. subst fl'. rewrite (proj2 (Z.ltb_lt fl FLT_SIZE)) by apply Hi. cbn [andb].
    destruct (Z.eqb_spec (word_set (sl_of m fl) (31 - sl)) 0) as [E0|]; [|done]. exfalso.
    pose proof (proj2 (word_set_spec _ sl sl (fl_sl _ _ _ HF fl ltac:(apply Hi)) Bs Bs)) as Hb0. rewrite decide_True, E0, Z.testbit_0_l in Hb0 by done. done.
  - intros x y Hx Hy Hne. destruct (decide (x = b)) as [->|Hxb], (decide (y = b)) as [->|Hyb]; try done;
      rewrite ?lookup_insert_ne in Hx by done; rewrite ?lookup_insert_ne in Hy by done.
    + by apply Hfresh.
    + destruct (Hfresh x Hx); [by right|by left].
    + by apply (fl_apart _ _ _ HF).
  - intros x k. destruct (decide (x = b)) as [->|Hx]; [rewrite lookup_insert_eq; by intros [= <-]|rewrite lookup_insert_ne by done; apply HF].
Qed.
End Insert.

(** *** Unlinking a block *)
Section Remove.
Context m F L b n (HF : flists m F L) (Hb : F !! b = Some n).
Let fl := (cls n).1.
Let sl := (cls n).2.
Let next := free_next m b.
Let prev := free_prev m b.

Definition linked_out : Z -> Z -> list Z := fun fl' sl' => if decide ((fl', sl') = (fl, sl)) then remove_addr b (L fl sl) else L fl' sl'.

Lemma remove_idx : idx fl sl.
Proof. apply idx_cls. by apply (fl_size _ _ _ HF b). Qed.

Lemma remove_split : exists l1 l2, L fl sl = l1 ++ b :: l2 /\ (b ∉ l1) /\ (b ∉ l2).
Proof.
  assert (b ∈ L fl sl) as Hin by (apply (fl_mem _ _ _ HF); [apply remove_idx|]; exists n; split; [done|apply surjective_pairing]).
  apply list_elem_of_split in Hin as (l1 & l2 & E). pose proof (fl_nodup _ _ _ HF fl sl remove_idx) as Hnd. rewrite E in Hnd.
  apply NoDup_app in Hnd as (_ & Hd & Hnd). apply NoDup_cons in Hnd as [Hn2 _]. exists l1, l2. split_and!; [done| |done].
  intros Hin. apply (Hd b Hin). by left.
Qed.

(** The neighbours in the list. *)
Lemma remove_links :
  (prev = NULL \/ is_Some (F !! prev) /\ prev <> b) /\ (next = NULL \/ is_Some (F !! next) /\ next <> b) /\
  (tbl_of m fl sl = b <-> prev = NULL) /\
  dll (unlinked (rd m) b) (if tbl_of m fl sl =? b then next else tbl_of m fl sl) (remove_addr b (L fl sl)).
Proof.
  destruct remove_split as (l1 & l2 & E & H1 & H2). pose proof remove_idx as Hi.
  pose proof (fl_dll _ _ _ HF fl sl Hi) as Hd. pose proof (fl_nodup _ _ _ HF fl sl Hi) as Hnd.
  pose proof (tbl_head _ _ _ _ _ HF Hi) as Hh. rewrite E in Hh.
  pose proof (fun y z => list_apart m F L fl sl y z HF Hi) as Hap.
  assert (forall x, x ∈ l1 ++ b :: l2 -> is_Some (F !! x)) as Hin by (rewrite <- E; intros x (k & Hk & _)%(fl_mem _ _ _ HF); eauto).
  rewrite E in Hd, Hnd, Hap |- *.
  assert (NULL ∉ l1 ++ b :: l2) as Hz by (eapply fseg_not_null, Hd).
  destruct (dll_unlink (rd m) l1 b l2 _ Hd Hnd Hap) as (Ep & En & Hd'). fold (free_prev m b) (free_next m b) in *. fold prev next in Ep, En, Hd'.
  split_and!.
  - rewrite Ep. destruct l1 as [|z l1 _] using rev_ind; [by left|right]. rewrite List.last_last. split; [apply Hin; set_solver|set_solver].
  - rewrite En. destruct l2 as [|y l2]; [by left|right]. cbn [hd]. split; [apply Hin; set_solver|set_solver].
  - rewrite Hh, Ep. destruct l1 as [|z l1 _] using rev_ind; [done|]. rewrite List.last_last. split; [|set_solver].
    destruct l1 as [|y l1]; cbn [app hd]; set_solver.
  - by rewrite remove_addr_middle.
Qed.

Lemma get_rd a : rd (get_block b fl sl m) a = if decide (a = b + 8 \/ a = b + 12) then NULL else unlinked (rd m) b a.
Proof.
  destruct remove_links as (Hp & Hn & _). unfold get_block. fold next prev.
  set (m1 := if negb (next =? NULL) then set_free_prev next prev m else m).
  assert (forall x, rd m1 x = if decide (next <> NULL /\ x = next + 8) then prev else rd m x) as E1.
  { intros x. unfold m1. destruct (Z.eqb_spec next NULL) as [E|E]; cbn [negb]; unfold set_free_prev; rewrite ?rd_wr; repeat case_decide; naive_solver. }
  assert (apart b prev \/ prev = NULL) as Abp by (destruct Hp as [?|[? ?]]; [by right|left; apply (fl_apart _ _ _ HF); eauto]).
  assert (apart b next \/ next = NULL) as Abn by (destruct Hn as [?|[? ?]]; [by right|left; apply (fl_apart _ _ _ HF); eauto]).
  unfold apart in *.
  assert (free_prev m1 b = prev) as -> by (unfold free_prev; rewrite E1, decide_False by lia; done).
  assert (free_next m1 b = next) as E1n by (unfold free_next; rewrite E1, decide_False by lia; done). rewrite E1n.
  set (m2 := if negb (prev =? NULL) then set_free_next prev next m1 else m1).
  assert (forall x, rd m2 x = unlinked (rd m) b x) as E2.
  { intros x. unfold m2, unlinked. fold (free_prev m b) (free_next m b). fold prev next.
    destruct (Z.eqb_spec prev NULL) as [Ep|Ep]; cbn [negb andb]; unfold set_free_next; rewrite ?rd_wr, ?E1.
    - destruct (Z.eqb_spec next NULL), (Z.eqb_spec x (next + 8)); cbn [negb andb]; repeat case_decide; naive_solver.
    - destruct (Z.eqb_spec x (prev + 12)) as [e|e]; [by rewrite decide_True|rewrite decide_False by done]. clear E1n E1.
      destruct (Z.eqb_spec next NULL), (Z.eqb_spec x (next + 8)); cbn [negb andb]; repeat case_decide; naive_solver. }
  clearbody m2. unfold set_free_prev, set_free_next. rewrite !rd_wr.
  match goal with |- context [rd (if tbl_of m2 fl sl =? b then ?x else m2) a] => set (m3 := if tbl_of m2 fl sl =? b then x else m2) end.
  assert (rd m3 a = rd m2 a) as E3 by (unfold m3; cbv zeta; repeat case_match; done). rewrite E3, E2. repeat case_decide; naive_solver.
Qed.

Lemma get_frame a : (forall x, is_Some (F !! x) -> a <> x + 8 /\ a <> x + 12) -> rd (get_block b fl sl m) a = rd m a.
Proof.
  intros H. destruct remove_links as (Hp & Hn & _). pose proof (H b ltac:(eauto)). rewrite get_rd, decide_False by naive_solver.
  unfold unlinked. fold (free_prev m b) (free_next m b). fold prev next.
  destruct Hp as [->|[Hp _]]; [cbn [negb andb Z.eqb]|rewrite (proj2 (Z.eqb_neq a (prev + 12))), andb_false_r by (by apply H)];
    (destruct Hn as [->|[Hn _]]; [done|by rewrite (proj2 (Z.eqb_neq a (next + 8))), andb_false_r by (by apply H)]).
Qed.

(** What happens to the tables, for any way of writing the links. *)
Definition drop_head (m2 : mm_state) : mm_state :=
  if tbl_of m2 fl sl =? b then
    let m2 := m2 <| mm_tbl ::= <[(fl, sl) := next]> |> in
    if tbl_of m2 fl sl =? NULL then
      let m2 := m2 <| sl_bitmap ::= <[fl := word_clear (sl_of m2 fl) (31 - sl)]> |> in
      if sl_of m2 fl =? 0 then m2 <| fl_bitmap ::= fun w => word_clear w (31 - fl) |> else m2
    else m2
  else m2.

Definition emptied : bool := (tbl_of m fl sl =? b) && (next =? NULL).

Lemma drop_head_spec m2 :
  mm_tbl m2 = mm_tbl m -> sl_bitmap m2 = sl_bitmap m -> fl_bitmap m2 = fl_bitmap m ->
  (forall fl' sl', tbl_of (drop_head m2) fl' sl' =
     if decide ((fl', sl') = (fl, sl)) then (if tbl_of m fl sl =? b then next else tbl_of m fl sl) else tbl_of m fl' sl') /\
  (forall fl', sl_of (drop_head m2) fl' = if decide (fl' = fl) then (if emptied then word_clear (sl_of m fl) (31 - sl) else sl_of m fl) else sl_of m fl') /\
  fl_bitmap (drop_head m2) = if emptied && (word_clear (sl_of m fl) (31 - sl) =? 0) then word_clear (fl_bitmap m) (31 - fl) else fl_bitmap m.
Proof.
  intros Et Es Ef. assert (forall fl sl, tbl_of m2 fl sl = tbl_of m fl sl) as Et' by (intros; unfold tbl_of; by rewrite Et).
  assert (forall fl, sl_of m2 fl = sl_of m fl) as Es' by (intros; unfold sl_of; by rewrite Es).
  unfold drop_head, emptied. rewrite Et'. destruct (Z.eqb_spec (tbl_of m fl sl) b) as [Eb|Eb]; cbn [andb].
  2:{ split_and!; [intros; rewrite Et'; by case_decide; [simplify_eq|]|intros; rewrite Es'; by case_decide; [simplify_eq|]|done]. }
  cbv zeta. rewrite tbl_of_insert, decide_True by done.
  set (m3 := m2 <| mm_tbl ::= _ |>).
  assert (forall fl' sl', tbl_of m3 fl' sl' = if decide ((fl', sl') = (fl, sl)) then next else tbl_of m fl' sl') as E3
    by (intros; unfold m3; rewrite tbl_of_insert; by case_decide).
  assert (forall g, sl_of m3 g = sl_of m g) as E3s by exact Es'. assert (fl_bitmap m3 = fl_bitmap m) as E3f by exact Ef. clearbody m3.
  destruct (next =? NULL); [|split_and!; [done|intros; rewrite E3s; by case_decide; [simplify_eq|]|done]].
  rewrite sl_of_insert, decide_True, E3s by done. set (m4 := m3 <| sl_bitmap ::= _ |>).
  assert (forall g, sl_of m4 g = if decide (g = fl) then word_clear (sl_of m fl) (31 - sl) else sl_of m g) as E4
    by (intros; unfold m4; rewrite sl_of_insert; by case_decide).
  assert (forall x y, tbl_of m4 x y = tbl_of m3 x y) as E4t by done. assert (fl_bitmap m4 = fl_bitmap m) as E4f by exact E3f. clearbody m4.
  destruct (word_clear (sl_of m fl) (31 - sl) =? 0); cbn [andb]; (split_and!; [intros; by rewrite <- E3, <- E4t|exact E4|]); [|exact E4f].
  rsimpl. by rewrite E4f.
Qed.

Lemma get_tables :
  (forall fl' sl', tbl_of (get_block b fl sl m) fl' sl' =
     if decide ((fl', sl') = (fl, sl)) then (if tbl_of m fl sl =? b then next else tbl_of m fl sl) else tbl_of m fl' sl') /\
  (forall fl', sl_of (get_block b fl sl m) fl' = if decide (fl' = fl) then (if emptied then word_clear (sl_of m fl) (31 - sl) else sl_of m fl) else sl_of m fl') /\
  fl_bitmap (get_block b fl sl m) = if emptied && (word_clear (sl_of m fl) (31 - sl) =? 0) then word_clear (fl_bitmap m) (31 - fl) else fl_bitmap m.
Proof.
  destruct remove_links as (Hp & Hn & _). unfold get_block. fold next prev.
  set (m1 := if negb (next =? NULL) then set_free_prev next prev m else m).
  assert (free_prev m1 b = prev /\ free_next m1 b = next) as [-> E1n].
  { unfold m1. destruct (Z.eqb_spec next NULL) as [|E]; [done|]. destruct Hn as [|[Hn Hnb]]; [done|].
    pose proof (fl_apart _ _ _ HF b next ltac:(eauto) Hn ltac:(done)) as Ha. unfold apart in Ha. cbn [negb].
    unfold free_prev, free_next, set_free_prev. rewrite !rd_wr_ne by lia. done. }
  rewrite E1n. set (m2 := if negb (prev =? NULL) then set_free_next prev next m1 else m1).
  assert (free_next m2 b = next) as ->.
  { unfold m2. destruct (Z.eqb_spec prev NULL) as [|E]; [done|]. destruct Hp as [|[Hp Hpb]]; [done|].
    pose proof (fl_apart _ _ _ HF b prev ltac:(eauto) Hp ltac:(done)) as Ha. unfold apart in Ha. cbn [negb].
    unfold free_next in *. unfold set_free_next. rewrite !rd_wr_ne by lia. done. }
  destruct (drop_head_spec m2) as (D1 & D2 & D3); [unfold m2, m1; by destruct (negb _), (negb _)..|]. unfold drop_head in D1, D2, D3. done.
Qed.

Lemma emptied_spec : emptied = bool_decide (remove_addr b (L fl sl) = []).
Proof.
  destruct remove_links as (_ & _ & _ & Hd). unfold emptied, dll in *. pose proof (tbl_head _ _ _ _ _ HF remove_idx) as Hh.
  assert (tbl_of m fl sl <> NULL) as Hnz.
  { destruct remove_split as (l1 & l2 & E & _). pose proof (fl_dll _ _ _ HF fl sl remove_idx) as Hd'. apply fseg_not_null in Hd'. rewrite Hh, E in *.
    destruct l1; cbn [hd app] in *; set_solver. }
  destruct (remove_addr b (L fl sl)) as [|x l]; cbn [fseg] in Hd.
  - destruct (tbl_of m fl sl =? b); [|done]. by rewrite Hd.
  - destruct Hd as (E & Hx & _). rewrite bool_decide_false by done. destruct (tbl_of m fl sl =? b); [|done]. rewrite E. by rewrite (proj2 (Z.eqb_neq x NULL)).
Qed.

Lemma get_flists : flists (get_block b fl sl m) (delete b F) linked_out.
Proof.
  pose proof remove_idx as Hi. destruct (idx_bits _ _ Hi) as [Bf Bs]. destruct get_tables as (T1 & T2 & T3). pose proof emptied_spec as Em.
  destruct remove_links as (Hp & Hn & _ & Hd).
  assert (forall x, x ∈ remove_addr b (L fl sl) <-> x <> b /\ x ∈ L fl sl) as Hrm by (intros; apply elem_of_remove_addr).
  assert (forall x, is_Some (F !! x) -> x <> b -> rd (get_block b fl sl m) (x + 8) = unlinked (rd m) b (x + 8) /\
                    rd (get_block b fl sl m) (x + 12) = unlinked (rd m) b (x + 12)) as Hrd.
  { intros x Hx Hne. pose proof (fl_apart _ _ _ HF x b Hx ltac:(eauto) Hne) as Ha. unfold apart in Ha. by rewrite !get_rd, !decide_False by lia. }
  split.
  - intros fl' sl' Hi'. rewrite T1. unfold linked_out. case_decide as E.
    + injection E as -> ->. eapply fseg_ext, Hd. intros x [Hne (k & Hk & _)%(fl_mem _ _ _ HF)]%Hrm; [|done]. apply Hrd; eauto.
    + eapply fseg_ext, (fl_dll _ _ _ HF fl' sl' Hi'). intros x Hx.
      assert (x ∉ L fl sl) as Hxl by (intros Hin; apply E; by eapply (list_disjoint m F L)).
      assert (x <> b) as Hxb.
      { intros ->. apply Hxl. apply (fl_mem _ _ _ HF); [done|]. exists n. split; [done|apply surjective_pairing]. }
      apply (fl_mem _ _ _ HF) in Hx as (k & Hk & _); [|done]. destruct (Hrd x ltac:(eauto) Hxb) as [-> ->].
      destruct remove_split as (l1 & l2 & El & _). destruct (dll_unlink (rd m) l1 b l2 (tbl_of m fl sl)) as (Ep & En & _);
        [rewrite <- El; by apply HF|rewrite <- El; by apply HF|rewrite <- El; intros y z; by apply (list_apart m F L)|].
      assert (prev <> x /\ next <> x) as [Hpx Hnx].
      { unfold prev, next, free_prev, free_next. rewrite Ep, En. rewrite El in Hxl. split; intros <-.
        - destruct l1 as [|z l1 _] using rev_ind; [|rewrite List.last_last in Hxl; apply Hxl; rewrite !elem_of_app; left; right; by left]. cbn [List.last] in *.
          destruct (fl_size _ _ _ HF _ _ Hk). unfold NULL in *. lia.
        - destruct l2 as [|z l2]; [|cbn [hd] in *; apply Hxl; rewrite elem_of_app; right; right; by left]. cbn [hd] in *. destruct (fl_size _ _ _ HF _ _ Hk). unfold NULL in *. lia. }
      assert (rd m (b + 8) = NULL \/ x = rd m (b + 8) \/ apart x (rd m (b + 8))) as A1
        by (fold (free_prev m b); fold prev; destruct Hp as [?|[? ?]]; [by left|right; right; apply (fl_apart _ _ _ HF); eauto]).
      assert (rd m (b + 12) = NULL \/ x = rd m (b + 12) \/ apart x (rd m (b + 12))) as A2
        by (fold (free_next m b); fold next; destruct Hn as [?|[? ?]]; [by left|right; right; apply (fl_apart _ _ _ HF); eauto]).
      rewrite (unlinked_prev _ _ _ A1 A2), (unlinked_next _ _ _ A1 A2). fold (free_prev m b) (free_next m b). fold prev next.
      by rewrite (proj2 (Z.eqb_neq x next)), (proj2 (Z.eqb_neq x prev)), !andb_false_r by done.
  - intros fl' sl' Hi'. unfold linked_out. case_decide; [apply NoDup_remove_addr|]; by apply HF.
  - intros fl' sl' x Hi'. unfold linked_out. assert (F !! b = Some n /\ cls n = (fl, sl)) as [_ Ec] by (split; [done|apply surjective_pairing]).
    destruct (decide (x = b)) as [->|Hx].
    + rewrite lookup_delete_eq. split; [|by intros (? & ? & _)]. case_decide as E; [by rewrite Hrm; intros [? _]|].
      intros (k & Hk & Ek)%(fl_mem _ _ _ HF); [|done]. exfalso. apply E. congruence.
    + rewrite lookup_delete_ne by done. rewrite <- (fl_mem _ _ _ HF) by done. case_decide as E; [|done]. injection E as -> ->. rewrite Hrm. split; [by intros [_ ?]|by split].
  - intros fl' Hf. rewrite T2. case_decide; [|by apply HF]. destruct emptied; [|apply HF, Hi]. apply (word_clear_spec _ sl sl); [apply HF, Hi|done..].
  - intros fl' sl' Hi'. destruct (idx_bits _ _ Hi') as [_ Bs']. rewrite T2. unfold linked_out. case_decide as E.
    + subst fl'. rewrite Em. case_bool_decide as Ee.
      * rewrite (proj2 (word_clear_spec _ sl sl' (fl_sl _ _ _ HF fl ltac:(apply Hi)) Bs Bs')), (fl_sl_bit _ _ _ HF) by done.
        destruct (decide (sl' = sl)) as [->|Hne]; [rewrite decide_True by done; by rewrite bool_decide_true|by rewrite decide_False by congruence].
      * rewrite (fl_sl_bit _ _ _ HF) by done. destruct (decide (sl' = sl)) as [->|Hne]; [rewrite decide_True by done|by rewrite decide_False by congruence].
        rewrite !bool_decide_false; [done|done|]. intros E0. by rewrite E0 in Ee.
    + rewrite decide_False by congruence. by apply HF.
  - rewrite T3. destruct (_ && _); [|apply HF]. apply (word_clear_spec _ fl fl); [apply HF|done..].
  - intros fl' Hf. rewrite T3, T2. destruct emptied; cbn [andb].
    + destruct (Z.eqb_spec (word_clear (sl_of m fl) (31 - sl)) 0) as [E0|E0].
      * rewrite (proj2 (word_clear_spec _ fl fl' (fl_fl _ _ _ HF) Bf Hf)), (fl_fl_bit _ _ _ HF) by done.
        case_decide as E; [subst; rewrite E0; by rewrite andb_false_r|done].
      * rewrite (fl_fl_bit _ _ _ HF) by done. case_decide as E; [|done]. subst. rewrite (proj2 (Z.eqb_neq _ 0) E0). destruct (fl <? FLT_SIZE); [|done]. cbn [andb].
        destruct (Z.eqb_spec (sl_of m fl) 0) as [Ez|]; [|done]. exfalso. apply E0.
        pose proof (fl_sl _ _ _ HF fl ltac:(apply Hi)) as Hu. apply word_zero; [by apply (word_clear_spec _ sl sl)|].
        intros j Hj. rewrite (proj2 (word_clear_spec _ sl j Hu Bs Hj)), Ez. case_decide; [done|apply Z.testbit_0_l].
    + rewrite (fl_fl_bit _ _ _ HF) by done. case_decide; [by subst|done].
  - intros x y Hx Hy. apply lookup_delete_is_Some in Hx as [_ Hx], Hy as [_ Hy]. by apply (fl_apart _ _ _ HF).
  - intros x k [_ Hk]%lookup_delete_Some. by apply (fl_size _ _ _ HF).
Qed.

(** The inlined unlink of [k_mm_alloc], on the head of a list. *)
Lemma pop_get : tbl_of m fl sl = b -> pop_block b fl sl m = get_block b fl sl m.
Proof.
  intros Et. destruct remove_links as (_ & Hn & Hh & _). apply Hh in Et as Ep. unfold pop_block, get_block. fold next prev. rewrite Ep.
  set (m1 := if negb (next =? NULL) then set_free_prev next NULL m else m).
  assert (free_prev m1 b = NULL /\ free_next m1 b = next /\ tbl_of m1 fl sl = b) as (-> & En & E1).
  { unfold m1. destruct (Z.eqb_spec next NULL) as [|E]; [done|]. destruct Hn as [|[Hn Hnb]]; [done|].
    pose proof (fl_apart _ _ _ HF b next ltac:(eauto) Hn ltac:(done)) as Ha. unfold apart in Ha. cbn [negb].
    unfold free_prev, free_next, set_free_prev. rewrite !rd_wr_ne by lia. done. }
  change (negb (NULL =? NULL)) with false. cbv iota. rewrite E1, Z.eqb_refl, En, !tbl_of_insert, !decide_True by done. unfold m1.
  by destruct (next =? NULL).
Qed.
End Remove.
