(* ===== verification/MmLayout.v ===== *)
(** * The physical layout of a region

    A region at [a] is a list of blocks [(n, f)]: the size of the buffer and whether the
    block is free.  The block before which the blocks [l1] lie has address
    [a + total l1].  [heads r p a bs]: the headers in the memory [r] describe [bs], where
    [p] is the free block that ends at [a], if there is one; two free blocks are never
    neighbours.  [frees a bs] are the free blocks by address. *)
From S2P Require Import Prelude Bitmap KTypes Mm MmBits MmList.
Local Open Scope Z_scope.

Implicit Types (m : mm_state) (r : Z -> Z) (a b c x n k : Z) (f pf : bool) (p : option Z) (bs l : list (Z * bool)).

Definition total bs : Z := foldr (fun '(n, _) t => 8 + n + t) 0 bs.

Fixpoint blocks a bs : list (Z * Z * bool) :=
  match bs with [] => [] | (n, f) :: bs => (a, n, f) :: blocks (a + 8 + n) bs end.

Fixpoint frees a bs : gmap Z Z :=
  match bs with
  | [] => ∅
  | (n, f) :: bs => if f then <[a := n]> (frees (a + 8 + n) bs) else frees (a + 8 + n) bs
  end.

Definition has_prev p : bool := match p with Some _ => true | None => false end.

Fixpoint heads r p a bs : Prop :=
  match bs with
  | [] => True
  | (n, f) :: bs =>
      r (a + 4) = enc n f (has_prev p) /\ (forall q, p = Some q -> r a = q /\ f = false) /\
      heads r (if f then Some a else None) (a + 8 + n) bs
  end.

(** The free block that ends where the blocks [bs] end. *)
Fixpoint exit_prev p a bs : option Z :=
  match bs with [] => p | (n, f) :: bs => exit_prev (if f then Some a else None) (a + 8 + n) bs end.

Definition size_ok (x : Z * bool) : Prop := 0 <= x.1 /\ x.1 mod 4 = 0 /\ (x.2 = true -> 8 <= x.1).

(** The last block of a region is an allocated block without a buffer. *)
Record layout a bs : Prop := {
  lay_addr : 0 < a /\ a mod 4 = 0;
  lay_end : a + total bs <= 2 ^ 32;
  lay_total : total bs <= 2 ^ 19;
  lay_sizes : Forall size_ok bs;
  lay_last : last bs = Some (0, false);
}.

(** ** Lists of blocks *)
Lemma total_cons n f bs : total ((n, f) :: bs) = 8 + n + total bs.
Proof. done. Qed.

Lemma total_app l1 l2 : total (l1 ++ l2) = total l1 + total l2.
Proof. induction l1 as [|[n f] l1 IH]; cbn [app]; rewrite ?total_cons; [done|lia]. Qed.

Lemma total_nonneg bs : Forall size_ok bs -> 0 <= total bs /\ (bs <> [] -> 8 <= total bs) /\ total bs mod 4 = 0.
Proof.
  induction 1 as [|[n f] bs (Hn & Hm & _) _ (IH1 & _ & IH3)]; [done|]. rewrite total_cons. cbn [fst] in *. split_and!; [lia..|].
  Z.to_euclidean_division_equations. lia.
Qed.

Lemma blocks_app a l1 l2 : blocks a (l1 ++ l2) = blocks a l1 ++ blocks (a + total l1) l2.
Proof.
  revert a. induction l1 as [|[n f] l1 IH]; intros a; cbn [app blocks]; [cbn; by rewrite Z.add_0_r|].
  rewrite IH, total_cons. do 3 f_equal. lia.
Qed.

Lemma heads_app r p a l1 l2 : heads r p a (l1 ++ l2) <-> heads r p a l1 /\ heads r (exit_prev p a l1) (a + total l1) l2.
Proof.
  revert p a. induction l1 as [|[n f] l1 IH]; intros p a; cbn [app heads exit_prev].
  - change (total []) with 0. rewrite Z.add_0_r. naive_solver.
  - rewrite IH, total_cons. replace (a + (8 + n + total l1)) with (a + 8 + n + total l1) by lia. naive_solver.
Qed.

Lemma exit_prev_snoc p a l n f : exit_prev p a (l ++ [(n, f)]) = if f then Some (a + total l) else None.
Proof.
  revert p a. induction l as [|[k g] l IH]; intros p a; cbn [app exit_prev]; [change (total []) with 0; by rewrite Z.add_0_r|].
  rewrite IH, total_cons. destruct f; [f_equal; lia|done].
Qed.

Lemma heads_ext r r' p a bs :
  (forall c n f, (c, n, f) ∈ blocks a bs -> r' c = r c /\ r' (c + 4) = r (c + 4)) -> heads r p a bs -> heads r' p a bs.
Proof.
  revert p a. induction bs as [|[n f] bs IH]; intros p a H; cbn [heads blocks] in *; [done|]. intros (H1 & H2 & H3).
  destruct (H a n f) as [-> ->]; [by left|]. split_and!; [done..|]. apply IH; [|done]. intros c k g Hc. apply (H c k g). by right.
Qed.

(** ** Where blocks are *)
Lemma blocks_range a bs c n f : Forall size_ok bs -> (c, n, f) ∈ blocks a bs -> a <= c /\ c + 8 + n <= a + total bs /\ size_ok (n, f).
Proof.
  intros Hs. revert a. induction Hs as [|[k g] bs Hk Hs IH]; intros a; cbn [blocks]; [by intros ?%elem_of_nil|]. rewrite total_cons.
  destruct (total_nonneg bs Hs) as [Ht _]. pose proof (proj1 Hk) as Hk0. cbn [fst] in Hk0.
  intros [[= -> -> ->]|H]%elem_of_cons; [split_and!; [lia|lia|done]|]. apply IH in H as (H1 & H2 & H3). split_and!; [lia|lia|done].
Qed.

Lemma blocks_sep a bs c n f c' n' f' :
  Forall size_ok bs -> (c, n, f) ∈ blocks a bs -> (c', n', f') ∈ blocks a bs ->
  (c = c' /\ n = n' /\ f = f') \/ c + 8 + n <= c' \/ c' + 8 + n' <= c.
Proof.
  intros Hs. revert a. induction Hs as [|[k g] bs Hk Hs IH]; intros a; cbn [blocks]; [by intros ?%elem_of_nil|].
  intros [[= -> -> ->]|H]%elem_of_cons [[= -> -> ->]|H']%elem_of_cons.
  - by left.
  - apply blocks_range in H'; [|done]. lia.
  - apply blocks_range in H; [|done]. lia.
  - by eapply IH.
Qed.

Lemma blocks_at a l1 n f l2 : (a + total l1, n, f) ∈ blocks a (l1 ++ (n, f) :: l2).
Proof. rewrite blocks_app. apply elem_of_app. right. by left. Qed.

Lemma blocks_split a bs c n f : (c, n, f) ∈ blocks a bs -> exists l1 l2, bs = l1 ++ (n, f) :: l2 /\ c = a + total l1.
Proof.
  revert a. induction bs as [|[k g] bs IH]; intros a; cbn [blocks]; [by intros ?%elem_of_nil|].
  intros [[= -> -> ->]|H]%elem_of_cons; [exists [], bs; split; [done|]; change (total []) with 0; lia|].
  apply IH in H as (l1 & l2 & -> & ->). exists ((k, g) :: l1), l2. split; [done|]. rewrite total_cons. lia.
Qed.

(** ** Free blocks *)
Lemma frees_lookup a bs c n : Forall size_ok bs -> frees a bs !! c = Some n <-> (c, n, true) ∈ blocks a bs.
Proof.
  intros Hs. revert a. induction Hs as [|[k g] bs Hk Hs IH]; intros a; cbn [frees blocks].
  - rewrite lookup_empty. split; [done|by intros ?%elem_of_nil].
  - rewrite elem_of_cons. assert ((c, n, true) ∈ blocks (a + 8 + k) bs -> c <> a) as Hne.
    { intros H. apply blocks_range in H; [|done]. pose proof (proj1 Hk). cbn [fst] in *. lia. }
    destruct g.
    + destruct (decide (c = a)) as [->|Hc]; [rewrite lookup_insert_eq|rewrite lookup_insert_ne by done; rewrite IH]; naive_solver.
    + rewrite IH. naive_solver.
Qed.

Lemma frees_app a l1 l2 : frees a (l1 ++ l2) = frees a l1 ∪ frees (a + total l1) l2.
Proof.
  revert a. induction l1 as [|[n f] l1 IH]; intros a; cbn [app frees].
  - change (total []) with 0. by rewrite Z.add_0_r, (left_id_L ∅ (∪)).
  - rewrite IH, total_cons. replace (a + (8 + n + total l1)) with (a + 8 + n + total l1) by lia.
    destruct f; [by rewrite insert_union_l|done].
Qed.

Lemma frees_miss a l1 n f l2 c : Forall size_ok (l1 ++ (n, f) :: l2) -> c = a + total l1 -> frees a l1 !! c = None /\ frees (c + 8 + n) l2 !! c = None.
Proof.
  intros Hs ->. apply Forall_app in Hs as [Hs1 Hs2]. apply Forall_cons in Hs2 as [Hn Hs2]. pose proof (proj1 Hn). cbn [fst] in *.
  split; apply eq_None_not_Some; intros [k Hk%frees_lookup]; try done; apply blocks_range in Hk as (? & ? & Hk & _); try done; cbn [fst] in *; lia.
Qed.

Lemma frees_unlink a l1 n l2 : Forall size_ok (l1 ++ (n, true) :: l2) -> delete (a + total l1) (frees a (l1 ++ (n, true) :: l2)) = frees a (l1 ++ (n, false) :: l2).
Proof.
  intros Hs. destruct (frees_miss a _ _ _ _ _ Hs eq_refl) as [H1 H2]. rewrite !frees_app. cbn [frees].
  rewrite delete_union, delete_insert_eq, !delete_id by done. done.
Qed.

Lemma frees_link a l1 n l2 : Forall size_ok (l1 ++ (n, true) :: l2) -> <[a + total l1 := n]> (frees a (l1 ++ (n, false) :: l2)) = frees a (l1 ++ (n, true) :: l2).
Proof.
  intros Hs. destruct (frees_miss a _ _ _ _ _ Hs eq_refl) as [H1 H2]. rewrite !frees_app. cbn [frees]. by rewrite insert_union_r by done.
Qed.

Lemma frees_merge a l1 n k l2 : frees a (l1 ++ (n, false) :: (k, false) :: l2) = frees a (l1 ++ (n + 8 + k, false) :: l2).
Proof. rewrite !frees_app. cbn [frees]. do 2 f_equal. lia. Qed.

(** ** Words that are not links of free blocks *)
Definition stable a bs x : Prop := forall c n, (c, n, true) ∈ blocks a bs -> x <> c + 8 /\ x <> c + 12.

Lemma stable_frees a bs x : Forall size_ok bs -> stable a bs x -> forall c, is_Some (frees a bs !! c) -> x <> c + 8 /\ x <> c + 12.
Proof. intros Hs Hx c [n Hn%frees_lookup]; [|done]. by apply (Hx c n). Qed.

(** The header of any block, and the buffer of an allocated one, hold no links. *)
Lemma head_stable a bs c n f : Forall size_ok bs -> (c, n, f) ∈ blocks a bs -> stable a bs c /\ stable a bs (c + 4).
Proof.
  intros Hs Hc. apply blocks_range in Hc as Hr; [|done]. destruct Hr as (_ & _ & Hn & _). cbn [fst] in Hn.
  split; intros c' n' Hc'; destruct (blocks_sep _ _ _ _ _ _ _ _ Hs Hc Hc') as [(-> & -> & ->)|Hd];
    apply blocks_range in Hc' as (_ & _ & _ & _ & Hn'); cbn [fst snd] in *; try done; try specialize (Hn' eq_refl); lia.
Qed.

Lemma payload_stable a bs c n x : Forall size_ok bs -> (c, n, false) ∈ blocks a bs -> c + 8 <= x < c + 8 + n -> stable a bs x.
Proof.
  intros Hs Hc Hx c' n' Hc'. destruct (blocks_sep _ _ _ _ _ _ _ _ Hs Hc Hc') as [(_ & _ & E)|Hd]; [done|].
  apply blocks_range in Hc' as (_ & _ & _ & _ & Hn'); cbn [fst snd] in *; [|done]. specialize (Hn' eq_refl). lia.
Qed.

Lemma outside_stable a bs x : Forall size_ok bs -> (x < a \/ a + total bs <= x) -> stable a bs x.
Proof.
  intros Hs Hx c n Hc. apply blocks_range in Hc as (H1 & H2 & _ & _ & H3); [|done]. cbn [fst snd] in *. specialize (H3 eq_refl). lia.
Qed.

(** ** Layouts *)
Lemma layout_mid a l1 n f l2 : layout a (l1 ++ (n, f) :: l2) ->
  Forall size_ok l1 /\ size_ok (n, f) /\ Forall size_ok l2 /\ 0 <= total l1 /\ 0 <= total l2 /\
  (a + total l1) mod 4 = 0 /\ total l1 + 8 + n + total l2 <= 2 ^ 19 /\ a + total l1 + 8 + n + total l2 <= 2 ^ 32.
Proof.
  intros HL. pose proof (lay_sizes _ _ HL) as Hs. apply Forall_app in Hs as [Hs1 Hs2]. apply Forall_cons in Hs2 as [Hn Hs2].
  pose proof (lay_end _ _ HL) as He. pose proof (lay_total _ _ HL) as Ht. rewrite total_app, total_cons in He, Ht.
  destruct (total_nonneg _ Hs1) as (T1 & _ & M1), (total_nonneg _ Hs2) as (T2 & _). destruct (lay_addr _ _ HL).
  split_and!; try done; try lia. Z.to_euclidean_division_equations. lia.
Qed.

(** A part of a layout may be replaced by blocks that fill the same space. *)
Lemma layout_replace a l1 mid mid' l2 :
  layout a (l1 ++ mid ++ l2) -> total mid' = total mid -> Forall size_ok mid' -> l2 <> [] -> layout a (l1 ++ mid' ++ l2).
Proof.
  intros HL Ht Hs Hne. pose proof (lay_sizes _ _ HL) as Hs0. rewrite !Forall_app in Hs0. destruct Hs0 as (? & ? & ?).
  split; try apply HL.
  - rewrite !total_app, Ht, <- !total_app. apply HL.
  - rewrite !total_app, Ht, <- !total_app. apply HL.
  - rewrite !Forall_app. done.
  - pose proof (lay_last _ _ HL) as Hl. destruct l2 as [|y l2 _] using rev_ind; [done|]. rewrite !app_assoc, last_snoc in *. done.
Qed.

Lemma layout_rest a l1 n l2 : layout a (l1 ++ (n, true) :: l2) -> l2 <> [].
Proof. intros HL ->. pose proof (lay_last _ _ HL) as Hl. rewrite last_snoc in Hl. done. Qed.
