(* ===== verification/MmFree.v ===== *)
(** * Freeing a block

    [pend m a l1 n f pf l2]: the region at [a] has the blocks [l1], a block of [n] bytes
    that is in no list, and the blocks [l2]; [f] and [pf] are the bits of the block and of
    its successor.  This is the state between the steps of [k_mm_free] and [k_mm_alloc].
    [k_mm_free] merges the block with its free neighbours ([merge_next], [merge_prev]) and
    links the result ([link_spec]); [keeps] says which words are not written. *)
From S2P Require Import Prelude Bitmap KTypes Mm MmBits MmList MmLayout.
Local Open Scope Z_scope.

Implicit Types (m : mm_state) (r : Z -> Z) (a b c x n k : Z) (f pf : bool) (p : option Z) (bs l : list (Z * bool)).

(** The heap with one region at [a] with the blocks [bs]. *)
Record heap m a bs : Prop := {
  heap_layout : layout a bs;
  heap_heads : heads (rd m) None a bs;
  heap_lists : exists L, flists m (frees a bs) L;
}.

(** The first block of [l2], at [e], has the bit [pf]; the others are as they should be. *)
Definition tail_heads r pf (e : Z) l2 : Prop :=
  match l2 with
  | [] => False
  | (k, f) :: l2 => r (e + 4) = enc k f pf /\ heads r (if f then Some e else None) (e + 8 + k) l2
  end.

Record pend m a l1 n f pf l2 : Prop := {
  pend_layout : layout a (l1 ++ (n, false) :: l2);
  pend_min : 8 <= n;
  pend_before : heads (rd m) None a l1;
  pend_word : rd m (a + total l1 + 4) = enc n f (has_prev (exit_prev None a l1));
  pend_prev : forall q, exit_prev None a l1 = Some q -> rd m (a + total l1) = q;
  pend_after : tail_heads (rd m) pf (a + total l1 + 8 + n) l2;
  pend_lists : exists L, flists m (frees a (l1 ++ (n, false) :: l2)) L;
}.

(** The words of [P] are not written. *)
Definition keeps (P : Z -> Prop) m m' : Prop := forall x, P x -> rd m' x = rd m x.

Lemma keeps_trans P Q m1 m2 m3 : keeps P m1 m2 -> keeps Q m2 m3 -> keeps (fun x => P x /\ Q x) m1 m3.
Proof. intros H1 H2 x [Hp Hq]. by rewrite H2, H1. Qed.

Lemma keeps_weaken (P Q : Z -> Prop) m m' : (forall x, Q x -> P x) -> keeps P m m' -> keeps Q m m'.
Proof. intros H HK x Hx. by apply HK, H. Qed.

(** ** Sizes in a layout *)
Lemma size_bsize a l1 n f l2 : layout a (l1 ++ (n, f) :: l2) -> bsize n /\ 0 <= n < 2 ^ 19.
Proof. intros HL. apply layout_mid in HL as (_ & (H1 & H2 & _) & _ & H3 & H4 & _ & H5 & _). cbn [fst] in *. unfold bsize. lia. Qed.

Lemma size_blk a l1 n f l2 : layout a (l1 ++ (n, f) :: l2) -> 8 <= n -> blk_size_ok n.
Proof. intros HL Hn. apply layout_mid in HL as (_ & (H1 & H2 & _) & _ & H3 & H4 & _ & H5 & _). cbn [fst] in *. unfold blk_size_ok. lia. Qed.

Lemma layout_flag a l1 n f f' l2 : layout a (l1 ++ (n, f) :: l2) -> l2 <> [] -> (f' = true -> 8 <= n) -> layout a (l1 ++ (n, f') :: l2).
Proof.
  intros HL Hne Hn. apply (layout_replace a l1 [(n, f)] [(n, f')] l2); [done|done| |done].
  apply layout_mid in HL as (_ & (? & ? & _) & _). by apply Forall_singleton.
Qed.

Lemma tail_nonempty r pf e l2 : tail_heads r pf e l2 -> l2 <> [].
Proof. by destruct l2. Qed.

Lemma tail_ext r r' pf e l2 :
  (forall c n f, (c, n, f) ∈ blocks e l2 -> (c <> e -> r' c = r c) /\ r' (c + 4) = r (c + 4)) -> Forall size_ok l2 -> tail_heads r pf e l2 -> tail_heads r' pf e l2.
Proof.
  destruct l2 as [|[k f] l2]; cbn [tail_heads blocks]; [done|]. intros H Hs [H1 H2]. apply Forall_cons in Hs as [Hk Hs]. split.
  - rewrite <- H1. apply (H e k f). by left.
  - eapply heads_ext, H2. intros c n g Hc. destruct (H c n g) as [Ha Hb]; [by right|]. split; [|done]. apply Ha.
    apply blocks_range in Hc as [? _]; [|done]. pose proof (proj1 Hk). cbn [fst] in *. lia.
Qed.

(** The free blocks are in the lists with the sizes of the layout, apart from each other. *)
Lemma next_blk a l1 n f l2 b : layout a (l1 ++ (n, f) :: l2) -> l2 <> [] -> b = a + total l1 ->
  NEXT_MM_BLK (buffer b) n = b + 8 + n.
Proof.
  intros HL Hne ->. pose proof (layout_mid _ _ _ _ _ HL) as (_ & (H1 & _) & H2 & H3 & _ & _ & _ & H5). cbn [fst] in *.
  destruct (total_nonneg _ H2) as (_ & Ht & _). specialize (Ht Hne). destruct (lay_addr _ _ HL).
  unfold NEXT_MM_BLK, buffer, MMLIST_HEAD_SIZE. rewrite wrap32_small; [done|]. unfold u32. lia.
Qed.

(** A block that is not linked is apart from the ones that are. *)
Lemma fresh_apart a l1 n l2 : Forall size_ok (l1 ++ (n, false) :: l2) -> 8 <= n ->
  forall x, is_Some (frees a (l1 ++ (n, false) :: l2) !! x) -> apart (a + total l1) x.
Proof.
  intros Hs Hn x [k Hk%frees_lookup]; [|done]. destruct (blocks_sep _ _ _ _ _ _ _ _ Hs (blocks_at a l1 n false l2) Hk) as [(_ & _ & ?)|Hd]; [done|].
  apply blocks_range in Hk as (_ & _ & _ & _ & Hk); cbn [fst snd] in *; [|done]. specialize (Hk eq_refl). unfold apart. lia.
Qed.

(** ** The lists, with the layout *)
Lemma link_lists m a l1 n l2 :
  layout a (l1 ++ (n, false) :: l2) -> l2 <> [] -> 8 <= n -> (exists L, flists m (frees a (l1 ++ (n, false) :: l2)) L) ->
  let m' := insert_block (a + total l1) (cls n).1 (cls n).2 m in
  (exists L, flists m' (frees a (l1 ++ (n, true) :: l2)) L) /\ keeps (stable a (l1 ++ (n, true) :: l2)) m m'.
Proof.
  intros HL Hne Hn [L HF]. pose proof (layout_flag _ _ _ _ true _ HL Hne (fun _ => Hn)) as HL'.
  pose proof (layout_mid _ _ _ _ _ HL) as (_ & _ & _ & Ht & _). pose proof (lay_addr _ _ HL) as [Ha _].
  pose proof (fresh_apart a _ _ _ (lay_sizes _ _ HL) Hn) as Hfr. pose proof (size_blk _ _ _ _ _ HL Hn) as Hk.
  cbv zeta. split.
  - eexists. rewrite <- frees_link by apply HL'. eapply insert_flists; [exact HF|lia|exact Hk|exact Hfr].
  - intros x Hx. eapply insert_frame; [exact HF|exact Hk|exact Hfr|..].
    + apply (Hx _ n), blocks_at.
    + apply (Hx _ n), blocks_at.
    + intros y Hy. apply (stable_frees a (l1 ++ (n, true) :: l2)); [apply HL'|done|].
      rewrite <- frees_link by apply HL'. apply lookup_insert_is_Some'. by right.
Qed.

Lemma unlink_lists m a l1 n l2 :
  layout a (l1 ++ (n, true) :: l2) -> (exists L, flists m (frees a (l1 ++ (n, true) :: l2)) L) ->
  let m' := get_block (a + total l1) (cls n).1 (cls n).2 m in
  (exists L, flists m' (frees a (l1 ++ (n, false) :: l2)) L) /\ keeps (stable a (l1 ++ (n, true) :: l2)) m m'.
Proof.
  intros HL [L HF]. assert (frees a (l1 ++ (n, true) :: l2) !! (a + total l1) = Some n) as Hl by (apply frees_lookup; [apply HL|apply blocks_at]).
  cbv zeta. split.
  - eexists. rewrite <- frees_unlink by apply HL. eapply get_flists; done.
  - intros x Hx. eapply get_frame; [done..|]. apply stable_frees; [apply HL|done].
Qed.

(** ** Words of a layout *)
Lemma lists_wr m a bs x v :
  Forall size_ok bs -> stable a bs x -> (exists L, flists m (frees a bs) L) -> exists L, flists (wr x v m) (frees a bs) L.
Proof.
  intros Hs Hx [L HF]. exists L. eapply flists_frame, HF; [|done..]. intros y Hy. destruct (stable_frees _ _ _ Hs Hx y Hy).
  by rewrite !rd_wr_ne by congruence.
Qed.

Lemma total_snoc l n f : total (l ++ [(n, f)]) = total l + 8 + n.
Proof. rewrite total_app, total_cons. change (total []) with 0. lia. Qed.

(** Headers before and behind a block: where they are, and that they are not links. *)
Lemma before_words a l1 l2 c k g : Forall size_ok (l1 ++ l2) -> (c, k, g) ∈ blocks a l1 ->
  c + 8 <= a + total l1 /\ stable a (l1 ++ l2) c /\ stable a (l1 ++ l2) (c + 4).
Proof.
  intros Hs Hc. assert ((c, k, g) ∈ blocks a (l1 ++ l2)) as Hc' by (rewrite blocks_app; apply elem_of_app; by left).
  apply Forall_app in Hs as Hs'. destruct Hs' as [Hs1 _]. apply blocks_range in Hc as (_ & H1 & (H2 & _)); [|done]. cbn [fst] in *.
  split; [lia|]. by eapply head_stable.
Qed.

Lemma behind_words a l1 l2 c k g : Forall size_ok (l1 ++ l2) -> (c, k, g) ∈ blocks (a + total l1) l2 ->
  a + total l1 <= c /\ stable a (l1 ++ l2) c /\ stable a (l1 ++ l2) (c + 4).
Proof.
  intros Hs Hc. assert ((c, k, g) ∈ blocks a (l1 ++ l2)) as Hc' by (rewrite blocks_app; apply elem_of_app; by right).
  apply Forall_app in Hs as Hs'. destruct Hs' as [_ Hs2]. apply blocks_range in Hc as (H1 & _); [|done].
  split; [lia|]. by eapply head_stable.
Qed.

(** The words of [k_mm_free] and [k_mm_alloc] that are sizes. *)
Lemma pend_size m a l1 n f pf l2 : pend m a l1 n f pf l2 -> blksize m (a + total l1) = n.
Proof. intros HP. unfold blksize, b_size. rewrite (pend_word _ _ _ _ _ _ _ HP). apply enc_size. eapply size_bsize, HP. Qed.

Lemma pend_next m a l1 n f pf k g l2 : pend m a l1 n f pf ((k, g) :: l2) ->
  NEXT_MM_BLK (buffer (a + total l1)) n = a + total l1 + 8 + n /\ blksize m (a + total l1 + 8 + n) = k /\
  Z.land (b_size m (a + total l1 + 8 + n)) RHINO_MM_FREE = Z.b2z g /\ bsize k /\ 0 <= k < 2 ^ 19.
Proof.
  intros HP. pose proof (pend_layout _ _ _ _ _ _ _ HP) as HL. destruct (pend_after _ _ _ _ _ _ _ HP) as [E _].
  replace (l1 ++ (n, false) :: (k, g) :: l2) with ((l1 ++ [(n, false)]) ++ (k, g) :: l2) in HL by (by rewrite <- app_assoc).
  destruct (size_bsize _ _ _ _ _ HL) as [Hk1 Hk2]. unfold blksize, b_size. rewrite E, enc_size, enc_free by done.
  split_and!; try done; try apply Hk1; try apply Hk2. eapply next_blk; [apply HP|done|done].
Qed.

(** ** The steps of [k_mm_free] *)

(** Two neighbours that are in no list become one block, whose size word is written. *)
Lemma merge_words m m1 a l1 n f1 k f2 pf l2 :
  layout a (l1 ++ (n, f1) :: (k, f2) :: l2) -> l2 <> [] -> heads (rd m) None a l1 ->
  (forall q, exit_prev None a l1 = Some q -> rd m (a + total l1) = q) ->
  tail_heads (rd m) pf (a + total l1 + 8 + (n + 8 + k)) l2 ->
  (exists L, flists m1 (frees a (l1 ++ (n, false) :: (k, false) :: l2)) L) ->
  keeps (stable a (l1 ++ (n, f1) :: (k, f2) :: l2)) m m1 ->
  let m2 := set_b_size (a + total l1) (enc (n + 8 + k) true (has_prev (exit_prev None a l1))) m1 in
  pend m2 a l1 (n + 8 + k) true pf l2 /\
  keeps (fun x => stable a (l1 ++ (n, f1) :: (k, f2) :: l2) x /\ x <> a + total l1 + 4) m m2.
Proof.
  intros HL Hne Hh Hpr Ht Hl K1. cbv zeta. set (b := a + total l1) in *. pose proof (lay_sizes _ _ HL) as Hs.
  set (w := enc _ _ _). set (bs := l1 ++ (n, f1) :: (k, f2) :: l2) in *.
  assert (forall x, stable a bs x -> x <> b + 4 -> rd (set_b_size b w m1) x = rd m x) as K2
    by (intros x Hx Hx4; unfold set_b_size; by rewrite rd_wr_ne, K1).
  assert (layout a (l1 ++ (n + 8 + k, false) :: l2)) as HL'.
  { apply (layout_replace a l1 [(n, f1); (k, f2)] [(n + 8 + k, false)] l2); [done| | |done].
    - rewrite !total_cons. change (total []) with 0. lia.
    - apply Forall_app in Hs as [_ (H1 & (H2 & _)%Forall_cons)%Forall_cons]. destruct H1 as (? & ? & _), H2 as (? & ? & _). cbn [fst] in *.
      apply Forall_singleton. split_and!; cbn [fst snd]; [lia| |done]. Z.to_euclidean_division_equations. lia. }
  apply Forall_app in Hs as Hs'. destruct Hs' as [_ (Hn1 & (Hk1 & Hs2)%Forall_cons)%Forall_cons]. pose proof (proj1 Hn1) as Hn0. pose proof (proj1 Hk1) as Hk0. cbn [fst] in Hn0, Hk0.
  split; [|intros x [Hx1 Hx2]; by apply K2]. split; [done|lia| |apply rd_wr_eq| | |].
  - eapply heads_ext, Hh. intros c q g Hc. destruct (before_words _ _ _ _ _ _ Hs Hc) as (Hr & ? & ?). fold b in Hr. split; apply K2; try done; lia.
  - intros q Hq. fold b. rewrite K2; [by apply Hpr|apply (head_stable a bs b n f1 Hs), blocks_at|lia].
  - apply (tail_ext (rd m)); [|done|done]. intros c q g Hc.
    assert (bs = (l1 ++ [(n, f1); (k, f2)]) ++ l2) as Eb by (unfold bs; by rewrite <- app_assoc).
    assert (a + total (l1 ++ [(n, f1); (k, f2)]) = b + 8 + (n + 8 + k)) as Et by (rewrite total_app, !total_cons; change (total []) with 0; unfold b; lia).
    rewrite Eb in Hs. fold b in Hc. rewrite <- Et in Hc. destruct (behind_words _ _ _ _ _ _ Hs Hc) as (Hr & S1 & S2). rewrite <- Eb in S1, S2.
    rewrite Et in Hr. split; [intros _|]; apply K2; try done; lia.
  - rewrite frees_merge in Hl. apply lists_wr; [apply HL'|apply (head_stable a _ b (n + 8 + k) false (lay_sizes _ _ HL')), blocks_at|done].
Qed.

Lemma wrap_enc n f pf : 0 <= n < 2 ^ 19 + 8 -> wrap32 (enc n f pf) = enc n f pf.
Proof. intros Hn. apply wrap32_small. unfold u32, enc, Z.b2z. destruct f, pf; lia. Qed.

(** The block takes in the free block behind it. *)
Lemma merge_next m a l1 n k pf l2 :
  pend m a l1 n true pf ((k, true) :: l2) ->
  let b := a + total l1 in let tmp_b := b + 8 + n in
  let m1 := get_block tmp_b (cls k).1 (cls k).2 m in
  let m2 := set_b_size b (wrap32 (b_size m1 b + (blksize m1 tmp_b + MMLIST_HEAD_SIZE))) m1 in
  pend m2 a l1 (n + 8 + k) true true l2 /\
  keeps (fun x => stable a (l1 ++ (n, false) :: (k, true) :: l2) x /\ x <> b + 4) m m2.
Proof.
  intros HP. cbv zeta. set (b := a + total l1). set (e := b + 8 + n). pose proof (pend_layout _ _ _ _ _ _ _ HP) as HL.
  assert (l1 ++ (n, false) :: (k, true) :: l2 = (l1 ++ [(n, false)]) ++ (k, true) :: l2) as Eb by (by rewrite <- app_assoc).
  assert (a + total (l1 ++ [(n, false)]) = e) as Ee by (rewrite total_snoc; unfold e, b; lia).
  pose proof HL as HL'. rewrite Eb in HL'. pose proof (layout_rest _ _ _ _ HL') as Hne. pose proof (pend_lists _ _ _ _ _ _ _ HP) as Hl. rewrite Eb in Hl.
  destruct (unlink_lists m a _ k l2 HL' Hl) as [Hl1 K1]. rewrite Ee in Hl1, K1. rewrite <- Eb in K1. rewrite <- app_assoc in Hl1. cbn [app] in Hl1.
  set (m1 := get_block e (cls k).1 (cls k).2 m) in *. pose proof (lay_sizes _ _ HL) as Hs.
  destruct (head_stable a _ b n false Hs (blocks_at _ _ _ _ _)) as [_ Sb4].
  destruct (head_stable a (l1 ++ (n, false) :: (k, true) :: l2) e k true Hs) as [_ Se4]; [rewrite Eb, <- Ee; apply blocks_at|].
  destruct (pend_after _ _ _ _ _ _ _ HP) as [We Hte]. fold b e in We, Hte. pose proof (pend_word _ _ _ _ _ _ _ HP) as Wb. fold b in Wb.
  destruct (size_bsize _ _ _ _ _ HL') as [Bk Rk]. destruct (layout_mid _ _ _ _ _ HL) as (_ & (Rn & _) & _ & T1 & _ & _ & Tt & _).
  destruct (layout_mid _ _ _ _ _ HL') as (_ & _ & _ & _ & T2 & _). rewrite total_cons in Tt. cbn [fst] in Rn.
  assert (wrap32 (b_size m1 b + (blksize m1 e + MMLIST_HEAD_SIZE)) = enc (n + 8 + k) true (has_prev (exit_prev None a l1))) as ->.
  { unfold blksize, b_size. rewrite !K1, We, Wb, enc_size by done. rewrite <- (wrap_enc (n + 8 + k)) by lia. f_equal. unfold enc, MMLIST_HEAD_SIZE. lia. }
  apply merge_words; [done|done|apply HP|apply HP| |done|done]. fold b. replace (b + 8 + (n + 8 + k)) with (e + 8 + k) by (unfold e; lia).
  destruct l2 as [|[k2 f2] l2]; [done|]. cbn [heads] in Hte. destruct Hte as (W2 & Hf2 & Hh2). by split.
Qed.

(** The block is taken in by the free block before it. *)
Lemma merge_prev m a l1 n k pf l2 :
  pend m a (l1 ++ [(k, true)]) n true pf l2 ->
  let b := a + total l1 + 8 + k in let tmp_b := a + total l1 in
  let m1 := get_block tmp_b (cls k).1 (cls k).2 m in
  let m2 := set_b_size tmp_b (wrap32 (b_size m1 tmp_b + (blksize m1 b + MMLIST_HEAD_SIZE))) m1 in
  pend m2 a l1 (k + 8 + n) true pf l2 /\ exit_prev None a l1 = None /\ b_prev m b = tmp_b /\ blksize m tmp_b = k /\
  keeps (fun x => stable a (l1 ++ (k, true) :: (n, false) :: l2) x /\ x <> tmp_b + 4) m m2.
Proof.
  intros HP. cbv zeta. set (c := a + total l1). set (b := c + 8 + k). pose proof (pend_layout _ _ _ _ _ _ _ HP) as HL.
  assert ((l1 ++ [(k, true)]) ++ (n, false) :: l2 = l1 ++ (k, true) :: (n, false) :: l2) as Eb by (by rewrite <- app_assoc).
  assert (a + total (l1 ++ [(k, true)]) = b) as Ee by (rewrite total_snoc; unfold b, c; lia).
  pose proof HL as HL'. rewrite Eb in HL'. pose proof (tail_nonempty _ _ _ _ (pend_after _ _ _ _ _ _ _ HP)) as Hne.
  pose proof (pend_lists _ _ _ _ _ _ _ HP) as Hl. rewrite Eb in Hl. destruct (unlink_lists m a l1 k _ HL' Hl) as [Hl1 K1]. fold c in Hl1, K1.
  set (m1 := get_block c (cls k).1 (cls k).2 m) in *. pose proof (lay_sizes _ _ HL') as Hs.
  destruct (head_stable a _ c k true Hs (blocks_at _ _ _ _ _)) as [_ Sc4].
  destruct (head_stable a (l1 ++ (k, true) :: (n, false) :: l2) b n false Hs) as [_ Sb4]; [rewrite <- Eb, <- Ee; apply blocks_at|].
  pose proof (pend_before _ _ _ _ _ _ _ HP) as Hb. apply heads_app in Hb as [Hb1 (Wc & Hpr & _)]. fold c in Wc, Hpr.
  pose proof (pend_word _ _ _ _ _ _ _ HP) as Wb. rewrite Ee in Wb. pose proof (pend_prev _ _ _ _ _ _ _ HP) as Pb. rewrite Ee, exit_prev_snoc in Pb. specialize (Pb _ eq_refl).
  destruct (size_bsize _ _ _ _ _ HL') as [Bk Rk]. destruct (size_bsize _ _ _ _ _ HL) as [Bn Rn].
  destruct (layout_mid _ _ _ _ _ HL) as (_ & _ & _ & _ & T2 & _ & Tt & _). destruct (layout_mid _ _ _ _ _ HL') as (_ & _ & _ & T1 & _). rewrite total_snoc in Tt.
  assert (exit_prev None a l1 = None) as Ex by (destruct (exit_prev None a l1) as [q|]; [by destruct (Hpr q eq_refl)|done]).
  assert (wrap32 (b_size m1 c + (blksize m1 b + MMLIST_HEAD_SIZE)) = enc (k + 8 + n) true (has_prev (exit_prev None a l1))) as ->.
  { unfold blksize, b_size. rewrite !K1, Wc, Wb, enc_size by done. rewrite <- (wrap_enc (k + 8 + n)) by lia. f_equal. unfold enc, MMLIST_HEAD_SIZE. lia. }
  destruct (merge_words m m1 a l1 k true n false pf l2) as [HP' HK]; try done.
  - by rewrite Ex.
  - pose proof (pend_after _ _ _ _ _ _ _ HP) as Ht. rewrite Ee in Ht. fold c. by replace (c + 8 + (k + 8 + n)) with (b + 8 + n) by (unfold b; lia).
  - split_and!; [exact HP'|done|exact Pb| |exact HK]. unfold blksize, b_size. by rewrite Wc, enc_size.
Qed.

(** The block is linked, and its successor told. *)
Lemma link_spec m a l1 n pf k l2 :
  pend m a l1 n true pf ((k, false) :: l2) -> exit_prev None a l1 = None ->
  let b := a + total l1 in let e := b + 8 + n in
  let m1 := insert_block b (cls n).1 (cls n).2 m in
  let m2 := set_b_prev e b (set_b_size e (Z.lor (b_size m1 e) RHINO_MM_PREVFREE) m1) in
  heap m2 a (l1 ++ (n, true) :: (k, false) :: l2) /\ blksize m1 b = n /\
  keeps (fun x => stable a (l1 ++ (n, true) :: (k, false) :: l2) x /\ x <> e /\ x <> e + 4) m m2.
Proof.
  intros HP Hx. cbv zeta. set (b := a + total l1). set (e := b + 8 + n). pose proof (pend_layout _ _ _ _ _ _ _ HP) as HL.
  set (bs := l1 ++ (n, true) :: (k, false) :: l2). pose proof (pend_min _ _ _ _ _ _ _ HP) as Hn.
  assert (layout a bs) as HL' by (by eapply layout_flag).
  destruct (link_lists m a l1 n _ HL ltac:(done) Hn (pend_lists _ _ _ _ _ _ _ HP)) as [Hl K1]. fold b bs in Hl, K1.
  set (m1 := insert_block b (cls n).1 (cls n).2 m) in *. pose proof (lay_sizes _ _ HL') as Hs.
  assert (bs = (l1 ++ [(n, true)]) ++ (k, false) :: l2) as Eb by (unfold bs; by rewrite <- app_assoc).
  assert (a + total (l1 ++ [(n, true)]) = e) as Ee by (rewrite total_snoc; unfold e, b; lia).
  destruct (head_stable a bs b n true Hs (blocks_at _ _ _ _ _)) as [Sb Sb4].
  destruct (head_stable a bs e k false Hs) as [Se Se4]; [rewrite Eb, <- Ee; apply blocks_at|].
  destruct (pend_after _ _ _ _ _ _ _ HP) as [We Hte]. fold b e in We, Hte. pose proof (pend_word _ _ _ _ _ _ _ HP) as Wb. fold b in Wb.
  destruct (size_bsize a _ _ _ _ ltac:(by rewrite Eb in HL')) as [Bk Rk]. destruct (size_bsize _ _ _ _ _ HL) as [Bn Rn].
  assert (Z.lor (b_size m1 e) RHINO_MM_PREVFREE = enc k false true) as -> by (unfold b_size; by rewrite K1, We, enc_set_prev).
  unfold set_b_prev, set_b_size.
  assert (forall x, stable a bs x -> x <> e -> x <> e + 4 -> rd (wr e b (wr (e + 4) (enc k false true) m1)) x = rd m x) as K2 by (intros; by rewrite !rd_wr_ne, K1).
  split_and!; [|unfold blksize, b_size; by rewrite K1, Wb, enc_size|intros x (? & ? & ?); by apply K2]. split; [done| |by repeat apply lists_wr].
  unfold bs. apply heads_app. split.
  - eapply heads_ext, (pend_before _ _ _ _ _ _ _ HP). intros c q g Hc. destruct (before_words _ _ _ _ _ _ Hs Hc) as (Hr & ? & ?). fold b in Hr.
    split; apply K2; try done; unfold e; lia.
  - rewrite Hx. fold b. cbn [heads has_prev]. fold e. split_and!; [|done| |intros q [= <-]; split; [by rewrite rd_wr_eq|done]|].
    + rewrite K2, Wb, Hx by (done || unfold e; lia). done.
    + rewrite rd_wr_ne, rd_wr_eq by lia. done.
    + eapply heads_ext, Hte. intros c q g Hc.
      assert (bs = (l1 ++ [(n, true); (k, false)]) ++ l2) as Eb2 by (unfold bs; by rewrite <- app_assoc).
      assert (a + total (l1 ++ [(n, true); (k, false)]) = e + 8 + k) as Et by (rewrite total_app, !total_cons; change (total []) with 0; unfold e, b; lia).
      rewrite Eb2 in Hs. rewrite <- Et in Hc. destruct (behind_words _ _ _ _ _ _ Hs Hc) as (Hr & S1 & S2). rewrite <- Eb2 in S1, S2. rewrite Et in Hr.
      split; apply K2; try done; lia.
Qed.

(** ** What a client owns *)

(** Words outside the region, and words in the buffers of allocated blocks. *)
Definition payload a bs x : Prop :=
  (x < a \/ a + total bs <= x) \/ exists c k, (c, k, false) ∈ blocks a bs /\ c + 8 <= x < c + 8 + k.

Lemma payload_words a bs x : Forall size_ok bs -> payload a bs x ->
  stable a bs x /\ forall c k g, (c, k, g) ∈ blocks a bs -> x <> c /\ x <> c + 4.
Proof.
  intros Hs [Hx|(c & k & Hc & Hx)].
  - split; [by apply outside_stable|]. intros c k g Hc. apply blocks_range in Hc as (? & ? & ? & _); [|done]. cbn [fst] in *. lia.
  - split; [by eapply payload_stable|]. intros c' k' g Hc'. destruct (blocks_sep _ _ _ _ _ _ _ _ Hs Hc Hc') as [(-> & _)|Hd]; [lia|].
    apply blocks_range in Hc' as (_ & _ & ? & _); [|done]. cbn [fst] in *. lia.
Qed.

Lemma blocks_pair a l1 n f l2 c k g :
  (c, k, g) ∈ blocks a (l1 ++ (n, f) :: l2) <->
  (c, k, g) ∈ blocks a l1 \/ (c, k, g) = (a + total l1, n, f) \/ (c, k, g) ∈ blocks (a + total l1 + 8 + n) l2.
Proof. rewrite blocks_app, elem_of_app. cbn [blocks]. by rewrite elem_of_cons. Qed.

Lemma stable_flag a l1 n l2 x : stable a (l1 ++ (n, true) :: l2) x -> stable a (l1 ++ (n, false) :: l2) x.
Proof. intros H c k Hc. apply (H c k). apply blocks_pair in Hc as [?|[[=]|?]]; apply blocks_pair; auto. Qed.

Lemma payload_merge a l1 n k l2 x : payload a (l1 ++ (n, true) :: (k, true) :: l2) x <-> payload a (l1 ++ (n + 8 + k, true) :: l2) x.
Proof.
  unfold payload. rewrite !total_app, !total_cons. replace (8 + n + (8 + k + total l2)) with (8 + (n + 8 + k) + total l2) by lia.
  setoid_rewrite blocks_pair. cbn [blocks]. setoid_rewrite elem_of_cons. replace (a + total l1 + 8 + n + 8 + k) with (a + total l1 + 8 + (n + 8 + k)) by lia.
  naive_solver.
Qed.

Lemma payload_flag a l1 n l2 x : payload a (l1 ++ (n, true) :: l2) x -> payload a (l1 ++ (n, false) :: l2) x.
Proof. unfold payload. rewrite !total_app, !total_cons. setoid_rewrite blocks_pair. naive_solver. Qed.

(** ** [k_mm_free] *)

(** What freeing the block of [n] bytes between [l1] and [l2] does to the layout. *)
Definition coalesce l1 n l2 : list (Z * bool) :=
  let '(n, l2) := match l2 with (k, true) :: l2 => (n + 8 + k, l2) | _ => (n, l2) end in
  let '(l1, n) := match rev l1 with (k, true) :: l1 => (rev l1, k + 8 + n) | _ => (l1, n) end in
  l1 ++ (n, true) :: l2.

Lemma free_mark m a l1 n pf l2 :
  pend m a l1 n false pf l2 ->
  let m' := set_b_size (a + total l1) (Z.lor (b_size m (a + total l1)) RHINO_MM_FREE) m in
  pend m' a l1 n true pf l2 /\ keeps (fun x => x <> a + total l1 + 4) m m'.
Proof.
  intros HP. cbv zeta. set (b := a + total l1). unfold set_b_size. pose proof (pend_layout _ _ _ _ _ _ _ HP) as HL. pose proof (lay_sizes _ _ HL) as Hs.
  assert (forall v, keeps (fun x => x <> b + 4) m (wr (b + 4) v m)) as K by (intros v x Hx; by apply rd_wr_ne). split; [|done].
  destruct (layout_mid _ _ _ _ _ HL) as (_ & (Hn & _) & Hs2 & _). cbn [fst] in Hn. split; try apply HP.
  - eapply heads_ext, (pend_before _ _ _ _ _ _ _ HP). intros c q g Hc. destruct (before_words _ _ _ _ _ _ Hs Hc) as (Hr & _). fold b in Hr. split; apply K; lia.
  - fold b. rewrite rd_wr_eq. unfold b_size. pose proof (pend_word _ _ _ _ _ _ _ HP) as W. fold b in W. rewrite W, enc_set_free; [done|]. by eapply size_bsize.
  - intros q Hq. fold b. rewrite K by lia. by apply (pend_prev _ _ _ _ _ _ _ HP).
  - eapply tail_ext, (pend_after _ _ _ _ _ _ _ HP); [|done]. fold b. intros c q g Hc. apply blocks_range in Hc as [Hr _]; [|done]. split; [intros _|]; apply K; lia.
  - apply lists_wr; [done| |apply HP]. eapply (head_stable a _ b n false Hs), blocks_at.
Qed.

(** The middle of [k_mm_free], by the two neighbours. *)
Definition free_next_step b m : mm_state :=
  let tmp_b := NEXT_MM_BLK (buffer b) (blksize m b) in
  if negb (Z.land (b_size m tmp_b) RHINO_MM_FREE =? 0) then
    let '(_, fl, sl) := bitmap_search (blksize m tmp_b) ACTION_INSERT in
    let m := get_block tmp_b fl sl m in
    set_b_size b (wrap32 (b_size m b + (blksize m tmp_b + MMLIST_HEAD_SIZE))) m
  else m.

Definition free_prev_step b m : Z * mm_state :=
  if negb (Z.land (b_size m b) RHINO_MM_PREVFREE =? 0) then
    let tmp_b := b_prev m b in
    let '(_, fl, sl) := bitmap_search (blksize m tmp_b) ACTION_INSERT in
    let m := get_block tmp_b fl sl m in
    (tmp_b, set_b_size tmp_b (wrap32 (b_size m tmp_b + (blksize m b + MMLIST_HEAD_SIZE))) m)
  else (b, m).

Definition free_link_step b m : mm_state :=
  let '(_, fl, sl) := bitmap_search (blksize m b) ACTION_INSERT in
  let m := insert_block b fl sl m in
  let tmp_b := NEXT_MM_BLK (buffer b) (blksize m b) in
  let m := set_b_size tmp_b (Z.lor (b_size m tmp_b) RHINO_MM_PREVFREE) m in
  set_b_prev tmp_b b m.

Lemma k_mm_free_steps b m : b + 8 <> NULL ->
  k_mm_free (b + 8) m =
    let m := set_b_size b (Z.lor (b_size m b) RHINO_MM_FREE) m in
    let '(b, m) := free_prev_step b (free_next_step b m) in free_link_step b m.
Proof. intros Hb. unfold k_mm_free. rewrite (proj2 (Z.eqb_neq _ _) Hb). by replace (b + 8 - MMLIST_HEAD_SIZE) with b by (unfold MMLIST_HEAD_SIZE; lia). Qed.

Lemma free_next_spec m a l1 n pf l2 :
  pend m a l1 n true pf l2 ->
  exists n' pf' k l2', (match l2 with (k, true) :: l2 => (n + 8 + k, l2) | _ => (n, l2) end) = (n', (k, false) :: l2') /\
  pend (free_next_step (a + total l1) m) a l1 n' true pf' ((k, false) :: l2') /\
  keeps (payload a (l1 ++ (n, true) :: l2)) m (free_next_step (a + total l1) m) /\
  (forall x, payload a (l1 ++ (n, true) :: l2) x <-> payload a (l1 ++ (n', true) :: (k, false) :: l2') x).
Proof.
  intros HP. destruct l2 as [|[k g] l2]; [by destruct (pend_after _ _ _ _ _ _ _ HP)|]. unfold free_next_step.
  rewrite (pend_size _ _ _ _ _ _ _ HP). destruct (pend_next _ _ _ _ _ _ _ _ _ HP) as (-> & -> & -> & Hk & Rk). destruct g; cbn [Z.b2z Z.eqb negb].
  - cbv zeta. rewrite bitmap_search_insert by done. destruct (merge_next _ _ _ _ _ _ _ HP) as [HP' HK]. cbv zeta in HP', HK. cbn [fst snd] in HP', HK |- *.
    pose proof (pend_after _ _ _ _ _ _ _ HP) as [_ Hte]. destruct l2 as [|[k2 f2] l2]; [by apply pend_after in HP'|]. destruct Hte as (_ & Hf2 & _).
    destruct (Hf2 _ eq_refl) as [_ ->]. exists (n + 8 + k), true, k2, l2. split_and!; [done|exact HP'| |intros x; apply payload_merge].
    eapply keeps_weaken, HK. intros x Hx. apply payload_words in Hx as [H1 H2].
    2:{ eapply lay_sizes, layout_flag; [apply HP|done|]. intros _. apply HP. }
    split; [by apply stable_flag|]. eapply H2, blocks_at.
  - exists n, pf, k, l2. by split_and!.
Qed.

Lemma free_prev_spec m a l1 n pf k l2 :
  pend m a l1 n true pf ((k, false) :: l2) ->
  exists l1' n', (match rev l1 with (k, true) :: l1 => (rev l1, k + 8 + n) | _ => (l1, n) end) = (l1', n') /\
  exists m', free_prev_step (a + total l1) m = (a + total l1', m') /\
  pend m' a l1' n' true pf ((k, false) :: l2) /\ exit_prev None a l1' = None /\
  keeps (payload a (l1 ++ (n, true) :: (k, false) :: l2)) m m' /\
  (forall x, payload a (l1 ++ (n, true) :: (k, false) :: l2) x <-> payload a (l1' ++ (n', true) :: (k, false) :: l2) x).
Proof.
  intros HP. unfold free_prev_step, b_size. rewrite (pend_word _ _ _ _ _ _ _ HP), enc_prev by (eapply size_bsize, HP).
  destruct l1 as [|[k0 g] l1 _] using rev_ind; [|rewrite rev_app_distr, exit_prev_snoc; cbn [rev app]; destruct g]; cbn [exit_prev has_prev].
  1,3: eexists _, _; split; [done|]; eexists; (split_and!; [done|exact HP|by rewrite ?exit_prev_snoc|done|done]).
  rewrite rev_involutive. eexists _, _. split; [done|]. destruct (merge_prev _ _ _ _ _ _ _ HP) as (HP' & Hx & Hb & Hk & HK). cbv zeta in *.
  replace (a + total (l1 ++ [(k0, true)])) with (a + total l1 + 8 + k0) by (rewrite total_snoc; lia). cbn [Z.b2z Z.eqb negb Z.mul]. rewrite Hb, Hk.
  pose proof (pend_layout _ _ _ _ _ _ _ HP) as HL. rewrite <- app_assoc in HL |- *. cbn [app] in HL |- *. rewrite bitmap_search_insert by (by eapply size_bsize).
  eexists. split; [reflexivity|]. cbn [fst snd]. split_and!; [exact HP'|done| |intros x; apply payload_merge].
  eapply keeps_weaken, HK. intros x Hx'. apply payload_words in Hx' as [H1 H2].
  2:{ change ((k0, true) :: (n, true) :: (k, false) :: l2) with ([(k0, true)] ++ (n, true) :: (k, false) :: l2). rewrite app_assoc.
      eapply lay_sizes, layout_flag; [apply HP|done|]. intros _. apply HP. }
  split; [|eapply H2, blocks_at]. change ((k0, true) :: (n, true) :: (k, false) :: l2) with ([(k0, true)] ++ (n, true) :: (k, false) :: l2) in H1.
  rewrite app_assoc in H1. apply stable_flag in H1. by rewrite <- app_assoc in H1.
Qed.

(** A block is merged with its free neighbours and linked; no word of another client is written. *)
Lemma free_pend m a l1 n pf l2 :
  pend m a l1 n false pf l2 ->
  let m' := k_mm_free (a + total l1 + 8) m in
  heap m' a (coalesce l1 n l2) /\ keeps (payload a (l1 ++ (n, true) :: l2)) m m' /\
  (forall x, payload a (l1 ++ (n, true) :: l2) x <-> payload a (coalesce l1 n l2) x).
Proof.
  intros HP. cbv zeta. pose proof (pend_layout _ _ _ _ _ _ _ HP) as HL. pose proof (tail_nonempty _ _ _ _ (pend_after _ _ _ _ _ _ _ HP)) as Hne.
  assert (forall x, payload a (l1 ++ (n, true) :: l2) x -> x <> a + total l1 + 4) as H0.
  { intros x Hx. apply payload_words in Hx as [_ H2]; [eapply H2, blocks_at|]. eapply lay_sizes, layout_flag; [done..|]. intros _. apply HP. }
  rewrite k_mm_free_steps by (destruct (layout_mid _ _ _ _ _ HL) as (_ & _ & _ & ? & _), (lay_addr _ _ HL); unfold NULL; lia).
  destruct (free_mark _ _ _ _ _ _ HP) as [HP1 K1]. cbv zeta in *. revert HP1 K1. generalize (set_b_size (a + total l1) (Z.lor (b_size m (a + total l1)) RHINO_MM_FREE) m).
  intros m1 HP1 K1. destruct (free_next_spec _ _ _ _ _ _ HP1) as (n2 & pf2 & k & l2' & E2 & HP2 & K2 & P2). revert HP2 K2. generalize (free_next_step (a + total l1) m1).
  intros m2 HP2 K2. destruct (free_prev_spec _ _ _ _ _ _ _ HP2) as (l3 & n3 & E3 & m3 & Em3 & HP3 & Hx3 & K3 & P3).
  unfold coalesce. rewrite E2, E3, Em3. unfold free_link_step. rewrite (pend_size _ _ _ _ _ _ _ HP3).
  destruct (size_bsize _ _ _ _ _ (pend_layout _ _ _ _ _ _ _ HP3)) as [_ R3]. rewrite bitmap_search_insert by done.
  destruct (link_spec _ _ _ _ _ _ _ HP3 Hx3) as (HH & Hsz & K4). cbv zeta in *. rewrite Hsz.
  destruct (pend_next _ _ _ _ _ _ _ _ _ HP3) as (En & _). cbn [fst snd]. rewrite En. split_and!; [exact HH| |intros x; by rewrite P2, P3].
  intros x Hx. rewrite K4, K3, K2, K1; try done; [by apply H0|by apply P2|].
  assert (payload a (l3 ++ (n3, true) :: (k, false) :: l2') x) as Hx3' by (apply P3, P2, Hx). apply payload_words in Hx3' as [H1 H2]; [|apply HH].
  split; [done|]. apply (H2 (a + total l3 + 8 + n3) k false). apply blocks_pair. right; right. by left.
Qed.

Lemma heap_pend m a l1 n l2 : heap m a (l1 ++ (n, false) :: l2) -> 8 <= n -> pend m a l1 n false false l2.
Proof.
  intros [HL Hh Hl] Hn. apply heads_app in Hh as [Hh1 (W & Hp & Hh2)]. split; try done.
  - intros q Hq. by destruct (Hp q Hq).
  - destruct l2 as [|[k g] l2]; [|by destruct Hh2 as (? & _ & ?)]. pose proof (lay_last _ _ HL) as E. rewrite last_snoc in E. injection E as ->. lia.
Qed.

(** [k_mm_free] on an allocated block. *)
Lemma free_spec m a l1 n l2 :
  heap m a (l1 ++ (n, false) :: l2) -> 8 <= n ->
  let m' := k_mm_free (a + total l1 + 8) m in
  heap m' a (coalesce l1 n l2) /\ keeps (payload a (l1 ++ (n, true) :: l2)) m m' /\
  (forall x, payload a (l1 ++ (n, true) :: l2) x <-> payload a (coalesce l1 n l2) x).
Proof. intros HH Hn. by eapply free_pend, heap_pend. Qed.
