(* ===== verification/MmAlloc.v ===== *)
(** * Allocating a block

    [findblk_spec]: the search finds the head of the first list that is not empty from a
    class on.  [alloc_spec]: [k_mm_alloc] fails exactly when there is no free block of at least
    [search_size] of the request, and otherwise returns a free block that is large enough,
    cut to the size when the rest can hold a block. *)
From S2P Require Import Prelude Bitmap KTypes Mm MmBits MmList MmLayout MmFree.
Local Open Scope Z_scope.

Implicit Types (m : mm_state) (a b c x n k s : Z) (f pf : bool) (bs l : list (Z * bool)).

(** ** The search *)
Lemma sl_zero m F L fl : flists m F L -> 0 <= fl < FLT_SIZE -> sl_of m fl = 0 -> forall sl, 0 <= sl < SLT_SIZE -> L fl sl = [].
Proof.
  intros HF Hf E sl Hs. pose proof (fl_sl_bit _ _ _ HF fl sl (conj Hf Hs)) as Hb. rewrite E, Z.testbit_0_l in Hb.
  case_bool_decide; [done|]. done.
Qed.

(** The first list of a row from a class on. *)
Lemma row_search m F L fl sl w :
  flists m F L -> 0 <= fl < FLT_SIZE -> 0 <= sl < SLT_SIZE -> w = Z.land (sl_of m fl) (wrap32 (Z.shiftl (-1) sl)) ->
  (w = 0 -> forall j, sl <= j < SLT_SIZE -> L fl j = []) /\
  (w <> 0 -> sl <= find_last_bit w < SLT_SIZE /\ L fl (find_last_bit w) <> []).
Proof.
  intros HF Hf Hs ->. change SLT_SIZE with 32 in *. pose proof (fl_sl _ _ _ HF fl Hf) as Hu. pose proof (mask_u32 (sl_of m fl) (Z.shiftl (-1) sl) Hu) as Hw.
  assert (forall j, 0 <= j < 32 -> Z.testbit (Z.land (sl_of m fl) (wrap32 (Z.shiftl (-1) sl))) j = if j <? sl then false else negb (bool_decide (L fl j = []))) as Hb.
  { intros j Hj. rewrite mask_from by (done || lia). destruct (j <? sl); [done|]. by apply (fl_sl_bit _ _ _ HF). }
  split.
  - intros E j Hj. specialize (Hb j ltac:(lia)). rewrite E, Z.testbit_0_l, (proj2 (Z.ltb_ge j sl)) in Hb by lia. by case_bool_decide.
  - intros E. destruct (find_last_bit_spec _ Hw E) as (Hr & Ht & _). rewrite Hb in Ht by done. destruct (Z.ltb_spec (find_last_bit (Z.land (sl_of m fl) (wrap32 (Z.shiftl (-1) sl)))) sl); [done|].
    split; [lia|]. by case_bool_decide.
Qed.

Lemma findblk_spec m F L fl sl :
  flists m F L -> idx fl sl ->
  let '(b, fl', sl') := findblk_byidx m fl sl in
  (b = NULL /\ forall x n, F !! x = Some n -> ckey (cls n) < ckey (fl, sl)) \/
  (b <> NULL /\ tbl_of m fl' sl' = b /\ ckey (fl, sl) <= ckey (fl', sl') /\ exists n, F !! b = Some n /\ cls n = (fl', sl')).
Proof.
  intros HF [Hf Hs]. assert (forall fl' sl', idx fl' sl' -> L fl' sl' <> [] -> tbl_of m fl' sl' <> NULL /\
    exists n, F !! tbl_of m fl' sl' = Some n /\ cls n = (fl', sl')) as Hhd.
  { intros fl' sl' Hi Hne. rewrite (tbl_head _ _ _ _ _ HF Hi). destruct (L fl' sl') as [|x l] eqn:El; [done|]. cbn [hd].
    assert (x ∈ L fl' sl') as (n & Hn & Hc)%(fl_mem _ _ _ HF) by (rewrite El; by left); [|done]. split; [|by exists n].
    destruct (fl_size _ _ _ HF _ _ Hn). unfold NULL. lia. }
  unfold findblk_byidx. destruct (row_search m F L fl sl _ HF Hf Hs eq_refl) as [R0 R1]. cbv zeta.
  destruct (Z.eqb_spec (Z.land (sl_of m fl) (wrap32 (Z.shiftl (-1) sl))) 0) as [E|E]; cbn [negb].
  2:{ destruct (R1 E) as [Hr Hl]. right. destruct (Hhd fl (find_last_bit (Z.land (sl_of m fl) (wrap32 (Z.shiftl (-1) sl))))) as [? ?]; [split; [done|lia]|done|].
      split_and!; [done|done|unfold ckey; cbn [fst snd]; lia|done]. }
  clear R1. specialize (R0 E). change FLT_SIZE with 13 in Hf. change SLT_SIZE with 32 in *.
  set (w := Z.land (fl_bitmap m) (wrap32 (Z.shiftl (-1) (fl + 1)))). pose proof (mask_u32 (fl_bitmap m) (Z.shiftl (-1) (fl + 1)) (fl_fl _ _ _ HF)) as Hw. fold w in Hw.
  assert (forall j, 0 <= j < 32 -> Z.testbit w j = if j <? fl + 1 then false else (j <? FLT_SIZE) && negb (sl_of m j =? 0)) as Hb.
  { intros j Hj. unfold w. rewrite mask_from by (try apply HF; lia). destruct (j <? fl + 1); [done|]. by apply (fl_fl_bit _ _ _ HF). }
  destruct (Z.eqb_spec w 0) as [E'|E'].
  - rewrite E'. change (find_last_bit 0) with 0. change (0 <? 0) with false. cbv iota. left. split; [done|]. intros x n Hn.
    destruct (fl_size _ _ _ HF _ _ Hn) as [_ Hk]. pose proof (idx_cls n Hk) as [I1 I2]. change FLT_SIZE with 13 in *. change SLT_SIZE with 32 in *.
    assert (x ∈ L (cls n).1 (cls n).2) as Hx by (apply (fl_mem _ _ _ HF); [done|]; exists n; split; [done|apply surjective_pairing]).
    unfold ckey. cbn [fst snd]. destruct (Z.lt_trichotomy (cls n).1 fl) as [|[E1|G]]; [lia| |].
    + rewrite E1 in Hx. destruct (Z_lt_le_dec (cls n).2 sl); [lia|]. rewrite R0 in Hx by lia. by apply elem_of_nil in Hx.
    + specialize (Hb (cls n).1 ltac:(lia)). rewrite E', Z.testbit_0_l, (proj2 (Z.ltb_ge (cls n).1 (fl + 1))), (proj2 (Z.ltb_lt (cls n).1 13)) in Hb by lia. cbn [andb] in Hb.
      symmetry in Hb. apply negb_false_iff, Z.eqb_eq in Hb. rewrite (sl_zero _ _ _ _ HF I1 Hb _ I2) in Hx. by apply elem_of_nil in Hx.
  - destruct (find_last_bit_spec _ Hw E') as (Hr & Ht & _). set (g := find_last_bit w) in *. rewrite Hb in Ht by done.
    destruct (Z.ltb_spec g (fl + 1)); [done|]. apply andb_true_iff in Ht as [Hg Hz]. apply Z.ltb_lt in Hg. apply negb_true_iff, Z.eqb_neq in Hz.
    rewrite (proj2 (Z.ltb_lt 0 g)) by lia. destruct (row_search m F L g 0 (sl_of m g) HF ltac:(lia) ltac:(done)) as [_ R1].
    { change (wrap32 (Z.shiftl (-1) 0)) with (Z.ones 32). rewrite Z.land_ones by lia. rewrite Z.mod_small; [done|]. apply (fl_sl _ _ _ HF). lia. }
    destruct (R1 Hz) as [Hr' Hl]. right. destruct (Hhd g (find_last_bit (sl_of m g))) as [? ?]; [split; lia|done|].
    split_and!; [done|done|unfold ckey; cbn [fst snd]; change SLT_SIZE with 32 in *; lia|done].
Qed.

(** ** Cutting the block *)

(** What taking [s] bytes of the block of [n] bytes between [l1] and [l2] does to the layout. *)
Definition cut l1 n s l2 : list (Z * bool) :=
  if SIZEOF_MM_LIST <=? n - s then l1 ++ (s, false) :: (n - s - 8, true) :: l2 else l1 ++ (n, false) :: l2.

Definition granted n s : Z := if SIZEOF_MM_LIST <=? n - s then s else n.

(** A block of [n] bytes is cut to [s] bytes; the rest becomes a free block of [t] bytes. *)
Section Cut.
Context a l1 n s k l2 (HL : layout a (l1 ++ (n, false) :: (k, false) :: l2)).
Context (Hs8 : 8 <= s) (Hs4 : s mod 4 = 0) (Hns : 16 <= n - s).
Let b := a + total l1.
Let t := n - s - 8.
Let b2 := b + 8 + s.
Let e := b + 8 + n.
Let bs := l1 ++ (s, false) :: (t, true) :: (k, false) :: l2.

Lemma cut_sizes : bsize n /\ bsize s /\ bsize t /\ bsize k /\ 0 <= t < 2 ^ 19.
Proof.
  destruct (layout_mid _ _ _ _ _ HL) as (_ & (Hn0 & Hn4 & _) & [(Hk0 & Hk4 & _) Hs2]%Forall_cons & T1 & T2 & _ & Tt & Te). cbn [fst] in *. rewrite total_cons in *.
  destruct (total_nonneg _ Hs2) as [? _]. unfold bsize. unfold t in *. Z.to_euclidean_division_equations. lia.
Qed.

Lemma cut_layout : layout a bs.
Proof.
  destruct cut_sizes as (Bn & Bs & Bt & _ & Rt). apply (layout_replace a l1 [(n, false)] [(s, false); (t, true)]); [done| | |done].
  - rewrite !total_cons. change (total []) with 0. unfold t. lia.
  - destruct Bt. apply Forall_cons. split; [|apply Forall_singleton]; (split; [cbn [fst]; lia|split; [done|intros _; cbn [fst]; unfold t; lia]]).
Qed.

Lemma cut_blocks : (b, s, false) ∈ blocks a bs /\ (b2, t, true) ∈ blocks a bs /\ (e, k, false) ∈ blocks a bs.
Proof.
  split_and!; apply blocks_pair; right; [by left|right; by left|right; right]. replace e with (a + total l1 + 8 + s + 8 + t) by (unfold e, b, t; lia). by left.
Qed.

Lemma cut_stable y : stable a bs y -> stable a (l1 ++ (n, false) :: (k, false) :: l2) y.
Proof.
  intros Hy c j Hc. apply (Hy c j). unfold bs. apply blocks_pair in Hc as [Hc|[[=]|Hc]]; apply blocks_pair; [by left|right; right]. cbn [blocks]. right.
  by replace (a + total l1 + 8 + s + 8 + t) with (a + total l1 + 8 + n) by (unfold t; lia).
Qed.

Lemma cut_payload x : payload a (l1 ++ (n, true) :: (k, false) :: l2) x -> payload a bs x.
Proof.
  intros [Ho|(c & j & Hc & Hr)]; [left; unfold bs; rewrite !total_app, !total_cons in *; unfold t; lia|right; exists c, j; split; [|done]].
  unfold bs. apply blocks_pair in Hc as [Hc|[[=]|Hc]]; apply blocks_pair; [by left|right; right]. cbn [blocks]. right.
  by replace (a + total l1 + 8 + s + 8 + t) with (a + total l1 + 8 + n) by (unfold t; lia).
Qed.

(** Linking the rest. *)
Lemma cut_link m :
  (exists L, flists m (frees a (l1 ++ (n, false) :: (k, false) :: l2)) L) ->
  let m' := insert_block b2 (cls t).1 (cls t).2 m in
  (exists L, flists m' (frees a bs) L) /\ keeps (stable a bs) m m'.
Proof.
  intros Hl. assert (bs = (l1 ++ [(s, false)]) ++ (t, true) :: (k, false) :: l2) as Eb by (unfold bs; by rewrite <- app_assoc).
  assert (a + total (l1 ++ [(s, false)]) = b2) as Eb2 by (rewrite total_snoc; unfold b2, b; lia). pose proof cut_layout as HL'. rewrite Eb in *. rewrite <- Eb2.
  apply link_lists; [by eapply layout_flag|done|unfold t; lia|]. rewrite <- app_assoc. cbn [app]. rewrite frees_merge. by replace (s + 8 + t) with n by (unfold t; lia).
Qed.

(** The headers that are written. *)
Lemma cut_heap m m' :
  heads (rd m) None a l1 -> (forall q, exit_prev None a l1 = Some q -> rd m b = q) -> heads (rd m) None (e + 8 + k) l2 ->
  rd m' (b + 4) = enc s false (has_prev (exit_prev None a l1)) -> rd m' (b2 + 4) = enc t true false -> rd m' e = b2 -> rd m' (e + 4) = enc k false true ->
  (exists L, flists m' (frees a bs) L) ->
  keeps (fun x => stable a bs x /\ x <> b + 4 /\ x <> b2 + 4 /\ x <> e /\ x <> e + 4) m m' ->
  heap m' a bs /\ keeps (payload a bs) m m'.
Proof.
  intros Hb Hp Hte W1 W2 W3 W4 Hl K. pose proof cut_layout as HL'. pose proof (lay_sizes _ _ HL') as Hs. destruct cut_blocks as (Ib & Ib2 & Ie).
  destruct (head_stable _ _ _ _ _ Hs Ib) as [Sb _]. split.
  - split; [done| |done]. unfold bs. apply heads_app. split.
    + eapply heads_ext, Hb. intros c q g Hc. destruct (before_words _ _ _ _ _ _ Hs Hc) as (Hr & ? & ?). fold b in Hr. split; apply K; split_and!; try done; unfold b2, e; lia.
    + fold b. cbn [heads]. fold b2. replace (b2 + 8 + t) with e by (unfold b2, e, t; lia). split_and!; try done.
      * intros q Hq. rewrite K by (split_and!; try done; unfold b2, e; lia). split; [by apply Hp|done].
      * intros q [= <-]. done.
      * eapply heads_ext, Hte. intros c q g Hc. apply blocks_range in Ie as (_ & _ & Rk & _); [|done]. cbn [fst] in Rk.
        apply Forall_app in Hs as Hs'. destruct Hs' as [_ (_ & (_ & (_ & Hs2)%Forall_cons)%Forall_cons)%Forall_cons].
        apply blocks_range in Hc as Hr; [|done]. destruct Hr as [Hr _].
        assert (stable a bs c /\ stable a bs (c + 4)) as [? ?].
        { eapply head_stable; [done|]. apply blocks_pair. right; right. cbn [blocks]. right. right.
          replace (a + total l1 + 8 + s + 8 + t) with e by (unfold e, b, t; lia). done. }
        split; apply K; split_and!; try done; unfold b2, e in *; lia.
  - intros x Hx. apply payload_words in Hx as [H1 H2]; [|done]. apply K. split_and!; [done|by eapply H2..].
Qed.

(** The next block is where the code looks for it. *)
Lemma cut_next : NEXT_MM_BLK (buffer b) s = b2.
Proof. eapply (next_blk a l1 s false); [apply cut_layout|done|done]. Qed.
End Cut.

Lemma split_cut m a l1 n s k l2 :
  pend m a l1 n true true ((k, false) :: l2) -> exit_prev None a l1 = None -> 8 <= s -> s mod 4 = 0 -> 16 <= n - s ->
  let m' := split_block (a + total l1) s m in
  heap m' a (l1 ++ (s, false) :: (n - s - 8, true) :: (k, false) :: l2) /\
  keeps (payload a (l1 ++ (n, true) :: (k, false) :: l2)) m m'.
Proof.
  intros HP Hx Hs8 Hs4 Hns. cbv zeta. pose proof (pend_layout _ _ _ _ _ _ _ HP) as HL. pose proof (cut_layout _ _ _ _ _ _ HL Hs8 Hs4 Hns) as HL'.
  destruct (cut_sizes _ _ _ _ _ _ HL Hs8 Hs4 Hns) as (Bn & Bs & Bt & Bk & Rt). destruct (cut_blocks a l1 n s k l2) as (Ib & Ib2 & Ie).
  pose proof (pend_word _ _ _ _ _ _ _ HP) as Wb. destruct (pend_after _ _ _ _ _ _ _ HP) as [We Hte].
  pose proof (pend_size _ _ _ _ _ _ _ HP) as Ez. destruct (pend_next _ _ _ _ _ _ _ _ _ HP) as (En & _).
  set (b := a + total l1) in *. set (t := n - s - 8) in *. set (b2 := b + 8 + s) in *. set (e := b + 8 + n) in *. set (bs := l1 ++ (s, false) :: (t, true) :: (k, false) :: l2) in *.
  destruct (head_stable _ _ _ _ _ (lay_sizes _ _ HL') Ib) as [Sb Sb4], (head_stable _ _ _ _ _ (lay_sizes _ _ HL') Ib2) as [S2 S24], (head_stable _ _ _ _ _ (lay_sizes _ _ HL') Ie) as [Se Se4].
  unfold split_block. rewrite Ez, En, (wrap32_small (n - s)) by (destruct Bn, Bs; unfold u32; lia). change SIZEOF_MM_LIST with 16. rewrite (proj2 (Z.leb_le 16 (n - s))) by done.
  change (n - s - MMLIST_HEAD_SIZE) with t. cbv zeta. pose proof (cut_next _ _ _ _ _ _ HL Hs8 Hs4 Hns) as Enx. fold b b2 in Enx. rewrite Enx, enc_new, bitmap_search_insert by done.
  set (m2 := set_b_prev e b2 (set_b_size b2 (enc t true false) m)).
  assert (exists L, flists m2 (frees a (l1 ++ (n, false) :: (k, false) :: l2)) L) as Hl2
    by (unfold m2, set_b_prev, set_b_size; repeat apply lists_wr; try apply HL; try apply HP; by eapply cut_stable).
  destruct (cut_link _ _ _ _ _ _ HL Hs8 Hs4 Hns m2 Hl2) as [Hl3 K3]. fold b b2 t bs in Hl3, K3. cbv zeta in Hl3, K3. set (m3 := insert_block b2 (cls t).1 (cls t).2 m2) in *.
  assert (forall x, stable a bs x -> x <> b2 + 4 -> x <> e -> rd m3 x = rd m x) as K2 by (intros; rewrite K3 by done; unfold m2, set_b_prev, set_b_size; by rewrite !rd_wr_ne).
  assert (b_size m3 b = enc n true (has_prev (exit_prev None a l1))) as -> by (unfold b_size; rewrite K2; [done|done|unfold b2, e; lia..]).
  rewrite enc_resize by done. unfold set_b_size.
  destruct (cut_heap a l1 n s k l2 HL Hs8 Hs4 Hns m (wr (b + 4) (enc s false (has_prev (exit_prev None a l1))) m3)) as [HH K]; fold b t b2 e bs; try done; try apply HP.
  - apply rd_wr_eq.
  - rewrite rd_wr_ne, K3 by (done || unfold b2; lia). unfold m2, set_b_prev, set_b_size. rewrite rd_wr_ne, rd_wr_eq by (unfold b2, e; lia). done.
  - rewrite rd_wr_ne, K3 by (done || unfold e; lia). apply rd_wr_eq.
  - rewrite rd_wr_ne, K2; try done; unfold b2, e; lia.
  - by apply lists_wr; [apply HL'|..].
  - intros x (? & ? & ? & ? & ?). rewrite rd_wr_ne by done. by apply K2.
  - split; [exact HH|]. eapply keeps_weaken, K. intros x. apply cut_payload.
Qed.

Lemma split_whole m a l1 n s k l2 :
  pend m a l1 n true true ((k, false) :: l2) -> exit_prev None a l1 = None -> 0 <= s <= n -> n - s < 16 ->
  let m' := split_block (a + total l1) s m in
  heap m' a (l1 ++ (n, false) :: (k, false) :: l2) /\ keeps (payload a (l1 ++ (n, true) :: (k, false) :: l2)) m m'.
Proof.
  intros HP Hx Hsn Hns. cbv zeta. set (b := a + total l1). set (e := b + 8 + n).
  pose proof (pend_layout _ _ _ _ _ _ _ HP) as HL. set (bs := l1 ++ (n, false) :: (k, false) :: l2) in *. pose proof (lay_sizes _ _ HL) as Hs.
  assert ((b, n, false) ∈ blocks a bs) as Ib by apply blocks_at.
  assert ((e, k, false) ∈ blocks a bs) as Ie by (apply blocks_pair; right; right; by left).
  destruct (head_stable _ _ _ _ _ Hs Ib) as [Sb Sb4], (head_stable _ _ _ _ _ Hs Ie) as [Se Se4].
  pose proof (pend_word _ _ _ _ _ _ _ HP) as Wb. fold b in Wb. rewrite Hx in Wb. destruct (pend_after _ _ _ _ _ _ _ HP) as [We Hte]. fold b e in We, Hte.
  pose proof (pend_size _ _ _ _ _ _ _ HP) as Ez. destruct (pend_next _ _ _ _ _ _ _ _ _ HP) as (En & _ & _ & Bk & Rk). fold b e in Ez, En.
  destruct (size_bsize _ _ _ _ _ HL) as [Bn Rn].
  unfold split_block. rewrite Ez, En. rewrite (wrap32_small (n - s)) by (unfold u32; lia). change SIZEOF_MM_LIST with 16. rewrite (proj2 (Z.leb_gt 16 (n - s))) by done.
  cbv zeta. unfold set_b_size, b_size. rewrite We, enc_clear_prev by done. rewrite rd_wr_ne, Wb, enc_clear_free by (done || unfold e; lia).
  split.
  - split; [done| |by repeat apply lists_wr; [..|apply HP]]. unfold bs. apply heads_app. split.
    + eapply heads_ext, (pend_before _ _ _ _ _ _ _ HP). intros c q g Hc. destruct (before_words _ _ _ _ _ _ Hs Hc) as (Hr & ? & ?). fold b in Hr.
      by rewrite !rd_wr_ne by (unfold e; lia).
    + rewrite Hx. fold b. cbn [heads has_prev]. fold e. rewrite rd_wr_eq, (rd_wr_ne _ _ _ (e + 4)), rd_wr_eq by (unfold e; lia). split_and!; try done.
      apply Forall_app in Hs as [_ (_ & (_ & Hs2)%Forall_cons)%Forall_cons].
      eapply heads_ext, Hte. intros c q g Hc. apply blocks_range in Hc as [Hr _]; [|done]. by rewrite !rd_wr_ne by (unfold e in *; lia).
  - intros x Hp. apply payload_flag, payload_words in Hp as [_ H2]; [|done]. rewrite !rd_wr_ne; [done|by eapply H2|by eapply H2].
Qed.

Lemma split_spec m a l1 n s k l2 :
  pend m a l1 n true true ((k, false) :: l2) -> exit_prev None a l1 = None -> 8 <= s <= n -> s mod 4 = 0 ->
  let m' := split_block (a + total l1) s m in
  heap m' a (cut l1 n s ((k, false) :: l2)) /\ keeps (payload a (l1 ++ (n, true) :: (k, false) :: l2)) m m'.
Proof.
  intros HP Hx Hs Hs4. unfold cut. change SIZEOF_MM_LIST with 16. destruct (Z.leb_spec 16 (n - s)); [apply split_cut|apply split_whole]; try done; lia.
Qed.

(** ** [k_mm_alloc] *)
Lemma take_spec m a l1 n l2 fl sl :
  heap m a (l1 ++ (n, true) :: l2) -> cls n = (fl, sl) -> tbl_of m fl sl = a + total l1 ->
  exists k l2', l2 = (k, false) :: l2' /\ exit_prev None a l1 = None /\
  pend (pop_block (a + total l1) fl sl m) a l1 n true true l2 /\ keeps (stable a (l1 ++ (n, true) :: l2)) m (pop_block (a + total l1) fl sl m).
Proof.
  intros [HL Hh [L HF]] Hc Ht. pose proof (layout_rest _ _ _ _ HL) as Hne. pose proof (lay_sizes _ _ HL) as Hs.
  assert (fl = (cls n).1 /\ sl = (cls n).2) as [-> ->] by (by rewrite Hc).
  erewrite pop_get; [|exact HF|apply frees_lookup; [done|apply blocks_at]|done].
  destruct (unlink_lists m a l1 n l2 HL (ex_intro _ _ HF)) as [Hl K]. cbv zeta in *. set (m' := get_block _ _ _ _) in *.
  apply heads_app in Hh as [Hh1 (W & Hp & Hh2)]. assert (exit_prev None a l1 = None) as Hx by (destruct (exit_prev None a l1) as [q|]; [by destruct (Hp q eq_refl)|done]).
  destruct l2 as [|[k g] l2]; [done|]. destruct Hh2 as (W2 & Hp2 & Hh2). destruct (Hp2 _ eq_refl) as [Wp ->]. exists k, l2. split_and!; [done|done| |done].
  assert (8 <= n) as Hn by (destruct (layout_mid _ _ _ _ _ HL) as (_ & (_ & _ & H8) & _); by apply H8).
  destruct (head_stable a _ _ n true Hs (blocks_at a l1 n true _)) as [Sb Sb4]. split; [by eapply layout_flag|done| | | | |done].
  - eapply heads_ext, Hh1. intros c q g Hc'. destruct (before_words _ _ _ _ _ _ Hs Hc') as (? & ? & ?). split; by apply K.
  - by rewrite K.
  - by rewrite Hx.
  - apply (tail_ext (rd m)); [|by apply Forall_app in Hs as [_ (_ & ?)%Forall_cons]|by split]. intros c q g Hc'.
    assert (stable a (l1 ++ (n, true) :: (k, false) :: l2) c /\ stable a (l1 ++ (n, true) :: (k, false) :: l2) (c + 4)) as [? ?]
      by (eapply head_stable; [done|]; apply blocks_pair; by right; right).
    split; [intros _|]; by apply K.
Qed.

(** The size that is looked for. *)
Definition request s : Z := Z.max 8 (4 * ((s + 3) / 4)).

Lemma request_spec s : 0 < s <= 2 ^ 31 ->
  let t := MM_ALIGN_UP s in (if t <? AOS_MM_TLF_ALLOC_MIN_LENGTH then AOS_MM_TLF_ALLOC_MIN_LENGTH else t) = request s /\
  8 <= request s <= 2 ^ 31 /\ request s mod 4 = 0 /\ s <= request s.
Proof.
  intros Hs. cbv zeta. rewrite align_up_spec by lia. unfold request, AOS_MM_TLF_ALLOC_MIN_LENGTH.
  split_and!; [destruct (Z.ltb_spec (4 * ((s + 3) / 4)) 8); lia|lia|change (2 ^ 31) with (4 * 2 ^ 29) in *; Z.to_euclidean_division_equations; lia|
    destruct (Z.max_spec 8 (4 * ((s + 3) / 4))) as [[_ ->]|[_ ->]]; [rewrite Z.mul_comm; apply Z.mod_mul; lia|done]|Z.to_euclidean_division_equations; lia].
Qed.

Lemma alloc_spec m a bs s :
  heap m a bs -> 0 < s <= 2 ^ 31 ->
  let '(p, m') := k_mm_alloc s m in
  (p = NULL /\ m' = m /\ forall c n, (c, n, true) ∈ blocks a bs -> n < search_size (request s)) \/
  (exists l1 n l2, bs = l1 ++ (n, true) :: l2 /\ p = a + total l1 + 8 /\ search_size (request s) <= n /\
     heap m' a (cut l1 n (request s) l2) /\ keeps (payload a bs) m m').
Proof.
  intros HH Hs. destruct (request_spec s Hs) as (Er & Hr & Hr4 & _). cbv zeta in Er. pose proof (heap_lists _ _ _ HH) as [L HF].
  pose proof (lay_sizes _ _ (heap_layout _ _ _ HH)) as Hsz.
  unfold k_mm_alloc. rewrite (proj2 (Z.eqb_neq s 0)) by lia. cbv zeta. rewrite Er. pose proof (bitmap_search_get (request s) ltac:(lia)) as Hg.
  destruct (bitmap_search (request s) ACTION_GET) as [[stat fl] sl]. pose proof (get_size_ge (request s) ltac:(lia)) as Hge.
  assert (forall c n, (c, n, true) ∈ blocks a bs -> 8 <= n < 2 ^ 19) as Hn.
  { intros c n Hc. apply frees_lookup in Hc; [|done]. by destruct (fl_size _ _ _ HF _ _ Hc) as [_ [? _]]. }
  destruct (Z.ltb_spec (get_size (request s)) (2 ^ 19)) as [Hb|Hb].
  2:{ rewrite decide_True by done. left. split_and!; [done|done|]. intros c n Hc. specialize (Hn c n Hc). pose proof (search_size_big (request s) ltac:(lia) Hr4 Hb). lia. }
  destruct Hg as [-> Hc]. rewrite decide_False by (intros H; by apply H).
  assert (idx fl sl) as Hi by (replace fl with (cls (get_size (request s))).1 by (by rewrite <- Hc); replace sl with (cls (get_size (request s))).2 by (by rewrite <- Hc); apply cls_range; lia).
  pose proof (findblk_spec m _ L fl sl HF Hi) as Hf. destruct (findblk_byidx m fl sl) as [[b fl'] sl']. destruct Hf as [[-> Hf]|(Hb0 & Ht & Hk & n & Hl & Hcn)].
  - left. change (NULL =? NULL) with true. split_and!; [done|done|]. intros c n Hcn. destruct (Z_lt_le_dec n (search_size (request s))) as [|Hlt]; [done|exfalso].
    apply frees_lookup in Hcn as Hl; [|done]. apply Hf in Hl. rewrite Hc in Hl. pose proof (Hn _ _ Hcn). apply search_class in Hlt; [lia|lia|done|done|lia].
  - rewrite (proj2 (Z.eqb_neq b NULL)) by done. apply frees_lookup in Hl as Hbl; [|done]. destruct (Hn _ _ Hbl) as [? ?].
    rewrite Hc in Hk. rewrite <- Hcn in Hk. apply search_class in Hk as Hfit; [|lia|done|done|lia]. destruct (search_size_spec (request s) ltac:(lia) Hr4) as ([Hsr _] & _).
    apply blocks_split in Hbl as (l1 & l2 & -> & ->). destruct (take_spec m a l1 n l2 fl' sl' HH Hcn Ht) as (k & l2' & -> & Hx & HP & K).
    destruct (split_spec _ _ _ _ (request s) _ _ HP Hx) as [HH' K']; [lia|done|]. cbv zeta in *.
    right. exists l1, n, ((k, false) :: l2'). split_and!; [done|done|done|exact HH'|].
    intros x Hx'. rewrite K' by done. apply K. by eapply payload_words.
Qed.

(** ** Blocks under the two operations *)
Lemma total_cut l1 n s l2 : total (cut l1 n s l2) = total (l1 ++ (n, true) :: l2).
Proof. unfold cut. case_match; rewrite !total_app, !total_cons; lia. Qed.

Lemma total_coalesce l1 n l2 : total (coalesce l1 n l2) = total (l1 ++ (n, false) :: l2).
Proof.
  unfold coalesce. destruct l1 as [|[k g] l1 _] using rev_ind; [|rewrite rev_app_distr]; cbn [rev app]; rewrite ?rev_involutive;
    destruct l2 as [|[k2 []] l2]; try destruct g; rewrite ?total_app, ?total_cons; change (total []) with 0; lia.
Qed.

(** The allocated blocks after an allocation: the old ones and the new one. *)
Lemma used_cut a l1 n s l2 c k :
  (c, k, false) ∈ blocks a (cut l1 n s l2) <-> (c, k, false) ∈ blocks a (l1 ++ (n, true) :: l2) \/ (c = a + total l1 /\ k = granted n s).
Proof.
  unfold cut, granted. case_match; rewrite !blocks_pair; [cbn [blocks]; rewrite elem_of_cons|].
  - replace (a + total l1 + 8 + s + 8 + (n - s - 8)) with (a + total l1 + 8 + n) by lia. naive_solver.
  - naive_solver.
Qed.

Lemma used_merge a l1 n k l2 c j :
  (c, j, false) ∈ blocks a (l1 ++ (n + 8 + k, true) :: l2) <-> (c, j, false) ∈ blocks a (l1 ++ (n, true) :: (k, true) :: l2).
Proof.
  rewrite !blocks_pair. cbn [blocks]. rewrite elem_of_cons. replace (a + total l1 + 8 + n + 8 + k) with (a + total l1 + 8 + (n + 8 + k)) by lia. naive_solver.
Qed.

(** The allocated blocks after freeing one: the others. *)
Lemma used_coalesce a l1 n l2 c k : (c, k, false) ∈ blocks a (coalesce l1 n l2) <-> (c, k, false) ∈ blocks a (l1 ++ (n, true) :: l2).
Proof.
  unfold coalesce.
  assert (forall n l2, (c, k, false) ∈ blocks a (let '(l1, n) := match rev l1 with (k, true) :: l1 => (rev l1, k + 8 + n) | _ => (l1, n) end in l1 ++ (n, true) :: l2) <->
    (c, k, false) ∈ blocks a (l1 ++ (n, true) :: l2)) as H.
  { clear. intros n l2. destruct l1 as [|[j g] l1 _] using rev_ind; [done|]. rewrite rev_app_distr. cbn [rev app]. destruct g; [|done].
    rewrite rev_involutive, used_merge. by rewrite <- app_assoc. }
  destruct l2 as [|[j []] l2]; rewrite H; [done| |done]. apply used_merge.
Qed.

Lemma used_flag a l1 n l2 c k : Forall size_ok (l1 ++ (n, false) :: l2) ->
  (c, k, false) ∈ blocks a (l1 ++ (n, true) :: l2) <-> (c, k, false) ∈ blocks a (l1 ++ (n, false) :: l2) /\ c <> a + total l1.
Proof.
  intros Hs. pose proof (fun H => blocks_sep a (l1 ++ (n, false) :: l2) c k false (a + total l1) n false Hs H (blocks_at _ _ _ _ _)) as Hsep.
  pose proof Hs as Hs'. apply Forall_app in Hs' as [Hs1 [[Hn _] Hs2]%Forall_cons]. cbn [fst] in Hn. rewrite !blocks_pair. split.
  - intros [H|[[=]|H]]; (split; [by auto|]).
    + apply blocks_range in H as (_ & H & Hk & _); [|done]. cbn [fst] in *. lia.
    + apply blocks_range in H as (H & _); [|done]. lia.
  - intros [[H|[[= -> ->]|H]] Hc]; [by left|done|by right; right].
Qed.

(** Writing to a buffer that is handed out. *)
Lemma heap_wr m a bs x v : heap m a bs -> payload a bs x -> heap (wr x v m) a bs.
Proof.
  intros [HL Hh Hl] Hx. apply payload_words in Hx as [H1 H2]; [|apply HL]. split; [done| |by apply lists_wr; [apply HL|..]].
  eapply heads_ext, Hh. intros c n f Hc. destruct (H2 c n f Hc). by rewrite !rd_wr_ne by congruence.
Qed.
