(* ===== verification/MmRealloc.v ===== *)
(** * Resizing a block

    [half m a l1 n j pf k l2]: the region has the blocks [l1], an allocated block with [n]
    bytes, an allocated block of [k] bytes and the blocks [l2]; the size word of the first
    says [j] and [pf] is the bit of the second.  This is the state between the steps of
    [k_mm_realloc] when the block stays where it is. *)
From S2P Require Import Prelude Bitmap KTypes Mm MmBits MmList MmLayout MmFree MmAlloc.
Local Open Scope Z_scope.

Implicit Types (m : mm_state) (a b c x n j k s : Z) (f pf : bool) (bs l : list (Z * bool)).

Record half m a l1 n j pf k l2 : Prop := {
  half_layout : layout a (l1 ++ (n, false) :: (k, false) :: l2);
  half_before : heads (rd m) None a l1;
  half_word : rd m (a + total l1 + 4) = enc j false (has_prev (exit_prev None a l1)) /\ bsize j;
  half_prev : forall q, exit_prev None a l1 = Some q -> rd m (a + total l1) = q;
  half_next : rd m (a + total l1 + 8 + n + 4) = enc k false pf;
  half_after : heads (rd m) None (a + total l1 + 8 + n + 8 + k) l2;
  half_lists : exists L, flists m (frees a (l1 ++ (n, false) :: (k, false) :: l2)) L;
}.

Lemma half_sizes m a l1 n j pf k l2 : half m a l1 n j pf k l2 -> bsize n /\ bsize k /\ n < 2 ^ 19.
Proof.
  intros HH. pose proof (half_layout _ _ _ _ _ _ _ _ HH) as HL. destruct (size_bsize _ _ _ _ _ HL) as [? ?].
  split_and!; [done| |lia]. eapply (size_bsize a (l1 ++ [(n, false)]) k false l2). by rewrite <- app_assoc.
Qed.

Lemma half_heap m a l1 n k l2 : heap m a (l1 ++ (n, false) :: (k, false) :: l2) -> half m a l1 n n false k l2.
Proof.
  intros [HL Hh Hl]. apply heads_app in Hh as [Hh1 (W & Hp & W2 & _ & Hh2)]. split; try done.
  - split; [done|]. by eapply size_bsize.
  - intros q Hq. by destruct (Hp q Hq).
Qed.

Lemma heap_half m a l1 n k l2 : half m a l1 n n false k l2 -> heap m a (l1 ++ (n, false) :: (k, false) :: l2).
Proof.
  intros HH. split; [apply HH| |apply HH]. apply heads_app. split; [apply HH|]. cbn [heads has_prev]. split_and!; try apply HH; try done.
  intros q Hq. split; [by apply HH|done].
Qed.

(** ** Cutting *)
Lemma realloc_cut_spec m a l1 n j pf s k l2 :
  half m a l1 n j pf k l2 -> 8 <= s <= n -> s mod 4 = 0 -> (n - s < 16 -> j = n /\ pf = false) ->
  let m' := realloc_cut (a + total l1) s (wrap32 (n - s)) (a + total l1 + 8 + n) m in
  heap m' a (cut l1 n s ((k, false) :: l2)) /\ keeps (payload a (cut l1 n s ((k, false) :: l2))) m m'.
Proof.
  intros HH Hs Hs4 Hsmall. cbv zeta. destruct (half_sizes _ _ _ _ _ _ _ _ HH) as (Bn & Bk & Rn). unfold realloc_cut, cut. rewrite wrap32_small by (unfold u32; lia).
  change SIZEOF_MM_LIST with 16. destruct (Z.leb_spec 16 (n - s)) as [Hns|Hns].
  2:{ destruct (Hsmall Hns) as [-> ->]. split; [by apply heap_half|done]. }
  assert (8 <= s) as Hs8 by lia. pose proof (half_layout _ _ _ _ _ _ _ _ HH) as HL. pose proof (cut_layout _ _ _ _ _ _ HL Hs8 Hs4 Hns) as HL'.
  destruct (cut_sizes _ _ _ _ _ _ HL Hs8 Hs4 Hns) as (_ & Bs & Bt & _ & Rt). destruct (cut_blocks a l1 n s k l2) as (Ib & Ib2 & Ie).
  destruct (half_word _ _ _ _ _ _ _ _ HH) as [Wb Bj]. pose proof (half_next _ _ _ _ _ _ _ _ HH) as We.
  pose proof (cut_next _ _ _ _ _ _ HL Hs8 Hs4 Hns) as Enx.
  change (n - s - MMLIST_HEAD_SIZE) with (n - s - 8). rewrite Enx.
  set (b := a + total l1) in *. set (t := n - s - 8) in *. set (b2 := b + 8 + s) in *. set (e := b + 8 + n) in *. set (bs := l1 ++ (s, false) :: (t, true) :: (k, false) :: l2) in *.
  destruct (head_stable _ _ _ _ _ (lay_sizes _ _ HL') Ib) as [Sb Sb4], (head_stable _ _ _ _ _ (lay_sizes _ _ HL') Ib2) as [S2 S24], (head_stable _ _ _ _ _ (lay_sizes _ _ HL') Ie) as [Se Se4].
  cbv zeta. rewrite enc_new, bitmap_search_insert by done. set (m1 := set_b_prev e b2 (set_b_size b2 (enc t true false) m)).
  assert (b_size m1 e = enc k false pf) as -> by (unfold b_size, m1, set_b_prev, set_b_size; rewrite !rd_wr_ne; [done|unfold b2, e; lia..]).
  rewrite enc_set_prev by done. set (m2 := set_b_size e (enc k false true) m1).
  assert (exists L, flists m2 (frees a (l1 ++ (n, false) :: (k, false) :: l2)) L) as Hl2
    by (unfold m2, m1, set_b_prev, set_b_size; repeat apply lists_wr; try apply HL; try apply HH; by eapply cut_stable).
  destruct (cut_link _ _ _ _ _ _ HL Hs8 Hs4 Hns m2 Hl2) as [Hl3 K3]. fold b b2 t bs in Hl3, K3. cbv zeta in Hl3, K3. set (m3 := insert_block b2 (cls t).1 (cls t).2 m2) in *.
  assert (forall x, stable a bs x -> x <> b2 + 4 -> x <> e -> x <> e + 4 -> rd m3 x = rd m x) as K2
    by (intros; rewrite K3 by done; unfold m2, m1, set_b_prev, set_b_size; by rewrite !rd_wr_ne).
  assert (b_size m3 b = enc j false (has_prev (exit_prev None a l1))) as -> by (unfold b_size; rewrite K2; [done|done|unfold b2, e; lia..]).
  rewrite enc_resize by done. unfold set_b_size.
  apply (cut_heap a l1 n s k l2 HL Hs8 Hs4 Hns m (wr (b + 4) (enc s false (has_prev (exit_prev None a l1))) m3)); fold b t b2 e bs; try done; try apply HH.
  - apply rd_wr_eq.
  - rewrite rd_wr_ne, K3 by (done || unfold b2; lia). unfold m2, m1, set_b_prev, set_b_size. rewrite !rd_wr_ne, rd_wr_eq by (unfold b2, e; lia). done.
  - rewrite rd_wr_ne, K3 by (done || unfold e; lia). unfold m2, set_b_size. rewrite rd_wr_ne by lia. apply rd_wr_eq.
  - rewrite rd_wr_ne, K3 by (done || unfold e; lia). apply rd_wr_eq.
  - by apply lists_wr; [apply HL'|..].
  - intros x (? & ? & ? & ? & ?). rewrite rd_wr_ne by done. by apply K2.
Qed.

(** ** Taking in the next block *)
Lemma half_get m a l1 n k0 l2 :
  heap m a (l1 ++ (n, false) :: (k0, true) :: l2) ->
  let m' := get_block (a + total l1 + 8 + n) (cls k0).1 (cls k0).2 m in
  exists k l2', l2 = (k, false) :: l2' /\ half m' a l1 (n + 8 + k0) n true k l2' /\ blksize m' (a + total l1 + 8 + n) = k0 /\
  keeps (stable a (l1 ++ (n, false) :: (k0, true) :: l2)) m m'.
Proof.
  intros [HL Hh Hl]. cbv zeta. set (b := a + total l1). set (e := b + 8 + n). pose proof (lay_sizes _ _ HL) as Hs.
  assert (l1 ++ (n, false) :: (k0, true) :: l2 = (l1 ++ [(n, false)]) ++ (k0, true) :: l2) as Eb by (by rewrite <- app_assoc).
  assert (a + total (l1 ++ [(n, false)]) = e) as Ee by (rewrite total_snoc; unfold e, b; lia).
  pose proof HL as HL'. rewrite Eb in HL'. destruct (unlink_lists m a _ k0 l2 HL' ltac:(by rewrite <- Eb)) as [Hl1 K1]. cbv zeta in *. rewrite Ee in Hl1, K1. rewrite <- Eb in K1.
  rewrite <- app_assoc in Hl1. cbn [app] in Hl1. rewrite frees_merge in Hl1. set (m' := get_block e (cls k0).1 (cls k0).2 m) in *.
  apply heads_app in Hh as [Hh1 (Wb & Hp & We & _ & Hh2)]. fold b e in Wb, Hp, We, Hh2.
  pose proof (layout_rest _ _ _ _ HL') as Hne. destruct l2 as [|[k g] l2]; [done|]. destruct Hh2 as (W2 & Hp2 & Hh3). destruct (Hp2 _ eq_refl) as [_ ->].
  set (bs := l1 ++ (n, false) :: (k0, true) :: (k, false) :: l2) in *.
  assert ((e, k0, true) ∈ blocks a bs /\ (e + 8 + k0, k, false) ∈ blocks a bs /\ forall y, y ∈ blocks (e + 8 + k0 + 8 + k) l2 -> y ∈ blocks a bs) as (Ie & Ik & It).
  { split_and!; [apply blocks_pair; right; right; by left|apply blocks_pair; right; right; right; by left|]. intros [[c q] g] Hc. apply blocks_pair. right; right. right. by right. }
  destruct (head_stable _ _ _ _ _ Hs (blocks_at a l1 n false _)) as [Sb Sb4], (head_stable _ _ _ _ _ Hs Ie) as [_ Se4], (head_stable _ _ _ _ _ Hs Ik) as [_ Sk4]. fold b in Sb, Sb4.
  destruct (size_bsize _ _ _ _ _ HL) as [Bn Rn]. destruct (size_bsize _ _ _ _ _ HL') as [Bk Rk].
  exists k, l2. split_and!; [done| |unfold blksize, b_size; by rewrite K1, We, enc_size|done]. split.
  - apply (layout_replace a l1 [(n, false); (k0, true)] [(n + 8 + k0, false)]); [done|rewrite !total_cons; change (total []) with 0; lia| |done].
    apply Forall_singleton. split_and!; cbn [fst snd]; [lia| |done]. destruct Bn, Bk. Z.to_euclidean_division_equations. lia.
  - eapply heads_ext, Hh1. intros c q g Hc. destruct (before_words _ _ _ _ _ _ Hs Hc) as (? & ? & ?). split; by apply K1.
  - fold b. by rewrite K1.
  - intros q Hq. fold b. rewrite K1 by done. by destruct (Hp q Hq).
  - fold b. replace (b + 8 + (n + 8 + k0) + 4) with (e + 8 + k0 + 4) by (unfold e; lia). by rewrite K1.
  - fold b. replace (b + 8 + (n + 8 + k0) + 8 + k) with (e + 8 + k0 + 8 + k) by (unfold e; lia). eapply heads_ext, Hh3.
    intros c q g Hc. apply It in Hc. destruct (head_stable _ _ _ _ _ Hs Hc). split; by apply K1.
  - done.
Qed.

(** The size of the block and the bit of its successor are brought up to date. *)
Lemma half_grow m a l1 n j pf k l2 :
  half m a l1 n j pf k l2 ->
  let b := a + total l1 in let e := b + 8 + n in
  let m1 := set_b_size b (enc n false (has_prev (exit_prev None a l1))) m in
  let m2 := set_b_prev e b m1 in
  let m' := set_b_size e (Z.land (b_size m2 e) (wrap32 (Z.lnot RHINO_MM_PREVFREE))) m2 in
  half m' a l1 n n false k l2 /\ keeps (fun x => x <> b + 4 /\ x <> e /\ x <> e + 4) m m'.
Proof.
  intros HH. cbv zeta. set (b := a + total l1). set (e := b + 8 + n). destruct (half_sizes _ _ _ _ _ _ _ _ HH) as (Bn & Bk & Rn).
  pose proof (half_layout _ _ _ _ _ _ _ _ HH) as HL. pose proof (lay_sizes _ _ HL) as Hs. pose proof (half_next _ _ _ _ _ _ _ _ HH) as We. fold b e in We.
  set (m2 := set_b_prev e b _). assert (b_size m2 e = enc k false pf) as -> by (unfold b_size, m2, set_b_prev, set_b_size; rewrite !rd_wr_ne; [done|destruct Bn; unfold e; lia..]).
  rewrite enc_clear_prev by done. set (m' := set_b_size e _ m2).
  assert (keeps (fun x => x <> b + 4 /\ x <> e /\ x <> e + 4) m m') as K by (intros x (? & ? & ?); unfold m', m2, set_b_prev, set_b_size; by rewrite !rd_wr_ne). split; [|done].
  pose proof (blocks_at a l1 n false ((k, false) :: l2)) as Ib. fold b in Ib.
  assert ((e, k, false) ∈ blocks a (l1 ++ (n, false) :: (k, false) :: l2)) as Ie by (apply blocks_pair; right; right; by left).
  destruct (head_stable _ _ _ _ _ Hs Ib) as [_ Sb4], (head_stable _ _ _ _ _ Hs Ie) as [Se Se4]. destruct Bn as [? ?], Bk as [? ?].
  split; [done| | | | | |].
  - eapply heads_ext, (half_before _ _ _ _ _ _ _ _ HH). intros c q g Hc. destruct (before_words _ _ _ _ _ _ Hs Hc) as (Hr & _). fold b in Hr. split; apply K; unfold e; lia.
  - fold b. split; [|done]. unfold m', m2, set_b_prev, set_b_size. rewrite !rd_wr_ne by (unfold e; lia). apply rd_wr_eq.
  - intros q Hq. fold b. rewrite K by (unfold e; lia). by apply (half_prev _ _ _ _ _ _ _ _ HH).
  - apply rd_wr_eq.
  - fold b e. eapply heads_ext, (half_after _ _ _ _ _ _ _ _ HH). fold b e. intros c q g Hc.
    apply Forall_app in Hs as [_ (_ & (_ & Hs2)%Forall_cons)%Forall_cons]. apply blocks_range in Hc as [Hr _]; [|done]. split; apply K; unfold e in *; lia.
  - unfold m', m2, set_b_prev, set_b_size. by repeat (apply lists_wr; [done|done|]); apply HH.
Qed.

(** ** Copying *)
Lemma copy_words_spec N dst src m :
  dst + 4 * Z.of_nat N <= src \/ src + 4 * Z.of_nat N <= dst ->
  (forall i, 0 <= i < Z.of_nat N -> rd (copy_words N dst src m) (dst + 4 * i) = rd m (src + 4 * i)) /\
  (forall x, x < dst \/ dst + 4 * Z.of_nat N <= x -> rd (copy_words N dst src m) x = rd m x).
Proof.
  revert dst src m. induction N as [|N IH]; intros dst src m Hd; cbn [copy_words]; [split; [lia|done]|].
  destruct (IH (dst + 4) (src + 4) (wr dst (rd m src) m)) as [H1 H2]; [lia|]. split.
  - intros i Hi. destruct (decide (i = 0)) as [->|].
    + rewrite H2, Z.mul_0_r, !Z.add_0_r by lia. apply rd_wr_eq.
    + replace (dst + 4 * i) with (dst + 4 + 4 * (i - 1)) by lia. rewrite H1, rd_wr_ne by lia. f_equal. lia.
  - intros x Hx. rewrite H2, rd_wr_ne by lia. done.
Qed.

Lemma copy_heap N dst src m a bs :
  heap m a bs -> (forall x, dst <= x < dst + 4 * Z.of_nat N -> payload a bs x) -> heap (copy_words N dst src m) a bs.
Proof.
  revert dst src m. induction N as [|N IH]; intros dst src m HH Hp; cbn [copy_words]; [done|].
  apply IH; [apply heap_wr; [done|apply Hp; lia]|intros x Hx; apply Hp; lia].
Qed.

Lemma heap_size m a bs c n f : heap m a bs -> (c, n, f) ∈ blocks a bs -> blksize m c = n.
Proof.
  intros [HL Hh _] Hc. apply blocks_split in Hc as (l1 & l2 & -> & ->). apply heads_app in Hh as [_ (W & _)].
  unfold blksize, b_size. rewrite W. apply enc_size. by eapply size_bsize.
Qed.

(** ** [k_mm_realloc] *)
Definition rerequest s : Z := Z.max 16 (4 * ((s + 3) / 4)).

Lemma rerequest_spec s : 0 < s <= 2 ^ 31 ->
  (if s <? SIZEOF_MM_LIST then SIZEOF_MM_LIST else MM_ALIGN_UP s) = rerequest s /\
  16 <= rerequest s <= 2 ^ 31 /\ rerequest s mod 4 = 0 /\ s <= rerequest s /\ request (rerequest s) = rerequest s /\ request s <= rerequest s <= request s + 8.
Proof.
  intros Hs. unfold rerequest, request. change SIZEOF_MM_LIST with 16. set (q := (s + 3) / 4).
  assert (4 * q - 3 <= s <= 4 * q /\ 4 * q <= 2 ^ 31) as [Hq1 Hq2] by (unfold q; change (2 ^ 31) with (4 * 2 ^ 29) in *; Z.to_euclidean_division_equations; lia).
  assert (Z.max 16 (4 * q) = 4 * Z.max 4 q) as -> by lia.
  assert ((4 * Z.max 4 q + 3) / 4 = Z.max 4 q) as -> by (Z.to_euclidean_division_equations; lia).
  split_and!; try lia; [|by rewrite Z.mul_comm, Z.mod_mul].
  destruct (Z.ltb_spec s 16); [lia|]. rewrite align_up_spec by lia. fold q. lia.
Qed.

(** The new block of [n'] bytes at [c'] in place of the one of [n] bytes at [c]. *)
Record resized m m' a bs bs' c n c' n' : Prop := {
  rs_heap : heap m' a bs';
  rs_total : total bs' = total bs;
  rs_used : forall d k, (d, k, false) ∈ blocks a bs' <-> ((d, k, false) ∈ blocks a bs /\ d <> c) \/ (d = c' /\ k = n');
  rs_fresh : c' = c \/ forall k, (c', k, false) ∉ blocks a bs;
  rs_keep : forall d k x, (d, k, false) ∈ blocks a bs -> d <> c -> d + 8 <= x < d + 8 + k -> rd m' x = rd m x;
  rs_data : forall i, 0 <= i -> i mod 4 = 0 -> i < n -> i < n' -> rd m' (c' + 8 + i) = rd m (c + 8 + i);
}.

Lemma resized_cut m m' a l1 n l2 N s l2' :
  layout a (l1 ++ (n, false) :: l2) -> total (l1 ++ (N, true) :: l2') = total (l1 ++ (n, false) :: l2) ->
  (forall d k, (d, k, false) ∈ blocks a (l1 ++ (N, true) :: l2') <-> (d, k, false) ∈ blocks a (l1 ++ (n, true) :: l2)) ->
  heap m' a (cut l1 N s l2') ->
  (forall x, payload a (l1 ++ (n, false) :: l2) x -> payload a (cut l1 N s l2') x -> rd m' x = rd m x) ->
  resized m m' a (l1 ++ (n, false) :: l2) (cut l1 N s l2') (a + total l1) n (a + total l1) (granted N s).
Proof.
  intros HL Ht Hu HH K. pose proof (lay_sizes _ _ HL) as Hs.
  assert (forall d k, (d, k, false) ∈ blocks a (cut l1 N s l2') <-> ((d, k, false) ∈ blocks a (l1 ++ (n, false) :: l2) /\ d <> a + total l1) \/ (d = a + total l1 /\ k = granted N s)) as HU
    by (intros; by rewrite used_cut, Hu, used_flag).
  split; [done|by rewrite total_cut|done|by left| |].
  - intros d k x Hd Hne Hx. apply K; right; exists d, k; (split; [|done]); [done|]. apply HU. by left.
  - intros i Hi _ Hn HN. apply K; right; [exists (a + total l1), n; split; [apply blocks_at|lia]|]. exists (a + total l1), (granted N s). split; [|lia]. apply HU. by right.
Qed.

(** The buffers that are handed out are not touched when the block behind is taken in. *)
Lemma realloc_keeps m a l1 n k g l2 x :
  heap m a (l1 ++ (n, false) :: (k, g) :: l2) -> payload a (l1 ++ (n, false) :: (k, g) :: l2) x ->
  stable a (l1 ++ (n, false) :: (k, g) :: l2) x /\ x <> a + total l1 + 4.
Proof. intros HH Hx. apply payload_words in Hx as [H1 H2]; [|apply HH]. split; [done|]. eapply H2, blocks_at. Qed.

Section Realloc.
Context m a l1 n k g l2 (HH : heap m a (l1 ++ (n, false) :: (k, g) :: l2)) (Hn : 8 <= n).
Let b := a + total l1.
Let e := b + 8 + n.
Let bs := l1 ++ (n, false) :: (k, g) :: l2.

Lemma realloc_words :
  blksize m b = n /\ NEXT_MM_BLK (buffer b) n = e /\ blksize m e = k /\ negb (Z.land (b_size m e) RHINO_MM_FREE =? 0) = g /\
  bsize n /\ bsize k /\ n + 8 + k < 2 ^ 19.
Proof.
  pose proof (heap_pend _ _ _ _ _ HH Hn) as HP. destruct (pend_next _ _ _ _ _ _ _ _ _ HP) as (H1 & H2 & H3 & Bk & _). fold b e in H1, H2, H3.
  pose proof (heap_layout _ _ _ HH) as HL. destruct (size_bsize _ _ _ _ _ HL) as [Bn _]. destruct (layout_mid _ _ _ _ _ HL) as (_ & _ & [_ Hs2]%Forall_cons & T1 & _ & _ & Tt & _).
  rewrite total_cons in Tt. destruct (total_nonneg _ Hs2) as [T2 _]. split_and!; try done; [exact (pend_size _ _ _ _ _ _ _ HP)|rewrite H3; by destruct g|lia].
Qed.

(** The block is made smaller where it is; the free block behind it takes what is left. *)
Lemma realloc_shrink r m' :
  16 <= r <= n -> r mod 4 = 0 ->
  m' = (let '(tmp_size, next_b, m) :=
    if negb (Z.land (b_size m e) RHINO_MM_FREE =? 0) then
      let '(_, fl, sl) := bitmap_search (blksize m e) ACTION_INSERT in
      let m := get_block e fl sl m in
      (wrap32 (n + (blksize m e + MMLIST_HEAD_SIZE)), NEXT_MM_BLK (buffer e) (blksize m e), m)
    else (n, e, m) in realloc_cut b r (wrap32 (tmp_size - r)) next_b m) ->
  exists bs' n', resized m m' a bs bs' b n b n' /\ r <= n' < r + 16.
Proof.
  intros Hr Hr4 ->. destruct realloc_words as (E1 & E2 & E3 & -> & Bn & Bk & R). pose proof (heap_layout _ _ _ HH) as HL. fold bs in HL. destruct Bn as [? ?], Bk as [? ?].
  destruct g eqn:Eg; rewrite ?E3.
  - rewrite bitmap_search_insert by lia. destruct (half_get _ _ _ _ _ _ HH) as (k2 & l2' & El2 & HF & Ez & K). cbv zeta in HF, K, Ez. fold b e in HF, K, Ez. fold bs in K. cbv beta iota zeta. rewrite Ez.
    unfold MMLIST_HEAD_SIZE. replace (n + (k + 8)) with (n + 8 + k) by lia. rewrite (wrap32_small (n + 8 + k)) by (unfold u32; lia).
    assert (NEXT_MM_BLK (buffer e) k = b + 8 + (n + 8 + k)) as ->.
    { rewrite (next_blk a (l1 ++ [(n, false)]) k true l2); [unfold e; lia|rewrite <- app_assoc; exact HL|by rewrite El2|rewrite total_snoc; unfold e, b; lia]. }
    assert (8 <= k) as Hk. { apply layout_mid with (l1 := l1 ++ [(n, false)]) (n := k) (f := true) (l2 := l2) (a := a); [by rewrite <- app_assoc|done]. }
    destruct (realloc_cut_spec _ _ _ _ _ _ r _ _ HF) as [HH' K']; [lia|done|lia|]. cbv zeta in HH', K'. fold b in HH', K'.
    eexists _, (granted (n + 8 + k) r). split; [|unfold granted; change SIZEOF_MM_LIST with 16; rewrite (proj2 (Z.leb_le 16 (n + 8 + k - r))) by lia; lia].
    apply resized_cut; [done| | |exact HH'|].
    + rewrite El2, !total_app, !total_cons. lia.
    + intros d j. rewrite used_merge. by rewrite El2.
    + intros x Hx1 Hx2. rewrite K', K; [done|by apply (realloc_keeps m)|done].
  - assert (half m a l1 n n false k l2) as HF by (by apply half_heap). destruct (realloc_cut_spec _ _ _ _ _ _ r _ _ HF) as [HH' K']; [lia|done|done|]. cbv zeta in HH', K'. fold b e in HH', K'.
    eexists _, (granted n r). split; [|unfold granted; change SIZEOF_MM_LIST with 16; destruct (Z.leb_spec 16 (n - r)); lia].
    apply resized_cut; [done| |done|exact HH'|intros x _ Hx; by apply K']. by rewrite !total_app, !total_cons.
Qed.

(** The block takes in the free block behind it; what it does not need is given back. *)
Lemma realloc_grow r m' :
  g = true -> n < r <= n + k -> r mod 4 = 0 ->
  m' = (let '(_, fl, sl) := bitmap_search (blksize m e) ACTION_INSERT in
    let m := get_block e fl sl m in
    let m := set_b_size b (wrap32 (b_size m b + (blksize m e + MMLIST_HEAD_SIZE))) m in
    let next_b := NEXT_MM_BLK (buffer b) (blksize m b) in
    let m := set_b_prev next_b b m in
    let m := set_b_size next_b (Z.land (b_size m next_b) (wrap32 (Z.lnot RHINO_MM_PREVFREE))) m in
    realloc_cut b r (wrap32 (blksize m b - r)) next_b m) ->
  exists bs' n', resized m m' a bs bs' b n b n' /\ r <= n' < r + 16.
Proof.
  intros Hg Hr Hr4 ->. destruct realloc_words as (E1 & E2 & E3 & _ & Bn & Bk & R). subst g. pose proof (heap_layout _ _ _ HH) as HL. fold bs in HL. destruct Bn as [? ?], Bk as [? ?].
  rewrite E3, bitmap_search_insert by lia. destruct (half_get _ _ _ _ _ _ HH) as (k2 & l2' & El2 & HF & Ez & K). cbv zeta in HF, K, Ez. fold b e in HF, K, Ez. fold bs in K.
  cbv beta iota zeta. rewrite Ez. set (m1 := get_block e (cls k).1 (cls k).2 m) in *. destruct (half_word _ _ _ _ _ _ _ _ HF) as [Wb Bj]. fold b in Wb.
  assert (wrap32 (b_size m1 b + (k + MMLIST_HEAD_SIZE)) = enc (n + 8 + k) false (has_prev (exit_prev None a l1))) as ->.
  { unfold b_size. rewrite Wb, <- (wrap_enc (n + 8 + k)) by lia. f_equal. unfold enc, MMLIST_HEAD_SIZE. lia. }
  destruct (half_grow _ _ _ _ _ _ _ _ HF) as [HG KG]. cbv zeta in HG, KG. fold b in HG, KG. set (e2 := b + 8 + (n + 8 + k)) in *.
  set (m2 := set_b_size b (enc (n + 8 + k) false (has_prev (exit_prev None a l1))) m1) in *.
  assert (bsize (n + 8 + k)) as BN by (by destruct (half_sizes _ _ _ _ _ _ _ _ HG)).
  assert (blksize m2 b = n + 8 + k) as -> by (unfold blksize, b_size, m2, set_b_size; by rewrite rd_wr_eq, enc_size).
  assert (NEXT_MM_BLK (buffer b) (n + 8 + k) = e2) as -> by (eapply (next_blk a l1 (n + 8 + k) false); [apply HG|done|done]).
  set (m3 := set_b_size e2 _ (set_b_prev e2 b m2)) in *.
  assert (blksize m3 b = n + 8 + k) as ->. { eapply heap_size; [by apply heap_half|]. apply blocks_at. }
  destruct (realloc_cut_spec _ _ _ _ _ _ r _ _ HG) as [HH' K']; [lia|done|done|]. cbv zeta in HH', K'. fold b e2 in HH', K'.
  eexists _, (granted (n + 8 + k) r). split; [|unfold granted; change SIZEOF_MM_LIST with 16; destruct (Z.leb_spec 16 (n + 8 + k - r)); lia].
  apply resized_cut; [done| | |exact HH'|].
  - rewrite El2, !total_app, !total_cons. lia.
  - intros d j. rewrite used_merge. by rewrite El2.
  - intros x Hx1 Hx2. destruct (realloc_keeps _ _ _ _ _ _ _ _ HH Hx1) as (S1 & S2). rewrite K', KG, K; [done|done| |done]. split; [done|].
    apply payload_words in Hx1 as [_ Hx1]; [|apply HL]. apply (Hx1 e2 k2 false). apply blocks_pair. right; right. cbn [blocks]. right. rewrite El2. unfold e2, b.
    replace (a + total l1 + 8 + n + 8 + k) with (a + total l1 + 8 + (n + 8 + k)) by lia. by left.
Qed.
End Realloc.

(** The block is moved: a new one is taken, the words are copied and the old one is freed. *)
Lemma realloc_move m a bs c n r :
  heap m a bs -> (c, n, false) ∈ blocks a bs -> 8 <= n -> n < r -> 16 <= r <= 2 ^ 31 -> r mod 4 = 0 -> request r = r ->
  let '(ptr_aux, m1) := k_mm_alloc r m in
  (ptr_aux = NULL /\ m1 = m /\ forall d k, (d, k, true) ∈ blocks a bs -> k < search_size r) \/
  (ptr_aux <> NULL /\ blksize m1 c = n /\ exists bs' n',
     resized m (k_mm_free (c + 8) (copy_words (Z.to_nat (n / 4)) ptr_aux (c + 8) m1)) a bs bs' c n (ptr_aux - 8) n' /\ r <= n' < r + 16).
Proof.
  intros HH Hc Hn Hnr Hr Hr4 Er. pose proof (alloc_spec m a bs r HH ltac:(lia)) as HA. rewrite Er in HA. destruct (k_mm_alloc r m) as [p m1].
  pose proof (heap_layout _ _ _ HH) as HL. pose proof (lay_sizes _ _ HL) as Hs.
  destruct HA as [HA|(la & na & lb & -> & -> & Hna0 & HH1 & K1)]; [by left|right]. assert (r <= na) as Hna by (destruct (search_size_spec r) as ([? _] & _); [lia|done|lia]). set (d := a + total la). set (bs1 := cut la na r lb) in *.
  destruct (layout_mid _ _ _ _ _ HL) as (_ & _ & _ & T1 & _). destruct (lay_addr _ _ HL) as [Ha _].
  pose proof (blocks_at a la na true lb) as Hd. fold d in Hd.
  assert ((c, n, false) ∈ blocks a bs1) as Hc1 by (apply used_cut; by left).
  assert ((d, granted na r, false) ∈ blocks a bs1) as Hd1 by (apply used_cut; by right).
  assert (r <= granted na r < r + 16) as Hg by (unfold granted; change SIZEOF_MM_LIST with 16; destruct (Z.leb_spec 16 (na - r)); lia).
  assert (forall k, (d, k, false) ∉ blocks a (la ++ (na, true) :: lb)) as Hfr.
  { intros k Hk. destruct (blocks_sep _ _ _ _ _ _ _ _ Hs Hk Hd) as [(_ & _ & [=])|Hsep]. apply blocks_range in Hk as (_ & _ & ? & _), Hd as (_ & _ & ? & _); [|done..]. cbn [fst] in *. lia. }
  assert (c <> d) as Hcd by (intros ->; by eapply Hfr).
  split_and!; [unfold NULL, d; lia|by eapply heap_size|]. pose proof (lay_sizes _ _ (heap_layout _ _ _ HH1)) as Hs1.
  destruct (blocks_sep _ _ _ _ _ _ _ _ Hs1 Hc1 Hd1) as [(? & _)|Hsep]; [done|].
  assert (n mod 4 = 0) as Hn4 by (apply blocks_range in Hc as (_ & _ & _ & ? & _); done).
  assert (4 * Z.of_nat (Z.to_nat (n / 4)) = n) as E4 by (rewrite Z2Nat.id; Z.to_euclidean_division_equations; lia).
  destruct (copy_words_spec (Z.to_nat (n / 4)) (d + 8) (c + 8) m1) as [C1 C2]; [lia|]. set (m2 := copy_words _ _ _ _) in *.
  assert (heap m2 a bs1) as HH2. { apply copy_heap; [done|]. intros x Hx. right. exists d, (granted na r). split; [done|lia]. }
  destruct (blocks_split _ _ _ _ _ Hc1) as (l1 & l2 & El & Ec). rewrite El in HH2. destruct (free_spec _ _ _ _ _ HH2 Hn) as (HH3 & K3 & _). cbv zeta in HH3, K3. rewrite <- Ec in HH3, K3.
  assert (forall j k, (j, k, false) ∈ blocks a (l1 ++ (n, true) :: l2) <-> (j, k, false) ∈ blocks a bs1 /\ j <> c) as Hu.
  { intros j k. rewrite used_flag, <- El, <- Ec; [done|]. by rewrite <- El. }
  assert (forall j k x, (j, k, false) ∈ blocks a bs1 -> j <> c -> j + 8 <= x < j + 8 + k -> rd (k_mm_free (c + 8) m2) x = rd m2 x) as K4.
  { intros j k x Hj Hne Hx. apply K3. right. exists j, k. split; [|done]. by apply Hu. }
  exists (coalesce l1 n l2), (granted na r). fold d. replace (d + 8 - 8) with d by lia. split; [|done]. split.
  - done.
  - rewrite total_coalesce, <- El. unfold bs1. apply total_cut.
  - intros j k. rewrite used_coalesce, Hu. unfold bs1. rewrite used_cut. fold d. naive_solver.
  - by right.
  - intros j k x Hj Hne Hx. assert ((j, k, false) ∈ blocks a bs1) as Hj1 by (apply used_cut; by left). rewrite (K4 j k), C2, K1; try done; [right; by exists j, k|].
    destruct (blocks_sep _ _ _ _ _ _ _ _ Hs1 Hj1 Hd1) as [(-> & _)|Hsep']; [by exfalso; eapply Hfr|lia].
  - intros i Hi0 Hi4 Hin Hi. rewrite (K4 d (granted na r)) by (done || lia). assert (i = 4 * (i / 4)) as Ei by (Z.to_euclidean_division_equations; lia).
    rewrite Ei at 1. rewrite C1 by (rewrite Z2Nat.id by (apply Z.div_pos; lia); Z.to_euclidean_division_equations; lia). rewrite <- Ei.
    apply K1. right. exists c, n. split; [done|lia].
Qed.

(** [k_mm_realloc] on a block that is handed out. *)
Lemma realloc_spec m a bs c n s :
  heap m a bs -> (c, n, false) ∈ blocks a bs -> 8 <= n -> 0 < s <= 2 ^ 31 ->
  let '(p, m') := k_mm_realloc (c + 8) s m in
  (p = NULL /\ m' = m /\ n < rerequest s /\ forall d k, (d, k, true) ∈ blocks a bs -> k < search_size (rerequest s)) \/
  (p <> NULL /\ exists bs' n', resized m m' a bs bs' c n (p - 8) n' /\ rerequest s <= n' < rerequest s + 16).
Proof.
  intros HH Hc Hn Hs. destruct (rerequest_spec s Hs) as (Er & Rr & Hr4 & _ & Hreq & _). pose proof (heap_layout _ _ _ HH) as HL.
  assert (0 < c) as Hc0 by (apply blocks_range in Hc as [? _]; [|apply HL]; destruct (lay_addr _ _ HL); lia).
  unfold k_mm_realloc. rewrite (proj2 (Z.eqb_neq (c + 8) NULL)), (proj2 (Z.eqb_neq s 0)) by (unfold NULL; lia). cbv zeta.
  replace (c + 8 - MMLIST_HEAD_SIZE) with c by (unfold MMLIST_HEAD_SIZE; lia). rewrite Er.
  pose proof (realloc_move m a bs c n (rerequest s) HH Hc Hn) as Hmv.
  destruct (blocks_split _ _ _ _ _ Hc) as (l1 & l2 & -> & ->). destruct l2 as [|[k g] l2]; [pose proof (lay_last _ _ HL) as El; rewrite last_snoc in El; injection El as ->; lia|].
  destruct (realloc_words _ _ _ _ _ _ _ HH Hn) as (E1 & E2 & E3 & E4 & [? ?] & [? ?] & R). rewrite E1, E2. set (b := a + total l1) in *. set (e := b + 8 + n) in *. set (r := rerequest s) in *.
  destruct (Z.leb_spec r n) as [Hrn|Hrn].
  { pose proof (realloc_shrink _ _ _ _ _ _ _ HH Hn r _ ltac:(lia) Hr4 eq_refl) as (bs' & n' & HR & Hn'). fold b e in HR.
    destruct (if negb (Z.land (b_size m e) RHINO_MM_FREE =? 0) then _ else _) as [[ts nb] m1]. right. split; [unfold NULL, buffer, MMLIST_HEAD_SIZE; lia|]. exists bs', n'.
    split; [|done]. unfold buffer, MMLIST_HEAD_SIZE. by rewrite Z.add_simpl_r. }
  rewrite E3. destruct (negb (Z.land (b_size m e) RHINO_MM_FREE =? 0) && (r <=? wrap32 (n + k))) eqn:Eg.
  { apply andb_true_iff in Eg as [Eg1 Eg2]. rewrite E4 in Eg1. rewrite (wrap32_small (n + k)) in Eg2 by (unfold u32; lia). apply Z.leb_le in Eg2.
    pose proof (realloc_grow _ _ _ _ _ _ _ HH Hn r _ Eg1 ltac:(lia) Hr4 eq_refl) as (bs' & n' & HR & Hn'). fold b e in HR. rewrite E3 in HR.
    destruct (bitmap_search k ACTION_INSERT) as [[? fl] sl]. right. split; [unfold NULL, buffer, MMLIST_HEAD_SIZE; lia|]. exists bs', n'.
    split; [|done]. unfold buffer, MMLIST_HEAD_SIZE. by rewrite Z.add_simpl_r. }
  specialize (Hmv Hrn ltac:(lia) Hr4 Hreq). destruct (k_mm_alloc r m) as [p m1]. destruct Hmv as [(-> & -> & Hf)|(Hp & Ez & bs' & n' & HR & Hn')].
  - by left.
  - rewrite (proj2 (Z.eqb_neq p NULL)), Ez, (proj2 (Z.ltb_ge r n)) by (done || lia). right. split; [done|]. by exists bs', n'.
Qed.
