(* ===== verification/MmHeap.v ===== *)
(** * The heap after [krhino_init_mm_head]

    The head lies at the start of the pool, the region behind it: a block with the region
    info, one free block with the rest of the pool, and the block that ends the region. *)
From S2P Require Import Prelude Bitmap KTypes Mm MmBits MmList MmLayout MmFree MmAlloc MmRealloc.
Local Open Scope Z_scope.

Implicit Types (m : mm_state) (a n : Z).

(** The blocks of a region with no block handed out. *)
Definition fresh_blocks n : list (Z * bool) := [(8, false); (n, true); (0, false)].

(** Empty lists. *)
Lemma flists_empty m : mm_tbl m = ∅ -> sl_bitmap m = ∅ -> fl_bitmap m = 0 -> flists m ∅ (fun _ _ => []).
Proof.
  intros Et Es Ef. assert (forall fl, sl_of m fl = 0) as Es' by (intros; unfold sl_of; by rewrite Es, lookup_empty).
  split; try (intros ? ? [? [=]]); try done.
  - intros fl sl _. unfold dll, tbl_of. by rewrite Et, lookup_empty.
  - intros fl sl _. apply NoDup_nil_2.
  - intros fl sl b _. split; [by intros ?%elem_of_nil|by intros (n & [=] & _)].
  - intros fl _. by rewrite Es'.
  - intros fl sl _. rewrite Es', Z.testbit_0_l. by rewrite bool_decide_true.
  - by rewrite Ef.
  - intros fl Hf. rewrite Ef, Z.testbit_0_l, Es'. by rewrite andb_false_r.
Qed.

(** [init_mm_region] leaves the block of the region's memory allocated, with the bit of its
    successor already set, for [k_mm_free]. *)
Lemma region_spec m a len n :
  mm_tbl m = ∅ -> sl_bitmap m = ∅ -> fl_bitmap m = 0 ->
  0 < a -> a mod 4 = 0 -> len mod 4 = 0 -> n = len - 32 -> 8 <= n -> len <= 2 ^ 19 -> a + len <= 2 ^ 32 ->
  let '(firstblk, m') := init_mm_region a len m in
  firstblk = a /\ pend m' a [(8, false)] n false true [(0, false)] /\ rd m' (a + 4) = 8 /\
  (rd m' (a + 8) = a + 24 + n /\ rd m' (a + 12) = NULL).
Proof.
  intros Et Es Ef Ha Ha4 Hl4 -> Hn Hl He. set (n := len - 32) in *. unfold init_mm_region.
  change (MM_ALIGN_UP SIZEOF_REGION_INFO) with 8. change (Z.lor (Z.lor 8 RHINO_MM_ALLOCED) RHINO_MM_PREVALLOCED) with 8.
  change MMREGION_USED_SIZE with 32. rewrite (wrap32_small (len - 32)) by (unfold u32; lia). fold n.
  rewrite align_down_spec by (unfold n; lia). rewrite <- Z_div_exact_2 by (unfold n; Z.to_euclidean_division_equations; lia).
  unfold RHINO_MM_ALLOCED, RHINO_MM_PREVALLOCED. rewrite !Z.lor_0_r. change (Z.lor (Z.lor 0 0) RHINO_MM_PREVFREE) with 2. cbv zeta.
  set (m1 := set_b_size a 8 m). assert (blksize m1 a = 8) as -> by (unfold blksize, b_size, m1, set_b_size; by rewrite rd_wr_eq).
  assert (NEXT_MM_BLK (buffer a) 8 = a + 16) as -> by (unfold NEXT_MM_BLK, buffer, MMLIST_HEAD_SIZE; rewrite wrap32_small; [lia|unfold u32; lia]).
  set (m4 := set_free_prev (a + 16) 0 (set_free_next (a + 16) 0 (set_b_size (a + 16) n m1))).
  assert (bsize n) as Bn by (unfold bsize, n in *; Z.to_euclidean_division_equations; lia).
  assert (forall x, rd m4 x = if decide (x = a + 24) then 0 else if decide (x = a + 28) then 0 else if decide (x = a + 20) then n else if decide (x = a + 4) then 8 else rd m x) as R4.
  { intros x. unfold m4, set_free_prev, set_free_next, set_b_size, m1, set_b_size. rewrite !rd_wr. repeat case_decide; lia || done. }
  assert (blksize m4 (a + 16) = n) as ->.
  { unfold blksize, b_size. rewrite R4. repeat (rewrite decide_False by lia). rewrite decide_True by lia.
    pose proof (enc_size n false false Bn) as E. unfold enc, Z.b2z in E. by rewrite !Z.add_0_r in E. }
  assert (NEXT_MM_BLK (buffer (a + 16)) n = a + 24 + n) as -> by (unfold NEXT_MM_BLK, buffer, MMLIST_HEAD_SIZE; rewrite wrap32_small; [lia|unfold u32, n; lia]).
  change (buffer a) with (a + 8). set (m' := wr (a + 8) (a + 24 + n) _).
  assert (forall x, rd m' x = if decide (x = a + 8) then a + 24 + n else if decide (x = a + 12) then 0 else if decide (x = a + 24 + n + 4) then 2 else
    if decide (x = a + 24 + n) then a + 16 else rd m4 x) as R'.
  { intros x. unfold m', set_b_size, set_b_prev. rewrite !rd_wr. repeat case_decide; lia || done. }
  assert (forall P : Prop, ~ P -> forall {D : Decision P} (u v : Z), (if decide P then u else v) = v) as DF by (intros P HP D u v; by rewrite decide_False).
  assert (rd m' (a + 4) = 8 /\ rd m' (a + 20) = n /\ rd m' (a + 24 + n + 4) = 2 /\ rd m' (a + 8) = a + 24 + n /\ rd m' (a + 12) = 0) as (W1 & W2 & W3 & W4 & W5).
  { split_and!; rewrite R', ?R4; repeat (rewrite DF by lia); by rewrite decide_True by lia. }
  assert (a + total [(8, false)] = a + 16) as Et1 by (rewrite total_cons; change (total []) with 0; lia).
  split_and!; [done| |done|done|done]. split; rewrite ?Et1.
  - split; [lia|unfold total; cbn [app foldr]; unfold n; lia..|repeat constructor; cbn [fst snd]; try done; try lia; by destruct Bn|done].
  - done.
  - cbn [heads]. by rewrite W1.
  - cbn [exit_prev has_prev]. replace (a + 16 + 4) with (a + 20) by lia. rewrite W2. unfold enc, Z.b2z. lia.
  - done.
  - cbn [tail_heads heads]. replace (a + 16 + 8 + n) with (a + 24 + n) by lia. by rewrite W3.
  - exists (fun _ _ => []). by apply flists_empty.
Qed.

(** The list of regions is only changed when a region is added. *)
Lemma insert_regioninfo b fl sl m : regioninfo (insert_block b fl sl m) = regioninfo m.
Proof. unfold insert_block. cbv zeta. by case_match. Qed.

Lemma get_regioninfo b fl sl m : regioninfo (get_block b fl sl m) = regioninfo m.
Proof.
  unfold get_block. cbv zeta. set (m1 := if negb (free_next m b =? NULL) then _ else m). assert (regioninfo m1 = regioninfo m) as <- by (unfold m1; by case_match).
  generalize m1. clear. intros m. set (m1 := if negb (free_prev m b =? NULL) then _ else m). assert (regioninfo m1 = regioninfo m) as <- by (unfold m1; by case_match).
  generalize m1. clear. intros m. unfold set_free_next, set_free_prev. by repeat case_match.
Qed.

Lemma free_regioninfo p m : regioninfo (k_mm_free p m) = regioninfo m.
Proof.
  unfold k_mm_free. case_match; [done|]. cbv zeta. set (m1 := set_b_size _ _ m). change (regioninfo m) with (regioninfo m1). generalize m1. clear. intros m.
  match goal with |- context [if negb (Z.land (b_size m ?t) RHINO_MM_FREE =? 0) then ?u else m] => set (m1 := if negb (Z.land (b_size m t) RHINO_MM_FREE =? 0) then u else m) end.
  assert (regioninfo m1 = regioninfo m) as <- by (unfold m1; repeat case_match; try apply get_regioninfo; done). generalize m1. clear. intros m.
  match goal with |- context [if negb (Z.land (b_size m ?t) RHINO_MM_PREVFREE =? 0) then ?u else ?v] =>
    assert (regioninfo (if negb (Z.land (b_size m t) RHINO_MM_PREVFREE =? 0) then u else v).2 = regioninfo m) as <-
      by (repeat case_match; try apply get_regioninfo; done);
    destruct (if negb (Z.land (b_size m t) RHINO_MM_PREVFREE =? 0) then u else v) as [b m1] end.
  cbn [snd]. destruct (bitmap_search _ _) as [[? ?] ?]. apply insert_regioninfo.
Qed.

(** The pool, aligned inwards. *)
Definition pool_addr (addr : Z) : Z := 4 * ((addr + 3) / 4).
Definition pool_len (addr len : Z) : Z := 4 * ((len - (pool_addr addr - addr)) / 4).

(** The memory of a fresh heap, and the pools it can be made of. *)
Definition pool_start (addr : Z) : Z := pool_addr addr + SIZEOF_MM_HEAD.
Definition pool_free (addr len : Z) : Z := pool_len addr len - SIZEOF_MM_HEAD - MMREGION_USED_SIZE.
Definition pool_ok (addr len : Z) : Prop := 0 < addr /\ 0 <= len /\ addr + len <= 2 ^ 32 /\ 8 <= pool_free addr len /\ pool_len addr len <= 2 ^ 19.

Lemma init_spec addr len mem :
  pool_ok addr len ->
  exists m, krhino_init_mm_head false addr len mem = (RHINO_SUCCESS, Some (pool_addr addr, m)) /\
  heap m (pool_start addr) (fresh_blocks (pool_free addr len)) /\ regioninfo m = pool_start addr + 8 /\
  region_end m (regioninfo m) = pool_start addr + 24 + pool_free addr len /\ region_next m (regioninfo m) = NULL.
Proof.
  unfold pool_ok, pool_free, pool_start. change SIZEOF_MM_HEAD with 1728. change MMREGION_USED_SIZE with 32. intros (Ha & Hl & He & Hf & Hm).
  unfold krhino_init_mm_head. rewrite (proj2 (Z.eqb_neq addr NULL)) by (unfold NULL; lia). cbv iota zeta.
  assert (0 <= len - (pool_addr addr - addr) < 2 ^ 32 /\ addr <= pool_addr addr <= 2 ^ 32 - 4 /\ pool_addr addr mod 4 = 0 /\ pool_len addr len mod 4 = 0) as (R1 & R2 & R3 & R4).
  { unfold pool_len, pool_addr in *. change (2 ^ 32) with (4 * 2 ^ 30) in *. change (2 ^ 19) with (4 * 2 ^ 17) in *. split_and!; Z.to_euclidean_division_equations; lia. }
  rewrite align_up_spec by lia. fold (pool_addr addr). rewrite (wrap32_small (len - (pool_addr addr - addr))) by (unfold u32; lia).
  rewrite (align_down_spec (len - _)) by lia. fold (pool_len addr len). rewrite (align_down_spec (pool_len addr len)) by lia.
  rewrite <- Z_div_exact_2, Z.eqb_refl by lia. change (Z.land (pool_addr addr) MM_ALIGN_MASK) with (Z.land (pool_addr addr) (Z.ones 2)).
  rewrite Z.land_ones by lia. change (2 ^ 2) with 4. rewrite R3. change MAX_MM_SIZE with (2 ^ 19). change (MIN_FREE_MEMORY_SIZE + RHINO_CONFIG_MM_TLF_BLK_SIZE) with 1024.
  rewrite (proj2 (Z.eqb_neq (pool_len addr len) 0)), (proj2 (Z.ltb_ge (pool_len addr len) 1024)), (proj2 (Z.ltb_ge (2 ^ 19) (pool_len addr len))) by lia. cbn [negb orb Z.eqb].
  change (MM_ALIGN_UP SIZEOF_MM_HEAD) with 1728. change SIZEOF_MM_HEAD with 1728. rewrite (wrap32_small (pool_len addr len - 1728)) by (unfold u32; lia).
  rewrite (align_down_spec (_ - 1728)) by lia. rewrite <- Z_div_exact_2 by (Z.to_euclidean_division_equations; lia).
  set (m0 := Build_mm_state mem 0 0 ∅ ∅). set (a := pool_addr addr + 1728). set (n := pool_len addr len - 1728 - 32) in *.
  assert (pool_addr addr + pool_len addr len <= addr + len) as R5 by (unfold pool_len in *; Z.to_euclidean_division_equations; lia).
  pose proof (region_spec m0 a (pool_len addr len - 1728) n eq_refl eq_refl eq_refl) as Hr.
  destruct (init_mm_region a (pool_len addr len - 1728) m0) as [fb m1]. destruct Hr as (-> & HP & W1 & W2 & W3); try (unfold a, n; lia); try (unfold a; Z.to_euclidean_division_equations; lia).
  set (m2 := m1 <| regioninfo := buffer a |>). assert (pend m2 a [(8, false)] n false true [(0, false)]) as HP2.
  { destruct HP as [P1 P2 P3 P4 P5 P6 [L P7]]. split; try done. exists L. by eapply flists_frame, P7. }
  assert (blksize m2 a = 8) as -> by (unfold blksize, b_size; change (rd m2 (a + 4)) with (rd m1 (a + 4)); by rewrite W1).
  assert (NEXT_MM_BLK (buffer a) 8 = a + 16) as -> by (unfold NEXT_MM_BLK, buffer, MMLIST_HEAD_SIZE; rewrite wrap32_small; [lia|unfold u32, a; lia]).
  eexists. split; [reflexivity|]. destruct (free_pend _ _ _ _ _ _ HP2) as (HH & K & _). cbv zeta in HH, K.
  assert (a + total [(8, false)] + 8 = buffer (a + 16)) as Eb by (rewrite total_cons; change (total []) with 0; unfold buffer, MMLIST_HEAD_SIZE; lia). rewrite Eb in HH, K.
  split; [exact HH|].
  assert (forall x, a + 8 <= x < a + 16 -> payload a ([(8, false)] ++ (n, true) :: [(0, false)]) x) as Hp.
  { intros x Hx. right. exists a, 8. split; [by left|lia]. }
  rewrite free_regioninfo. change (regioninfo m2) with (a + 8). unfold region_end, region_next. split_and!; [done|rewrite K; [exact W2|apply Hp; lia]|].
  rewrite K; [|apply Hp; lia]. replace (a + 8 + 4) with (a + 12) by lia. exact W3.
Qed.

(** * The heap as its clients see it

    Clients allocate, resize and free buffers and write into the ones they hold.  The
    abstract state of the heap is the map of the buffers held, each with the length that
    was asked for and the words that were written to it; a step of a client runs the
    allocator and updates the abstract state the way the documented interface says.
    [heap_inv] relates the two: the memory of every buffer holds what was written, and
    the allocated blocks of the region are the buffers.  Every step preserves it. *)

Implicit Types (b x k s p q i v : Z) (f : bool) (bs l : list (Z * bool)) (h : gmap Z Z).

(** ** The abstract heap *)
Record buf := { b_len : Z; b_data : gmap Z Z }.

Definition buf_new s : buf := {| b_len := s; b_data := ∅ |}.
Definition buf_write i v (B : buf) : buf := {| b_len := b_len B; b_data := <[i := v]> (b_data B) |}.
(** Resizing keeps the words that fit. *)
Definition buf_resize s (B : buf) : buf := {| b_len := s; b_data := filter (fun iv => iv.1 + 4 <= s) (b_data B) |}.

Inductive heap_op := HAlloc (s : Z) | HFree (p : Z) | HRealloc (p s : Z) | HWrite (p i v : Z).

(** The allocator and the buffers held. *)
Record client := { c_mm : mm_state; c_bufs : gmap Z buf }.

Definition size_allowed s : Prop := 0 < s <= 2 ^ 31.
#[export] Instance size_allowed_dec s : Decision (size_allowed s).
Proof. unfold size_allowed. apply _. Defined.

(** A word inside a buffer of [s] bytes. *)
Definition word_of s i : Prop := 0 <= i /\ i + 4 <= s /\ i mod 4 = 0.
#[export] Instance word_of_dec s i : Decision (word_of s i).
Proof. unfold word_of. apply _. Defined.

(** What clients do; [None] when they may not: a buffer that is not held, a word that is
    not in it, a size of zero or of more than half of the address space. *)
Definition heap_step (o : heap_op) (c : client) : option client :=
  match o with
  | HAlloc s =>
      if decide (size_allowed s) then
        let '(p, m) := mm_alloc s (c_mm c) in
        Some {| c_mm := m; c_bufs := if p =? NULL then c_bufs c else <[p := buf_new s]> (c_bufs c) |}
      else None
  | HFree p =>
      if decide (is_Some (c_bufs c !! p)) then Some {| c_mm := mm_free p (c_mm c); c_bufs := delete p (c_bufs c) |} else None
  | HRealloc p s =>
      match c_bufs c !! p with
      | Some B =>
          if decide (size_allowed s) then
            let '(q, m) := mm_realloc p s (c_mm c) in
            Some {| c_mm := m; c_bufs := if q =? NULL then c_bufs c else <[q := buf_resize s B]> (delete p (c_bufs c)) |}
          else None
      | None => None
      end
  | HWrite p i v =>
      match c_bufs c !! p with
      | Some B => if decide (word_of (b_len B) i) then Some {| c_mm := wr (p + i) v (c_mm c); c_bufs := <[p := buf_write i v B]> (c_bufs c) |} else None
      | None => None
      end
  end.

Definition heap_run (os : list heap_op) (c : client) : option client :=
  fold_left (fun oc o => match oc with Some c => heap_step o c | None => None end) os (Some c).

(** ** The invariant *)

(** A request of [s] bytes is served with at least [s] and less than [request s + 24] bytes. *)
Definition fits s n : Prop := request s <= n < request s + 24.

(** Of the [T] bytes at [a] the buffers [h] (with their lengths) are handed out: the blocks
    in use, [U], are the first and the last of the region and one for each buffer. *)
Record owns a (T : Z) (U : Z -> Z -> Prop) h : Prop := {
  own_first : U a 8;
  own_used : forall c n, U c n -> (c = a \/ c + 8 = a + T) \/ exists s, h !! (c + 8) = Some s /\ fits s n;
  own_held : forall p s, h !! p = Some s -> size_allowed s /\ p <> a + 8 /\ exists n, U (p - 8) n /\ fits s n;
}.

Definition used a bs c n : Prop := (c, n, false) ∈ blocks a bs.

Record heap_inv a (T : Z) (c : client) : Prop := {
  hi_heap : exists bs, heap (c_mm c) a bs /\ total bs = T /\ owns a T (used a bs) (b_len <$> c_bufs c);
  hi_data : forall p B i v, c_bufs c !! p = Some B -> b_data B !! i = Some v -> word_of (b_len B) i /\ rd (c_mm c) (p + i) = v;
}.

(** ** The buffers in a layout *)
Section Owns.
Context a (T : Z) bs h (HL : layout a bs) (HT : total bs = T) (HO : owns a T (used a bs) h).

Lemma held_fits p s : h !! p = Some s -> exists n, (p - 8, n, false) ∈ blocks a bs /\ s <= n /\ 8 <= n /\ fits s n.
Proof.
  intros Hp. destruct (own_held _ _ _ _ HO _ _ Hp) as (Hs & _ & n & Hb & Hf). destruct (request_spec s Hs) as (_ & Hr & _ & Hsr).
  exists n. unfold fits in *. split_and!; [done|lia..].
Qed.

Lemma held_range p s : h !! p = Some s -> p mod 4 = 0 /\ a + 24 <= p /\ p + s + 8 <= a + T.
Proof.
  intros Hp. destruct (held_fits _ _ Hp) as (n & Hb & Hn & Hn8 & _). destruct (own_held _ _ _ _ HO _ _ Hp) as (_ & Hpa & _).
  pose proof (lay_sizes _ _ HL) as Hsz. pose proof (blocks_sep _ _ _ _ _ _ _ _ Hsz Hb (own_first _ _ _ _ HO)) as Hsep. pose proof HT as Et.
  apply blocks_range in Hb as Hrg; [|done]. destruct Hrg as (R1 & _). apply blocks_split in Hb as (l1 & l2 & -> & E).
  destruct (layout_mid _ _ _ _ _ HL) as (_ & _ & Hs2 & _ & _ & M4 & _). rewrite total_app, total_cons in Et.
  assert (l2 <> []) as Hne. { intros ->. pose proof (lay_last _ _ HL) as El. rewrite last_snoc in El. injection El as ->. lia. }
  destruct (total_nonneg _ Hs2) as (_ & Ht2 & _). specialize (Ht2 Hne). split_and!; [Z.to_euclidean_division_equations; lia|lia|lia].
Qed.

Lemma held_disjoint p s q t : h !! p = Some s -> h !! q = Some t -> p <> q -> p + s + 8 <= q \/ q + t + 8 <= p.
Proof.
  intros Hp Hq Hne. destruct (held_fits _ _ Hp) as (n & Hb & Hn & _), (held_fits _ _ Hq) as (k & Hc & Hk & _).
  destruct (blocks_sep _ _ _ _ _ _ _ _ (lay_sizes _ _ HL) Hb Hc) as [(? & _)|Hd]; lia.
Qed.

Lemma held_payload p s i : h !! p = Some s -> 0 <= i < s -> payload a bs (p + i).
Proof. intros Hp Hi. destruct (held_fits _ _ Hp) as (n & Hb & Hn & _). right. exists (p - 8), n. split; [done|lia]. Qed.
End Owns.


(** ** Changes of the blocks in use *)
Lemma owns_ext a T (U U' : Z -> Z -> Prop) h : (forall c n, U c n <-> U' c n) -> owns a T U h -> owns a T U' h.
Proof.
  intros HE [H1 H2 H3]. split; [by apply HE|intros c n Hc; apply (H2 c n); by apply HE|]. intros p s Hp. destruct (H3 p s Hp) as (? & ? & n & Hn & ?).
  split_and!; try done; try lia; eauto. exists n. split; [by apply HE|done].
Qed.

Lemma owns_insert a T (U : Z -> Z -> Prop) h c' n' s' :
  owns a T U h -> (forall n, ~ U c' n) -> c' <> a -> size_allowed s' -> fits s' n' ->
  owns a T (fun c n => U c n \/ (c = c' /\ n = n')) (<[c' + 8 := s']> h).
Proof.
  intros [H1 H2 H3] Hf Ha Hs Hn. split; [by left| |].
  - intros c n [Hc|[-> ->]].
    + destruct (H2 c n Hc) as [?|(s & Hh & ?)]; [by left|right]. exists s. split; [|done]. rewrite lookup_insert_ne; [done|]. intros E. apply (Hf n). by replace c' with c by lia.
    + right. exists s'. by rewrite lookup_insert_eq.
  - intros p s. destruct (decide (p = c' + 8)) as [->|Hp].
    + rewrite lookup_insert_eq. intros [= <-]. split_and!; [done|lia|]. exists n'. split; [right; split; [lia|done]|done].
    + rewrite lookup_insert_ne by done. intros (? & ? & n & ? & ?)%H3. split_and!; [done|done|]. exists n. split; [by left|done].
Qed.

Lemma owns_delete a T (U : Z -> Z -> Prop) h c' :
  owns a T U h -> c' <> a -> owns a T (fun c n => U c n /\ c <> c') (delete (c' + 8) h).
Proof.
  intros [H1 H2 H3] Ha. split; [by split|..].
  - intros c n [Hc Hne]. destruct (H2 c n Hc) as [?|(s & Hh & ?)]; [by left|right]. exists s. by rewrite lookup_delete_ne by lia.
  - intros p s [Hp (? & ? & n & ? & ?)%H3]%lookup_delete_Some. split_and!; [done|done|]. exists n. split; [split; [done|lia]|done].
Qed.

Lemma granted_fits s n : request s <= n -> fits s (granted n (request s)).
Proof. intros Hn. unfold fits, granted. change SIZEOF_MM_LIST with 16. destruct (Z.leb_spec 16 (n - request s)); lia. Qed.

Lemma search_fits s n : size_allowed s -> search_size (request s) <= n -> request s <= n.
Proof. intros Hs Hn. destruct (request_spec s Hs) as (_ & ? & ? & _). destruct (search_size_spec (request s)) as ([? _] & _); [lia|done|lia]. Qed.

(** ** The steps *)
Section Steps.
Context a (T : Z) m (C : gmap Z buf).
Context (HI : heap_inv a T {| c_mm := m; c_bufs := C |}).

Lemma step_alloc s p m' : size_allowed s -> mm_alloc s m = (p, m') -> heap_inv a T {| c_mm := m'; c_bufs := if p =? NULL then C else <[p := buf_new s]> C |}.
Proof.
  intros Hs Ea. destruct HI as [(bs & HH & Ht & HO) Hd]; cbn [c_mm c_bufs] in *. pose proof (heap_layout _ _ _ HH) as HL.
  unfold mm_alloc in Ea. rewrite (proj2 (Z.eqb_neq s 0)) in Ea by (unfold size_allowed in Hs; lia). pose proof (alloc_spec m a bs s HH Hs) as HA.
  rewrite Ea in HA. destruct HA as [(-> & -> & _)|(l1 & n & l2 & -> & -> & Hn0 & HH' & K)]; [by split; [exists bs|]|]. pose proof (search_fits s n Hs Hn0) as Hn.
  destruct (layout_mid _ _ _ _ _ HL) as (_ & _ & _ & T1 & _), (lay_addr _ _ HL). rewrite (proj2 (Z.eqb_neq _ NULL)) by (unfold NULL; lia).
  pose proof (lay_sizes _ _ HL) as Hsz. pose proof (blocks_at a l1 n true l2) as Hb.
  assert (forall k, ~ used a (l1 ++ (n, true) :: l2) (a + total l1) k) as Hf.
  { intros k Hk. destruct (blocks_sep _ _ _ _ _ _ _ _ Hsz Hk Hb) as [(_ & _ & [=])|Hsep]. apply blocks_range in Hk as (_ & _ & ? & _), Hb as (_ & _ & ? & _); [|done..]. cbn [fst] in *. lia. }
  split; cbn [c_mm c_bufs].
  - eexists. split; [exact HH'|]. split; [by rewrite total_cut|]. rewrite fmap_insert. eapply owns_ext.
    2:{ eapply owns_insert; [exact HO|exact Hf| |done|by apply granted_fits]. intros E. apply (Hf 8). rewrite E. apply HO. }
    intros c k. cbv beta. symmetry. apply used_cut.
  - intros p B i v. destruct (decide (p = a + total l1 + 8)) as [->|Hp]; [rewrite lookup_insert_eq; by intros [= <-]|].
    rewrite lookup_insert_ne by done. intros HB Hv. destruct (Hd _ _ _ _ HB Hv) as [Hw Hr]. split; [done|]. rewrite K; [done|].
    eapply held_payload; [exact HO|by rewrite lookup_fmap, HB|destruct Hw; lia].
Qed.

Lemma step_free p : is_Some (C !! p) -> heap_inv a T {| c_mm := mm_free p m; c_bufs := delete p C |}.
Proof.
  intros [B HB]. destruct HI as [(bs & HH & Ht & HO) Hd]; cbn [c_mm c_bufs] in *. pose proof (heap_layout _ _ _ HH) as HL.
  assert ((b_len <$> C) !! p = Some (b_len B)) as Hp by (by rewrite lookup_fmap, HB). destruct (held_fits _ _ _ _ HO _ _ Hp) as (n & Hb & _ & Hn & _).
  destruct (own_held _ _ _ _ HO _ _ Hp) as (_ & Hpa & _). apply blocks_split in Hb as (l1 & l2 & -> & E). assert (p = a + total l1 + 8) as -> by lia.
  destruct (free_spec _ _ _ _ _ HH Hn) as (HH' & K & _). cbv zeta in *. pose proof (lay_sizes _ _ HL) as Hsz. split; cbn [c_mm c_bufs].
  - eexists. split; [exact HH'|]. split; [by rewrite total_coalesce|]. rewrite fmap_delete. eapply owns_ext; [|eapply owns_delete; [exact HO|lia]].
    intros c k. cbv beta. unfold used. by rewrite used_coalesce, used_flag.
  - intros q B' i v [Hq HB']%lookup_delete_Some Hv. destruct (Hd _ _ _ _ HB' Hv) as [Hw Hr]. split; [done|]. unfold mm_free. rewrite K; [done|].
    assert ((b_len <$> C) !! q = Some (b_len B')) as Hq' by (by rewrite lookup_fmap, HB'). destruct (held_fits _ _ _ _ HO _ _ Hq') as (k & Hk & Hk' & _).
    right. exists (q - 8), k. split; [apply used_flag; [done|split; [done|lia]]|destruct Hw; lia].
Qed.

Lemma step_realloc p B s q m' : C !! p = Some B -> size_allowed s -> mm_realloc p s m = (q, m') ->
  heap_inv a T {| c_mm := m'; c_bufs := if q =? NULL then C else <[q := buf_resize s B]> (delete p C) |}.
Proof.
  intros HB Hs Er. destruct HI as [(bs & HH & Ht & HO) Hd]; cbn [c_mm c_bufs] in *. pose proof (heap_layout _ _ _ HH) as HL.
  assert ((b_len <$> C) !! p = Some (b_len B)) as Hp by (by rewrite lookup_fmap, HB). destruct (held_fits _ _ _ _ HO _ _ Hp) as (n & Hb & Hbn & Hn & _).
  destruct (own_held _ _ _ _ HO _ _ Hp) as (_ & Hpa & _). pose proof (realloc_spec m a bs (p - 8) n s HH Hb Hn Hs) as HR. replace (p - 8 + 8) with p in HR by lia.
  unfold mm_realloc in Er. rewrite Er in HR. destruct HR as [(-> & -> & _)|(Hq & bs' & n' & HR & Hn')]; [by split; [exists bs|]|].
  rewrite (proj2 (Z.eqb_neq q NULL)) by done. destruct (rerequest_spec s Hs) as (_ & Hr16 & _ & Hsr & _ & Hrr).
  assert (q - 8 <> a) as Hqa.
  { intros E. destruct (rs_fresh _ _ _ _ _ _ _ _ _ HR) as [E'|Hf]; [lia|]. rewrite E in Hf. by apply (Hf 8), HO. }
  split; cbn [c_mm c_bufs].
  - eexists. split; [apply HR|]. split; [by rewrite (rs_total _ _ _ _ _ _ _ _ _ HR)|]. rewrite fmap_insert, fmap_delete. cbn [b_len buf_resize].
    assert (owns a T (fun c k => (used a bs c k /\ c <> p - 8) \/ (c = q - 8 /\ k = n')) (<[q - 8 + 8 := s]> (delete (p - 8 + 8) (b_len <$> C)))) as HO'.
    { apply owns_insert; [apply owns_delete; [exact HO|lia]| |lia|done|unfold fits; lia].
      intros k [Hk Hne]. destruct (rs_fresh _ _ _ _ _ _ _ _ _ HR) as [E'|Hf]; [lia|]. by eapply Hf. }
    rewrite !Z.sub_add in HO'. eapply owns_ext, HO'. intros c k. symmetry. apply (rs_used _ _ _ _ _ _ _ _ _ HR).
  - intros x B' i v. destruct (decide (x = q)) as [->|Hx].
    + rewrite lookup_insert_eq. intros [= <-] [Hv Hi]%map_lookup_filter_Some. cbn [b_len buf_resize fst] in *. destruct (Hd _ _ _ _ HB Hv) as [(Hw1 & Hw2 & Hw3) Hr].
      split; [done|]. pose proof (rs_data _ _ _ _ _ _ _ _ _ HR i) as HD. rewrite !Z.sub_add in HD. rewrite HD; [done|lia..].
    + rewrite lookup_insert_ne by done. intros [Hxp HB']%lookup_delete_Some Hv. destruct (Hd _ _ _ _ HB' Hv) as [Hw Hr]. split; [done|].
      assert ((b_len <$> C) !! x = Some (b_len B')) as Hx' by (by rewrite lookup_fmap, HB'). destruct (held_fits _ _ _ _ HO _ _ Hx') as (k & Hk & Hk' & _).
      rewrite (rs_keep _ _ _ _ _ _ _ _ _ HR (x - 8) k); [done|done|lia|destruct Hw; lia].
Qed.

Lemma step_write p B i v : C !! p = Some B -> word_of (b_len B) i -> heap_inv a T {| c_mm := wr (p + i) v m; c_bufs := <[p := buf_write i v B]> C |}.
Proof.
  intros HB Hw. destruct HI as [(bs & HH & Ht & HO) Hd]; cbn [c_mm c_bufs] in *. pose proof (heap_layout _ _ _ HH) as HL.
  assert ((b_len <$> C) !! p = Some (b_len B)) as Hp by (by rewrite lookup_fmap, HB). split; cbn [c_mm c_bufs].
  - exists bs. split; [apply heap_wr; [done|]; eapply held_payload; [exact HO|done|destruct Hw; lia]|]. split; [done|].
    rewrite fmap_insert. cbn [b_len buf_write]. by rewrite insert_id.
  - intros q B' j u. destruct (decide (q = p)) as [->|Hq].
    + rewrite lookup_insert_eq. intros [= <-]. cbn [b_data buf_write b_len]. destruct (decide (j = i)) as [->|Hj].
      * rewrite lookup_insert_eq. intros [= <-]. split; [done|]. apply rd_wr_eq.
      * rewrite lookup_insert_ne by done. intros Hu. destruct (Hd _ _ _ _ HB Hu). rewrite rd_wr_ne by lia. done.
    + rewrite lookup_insert_ne by done. intros HB' Hu. destruct (Hd _ _ _ _ HB' Hu) as [Hw' Hr]. split; [done|].
      assert ((b_len <$> C) !! q = Some (b_len B')) as Hq' by (by rewrite lookup_fmap, HB').
      pose proof (held_disjoint a T bs _ HL HO _ _ _ _ Hp Hq' ltac:(done)). rewrite rd_wr_ne by (destruct Hw, Hw'; lia). done.
Qed.
End Steps.

Lemma step_inv a (T : Z) o c c' : heap_inv a T c -> heap_step o c = Some c' -> heap_inv a T c'.
Proof.
  destruct c as [m C]. intros HI. destruct o as [s|p|p s|p i v]; cbn [heap_step c_mm c_bufs].
  - case_decide; [|done]. destruct (mm_alloc s m) as [p m'] eqn:E. intros [= <-]. by eapply step_alloc.
  - case_decide; [|done]. intros [= <-]. by apply step_free.
  - destruct (C !! p) as [B|] eqn:HB; [|done]. case_decide; [|done]. destruct (mm_realloc p s m) as [q m'] eqn:E. intros [= <-]. by eapply step_realloc.
  - destruct (C !! p) as [B|] eqn:HB; [|done]. case_decide; [|done]. intros [= <-]. by eapply step_write.
Qed.

Lemma run_inv a (T : Z) os c c' : heap_inv a T c -> heap_run os c = Some c' -> heap_inv a T c'.
Proof.
  unfold heap_run. revert c. induction os as [|o os IH]; intros c Hc; cbn [fold_left]; [by intros [= <-]|].
  destruct (heap_step o c) as [c1|] eqn:E; [apply IH; by eapply step_inv|]. clear. by induction os.
Qed.

(** The client of a fresh heap. *)
Definition fresh_client m : client := {| c_mm := m; c_bufs := ∅ |}.

Lemma fresh_inv m a n : heap m a (fresh_blocks n) -> heap_inv a (n + 32) (fresh_client m).
Proof.
  intros HH. split; [|done]. exists (fresh_blocks n). split; [done|]. split; [unfold fresh_blocks; rewrite !total_cons; change (total []) with 0; lia|].
  cbn [c_bufs fresh_client]. rewrite fmap_empty. split; [by left| |done].
  intros c k. unfold used, fresh_blocks. cbn [blocks]. rewrite !elem_of_cons, elem_of_nil. intros [[= -> ->]|[[=]|[[= -> ->]|[]]]]; left; lia.
Qed.

(** What a client has after the operations [os] on a heap made of a pool. *)
Definition heap_reached addr len mem os c : Prop :=
  exists A m, krhino_init_mm_head false addr len mem = (RHINO_SUCCESS, Some (A, m)) /\ heap_run os (fresh_client m) = Some c.

Lemma reached_inv addr len mem os c : pool_ok addr len -> heap_reached addr len mem os c -> heap_inv (pool_start addr) (pool_free addr len + 32) c.
Proof.
  intros Hp (A & m & E & Hr). destruct (init_spec addr len mem Hp) as (m' & E' & HH & _). rewrite E in E'. injection E' as -> ->. eapply run_inv, Hr. by apply fresh_inv.
Qed.

(** With no buffer held, the free memory is one block again. *)
Lemma empty_layout m a T bs :
  heap m a bs -> total bs = T -> owns a T (used a bs) ∅ -> 40 <= T -> bs = fresh_blocks (T - 32).
Proof.
  intros [HL Hh _] Ht HO H40. pose proof (lay_sizes _ _ HL) as Hs. destruct bs as [|[n0 f0] bs]; [cbn in Ht; lia|].
  assert ((a, n0, f0) ∈ blocks a ((n0, f0) :: bs)) as H0 by (by left).
  destruct (blocks_sep _ _ _ _ _ _ _ _ Hs (own_first _ _ _ _ HO) H0) as [(_ & <- & <-)|Hd]; [|apply blocks_range in H0 as (_ & _ & ? & _); [|done]; cbn [fst] in *; lia].
  apply Forall_cons in Hs as [_ Hs].
  assert (forall l1 k l2, bs = l1 ++ (k, false) :: l2 -> k = 0 /\ l2 = []) as Hlast.
  { intros l1 k l2 ->. apply Forall_app in Hs as [Hs1 [[Hk _] Hs2]%Forall_cons]. cbn [fst] in Hk. destruct (total_nonneg _ Hs1) as [T1 _], (total_nonneg _ Hs2) as (T2 & Hne & _).
    destruct (own_used _ _ _ _ HO (a + total ((8, false) :: l1)) k) as [[E|E]|(s & [=] & _)].
    - exact (blocks_at a ((8, false) :: l1) k false l2).
    - rewrite total_cons in E. lia.
    - rewrite !total_cons, total_app, total_cons in *. split; [lia|]. destruct l2; [done|]. assert (8 <= total (p :: l2)) by (by apply Hne). lia. }
  destruct Hh as (_ & _ & Hh). destruct bs as [|[n f] bs]; [pose proof (lay_last _ _ HL) as E; discriminate E|].
  destruct f; [|destruct (Hlast [] n bs eq_refl) as [-> ->]; rewrite !total_cons in Ht; change (total []) with 0 in Ht; lia].
  destruct Hh as (_ & _ & Hh). destruct bs as [|[k g] bs]; [pose proof (lay_last _ _ HL) as E; discriminate E|]. destruct Hh as (_ & Hg & _).
  destruct (Hg _ eq_refl) as [_ ->]. destruct (Hlast [(n, true)] k bs eq_refl) as [-> ->]. rewrite !total_cons in Ht. change (total []) with 0 in Ht.
  unfold fresh_blocks. do 3 f_equal. lia.
Qed.

(** ** What clients can rely on *)


(** C23: once every buffer is freed, in whatever order and after whatever operations, the free
    memory is one block of the original size again, and an allocation succeeds exactly when
    the request, rounded up to a whole size class, is not larger than that block. *)
Theorem heap_recovers addr len mem os c :
  pool_ok addr len -> heap_reached addr len mem os c -> c_bufs c = ∅ ->
  heap (c_mm c) (pool_start addr) (fresh_blocks (pool_free addr len)) /\
  forall s, size_allowed s -> (mm_alloc s (c_mm c)).1 <> NULL <-> search_size (request s) <= pool_free addr len.
Proof.
  intros Hp Hr He. destruct (reached_inv _ _ _ _ _ Hp Hr) as [(bs & HH & Ht & HO) _]. rewrite He, fmap_empty in HO.
  pose proof (empty_layout _ _ _ _ HH Ht HO) as E. rewrite E in HH by (destruct Hp as (_ & _ & _ & ? & _); lia). replace (pool_free addr len + 32 - 32) with (pool_free addr len) in HH by lia.
  split; [done|]. intros s Hs. pose proof (heap_layout _ _ _ HH) as HL. unfold mm_alloc. rewrite (proj2 (Z.eqb_neq s 0)) by (unfold size_allowed in Hs; lia).
  pose proof (alloc_spec _ _ _ s HH Hs) as HA. destruct (k_mm_alloc s (c_mm c)) as [p m']. cbn [fst].
  destruct HA as [(-> & _ & Hn)|(l1 & n & l2 & El & -> & Hn & _)].
  - split; [done|]. intros Hle. exfalso. apply (Z.lt_nge (pool_free addr len) (search_size (request s))); [|done]. apply (Hn (pool_start addr + 8 + 8)). right. by left.
  - rewrite El in HL. destruct (layout_mid _ _ _ _ _ HL) as (_ & _ & _ & T1 & _), (lay_addr _ _ HL). split; [intros _|intros _; unfold NULL; lia].
    destruct l1 as [|x [|y [|z l1]]]; [discriminate El|injection El as _ -> _; done|discriminate El|destruct l1; discriminate El].
Qed.


Module HeapDemo.
Definition demo_heap : mm_state :=
  match krhino_init_mm_head false 1001 4000 ∅ with (_, Some (_, m)) => m | _ => Build_mm_state ∅ 0 0 ∅ ∅ end.

(** Two buffers; the first is moved by a resizing and keeps its word. *)
Definition demo_ops : list heap_op := [HAlloc 10; HWrite 2756 4 77; HAlloc 300; HRealloc 2756 1000; HWrite 2776 296 5].
Definition run_or (os : list heap_op) : client := default (fresh_client demo_heap) (heap_run os (fresh_client demo_heap)).

Lemma demo_pool : pool_ok 1001 4000.
Proof. unfold pool_ok. vm_compute. repeat split; discriminate. Qed.

Lemma demo_reached os : heap_run os (fresh_client demo_heap) = Some (run_or os) -> heap_reached 1001 4000 ∅ os (run_or os).
Proof. intros E. exists 1004, demo_heap. split; [vm_compute; reflexivity|done]. Qed.


Definition free_ops : list heap_op := demo_ops ++ [HFree 2776; HFree 3084].

Lemma heap_recovers_witness : (mm_alloc 2100 (c_mm (run_or free_ops))).1 <> NULL.
Proof.
  apply (proj2 (heap_recovers 1001 4000 ∅ free_ops (run_or free_ops) demo_pool ltac:(apply demo_reached; vm_compute; reflexivity) ltac:(vm_compute; reflexivity)) 2100);
    [split; lia|vm_compute; discriminate].
Defined.

End HeapDemo.

(** A pool of 1024 bytes passes the size check, although the head alone has 1728: the region
    lies behind the end of the pool, and its size wraps around. *)
Example small_pool_overruns :
  match krhino_init_mm_head false 1000 1024 ∅ with
  | (stat, Some (_, m)) => stat = RHINO_SUCCESS /\ 1000 + 1024 < regioninfo m /\ blksize m (regioninfo m + 8) = 2 ^ 32 - 736
  | _ => False
  end.
Proof. vm_compute. split_and!; reflexivity. Qed.

(** Rounding up a request of almost the whole address space wraps around to zero, and a
    block of 8 bytes is returned. *)
Example huge_request_wraps :
  let '(p, m) := mm_alloc 0xFFFFFFFE HeapDemo.demo_heap in p <> NULL /\ blksize m (p - 8) = 8.
Proof. vm_compute. split; [discriminate|reflexivity]. Qed.
