(* ===== verification/Timer.v ===== *)
(** * Software timers ([k_timer.c])

    The API functions only send commands: they take a command block from
    [g_timer_pool], fill it and send its address through [g_timer_queue].  The timer
    task executes the commands and runs the callbacks of the timers that are due.
    Active timers are on [g_timer_head], ordered by the time they have left.

    A command block is memory of the pool: its first word, [cb->timer], is also the link
    of the pool's free list, so it is read and written through [user_words].  The
    callbacks are not part of the source; [run_cb cb timer arg] is the effect of calling
    one, and the functions that call them also return the calls in order. *)
From S2P Require Import Prelude Bitmap KTypes Alloc RunQueue RingBuf Kernel Pend Task Sem Queue MmBlk.
Import MsgQueue.
Local Open Scope Z_scope.

Implicit Types (s : kstate) (timer q : Z).

Definition TIMER_CMD_CB : Z := 0.
Definition TIMER_CMD_START : Z := 1.
Definition TIMER_CMD_STOP : Z := 2.
Definition TIMER_CMD_CHG : Z := 3.
Definition TIMER_ARG_CHG : Z := 4.
Definition TIMER_ARG_CHG_AUTO : Z := 5.
Definition TIMER_CMD_DEL : Z := 6.
Definition TIMER_CMD_DYN_DEL : Z := 7.
Definition RHINO_CONFIG_NEXT_INTRPT_TICKS : Z := 100.
Definition RHINO_CONFIG_TIMER_MSG_NUM : Z := 40.
Definition RHINO_CONFIG_TIMER_TASK_PRI : Z := 5.
Definition RHINO_CONFIG_TIMER_TASK_STACK_SIZE : Z := 300.
(** [sizeof(k_timer_queue_cb)] with 32-bit pointers and 64-bit times. *)
Definition SIZEOF_TIMER_CB : Z := 32.
Definition TICK_MAX : Z := 0xffffffff.  (** [(tick_t)-1] *)

(** A 64-bit value read as [int64_t]. *)
Definition s64 (x : Z) : Z := if x <? 2 ^ 63 then x else x - 2 ^ 64.

Definition timer_of s timer : ktimer_t := timers s !!! timer.
Definition upd_timer timer (f : ktimer_t -> ktimer_t) s : kstate :=
  s <| timers := <[timer := f (timers s !!! timer)]> (timers s) |>.

(** ** The timer list *)
Definition timer_list_pri_insert timer s : kstate :=
  let val := remain (timer_of s timer) in
  s <| g_timer_head ::= insert_where (fun q => val <? wrap64 (match_ (timer_of s q) - g_timer_count s)) timer |>.

Definition timer_list_rm timer s : kstate :=
  if to_head (timer_of s timer) then
    let s := s <| g_timer_head ::= remove_addr timer |> in
    upd_timer timer (fun t => t <| to_head := false |>) s
  else s.

(** ** Sending commands *)
Section Api.
Context (g_timer_pool g_timer_queue : Z).

(** Contents of the command block at [cb]. *)
Definition load_cb s (cb : Z) : k_timer_queue_cb := (timer_cbs s !!! cb) <| cb_timer := word_of s cb |>.
Definition store_cb (cb : Z) (c : k_timer_queue_cb) s : kstate :=
  upd_word cb (cb_timer c) (s <| timer_cbs ::= <[cb := c]> |>).

(** The common body of the API functions; [fill] assigns the fields of the block. *)
Definition timer_cmd_send (fill : k_timer_queue_cb -> k_timer_queue_cb) s : kstat_t * kstate :=
  let '(err, cb, s) := krhino_mblk_alloc g_timer_pool false s in
  if decide (err <> RHINO_SUCCESS) then (err, s)
  else
    let cb := default NULL cb in
    let s := store_cb cb (fill (load_cb s cb)) s in
    let '(err, s) := krhino_queue_back_send g_timer_queue cb s in
    if decide (err <> RHINO_SUCCESS) then (err, (krhino_mblk_free g_timer_pool cb s).2)
    else (RHINO_SUCCESS, s).

Definition krhino_timer_del timer s : kstat_t * kstate :=
  if timer =? NULL then (RHINO_NULL_PTR, s)
  else timer_cmd_send (fun c => c <| cb_timer := timer |> <| cb_num := TIMER_CMD_DEL |>) s.

Definition krhino_timer_dyn_del timer s : kstat_t * kstate :=
  if timer =? NULL then (RHINO_NULL_PTR, s)
  else timer_cmd_send (fun c => c <| cb_timer := timer |> <| cb_num := TIMER_CMD_DYN_DEL |>) s.

Definition krhino_timer_start timer s : kstat_t * kstate :=
  if timer =? NULL then (RHINO_NULL_PTR, s)
  else timer_cmd_send (fun c => c <| cb_timer := timer |> <| cb_num := TIMER_CMD_START |>) s.

Definition krhino_timer_stop timer s : kstat_t * kstate :=
  if timer =? NULL then (RHINO_NULL_PTR, s)
  else timer_cmd_send (fun c => c <| cb_timer := timer |> <| cb_num := TIMER_CMD_STOP |>) s.

Definition krhino_timer_change timer (first round : Z) s : kstat_t * kstate :=
  if timer =? NULL then (RHINO_NULL_PTR, s)
  else if TICK_MAX <=? first then (RHINO_INV_PARAM, s)
  else if TICK_MAX <=? round then (RHINO_INV_PARAM, s)
  else timer_cmd_send (fun c => c <| cb_timer := timer |> <| cb_first := first |> <| cb_u := round |> <| cb_num := TIMER_CMD_CHG |>) s.

Definition krhino_timer_arg_change timer (arg : Z) s : kstat_t * kstate :=
  if timer =? NULL then (RHINO_NULL_PTR, s)
  else timer_cmd_send (fun c => c <| cb_timer := timer |> <| cb_u := arg |> <| cb_num := TIMER_ARG_CHG |>) s.

Definition krhino_timer_arg_change_auto timer (arg : Z) s : kstat_t * kstate :=
  if timer =? NULL then (RHINO_NULL_PTR, s)
  else timer_cmd_send (fun c => c <| cb_timer := timer |> <| cb_u := arg |> <| cb_num := TIMER_ARG_CHG_AUTO |>) s.

(** ** Creation *)
Definition timer_create timer (name cb_ first round arg auto_run mm_alloc : Z) s : kstat_t * kstate :=
  if timer =? NULL then (RHINO_NULL_PTR, s)
  else if name =? NULL then (RHINO_NULL_PTR, s)
  else if cb_ =? NULL then (RHINO_NULL_PTR, s)
  else if first =? 0 then (RHINO_INV_PARAM, s)
  else if TICK_MAX <=? first then (RHINO_INV_PARAM, s)
  else if TICK_MAX <=? round then (RHINO_INV_PARAM, s)
  else
    let '(cpsr, s) := RHINO_CRITICAL_ENTER s in
    if in_intrpt s then (RHINO_NOT_CALLED_BY_INTRPT, RHINO_CRITICAL_EXIT cpsr s)
    else
      let s := RHINO_CRITICAL_EXIT cpsr s in
      let s := upd_timer timer (fun t => t <| timer_name := name |> <| cb := cb_ |> <| init_count := first |>
                 <| round_ticks := round |> <| remain := 0 |> <| match_ := 0 |> <| timer_state := TIMER_DEACTIVE |>
                 <| to_head := false |> <| timer_alloc_flag := mm_alloc |> <| timer_cb_arg := arg |>) s in
      let s := upd_timer timer (fun t => t <| timer_obj_type := RHINO_TIMER_OBJ_TYPE |>) s in
      let s := if 0 <? auto_run then (krhino_timer_start timer s).2 else s in
      (RHINO_SUCCESS, s).

Definition krhino_timer_create timer (name cb_ first round arg auto_run : Z) s : kstat_t * kstate :=
  timer_create timer name cb_ first round arg auto_run K_OBJ_STATIC_ALLOC s.

Section Dyn.
Context {H : Type} `{MemAlloc H}.

(** [*timer] is the second component, [NULL] when it is not written. *)
Definition krhino_timer_dyn_create (timer_null : bool) (name cb_ first round arg auto_run : Z) (h : H) s
    : kstat_t * Z * H * kstate :=
  if timer_null then (RHINO_NULL_PTR, NULL, h, s)
  else if TICK_MAX <=? first then (RHINO_INV_PARAM, NULL, h, s)
  else if TICK_MAX <=? round then (RHINO_INV_PARAM, NULL, h, s)
  else
    let '(timer_obj, h) := krhino_mm_alloc (sizeof S_ktimer) h in
    if timer_obj =? NULL then (RHINO_NO_MEM, NULL, h, s)
    else
      let '(ret, s) := timer_create timer_obj name cb_ first round arg auto_run K_OBJ_DYN_ALLOC s in
      if decide (ret <> RHINO_SUCCESS) then (ret, NULL, krhino_mm_free timer_obj h, s)
      else (ret, timer_obj, h, s).

(** ** Executing commands *)
Definition cmd_proc (c : k_timer_queue_cb) (cmd : Z) (h : H) s : H * kstate :=
  let timer := cb_timer c in
  let k := timer_of s timer in
  let is_timer := bool_decide (timer_obj_type k = RHINO_TIMER_OBJ_TYPE) in
  if cmd =? TIMER_CMD_START then
    if negb is_timer then (h, s)
    else if decide (timer_state k = TIMER_ACTIVE) then (h, s)
    else
      let s := upd_timer timer (fun t => t <| match_ := wrap64 (g_timer_count s + init_count t) |>) s in
      let s := upd_timer timer (fun t => t <| remain := init_count t |>) s in
      let s := upd_timer timer (fun t => t <| to_head := true |>) s in
      let s := timer_list_pri_insert timer s in
      (h, upd_timer timer (fun t => t <| timer_state := TIMER_ACTIVE |>) s)
  else if cmd =? TIMER_CMD_STOP then
    if negb is_timer then (h, s)
    else if decide (timer_state k = TIMER_DEACTIVE) then (h, s)
    else
      let s := timer_list_rm timer s in
      (h, upd_timer timer (fun t => t <| timer_state := TIMER_DEACTIVE |>) s)
  else if cmd =? TIMER_CMD_CHG then
    if cb_first c =? 0 then (h, s)
    else if negb is_timer then (h, s)
    else if decide (timer_state k <> TIMER_DEACTIVE) then (h, s)
    else (h, upd_timer timer (fun t => t <| init_count := cb_first c |> <| round_ticks := cb_u c |>) s)
  else if cmd =? TIMER_ARG_CHG then
    if negb is_timer then (h, s)
    else if decide (timer_state k <> TIMER_DEACTIVE) then (h, s)
    else (h, upd_timer timer (fun t => t <| timer_cb_arg := cb_u c |>) s)
  else if cmd =? TIMER_CMD_DEL then
    if negb is_timer then (h, s)
    else if decide (timer_state k <> TIMER_DEACTIVE) then (h, s)
    else if negb (timer_alloc_flag k =? K_OBJ_STATIC_ALLOC) then (h, s)
    else (h, upd_timer timer (fun t => t <| timer_obj_type := RHINO_OBJ_TYPE_NONE |>) s)
  else if cmd =? TIMER_CMD_DYN_DEL then
    if negb is_timer then (h, s)
    else if decide (timer_state k <> TIMER_DEACTIVE) then (h, s)
    else if negb (timer_alloc_flag k =? K_OBJ_DYN_ALLOC) then (h, s)
    else (krhino_mm_free timer h, upd_timer timer (fun t => t <| timer_obj_type := RHINO_OBJ_TYPE_NONE |>) s)
  else (h, k_err_proc RHINO_SYS_FATAL_ERR s).

Definition timer_cmd_proc (c : k_timer_queue_cb) (h : H) s : H * kstate :=
  if cb_num c =? TIMER_ARG_CHG_AUTO then
    let '(h, s) := cmd_proc c TIMER_CMD_STOP h s in
    let '(h, s) := cmd_proc c TIMER_ARG_CHG h s in
    cmd_proc c TIMER_CMD_START h s
  else cmd_proc c (cb_num c) h s.

(** ** Expiry *)

(** [q->next], [None] when that is the list head. *)
Fixpoint next_in (q : Z) (l : list Z) : option Z :=
  match l with
  | [] => None
  | x :: l => if x =? q then head l else next_in q l
  end.

Context (run_cb : Z -> Z -> Z -> kstate -> kstate).

(** One expired timer: the callback, then off the list, then back on it if periodic.
    Returns the node the loop goes on with: [klist_rm] leaves the links of the removed
    node alone. *)
Definition timer_expire timer s : option Z * kstate :=
  let s := run_cb (cb (timer_of s timer)) timer (timer_cb_arg (timer_of s timer)) s in
  let next := next_in timer (g_timer_head s) in
  let s := timer_list_rm timer s in
  if 0 <? round_ticks (timer_of s timer) then
    let s := upd_timer timer (fun t => t <| remain := round_ticks t |>) s in
    let s := upd_timer timer (fun t => t <| match_ := wrap64 (g_timer_count s + remain t) |>) s in
    let s := upd_timer timer (fun t => t <| to_head := true |>) s in
    let s := timer_list_pri_insert timer s in
    (next_in timer (g_timer_head s), s)
  else (next, upd_timer timer (fun t => t <| timer_state := TIMER_DEACTIVE |>) s).

(** The loop of [timer_cb_proc] from node [q], with the callbacks it runs. *)
Fixpoint timer_cb_loop (fuel : nat) (q : option Z) s : list (Z * Z * Z) * kstate :=
  match fuel, q with
  | S fuel, Some timer =>
      let k := timer_of s timer in
      let delta := s64 (match_ k) - s64 (g_timer_count s) in
      if delta <=? 0 then
        let '(q, s) := timer_expire timer s in
        let '(calls, s) := timer_cb_loop fuel q s in
        ((cb k, timer, timer_cb_arg k) :: calls, s)
      else ([], s)
  | _, _ => ([], s)
  end.

(** A timer that has been run has its next expiry in the future, so the loop runs every
    timer at most once. *)
Definition timer_cb_proc s : list (Z * Z * Z) * kstate :=
  timer_cb_loop (S (length (g_timer_head s))) (head (g_timer_head s)) s.

(** ** The timer task *)

(** [memcpy(&cb_msg, msg, ...); krhino_mblk_free(&g_timer_pool, msg); timer_cmd_proc(cb)]. *)
Definition timer_msg_proc (msg : Z) (h : H) s : H * kstate :=
  let cb_msg := load_cb s msg in
  let s := (krhino_mblk_free g_timer_pool msg s).2 in
  timer_cmd_proc cb_msg h s.

(** What the task does next: wait for a command in the outer loop, wait for one in the
    inner loop with the time the first timer has left, or run the timers that are due. *)
Inductive timer_next := T_outer | T_inner (ticks : Z) | T_due.

Definition timer_task_next s : timer_next :=
  match g_timer_head s with
  | [] => T_outer
  | timer :: _ =>
      let tick_start := krhino_sys_tick_get s in
      let delta := s64 (match_ (timer_of s timer)) - s64 tick_start in
      if 0 <? delta then T_inner (wrap32 delta) else T_due
  end.

(** [T_due]: no wait. *)
Definition timer_task_due s : list (Z * Z * Z) * kstate :=
  timer_cb_proc (s <| g_timer_count := krhino_sys_tick_get s |>).

(** [T_inner], after [krhino_queue_recv] returned [err] and [msg]. *)
Definition timer_task_inner (err : kstat_t) (msg : Z) (h : H) s : list (Z * Z * Z) * H * kstate :=
  let tick_end := krhino_sys_tick_get s in
  let '(h, s) :=
    match err with
    | RHINO_BLK_TIMEOUT => (h, s <| g_timer_count := tick_end |>)
    | RHINO_SUCCESS => timer_msg_proc msg h (s <| g_timer_count := tick_end |>)
    | _ => (h, k_err_proc RHINO_SYS_FATAL_ERR s)
    end in
  let '(calls, s) := timer_cb_proc s in (calls, h, s).

(** [T_outer], after [krhino_queue_recv] returned; on an error the task goes on with the
    last [msg]. *)
Definition timer_task_outer (err : kstat_t) (msg : Z) (h : H) s : H * kstate :=
  let tick_end := krhino_sys_tick_get s in
  match err with
  | RHINO_BLK_TIMEOUT => (h, s <| g_timer_count := tick_end |>)
  | RHINO_SUCCESS => timer_msg_proc msg h (s <| g_timer_count := tick_end |>)
  | _ => timer_msg_proc msg h (k_err_proc RHINO_SYS_FATAL_ERR s)
  end.

(** The inner loop as long as it does not wait. *)
Fixpoint timer_task_busy (fuel : nat) s : option (list (Z * Z * Z) * kstate) :=
  match timer_task_next s with
  | T_due =>
      match fuel with
      | O => None
      | S fuel =>
          let '(calls, s) := timer_task_due s in
          match timer_task_busy fuel s with
          | Some (calls', s) => Some (calls ++ calls', s)
          | None => None
          end
      end
  | _ => Some ([], s)
  end.
End Dyn.
End Api.

(** ** Initialisation *)
Record timer_addrs := {
  a_timer_task : Z; a_timer_stack : Z; a_timer_entry : Z; a_timer_name : Z;
  a_timer_queue : Z; a_timer_queue_name : Z; a_timer_msg : Z;
  a_timer_pool : Z; a_timer_pool_name : Z; a_timer_cb : Z;
}.

(** [mem] is what the message array contains. *)
Definition ktimer_init (A : timer_addrs) (mem : list Z) s : kstate :=
  let s := s <| g_timer_head := [] |> in
  let s := (krhino_queue_create (a_timer_queue A) (a_timer_queue_name A) (a_timer_msg A)
              RHINO_CONFIG_TIMER_MSG_NUM mem s).2 in
  let s := match krhino_mblk_pool_init (a_timer_pool A) (a_timer_pool_name A) (a_timer_cb A) SIZEOF_TIMER_CB
                   (SIZEOF_TIMER_CB * RHINO_CONFIG_TIMER_MSG_NUM) s with
           | Some (_, s) => s
           | None => s
           end in
  (krhino_task_create (a_timer_task A) (a_timer_name A) NULL RHINO_CONFIG_TIMER_TASK_PRI 0 (a_timer_stack A)
     RHINO_CONFIG_TIMER_TASK_STACK_SIZE (a_timer_entry A) 1 s).2.
