(* ===== verification/Workqueue.v ===== *)
(** * Work queues ([k_workqueue.c])

    A work queue is a list of works, a semaphore that counts them and a worker task.
    [krhino_work_run] links a work into the list and gives the semaphore, directly or,
    for a delayed work, from the callback of its timer.  The worker takes the semaphore,
    unlinks the first work, runs its handler and clears [work_current]; the model has one
    function per critical section of the worker, and the handler, which is not part of the
    source, runs between [worker_take] and [worker_done].

    [worker_addr] and [sem_addr] give the addresses of the members [worker] and [sem] of
    a work queue; they depend on the layout of the structures.  A work is on at most one
    list, so unlinking its node removes it from whichever list has it. *)
From S2P Require Import Prelude Bitmap KTypes Alloc RunQueue RingBuf Kernel Pend Task Sem Queue MmBlk Timer.
Local Open Scope Z_scope.

Implicit Types (s : kstate) (workqueue work : Z).

Definition RHINO_CONFIG_WORKQUEUE_TASK_PRIO : Z := 9.
Definition RHINO_CONFIG_WORKQUEUE_STACK_SIZE : Z := 768.

Definition workqueue_of s workqueue : kworkqueue_t := workqueues s !!! workqueue.
Definition upd_workqueue workqueue (f : kworkqueue_t -> kworkqueue_t) s : kstate :=
  s <| workqueues := <[workqueue := f (workqueues s !!! workqueue)]> (workqueues s) |>.
Definition work_of s work : kwork_t := works s !!! work.
Definition upd_work work (f : kwork_t -> kwork_t) s : kstate :=
  s <| works := <[work := f (works s !!! work)]> (works s) |>.

(** [klist_rm_init(&work->work_node)]. *)
Definition work_unlink work s : kstate :=
  s <| workqueues ::= fmap (fun q => q <| work_list ::= remove_addr work |>) |>.

Section Workqueue.
Context (worker_addr sem_addr : Z -> Z).
(** The name of the semaphores and the entry point of the workers. *)
Context (sem_name worker_entry : Z).

Definition workqueue_is_exist workqueue s : kstat_t :=
  if decide (workqueue ∈ g_workqueue_list_head s) then RHINO_WORKQUEUE_EXIST else RHINO_WORKQUEUE_NOT_EXIST.

Definition krhino_workqueue_create workqueue (name pri stack_buf stack_size : Z) s : kstat_t * kstate :=
  if workqueue =? NULL then (RHINO_NULL_PTR, s)
  else if name =? NULL then (RHINO_NULL_PTR, s)
  else if stack_buf =? NULL then (RHINO_NULL_PTR, s)
  else if RHINO_CONFIG_PRI_MAX <=? pri then (RHINO_BEYOND_MAX_PRI, s)
  else if stack_size =? 0 then (RHINO_TASK_INV_STACK_SIZE, s)
  else if decide (workqueue_is_exist workqueue s = RHINO_WORKQUEUE_EXIST) then (RHINO_WORKQUEUE_EXIST, s)
  else
    let s := upd_workqueue workqueue (fun q => q <| work_list := [] |> <| work_current := NULL |> <| workqueue_name := name |>) s in
    let '(ret, s) := krhino_sem_create (sem_addr workqueue) sem_name 0 s in
    if decide (ret <> RHINO_SUCCESS) then (ret, s)
    else
      let '(ret, s) := krhino_task_create (worker_addr workqueue) name workqueue pri 0 stack_buf stack_size worker_entry 0 s in
      if decide (ret <> RHINO_SUCCESS) then (ret, (krhino_sem_del (sem_addr workqueue) s).2)
      else
        let '(cpsr, s) := RHINO_CRITICAL_ENTER s in
        let s := s <| g_workqueue_list_head ::= fun l => l ++ [workqueue] |> in
        let s := RHINO_CRITICAL_EXIT cpsr s in
        let '(ret, s) := krhino_task_resume (worker_addr workqueue) s in
        if decide (ret <> RHINO_SUCCESS) then (ret, s) else (RHINO_SUCCESS, s).

Definition krhino_workqueue_del workqueue s : kstat_t * kstate :=
  if workqueue =? NULL then (RHINO_NULL_PTR, s)
  else if decide (workqueue_is_exist workqueue s = RHINO_WORKQUEUE_NOT_EXIST) then (RHINO_WORKQUEUE_NOT_EXIST, s)
  else
    let '(cpsr, s) := RHINO_CRITICAL_ENTER s in
    if negb (bool_decide (work_list (workqueue_of s workqueue) = [])) then (RHINO_WORKQUEUE_BUSY, RHINO_CRITICAL_EXIT cpsr s)
    else if negb (work_current (workqueue_of s workqueue) =? NULL) then (RHINO_WORKQUEUE_BUSY, RHINO_CRITICAL_EXIT cpsr s)
    else
      let s := RHINO_CRITICAL_EXIT cpsr s in
      let '(ret, s) := krhino_task_del (worker_addr workqueue) s in
      if decide (ret <> RHINO_SUCCESS) then (ret, s)
      else
        let '(ret, s) := krhino_sem_del (sem_addr workqueue) s in
        if decide (ret <> RHINO_SUCCESS) then (ret, s)
        else
          let '(cpsr, s) := RHINO_CRITICAL_ENTER s in
          let s := s <| g_workqueue_list_head ::= remove_addr workqueue |> in
          (RHINO_SUCCESS, RHINO_CRITICAL_EXIT cpsr s).

(** ** The worker *)

(** After [krhino_sem_take]: unlink the first work.  [None]: the list is empty and the C
    code would take the list head for a work. *)
Definition worker_take workqueue s : option (Z * kstate) :=
  let '(cpsr, s) := RHINO_CRITICAL_ENTER s in
  match work_list (workqueue_of s workqueue) with
  | [] => None
  | work :: _ =>
      let s := work_unlink work s in
      let s := upd_workqueue workqueue (fun q => q <| work_current := work |>) s in
      let s := upd_work work (fun w => w <| work_exit := 0 |>) s in
      Some (work, RHINO_CRITICAL_EXIT cpsr s)
  end.

(** After the handler. *)
Definition worker_done workqueue s : kstate :=
  let '(cpsr, s) := RHINO_CRITICAL_ENTER s in
  let s := upd_workqueue workqueue (fun q => q <| work_current := NULL |>) s in
  RHINO_CRITICAL_EXIT cpsr s.

(** ** Works *)

(** The critical section shared by [krhino_work_run] and [work_timer_cb]: link the work
    unless it is running or linked already. *)
Definition work_insert workqueue work s : kstat_t * kstate :=
  let '(cpsr, s) := RHINO_CRITICAL_ENTER s in
  if work_current (workqueue_of s workqueue) =? work then (RHINO_WORKQUEUE_WORK_RUNNING, RHINO_CRITICAL_EXIT cpsr s)
  else if work_exit (work_of s work) =? 1 then (RHINO_WORKQUEUE_WORK_EXIST, RHINO_CRITICAL_EXIT cpsr s)
  else
    let s := work_unlink work s in
    let s := upd_workqueue workqueue (fun q => q <| work_list ::= fun l => l ++ [work] |>) s in
    let s := upd_work work (fun w => w <| wq := workqueue |>) s in
    let s := upd_work work (fun w => w <| work_exit := 1 |>) s in
    (RHINO_SUCCESS, RHINO_CRITICAL_EXIT cpsr s).

(** [arg] is the work queue. *)
Definition work_timer_cb timer (arg : Z) s : kstate :=
  let work := priv (timer_of s timer) in
  let '(ret, s) := work_insert arg work s in
  if decide (ret = RHINO_SUCCESS) then (krhino_sem_give (sem_addr arg) s).2 else s.

Context (g_timer_pool g_timer_queue : Z).

Section Dyn.
Context {H : Type} `{MemAlloc H}.

(** [timer_name_] and [cb_] are the addresses of the timer's name and of [work_timer_cb]. *)
Definition krhino_work_init work (handle_ arg dly_ timer_name_ cb_ : Z) (h : H) s : kstat_t * H * kstate :=
  if work =? NULL then (RHINO_NULL_PTR, h, s)
  else if handle_ =? NULL then (RHINO_NULL_PTR, h, s)
  else
    let s := upd_work work (fun _ => kwork_zero <| handle := handle_ |> <| work_arg := arg |> <| dly := dly_ |> <| wq := NULL |>) s in
    if 0 <? dly_ then
      let '(ret, timer, h, s) := krhino_timer_dyn_create g_timer_pool g_timer_queue false timer_name_ cb_ dly_ 0 work 0 h s in
      if decide (ret <> RHINO_SUCCESS) then (ret, h, s)
      else (RHINO_SUCCESS, h, upd_work work (fun w => w <| work_timer := timer |>) s)
    else (RHINO_SUCCESS, h, s).
End Dyn.

Definition krhino_work_run workqueue work s : kstat_t * kstate :=
  if workqueue =? NULL then (RHINO_NULL_PTR, s)
  else if work =? NULL then (RHINO_NULL_PTR, s)
  else if dly (work_of s work) =? 0 then
    let '(ret, s) := work_insert workqueue work s in
    if decide (ret <> RHINO_SUCCESS) then (ret, s)
    else krhino_sem_give (sem_addr workqueue) s
  else
    let '(cpsr, s) := RHINO_CRITICAL_ENTER s in
    let s := upd_timer (work_timer (work_of s work)) (fun t => t <| priv := work |>) s in
    let s := RHINO_CRITICAL_EXIT cpsr s in
    krhino_timer_arg_change_auto g_timer_pool g_timer_queue (work_timer (work_of s work)) workqueue s.

Definition krhino_work_sched (g_workqueue_default : Z) work s : kstat_t * kstate :=
  krhino_work_run g_workqueue_default work s.

Definition krhino_work_cancel work s : kstat_t * kstate :=
  if work =? NULL then (RHINO_NULL_PTR, s)
  else
    let wq_ := wq (work_of s work) in
    if wq_ =? NULL then
      (RHINO_SUCCESS,
       if 0 <? dly (work_of s work) then (krhino_timer_stop g_timer_pool g_timer_queue (work_timer (work_of s work)) s).2 else s)
    else
      let '(cpsr, s) := RHINO_CRITICAL_ENTER s in
      if work_current (workqueue_of s wq_) =? work then (RHINO_WORKQUEUE_WORK_RUNNING, RHINO_CRITICAL_EXIT cpsr s)
      else if work_exit (work_of s work) =? 1 then (RHINO_WORKQUEUE_WORK_EXIST, RHINO_CRITICAL_EXIT cpsr s)
      else
        let s := work_unlink work s in
        let s := upd_work work (fun w => w <| wq := NULL |>) s in
        (RHINO_SUCCESS, RHINO_CRITICAL_EXIT cpsr s).
End Workqueue.

(** ** Initialisation *)
Record wq_addrs := {
  a_wq : Z; a_wq_name : Z; a_wq_sem_name : Z; a_wq_stack : Z; a_wq_entry : Z;
  a_worker_addr : Z -> Z; a_sem_addr : Z -> Z;
}.

Definition workqueue_init (A : wq_addrs) s : kstate :=
  let s := s <| g_workqueue_list_head := [] |> in
  (krhino_workqueue_create (a_worker_addr A) (a_sem_addr A) (a_wq_sem_name A) (a_wq_entry A) (a_wq A) (a_wq_name A)
     RHINO_CONFIG_WORKQUEUE_TASK_PRIO (a_wq_stack A) RHINO_CONFIG_WORKQUEUE_STACK_SIZE s).2.
