(* ===== verification/TaskDyn.v ===== *)
(** * Deletion of dynamically created tasks ([k_task.c], [k_dyn_mem_proc.c])

    [krhino_task_dyn_del] cannot free the stack it may be running on: it queues the
    stack and the control block on [g_res_list] and gives [g_res_sem]; the task
    [dyn_mem_proc_task] takes the semaphore and frees what is queued. *)
From S2P Require Import Prelude Bitmap KTypes Alloc RunQueue RingBuf Kernel Pend Task Sem.
Local Open Scope Z_scope.

Implicit Types (s : kstate) (task t : Z).

(** [g_res_sem] is the address of the semaphore. *)
Definition krhino_task_dyn_del (g_res_sem : Z) task s : kstat_t * kstate :=
  let '(cpsr, s) := RHINO_CRITICAL_ENTER s in
  if in_intrpt s then (RHINO_NOT_CALLED_BY_INTRPT, RHINO_CRITICAL_EXIT cpsr s)
  else
    let task := if task =? NULL then g_active_task s else task in
    if prio (task_of s task) =? RHINO_IDLE_PRI then (RHINO_TASK_DEL_NOT_ALLOWED, RHINO_CRITICAL_EXIT cpsr s)
    else if negb (mm_alloc_flag (task_of s task) =? K_OBJ_DYN_ALLOC) then
      (RHINO_KOBJ_DEL_ERR, RHINO_CRITICAL_EXIT cpsr s)
    else if (task =? g_active_task s) && (0 <? g_sched_lock s) then
      (RHINO_SCHED_DISABLE, RHINO_CRITICAL_EXIT cpsr s)
    else if decide (task_state (task_of s task) = K_DELETED) then (RHINO_INV_TASK_STATE, RHINO_CRITICAL_EXIT cpsr s)
    else
      let s := s <| g_sched_lock ::= fun n => wrap8 (n + 1) |> in
      let s := s <| g_res_list ::= fun l => l ++ [{| res := [task_stack_base (task_of s task); task]; cnt := 2 |}] |> in
      let '(ret, s) := krhino_sem_give g_res_sem s in
      let s := s <| g_sched_lock ::= fun n => wrap8 (n - 1) |> in
      if decide (ret <> RHINO_SUCCESS) then (ret, k_err_proc RHINO_SYS_SP_ERR (RHINO_CRITICAL_EXIT cpsr s))
      else
        let s := task_mutex_free task s in
        let s := default s (task_del_lists task s) in
        let s := s <| g_kobj_list ::= fun k => k <| task_head ::= remove_addr task |> |> in
        (RHINO_SUCCESS, RHINO_CRITICAL_EXIT_SCHED cpsr s).

(** What a task function returns to. *)
Definition krhino_task_deathbed (g_res_sem : Z) s : kstat_t * kstate :=
  let task := krhino_cur_task_get s in
  if mm_alloc_flag (task_of s task) =? K_OBJ_DYN_ALLOC then krhino_task_dyn_del g_res_sem NULL s
  else krhino_task_del NULL s.

(** ** [dyn_mem_proc_task] *)

(** The critical section of the inner loop: the first entry of [g_res_list]. *)
Definition dyn_mem_take s : option res_free_t * kstate :=
  let '(cpsr, s) := RHINO_CRITICAL_ENTER s in
  match g_res_list s with
  | r :: rest => (Some r, RHINO_CRITICAL_EXIT cpsr (s <| g_res_list := rest |>))
  | [] => (None, RHINO_CRITICAL_EXIT cpsr s)
  end.

Section Free.
Context {H : Type} `{MemAlloc H}.

(** [for (i = 0; i < tmp.cnt; i++) krhino_mm_free(tmp.res[i])]. *)
Definition free_res (r : res_free_t) (h : H) : H :=
  fold_left (fun h p => krhino_mm_free p h) (take (Z.to_nat (cnt r)) (res r)) h.

(** The inner [while (1)]: one iteration per queued entry and one that finds none. *)
Fixpoint dyn_mem_drain (fuel : nat) (h : H) s : option (H * kstate) :=
  match fuel with
  | O => None
  | S fuel =>
      match dyn_mem_take s with
      | (Some r, s) => dyn_mem_drain fuel (free_res r h) s
      | (None, s) => Some (h, s)
      end
  end.
End Free.
