(* ===== verification/Sys.v ===== *)
(** * System start ([k_sys.c], [k_dyn_mem_proc.c])

    [krhino_init] brings the zeroed kernel globals into their initial state and
    creates the kernel's own objects; [krhino_start] makes the preferred task active,
    creates the default work queue and never returns.  The heap is a parameter of the
    initialisation: [k_mm_init] has set it up. *)
From S2P Require Import Prelude Bitmap KTypes RunQueue RingBuf Kernel Pend Alloc Task Sem Mutex Queue Event MmBlk Timer Workqueue.
Import MsgQueue.
Local Open Scope Z_scope.

Implicit Types (s : kstate) (task t o : Z).

Definition RHINO_CONFIG_K_DYN_MEM_TASK_PRI : Z := 6.
Definition RHINO_CONFIG_K_DYN_TASK_STACK : Z := 256.
Definition RHINO_CONFIG_IDLE_TASK_STACK_SIZE : Z := 200.

(** Addresses of the kernel's statically allocated objects, names and entry points. *)
Record static_addrs := {
  a_idle_task : Z; a_idle_stack : Z; a_idle_entry : Z; a_idle_name : Z;
  a_res_sem : Z; a_res_sem_name : Z;
  a_dyn_name : Z; a_dyn_entry : Z;
  a_timers :> timer_addrs;
  a_workqueue : wq_addrs;
}.

Definition tick_list_init s : kstate := s <| g_tick_head := [] |>.
Definition kobj_list_init s : kstate := s <| g_kobj_list := kobj_list_zero |>.

Section Init.
Context {H : Type} `{MemAlloc H}.

Definition dyn_mem_proc_task_start (A : static_addrs) (h : H) s : H * kstate :=
  let '(_, _, h, s) := krhino_task_dyn_create false (a_dyn_name A) 0 RHINO_CONFIG_K_DYN_MEM_TASK_PRI 0
                         RHINO_CONFIG_K_DYN_TASK_STACK (a_dyn_entry A) 1 h s in
  (h, s).

(** [mem] is what the timers' message array contains. *)
Definition krhino_init (A : static_addrs) (mem : list Z) (h : H) s : kstat_t * H * kstate :=
  let s := s <| g_sys_stat := RHINO_STOPPED |> in
  let s := s <| g_ready_queue ::= runqueue_init |> in
  let s := tick_list_init s in
  let s := kobj_list_init s in
  let s := s <| g_res_list := [] |> in
  let s := (krhino_sem_create (a_res_sem A) (a_res_sem_name A) 0 s).2 in
  let '(h, s) := dyn_mem_proc_task_start A h s in
  let s := (krhino_task_create (a_idle_task A) (a_idle_name A) NULL RHINO_IDLE_PRI 0 (a_idle_stack A)
              RHINO_CONFIG_IDLE_TASK_STACK_SIZE (a_idle_entry A) 1 s).2 in
  let s := ktimer_init A mem s in
  (RHINO_SUCCESS, h, s).
End Init.

(** [None]: the first task runs and the call does not return. *)
Definition krhino_start (W : wq_addrs) s : option kstat_t * kstate :=
  if decide (g_sys_stat s = RHINO_STOPPED) then
    let s := s <| g_preferred_ready_task := preferred_cpu_ready_task_get (g_ready_queue s) |> in
    let s := s <| g_active_task := g_preferred_ready_task s |> in
    let s := workqueue_init W s in
    (None, s <| g_sys_stat := RHINO_RUNNING |>)
  else (Some RHINO_RUNNING, s).
