(* ===== verification/Time.v ===== *)
(** * Time conversion ([k_time.c])

    The tick counter in milliseconds and the conversions between milliseconds and
    ticks, at the widths of the source: [sys_time_t] has 64 bits and [tick_t] 32; an
    expression is evaluated at the width of its widest operand and then converted to
    the type of the variable it is assigned to. *)
From S2P Require Import Prelude Bitmap KTypes RunQueue RingBuf Kernel Pend.
Local Open Scope Z_scope.

Implicit Types (s : kstate) (ms ticks : Z).

Definition krhino_sys_time_get s : Z :=
  wrap64 (krhino_sys_tick_get s * 1000) / RHINO_CONFIG_TICKS_PER_SECOND.

Definition krhino_ms_to_ticks ms : Z :=
  let surplus := wrap16 (ms mod 1000) in
  let ticks := wrap32 (wrap64 (ms / 1000 * RHINO_CONFIG_TICKS_PER_SECOND)) in
  let padding := wrap16 (1000 / RHINO_CONFIG_TICKS_PER_SECOND) in
  let padding := if 0 <? padding then wrap16 (padding - 1) else 0 in
  wrap32 (ticks + (surplus + padding) * RHINO_CONFIG_TICKS_PER_SECOND / 1000).

Definition krhino_ticks_to_ms ticks : Z :=
  let surplus := wrap32 (ticks mod RHINO_CONFIG_TICKS_PER_SECOND) in
  let time := wrap32 (ticks / RHINO_CONFIG_TICKS_PER_SECOND * 1000) in
  let padding := wrap32 (RHINO_CONFIG_TICKS_PER_SECOND / 1000) in
  let padding := if 0 <? padding then wrap32 (padding - 1) else 0 in
  wrap64 (time + wrap32 ((surplus + padding) * 1000) / RHINO_CONFIG_TICKS_PER_SECOND).

(** The milliseconds of one tick. *)
Definition TICK_MS : Z := 1000 / RHINO_CONFIG_TICKS_PER_SECOND.

(** Milliseconds are rounded up to whole ticks. *)
Lemma ms_to_ticks_ceil ms :
  0 <= ms < 2 ^ 32 * TICK_MS - TICK_MS -> krhino_ms_to_ticks ms = (ms + TICK_MS - 1) / TICK_MS.
Proof.
  change TICK_MS with 10. change (2 ^ 32 * 10 - 10) with 42949672950. intros Hm. unfold krhino_ms_to_ticks.
  change RHINO_CONFIG_TICKS_PER_SECOND with 100. change (wrap16 (1000 / 100)) with 10. cbn [Z.ltb Z.compare].
  change (wrap16 (10 - 1)) with 9.
  assert (wrap16 (ms mod 1000) = ms mod 1000) as ->.
  { unfold wrap16. apply Z.mod_small. change (2 ^ 16) with 65536. Z.to_euclidean_division_equations. lia. }
  assert (wrap32 (wrap64 (ms / 1000 * 100)) = ms / 1000 * 100) as ->.
  { unfold wrap64, wrap32. change (2 ^ 64) with 18446744073709551616. change (2 ^ 32) with 4294967296.
    rewrite (Z.mod_small _ 18446744073709551616) by (Z.to_euclidean_division_equations; lia).
    apply Z.mod_small. Z.to_euclidean_division_equations; lia. }
  unfold wrap32. change (2 ^ 32) with 4294967296. rewrite Z.mod_small by (Z.to_euclidean_division_equations; lia).
  Z.to_euclidean_division_equations; lia.
Qed.

(** Ticks are converted exactly, except that the product with the whole seconds is
    computed with 32 bits. *)
Lemma ticks_to_ms_eq ticks :
  u32 ticks ->
  krhino_ticks_to_ms ticks =
    wrap32 (ticks / RHINO_CONFIG_TICKS_PER_SECOND * 1000) + ticks mod RHINO_CONFIG_TICKS_PER_SECOND * TICK_MS.
Proof.
  unfold krhino_ticks_to_ms, u32. intros Ht. change TICK_MS with 10. change RHINO_CONFIG_TICKS_PER_SECOND with 100.
  change (wrap32 (100 / 1000)) with 0. cbn [Z.ltb Z.compare]. rewrite Z.add_0_r.
  assert (0 <= ticks mod 100 < 100) as Hs by (apply Z.mod_pos_bound; lia).
  assert (wrap32 (ticks mod 100) = ticks mod 100) as -> by (apply wrap32_small; unfold u32; lia).
  assert (wrap32 (ticks mod 100 * 1000) = ticks mod 100 * 1000) as -> by (apply wrap32_small; unfold u32; lia).
  replace (ticks mod 100 * 1000) with (ticks mod 100 * 10 * 100) by lia. rewrite Z.div_mul by lia.
  unfold wrap64. apply Z.mod_small. pose proof (wrap32_range (ticks / 100 * 1000)) as [? ?].
  change (2 ^ 64) with 18446744073709551616. change (2 ^ 32) with 4294967296 in *. lia.
Qed.

(** The last tick count whose time in milliseconds fits the 32-bit product. *)
Definition TICKS_MS_MAX : Z := 429496799.

(** C36: Converting ticks to milliseconds and back gives the same number of ticks, and a
    number of milliseconds is rounded up to ticks, losing less than a tick, as long as
    the whole seconds fit the 32-bit product; the first count beyond that wraps to the
    start of the range. *)
Theorem ticks_ms_roundtrip ticks ms :
  0 <= ticks <= TICKS_MS_MAX -> 0 <= ms <= TICKS_MS_MAX * TICK_MS ->
  krhino_ticks_to_ms ticks = ticks * TICK_MS /\ krhino_ms_to_ticks (krhino_ticks_to_ms ticks) = ticks /\
  ms <= krhino_ticks_to_ms (krhino_ms_to_ticks ms) < ms + TICK_MS /\
  krhino_ticks_to_ms (TICKS_MS_MAX + 1) = 704.
Proof.
  intros Ht Hm.
  assert (forall t, 0 <= t <= TICKS_MS_MAX -> krhino_ticks_to_ms t = t * TICK_MS) as E.
  { unfold TICKS_MS_MAX. intros t H. rewrite ticks_to_ms_eq by (unfold u32; lia). change TICK_MS with 10. change RHINO_CONFIG_TICKS_PER_SECOND with 100.
    rewrite wrap32_small by (unfold u32; Z.to_euclidean_division_equations; lia). Z.to_euclidean_division_equations; lia. }
  unfold TICKS_MS_MAX in *. change TICK_MS with 10 in *.
  split_and!; [by apply E| | | |reflexivity].
  - rewrite E by done. rewrite ms_to_ticks_ceil by (change TICK_MS with 10; lia). change TICK_MS with 10.
    Z.to_euclidean_division_equations; lia.
  - rewrite ms_to_ticks_ceil by (change TICK_MS with 10; lia). change TICK_MS with 10.
    rewrite E by (Z.to_euclidean_division_equations; lia). Z.to_euclidean_division_equations; lia.
  - rewrite ms_to_ticks_ceil by (change TICK_MS with 10; lia). change TICK_MS with 10.
    rewrite E by (Z.to_euclidean_division_equations; lia). Z.to_euclidean_division_equations; lia.
Qed.

Lemma ticks_ms_roundtrip_witness :
  krhino_ticks_to_ms 250 = 2500 /\ krhino_ms_to_ticks (krhino_ticks_to_ms 250) = 250 /\
  15 <= krhino_ticks_to_ms (krhino_ms_to_ticks 15) < 15 + TICK_MS /\ krhino_ticks_to_ms (TICKS_MS_MAX + 1) = 704.
Proof. apply (ticks_ms_roundtrip 250 15); vm_compute; split; discriminate. Defined.
