(* ===== verification/RingSpec.v ===== *)
(** * Ring buffers implement queues of messages

    [rb_bytes rb bs]: the used part of the ring, read from [head], is [bs].  A copy to
    the tail appends to [bs], a copy from the head takes from it; the split at the end
    of the array and the two positions of an exhausted pointer ([end] and [buf]) do
    not show.  On top, [rb_msgs] frames messages by their compressed length. *)
From S2P Require Import Prelude KTypes RingBuf.

Implicit Types (rb : k_ringbuf_t) (bs data m : list Z).

(** ** Compressed lengths *)
Section HeadLen.
Local Open Scope Z_scope.
Implicit Types x y : Z.

Lemma lor_disjoint a b k : 0 <= k -> 0 <= a < 2 ^ k -> Z.lor a (b * 2 ^ k) = a + b * 2 ^ k.
Proof.
  intros Hk Ha. rewrite <- Z.add_lor_land. assert (Z.land a (b * 2 ^ k) = 0) as ->; [|lia].
  apply Z.bits_inj'. intros n Hn. rewrite Z.land_spec, Z.bits_0.
  destruct (Z.lt_ge_cases n k).
  - rewrite (Z.mul_pow2_bits_low b) by lia. by rewrite andb_false_r.
  - destruct (decide (a = 0)) as [->|]; [by rewrite Z.bits_0|]. rewrite (Z.bits_above_log2 a); [done|lia|].
    apply Z.log2_lt_pow2; [lia|]. apply Z.lt_le_trans with (2 ^ k); [lia|]. by apply Z.pow_le_mono_r.
Qed.

Lemma land_byte_field y k : 0 <= k -> Z.land y (Z.shiftl (Z.ones 8) k) = (y / 2 ^ k) mod 2 ^ 8 * 2 ^ k.
Proof.
  intros Hk. rewrite <- (Z.shiftl_mul_pow2 _ k), <- Z.land_ones, <- Z.shiftr_div_pow2 by lia.
  apply Z.bits_inj'. intros n Hn. rewrite Z.land_spec, !Z.shiftl_spec by lia.
  destruct (Z.lt_ge_cases n k).
  - rewrite !(Z.testbit_neg_r _ (n - k)) by lia. by rewrite andb_false_r.
  - rewrite Z.land_spec, Z.shiftr_spec by lia. by replace (n - k + k) with n by lia.
Qed.

Definition byte_at y (i : Z) : Z := (y / 2 ^ (8 * i)) mod 2 ^ 8.

Lemma le_byte_at y i : 0 <= i -> le_byte y i = byte_at y i.
Proof.
  intros Hi. unfold le_byte, byte_at. change 0xff with (Z.ones 8).
  by rewrite Z.land_ones, Z.shiftr_div_pow2 by lia.
Qed.

Lemma byte_at_range y i : 0 <= byte_at y i < 256.
Proof. apply Z.mod_pos_bound. lia. Qed.

(** The byte swap reverses the four bytes. *)
Lemma krhino_ntohl_bytes y :
  krhino_ntohl y = byte_at y 3 + 2 ^ 8 * byte_at y 2 + 2 ^ 16 * byte_at y 1 + 2 ^ 24 * byte_at y 0.
Proof.
  unfold krhino_ntohl. pose proof (byte_at_range y 0). pose proof (byte_at_range y 1).
  pose proof (byte_at_range y 2). pose proof (byte_at_range y 3).
  change 0x000000ff with (Z.shiftl (Z.ones 8) 0). change 0x0000ff00 with (Z.shiftl (Z.ones 8) 8).
  change 0x00ff0000 with (Z.shiftl (Z.ones 8) 16). change 0xff000000 with (Z.shiftl (Z.ones 8) 24).
  rewrite !land_byte_field by lia.
  fold (byte_at y 0) (byte_at y 1) (byte_at y 2) (byte_at y 3).
  change ((y / 2 ^ 0) mod 2 ^ 8) with (byte_at y 0). change ((y / 2 ^ 8) mod 2 ^ 8) with (byte_at y 1).
  change ((y / 2 ^ 16) mod 2 ^ 8) with (byte_at y 2). change ((y / 2 ^ 24) mod 2 ^ 8) with (byte_at y 3).
  rewrite !Z.shiftl_mul_pow2, !Z.shiftr_div_pow2 by lia.
  replace (byte_at y 2 * 2 ^ 16 / 2 ^ 8) with (byte_at y 2 * 2 ^ 8)
    by (change (2 ^ 16) with (2 ^ 8 * 2 ^ 8); rewrite Z.mul_assoc, Z.div_mul; lia).
  rewrite Z.div_mul by lia. rewrite Z.pow_0_r, Z.mul_1_r.
  rewrite <- !Z.mul_assoc. change (2 ^ 8 * 2 ^ 8) with (2 ^ 16).
  rewrite (Z.lor_comm _ (byte_at y 3)), (Z.lor_comm _ (byte_at y 2 * 2 ^ 8)), (Z.lor_comm _ (byte_at y 1 * 2 ^ 16)).
  rewrite (lor_disjoint (byte_at y 1 * 2 ^ 16) _ 24) by lia.
  replace (byte_at y 1 * 2 ^ 16 + byte_at y 0 * 2 ^ 24) with ((byte_at y 1 + byte_at y 0 * 2 ^ 8) * 2 ^ 16) by lia.
  rewrite (lor_disjoint (byte_at y 2 * 2 ^ 8) _ 16) by lia.
  replace (byte_at y 2 * 2 ^ 8 + (byte_at y 1 + byte_at y 0 * 2 ^ 8) * 2 ^ 16)
    with ((byte_at y 2 + (byte_at y 1 + byte_at y 0 * 2 ^ 8) * 2 ^ 8) * 2 ^ 8) by lia.
  rewrite (lor_disjoint (byte_at y 3) _ 8) by lia. lia.
Qed.

(** The bytes of a sum of byte fields. *)
Lemma byte_at_sum b0 b1 b2 b3 :
  0 <= b0 < 256 -> 0 <= b1 < 256 -> 0 <= b2 < 256 -> 0 <= b3 < 256 ->
  let y := b0 + 2 ^ 8 * b1 + 2 ^ 16 * b2 + 2 ^ 24 * b3 in
  byte_at y 0 = b0 /\ byte_at y 1 = b1 /\ byte_at y 2 = b2 /\ byte_at y 3 = b3.
Proof.
  intros. cbv zeta. unfold byte_at.
  change (2 ^ (8 * 0)) with 1. change (2 ^ (8 * 1)) with 256. change (2 ^ (8 * 2)) with 65536.
  change (2 ^ (8 * 3)) with 16777216. change (2 ^ 8) with 256. change (2 ^ 16) with 65536. change (2 ^ 24) with 16777216.
  split_and!; Z.to_euclidean_division_equations; lia.
Qed.

Lemma byte_at_ntohl y i : 0 <= i <= 3 -> byte_at (krhino_ntohl y) i = byte_at y (3 - i).
Proof.
  intros Hi. rewrite krhino_ntohl_bytes.
  destruct (byte_at_sum (byte_at y 3) (byte_at y 2) (byte_at y 1) (byte_at y 0)) as (E0 & E1 & E2 & E3);
    try apply byte_at_range.
  assert (i = 0 \/ i = 1 \/ i = 2 \/ i = 3) as [-> |[-> |[-> | ->]]] by lia; done.
Qed.

Lemma byte_at_small x :
  0 <= x < 2 ^ 32 -> x = byte_at x 0 + 2 ^ 8 * byte_at x 1 + 2 ^ 16 * byte_at x 2 + 2 ^ 24 * byte_at x 3.
Proof.
  intros Hx. unfold byte_at. change (2 ^ 32) with 4294967296 in Hx.
  change (2 ^ (8 * 0)) with 1. change (2 ^ (8 * 1)) with 256. change (2 ^ (8 * 2)) with 65536.
  change (2 ^ (8 * 3)) with 16777216. change (2 ^ 8) with 256. change (2 ^ 16) with 65536. change (2 ^ 24) with 16777216.
  Z.to_euclidean_division_equations; lia.
Qed.
(** The bits of a length byte, by inspection of the 64 values. *)
Definition len_byte_ok (b : Z) : bool :=
  (Z.land (Z.lor 0x80 b) 0x80 =? 0x80) && (Z.land (Z.lor 0x80 b) 0xC0 =? 0x80) && (Z.land 0x3f (Z.lor 0x80 b) =? b) &&
  (Z.land (Z.lor 0xC0 b) 0x80 =? 0x80) && (Z.land (Z.lor 0xC0 b) 0xC0 =? 0xC0) && (Z.land 0x3f (Z.lor 0xC0 b) =? b).

Lemma len_byte_bits b : 0 <= b < 64 -> len_byte_ok b = true.
Proof.
  intros Hb. assert (forallb len_byte_ok (seqZ 0 64) = true) as H by (vm_compute; reflexivity).
  rewrite forallb_forall in H. apply H. apply list_elem_of_In, elem_of_seqZ. lia.
Qed.

Lemma one_byte_bits b : 0 <= b < 128 -> Z.land 0x7f b = b /\ Z.land b 0x80 = 0.
Proof.
  intros Hb. assert (forallb (fun b => (Z.land 0x7f b =? b) && (Z.land b 0x80 =? 0)) (seqZ 0 128) = true) as H
    by (vm_compute; reflexivity).
  rewrite forallb_forall in H. specialize (H b). rewrite andb_true_iff, !Z.eqb_eq in H.
  apply H, list_elem_of_In, elem_of_seqZ. lia.
Qed.

(** The length of a length field, decided by its first byte as in [ringbuf_pop]. *)
Definition head_bytes (b : Z) : nat :=
  if Z.land b RINGBUF_LEN_MASK_ONEBIT =? 0 then 1
  else if Z.land b RINGBUF_LEN_MASK_TWOBIT =? RINGBUF_LEN_VLE_2BYTES then 2
  else if Z.land b RINGBUF_LEN_MASK_TWOBIT =? RINGBUF_LEN_VLE_3BYTES then 3
  else 0.

(** What makes [(lb, c)] the compressed form of [x]. *)
Definition header_ok (x : Z) (lb : nat) (c : list Z) : Prop :=
  (1 <= lb <= 3)%nat /\ length c = 3%nat /\ head_bytes (c !!! 0%nat) = lb /\
  ringbuf_headlen_decompress lb (take lb c) = x.

Lemma decompress_value c0 c1 c2 c3 :
  0 <= c0 < 256 -> 0 <= c1 < 256 -> 0 <= c2 < 256 -> 0 <= c3 < 256 ->
  krhino_ntohl (le_word [c0; c1; c2; c3]) = c3 + 2 ^ 8 * c2 + 2 ^ 16 * c1 + 2 ^ 24 * c0.
Proof.
  intros H0 H1 H2 H3. rewrite krhino_ntohl_bytes. unfold le_word.
  destruct (byte_at_sum c0 c1 c2 c3 H0 H1 H2 H3) as (-> & -> & -> & ->). done.
Qed.

Lemma byte_at_bound x i k : 0 <= i -> 0 <= x < 2 ^ k * 2 ^ (8 * i) -> 0 <= k <= 8 -> 0 <= byte_at x i < 2 ^ k.
Proof.
  intros Hi Hx Hk. unfold byte_at. assert (0 <= x / 2 ^ (8 * i) < 2 ^ k) as Hd.
  { split; [apply Z.div_pos; lia|]. apply Z.div_lt_upper_bound; lia. }
  rewrite Z.mod_small; [done|]. pose proof (Z.pow_le_mono_r 2 k 8). lia.
Qed.

Lemma header_roundtrip x :
  1 <= x <= RINGBUF_LEN_3BYTES_MAXVALUE ->
  exists lb c, ringbuf_headlen_compress x = (Z.of_nat lb, c) /\ header_ok x lb c.
Proof.
  unfold RINGBUF_LEN_3BYTES_MAXVALUE. intros Hx. unfold ringbuf_headlen_compress.
  rewrite !le_byte_at, !byte_at_ntohl by lia.
  pose proof (byte_at_small x ltac:(lia)) as E. pose proof (byte_at_range x 0). pose proof (byte_at_range x 1).
  assert (byte_at x 3 = 0) as E3 by (pose proof (byte_at_bound x 3 0); lia).
  unfold COMPRESS_LEN, RINGBUF_LEN_1BYTE_MAXVALUE, RINGBUF_LEN_2BYTES_MAXVALUE, RINGBUF_LEN_3BYTES_MAXVALUE.
  change (3 - 3) with 0. change (3 - 2) with 1. change (3 - 1) with 2.
  destruct (Z.leb_spec x 0x7f); [|destruct (Z.leb_spec x 0x3fff)].
  - assert (byte_at x 0 = x) as Ex by (pose proof (byte_at_bound x 1 0); pose proof (byte_at_bound x 2 0); lia).
    destruct (one_byte_bits x) as [E1 E2]; [lia|]. rewrite Ex, E1. exists 1%nat. eexists. split; [reflexivity|].
    split_and!; [lia|lia|done|unfold head_bytes; simpl; unfold RINGBUF_LEN_MASK_ONEBIT; by rewrite E2|].
    change (krhino_ntohl (le_word [0; 0; 0; x]) = x). rewrite decompress_value by lia. lia.
  - assert (byte_at x 2 = 0) as E2 by (pose proof (byte_at_bound x 2 0); lia).
    assert (0 <= byte_at x 1 < 64) as Hb by (apply (byte_at_bound x 1 6); lia).
    pose proof (len_byte_bits _ Hb) as Hk. unfold len_byte_ok in Hk. rewrite !andb_true_iff, !Z.eqb_eq in Hk.
    destruct Hk as (((((K1 & K2) & K3) & _) & _) & _). exists 2%nat. eexists. split; [reflexivity|].
    unfold header_ok, head_bytes, RINGBUF_LEN_MASK_ONEBIT, RINGBUF_LEN_MASK_TWOBIT, RINGBUF_LEN_VLE_2BYTES; simpl.
    rewrite K1, K2. split_and!; [lia|lia|done|done|].
    change (krhino_ntohl (le_word [0; 0; Z.land 0x3f (Z.lor 0x80 (byte_at x 1)); byte_at x 0]) = x).
    rewrite K3, decompress_value by lia. lia.
  - assert (0 <= byte_at x 2 < 64) as Hb by (apply (byte_at_bound x 2 6); lia).
    pose proof (len_byte_bits _ Hb) as Hk. unfold len_byte_ok in Hk. rewrite !andb_true_iff, !Z.eqb_eq in Hk.
    destruct Hk as (((_ & K1) & K2) & K3). rewrite (proj2 (Z.leb_le x 0x3fffff)) by lia.
    exists 3%nat. eexists. split; [reflexivity|].
    unfold header_ok, head_bytes, RINGBUF_LEN_MASK_ONEBIT, RINGBUF_LEN_MASK_TWOBIT, RINGBUF_LEN_VLE_2BYTES, RINGBUF_LEN_VLE_3BYTES; simpl.
    rewrite K1, K2. split_and!; [lia|lia|done|done|].
    change (krhino_ntohl (le_word [0; Z.land 0x3f (Z.lor 0xC0 (byte_at x 2)); byte_at x 1; byte_at x 0]) = x).
    rewrite K3, decompress_value by lia. lia.
Qed.
End HeadLen.

(** ** Memory *)
Section Mem.
Local Open Scope nat_scope.

Lemma length_mem_write off data mem : off + length data <= length mem -> length (mem_write off data mem) = length mem.
Proof. intros. unfold mem_write. rewrite !length_app, length_take, length_drop. lia. Qed.

Lemma lookup_mem_write off data mem i :
  off + length data <= length mem ->
  mem_write off data mem !! i = if decide (off <= i < off + length data) then data !! (i - off) else mem !! i.
Proof.
  intros Hl. unfold mem_write. assert (length (take off mem) = off) as Et by (rewrite length_take; lia). case_decide.
  - rewrite lookup_app_r by lia. rewrite lookup_app_l by lia. by rewrite Et.
  - destruct (decide (i < off)).
    + rewrite lookup_app_l by lia. by apply lookup_take_lt.
    + rewrite !lookup_app_r by lia. rewrite lookup_drop, Et. f_equal. lia.
Qed.

Lemma lookup_mem_read off n mem i : i < n -> mem_read off n mem !! i = mem !! (off + i).
Proof. intros Hi. unfold mem_read. by rewrite lookup_take_lt, lookup_drop by lia. Qed.

Lemma length_mem_read off n mem : off + n <= length mem -> length (mem_read off n mem) = n.
Proof. intros. unfold mem_read. rewrite length_take, length_drop. lia. Qed.
End Mem.

(** ** The used part of the ring *)
Section Ring.
Local Open Scope nat_scope.

Record rb_bytes rb bs : Prop := {
  rbb_size : 0 < rb_end rb;
  rbb_head : rb_head rb <= rb_end rb;
  rbb_tail : rb_tail rb <= rb_end rb;
  rbb_free : length bs + freesize rb = rb_end rb;
  rbb_pos : (rb_head rb + length bs) mod rb_end rb = rb_tail rb mod rb_end rb;
  rbb_at : forall k, k < length bs -> rb_data rb !! ((rb_head rb + k) mod rb_end rb) = bs !! k;
}.

(** Positions of the ring are distinct. *)
Lemma ring_distinct n h a b : a < n -> b < n -> (h + a) mod n = (h + b) mod n -> a = b.
Proof.
  intros Ha Hb E. assert (n <> 0) by lia.
  pose proof (Nat.div_mod (h + a) n ltac:(lia)) as Da. pose proof (Nat.div_mod (h + b) n ltac:(lia)) as Db.
  rewrite E in Da. destruct (Nat.lt_trichotomy ((h + a) / n) ((h + b) / n)) as [Hq|[Hq|Hq]]; nia.
Qed.

Lemma mod_end n : 0 < n -> n mod n = 0.
Proof. intros. apply Nat.Div0.mod_same. Qed.

(** A pointer at the end of the array and one at its start are the same position. *)
Lemma tail_wrap_bytes rb bs :
  rb_bytes rb bs -> rb_bytes (tail_wrap rb) bs /\ rb_tail (tail_wrap rb) < rb_end rb.
Proof.
  intros [Hn Hh Ht Hf Hp Ha]. unfold tail_wrap. destruct (Nat.eqb_spec (rb_tail rb) (rb_end rb)) as [E|E]; [|split; [done|lia]].
  split; [|exact Hn]. split; try done; [change (0 <= rb_end rb); lia|].
  change ((rb_head rb + length bs) mod rb_end rb = 0 mod rb_end rb). rewrite Hp, E, mod_end by done. by rewrite Nat.Div0.mod_0_l.
Qed.

Lemma head_wrap_bytes rb bs :
  rb_bytes rb bs -> rb_bytes (head_wrap rb) bs /\ rb_head (head_wrap rb) < rb_end rb.
Proof.
  intros [Hn Hh Ht Hf Hp Ha]. unfold head_wrap. destruct (Nat.eqb_spec (rb_head rb) (rb_end rb)) as [E|E]; [|split; [done|lia]].
  assert (forall x, (rb_end rb + x) mod rb_end rb = (0 + x) mod rb_end rb) as Em.
  { intros x. rewrite Nat.Div0.add_mod, mod_end, Nat.add_0_l, Nat.Div0.mod_mod by done. done. }
  rewrite E in *. split; [|exact Hn]. split; try done; [change (0 <= rb_end rb); lia| |].
  - change ((0 + length bs) mod rb_end rb = rb_tail rb mod rb_end rb). by rewrite <- Em.
  - intros k Hk. change (rb_data rb !! ((0 + k) mod rb_end rb) = bs !! k). rewrite <- Em. by apply Ha.
Qed.

(** A chunk copied behind the tail, without reaching the end of the array. *)
Definition append data rb : k_ringbuf_t :=
  (copy_to_tail data rb) <| rb_tail ::= fun t => t + length data |> <| freesize ::= fun f => f - length data |>.

Lemma append_bytes rb bs data :
  rb_bytes rb bs -> rb_tail rb + length data <= rb_end rb -> length data <= freesize rb ->
  rb_bytes (append data rb) (bs ++ data) /\ rb_end (append data rb) = rb_end rb /\
  rb_head (append data rb) = rb_head rb /\ freesize (append data rb) = freesize rb - length data.
Proof.
  intros [Hn Hh Ht Hf Hp Ha] Hfit Hfree.
  assert (rb_end (append data rb) = rb_end rb) as En by (unfold rb_end, append, copy_to_tail; simpl; by apply length_mem_write).
  split; [|done]. split; rewrite ?En; try done.
  - change (length (bs ++ data) + (freesize rb - length data) = rb_end rb). rewrite length_app. lia.
  - change ((rb_head rb + length (bs ++ data)) mod rb_end rb = (rb_tail rb + length data) mod rb_end rb).
    rewrite length_app, Nat.add_assoc, Nat.Div0.add_mod, Hp, <- Nat.Div0.add_mod. done.
  - intros k Hk. rewrite length_app in Hk.
    change (mem_write (rb_tail rb) data (rb_data rb) !! ((rb_head rb + k) mod rb_end rb) = (bs ++ data) !! k).
    rewrite lookup_mem_write by done.
    (* position of the [k]-th byte relative to the tail *)
    assert (forall j, length bs + j = k -> j < length data ->
      (rb_head rb + k) mod rb_end rb = (rb_tail rb + j) mod rb_end rb) as Hj.
    { intros j <- _. rewrite Nat.add_assoc, Nat.Div0.add_mod, Hp, <- Nat.Div0.add_mod. done. }
    destruct (decide (k < length bs)) as [Hlt|Hge].
    + rewrite lookup_app_l by done. case_decide as Hin; [|by apply Ha]. exfalso.
      set (q := (rb_head rb + k) mod rb_end rb) in *.
      assert ((rb_head rb + k) mod rb_end rb = (rb_head rb + (length bs + (q - rb_tail rb))) mod rb_end rb) as E.
      { fold q. rewrite Nat.add_assoc, Nat.Div0.add_mod, Hp, <- Nat.Div0.add_mod.
        replace (rb_tail rb + (q - rb_tail rb)) with q by lia.
        rewrite Nat.mod_small; [done|]. apply Nat.mod_upper_bound. lia. }
      apply ring_distinct in E; lia.
    + rewrite lookup_app_r by lia. rewrite (Hj (k - length bs)) by lia.
      destruct (decide (rb_tail rb + (k - length bs) = rb_end rb)) as [Ee|]; [lia|].
      rewrite Nat.mod_small by lia. rewrite decide_True by lia. f_equal. lia.
Qed.

(** A chunk copied from the head, without reaching the end of the array. *)
Definition consume (n : nat) rb : k_ringbuf_t :=
  rb <| rb_head ::= fun h => h + n |> <| freesize ::= fun f => f + n |>.

Lemma consume_bytes rb bs n :
  rb_bytes rb bs -> rb_head rb + n <= rb_end rb -> n <= length bs ->
  rb_bytes (consume n rb) (drop n bs) /\ mem_read (rb_head rb) n (rb_data rb) = take n bs.
Proof.
  intros [Hn Hh Ht Hf Hp Ha] Hfit Hlen. split.
  - split; try done.
    + change (length (drop n bs) + (freesize rb + n) = rb_end rb). rewrite length_drop. lia.
    + change ((rb_head rb + n + length (drop n bs)) mod rb_end rb = rb_tail rb mod rb_end rb).
      rewrite length_drop. by replace (rb_head rb + n + (length bs - n)) with (rb_head rb + length bs) by lia.
    + intros k Hk. rewrite length_drop in Hk.
      change (rb_data rb !! ((rb_head rb + n + k) mod rb_end rb) = drop n bs !! k).
      rewrite lookup_drop, <- Nat.add_assoc. apply Ha. lia.
  - apply list_eq. intros i. destruct (decide (i < n)) as [Hi|Hi].
    + rewrite lookup_mem_read, lookup_take_lt, <- Ha by lia. rewrite Nat.mod_small by lia. done.
    + rewrite !lookup_ge_None_2; [done|rewrite length_take; lia|rewrite length_mem_read by done; lia].
Qed.

(** The free space is contiguous when the tail is behind the head, the used space
    when it is in front. *)
Lemma free_contiguous rb bs : rb_bytes rb bs -> rb_tail rb < rb_head rb -> rb_tail rb + freesize rb <= rb_end rb.
Proof.
  intros [Hn Hh Ht Hf Hp Ha] Hlt. assert (rb_tail rb < rb_end rb) as Hte by lia.
  rewrite (Nat.mod_small (rb_tail rb)) in Hp by done.
  pose proof (Nat.div_mod (rb_head rb + length bs) (rb_end rb) ltac:(lia)) as Hd. rewrite Hp in Hd.
  destruct ((rb_head rb + length bs) / rb_end rb) as [|[|q]]; nia.
Qed.

Lemma used_contiguous rb bs :
  rb_bytes rb bs -> rb_head rb < rb_end rb -> rb_head rb <= rb_tail rb -> 0 < freesize rb ->
  rb_head rb + length bs <= rb_end rb.
Proof.
  intros [Hn Hh Ht Hf Hp Ha] Hlt Hle Hfr.
  pose proof (Nat.div_mod (rb_head rb + length bs) (rb_end rb) ltac:(lia)) as Hd. rewrite Hp in Hd.
  destruct (decide (rb_tail rb = rb_end rb)) as [E|E].
  - rewrite E, mod_end in Hd by done. destruct ((rb_head rb + length bs) / rb_end rb) as [|[|q]]; nia.
  - rewrite (Nat.mod_small (rb_tail rb)) in Hd by lia. destruct ((rb_head rb + length bs) / rb_end rb) as [|[|q]]; nia.
Qed.

(** ** Chunks that may be split at the end of the array *)

(** [memcpy] of [data] behind the tail as [ringbuf_push] does it, for the length field
    and for the payload. *)
Definition push_chunk data rb : k_ringbuf_t :=
  let rb := tail_wrap rb in
  let split_len := rb_end rb - rb_tail rb in
  if (rb_head rb <=? rb_tail rb) && (split_len <? length data) && (0 <? split_len)
  then append (drop split_len data) ((append (take split_len data) rb) <| rb_tail := 0 |>)
  else append data rb.

(** Size, mode and block size are constants of a buffer. *)
Definition same_shape rb rb' : Prop :=
  rb_end rb' = rb_end rb /\ rb_type rb' = rb_type rb /\ rb_blk_size rb' = rb_blk_size rb.

Lemma tail_wrap_shape rb : same_shape rb (tail_wrap rb) /\ freesize (tail_wrap rb) = freesize rb.
Proof. unfold tail_wrap. by destruct (_ =? _). Qed.

Lemma head_wrap_shape rb : same_shape rb (head_wrap rb) /\ freesize (head_wrap rb) = freesize rb /\ rb_tail (head_wrap rb) = rb_tail rb.
Proof. unfold head_wrap. by destruct (_ =? _). Qed.

Lemma free_le_end rb bs : rb_bytes rb bs -> freesize rb <= rb_end rb.
Proof. intros Hb. pose proof (rbb_free _ _ Hb). lia. Qed.

Lemma push_chunk_bytes rb bs data :
  rb_bytes rb bs -> length data <= freesize rb ->
  rb_bytes (push_chunk data rb) (bs ++ data) /\ same_shape rb (push_chunk data rb) /\
  freesize (push_chunk data rb) = freesize rb - length data.
Proof.
  intros Hb Hlen. unfold push_chunk. destruct (tail_wrap_bytes _ _ Hb) as [Hw Ht].
  destruct (tail_wrap_shape rb) as [(He & Hty & Hbk) Hf]. set (r := tail_wrap rb) in *. rewrite <- He in Ht.
  destruct (_ && _) eqn:C.
  - rewrite !andb_true_iff, Nat.leb_le, !Nat.ltb_lt in C. destruct C as ((C1 & C2) & C3).
    set (n := rb_end r - rb_tail r) in *.
    assert (length (take n data) = n) as El by (rewrite length_take; lia).
    destruct (append_bytes r bs (take n data) Hw ltac:(lia) ltac:(lia)) as (H1 & E1 & F1 & G1).
    assert ((append (take n data) r) <| rb_tail := 0 |> = tail_wrap (append (take n data) r)) as Ew.
    { unfold tail_wrap. rewrite E1. change (rb_tail (append (take n data) r)) with (rb_tail r + length (take n data)).
      rewrite El. replace (_ =? _) with true by (symmetry; apply Nat.eqb_eq; lia). done. }
    rewrite Ew. destruct (tail_wrap_bytes _ _ H1) as [H2 _].
    assert (rb_tail (tail_wrap (append (take n data) r)) = 0) as Et by (by rewrite <- Ew).
    destruct (tail_wrap_shape (append (take n data) r)) as [(E2 & Y2 & K2) G2].
    pose proof (free_le_end _ _ Hw).
    assert (length (drop n data) = length data - n) as Ed by apply length_drop.
    destruct (append_bytes _ _ (drop n data) H2) as (H3 & E3 & _ & G3); [rewrite Et; lia|lia|].
    rewrite <- app_assoc, take_drop in H3.
    unfold same_shape. split_and!; [done|lia|exact (eq_trans Y2 Hty)|exact (eq_trans K2 Hbk)|lia].
  - assert (rb_tail r + length data <= rb_end r) as Hfit.
    { rewrite !andb_false_iff, Nat.leb_gt, !Nat.ltb_ge in C. destruct C as [[C|C]|C]; [|lia..].
      pose proof (free_contiguous _ _ Hw C). lia. }
    destruct (append_bytes r bs data Hw ltac:(lia) ltac:(lia)) as (H1 & E1 & _ & G1).
    unfold same_shape. split_and!; [done|lia|done|done|lia].
Qed.

(** The copy from the head as [ringbuf_pop] does it. *)
Definition pop_chunk (cond : bool) (n : nat) rb : list Z * k_ringbuf_t :=
  let split_len := rb_end rb - rb_head rb in
  if cond && (split_len <? n)
  then let rb' := (consume split_len rb) <| rb_head := 0 |> in
       (mem_read (rb_head rb) split_len (rb_data rb) ++ mem_read 0 (n - split_len) (rb_data rb), consume (n - split_len) rb')
  else (mem_read (rb_head rb) n (rb_data rb), consume n rb).

Lemma pop_chunk_bytes cond rb bs n :
  rb_bytes rb bs -> rb_head rb < rb_end rb -> n <= length bs ->
  (cond = false -> rb_head rb + length bs <= rb_end rb) ->
  (pop_chunk cond n rb).1 = take n bs /\ rb_bytes (pop_chunk cond n rb).2 (drop n bs) /\
  same_shape rb (pop_chunk cond n rb).2 /\ freesize (pop_chunk cond n rb).2 = freesize rb + n /\
  rb_tail (pop_chunk cond n rb).2 = rb_tail rb.
Proof.
  intros Hb Hh Hn Hc. unfold pop_chunk. set (k := rb_end rb - rb_head rb).
  destruct (cond && (k <? n)) eqn:C.
  - rewrite andb_true_iff, Nat.ltb_lt in C. destruct C as [-> C]. cbn [fst snd].
    destruct (consume_bytes rb bs k Hb ltac:(lia) ltac:(lia)) as [H1 R1].
    assert ((consume k rb) <| rb_head := 0 |> = head_wrap (consume k rb)) as Ew.
    { unfold head_wrap. change (rb_head (consume k rb)) with (rb_head rb + k).
      change (rb_end (consume k rb)) with (rb_end rb).
      replace (_ =? _) with true by (symmetry; apply Nat.eqb_eq; lia). done. }
    destruct (head_wrap_bytes _ _ H1) as [H2 _]. rewrite <- Ew in H2.
    pose proof (rbb_free _ _ Hb).
    destruct (consume_bytes _ _ (n - k) H2) as [H3 R3]; [change (0 + (n - k) <= rb_end rb); lia|rewrite length_drop; lia|].
    rewrite R1. change (mem_read 0 (n - k) (rb_data rb) = take (n - k) (drop k bs)) in R3. rewrite R3.
    split_and!; [|replace (drop n bs) with (drop (n - k) (drop k bs)); [done|rewrite drop_drop; f_equal; lia]|done..|
      change (freesize rb + k + (n - k) = freesize rb + n); lia|done].
    rewrite take_drop_commute. replace (k + (n - k)) with n by lia.
    replace (take k bs) with (take k (take n bs)) by (rewrite take_take; f_equal; lia). apply take_drop.
  - assert (rb_head rb + n <= rb_end rb) as Hfit.
    { apply andb_false_iff in C as [C|C]; [specialize (Hc C); lia|]. apply Nat.ltb_ge in C. lia. }
    destruct (consume_bytes rb bs n Hb Hfit Hn) as [H1 R1]. split_and!; done.
Qed.

(** A chunk copied in front of the head, without reaching the start of the array. *)
Definition prepend data rb : k_ringbuf_t :=
  (copy_to_head data (rb <| rb_head ::= fun h => h - length data |>)) <| freesize ::= fun f => f - length data |>.

Lemma prepend_bytes rb bs data :
  rb_bytes rb bs -> length data <= rb_head rb -> length data <= freesize rb ->
  rb_bytes (prepend data rb) (data ++ bs) /\ same_shape rb (prepend data rb).
Proof.
  intros [Hn Hh Ht Hf Hp Ha] Hfit Hfree.
  assert (rb_end (prepend data rb) = rb_end rb) as En
    by (unfold rb_end, prepend, copy_to_head; simpl; apply length_mem_write; unfold rb_end in *; lia).
  split; [|done]. split; rewrite ?En; try done.
  - change (rb_head rb - length data <= rb_end rb). lia.
  - change (length (data ++ bs) + (freesize rb - length data) = rb_end rb). rewrite length_app. lia.
  - change ((rb_head rb - length data + length (data ++ bs)) mod rb_end rb = rb_tail rb mod rb_end rb).
    rewrite length_app. by replace (rb_head rb - length data + (length data + length bs)) with (rb_head rb + length bs) by lia.
  - intros k Hk. rewrite length_app in Hk. set (h := rb_head rb - length data).
    change (mem_write h data (rb_data rb) !! ((h + k) mod rb_end rb) = (data ++ bs) !! k).
    rewrite lookup_mem_write by (unfold rb_end in *; lia).
    destruct (decide (k < length data)) as [Hlt|Hge].
    + rewrite lookup_app_l by done. rewrite Nat.mod_small by lia. rewrite decide_True by lia. f_equal. lia.
    + rewrite lookup_app_r by lia.
      replace (h + k) with (rb_head rb + (k - length data)) by lia. rewrite <- Ha by lia.
      case_decide as Hin; [|done]. exfalso. set (q := (rb_head rb + (k - length data)) mod rb_end rb) in *.
      assert ((h + k) mod rb_end rb = (h + (q - h)) mod rb_end rb) as E.
      { replace (h + k) with (rb_head rb + (k - length data)) by lia. fold q. replace (h + (q - h)) with q by lia.
        symmetry. apply Nat.mod_small, Nat.mod_upper_bound. lia. }
      apply ring_distinct in E; lia.
Qed.

Lemma head_wrap_back_bytes rb bs :
  rb_bytes rb bs -> rb_bytes (head_wrap_back rb) bs /\ 0 < rb_head (head_wrap_back rb) /\
  same_shape rb (head_wrap_back rb) /\ freesize (head_wrap_back rb) = freesize rb /\ rb_tail (head_wrap_back rb) = rb_tail rb.
Proof.
  intros Hb. unfold head_wrap_back. destruct (Nat.eqb_spec (rb_head rb) 0) as [E|E]; [|split_and!; [done|lia|done..]].
  destruct Hb as [Hn Hh Ht Hf Hp Ha].
  assert (forall x, (rb_end rb + x) mod rb_end rb = (0 + x) mod rb_end rb) as Em.
  { intros x. rewrite Nat.Div0.add_mod, mod_end, Nat.add_0_l, Nat.Div0.mod_mod by done. done. }
  split_and!; [|done..]. rewrite E in *. split; try done.
  - change ((rb_end rb + length bs) mod rb_end rb = rb_tail rb mod rb_end rb). by rewrite Em.
  - intros k Hk. change (rb_data rb !! ((rb_end rb + k) mod rb_end rb) = bs !! k). rewrite Em. by apply Ha.
Qed.

(** Free space in front of the head is contiguous when the tail is behind it. *)
Lemma free_front rb bs : rb_bytes rb bs -> rb_tail rb < rb_head rb -> freesize rb <= rb_head rb.
Proof.
  intros Hb Hlt. pose proof (free_contiguous _ _ Hb Hlt). destruct Hb as [Hn Hh Ht Hf Hp Ha].
  rewrite (Nat.mod_small (rb_tail rb)) in Hp by lia.
  pose proof (Nat.div_mod (rb_head rb + length bs) (rb_end rb) ltac:(lia)) as Hd. rewrite Hp in Hd.
  destruct ((rb_head rb + length bs) / rb_end rb) as [|[|q]]; nia.
Qed.

(** The copies in front of the head of [ringbuf_head_push]: [lo] goes to the start of
    the array and [hi] to its end when the chunk has to be split. *)
Definition push_front (lo hi data : list Z) rb : k_ringbuf_t :=
  if (rb_head rb <=? rb_tail rb) && (rb_head rb <? length data) && (0 <? rb_head rb)
  then prepend hi ((prepend lo rb) <| rb_head := rb_end rb |>)
  else prepend data rb.

Definition front_split data rb : bool :=
  (rb_head rb <=? rb_tail rb) && (rb_head rb <? length data) && (0 <? rb_head rb).

Lemma push_front_bytes lo hi data rb bs :
  rb_bytes rb bs -> 0 < rb_head rb -> length data <= freesize rb ->
  (front_split data rb = true -> length lo = rb_head rb /\ length hi = length data - rb_head rb) ->
  rb_bytes (push_front lo hi data rb) ((if front_split data rb then hi ++ lo else data) ++ bs) /\
  same_shape rb (push_front lo hi data rb) /\ rb_tail (push_front lo hi data rb) = rb_tail rb.
Proof.
  intros Hb Hh Hlen Hs. unfold push_front. fold (front_split data rb).
  destruct (front_split data rb) eqn:C.
  - destruct (Hs eq_refl) as [El Eh]. unfold front_split in C. rewrite !andb_true_iff, Nat.leb_le, !Nat.ltb_lt in C.
    destruct C as ((C1 & C2) & C3).
    destruct (prepend_bytes rb bs lo Hb ltac:(lia) ltac:(lia)) as [H1 (E1 & Y1 & K1)].
    assert ((prepend lo rb) <| rb_head := rb_end rb |> = head_wrap_back (prepend lo rb)) as Ew.
    { unfold head_wrap_back. change (rb_head (prepend lo rb)) with (rb_head rb - length lo).
      replace (_ =? 0) with true by (symmetry; apply Nat.eqb_eq; lia). by rewrite E1. }
    destruct (head_wrap_back_bytes _ _ H1) as (H2 & _ & (E2 & Y2 & K2) & F2 & T2). rewrite <- Ew in *.
    pose proof (free_le_end _ _ Hb).
    destruct (prepend_bytes _ _ hi H2) as [H3 (E3 & Y3 & K3)].
    { change (length hi <= rb_end rb). lia. }
    { change (length hi <= freesize rb - length lo). lia. }
    rewrite <- app_assoc. unfold same_shape. split_and!; [done|lia|done..].
  - assert (length data <= rb_head rb) as Hfit.
    { unfold front_split in C. rewrite !andb_false_iff, Nat.leb_gt, !Nat.ltb_ge in C. destruct C as [[C|C]|C]; [|lia..].
      pose proof (free_front _ _ Hb C). lia. }
    destruct (prepend_bytes rb bs data Hb Hfit Hlen) as [H1 S1]. split_and!; done.
Qed.
End Ring.

(** ** Messages *)
Section Messages.
Local Open Scope nat_scope.

(** The length field and the frame of a message in [RINGBUF_TYPE_DYN] mode. *)
Definition header m : list Z :=
  let '(len_bytes, c_len) := ringbuf_headlen_compress (Z.of_nat (length m)) in take (Z.to_nat len_bytes) c_len.

Definition frame rb m : list Z := if (rb_type rb =? RINGBUF_TYPE_FIX)%Z then m else header m ++ m.

(** A length the vendor API lets through ([krhino_ringbuf_push]). *)
Definition msg_ok rb m : Prop :=
  (if (rb_type rb =? RINGBUF_TYPE_FIX)%Z then length m = rb_blk_size rb
   else (1 <= Z.of_nat (length m) <= RINGBUF_LEN_3BYTES_MAXVALUE)%Z).

(** In [RINGBUF_TYPE_FIX] mode the array is a whole number of blocks and the pointers
    stay at block boundaries. *)
Definition mode_ok rb : Prop :=
  (rb_type rb = RINGBUF_TYPE_FIX /\ 0 < rb_blk_size rb /\ rb_end rb mod rb_blk_size rb = 0 /\
   rb_head rb mod rb_blk_size rb = 0 /\ rb_tail rb mod rb_blk_size rb = 0) \/
  rb_type rb = RINGBUF_TYPE_DYN.

(** The buffer holds the messages [ms], oldest first. *)
Record rb_msgs rb (ms : list (list Z)) : Prop := {
  rm_mode : mode_ok rb;
  rm_ok : Forall (msg_ok rb) ms;
  rm_bytes : rb_bytes rb (concat (frame rb <$> ms));
}.

Lemma frame_shape rb rb' : same_shape rb rb' -> frame rb' = frame rb.
Proof. intros (_ & E & _). unfold frame. by rewrite E. Qed.

Lemma msg_ok_shape rb rb' m : same_shape rb rb' -> msg_ok rb m -> msg_ok rb' m.
Proof. intros (_ & E & E'). unfold msg_ok. by rewrite E, E'. Qed.

Lemma header_spec rb m :
  rb_type rb = RINGBUF_TYPE_DYN -> msg_ok rb m ->
  exists lb c, ringbuf_headlen_compress (Z.of_nat (length m)) = (Z.of_nat lb, c) /\ 1 <= lb <= 3 /\
    header m = take lb c /\ length (header m) = lb /\ head_bytes (header m !!! 0) = lb /\
    ringbuf_headlen_decompress lb (header m) = Z.of_nat (length m).
Proof.
  intros Ht Hm. unfold msg_ok in Hm. rewrite Ht in Hm. simpl in Hm.
  destruct (header_roundtrip _ Hm) as (lb & c & E & Hlb & Hc & Hh & Hd). exists lb, c.
  assert (header m = take lb c) as Eh by (unfold header; by rewrite E, Nat2Z.id).
  rewrite Eh. assert (length (take lb c) = lb) as El by (rewrite length_take; lia).
  split_and!; try done; [lia..|]. rewrite list_lookup_total_alt, lookup_take_lt, <- list_lookup_total_alt by lia. done.
Qed.

(** *** [ringbuf_push] *)

(** The copy of the payload, the second half of [ringbuf_push]. *)
Lemma push_payload_eq rb data :
  (let rb := tail_wrap rb in
   let split_len := rb_end rb - rb_tail rb in
   let '(rb, data, len) :=
     if (rb_head rb <=? rb_tail rb)%nat && (split_len <? length data)%nat && (0 <? split_len)%nat then
       ((copy_to_tail (take split_len data) rb) <| rb_tail := 0 |> <| freesize ::= fun f => f - split_len |>,
        drop split_len data, length data - split_len)
     else (rb, data, length data) in
   let rb := copy_to_tail data rb in
   (RHINO_SUCCESS, rb <| rb_tail ::= fun t => t + len |> <| freesize ::= fun f => f - len |>)) =
  (RHINO_SUCCESS, push_chunk data rb).
Proof.
  unfold push_chunk. set (r := tail_wrap rb). set (k := rb_end r - rb_tail r). destruct (_ && _ && _) eqn:C; [|done].
  rewrite !andb_true_iff, Nat.leb_le, !Nat.ltb_lt in C. destruct C as ((_ & C) & _).
  f_equal. unfold append. by rewrite length_drop, length_take_le by lia.
Qed.

Lemma push_dyn_eq rb m :
  rb_type rb = RINGBUF_TYPE_DYN -> msg_ok rb m -> ringbuf_is_full rb = false ->
  length (header m) + length m <= freesize rb ->
  ringbuf_push rb m = (RHINO_SUCCESS, push_chunk m (push_chunk (header m) rb)).
Proof.
  intros Ht Hm Hf Hsz. destruct (header_spec rb m Ht Hm) as (lb & c & E & Hlb & Eh & El & _ & _).
  unfold ringbuf_push. rewrite Hf, Ht. cbn [Z.eqb RINGBUF_TYPE_DYN RINGBUF_TYPE_FIX]. rewrite E.
  replace ((Z.of_nat lb =? 0) || (RINGBUF_LEN_MAX_SIZE <? Z.of_nat lb))%Z with false
    by (symmetry; apply orb_false_iff; unfold RINGBUF_LEN_MAX_SIZE; rewrite Z.eqb_neq, Z.ltb_ge; lia).
  rewrite Nat2Z.id. replace (freesize rb <? lb + length m) with false by (symmetry; apply Nat.ltb_ge; lia).
  unfold push_chunk at 2. rewrite El. assert (length c >= lb) by (rewrite <- El, Eh, length_take; lia).
  set (r := tail_wrap rb). set (k := rb_end r - rb_tail r).
  destruct (_ && _ && _) eqn:C1.
  - rewrite !andb_true_iff, Nat.leb_le, !Nat.ltb_lt in C1. destruct C1 as ((_ & C1) & _).
    replace (0 <? lb - k) with true by (symmetry; apply Nat.ltb_lt; lia).
    etrans; [exact (push_payload_eq _ _)|]. f_equal. f_equal.
    unfold append. rewrite length_drop, El, length_take_le by lia. rewrite Eh, take_take, skipn_firstn_comm, Nat.min_l by lia. done.
  - replace (0 <? lb) with true by (symmetry; apply Nat.ltb_lt; lia).
    etrans; [exact (push_payload_eq _ _)|]. f_equal. f_equal. unfold append. by rewrite El, Eh, drop_0.
Qed.

Lemma push_full_dyn rb m :
  rb_type rb = RINGBUF_TYPE_DYN -> msg_ok rb m -> freesize rb < length (header m) + length m ->
  ringbuf_push rb m = (RHINO_RINGBUF_FULL, rb) /\ ringbuf_head_push rb m = (RHINO_RINGBUF_FULL, rb).
Proof.
  intros Ht Hm Hsz. destruct (header_spec rb m Ht Hm) as (lb & c & E & Hlb & Eh & El & _ & _).
  unfold ringbuf_push, ringbuf_head_push. destruct (ringbuf_is_full rb); [done|].
  rewrite Ht. cbn [Z.eqb RINGBUF_TYPE_DYN RINGBUF_TYPE_FIX]. rewrite E.
  replace ((Z.of_nat lb =? 0) || (RINGBUF_LEN_MAX_SIZE <? Z.of_nat lb))%Z with false
    by (symmetry; apply orb_false_iff; unfold RINGBUF_LEN_MAX_SIZE; rewrite Z.eqb_neq, Z.ltb_ge; lia).
  rewrite Nat2Z.id. by replace (freesize rb <? lb + length m) with true by (symmetry; apply Nat.ltb_lt; lia).
Qed.

(** The fullness test rejects only what does not fit. *)
Lemma not_full rb m :
  mode_ok rb -> msg_ok rb m -> length (frame rb m) <= freesize rb -> ringbuf_is_full rb = false.
Proof.
  intros [(Ht & Hbk & _)|Ht] Hm Hsz; unfold ringbuf_is_full, frame, msg_ok in *; rewrite Ht in *; simpl in *.
  - replace (freesize rb <? rb_blk_size rb) with false; [done|]. symmetry. apply Nat.ltb_ge. lia.
  - pose proof (header_spec rb m Ht) as Hh. unfold msg_ok in Hh. rewrite Ht in Hh.
    destruct (Hh Hm) as (lb & c & _ & Hlb & _ & El & _). rewrite length_app in Hsz.
    replace (freesize rb <? 2) with false; [done|]. symmetry. apply Nat.ltb_ge. lia.
Qed.

(** A block ends before the end of the array when it starts at a block boundary before it. *)
Lemma block_fits b n x : 0 < b -> n mod b = 0 -> x mod b = 0 -> x < n -> x + b <= n.
Proof.
  intros Hb Hn Hx Hlt. apply Nat.Div0.mod_divides in Hn as [p ->], Hx as [q ->].
  assert (q + 1 <= p) by nia. nia.
Qed.

Lemma block_step b x : 0 < b -> x mod b = 0 -> (x + b) mod b = 0 /\ (b <= x -> (x - b) mod b = 0).
Proof.
  intros Hb Hx. apply Nat.Div0.mod_divides in Hx as [q ->]. split.
  - apply Nat.Div0.mod_divides. exists (q + 1). lia.
  - intros Hle. apply Nat.Div0.mod_divides. exists (q - 1). nia.
Qed.

Lemma push_fix_eq rb m :
  rb_type rb = RINGBUF_TYPE_FIX -> ringbuf_is_full rb = false ->
  ringbuf_push rb m = (RHINO_SUCCESS, append m (tail_wrap rb)).
Proof. intros Ht Hf. unfold ringbuf_push. rewrite Hf, Ht. done. Qed.

Lemma tail_wrap_fits rb bs :
  rb_bytes rb bs -> 0 < rb_blk_size rb -> rb_end rb mod rb_blk_size rb = 0 -> rb_tail rb mod rb_blk_size rb = 0 ->
  rb_tail (tail_wrap rb) + rb_blk_size rb <= rb_end rb /\ rb_tail (tail_wrap rb) mod rb_blk_size rb = 0.
Proof.
  intros Hb Hk He Ht. destruct (tail_wrap_bytes _ _ Hb) as [_ Hlt].
  assert (rb_tail (tail_wrap rb) mod rb_blk_size rb = 0) as Ht'.
  { unfold tail_wrap. destruct (_ =? _); [apply Nat.Div0.mod_0_l|done]. }
  split; [by apply block_fits|done].
Qed.

Lemma frame_app rb m ms : concat (frame rb <$> ms ++ [m]) = concat (frame rb <$> ms) ++ frame rb m.
Proof. rewrite fmap_app, concat_app. simpl. by rewrite app_nil_r. Qed.

Lemma push_msgs rb ms m :
  rb_msgs rb ms -> msg_ok rb m -> length (frame rb m) <= freesize rb ->
  exists rb', ringbuf_push rb m = (RHINO_SUCCESS, rb') /\ rb_msgs rb' (ms ++ [m]) /\ same_shape rb rb' /\
    freesize rb' = freesize rb - length (frame rb m).
Proof.
  intros [Hmode Hok Hb] Hm Hsz. pose proof (not_full rb m Hmode Hm Hsz) as Hf.
  assert (forall rb', same_shape rb rb' -> mode_ok rb' ->
    rb_bytes rb' (concat (frame rb <$> ms) ++ frame rb m) -> rb_msgs rb' (ms ++ [m])) as Hmk.
  { intros rb' Hs Hmo Hby. split; [done| |].
    - apply Forall_app. split; [|apply Forall_singleton; by eapply msg_ok_shape].
      eapply Forall_impl; [exact Hok|]. intros x. by apply msg_ok_shape.
    - by rewrite (frame_shape _ _ Hs), frame_app. }
  destruct Hmode as [(Ht & Hk & He & Hh & Htl)|Ht].
  - rewrite (push_fix_eq _ _ Ht Hf). eexists. split; [done|].
    assert (frame rb m = m /\ length m = rb_blk_size rb) as [Efr Elen] by (unfold frame, msg_ok in *; by rewrite Ht in *).
    destruct (tail_wrap_bytes _ _ Hb) as [Hw _]. destruct (tail_wrap_shape rb) as [(Ew & Yw & Kw) Fw].
    destruct (tail_wrap_fits _ _ Hb Hk He Htl) as [Hfit Hal]. rewrite Efr in *.
    destruct (append_bytes _ _ m Hw ltac:(lia) ltac:(lia)) as (Hby & E1 & F1 & G1).
    assert (same_shape rb (append m (tail_wrap rb))) as Hs by (split_and!; [lia|done|done]).
    split_and!; [|done|lia]. apply Hmk; [done| |done].
    left. destruct Hs as (S1 & S2 & S3). rewrite S1, S2, S3, F1. split_and!; [done..| |].
    + unfold tail_wrap. by destruct (_ =? _).
    + change (rb_tail (append m (tail_wrap rb))) with (rb_tail (tail_wrap rb) + length m). rewrite Elen. by apply block_step.
  - assert (frame rb m = header m ++ m) as Efr by (unfold frame; by rewrite Ht). rewrite Efr, length_app in *.
    rewrite (push_dyn_eq rb m Ht Hm Hf Hsz). eexists. split; [done|].
    destruct (push_chunk_bytes rb _ (header m) Hb ltac:(lia)) as (H1 & (S1 & S2 & S3) & F1).
    destruct (push_chunk_bytes _ _ m H1 ltac:(lia)) as (H2 & (S4 & S5 & S6) & F2). rewrite <- app_assoc in H2.
    assert (same_shape rb (push_chunk m (push_chunk (header m) rb))) as Hs by (split_and!; congruence).
    split_and!; [|done|lia]. apply Hmk; [done| |done]. right. congruence.
Qed.

(** *** [ringbuf_pop] *)
Definition pop_payload (plen : Z) rb : kstat_t * list Z * Z * k_ringbuf_t :=
  let '(pdata, rb) := pop_chunk (rb_tail rb <? rb_head rb) (Z.to_nat plen) rb in (RHINO_SUCCESS, pdata, plen, rb).

Lemma pop_payload_eq rb plen :
  (let len := Z.to_nat plen in
   let split_len := rb_end rb - rb_head rb in
   let '(rb, first, len) :=
     if (rb_tail rb <? rb_head rb)%nat && (split_len <? len)%nat then
       (rb <| rb_head := 0 |> <| freesize ::= fun f => f + split_len |>,
        mem_read (rb_head rb) split_len (rb_data rb), len - split_len)
     else (rb, [], len) in
   let pdata := first ++ mem_read (rb_head rb) len (rb_data rb) in
   (RHINO_SUCCESS, pdata, plen, rb <| rb_head ::= fun h => h + len |> <| freesize ::= fun f => f + len |>)) =
  pop_payload plen rb.
Proof. unfold pop_payload, pop_chunk. by destruct (_ && _). Qed.

Lemma pop_dyn_eq rb :
  rb_type rb = RINGBUF_TYPE_DYN -> ringbuf_is_empty rb = false ->
  let r := head_wrap rb in
  let lb := head_bytes (rb_data r !!! rb_head r) in
  rb_head r < rb_end r -> lb <> 0 ->
  ringbuf_pop rb = let '(c_len, r1) := pop_chunk true lb r in
                   pop_payload (ringbuf_headlen_decompress lb c_len) (head_wrap r1).
Proof.
  intros Ht He r lb Hh Hlb. unfold ringbuf_pop. rewrite He, Ht. cbn [Z.eqb RINGBUF_TYPE_DYN RINGBUF_TYPE_FIX].
  fold r. fold (head_bytes (rb_data r !!! rb_head r)). fold lb.
  replace (lb =? 0) with false by (symmetry; by apply Nat.eqb_neq).
  unfold pop_chunk. set (k := rb_end r - rb_head r).
  replace (0 <? k) with true by (symmetry; apply Nat.ltb_lt; lia). rewrite andb_true_r, andb_true_l.
  destruct (Nat.ltb_spec k lb).
  - replace (0 <? lb - k) with true by (symmetry; apply Nat.ltb_lt; lia).
    etrans; [exact (pop_payload_eq _ _)|]. done.
  - replace (0 <? lb - 0) with true by (symmetry; apply Nat.ltb_lt; lia).
    etrans; [exact (pop_payload_eq _ _)|]. by rewrite Nat.sub_0_r.
Qed.

Lemma not_empty rb bs : rb_bytes rb bs -> ringbuf_is_empty rb = (length bs =? 0).
Proof.
  intros Hb. unfold ringbuf_is_empty. pose proof (rbb_free _ _ Hb).
  destruct (Nat.eqb_spec (freesize rb) (rb_end rb)), (Nat.eqb_spec (length bs) 0); done || lia.
Qed.

Lemma head_wrap_at rb bs :
  rb_bytes rb bs -> 0 < length bs -> rb_data (head_wrap rb) !!! rb_head (head_wrap rb) = bs !!! 0.
Proof.
  intros Hb Hl. destruct (head_wrap_bytes _ _ Hb) as [Hw Hlt]. destruct (head_wrap_shape rb) as [(Ew & _) _].
  rewrite !list_lookup_total_alt. f_equal. rewrite <- (rbb_at _ _ Hw 0) by done.
  rewrite Nat.add_0_r, Nat.mod_small by lia. done.
Qed.

Lemma pop_dyn_bytes rb m bs :
  rb_type rb = RINGBUF_TYPE_DYN -> msg_ok rb m -> rb_bytes rb ((header m ++ m) ++ bs) ->
  exists rb', ringbuf_pop rb = (RHINO_SUCCESS, m, Z.of_nat (length m), rb') /\ rb_bytes rb' bs /\
    same_shape rb rb' /\ freesize rb' = freesize rb + length (header m ++ m).
Proof.
  intros Ht Hm Hb. destruct (header_spec rb m Ht Hm) as (lb & c & _ & Hlb & _ & El & Ehb & Ed).
  assert (Hb' := Hb). rewrite <- app_assoc in Hb'.
  destruct (head_wrap_bytes _ _ Hb') as [Hw Hh]. destruct (head_wrap_shape rb) as [(Ew & Yw & Kw) [Fw Tw]].
  assert (head_bytes (rb_data (head_wrap rb) !!! rb_head (head_wrap rb)) = lb) as Elb.
  { rewrite (head_wrap_at _ _ Hb') by (rewrite length_app; lia). rewrite lookup_total_app_l by lia. done. }
  rewrite (pop_dyn_eq rb Ht); [|rewrite (not_empty _ _ Hb'); apply Nat.eqb_neq; rewrite length_app; lia|lia|rewrite Elb; lia].
  rewrite Elb.
  destruct (pop_chunk_bytes true _ _ lb Hw) as (R1 & B1 & (S1 & S2 & S3) & F1 & T1); [lia|rewrite length_app; lia|done|].
  destruct (pop_chunk true lb (head_wrap rb)) as [c1 r1]. cbn [fst snd] in *. rewrite R1.
  rewrite <- El, take_app_length, El, Ed. rewrite <- El, drop_app_length in B1.
  destruct (head_wrap_bytes _ _ B1) as [B2 H2]. destruct (head_wrap_shape r1) as [(E2 & Y2 & K2) [F2 T2]].
  unfold pop_payload. rewrite Nat2Z.id.
  destruct (pop_chunk_bytes (rb_tail (head_wrap r1) <? rb_head (head_wrap r1)) _ _ (length m) B2)
    as (R3 & B3 & (S4 & S5 & S6) & F3 & T3); [lia|rewrite length_app; lia| |].
  { intros C. apply Nat.ltb_ge in C. apply used_contiguous; [done|lia|done|lia]. }
  destruct (pop_chunk _ _ (head_wrap r1)) as [c3 r3]. cbn [fst snd] in *.
  rewrite take_app_length in R3. rewrite drop_app_length in B3. subst c3. exists r3.
  rewrite length_app. split_and!; [done|done| |lia]. split_and!; congruence.
Qed.

Lemma pop_fix_bytes rb m bs :
  rb_type rb = RINGBUF_TYPE_FIX -> 0 < rb_blk_size rb -> rb_end rb mod rb_blk_size rb = 0 ->
  rb_head rb mod rb_blk_size rb = 0 -> length m = rb_blk_size rb -> rb_bytes rb (m ++ bs) ->
  exists rb', ringbuf_pop rb = (RHINO_SUCCESS, m, Z.of_nat (length m), rb') /\ rb_bytes rb' bs /\
    same_shape rb rb' /\ rb_head rb' mod rb_blk_size rb = 0 /\ rb_tail rb' = rb_tail rb /\
    freesize rb' = freesize rb + length m.
Proof.
  intros Ht Hk He Hal Hm Hb. destruct (head_wrap_bytes _ _ Hb) as [Hw Hlt].
  destruct (head_wrap_shape rb) as [(Ew & Yw & Kw) [Fw Tw]].
  assert (rb_head (head_wrap rb) mod rb_blk_size rb = 0) as Hal'.
  { unfold head_wrap. destruct (_ =? _); [apply Nat.Div0.mod_0_l|done]. }
  pose proof (block_fits _ _ _ Hk He Hal' Hlt) as Hfit.
  destruct (consume_bytes _ _ (rb_blk_size rb) Hw) as [Hc Hr]; [lia|rewrite length_app; lia|].
  rewrite <- Hm, drop_app_length in Hc. rewrite <- Hm, take_app_length in Hr.
  unfold ringbuf_pop. rewrite (not_empty _ _ Hb), length_app, Hm.
  replace (rb_blk_size rb + length bs =? 0) with false by (symmetry; apply Nat.eqb_neq; lia). rewrite Ht.
  cbn [Z.eqb RINGBUF_TYPE_FIX]. rewrite Kw, <- Hm, Hr, Hm. eexists. split; [reflexivity|].
  rewrite <- Hm. split_and!; [exact Hc|done|rewrite Hm; by apply block_step|done|].
  change (freesize (head_wrap rb) + length m = freesize rb + length m). lia.
Qed.

Lemma pop_msgs rb m ms :
  rb_msgs rb (m :: ms) ->
  exists rb', ringbuf_pop rb = (RHINO_SUCCESS, m, Z.of_nat (length m), rb') /\ rb_msgs rb' ms /\ same_shape rb rb' /\
    freesize rb' = freesize rb + length (frame rb m).
Proof.
  intros [Hmode Hok Hb]. apply Forall_cons in Hok as [Hm Hok]. rewrite fmap_cons in Hb. cbn [concat] in Hb.
  assert (forall rb', same_shape rb rb' -> mode_ok rb' -> rb_bytes rb' (concat (frame rb <$> ms)) -> rb_msgs rb' ms) as Hmk.
  { intros rb' Hs Hmo Hby. split; [done| |by rewrite (frame_shape _ _ Hs)].
    eapply Forall_impl; [exact Hok|]. intros x. by apply msg_ok_shape. }
  destruct Hmode as [(Ht & Hk & He & Hh & Htl)|Ht].
  - assert (frame rb m = m /\ length m = rb_blk_size rb) as [Efr Elen] by (unfold frame, msg_ok in *; by rewrite Ht in *).
    rewrite Efr in *. destruct (pop_fix_bytes rb m _ Ht Hk He Hh Elen Hb) as (rb' & E & B & S & A & T & F).
    exists rb'. split_and!; [done| |done|done]. apply Hmk; [done| |done]. left. destruct S as (S1 & S2 & S3).
    rewrite S1, S2, S3, T. done.
  - assert (frame rb m = header m ++ m) as Efr by (unfold frame; by rewrite Ht). rewrite Efr in *.
    destruct (pop_dyn_bytes rb m _ Ht Hm Hb) as (rb' & E & B & S & F).
    exists rb'. split_and!; [done| |done|done]. apply Hmk; [done| |done]. right. destruct S as (_ & -> & _). done.
Qed.

(** *** [ringbuf_head_push] *)

(** The payload is split at the start of the array. *)
Definition payload_wraps rb m : bool := (rb_type rb =? RINGBUF_TYPE_DYN)%Z && front_split m (head_wrap_back rb).

(** What a wrapping payload becomes: its first bytes are stored behind its last ones. *)
Definition stored rb m : list Z :=
  let k := rb_head (head_wrap_back rb) in if payload_wraps rb m then drop k m ++ take k m else m.

Lemma length_stored rb m : length (stored rb m) = length m.
Proof. unfold stored. destruct (payload_wraps rb m); [|done]. rewrite length_app, length_drop, length_take. lia. Qed.

Lemma header_length m m' : length m = length m' -> header m = header m'.
Proof. intros E. unfold header. by rewrite E. Qed.

(** The copy of the length field, the second half of [ringbuf_head_push]. *)
Lemma push_header_eq rb c lb : lb <= length c -> 0 < lb ->
  (let split_len := rb_head rb in
   let '(rb, len_bytes) :=
     if (rb_head rb <=? rb_tail rb)%nat && (split_len <? lb)%nat && (0 <? split_len)%nat then
       (rb <| rb_data ::= mem_write 0 (take split_len (drop (lb - split_len) c)) |>
           <| rb_head := rb_end rb |> <| freesize ::= fun f => f - split_len |>,
        lb - split_len)
     else (rb, lb) in
   let rb := if (0 <? len_bytes)%nat then
       (copy_to_head (take len_bytes c) (rb <| rb_head ::= fun h => h - len_bytes |>))
         <| freesize ::= fun f => f - len_bytes |>
     else rb in
   (RHINO_SUCCESS, rb)) =
  (RHINO_SUCCESS, push_front (take (rb_head rb) (drop (lb - rb_head rb) c)) (take (lb - rb_head rb) c) (take lb c) rb).
Proof.
  intros Hc Hlb. unfold push_front. rewrite length_take_le by lia. cbv zeta.
  destruct (_ && _ && _) eqn:C.
  - rewrite !andb_true_iff, Nat.leb_le, !Nat.ltb_lt in C. destruct C as ((_ & C) & C0).
    replace (0 <? lb - rb_head rb) with true by (symmetry; apply Nat.ltb_lt; lia).
    unfold prepend, copy_to_head. rewrite length_take_le by lia.
    assert (length (take (rb_head rb) (drop (lb - rb_head rb) c)) = rb_head rb) as El
      by (rewrite length_take, length_drop; lia).
    rewrite El. simpl. by rewrite Nat.sub_diag.
  - replace (0 <? lb) with true by (symmetry; by apply Nat.ltb_lt).
    unfold prepend. by rewrite length_take_le by lia.
Qed.

Definition push_payload_front m rb : k_ringbuf_t :=
  let r := head_wrap_back rb in push_front (take (rb_head r) m) (drop (rb_head r) m) m r.

Lemma head_push_dyn_eq rb m :
  rb_type rb = RINGBUF_TYPE_DYN -> msg_ok rb m -> ringbuf_is_full rb = false ->
  length (header m) + length m <= freesize rb ->
  ringbuf_head_push rb m =
    (RHINO_SUCCESS,
     let r := head_wrap_back (push_payload_front m rb) in
     let k := length (header m) - rb_head r in
     push_front (drop k (header m)) (take k (header m)) (header m) r).
Proof.
  intros Ht Hm Hf Hsz. destruct (header_spec rb m Ht Hm) as (lb & c & E & Hlb & Eh & El & _ & _).
  unfold ringbuf_head_push. rewrite Hf, Ht. cbn [Z.eqb RINGBUF_TYPE_DYN RINGBUF_TYPE_FIX]. rewrite E.
  replace ((Z.of_nat lb =? 0) || (RINGBUF_LEN_MAX_SIZE <? Z.of_nat lb))%Z with false
    by (symmetry; apply orb_false_iff; unfold RINGBUF_LEN_MAX_SIZE; rewrite Z.eqb_neq, Z.ltb_ge; lia).
  rewrite Nat2Z.id. replace (freesize rb <? lb + length m) with false by (symmetry; apply Nat.ltb_ge; lia).
  assert (length c >= lb) by (rewrite <- El, Eh, length_take; lia).
  assert (forall r, push_front (take (rb_head r) (drop (lb - rb_head r) c)) (take (lb - rb_head r) c) (take lb c) r =
    push_front (drop (lb - rb_head r) (header m)) (take (lb - rb_head r) (header m)) (header m) r) as Eq.
  { intros r. unfold push_front. rewrite <- Eh, El. destruct (_ && _ && _) eqn:C; [|done].
    rewrite !andb_true_iff, Nat.leb_le, !Nat.ltb_lt in C. destruct C as ((_ & C) & C0).
    rewrite Eh, take_take, Nat.min_l, skipn_firstn_comm by lia. by replace (lb - (lb - rb_head r)) with (rb_head r) by lia. }
  rewrite El. unfold push_payload_front. set (r := head_wrap_back rb).
  cbv zeta. rewrite <- Eq.
  remember (push_front (take (rb_head r) m) (drop (rb_head r) m) m r) as r1 eqn:E1. unfold push_front in E1.
  destruct (_ && _ && _) eqn:C.
  - rewrite !andb_true_iff, Nat.leb_le, !Nat.ltb_lt in C. destruct C as ((_ & C) & C0).
    etrans; [exact (push_header_eq _ c lb ltac:(lia) ltac:(lia))|]. rewrite E1.
    unfold prepend, copy_to_head. rewrite length_drop, length_take_le by lia. simpl. by rewrite Nat.sub_diag.
  - etrans; [exact (push_header_eq _ c lb ltac:(lia) ltac:(lia))|]. by rewrite E1.
Qed.

Lemma head_push_fix_eq rb m :
  rb_type rb = RINGBUF_TYPE_FIX -> ringbuf_is_full rb = false ->
  ringbuf_head_push rb m = (RHINO_SUCCESS, prepend m (head_wrap_back rb)).
Proof. intros Ht Hf. unfold ringbuf_head_push. rewrite Hf, Ht. done. Qed.

Lemma head_push_dyn_bytes rb m bs :
  rb_type rb = RINGBUF_TYPE_DYN -> msg_ok rb m -> ringbuf_is_full rb = false ->
  length (header m) + length m <= freesize rb -> rb_bytes rb bs ->
  exists rb', ringbuf_head_push rb m = (RHINO_SUCCESS, rb') /\ rb_bytes rb' (header m ++ stored rb m ++ bs) /\
    same_shape rb rb'.
Proof.
  intros Ht Hm Hf Hsz Hb. rewrite (head_push_dyn_eq rb m Ht Hm Hf Hsz). eexists. split; [done|].
  destruct (head_wrap_back_bytes _ _ Hb) as (H1 & P1 & (S1 & S2 & S3) & F1 & T1).
  unfold push_payload_front. set (r := head_wrap_back rb) in *. set (k := rb_head r) in *.
  destruct (push_front_bytes (take k m) (drop k m) m r bs H1 P1 ltac:(lia)) as (H2 & (S4 & S5 & S6) & T2).
  { unfold front_split. rewrite !andb_true_iff, Nat.leb_le, !Nat.ltb_lt. intros [[_ C] _].
    rewrite length_drop, length_take_le by lia. done. }
  assert ((if front_split m r then drop k m ++ take k m else m) = stored rb m) as Es.
  { unfold stored, payload_wraps. by rewrite Ht. }
  rewrite Es in H2. destruct (head_wrap_back_bytes _ _ H2) as (H3 & P3 & (S7 & S8 & S9) & F3 & T3).
  set (r2 := head_wrap_back (push_front _ _ _ r)) in *. cbv zeta. set (j := length (header m) - rb_head r2).
  pose proof (rbb_free _ _ H3) as Hfr. pose proof (rbb_free _ _ Hb) as Hfr0.
  rewrite length_app, length_stored in Hfr.
  destruct (push_front_bytes (drop j (header m)) (take j (header m)) (header m) r2 _ H3 P3) as (H4 & (S10 & S11 & S12) & _); [lia| |].
  { unfold front_split. rewrite !andb_true_iff, Nat.leb_le, !Nat.ltb_lt. intros [[_ C] _].
    rewrite length_drop, length_take_le by lia. lia. }
  split; [|split_and!; congruence]. destruct (front_split (header m) r2); [by rewrite take_drop in H4|done].
Qed.

Lemma head_push_msgs rb ms m :
  rb_msgs rb ms -> msg_ok rb m -> length (frame rb m) <= freesize rb ->
  exists rb', ringbuf_head_push rb m = (RHINO_SUCCESS, rb') /\ rb_msgs rb' (stored rb m :: ms) /\ same_shape rb rb'.
Proof.
  intros [Hmode Hok Hb] Hm Hsz. pose proof (not_full rb m Hmode Hm Hsz) as Hf.
  assert (forall rb', same_shape rb rb' -> mode_ok rb' ->
    rb_bytes rb' (frame rb (stored rb m) ++ concat (frame rb <$> ms)) -> rb_msgs rb' (stored rb m :: ms)) as Hmk.
  { intros rb' Hs Hmo Hby. split; [done| |by rewrite (frame_shape _ _ Hs)].
    apply Forall_cons. split; [|eapply Forall_impl; [exact Hok|]; intros x; by apply msg_ok_shape].
    eapply msg_ok_shape; [done|]. unfold msg_ok in *. by rewrite length_stored. }
  destruct Hmode as [(Ht & Hk & He & Hh & Htl)|Ht].
  - rewrite (head_push_fix_eq _ _ Ht Hf). eexists. split; [done|].
    assert (frame rb m = m /\ length m = rb_blk_size rb) as [Efr Elen] by (unfold frame, msg_ok in *; by rewrite Ht in *).
    assert (stored rb m = m /\ frame rb (stored rb m) = m) as [Est Est'].
    { assert (stored rb m = m) as E by (unfold stored, payload_wraps; by rewrite Ht). by rewrite E. }
    destruct (head_wrap_back_bytes _ _ Hb) as (H1 & P1 & (S1 & S2 & S3) & F1 & T1).
    assert (rb_head (head_wrap_back rb) mod rb_blk_size rb = 0) as Hal by (unfold head_wrap_back; by destruct (_ =? 0)).
    assert (rb_blk_size rb <= rb_head (head_wrap_back rb)) as Hge.
    { pose proof Hal as [q Eq]%Nat.Div0.mod_divides. destruct q; nia. }
    rewrite Efr in Hsz.
    destruct (prepend_bytes _ _ m H1 ltac:(lia) ltac:(lia)) as [H2 (S4 & S5 & S6)].
    assert (same_shape rb (prepend m (head_wrap_back rb))) as Hs by (split_and!; congruence).
    split; [|done]. apply Hmk; [done| |by rewrite Est']. left. destruct Hs as (-> & -> & ->).
    change (rb_tail (prepend m (head_wrap_back rb))) with (rb_tail (head_wrap_back rb)). rewrite T1.
    change (rb_head (prepend m (head_wrap_back rb))) with (rb_head (head_wrap_back rb) - length m). rewrite Elen.
    split_and!; [done..| |done]. by apply block_step.
  - assert (frame rb m = header m ++ m) as Efr by (unfold frame; by rewrite Ht). rewrite Efr, length_app in Hsz.
    destruct (head_push_dyn_bytes rb m _ Ht Hm Hf Hsz Hb) as (rb' & E & B & S). exists rb'. split_and!; [done| |done].
    apply Hmk; [done| |]; [right; destruct S as (_ & -> & _); done|].
    unfold frame at 1. rewrite Ht. change (_ =? _)%Z with false. cbv iota.
    rewrite (header_length _ m (length_stored rb m)), <- app_assoc. done.
Qed.

(** *** [ringbuf_reset], [ringbuf_init] *)
Lemma reset_msgs rb ms : rb_msgs rb ms -> exists rb', ringbuf_reset rb = (RHINO_SUCCESS, rb') /\ rb_msgs rb' [] /\ same_shape rb rb'.
Proof.
  intros [Hmode _ Hb]. eexists. split; [done|]. split; [|done]. split; [|constructor|].
  - destruct Hmode as [(Ht & Hk & He & _)|Ht]; [left|by right]. split_and!; try done; apply Nat.Div0.mod_0_l.
  - destruct Hb as [Hn _ _ _ _ _]. split; try done; try (intros k Hk; simpl in Hk; lia); change (0 <= rb_end rb); lia.
Qed.

(** The parameters [krhino_ringbuf_init] accepts. *)
Definition init_ok (buf : list Z) (type : Z) (block_size : nat) : Prop :=
  0 < length buf /\ (type = RINGBUF_TYPE_DYN \/ type = RINGBUF_TYPE_FIX /\ 0 < block_size /\ length buf mod block_size = 0).

Lemma init_msgs buf type block_size :
  init_ok buf type block_size ->
  exists rb, ringbuf_init buf type block_size = (RHINO_SUCCESS, rb) /\ rb_msgs rb [] /\
    rb_end rb = length buf /\ rb_type rb = type /\ rb_blk_size rb = block_size.
Proof.
  intros [Hn Hm]. eexists. split; [done|]. split_and!; try done. split; [|constructor|].
  - destruct Hm as [->|(-> & Hk & Hd)]; [by right|left]. split_and!; try done; apply Nat.Div0.mod_0_l.
  - split; try done; try (intros k Hk; simpl in Hk; lia); change (0 <= length buf); lia.
Qed.

(** What is free is what the messages leave. *)
Lemma free_msgs rb ms : rb_msgs rb ms -> freesize rb = rb_end rb - length (concat (frame rb <$> ms)).
Proof. intros [_ _ Hb]. pose proof (rbb_free _ _ Hb). lia. Qed.

Lemma push_full rb ms m :
  rb_msgs rb ms -> msg_ok rb m -> freesize rb < length (frame rb m) ->
  ringbuf_push rb m = (RHINO_RINGBUF_FULL, rb) /\ ringbuf_head_push rb m = (RHINO_RINGBUF_FULL, rb).
Proof.
  intros [[(Ht & _)|Ht] _ _] Hm Hsz; unfold frame in Hsz; rewrite Ht in Hsz; simpl in Hsz.
  - unfold msg_ok in Hm. rewrite Ht in Hm. simpl in Hm.
    unfold ringbuf_push, ringbuf_head_push, ringbuf_is_full. rewrite Ht. cbn [Z.eqb RINGBUF_TYPE_DYN RINGBUF_TYPE_FIX andb].
    by replace (freesize rb <? rb_blk_size rb) with true by (symmetry; apply Nat.ltb_lt; lia).
  - rewrite length_app in Hsz. by apply push_full_dyn.
Qed.

Lemma pop_empty rb : rb_msgs rb [] -> ringbuf_pop rb = (RHINO_RINGBUF_EMPTY, [], 0%Z, rb).
Proof. intros [_ _ Hb]. unfold ringbuf_pop. by rewrite (not_empty _ _ Hb). Qed.
End Messages.
