(* ===== verification/Fifo.v ===== *)
(** * Byte FIFOs ([k_fifo.c])

    A circular buffer whose size is a power of two.  The 32-bit indices [in] and [out]
    run freely and are masked on access.  The critical sections around the operations
    do not touch the structure and are not represented. *)
From S2P Require Import Prelude Bitmap KTypes RunQueue RingBuf RingSpec.
Local Open Scope Z_scope.

Record k_fifo := { fin : Z; fout : Z; mask : Z; data : list Z; free_bytes : Z; size : Z }.
#[export] Instance eta_k_fifo : Eta k_fifo := {| eta_expand := fun f => {|
  fin := fin f; fout := fout f; mask := mask f; data := data f; free_bytes := free_bytes f; size := size f |} |}.

Implicit Types (f : k_fifo) (buf q bs : list Z) (len off n x : Z).

Definition fifo_min (x y : Z) : Z := if y <? x then y else x.

Definition fifo_unused f : Z := wrap32 (wrap32 (mask f + 1) - wrap32 (fin f - fout f)).

Definition is_power_of_2 n : bool := negb (n =? 0) && (Z.land n (wrap32 (n - 1)) =? 0).

(** [buffer] is the array, [sz] bytes. *)
Definition fifo_init f buffer sz : Z * k_fifo :=
  if negb (is_power_of_2 sz) then (1, f)
  else
    let f := f <| fin := 0 |> <| fout := 0 |> <| data := buffer |> in
    if sz <? 2 then (1, f <| mask := 0 |>)
    else (0, f <| mask := sz - 1 |> <| free_bytes := sz |> <| size := sz |>).

(** [src] holds the [len] bytes to copy. *)
Definition fifo_copy_in f src off : k_fifo :=
  let len := Z.of_nat (length src) in
  let sz := wrap32 (mask f + 1) in
  let off := Z.land off (mask f) in
  let l := fifo_min len (sz - off) in
  let f := f <| data ::= mem_write (Z.to_nat off) (take (Z.to_nat l) src) |> in
  f <| data ::= mem_write 0 (drop (Z.to_nat l) src) |>.

Definition fifo_in f buf : Z * k_fifo :=
  let len := Z.of_nat (length buf) in
  let l := fifo_unused f in
  let len := if l <? len then l else len in
  let f := fifo_copy_in f (take (Z.to_nat len) buf) (fin f) in
  let f := f <| fin ::= fun i => wrap32 (i + len) |> in
  (len, f <| free_bytes ::= fun b => wrap32 (b - len) |>).

(** The bytes written to the destination. *)
Definition kfifo_copy_out f len off : list Z :=
  let sz := wrap32 (mask f + 1) in
  let off := Z.land off (mask f) in
  let l := fifo_min len (sz - off) in
  mem_read (Z.to_nat off) (Z.to_nat l) (data f) ++ mem_read 0 (Z.to_nat (len - l)) (data f).

Definition internal_fifo_out_peek f len : Z * list Z :=
  let l := wrap32 (fin f - fout f) in
  let len := if l <? len then l else len in
  (len, kfifo_copy_out f len (fout f)).

Definition fifo_out_peek f len : Z * list Z := internal_fifo_out_peek f len.

Definition fifo_out f len : Z * list Z * k_fifo :=
  let '(len, out) := internal_fifo_out_peek f len in
  let f := f <| fout ::= fun o => wrap32 (o + len) |> in
  (len, out, f <| free_bytes ::= fun b => wrap32 (b + len) |>).

Definition fifo_out_all f : Z * list Z * k_fifo :=
  let len := wrap32 (size f - free_bytes f) in
  if len =? 0 then (0, [], f)
  else
    let '(len, out) := internal_fifo_out_peek f len in
    let f := f <| fout ::= fun o => wrap32 (o + len) |> in
    (len, out, f <| free_bytes ::= fun b => wrap32 (b + len) |>).

(** ** Powers of two *)
Lemma power_of_2_spec n : 0 <= n < 2 ^ 32 -> is_power_of_2 n = true -> exists k, 0 <= k < 32 /\ n = 2 ^ k.
Proof.
  unfold is_power_of_2. intros Hn [H0 Hl]%andb_true_iff. apply negb_true_iff, Z.eqb_neq in H0. apply Z.eqb_eq in Hl.
  rewrite wrap32_small in Hl by (unfold u32; lia). set (k := Z.log2 n).
  destruct (Z.log2_spec n ltac:(lia)) as [Hk1 Hk2]. fold k in Hk1, Hk2.
  assert (0 <= k < 32) as Hk by (split; [apply Z.log2_nonneg|apply Z.log2_lt_pow2; lia]). exists k. split; [done|].
  destruct (decide (n = 2 ^ k)) as [|Hne]; [done|]. exfalso.
  assert (forall m, 2 ^ k <= m < 2 * 2 ^ k -> Z.testbit m k = true) as Hbit.
  { intros m Hm. rewrite Z.testbit_true by lia. rewrite <- (Z.div_unique m (2 ^ k) 1 (m - 2 ^ k)) by lia. done. }
  rewrite Z.pow_succ_r in Hk2 by lia.
  assert (Z.testbit (Z.land n (n - 1)) k = true) as Hb by (rewrite Z.land_spec, !Hbit by lia; done).
  by rewrite Hl, Z.bits_0 in Hb.
Qed.

(** ** The represented queue *)

(** The FIFO holds the bytes [q], oldest first. *)
Record fifo_rep f q : Prop := {
  fr_size : exists k, 1 <= k < 32 /\ size f = 2 ^ k;
  fr_mask : mask f = size f - 1;
  fr_data : Z.of_nat (length (data f)) = size f;
  fr_out : u32 (fout f);
  fr_len : Z.of_nat (length q) <= size f;
  fr_in : fin f = wrap32 (fout f + Z.of_nat (length q));
  fr_free : free_bytes f = size f - Z.of_nat (length q);
  fr_at : forall j, (j < length q)%nat -> data f !! Z.to_nat ((fout f + Z.of_nat j) mod size f) = q !! j;
}.

Section Rep.
Context (f : k_fifo) (q : list Z) (Hr : fifo_rep f q).

Lemma rep_bounds : 2 <= size f <= 2 ^ 31.
Proof.
  destruct (fr_size f q Hr) as (k & Hk & ->). split.
  - replace 2 with (2 ^ 1) at 1 by done. apply Z.pow_le_mono_r; lia.
  - apply Z.pow_le_mono_r; lia.
Qed.

Lemma rep_mask x : Z.land x (mask f) = x mod size f.
Proof.
  destruct (fr_size f q Hr) as (k & Hk & E). rewrite (fr_mask f q Hr), E. rewrite <- Z.land_ones by lia.
  by rewrite Z.ones_equiv, Z.sub_1_r.
Qed.

Lemma rep_mask1 : wrap32 (mask f + 1) = size f.
Proof. rewrite (fr_mask f q Hr). pose proof rep_bounds. replace (size f - 1 + 1) with (size f) by lia. apply wrap32_small. unfold u32. lia. Qed.

(** Masking commutes with the wrap-around of the indices. *)
Lemma rep_wrap x : wrap32 x mod size f = x mod size f.
Proof.
  destruct (fr_size f q Hr) as (k & Hk & E). rewrite E. unfold wrap32.
  replace (2 ^ 32) with (2 ^ k * 2 ^ (32 - k)) by (rewrite <- Z.pow_add_r by lia; f_equal; lia).
  rewrite Z.rem_mul_r by (apply Z.pow_nonzero || apply Z.pow_pos_nonneg; lia).
  rewrite Z.mul_comm, Z.mod_add, Z.mod_mod by (apply Z.pow_nonzero; lia). done.
Qed.

Lemma rep_used : wrap32 (fin f - fout f) = Z.of_nat (length q).
Proof.
  rewrite (fr_in f q Hr), wrap32_sub_l. replace (fout f + Z.of_nat (length q) - fout f) with (Z.of_nat (length q)) by lia.
  apply wrap32_small. pose proof rep_bounds. pose proof (fr_len f q Hr). unfold u32. lia.
Qed.

Lemma rep_unused : fifo_unused f = size f - Z.of_nat (length q).
Proof.
  unfold fifo_unused. rewrite rep_mask1, rep_used. apply wrap32_small. pose proof rep_bounds. pose proof (fr_len f q Hr). unfold u32. lia.
Qed.

(** Offsets from [out] hit distinct cells. *)
Lemma cell_inj a b : 0 <= a < size f -> 0 <= b < size f -> (fout f + a) mod size f = (fout f + b) mod size f -> a = b.
Proof.
  intros Ha Hb E. pose proof rep_bounds.
  assert ((a - b) mod size f = 0) as E2.
  { replace (a - b) with (fout f + a - (fout f + b)) by lia. rewrite Zminus_mod, E, Z.sub_diag. by apply Z.mod_0_l; lia. }
  apply Z.mod_divide in E2 as [c Ec]; [|lia]. assert (c = 0) by nia. nia.
Qed.
End Rep.

(** ** Copying *)

(** A position [j] after [off], wrapped. *)
Lemma cell_wrap off j sz : 0 < sz -> 0 <= j <= sz ->
  (off + j) mod sz = if off mod sz + j <? sz then off mod sz + j else off mod sz + j - sz.
Proof.
  intros Hs Hj. pose proof (Z.mod_pos_bound off sz Hs). rewrite <- Zplus_mod_idemp_l.
  destruct (Z.ltb_spec (off mod sz + j) sz); [by apply Z.mod_small; lia|].
  symmetry. apply (Z.mod_unique_pos _ _ 1); lia.
Qed.

Section Copy.
Context (f : k_fifo) (q : list Z) (Hr : fifo_rep f q) (src : list Z) (off : Z).
Hypothesis Hlen : Z.of_nat (length src) <= size f.

(** The two pieces of the copy: [h] bytes at [off mod size], the rest at the start. *)
Let o := off mod size f.
Let h := fifo_min (Z.of_nat (length src)) (size f - o).

Lemma copy_bounds : 0 <= o < size f /\ 0 <= h <= Z.of_nat (length src) /\ o + h <= size f /\
  (h = Z.of_nat (length src) \/ h = size f - o).
Proof.
  pose proof (rep_bounds f q Hr). assert (0 <= o < size f) by (apply Z.mod_pos_bound; lia). unfold h, fifo_min.
  destruct (Z.ltb_spec (size f - o) (Z.of_nat (length src))); lia.
Qed.

Lemma copy_data :
  data (fifo_copy_in f src off) = mem_write 0 (drop (Z.to_nat h) src) (mem_write (Z.to_nat o) (take (Z.to_nat h) src) (data f)).
Proof. unfold fifo_copy_in; rsimpl. rewrite (rep_mask f q Hr), (rep_mask1 f q Hr). done. Qed.

Lemma copy_lookup p :
  0 <= p < size f ->
  data (fifo_copy_in f src off) !! Z.to_nat p =
    let j := if o <=? p then p - o else p + size f - o in
    if j <? Z.of_nat (length src) then src !! Z.to_nat j else data f !! Z.to_nat p.
Proof.
  intros Hp. destruct copy_bounds as (B1 & B2 & B3 & B4). pose proof (fr_data f q Hr) as Hd. rewrite copy_data.
  assert (length (mem_write (Z.to_nat o) (take (Z.to_nat h) src) (data f)) = length (data f)) as L1
    by (apply length_mem_write; rewrite length_take; lia).
  rewrite !lookup_mem_write by (rewrite ?L1, ?length_take, ?length_drop; lia). rewrite length_take, length_drop. cbv zeta.
  destruct (Z.leb_spec o p) as [Hop|Hop].
  - rewrite decide_False by lia. destruct (Z.ltb_spec (p - o) (Z.of_nat (length src))) as [Hj|Hj].
    + rewrite decide_True by lia. rewrite lookup_take_lt by lia. f_equal. lia.
    + by rewrite decide_False by lia.
  - destruct (Z.ltb_spec (p + size f - o) (Z.of_nat (length src))) as [Hj|Hj].
    + rewrite decide_True by lia. rewrite lookup_drop. f_equal. lia.
    + rewrite decide_False by lia. by rewrite decide_False by lia.
Qed.

Lemma copy_length : length (data (fifo_copy_in f src off)) = length (data f).
Proof.
  destruct copy_bounds as (B1 & B2 & B3 & B4). pose proof (fr_data f q Hr) as Hd. rewrite copy_data.
  rewrite !length_mem_write; rewrite ?length_mem_write; rewrite ?length_take, ?length_drop; lia.
Qed.
End Copy.

(** ** Operations *)
Lemma fifo_in_rep f q buf :
  fifo_rep f q ->
  let n := Z.min (Z.of_nat (length buf)) (size f - Z.of_nat (length q)) in
  (fifo_in f buf).1 = n /\ fifo_rep (fifo_in f buf).2 (q ++ take (Z.to_nat n) buf) /\ size (fifo_in f buf).2 = size f.
Proof.
  intros Hr n. pose proof (rep_bounds f q Hr) as Hsz. pose proof (fr_len f q Hr) as Hl.
  unfold fifo_in. rewrite (rep_unused f q Hr).
  replace (if size f - Z.of_nat (length q) <? Z.of_nat (length buf) then _ else _) with n
    by (unfold n; destruct (Z.ltb_spec (size f - Z.of_nat (length q)) (Z.of_nat (length buf))); cbv iota; lia).
  set (src := take (Z.to_nat n) buf). assert (Z.of_nat (length src) = n) as Hn by (unfold src; rewrite length_take; lia).
  assert (Z.of_nat (length src) <= size f) as Hn2 by lia.
  split_and!; [done| |done]. cbn [snd]. pose proof (copy_length f q Hr src (fin f) Hn2) as Hcl.
  split; rsimpl; try (change (size (fifo_copy_in f src (fin f))) with (size f); change (mask (fifo_copy_in f src (fin f))) with (mask f);
    change (fout (fifo_copy_in f src (fin f))) with (fout f); change (fin (fifo_copy_in f src (fin f))) with (fin f);
    change (free_bytes (fifo_copy_in f src (fin f))) with (free_bytes f)).
  - apply Hr.
  - apply Hr.
  - rewrite Hcl. apply Hr.
  - apply Hr.
  - rewrite length_app. lia.
  - rewrite (fr_in f q Hr), wrap32_add_l, length_app. f_equal. lia.
  - rewrite (fr_free f q Hr), length_app, wrap32_small by (unfold u32; lia). lia.
  - intros j Hj. rewrite length_app in Hj. rewrite (copy_lookup f q Hr src (fin f) Hn2) by (apply Z.mod_pos_bound; lia). cbv zeta.
    assert (fin f mod size f = (fout f + Z.of_nat (length q)) mod size f) as Ei by (rewrite (fr_in f q Hr); by apply (rep_wrap f q Hr)).
    rewrite Ei, !cell_wrap by lia. pose proof (Z.mod_pos_bound (fout f) (size f) ltac:(lia)) as Ho. remember (fout f mod size f) as a eqn:Ea.
    assert (n <= size f - Z.of_nat (length q)) as Hnq by lia. clearbody n.
    destruct (Z.ltb_spec (a + Z.of_nat (length q)) (size f)), (Z.ltb_spec (a + Z.of_nat j) (size f)); cbv iota;
      match goal with |- context [if ?x <=? ?y then _ else _] => destruct (Z.leb_spec x y) end; cbv iota;
      match goal with |- context [if ?x <? ?y then _ else _] => destruct (Z.ltb_spec x y) end; cbv iota;
      try (exfalso; lia).
    all: (rewrite lookup_app_r by lia; f_equal; lia) ||
         (rewrite lookup_app_l by lia; rewrite <- (fr_at f q Hr), cell_wrap by lia; rewrite <- Ea;
          match goal with |- context [if ?x <? ?y then _ else _] => destruct (Z.ltb_spec x y) end; done || lia).
Qed.

(** The first [n] bytes of the queue, read back. *)
Lemma copy_out_rep f q (n : nat) :
  fifo_rep f q -> (n <= length q)%nat -> kfifo_copy_out f (Z.of_nat n) (fout f) = take n q.
Proof.
  intros Hr Hn. pose proof (rep_bounds f q Hr) as Hsz. pose proof (fr_len f q Hr) as Hl. pose proof (fr_data f q Hr) as Hd.
  unfold kfifo_copy_out. rewrite (rep_mask f q Hr), (rep_mask1 f q Hr).
  pose proof (Z.mod_pos_bound (fout f) (size f) ltac:(lia)) as Ho.
  assert (forall j, (j < n)%nat -> q !! j = data f !! Z.to_nat
    (if fout f mod size f + Z.of_nat j <? size f then fout f mod size f + Z.of_nat j else fout f mod size f + Z.of_nat j - size f)) as Hat.
  { intros j Hj. by rewrite <- (fr_at f q Hr), cell_wrap by lia. }
  remember (fout f mod size f) as a eqn:Ea.
  set (h := fifo_min (Z.of_nat n) (size f - a)).
  assert (0 <= h <= Z.of_nat n /\ a + h <= size f /\ (h = Z.of_nat n \/ h = size f - a)) as (B1 & B2 & B3)
    by (unfold h, fifo_min; destruct (Z.ltb_spec (size f - a) (Z.of_nat n)); cbv iota; lia).
  clearbody h. apply list_eq. intros j. unfold mem_read.
  assert (length (take (Z.to_nat h) (drop (Z.to_nat a) (data f))) = Z.to_nat h) as L1 by (rewrite length_take, length_drop; lia).
  destruct (decide (j < n)%nat) as [Hj|Hj].
  - rewrite (lookup_take_lt q) by lia. rewrite Hat by done. destruct (Z.ltb_spec (a + Z.of_nat j) (size f)); cbv iota.
    + rewrite lookup_app_l by lia. rewrite lookup_take_lt, lookup_drop by lia. f_equal. lia.
    + rewrite lookup_app_r by lia. rewrite L1, lookup_take_lt, lookup_drop by lia. f_equal. lia.
  - rewrite !lookup_ge_None_2; [done|rewrite length_take; lia|].
    rewrite length_app, L1, length_take, length_drop. lia.
Qed.

Lemma peek_rep f q len :
  fifo_rep f q -> 0 <= len ->
  internal_fifo_out_peek f len = (Z.min len (Z.of_nat (length q)), take (Z.to_nat len) q).
Proof.
  intros Hr Hlen. unfold internal_fifo_out_peek. rewrite (rep_used f q Hr).
  replace (if Z.of_nat (length q) <? len then Z.of_nat (length q) else len) with (Z.of_nat (Nat.min (Z.to_nat len) (length q)))
    by (destruct (Z.ltb_spec (Z.of_nat (length q)) len); cbv iota; lia).
  rewrite (copy_out_rep f q) by (done || lia). f_equal; [lia|].
  destruct (decide (Z.to_nat len <= length q)%nat); [by rewrite Nat.min_l by lia|]. rewrite Nat.min_r, !take_ge by lia. done.
Qed.

Lemma fifo_drop_rep f q (n : nat) :
  fifo_rep f q -> (n <= length q)%nat ->
  fifo_rep (f <| fout ::= fun o => wrap32 (o + Z.of_nat n) |> <| free_bytes ::= fun b => wrap32 (b + Z.of_nat n) |>) (drop n q).
Proof.
  intros Hr Hn. pose proof (rep_bounds f q Hr) as Hsz. pose proof (fr_len f q Hr) as Hl.
  split; rsimpl; try apply Hr; rewrite ?length_drop.
  - apply wrap32_range.
  - lia.
  - rewrite (fr_in f q Hr), wrap32_add_l. f_equal. lia.
  - rewrite (fr_free f q Hr), wrap32_small by (unfold u32; lia). lia.
  - intros j Hj. rewrite lookup_drop, <- (fr_at f q Hr) by lia. f_equal. f_equal.
    rewrite <- Zplus_mod_idemp_l, (rep_wrap f q Hr), Zplus_mod_idemp_l. f_equal. lia.
Qed.

(** ** Any sequence of operations *)
Inductive fifo_op := FIn (buf : list Z) | FOut (len : Z) | FPeek (len : Z) | FOutAll.

Definition fifo_run (op : fifo_op) f : Z * list Z * k_fifo :=
  match op with
  | FIn buf => let '(n, f) := fifo_in f buf in (n, [], f)
  | FOut len => fifo_out f len
  | FPeek len => (fifo_out_peek f len, f)
  | FOutAll => fifo_out_all f
  end.

(** The specification: a byte queue of capacity [cap]. *)
Definition queue_run (cap : Z) (op : fifo_op) q : Z * list Z * list Z :=
  match op with
  | FIn buf => let n := Z.min (Z.of_nat (length buf)) (cap - Z.of_nat (length q)) in (n, [], q ++ take (Z.to_nat n) buf)
  | FOut len => (Z.min len (Z.of_nat (length q)), take (Z.to_nat len) q, drop (Z.to_nat len) q)
  | FPeek len => (Z.min len (Z.of_nat (length q)), take (Z.to_nat len) q, q)
  | FOutAll => (Z.of_nat (length q), q, [])
  end.

Fixpoint fifo_runs (ops : list fifo_op) f : list (Z * list Z) :=
  match ops with [] => [] | op :: ops => (fifo_run op f).1 :: fifo_runs ops (fifo_run op f).2 end.
Fixpoint queue_runs (cap : Z) (ops : list fifo_op) q : list (Z * list Z) :=
  match ops with [] => [] | op :: ops => (queue_run cap op q).1 :: queue_runs cap ops (queue_run cap op q).2 end.

Definition fifo_op_ok (op : fifo_op) : bool := match op with FOut len | FPeek len => 0 <=? len | _ => true end.

Lemma fifo_out_rep f q len :
  fifo_rep f q -> 0 <= len ->
  exists f', fifo_out f len = (Z.min len (Z.of_nat (length q)), take (Z.to_nat len) q, f') /\
    fifo_rep f' (drop (Z.to_nat len) q) /\ size f' = size f.
Proof.
  intros Hr Hlen. unfold fifo_out. rewrite (peek_rep f q) by done. eexists. split; [reflexivity|]. split; [|done].
  replace (Z.min len (Z.of_nat (length q))) with (Z.of_nat (Nat.min (Z.to_nat len) (length q))) by lia.
  replace (drop (Z.to_nat len) q) with (drop (Nat.min (Z.to_nat len) (length q)) q).
  - apply fifo_drop_rep; [done|lia].
  - destruct (decide (Z.to_nat len <= length q)%nat); [by rewrite Nat.min_l by lia|]. rewrite Nat.min_r, !drop_ge by lia. done.
Qed.

Lemma fifo_run_spec op f q :
  fifo_rep f q -> fifo_op_ok op = true ->
  (fifo_run op f).1 = (queue_run (size f) op q).1 /\ fifo_rep (fifo_run op f).2 (queue_run (size f) op q).2 /\
  size (fifo_run op f).2 = size f.
Proof.
  intros Hr Hok. destruct op as [buf|len|len|]; cbn [fifo_run queue_run fifo_op_ok] in *.
  - destruct (fifo_in_rep f q buf Hr) as (E1 & E2 & E3). destruct (fifo_in f buf) as [n f']; cbn [fst snd] in *. by rewrite E1.
  - destruct (fifo_out_rep f q len Hr ltac:(lia)) as (f' & -> & ? & ?). done.
  - unfold fifo_out_peek. rewrite (peek_rep f q) by (done || lia). done.
  - unfold fifo_out_all. rewrite (fr_free f q Hr). replace (size f - (size f - Z.of_nat (length q))) with (Z.of_nat (length q)) by lia.
    pose proof (rep_bounds f q Hr). pose proof (fr_len f q Hr). rewrite wrap32_small by (unfold u32; lia).
    destruct (Z.eqb_spec (Z.of_nat (length q)) 0) as [E|E].
    + destruct q; [|done]. done.
    + destruct (fifo_out_rep f q (Z.of_nat (length q)) Hr ltac:(lia)) as (f' & E2 & Hr' & Es). unfold fifo_out in E2. rewrite E2.
      rewrite Nat2Z.id, take_ge, drop_ge in * by lia. cbn [fst snd]. split_and!; [f_equal; lia|done|done].
Qed.

Lemma fifo_runs_spec ops f q :
  fifo_rep f q -> forallb fifo_op_ok ops = true -> fifo_runs ops f = queue_runs (size f) ops q.
Proof.
  revert f q. induction ops as [|op ops IH]; intros f q Hr Hok; cbn [fifo_runs queue_runs forallb] in *; [done|].
  apply andb_true_iff in Hok as [Ho Hok]. destruct (fifo_run_spec op f q Hr Ho) as (E1 & Hr' & Es).
  rewrite E1, (IH _ _ Hr' Hok), Es. done.
Qed.

Lemma fifo_init_rep f buffer sz :
  Z.of_nat (length buffer) = sz -> sz < 2 ^ 32 -> is_power_of_2 sz = true -> 2 <= sz ->
  (fifo_init f buffer sz).1 = 0 /\ fifo_rep (fifo_init f buffer sz).2 [] /\ size (fifo_init f buffer sz).2 = sz.
Proof.
  intros Hb Hsz Hp H2. unfold fifo_init. rewrite Hp. cbn [negb]. rewrite (proj2 (Z.ltb_ge sz 2)) by lia. split_and!; [done| |done].
  cbn [snd]. split; rsimpl; try done; try lia.
  - destruct (power_of_2_spec sz ltac:(lia) Hp) as (k & Hk & E). exists k. split; [|done].
    destruct (decide (k = 0)) as [->|]; [simpl in E; lia|lia].
  - simpl. lia.
  - simpl. lia.
  - intros j Hj. simpl in Hj. lia.
Qed.

(** C35: A FIFO initialised with a power-of-two size of at least two behaves as a byte
    queue of that capacity: every sequence of writes, reads, peeks and read-alls returns
    the counts and bytes of the queue, although the 32-bit indices wrap around. *)
Theorem fifo_refines_queue f buffer sz ops :
  Z.of_nat (length buffer) = sz -> sz < 2 ^ 32 -> is_power_of_2 sz = true -> 2 <= sz -> forallb fifo_op_ok ops = true ->
  (fifo_init f buffer sz).1 = 0 /\ fifo_runs ops (fifo_init f buffer sz).2 = queue_runs sz ops [].
Proof.
  intros Hb Hsz Hp H2 Hok. destruct (fifo_init_rep f buffer sz Hb Hsz Hp H2) as (E & Hr & Es). split; [done|].
  rewrite <- Es at 2. by apply fifo_runs_spec.
Qed.

Lemma fifo_refines_queue_witness :
  let f := {| fin := 0; fout := 0; mask := 0; data := []; free_bytes := 0; size := 0 |} in
  let ops := [FIn [1; 2; 3]; FOut 2; FIn [4; 5; 6; 7]; FPeek 9; FOutAll; FOut 1] in
  (fifo_init f (replicate 4 0) 4).1 = 0 /\ fifo_runs ops (fifo_init f (replicate 4 0) 4).2 = queue_runs 4 ops [].
Proof. apply fifo_refines_queue; [reflexivity|vm_compute; reflexivity|reflexivity|vm_compute; discriminate|reflexivity]. Defined.
