(* ===== verification/TimerSpec.v ===== *)
(** * What the timer task does

    [tinv now s]: the timer list holds exactly the active timers, ordered by expiry, and
    none of them is overdue at time [now].  Then the timer task runs the callback of
    every timer that is due, each once and in list order, stops one-shot timers and
    re-arms periodic ones one period later ([timer_expiry_exact]).  When some timer is
    overdue the order can be lost ([overdue_demo]): the difference [match - g_timer_count]
    is unsigned, so an overdue timer looks like one that is far in the future. *)
From S2P Require Import Prelude Bitmap KTypes Alloc RunQueue RingBuf Kernel Pend Task Sem Queue MmBlk Timer.
Local Open Scope Z_scope.

Implicit Types (s : kstate) (t u q now : Z) (l fs : list Z) (k : ktimer_t).

Definition match_le s (a b : Z) : Prop := match_ (timer_of s a) <= match_ (timer_of s b).

Record tinv now s : Prop := {
  ti_clock : 0 <= now < 2 ^ 62;
  ti_nodup : NoDup (g_timer_head s);
  ti_head : forall t, t ∈ g_timer_head s <-> to_head (timer_of s t) = true;
  ti_state : forall t, t ∈ g_timer_head s <-> timer_state (timer_of s t) = TIMER_ACTIVE;
  ti_round : forall t, 0 <= round_ticks (timer_of s t) < TICK_MAX;
  ti_match : forall t, t ∈ g_timer_head s -> now <= match_ (timer_of s t) < 2 ^ 63;
  ti_sorted : StronglySorted (match_le s) (g_timer_head s);
}.

(** The timers that are due. *)
Definition due now s : list Z := filter (fun t => match_ (timer_of s t) <= now) (g_timer_head s).

(** A timer after its callback has run at time [now]. *)
Definition fire now k : ktimer_t :=
  if 0 <? round_ticks k then k <| remain := round_ticks k |> <| match_ := now + round_ticks k |> <| to_head := true |>
  else k <| to_head := false |> <| timer_state := TIMER_DEACTIVE |>.

(** The timers [fs] have been run between [s] and [s']. *)
Record fired now fs s s' : Prop := {
  fd_inv : tinv now s';
  fd_due : due now s = fs ++ due now s';
  fd_timer : forall t, timer_of s' t = if decide (t ∈ fs) then fire now (timer_of s t) else timer_of s t;
  fd_tick : g_sys_time_tick s' = g_sys_time_tick s;
}.

(** ** Lists *)
Lemma filter_insert_where_out {A} (P : A -> Prop) `{!forall x, Decision (P x)} (f : A -> bool) (x : A) (l : list A) :
  ~ P x -> filter P (insert_where f x l) = filter P l.
Proof.
  intros Hx. induction l as [|y l IH]; cbn [insert_where].
  - by rewrite filter_cons_False.
  - destruct (f y); [by rewrite filter_cons_False|]. rewrite !filter_cons. by rewrite IH.
Qed.

(** The element after an inserted one is the one the walk stopped at. *)
Lemma next_in_stop (f : Z -> bool) t l u : t ∉ l -> next_in t (insert_where f t l) = Some u -> u ∈ l /\ f u = true.
Proof.
  induction l as [|y l IH]; intros Hn; cbn [insert_where].
  - cbn [next_in]. by rewrite Z.eqb_refl.
  - apply not_elem_of_cons in Hn as [Hy Hn]. destruct (f y) eqn:E; cbn [next_in].
    + rewrite Z.eqb_refl. intros [= <-]. split; [by left|done].
    + rewrite (proj2 (Z.eqb_neq y t)) by done. intros H. destruct (IH Hn H). split; [by right|done].
Qed.

Section Run.
Context (run_cb : Z -> Z -> Z -> kstate -> kstate).

(** Callbacks reach the timers only through the command queue, and return before the
    next tick. *)
Hypothesis cb_frame : forall c t a s,
  timers (run_cb c t a s) = timers s /\ g_timer_head (run_cb c t a s) = g_timer_head s /\
  g_timer_count (run_cb c t a s) = g_timer_count s /\ g_sys_time_tick (run_cb c t a s) = g_sys_time_tick s.

(** Time differences do not wrap when nothing is overdue. *)
Lemma diff_small now m : 0 <= now < 2 ^ 62 -> now <= m < 2 ^ 63 -> wrap64 (m - now) = m - now.
Proof. intros H1 H2. unfold wrap64. apply Z.mod_small. lia. Qed.

Lemma s64_small m : 0 <= m < 2 ^ 63 -> s64 m = m.
Proof. intros H. unfold s64. by rewrite (proj2 (Z.ltb_lt m (2 ^ 63))) by lia. Qed.

Lemma timer_of_upd t f s u : timer_of (upd_timer t f s) u = if decide (u = t) then f (timer_of s t) else timer_of s u.
Proof.
  unfold timer_of, upd_timer; rsimpl. case_decide as E; [subst; apply lookup_total_insert_eq|by apply lookup_total_insert_ne].
Qed.

(** The state after [timer_expire] on the first timer of the list. *)
Lemma expire_eq now s t rest :
  tinv now s -> g_timer_head s = t :: rest -> g_timer_count s = now -> (t ∉ rest) ->
  let s' := (timer_expire run_cb t s).2 in
  (forall u, timer_of s' u = if decide (u = t) then fire now (timer_of s t) else timer_of s u) /\
  g_timer_count s' = now /\ g_sys_time_tick s' = g_sys_time_tick s /\
  if 0 <? round_ticks (timer_of s t) then
    g_timer_head s' = insert_where (fun q => now + round_ticks (timer_of s t) <? match_ (timer_of s q)) t rest /\
    (timer_expire run_cb t s).1 = next_in t (g_timer_head s')
  else g_timer_head s' = rest /\ (timer_expire run_cb t s).1 = head rest.
Proof.
  intros I El En Hnin. unfold timer_expire.
  destruct (cb_frame (cb (timer_of s t)) t (timer_cb_arg (timer_of s t)) s) as (F1 & F2 & F3 & F4).
  set (s1 := run_cb _ _ _ s) in *. clearbody s1. assert (forall u, timer_of s1 u = timer_of s u) as Et1 by (intros u; unfold timer_of; by rewrite F1).
  assert (to_head (timer_of s t) = true) as Hth by (apply (ti_head _ _ I); rewrite El; by left).
  pose proof (ti_clock _ _ I) as Hclk. pose proof (ti_round _ _ I t) as Hrd. unfold TICK_MAX in Hrd.
  unfold timer_list_rm. rewrite Et1, Hth. set (s2 := upd_timer t _ (s1 <| g_timer_head ::= _ |>)).
  assert (g_timer_head s2 = rest) as Eh2 by (unfold s2, upd_timer; rsimpl; rewrite F2, El; apply remove_addr_head; pose proof (ti_nodup _ _ I) as Hnd; by rewrite El in Hnd).
  assert (forall u, timer_of s2 u = if decide (u = t) then (timer_of s t) <| to_head := false |> else timer_of s u) as Et2.
  { intros u. unfold s2. rewrite timer_of_upd. change (timer_of (s1 <| g_timer_head ::= remove_addr t |>)) with (timer_of s1). by rewrite !Et1. }
  assert (g_timer_count s2 = now) as En2 by (change (g_timer_count s2) with (g_timer_count s1); congruence).
  assert (g_sys_time_tick s2 = g_sys_time_tick s) as Etk2 by (change (g_sys_time_tick s2) with (g_sys_time_tick s1); congruence).
  assert (next_in t (g_timer_head s1) = head rest) as -> by (rewrite F2, El; cbn [next_in]; by rewrite Z.eqb_refl).
  clearbody s2. rewrite (Et2 t), decide_True by done. rsimpl.
  destruct (0 <? round_ticks (timer_of s t)) eqn:Er; cbn [fst snd].
  - set (s3 := upd_timer t _ (upd_timer t _ (upd_timer t _ s2))).
    assert (forall u, timer_of s3 u = if decide (u = t) then fire now (timer_of s t) else timer_of s u) as Et3.
    { intros u. unfold s3. rewrite !timer_of_upd, !Et2. destruct (decide (u = t)) as [->|Hne]; [rewrite !decide_True by done|done].
      unfold fire. rewrite Er. change (g_timer_count (upd_timer t _ s2)) with (g_timer_count s2). rsimpl. rewrite En2.
      replace (wrap64 (now + round_ticks (timer_of s t))) with (now + round_ticks (timer_of s t)); [done|].
      symmetry. unfold wrap64. apply Z.mod_small. lia. }
    assert (g_timer_head s3 = rest) as Eh3 by exact Eh2. assert (g_timer_count s3 = now) as En3 by exact En2.
    assert (g_sys_time_tick s3 = g_sys_time_tick s) as Etk3 by exact Etk2. clearbody s3.
    split_and!; [exact Et3|exact En3|exact Etk3| |done]. unfold timer_list_pri_insert; rsimpl. rewrite Eh3, En3. apply insert_where_ext.
    intros q Hq. rewrite (Et3 t), decide_True by done. rewrite (Et3 q), decide_False by (by intros ->).
    unfold fire. rewrite Er; rsimpl. pose proof (ti_match _ _ I q ltac:(rewrite El; by right)). rewrite diff_small by lia.
    destruct (Z.ltb_spec (round_ticks (timer_of s t)) (match_ (timer_of s q) - now)), (Z.ltb_spec (now + round_ticks (timer_of s t)) (match_ (timer_of s q))); done || lia.
  - split_and!; [|exact En2|exact Etk2|exact Eh2|done].
    intros u. rewrite timer_of_upd, !Et2. destruct (decide (u = t)) as [->|Hne]; [rewrite !decide_True by done|done]. unfold fire. by rewrite Er.
Qed.

(** ** One timer *)
Lemma due_cons now s t rest :
  tinv now s -> g_timer_head s = t :: rest -> match_ (timer_of s t) <= now ->
  due now s = t :: filter (fun u => match_ (timer_of s u) <= now) rest.
Proof. intros I El Hd. unfold due. by rewrite El, filter_cons_True. Qed.

Lemma filter_timer_ext now s s' l :
  (forall u, u ∈ l -> timer_of s' u = timer_of s u) ->
  filter (fun u => match_ (timer_of s' u) <= now) l = filter (fun u => match_ (timer_of s u) <= now) l.
Proof.
  intros H. induction l as [|u l IH]; [done|]. rewrite !filter_cons, (H u) by (by left).
  rewrite IH by (intros v Hv; apply H; by right). done.
Qed.

(** The invariant after a timer has been run, for both kinds. *)
Lemma fire_tinv now s s' t rest :
  tinv now s -> g_timer_head s = t :: rest ->
  (forall u, timer_of s' u = if decide (u = t) then fire now (timer_of s t) else timer_of s u) ->
  g_timer_head s' = (if 0 <? round_ticks (timer_of s t)
                     then insert_where (fun q => now + round_ticks (timer_of s t) <? match_ (timer_of s q)) t rest else rest) ->
  tinv now s'.
Proof.
  intros I El Et Eh. pose proof (ti_nodup _ _ I) as Hnd. rewrite El in Hnd. apply NoDup_cons in Hnd as [Hnin Hnd].
  assert (timer_of s' t = fire now (timer_of s t)) as Ett by (by rewrite Et, decide_True).
  assert (forall u, u ∈ rest -> timer_of s' u = timer_of s u) as Eto by (intros u Hu; rewrite Et, decide_False by (by intros ->); done).
  assert (forall u, u <> t -> timer_of s' u = timer_of s u) as Etn by (intros u Hu; by rewrite Et, decide_False).
  assert (forall u, u <> t -> (u ∈ g_timer_head s' <-> u ∈ g_timer_head s)) as Hin.
  { intros u Hu. rewrite Eh, El. destruct (0 <? _); rewrite ?elem_of_insert_where, elem_of_cons; naive_solver. }
  assert (t ∈ g_timer_head s' <-> 0 < round_ticks (timer_of s t)) as Hint.
  { rewrite Eh. destruct (Z.ltb_spec 0 (round_ticks (timer_of s t))); [rewrite elem_of_insert_where; split; [done|by left]|]. split; [done|lia]. }
  pose proof (ti_clock _ _ I) as Hclk. pose proof (ti_round _ _ I t) as Hrd. unfold TICK_MAX in Hrd.
  assert (StronglySorted (match_le s) rest) as Hs by (pose proof (ti_sorted _ _ I) as H; rewrite El in H; apply StronglySorted_inv in H as [H _]; exact H).
  split.
  - done.
  - rewrite Eh. destruct (0 <? _); [apply NoDup_insert_where|]; done.
  - intros u. destruct (decide (u = t)) as [->|Hu]; [|rewrite Hin, Etn by done; apply I].
    rewrite Hint, Ett. unfold fire. destruct (Z.ltb_spec 0 (round_ticks (timer_of s t))); rsimpl; split; done || lia.
  - intros u. destruct (decide (u = t)) as [->|Hu]; [|rewrite Hin, Etn by done; apply I].
    rewrite Hint, Ett. unfold fire. destruct (Z.ltb_spec 0 (round_ticks (timer_of s t))); rsimpl; [|split; done || lia].
    rewrite <- (ti_state _ _ I t), El. split; [by left|done].
  - intros u. destruct (decide (u = t)) as [->|Hu]; [rewrite Ett; unfold fire; by destruct (_ <? _)|rewrite Etn by done; apply I].
  - intros u Hu. destruct (decide (u = t)) as [->|Hne]; [|rewrite Etn by done; apply I; by apply Hin].
    rewrite Hint in Hu. rewrite Ett. unfold fire. rewrite (proj2 (Z.ltb_lt _ _)) by done. rsimpl. lia.
  - assert (StronglySorted (match_le s') rest) as Hs'.
    { clear -Hs Eto. induction Hs as [|x l Hl IH Hx]; constructor.
      - apply IH. intros u Hu. apply Eto. by right.
      - rewrite Forall_forall in Hx |- *. intros u Hu. unfold match_le. rewrite (Eto x) by (by left). rewrite (Eto u) by (by right). by apply Hx. }
    rewrite Eh. destruct (Z.ltb_spec 0 (round_ticks (timer_of s t))) as [Hr|Hr]; [|done].
    rewrite (insert_where_ext _ (fun q => match_ (timer_of s' t) <? match_ (timer_of s' q))).
    + apply (insert_where_sorted (fun q => match_ (timer_of s' q))); [|done]. intros y. apply Z.ltb_lt.
    + intros q Hq. rewrite Ett, Eto by done. unfold fire. by rewrite (proj2 (Z.ltb_lt 0 (round_ticks (timer_of s t)))) by done.
Qed.

Lemma expire_fired now s t rest :
  tinv now s -> g_timer_head s = t :: rest -> g_timer_count s = now -> match_ (timer_of s t) <= now ->
  let '(nx, s') := timer_expire run_cb t s in
  fired now [t] s s' /\ g_timer_count s' = now /\
  (nx = head (g_timer_head s') /\ length (g_timer_head s') = length rest \/
   match nx with None => True | Some u => now < match_ (timer_of s' u) < 2 ^ 63 end).
Proof.
  intros I El En Hd. pose proof (ti_nodup _ _ I) as Hnd. rewrite El in Hnd. apply NoDup_cons in Hnd as [Hnin Hnd].
  pose proof (expire_eq now s t rest I El En Hnin) as H. destruct (timer_expire run_cb t s) as [nx s']; cbn [fst snd] in H.
  destruct H as (Et & En' & Etk & Hh).
  assert (g_timer_head s' = (if 0 <? round_ticks (timer_of s t)
    then insert_where (fun q => now + round_ticks (timer_of s t) <? match_ (timer_of s q)) t rest else rest)) as Eh
    by (destruct (0 <? _); by destruct Hh).
  pose proof (fire_tinv now s s' t rest I El Et Eh) as I'.
  assert (forall u, u ∈ rest -> timer_of s' u = timer_of s u) as Eto by (intros u Hu; rewrite Et, decide_False by (by intros ->); done).
  assert (due now s' = filter (fun u => match_ (timer_of s u) <= now) rest) as Ed.
  { unfold due. rewrite Eh. destruct (Z.ltb_spec 0 (round_ticks (timer_of s t))) as [Hr|Hr].
    - rewrite filter_insert_where_out; [by apply filter_timer_ext|].
      rewrite Et, decide_True by done. unfold fire. rewrite (proj2 (Z.ltb_lt _ _)) by done. rsimpl. lia.
    - by apply filter_timer_ext. }
  split; [|split; [done|]].
  - split; [done|by rewrite (due_cons now s t rest), Ed by done| |done].
    intros u. rewrite Et. destruct (decide (u = t)) as [->|Hne]; [by rewrite decide_True by (by left)|].
    by rewrite decide_False by (by intros ?%list_elem_of_singleton).
  - destruct (Z.ltb_spec 0 (round_ticks (timer_of s t))) as [Hr|Hr]; destruct Hh as [Hh1 Hh2].
    + right. rewrite Hh1 in Hh2. destruct nx as [u|]; [|done]. symmetry in Hh2. apply next_in_stop in Hh2 as [Hu Hlt]; [|done].
      pose proof (ti_match _ _ I u ltac:(rewrite El; by right)). rewrite (Eto u Hu). lia.
    + left. by rewrite Hh1, Hh2.
Qed.

(** ** Passes *)
Definition calls_of s fs : list (Z * Z * Z) := (fun t => (cb (timer_of s t), t, timer_cb_arg (timer_of s t))) <$> fs.

Lemma fire_call now k : cb (fire now k) = cb k /\ timer_cb_arg (fire now k) = timer_cb_arg k.
Proof. unfold fire. by destruct (_ <? _). Qed.

Lemma calls_of_fired now fs s s' l : fired now fs s s' -> calls_of s' l = calls_of s l.
Proof.
  intros F. unfold calls_of. apply list_fmap_ext. intros i t _. rewrite (fd_timer _ _ _ _ F). case_decide; [|done].
  by destruct (fire_call now (timer_of s t)) as [-> ->].
Qed.

Lemma due_nodup now s : tinv now s -> NoDup (due now s).
Proof. intros I. apply NoDup_filter, I. Qed.

Lemma fired_refl now s : tinv now s -> fired now [] s s.
Proof. intros I. split; try done. Qed.

Lemma fired_trans now fs1 fs2 s s1 s2 : tinv now s -> fired now fs1 s s1 -> fired now fs2 s1 s2 -> fired now (fs1 ++ fs2) s s2.
Proof.
  intros I F1 F2. pose proof (due_nodup now s I) as Hnd. rewrite (fd_due _ _ _ _ F1), (fd_due _ _ _ _ F2) in Hnd.
  apply NoDup_app in Hnd as (_ & Hdis & _). split.
  - apply F2.
  - by rewrite (fd_due _ _ _ _ F1), (fd_due _ _ _ _ F2), app_assoc.
  - intros t. rewrite (fd_timer _ _ _ _ F2), (fd_timer _ _ _ _ F1). destruct (decide (t ∈ fs1)) as [H1|H1].
    + rewrite (decide_True (P := t ∈ fs1 ++ fs2)) by (apply elem_of_app; by left).
      rewrite decide_False; [done|]. intros H2. apply (Hdis t H1). apply elem_of_app. by left.
    + destruct (decide (t ∈ fs2)) as [H2|H2].
      * rewrite decide_True by (apply elem_of_app; by right). done.
      * rewrite decide_False by (intros [?|?]%elem_of_app; done). done.
  - by rewrite (fd_tick _ _ _ _ F2), (fd_tick _ _ _ _ F1).
Qed.

(** The loop stops at a node that is not due. *)
Lemma loop_stop now n nx s :
  0 <= now < 2 ^ 62 -> g_timer_count s = now -> match nx with None => True | Some u => now < match_ (timer_of s u) < 2 ^ 63 end ->
  timer_cb_loop run_cb n nx s = ([], s).
Proof.
  intros Hc En Hx. destruct n as [|n]; [done|]. destruct nx as [u|]; [|done]. cbn [timer_cb_loop].
  rewrite En, !s64_small by lia. by rewrite (proj2 (Z.leb_gt _ _)) by lia.
Qed.

(** A sorted list whose head is not due has no due timer. *)
Lemma due_nil now s t rest : tinv now s -> g_timer_head s = t :: rest -> now < match_ (timer_of s t) -> due now s = [].
Proof.
  intros I El Hd. unfold due. rewrite El. pose proof (ti_sorted _ _ I) as Hs. rewrite El in Hs. apply StronglySorted_inv in Hs as [_ Hs].
  rewrite filter_cons_False by lia. clear El. induction rest as [|u rest IH]; [done|]. apply Forall_cons in Hs as [Hu Hs].
  unfold match_le in Hu. rewrite filter_cons_False by lia. by apply IH.
Qed.

(** One pass runs some of the due timers, at least one if there is one. *)
Lemma loop_fired now n s :
  tinv now s -> g_timer_count s = now -> (length (g_timer_head s) < n)%nat ->
  let '(calls, s') := timer_cb_loop run_cb n (head (g_timer_head s)) s in
  exists fs, fired now fs s s' /\ g_timer_count s' = now /\ calls = calls_of s fs /\ (due now s <> [] -> fs <> []).
Proof.
  revert s. induction n as [|n IH]; intros s I En Hn; [lia|]. pose proof (ti_clock _ _ I) as Hc.
  destruct (g_timer_head s) as [|t rest] eqn:El; cbn [head].
  { cbn [timer_cb_loop]. exists []. split_and!; [by apply fired_refl|done|done|]. unfold due. by rewrite El. }
  pose proof (ti_match _ _ I t ltac:(rewrite El; by left)) as Hm. cbn [timer_cb_loop]. rewrite En, !s64_small by lia.
  destruct (Z.leb_spec (match_ (timer_of s t) - now) 0) as [Hd|Hd].
  2:{ exists []. split_and!; [by apply fired_refl|done|done|]. by rewrite (due_nil now s t rest) by (done || lia). }
  pose proof (expire_fired now s t rest I El En ltac:(lia)) as H. destruct (timer_expire run_cb t s) as [nx s1].
  destruct H as (F & En1 & Hnx). pose proof (fd_inv _ _ _ _ F) as I1.
  destruct Hnx as [[-> Hlen]|Hstop].
  - cbn [length] in Hn. specialize (IH s1 I1 En1 ltac:(lia)). destruct (timer_cb_loop run_cb n _ s1) as [calls s2].
    destruct IH as (fs & F2 & En2 & -> & _). exists (t :: fs). split_and!; [by apply (fired_trans now [t] fs s s1)|done| |done].
    by rewrite (calls_of_fired _ _ _ _ _ F).
  - rewrite (loop_stop now) by done. exists [t]. by split_and!.
Qed.

(** Setting the clock of the list. *)
Lemma fired_count now s : tinv now s -> fired now [] s (s <| g_timer_count := now |>).
Proof. intros []. by split. Qed.

(** The whole inner loop, up to the next wait. *)
Lemma busy_fired now n s :
  tinv now s -> g_sys_time_tick s = now -> (length (due now s) <= n)%nat ->
  exists s', timer_task_busy run_cb n s = Some (calls_of s (due now s), s') /\ fired now (due now s) s s'.
Proof.
  revert s. induction n as [|n IH]; intros s I Etk Hn; pose proof (ti_clock _ _ I) as Hc.
  - destruct (due now s) as [|t l] eqn:Ed; [|simpl in Hn; lia]. exists s. split; [|by apply fired_refl].
    cbn [timer_task_busy]. unfold timer_task_next. destruct (g_timer_head s) as [|t rest] eqn:El; [done|].
    pose proof (ti_match _ _ I t ltac:(rewrite El; by left)) as Hm. unfold krhino_sys_tick_get. rewrite Etk, !s64_small by lia.
    destruct (Z.ltb_spec 0 (match_ (timer_of s t) - now)) as [|Hd]; [done|].
    rewrite (due_cons now s t rest) in Ed by (done || lia). done.
  - cbn [timer_task_busy]. unfold timer_task_next. destruct (g_timer_head s) as [|t rest] eqn:El.
    { exists s. unfold due. rewrite El. split; [done|by apply fired_refl]. }
    pose proof (ti_match _ _ I t ltac:(rewrite El; by left)) as Hm. unfold krhino_sys_tick_get. rewrite Etk, !s64_small by lia.
    destruct (Z.ltb_spec 0 (match_ (timer_of s t) - now)) as [Hd|Hd].
    { exists s. rewrite (due_nil now s t rest) by (done || lia). split; [done|by apply fired_refl]. }
    unfold timer_task_due, timer_cb_proc, krhino_sys_tick_get. rewrite Etk. set (s0 := s <| g_timer_count := now |>).
    pose proof (fired_count now s I) as F0. fold s0 in F0. pose proof (fd_inv _ _ _ _ F0) as I0.
    pose proof (loop_fired now (S (length (g_timer_head s0))) s0 I0 eq_refl ltac:(lia)) as Hl.
    destruct (timer_cb_loop run_cb _ _ s0) as [calls s1]. destruct Hl as (fs & F1 & En1 & -> & Hne).
    pose proof (fired_trans now [] fs s s0 s1 I F0 F1) as F. cbn [app] in F.
    pose proof (fd_due _ _ _ _ F) as Ed. pose proof (fd_inv _ _ _ _ F) as I1.
    assert (fs <> []) as Hfs by (apply Hne; change (due now s0) with (due now s); by rewrite (due_cons now s t rest) by (done || lia)).
    destruct (IH s1 I1) as (s2 & E2 & F2).
    { by rewrite (fd_tick _ _ _ _ F). }
    { rewrite Ed, length_app in Hn. destruct fs; [done|]. simpl in Hn. lia. }
    rewrite E2. exists s2. split; [|rewrite Ed; by apply (fired_trans now fs (due now s1) s s1)].
    change (calls_of s0 fs) with (calls_of s fs). rewrite (calls_of_fired _ _ _ _ _ F), Ed. unfold calls_of. by rewrite fmap_app.
Qed.

End Run.

(** ** Concrete lists of timers *)
Module TimerDemo.
(** A running timer with expiry [m] and period [r]. *)
Definition mk (m r : Z) : ktimer_t :=
  ktimer_zero <| cb := 70 |> <| timer_cb_arg := m |> <| match_ := m |> <| round_ticks := r |> <| to_head := true |> <| timer_state := TIMER_ACTIVE |>.
(** Timers 1, 2 and 3, in this order. *)
Definition base (tick : Z) (k1 k2 k3 : ktimer_t) : kstate :=
  kstate_zero <| timers := <[1 := k1]> (<[2 := k2]> (<[3 := k3]> ∅)) |> <| g_timer_head := [1; 2; 3] |> <| g_sys_time_tick := tick |>.
(** A callback that records its last caller in [user_words]. *)
Definition note_cb (c t a : Z) (s : kstate) : kstate := upd_word 0 t s.
(** The timers run, in order, and the list with the expiry times afterwards. *)
Definition view (r : option (list (Z * Z * Z) * kstate)) : option (list Z * list (Z * Z)) :=
  match r with
  | Some (calls, s) => Some (calls.*1.*2, (fun t => (t, match_ (timer_of s t))) <$> g_timer_head s)
  | None => None
  end.

Lemma base_tinv now k1 k2 k3 :
  0 <= now < 2 ^ 62 ->
  Forall (fun k => to_head k = true /\ timer_state k = TIMER_ACTIVE /\ 0 <= round_ticks k < TICK_MAX /\ now <= match_ k < 2 ^ 63) [k1; k2; k3] ->
  match_ k1 <= match_ k2 <= match_ k3 -> tinv now (base now k1 k2 k3).
Proof.
  intros Hc Hk Hs. apply Forall_cons in Hk as [(A1 & A2 & A3 & A4) Hk]. apply Forall_cons in Hk as [(B1 & B2 & B3 & B4) Hk].
  apply Forall_cons in Hk as [(C1 & C2 & C3 & C4) _].
  assert (forall t, timer_of (base now k1 k2 k3) t =
    if decide (t = 1) then k1 else if decide (t = 2) then k2 else if decide (t = 3) then k3 else ktimer_zero) as Et.
  { intros t. unfold timer_of, base; rsimpl. repeat case_decide; subst; rewrite ?lookup_total_insert_eq; try done;
      repeat (rewrite lookup_total_insert_ne by done || rewrite lookup_total_insert_eq); done. }
  split; unfold match_le; try (setoid_rewrite Et); change (g_timer_head (base now k1 k2 k3)) with [1; 2; 3]; [done|by repeat constructor; set_solver|..].
  1,2: intros t; rewrite !elem_of_cons, elem_of_nil; repeat case_decide; subst; naive_solver.
  - intros t. unfold TICK_MAX in *. repeat case_decide; done.
  - intros t Ht. rewrite !elem_of_cons, elem_of_nil in Ht. repeat case_decide; naive_solver.
  - repeat constructor; rewrite !Et; simpl; lia.
Qed.


(** At 102, timers 1 and 2 are overdue.  Timer 1 is put back before timer 2, whose unsigned
    time left is huge; after two callbacks the task waits until 122, although timer 3 is
    due, and the list is no longer ordered. *)
Theorem overdue_demo :
  let s := base 102 (mk 100 50) (mk 101 20) (mk 102 0) in
  view (timer_task_busy note_cb 3 s) = Some ([1; 2], [(2, 122); (1, 152); (3, 102)]).
Proof. vm_compute. reflexivity. Qed.
End TimerDemo.
