(* ===== verification/Invariant.v ===== *)
(** * The list invariant of the kernel

    Three abstraction functions read off the task table where every task should be
    queued: [ready_map] (ready tasks and their level), [pend_map] (blocked tasks and
    the object they wait for) and [tick_map] (tasks with a running timeout and the
    tick it expires at).  [kwf] says that the ready queue, the block lists and the
    tick list represent exactly these maps, that block lists are sorted by priority
    and the tick list by remaining time, that the idle task is always ready, and
    that no fatal error has been reported.

    [kwf] is stated on the components of the state, so an update of any other
    component preserves it by conversion.  The lemmas give the effect of each list
    operation on the represented map. *)
From S2P Require Import Prelude Bitmap KTypes RunQueue RingBuf Kernel Pend.
Local Open Scope Z_scope.

Implicit Types (s : kstate) (t o : Z) (k : ktask_t) (ts : gmap Z ktask_t) (bs : gmap Z blk_obj_t).

(** ** Abstraction functions *)
Definition rdy_prio k : option Z := if decide (task_state k = K_RDY) then Some (prio k) else None.
Definition is_pending k : bool := match task_state k with K_PEND | K_PEND_SUSPENDED => true | _ => false end.
Definition is_sleeping k : bool := match task_state k with K_SLEEP | K_SLEEP_SUSPENDED => true | _ => false end.
Definition is_suspended k : bool :=
  match task_state k with K_SUSPENDED | K_SLEEP_SUSPENDED | K_PEND_SUSPENDED => true | _ => false end.
(** Tasks that exist: created and not deleted. *)
Definition is_alive k : bool := match task_state k with K_SEED | K_DELETED => false | _ => true end.
Definition pend_on k : option Z := if is_pending k then Some (blk_obj k) else None.
Definition deadline k : option Z := if tick_head k then Some (tick_match k) else None.

Definition ready_map ts : gmap Z Z := omap rdy_prio ts.
Definition pend_map ts : gmap Z Z := omap pend_on ts.
Definition tick_map ts : gmap Z Z := omap deadline ts.

Definition prio_in ts t : Z := prio (ts !!! t).

(** ** Representation of the block lists and of the tick list *)
Record blk_rep bs (B : gmap Z Z) (pr : Z -> Z) : Prop := {
  br_nodup : forall o, NoDup (blk_list (bs !!! o));
  br_elem : forall o t, t ∈ blk_list (bs !!! o) <-> B !! t = Some o;
  br_sorted : forall o, blk_policy (bs !!! o) = BLK_POLICY_PRI ->
    StronglySorted (fun a b => pr a <= pr b) (blk_list (bs !!! o));
}.

Definition left_at (T : gmap Z Z) (now t : Z) : Z := wrap32 (T !!! t - now).

Record tick_rep (l : list Z) (T : gmap Z Z) (now : Z) : Prop := {
  tr_nodup : NoDup l;
  tr_elem : forall t, t ∈ l <-> is_Some (T !! t);
  tr_sorted : StronglySorted (fun a b => left_at T now a <= left_at T now b) l;
}.

(** ** Well-formed tasks *)
Record task_ok (t : Z) k : Prop := {
  to_addr : t <> NULL;
  to_prio : 0 <= prio k < RHINO_CONFIG_PRI_MAX;
  to_bprio : 0 <= b_prio k < RHINO_CONFIG_PRI_MAX;
  to_match : u32 (tick_match k);
  to_tick : tick_head k = true -> is_sleeping k = true \/ is_pending k = true;
  to_sleep : is_sleeping k = true -> tick_head k = true;
  to_susp : is_suspended k = true -> 1 <= suspend_count k <= 255;
}.

(** The idle task, and the least remaining time of a task in the tick list: one tick
    between calls, none while the tick interrupt is at work. *)
Record kenv := { k_idle : Z; k_lb : Z }.
Coercion k_idle : kenv >-> Z.

(** ** The invariant, by component *)
Record kwf_core (idle : kenv) (rq : runqueue_t) bs (th : list Z) (now : Z) ts
    (ms : gmap Z kmutex_t) (errs : list kstat_t) : Prop := {
  kw_rq : rq_rep rq (ready_map ts);
  kw_blk : blk_rep bs (pend_map ts) (prio_in ts);
  kw_tick : tick_rep th (tick_map ts) now;
  kw_pos : forall t m, tick_map ts !! t = Some m -> k_lb idle <= wrap32 (m - now);
  kw_lb : 0 <= k_lb idle <= 1;
  kw_now : u32 now;
  kw_tasks : map_Forall task_ok ts;
  kw_idle : ready_map ts !! k_idle idle = Some RHINO_IDLE_PRI;
  kw_idle_free : forall m, mutex_task (ms !!! m) <> idle;
  kw_err : RHINO_SYS_FATAL_ERR ∉ errs;
}.

Arguments kw_rq {_ _ _ _ _ _ _ _} _.
Arguments kw_blk {_ _ _ _ _ _ _ _} _.
Arguments kw_tick {_ _ _ _ _ _ _ _} _.
Arguments kw_pos {_ _ _ _ _ _ _ _} _.
Arguments kw_lb {_ _ _ _ _ _ _ _} _.
Arguments kw_now {_ _ _ _ _ _ _ _} _.
Arguments kw_tasks {_ _ _ _ _ _ _ _} _.
Arguments kw_idle {_ _ _ _ _ _ _ _} _.
Arguments kw_idle_free {_ _ _ _ _ _ _ _} _.
Arguments kw_err {_ _ _ _ _ _ _ _} _.

Definition kwf (idle : kenv) s : Prop :=
  kwf_core idle (g_ready_queue s) (blk_objs s) (g_tick_head s) (g_tick_count s) (tasks s) (mutexes s) (err_log s).

(** ** Updating one task in the abstraction functions *)
Lemma omap_upd {B} (f : ktask_t -> option B) ts t k :
  omap f (<[t := k]> ts) =
  match f k with Some y => <[t := y]> (omap f ts) | None => delete t (omap f ts) end.
Proof. destruct (f k) eqn:E; [by apply omap_insert_Some|by apply omap_insert_None]. Qed.

(** The abstraction does not change when the task's own image does not. *)
Lemma omap_upd_same {B} (f : ktask_t -> option B) ts t k k' :
  ts !! t = Some k -> f k' = f k -> omap f (<[t := k']> ts) = omap f ts.
Proof.
  intros Ht Hf. rewrite omap_upd, Hf. destruct (f k) eqn:E.
  - apply insert_id. by rewrite lookup_omap, Ht.
  - apply delete_id. by rewrite lookup_omap, Ht.
Qed.

Lemma lookup_abs {B} (f : ktask_t -> option B) ts t k : ts !! t = Some k -> (omap f ts : gmap Z B) !! t = f k.
Proof. intros Ht. by rewrite lookup_omap, Ht. Qed.

Lemma abs_Some {B} (f : ktask_t -> option B) ts t y :
  (omap f ts : gmap Z B) !! t = Some y -> exists k, ts !! t = Some k /\ f k = Some y.
Proof. rewrite lookup_omap. destruct (ts !! t) as [k|] eqn:E; [|done]. by exists k. Qed.

Lemma lookup_total_Some {A} `{Inhabited A} (m : gmap Z A) i x : m !! i = Some x -> m !!! i = x.
Proof. intros E. by rewrite lookup_total_alt, E. Qed.

Lemma prio_in_upd ts t k u : prio_in (<[t := k]> ts) u = if decide (t = u) then prio k else prio_in ts u.
Proof.
  unfold prio_in. case_decide; subst; [by rewrite lookup_total_insert_eq|by rewrite lookup_total_insert_ne].
Qed.

(** ** Block lists *)
Lemma blk_rep_ext bs B pr pr' :
  (forall t o, B !! t = Some o -> pr t = pr' t) -> blk_rep bs B pr -> blk_rep bs B pr'.
Proof.
  intros Hpr [Hd He Hs]. split; try done. intros o Ho.
  eapply StronglySorted_ext, Hs; [|done]. intros t Ht%He. eauto.
Qed.

Lemma blk_fmap_lookup f bs o :
  (forall b, blk_list b = [] -> f b = b) ->
  (f <$> bs) !!! o = f (bs !!! o).
Proof.
  intros Hf. rewrite !lookup_total_alt, lookup_fmap. destruct (bs !! o); simpl; [done|].
  symmetry. by apply Hf.
Qed.

Definition rm_from (t : Z) (b : blk_obj_t) : blk_obj_t := b <| blk_list ::= remove_addr t |>.

Lemma rm_from_lookup t bs o : (rm_from t <$> bs) !!! o = rm_from t (bs !!! o).
Proof. apply blk_fmap_lookup. intros [? ? ? ?]; simpl. by intros ->. Qed.

(** [klist_rm] takes the task off the block lists. *)
Lemma blk_rep_rm bs B pr t :
  blk_rep bs B pr -> blk_rep (rm_from t <$> bs) (delete t B) pr.
Proof.
  intros [Hd He Hs]. split; intros o.
  - rewrite rm_from_lookup. apply NoDup_remove_addr, Hd.
  - intros u. rewrite rm_from_lookup. simpl. rewrite elem_of_remove_addr, He, lookup_delete.
    case_decide; naive_solver.
  - rewrite rm_from_lookup. intros Ho. apply StronglySorted_filter', Hs, Ho.
Qed.

(** Linking a task that is on no block list. *)
Lemma blk_rep_add bs B pr t o b' :
  blk_rep bs B pr -> B !! t = None ->
  blk_list b' ≡ₚ t :: blk_list (bs !!! o) -> blk_policy b' = blk_policy (bs !!! o) ->
  (blk_policy b' = BLK_POLICY_PRI -> StronglySorted (fun a b => pr a <= pr b) (blk_list b')) ->
  blk_rep (<[o := b']> bs) (<[t := o]> B) pr.
Proof.
  intros [Hd He Hs] Ht Hp Hpol Hsort.
  assert (t ∉ blk_list (bs !!! o)) as Hn by (rewrite He, Ht; done).
  split; intros o'; destruct (decide (o = o')) as [->|Hne];
    rewrite ?lookup_total_insert_eq, ?lookup_total_insert_ne by done; auto.
  - rewrite Hp. apply NoDup_cons. auto.
  - intros u. rewrite Hp, elem_of_cons, He, lookup_insert. case_decide; naive_solver.
  - intros u. rewrite He, lookup_insert. case_decide; naive_solver.
Qed.

Lemma insert_by_prio_sorted (pr : Z -> Z) t l :
  StronglySorted (fun a b => pr a <= pr b) l ->
  StronglySorted (fun a b => pr a <= pr b) (insert_where (fun x => pr t <? pr x) t l).
Proof. apply insert_where_sorted. intros y. apply Z.ltb_lt. Qed.

(** Header fields other than the list and the policy do not matter. *)
Lemma blk_rep_header bs B pr o b' :
  blk_rep bs B pr -> blk_list b' = blk_list (bs !!! o) -> blk_policy b' = blk_policy (bs !!! o) ->
  blk_rep (<[o := b']> bs) B pr.
Proof.
  intros [Hd He Hs] Hl Hp. split; intros o'; destruct (decide (o = o')) as [->|Hne];
    rewrite ?lookup_total_insert_eq, ?lookup_total_insert_ne, ?Hl, ?Hp by done; auto.
Qed.

(** ** The tick list *)
Lemma left_at_ext T T' now t : T !! t = T' !! t -> left_at T now t = left_at T' now t.
Proof. intros E. unfold left_at. by rewrite !lookup_total_alt, E. Qed.

Lemma tick_rep_rm l T now t : tick_rep l T now -> tick_rep (remove_addr t l) (delete t T) now.
Proof.
  intros [Hd He Hs]. split.
  - by apply NoDup_remove_addr.
  - intros u. rewrite elem_of_remove_addr, He, lookup_delete. case_decide; subst; [|naive_solver].
    split; [naive_solver|]. by intros [? ?].
  - eapply (StronglySorted_ext (left_at T now)); [|by apply StronglySorted_filter'].
    intros u [Hu _]%elem_of_remove_addr. apply left_at_ext. by rewrite lookup_delete_ne.
Qed.

Lemma tick_rep_insert l T now t m stop :
  tick_rep l T now -> T !! t = None ->
  (forall u, u ∈ l -> stop u = true <-> wrap32 (m - now) < left_at T now u) ->
  tick_rep (insert_where stop t l) (<[t := m]> T) now.
Proof.
  intros [Hd He Hs] Ht Hstop.
  assert (t ∉ l) as Hn by (rewrite He, Ht; by intros [? ?]).
  assert (insert_where stop t l =
          insert_where (fun u => left_at (<[t:=m]> T) now t <? left_at (<[t:=m]> T) now u) t l) as ->.
  { unfold left_at at 1. rewrite lookup_total_insert_eq. clear He Hd Hs.
    induction l as [|u l IH]; simpl; [done|].
    assert (stop u = (wrap32 (m - now) <? left_at (<[t:=m]> T) now u)) as ->.
    { rewrite (left_at_ext _ T) by (rewrite lookup_insert_ne; [done|set_solver +Hn]).
      apply eq_true_iff_eq. rewrite Z.ltb_lt. apply Hstop. by left. }
    destruct (_ <? _); [done|]. f_equal. apply IH; [|set_solver +Hn].
    intros v Hv. apply Hstop. by right. }
  split.
  - by apply NoDup_insert_where.
  - intros u. rewrite elem_of_insert_where, He, lookup_insert. case_decide; naive_solver.
  - apply insert_where_sorted; [intros; apply Z.ltb_lt|].
    eapply StronglySorted_ext, Hs. intros u Hu. apply left_at_ext.
    rewrite lookup_insert_ne; [done|]. by intros ->.
Qed.

(** ** Moving one task between lists

    The three relations list the ways an operation may change the ready queue, the
    block lists and the tick list when the control block of [t] goes from [k] to
    [k']; each is justified by the two control blocks alone. *)
Section Move.
Context (t : Z) (k k' : ktask_t).

Inductive rq_step (rq : runqueue_t) : runqueue_t -> Prop :=
| rq_keep : rdy_prio k' = rdy_prio k -> rq_step rq rq
| rq_enter_head : rdy_prio k = None -> task_state k' = K_RDY -> rq_step rq (ready_list_add_head rq t (prio k'))
| rq_enter_tail : rdy_prio k = None -> task_state k' = K_RDY -> rq_step rq (ready_list_add_tail rq t (prio k'))
| rq_leave : task_state k = K_RDY -> rdy_prio k' = None -> rq_step rq (ready_list_rm rq t (prio k)).1
| rq_requeue_head : task_state k = K_RDY -> task_state k' = K_RDY ->
    rq_step rq (ready_list_add_head (ready_list_rm rq t (prio k)).1 t (prio k'))
| rq_requeue_tail : task_state k = K_RDY -> task_state k' = K_RDY ->
    rq_step rq (ready_list_add_tail (ready_list_rm rq t (prio k)).1 t (prio k')).

Inductive blk_step bs (pr : Z -> Z) : gmap Z blk_obj_t -> Prop :=
| blk_keep : pend_on k' = pend_on k -> prio k' = prio k \/ pend_on k = None -> blk_step bs pr bs
| blk_keep_fifo o : pend_on k' = Some o -> pend_on k = Some o -> blk_policy (bs !!! o) = BLK_POLICY_FIFO ->
    blk_step bs pr bs
| blk_leave : pend_on k' = None -> blk_step bs pr (rm_from t <$> bs)
| blk_enter_fifo o : pend_on k = None -> pend_on k' = Some o -> prio k' = prio k ->
    blk_policy (bs !!! o) = BLK_POLICY_FIFO ->
    blk_step bs pr (<[o := (bs !!! o) <| blk_list ::= fun l => l ++ [t] |>]> bs)
| blk_enter_prio o : pend_on k = None -> pend_on k' = Some o -> prio k' = prio k ->
    blk_step bs pr (<[o := (bs !!! o) <| blk_list ::= insert_where (fun x => prio k' <? pr x) t |>]> bs)
| blk_reorder o : pend_on k = Some o -> pend_on k' = Some o ->
    blk_step bs pr (<[o := (rm_from t (bs !!! o)) <| blk_list ::= insert_where (fun x => prio k' <? pr x) t |>]>
                      (rm_from t <$> bs)).

Inductive tick_step (th : list Z) ts (now : Z) : list Z -> Prop :=
| tick_keep : deadline k' = deadline k -> tick_step th ts now th
| tick_leave : deadline k' = None -> tick_step th ts now (remove_addr t th)
| tick_enter time : deadline k = None -> 0 < time < 2 ^ 32 -> deadline k' = Some (wrap32 (now + time)) ->
    tick_step th ts now (insert_where (fun q => time <? wrap32 (tick_match (ts !!! q) - now)) t th).
End Move.

Section MoveSound.
Context (idle : kenv).
Implicit Types (rq : runqueue_t) (th : list Z).

Lemma rdy_prio_Some k p : rdy_prio k = Some p <-> task_state k = K_RDY /\ prio k = p.
Proof. unfold rdy_prio. case_decide; naive_solver. Qed.

Lemma rdy_prio_None k : rdy_prio k = None <-> task_state k <> K_RDY.
Proof. unfold rdy_prio. case_decide; naive_solver. Qed.

Lemma ready_map_rm_ne ts t :
  ready_map ts !! k_idle idle = Some RHINO_IDLE_PRI -> t <> idle -> delete t (ready_map ts) <> ∅.
Proof.
  intros Hi Hne E. apply (f_equal (lookup (k_idle idle))) in E.
  rewrite lookup_delete_ne, Hi, lookup_empty in E by done. done.
Qed.

Lemma rq_step_sound rq ts t k k' rq' :
  rq_rep rq (ready_map ts) -> ready_map ts !! k_idle idle = Some RHINO_IDLE_PRI -> t <> idle ->
  ts !! t = Some k -> 0 <= prio k' < RHINO_CONFIG_PRI_MAX ->
  rq_step t k k' rq rq' -> rq_rep rq' (ready_map (<[t := k']> ts)).
Proof.
  intros Hr Hi Hne Ht Hp Hs. pose proof (ready_map_rm_ne _ _ Hi Hne) as Hd.
  assert (task_state k = K_RDY -> ready_map ts !! t = Some (prio k)) as Hk.
  { intros E. unfold ready_map. rewrite (lookup_abs _ _ _ _ Ht). by apply rdy_prio_Some. }
  assert (task_state k' = K_RDY -> ready_map (<[t := k']> ts) = <[t := prio k']> (ready_map ts)) as Hin.
  { intros E. unfold ready_map. rewrite omap_upd. by rewrite (proj2 (rdy_prio_Some k' (prio k'))). }
  destruct Hs as [E|E E'|E E'|E E'|E E'|E E'].
  - unfold ready_map. by rewrite (omap_upd_same _ _ _ k).
  - rewrite Hin by done. apply ready_list_add_head_rep; try done.
    unfold ready_map. by rewrite (lookup_abs _ _ _ _ Ht).
  - rewrite Hin by done. apply ready_list_add_tail_rep; try done.
    unfold ready_map. by rewrite (lookup_abs _ _ _ _ Ht).
  - unfold ready_map. rewrite omap_upd, E'. apply ready_list_rm_rep; auto.
  - rewrite Hin, <- insert_delete_eq by done. apply ready_list_add_head_rep; [|by rewrite lookup_delete_eq|done].
    apply ready_list_rm_rep; auto.
  - rewrite Hin, <- insert_delete_eq by done. apply ready_list_add_tail_rep; [|by rewrite lookup_delete_eq|done].
    apply ready_list_rm_rep; auto.
Qed.

(** A change of one priority does not disturb the order of the other tasks. *)
Lemma blk_rep_prio_off bs B ts t k' :
  blk_rep bs B (prio_in ts) -> B !! t = None -> blk_rep bs B (prio_in (<[t := k']> ts)).
Proof.
  intros Hb Ht. eapply blk_rep_ext, Hb. intros u o Hu. rewrite prio_in_upd, decide_False; [done|congruence].
Qed.

Lemma blk_rep_prio_same bs B ts t k k' :
  ts !! t = Some k -> prio k' = prio k -> blk_rep bs B (prio_in ts) -> blk_rep bs B (prio_in (<[t := k']> ts)).
Proof.
  intros Ht Hp. apply blk_rep_ext. intros u o _. rewrite prio_in_upd. case_decide as E; [subst|done].
  unfold prio_in. by rewrite (lookup_total_Some _ _ _ Ht).
Qed.

(** Insertion by priority into a list the task is not on. *)
Lemma blk_rep_insert_prio bs B ts t k' o :
  blk_rep bs B (prio_in ts) -> B !! t = None ->
  blk_rep (<[o := (bs !!! o) <| blk_list ::= insert_where (fun x => prio k' <? prio_in ts x) t |>]> bs)
    (<[t := o]> B) (prio_in (<[t := k']> ts)).
Proof.
  intros Hb Ht. apply (blk_rep_prio_off bs B ts t k') in Hb; [|done].
  assert (insert_where (fun x => prio k' <? prio_in ts x) t (blk_list (bs !!! o)) =
          insert_where (fun x => prio_in (<[t:=k']> ts) t <? prio_in (<[t:=k']> ts) x) t (blk_list (bs !!! o))) as E.
  { assert (t ∉ blk_list (bs !!! o)) as Hn by (rewrite (br_elem _ _ _ Hb), Ht; done).
    rewrite (prio_in_upd _ _ _ t), decide_True by done.
    induction (blk_list (bs !!! o)) as [|x l IH]; simpl; [done|].
    rewrite prio_in_upd, decide_False by set_solver +Hn. destruct (_ <? _); [done|].
    f_equal. apply IH. set_solver +Hn. }
  apply blk_rep_add; try done.
  - simpl. apply insert_where_Permutation.
  - intros Hpol. simpl in *. rewrite E. apply insert_by_prio_sorted, Hb, Hpol.
Qed.

Lemma blk_step_sound bs ts t k k' bs' :
  blk_rep bs (pend_map ts) (prio_in ts) -> ts !! t = Some k ->
  blk_step t k k' bs (prio_in ts) bs' -> blk_rep bs' (pend_map (<[t := k']> ts)) (prio_in (<[t := k']> ts)).
Proof.
  intros Hb Ht Hs. unfold pend_map in *.
  pose proof (lookup_abs pend_on _ _ _ Ht) as Hk.
  destruct Hs as [E Hp|o E' E Hf|E|o E E' Hp Hf|o E E' Hp|o E E'].
  - rewrite (omap_upd_same _ _ _ k) by done. destruct Hp as [Hp|Hp].
    + by apply (blk_rep_prio_same _ _ _ _ k).
    + apply blk_rep_prio_off; [done|congruence].
  - rewrite (omap_upd_same _ _ _ k) by congruence. destruct Hb as [Hd He Hs]. split; try done.
    intros o' Ho'. assert (o' <> o) as Hne by (intros ->; congruence).
    eapply StronglySorted_ext, Hs, Ho'. intros u Hu%He. rewrite prio_in_upd, decide_False; [done|].
    intros ->. congruence.
  - rewrite omap_upd, E. apply blk_rep_prio_off; [|by rewrite lookup_delete_eq]. by apply blk_rep_rm.
  - rewrite omap_upd, E'. apply blk_rep_add; simpl; try done; [|congruence| |congruence].
    + by apply (blk_rep_prio_same _ _ _ _ k).
    + by rewrite Permutation_app_comm.
  - rewrite omap_upd, E'. apply blk_rep_insert_prio; [done|congruence].
  - rewrite omap_upd, E', <- (insert_delete_eq (omap pend_on ts) t o), <- rm_from_lookup.
    apply blk_rep_insert_prio; [by apply blk_rep_rm|by rewrite lookup_delete_eq].
Qed.

Lemma tick_step_sound th ts now t k k' th' :
  tick_rep th (tick_map ts) now -> k_lb idle <= 1 -> (forall t m, tick_map ts !! t = Some m -> k_lb idle <= wrap32 (m - now)) ->
  ts !! t = Some k -> tick_step t k k' th ts now th' ->
  tick_rep th' (tick_map (<[t := k']> ts)) now /\
  (forall u m, tick_map (<[t := k']> ts) !! u = Some m -> k_lb idle <= wrap32 (m - now)).
Proof.
  intros Hr Hlb Hpos Ht Hs. unfold tick_map in *. pose proof (lookup_abs deadline _ _ _ Ht) as Hk.
  destruct Hs as [E|E|time E Htime E'].
  - by rewrite (omap_upd_same _ _ _ k).
  - rewrite omap_upd, E. split; [by apply tick_rep_rm|].
    intros u m. rewrite lookup_delete. case_decide; [done|apply Hpos].
  - rewrite omap_upd, E'.
    assert (wrap32 (wrap32 (now + time) - now) = time) as Hleft.
    { rewrite wrap32_sub_l. replace (now + time - now) with time by lia. apply wrap32_small. unfold u32. lia. }
    split.
    + apply tick_rep_insert; [done|congruence|]. intros u Hu. rewrite Hleft, Z.ltb_lt. unfold left_at.
      apply (tr_elem _ _ _ Hr) in Hu as [m Hm]. rewrite (lookup_total_Some _ _ _ Hm).
      apply abs_Some in Hm as (ku & Hku & Hm). rewrite (lookup_total_Some _ _ _ Hku).
      unfold deadline in Hm. destruct (tick_head ku); [|done]. by injection Hm as ->.
    + intros u m. rewrite lookup_insert. case_decide; [|apply Hpos]. intros [= <-]. lia.
Qed.

(** One task moves: the invariant is preserved. *)
Lemma kwf_step s s' t k k' :
  kwf idle s -> t <> idle -> tasks s !! t = Some k -> task_ok t k' ->
  tasks s' = <[t := k']> (tasks s) ->
  rq_step t k k' (g_ready_queue s) (g_ready_queue s') ->
  blk_step t k k' (blk_objs s) (prio_in (tasks s)) (blk_objs s') ->
  tick_step t k k' (g_tick_head s) (tasks s) (g_tick_count s) (g_tick_head s') ->
  g_tick_count s' = g_tick_count s -> mutexes s' = mutexes s -> err_log s' = err_log s ->
  kwf idle s'.
Proof.
  intros H Hne Ht Hok Hts Hrq Hblk Htick Hnow Hms Herr. unfold kwf. rewrite Hts, Hnow, Hms, Herr.
  destruct (tick_step_sound _ _ _ _ _ _ _ (kw_tick H) (proj2 (kw_lb H)) (kw_pos H) Ht Htick).
  destruct H as [Hr Hb ? ? ? ? Hf Hi ? ?]. split; try done.
  - by eapply (rq_step_sound (g_ready_queue s)); [..|apply Hok|].
  - by eapply blk_step_sound.
  - by apply map_Forall_insert_2.
  - unfold ready_map. rewrite omap_upd.
    destruct (rdy_prio k'); by rewrite ?lookup_insert_ne, ?lookup_delete_ne by done.
Qed.
End MoveSound.
