(* ===== verification/InvPend.v ===== *)
(** * Blocking, waking and priority changes preserve the list invariant

    Closed forms of the operations of [Pend] (which control block they write and what
    they do to the three lists) and preservation of [kwf]. *)
From S2P Require Import Prelude Bitmap KTypes RunQueue RingBuf Kernel Pend Invariant.
Local Open Scope Z_scope.

Implicit Types (s : kstate) (t o : Z) (k : ktask_t).

(** ** Equality of states, field by field *)
Lemma kstate_ext s s' :
  g_sys_stat s = g_sys_stat s' -> g_idle_task_spawned s = g_idle_task_spawned s' ->
  g_ready_queue s = g_ready_queue s' -> g_sched_lock s = g_sched_lock s' ->
  g_intrpt_nested_level s = g_intrpt_nested_level s' ->
  g_preferred_ready_task s = g_preferred_ready_task s' -> g_active_task s = g_active_task s' ->
  g_tick_count s = g_tick_count s' -> g_tick_head s = g_tick_head s' ->
  g_sys_time_tick s = g_sys_time_tick s' -> g_kobj_list s = g_kobj_list s' -> g_res_list s = g_res_list s' -> tasks s = tasks s' ->
  blk_objs s = blk_objs s' -> sems s = sems s' -> mutexes s = mutexes s' -> events s = events s' ->
  queues s = queues s' -> buf_queues s = buf_queues s' -> mblk_pools s = mblk_pools s' ->
  timers s = timers s' -> timer_cbs s = timer_cbs s' -> g_timer_head s = g_timer_head s' ->
  g_timer_count s = g_timer_count s' -> works s = works s' -> workqueues s = workqueues s' ->
  g_workqueue_list_head s = g_workqueue_list_head s' -> user_words s = user_words s' ->
  user_bufs s = user_bufs s' -> intrpt_masked s = intrpt_masked s' -> err_log s = err_log s' -> s = s'.
Proof. destruct s, s'; simpl. intros. by subst. Qed.

(** Reduces an equation between updated states to the fields that are not identical. *)
Ltac kstate_eq := apply kstate_ext; rsimpl; try reflexivity.

(** ** Reading and writing one task *)
Lemma task_of_Some s t k : tasks s !! t = Some k -> task_of s t = k.
Proof. apply lookup_total_Some. Qed.

Lemma kstate_set_tasks s : s <| tasks := tasks s |> = s.
Proof. by destruct s. Qed.

Lemma upd_task_eq s t k f : tasks s !! t = Some k -> upd_task t f s = s <| tasks := <[t := f k]> (tasks s) |>.
Proof. intros Ht. unfold upd_task. by rewrite (lookup_total_Some _ _ _ Ht). Qed.

Lemma upd_task_upd s t f g : upd_task t f (upd_task t g s) = upd_task t (fun k => f (g k)) s.
Proof. unfold upd_task; simpl. by rewrite lookup_total_insert_eq, insert_insert_eq. Qed.

Lemma task_of_upd s t f : task_of (upd_task t f s) t = f (task_of s t).
Proof. unfold task_of, upd_task; simpl. by rewrite lookup_total_insert_eq. Qed.

Lemma task_of_upd_ne s t u f : u <> t -> task_of (upd_task t f s) u = task_of s u.
Proof. intros. unfold task_of, upd_task; simpl. by rewrite lookup_total_insert_ne. Qed.

#[export] Hint Rewrite upd_task_upd task_of_upd : rhino_rw.

Lemma ready_list_add_cases rq t p ap :
  ready_list_add rq t p ap = ready_list_add_head rq t p \/ ready_list_add rq t p ap = ready_list_add_tail rq t p.
Proof. unfold ready_list_add. destruct (p =? ap); auto. Qed.

Lemma rq_enter t k k' rq p ap :
  rdy_prio k = None -> task_state k' = K_RDY -> prio k' = p -> rq_step t k k' rq (ready_list_add rq t p ap).
Proof. intros ? ? <-. destruct (ready_list_add_cases rq t (prio k') ap) as [-> | ->]; by constructor. Qed.

(** ** Leaving the ready queue and the tick list *)
Lemma k_ready_list_rm_eq idle s m t :
  rq_rep (g_ready_queue s) m -> m !! k_idle idle = Some RHINO_IDLE_PRI -> t <> idle ->
  m !! t = Some (prio (task_of s t)) ->
  k_ready_list_rm t s = s <| g_ready_queue := (ready_list_rm (g_ready_queue s) t (prio (task_of s t))).1 |>.
Proof.
  intros Hr Hi Hne Ht. unfold k_ready_list_rm.
  destruct (ready_list_rm_rep _ _ _ _ Hr Ht) as [_ E].
  - intros E. apply (f_equal (lookup (k_idle idle))) in E. by rewrite lookup_delete_ne, Hi, lookup_empty in E by done.
  - destruct (ready_list_rm _ _ _) as [rq e]; simpl in *. by subst.
Qed.

(** In a state that satisfies the invariant, apart from other fields of the tasks. *)
Lemma tick_list_rm_eq s t k :
  tasks s !! t = Some k -> (tick_head k = false -> t ∉ g_tick_head s) ->
  tick_list_rm t s =
    (s <| g_tick_head ::= remove_addr t |>) <| tasks := <[t := k <| tick_head := false |>]> (tasks s) |>.
Proof.
  intros Ht Hn. unfold tick_list_rm. rewrite (task_of_Some _ _ _ Ht).
  destruct (tick_head k) eqn:E; simpl.
  - by rewrite (upd_task_eq _ _ k) by done.
  - rewrite remove_addr_not_in by auto. rewrite insert_id; [by destruct s|].
    rewrite Ht. f_equal. destruct k; simpl in *; by subst.
Qed.

Lemma kwf_tick_off idle s t k : kwf idle s -> tasks s !! t = Some k -> tick_head k = false -> t ∉ g_tick_head s.
Proof.
  intros H Ht Hk Hin. apply (tr_elem _ _ _ (kw_tick H)) in Hin as [m Hm].
  unfold tick_map in Hm. rewrite (lookup_abs _ _ _ _ Ht) in Hm. unfold deadline in Hm. by rewrite Hk in Hm.
Qed.

Lemma kwf_task_ok idle s t k : kwf idle s -> tasks s !! t = Some k -> task_ok t k.
Proof. intros H Ht. exact (kw_tasks H _ _ Ht). Qed.

Lemma kwf_ready idle s t k :
  kwf idle s -> tasks s !! t = Some k -> task_state k = K_RDY -> ready_map (tasks s) !! t = Some (prio k).
Proof. intros _ Ht E. unfold ready_map. rewrite (lookup_abs _ _ _ _ Ht). by apply rdy_prio_Some. Qed.

Lemma kwf_pending idle s t k o :
  kwf idle s -> tasks s !! t = Some k -> is_pending k = true -> blk_obj k = o -> t ∈ blk_list (blk_of s o).
Proof.
  intros H Ht Hp <-. apply (br_elem _ _ _ (kw_blk H)).
  unfold pend_map. rewrite (lookup_abs _ _ _ _ Ht). unfold pend_on. by rewrite Hp.
Qed.

Lemma kwf_blocked idle s t o :
  kwf idle s -> t ∈ blk_list (blk_of s o) ->
  exists k, tasks s !! t = Some k /\ is_pending k = true /\ blk_obj k = o.
Proof.
  intros H Hin. apply (br_elem _ _ _ (kw_blk H)) in Hin.
  apply abs_Some in Hin as (k & Hk & Hp). exists k. unfold pend_on in Hp.
  destruct (is_pending k); [|done]. by injection Hp as ->.
Qed.

Lemma kwf_idle_task idle s :
  kwf idle s -> exists k, tasks s !! k_idle idle = Some k /\ task_state k = K_RDY /\ prio k = RHINO_IDLE_PRI.
Proof. intros H. pose proof (kw_idle H) as (k & Hk & E%rdy_prio_Some)%abs_Some. naive_solver. Qed.

(** Tasks that are not ready are not the idle task. *)
Lemma kwf_not_idle idle s t k :
  kwf idle s -> tasks s !! t = Some k -> task_state k <> K_RDY -> t <> idle.
Proof. intros H Ht Hs ->. destruct (kwf_idle_task _ _ H) as (k' & ? & ? & _). congruence. Qed.

(** ** Waking a blocked task *)
Definition unpend (st : blk_state_t) k : ktask_t :=
  k <| task_state := if decide (task_state k = K_PEND) then K_RDY else K_SUSPENDED |>
    <| tick_head := false |> <| blk_state := st |> <| blk_obj := NULL |>.

(** Where a woken task goes: into the ready queue, unless it is still suspended. *)
Definition unpend_rq t k (ap : Z) (rq : runqueue_t) : runqueue_t :=
  if decide (task_state k = K_PEND) then ready_list_add rq t (prio k) ap else rq.

(** [pend_task_wakeup] and [pend_task_rm] differ in the result they leave. *)
Definition pend_end (st : blk_state_t) t s : kstate :=
  upd_task t (fun k => k <| blk_obj := NULL |>)
    (upd_task t (fun k => k <| blk_state := st |>) (tick_list_rm t (pend_unblock t s))).

Lemma is_pending_cases k : is_pending k = true -> task_state k = K_PEND \/ task_state k = K_PEND_SUSPENDED.
Proof. unfold is_pending. destruct (task_state k); naive_solver. Qed.

Lemma pend_unblock_eq s t k :
  tasks s !! t = Some k -> is_pending k = true ->
  pend_unblock t s =
    s <| tasks := <[t := k <| task_state := if decide (task_state k = K_PEND) then K_RDY else K_SUSPENDED |>]> (tasks s) |>
      <| g_ready_queue := unpend_rq t k (prio (task_of s (g_active_task s))) (g_ready_queue s) |>
      <| blk_objs ::= fmap (rm_from t) |>.
Proof.
  intros Ht Hp. unfold pend_unblock, unpend_rq. rewrite (task_of_Some _ _ _ Ht).
  destruct (is_pending_cases _ Hp) as [E|E]; rewrite E;
    [rewrite !decide_True by done|rewrite !decide_False by done];
    unfold k_ready_list_add, blk_list_rm, task_of; rewrite (upd_task_eq _ _ k) by done; simpl; [|done].
  by rewrite (lookup_total_Some _ _ _ Ht).
Qed.

Lemma pend_end_eq idle s t k st :
  kwf idle s -> tasks s !! t = Some k -> is_pending k = true ->
  pend_end st t s =
    s <| tasks := <[t := unpend st k]> (tasks s) |>
      <| g_ready_queue := unpend_rq t k (prio (task_of s (g_active_task s))) (g_ready_queue s) |>
      <| blk_objs ::= fmap (rm_from t) |> <| g_tick_head ::= remove_addr t |>.
Proof.
  intros H Ht Hp. unfold pend_end. rewrite (pend_unblock_eq _ _ k), upd_task_upd by done.
  erewrite tick_list_rm_eq; [|simpl; by rewrite lookup_insert_eq|simpl; by eapply kwf_tick_off].
  unfold upd_task; simpl. by rewrite lookup_total_insert_eq, !insert_insert_eq.
Qed.

Lemma unpend_ok st t k : task_ok t k -> is_pending k = true -> task_ok t (unpend st k).
Proof.
  intros [? ? ? ? ? ? Hsus] Hp. split; simpl; try done; unfold is_sleeping, is_suspended; simpl; case_decide; try done.
  intros _. apply Hsus. unfold is_suspended. by destruct (is_pending_cases _ Hp) as [E|E]; rewrite E.
Qed.

Lemma unpend_rq_step st t k ap rq : is_pending k = true -> rq_step t k (unpend st k) rq (unpend_rq t k ap rq).
Proof.
  intros Hp. unfold unpend_rq. case_decide as E.
  - apply rq_enter; [|by simpl; rewrite decide_True|done]. apply rdy_prio_None. congruence.
  - constructor. unfold rdy_prio; simpl. destruct (is_pending_cases _ Hp) as [E'|E']; rewrite E'; [done|].
    by rewrite !decide_False.
Qed.

Lemma pend_on_unpend st k : pend_on (unpend st k) = None.
Proof. unfold pend_on, is_pending; simpl. by case_decide. Qed.

Lemma pend_end_kwf idle s t k st :
  kwf idle s -> tasks s !! t = Some k -> is_pending k = true -> kwf idle (pend_end st t s).
Proof.
  intros H Ht Hp. rewrite (pend_end_eq idle _ _ k) by done.
  eapply (kwf_step idle s _ t k (unpend st k)); try done.
  - eapply kwf_not_idle; [done..|]. by destruct (is_pending_cases _ Hp) as [E|E]; rewrite E.
  - apply unpend_ok; [by eapply kwf_task_ok|done].
  - simpl. by apply unpend_rq_step.
  - simpl. apply blk_leave, pend_on_unpend.
  - simpl. by apply tick_leave.
Qed.

(** ** Blocking the running task *)
Definition timed (timeout : Z) : bool := negb (timeout =? RHINO_WAIT_FOREVER) && (0 <? timeout).

(** The control block after [tick_list_insert]. *)
Definition with_timeout (time now : Z) k : ktask_t :=
  k <| tick_match := wrap32 (now + time) |> <| tick_remain := time |> <| tick_head := true |>.

Definition pended o (timeout now : Z) k : ktask_t :=
  (if timed timeout then with_timeout timeout now (k <| blk_obj := o |>) else k <| blk_obj := o |>)
    <| task_state := K_PEND |>.

Definition tick_inserted t (time : Z) s : list Z :=
  insert_where (fun q => time <? wrap32 (tick_match (tasks s !!! q) - g_tick_count s)) t (g_tick_head s).

Lemma tick_list_insert_eq s t k time :
  tasks s !! t = Some k -> t ∉ g_tick_head s -> 0 < time ->
  tick_list_insert t time s =
    s <| tasks := <[t := with_timeout time (g_tick_count s) k]> (tasks s) |> <| g_tick_head := tick_inserted t time s |>.
Proof.
  intros Ht Hn Htime. unfold tick_list_insert. rewrite (proj2 (Z.ltb_lt _ _) Htime).
  rewrite upd_task_upd, (upd_task_eq s _ k) by done. unfold tick_list_pri_insert, task_of, upd_task; rsimpl.
  rewrite lookup_total_insert_eq, insert_insert_eq; rsimpl. unfold tick_inserted.
  rewrite (insert_where_ext _ (fun q => time <? wrap32 (tick_match (tasks s !!! q) - g_tick_count s))); [done|].
  intros q Hq. unfold ticks_left, task_of; rsimpl. rewrite lookup_total_insert_ne; [done|]. by intros ->.
Qed.

(** The block list of [o] after [t] has been linked. *)
Definition linked t (p : Z) (pr : Z -> Z) (b : blk_obj_t) : blk_obj_t :=
  b <| blk_list ::= match blk_policy b with
                    | BLK_POLICY_FIFO => fun l => l ++ [t]
                    | BLK_POLICY_PRI => insert_where (fun x => p <? pr x) t
                    end |>.

Lemma blk_list_set_ext (b : blk_obj_t) f g :
  f (blk_list b) = g (blk_list b) -> b <| blk_list ::= f |> = b <| blk_list ::= g |>.
Proof. destruct b; simpl. by intros ->. Qed.

Lemma pend_to_blk_obj_eq idle s t k o timeout :
  kwf idle s -> tasks s !! t = Some k -> t <> idle -> task_state k = K_RDY ->
  pend_to_blk_obj o t timeout s =
    s <| tasks := <[t := pended o timeout (g_tick_count s) k]> (tasks s) |>
      <| g_tick_head := if timed timeout then tick_inserted t timeout s else g_tick_head s |>
      <| g_ready_queue := (ready_list_rm (g_ready_queue s) t (prio k)).1 |>
      <| blk_objs := <[o := linked t (prio k) (prio_in (tasks s)) (blk_objs s !!! o)]> (blk_objs s) |>.
Proof.
  intros H Ht Hne Hr. pose proof (kwf_task_ok _ _ _ _ H Ht) as Hok.
  assert (tick_head k = false) as Hth.
  { destruct (tick_head k) eqn:E; [|done]. apply (to_tick _ _ Hok) in E. unfold is_sleeping, is_pending in E.
    rewrite Hr in E. naive_solver. }
  pose proof (kwf_tick_off _ _ _ _ H Ht Hth) as Hoff.
  unfold pend_to_blk_obj. rewrite (upd_task_eq s _ k) by done.
  set (s1 := s <| tasks := <[t := k <| blk_obj := o |>]> (tasks s) |>).
  assert ((if negb (timeout =? RHINO_WAIT_FOREVER) then tick_list_insert t timeout s1 else s1) =
    s <| tasks := <[t := (if timed timeout then with_timeout timeout (g_tick_count s) (k <| blk_obj := o |>)
                          else k <| blk_obj := o |>)]> (tasks s) |>
      <| g_tick_head := if timed timeout then tick_inserted t timeout s else g_tick_head s |>) as ->.
  { unfold timed. destruct (negb (timeout =? RHINO_WAIT_FOREVER)); cbn [andb]; [|by kstate_eq].
    destruct (Z.ltb_spec 0 timeout).
    - rewrite (tick_list_insert_eq _ _ (k <| blk_obj := o |>)); [|subst s1; rsimpl; by rewrite lookup_insert_eq|done..].
      subst s1; kstate_eq; [|by rewrite insert_insert_eq].
      apply insert_where_ext; rsimpl. intros q Hq. rewrite lookup_total_insert_ne; [done|]. by intros ->.
    - unfold tick_list_insert. rewrite (proj2 (Z.ltb_ge _ _)) by lia. by kstate_eq. }
  erewrite upd_task_eq by (rsimpl; by rewrite lookup_insert_eq).
  change ((if timed timeout then with_timeout timeout (g_tick_count s) (k <| blk_obj := o |>)
           else k <| blk_obj := o |>) <| task_state := K_PEND |>) with (pended o timeout (g_tick_count s) k).
  set (k' := pended o timeout (g_tick_count s) k).
  assert (prio k' = prio k) as Hp by (subst k'; unfold pended; by destruct (timed timeout)). clearbody k'.
  rsimpl. rewrite insert_insert_eq.
  erewrite (k_ready_list_rm_eq idle _ (ready_map (tasks s)) t); [|exact (kw_rq H)|exact (kw_idle H)|done|].
  2:{ unfold task_of; rsimpl. rewrite lookup_total_insert_eq, Hp. by eapply kwf_ready. }
  unfold task_of, blk_of, pend_list_add, linked; rsimpl. rewrite lookup_total_insert_eq, Hp.
  destruct (blk_policy (blk_objs s !!! o)); unfold upd_blk, task_of; rsimpl; [|done].
  rewrite lookup_total_insert_eq, Hp.
  kstate_eq. f_equal. apply blk_list_set_ext, insert_where_ext. intros x _. unfold prio_in.
  destruct (decide (x = t)) as [->|]; [|by rewrite lookup_total_insert_ne].
  by rewrite lookup_total_insert_eq, (lookup_total_Some _ _ _ Ht), Hp.
Qed.

Lemma pended_ok t k o timeout now :
  task_ok t k -> task_ok t (pended o timeout now k).
Proof.
  intros [? ? ? ? ? ? ?]. unfold pended.
  split; destruct (timed timeout); simpl; try done; try apply wrap32_range; by right.
Qed.

Lemma deadline_off t k : task_ok t k -> is_sleeping k = false -> is_pending k = false -> deadline k = None.
Proof.
  intros Hok Hs Hp. unfold deadline. destruct (tick_head k) eqn:E; [|done].
  apply (to_tick _ _ Hok) in E. destruct E; congruence.
Qed.

Lemma linked_step t k k' o bs pr :
  pend_on k = None -> pend_on k' = Some o -> prio k' = prio k ->
  blk_step t k k' bs pr (<[o := linked t (prio k) pr (bs !!! o)]> bs).
Proof.
  intros Hk Hk' Hp. unfold linked. destruct (blk_policy (bs !!! o)) eqn:E.
  - rewrite <- Hp. by apply blk_enter_prio.
  - by apply blk_enter_fifo.
Qed.

Lemma pend_to_blk_obj_kwf idle s t k o timeout :
  kwf idle s -> tasks s !! t = Some k -> t <> idle -> task_state k = K_RDY -> u32 timeout ->
  kwf idle (pend_to_blk_obj o t timeout s).
Proof.
  intros H Ht Hne Hr Hto. rewrite (pend_to_blk_obj_eq idle _ _ k) by done.
  pose proof (kwf_task_ok _ _ _ _ H Ht) as Hok.
  set (k' := pended o timeout (g_tick_count s) k).
  assert (prio k' = prio k) as Hp by (subst k'; unfold pended; by destruct (timed timeout)).
  assert (task_state k' = K_PEND) as Hs by (subst k'; unfold pended; by destruct (timed timeout)).
  assert (blk_obj k' = o) as Ho by (subst k'; unfold pended; by destruct (timed timeout)).
  eapply (kwf_step idle s _ t k k'); rsimpl; try done.
  - by apply pended_ok.
  - apply rq_leave; [done|]. apply rdy_prio_None. by rewrite Hs.
  - apply linked_step; [|unfold pend_on, is_pending; by rewrite Hs, Ho|done].
    unfold pend_on, is_pending. by rewrite Hr.
  - assert (deadline k = None) as Hd.
    { eapply deadline_off; [done|..]; unfold is_sleeping, is_pending; by rewrite Hr. }
    subst k'. unfold pended. destruct (timed timeout) eqn:E.
    + apply tick_enter; [done| |done]. unfold timed in E. apply andb_true_iff in E as [_ E].
      unfold u32 in Hto. lia.
    + by apply tick_keep.
Qed.

(** ** Changing the priority of one task *)

(** The part of [task_pri_change_step] that re-queues the task. *)
Definition set_prio t (p : Z) s : kstate :=
  match task_state (task_of s t) with
  | K_RDY =>
      let s := upd_task t (fun k => k <| prio := p |>) (k_ready_list_rm t s) in
      if t =? g_active_task s then k_ready_list_add_head t s else k_ready_list_add_tail t s
  | K_PEND | K_PEND_SUSPENDED => pend_list_reorder t (upd_task t (fun k => k <| prio := p |>) s)
  | _ => upd_task t (fun k => k <| prio := p |>) s
  end.

Lemma set_prio_eq idle s t k p :
  kwf idle s -> tasks s !! t = Some k -> t <> idle ->
  exists rq bs,
    set_prio t p s = s <| tasks := <[t := k <| prio := p |>]> (tasks s) |>
                       <| g_ready_queue := rq |> <| blk_objs := bs |> /\
    rq_step t k (k <| prio := p |>) (g_ready_queue s) rq /\
    blk_step t k (k <| prio := p |>) (blk_objs s) (prio_in (tasks s)) bs.
Proof.
  intros H Ht Hne. unfold set_prio. rewrite (task_of_Some _ _ _ Ht).
  assert (forall f, task_state k = f -> f <> K_RDY -> is_pending k = false ->
    exists rq bs,
      upd_task t (fun k => k <| prio := p |>) s =
        s <| tasks := <[t := k <| prio := p |>]> (tasks s) |> <| g_ready_queue := rq |> <| blk_objs := bs |> /\
      rq_step t k (k <| prio := p |>) (g_ready_queue s) rq /\
      blk_step t k (k <| prio := p |>) (blk_objs s) (prio_in (tasks s)) bs) as Hoff.
  { intros f Hf Hnr Hnp. exists (g_ready_queue s), (blk_objs s). rewrite (upd_task_eq _ _ k) by done.
    split; [by kstate_eq|]. split; constructor.
    - unfold rdy_prio; simpl. by rewrite Hf, !decide_False.
    - done.
    - right. unfold pend_on. by rewrite Hnp. }
  assert (is_pending k = true -> exists rq bs,
      pend_list_reorder t (upd_task t (fun k => k <| prio := p |>) s) =
        s <| tasks := <[t := k <| prio := p |>]> (tasks s) |> <| g_ready_queue := rq |> <| blk_objs := bs |> /\
      rq_step t k (k <| prio := p |>) (g_ready_queue s) rq /\
      blk_step t k (k <| prio := p |>) (blk_objs s) (prio_in (tasks s)) bs) as Hpend.
  { intros Hp. rewrite (upd_task_eq _ _ k) by done. unfold pend_list_reorder, task_of, blk_of; rsimpl.
    rewrite lookup_total_insert_eq; rsimpl. exists (g_ready_queue s).
    assert (rq_step t k (k <| prio := p |>) (g_ready_queue s) (g_ready_queue s)).
    { constructor. unfold rdy_prio; rsimpl. by destruct (is_pending_cases _ Hp) as [E|E]; rewrite E, !decide_False. }
    destruct (blk_policy (blk_objs s !!! blk_obj k)) eqn:Epol; eexists; (split; [|split; [done|]]).
    - unfold pend_list_add, upd_blk, blk_list_rm, task_of. kstate_eq.
    - rewrite lookup_total_insert_eq; rsimpl.
      change (fmap _ (blk_objs s)) with (rm_from t <$> blk_objs s). rewrite rm_from_lookup.
      erewrite (blk_list_set_ext (rm_from t (blk_objs s !!! blk_obj k))).
      + apply (blk_reorder t k (k <| prio := p |>) _ _ (blk_obj k)); unfold pend_on.
        * by rewrite Hp.
        * unfold is_pending in *; rsimpl. by rewrite Hp.
      + apply insert_where_ext. intros x [Hx _]%elem_of_remove_addr.
        rewrite lookup_total_insert_ne by done. rsimpl. done.
    - by kstate_eq.
    - apply (blk_keep_fifo _ _ _ _ _ (blk_obj k)); [..|done]; unfold pend_on; unfold is_pending in *; rsimpl;
        by rewrite Hp. }
  destruct (task_state k) eqn:E; try (by apply (Hoff _ eq_refl); [|unfold is_pending; rewrite E]);
    try (apply Hpend; unfold is_pending; by rewrite E).
  erewrite (k_ready_list_rm_eq idle s _ t (kw_rq H) (kw_idle H)); [|done|
    rewrite (task_of_Some _ _ _ Ht); by eapply kwf_ready].
  rewrite (task_of_Some _ _ _ Ht). erewrite upd_task_eq by (rsimpl; exact Ht).
  unfold k_ready_list_add_head, k_ready_list_add_tail, task_of; rsimpl. rewrite lookup_total_insert_eq; rsimpl.
  assert (blk_step t k (k <| prio := p |>) (blk_objs s) (prio_in (tasks s)) (blk_objs s)).
  { constructor; [done|]. right. unfold pend_on, is_pending. by rewrite E. }
  destruct (t =? g_active_task s); do 2 eexists; (split; [kstate_eq|split; [|done]]).
  - exact (rq_requeue_head t k (k <| prio := p |>) (g_ready_queue s) E E).
  - exact (rq_requeue_tail t k (k <| prio := p |>) (g_ready_queue s) E E).
Qed.

(** ** What a priority change leaves alone *)
Record kframe s s' : Prop := {
  kf_sys : g_sys_stat s' = g_sys_stat s;
  kf_spawned : g_idle_task_spawned s' = g_idle_task_spawned s;
  kf_lock : g_sched_lock s' = g_sched_lock s;
  kf_nest : g_intrpt_nested_level s' = g_intrpt_nested_level s;
  kf_pref : g_preferred_ready_task s' = g_preferred_ready_task s;
  kf_active : g_active_task s' = g_active_task s;
  kf_now : g_tick_count s' = g_tick_count s;
  kf_time : g_sys_time_tick s' = g_sys_time_tick s;
  kf_objs : g_kobj_list s' = g_kobj_list s;
  kf_res : g_res_list s' = g_res_list s;
  kf_sems : sems s' = sems s;
  kf_events : events s' = events s;
  kf_queues : queues s' = queues s;
  kf_buf_queues : buf_queues s' = buf_queues s;
  kf_pools : mblk_pools s' = mblk_pools s;
  kf_timers : timers s' = timers s;
  kf_cbs : timer_cbs s' = timer_cbs s;
  kf_thead : g_timer_head s' = g_timer_head s;
  kf_tcount : g_timer_count s' = g_timer_count s;
  kf_works : works s' = works s;
  kf_wqs : workqueues s' = workqueues s;
  kf_wqlist : g_workqueue_list_head s' = g_workqueue_list_head s;
  kf_words : user_words s' = user_words s;
  kf_bufs : user_bufs s' = user_bufs s;
  kf_mask : intrpt_masked s' = intrpt_masked s;
}.

#[export] Instance kframe_refl : Reflexive kframe.
Proof. by constructor. Qed.
#[export] Instance kframe_trans : Transitive kframe.
Proof. intros x y z [] []. constructor; congruence. Qed.

(** Only [prio] fields, the order of block lists and the ready queue change. *)
Record pri_frame s s' : Prop := {
  pf_frame : kframe s s';
  pf_tick : g_tick_head s' = g_tick_head s;
  pf_mutexes : mutexes s' = mutexes s;
  pf_tasks : forall t, tasks s' !! t = (fun k => k <| prio := prio_in (tasks s') t |>) <$> tasks s !! t;
  pf_list : forall o, blk_list (blk_of s' o) ≡ₚ blk_list (blk_of s o);
  pf_type : forall o, obj_type (blk_of s' o) = obj_type (blk_of s o);
  pf_policy : forall o, blk_policy (blk_of s' o) = blk_policy (blk_of s o);
}.

Lemma set_prio_same (k : ktask_t) : k <| prio := prio k |> = k.
Proof. by destruct k. Qed.

#[export] Instance pri_frame_refl : Reflexive pri_frame.
Proof.
  intros s. split; try done. intros t. destruct (tasks s !! t) as [k|] eqn:E; simpl; [|done]. f_equal.
  unfold prio_in. rewrite (lookup_total_Some _ _ _ E). by destruct k.
Qed.
#[export] Instance pri_frame_trans : Transitive pri_frame.
Proof.
  intros x y z [F1 T1 M1 K1 L1 Y1 P1] [F2 T2 M2 K2 L2 Y2 P2].
  split; try (etrans; eassumption); try (intros; etrans; eauto).
  rewrite K1. by destruct (tasks x !! t).
Qed.

Lemma set_prio_frame idle s t k p :
  kwf idle s -> tasks s !! t = Some k -> t <> idle -> 0 <= p < RHINO_CONFIG_PRI_MAX ->
  kwf idle (set_prio t p s) /\ pri_frame s (set_prio t p s) /\
  tasks (set_prio t p s) = <[t := k <| prio := p |>]> (tasks s) /\ err_log (set_prio t p s) = err_log s.
Proof.
  intros H Ht Hne Hp. destruct (set_prio_eq idle s t k p H Ht Hne) as (rq & bs & E & Hrq & Hbs).
  assert (kwf idle (set_prio t p s)) as H'.
  { rewrite E. eapply (kwf_step idle s _ t k (k <| prio := p |>)); rsimpl; try done; [|by constructor].
    destruct (kwf_task_ok _ _ _ _ H Ht). by split. }
  split_and!; [done| |by rewrite E|by rewrite E].
  assert (forall o, blk_list (bs !!! o) ≡ₚ blk_list (blk_of s o) /\ obj_type (bs !!! o) = obj_type (blk_of s o) /\
            blk_policy (bs !!! o) = blk_policy (blk_of s o)) as Hb.
  { intros o. destruct Hbs as [| |E1|? E1 E2|? E1 E2|o' E1 E2]; try done.
    - rewrite rm_from_lookup; simpl. split; [|done]. rewrite remove_addr_not_in; [done|].
      intros Hin. apply (br_elem _ _ _ (kw_blk H)) in Hin. unfold pend_map in Hin.
      rewrite (lookup_abs _ _ _ _ Ht) in Hin. change (pend_on k = None) in E1; by rewrite E1 in Hin.
    - unfold pend_on, is_pending in *; rsimpl_in E2. rewrite E2 in E1. done.
    - unfold pend_on, is_pending in *; rsimpl_in E2. rewrite E2 in E1. done.
    - unfold blk_of. destruct (decide (o' = o)) as [->|Hno].
      + rewrite lookup_total_insert_eq; rsimpl. split; [|done]. rewrite insert_where_Permutation; simpl.
        assert (t ∈ blk_list (blk_objs s !!! o)) as Hin.
        { apply (br_elem _ _ _ (kw_blk H)). unfold pend_map. by rewrite (lookup_abs _ _ _ _ Ht). }
        pose proof (br_nodup _ _ _ (kw_blk H) o) as Hd.
        apply list_elem_of_split in Hin as (l1 & l2 & El). rewrite El in *.
        rewrite NoDup_app, NoDup_cons in Hd. destruct Hd as (_ & H12 & H2 & _).
        rewrite remove_addr_middle; [by rewrite Permutation_middle| |done].
        intros Hin. apply (H12 t Hin). by left.
      + rewrite lookup_total_insert_ne, rm_from_lookup by done; simpl. split; [|done].
        rewrite remove_addr_not_in; [done|]. intros Hin. apply (br_elem _ _ _ (kw_blk H)) in Hin.
        unfold pend_map in Hin. rewrite (lookup_abs _ _ _ _ Ht) in Hin. congruence. }
  rewrite E. split; unfold blk_of; rsimpl; try apply Hb; try done.
  intros u. unfold prio_in. destruct (decide (t = u)) as [<-|Hu].
  - rewrite lookup_insert_eq, Ht, lookup_total_insert_eq. done.
  - rewrite lookup_insert_ne, lookup_total_insert_ne by done.
    destruct (tasks s !! u) as [ku|] eqn:Eu; simpl; [|done]. f_equal.
    rewrite (lookup_total_Some _ _ _ Eu). by destruct ku.
Qed.
