(* ===== verification/PriInherit.v ===== *)
(** * Priority inheritance

    [owner s m t]: task [t] holds mutex [m].  [waits s w t]: task [w] is blocked on a
    mutex held by [t].  The protocol's contract is [is_target]: a task's priority is
    the most urgent of its base priority and the priorities of the tasks waiting for
    it.  [pstruct] collects the structural facts (the chain of held mutexes lists
    exactly the mutexes a task owns, a mutex with waiters has an owner, ...), and
    [pprio] the priority equation for every live task outside an exception set.

    [task_pri_change] walks from a task to the owner of the mutex it waits for.  The
    section [Loop] shows that the walk re-establishes the equation everywhere, that
    each iteration moves one priority strictly in one direction (so that the walk
    terminates, even when tasks wait for each other in a cycle, within [pri_fuel]
    iterations), and that nothing but priorities and queue positions changes. *)
From S2P Require Import Prelude Bitmap KTypes RunQueue RingBuf Kernel Pend Invariant InvPend.
Local Open Scope Z_scope.

Implicit Types (s : kstate) (t u w m o : Z) (k : ktask_t).

(** ** Ownership and waiting *)
Definition owner s m t : Prop :=
  obj_type (blk_of s m) = RHINO_MUTEX_OBJ_TYPE /\ mutex_task (mutex_of s m) = t /\ t <> NULL.

Definition waits s w t : Prop := exists m, owner s m t /\ w ∈ blk_list (blk_of s m).

(** [p] is the most urgent of [b] and the priorities of the tasks in [W]. *)
Definition is_min s (W : Z -> Prop) (b p : Z) : Prop :=
  p <= b /\ (forall w, W w -> p <= prio (task_of s w)) /\
  (p = b \/ exists w, W w /\ p = prio (task_of s w)).

(** [X] are additional waits that are not in a block list yet. *)
Definition waitsX (X : Z -> Z -> Prop) s w t : Prop := waits s w t \/ X w t.
Definition is_targetX X s t (p : Z) : Prop := is_min s (fun w => waitsX X s w t) (b_prio (task_of s t)) p.
Definition is_target s t (p : Z) : Prop := is_min s (fun w => waits s w t) (b_prio (task_of s t)) p.

Definition no_extra : Z -> Z -> Prop := fun _ _ => False.

(** ** The chain of held mutexes *)
Fixpoint chain (ms : gmap Z kmutex_t) (head : Z) (l : list Z) : Prop :=
  match l with
  | [] => head = NULL
  | m :: l => head = m /\ m <> NULL /\ chain ms (mutex_next (ms !!! m)) l
  end.

(** [l] lists the mutexes held by [t] in the order of its chain. *)
Definition held s t (l : list Z) : Prop :=
  chain (mutexes s) (mutex_list (task_of s t)) l /\ NoDup l /\ forall m, m ∈ l <-> owner s m t.

(** [D] holds tasks under destruction, whose chains are no longer maintained. *)
Definition none : Z -> Prop := fun _ => False.

Record pstructD (D : Z -> Prop) s : Prop := {
  ps_chain : forall t k, tasks s !! t = Some k -> is_alive k = true -> ~ D t -> exists l, held s t l;
  ps_owner : forall m t, owner s m t -> exists k, tasks s !! t = Some k /\ is_alive k = true /\ ~ D t;
  ps_held : forall m w, obj_type (blk_of s m) = RHINO_MUTEX_OBJ_TYPE -> w ∈ blk_list (blk_of s m) ->
    mutex_task (mutex_of s m) <> NULL /\ mutex_task (mutex_of s m) <> w;
  ps_policy : forall m, obj_type (blk_of s m) = RHINO_MUTEX_OBJ_TYPE -> blk_policy (blk_of s m) = BLK_POLICY_PRI;
}.
Abbreviation pstruct := (pstructD none).
Arguments ps_chain {_ _} _.
Arguments ps_owner {_ _} _.
Arguments ps_held {_ _} _.
Arguments ps_policy {_ _} _.

Definition pprio (X : Z -> Z -> Prop) (D : Z -> Prop) s : Prop :=
  forall t k, tasks s !! t = Some k -> is_alive k = true -> ~ D t -> is_targetX X s t (prio k).

(** The whole protocol invariant. *)
Definition pinvD (D : Z -> Prop) s : Prop :=
  pstructD D s /\ forall t k, tasks s !! t = Some k -> is_alive k = true -> ~ D t -> is_target s t (prio k).
Abbreviation pinv := (pinvD none).

Lemma is_targetX_none s t p : is_targetX no_extra s t p <-> is_target s t p.
Proof. unfold is_targetX, is_target, is_min, waitsX, no_extra. naive_solver. Qed.

Lemma is_min_ext s s' W W' b p :
  (forall w, W w <-> W' w) -> (forall w, W w -> prio (task_of s w) = prio (task_of s' w)) ->
  is_min s W b p -> is_min s' W' b p.
Proof.
  intros HW Hp (Hb & Hw & Hex). split_and!; [done| |].
  - intros w Hw'. apply HW in Hw'. rewrite <- Hp by done. auto.
  - destruct Hex as [Hex|(w & Hw' & ->)]; [by left|right]. exists w. split; [by apply HW|auto].
Qed.

Lemma is_min_unique s W b p p' : is_min s W b p -> is_min s W b p' -> p = p'.
Proof.
  intros (Hb & Hw & Hex) (Hb' & Hw' & Hex').
  destruct Hex as [Ep|(w & Hww & Ep)], Hex' as [Ep'|(w' & Hww' & Ep')];
    try specialize (Hw _ Hww'); try specialize (Hw' _ Hww); lia.
Qed.

Lemma owner_unique s m t t' : owner s m t -> owner s m t' -> t = t'.
Proof. intros (_ & <- & _) (_ & <- & _). done. Qed.

(** The waiters of a mutex are tasks blocked on it. *)
Lemma waits_pending idle s w t :
  kwf idle s -> waits s w t ->
  exists k m, tasks s !! w = Some k /\ is_pending k = true /\ blk_obj k = m /\ owner s m t.
Proof.
  intros H (m & Ho & Hin). destruct (kwf_blocked _ _ _ _ H Hin) as (k & Hk & Hp & Hb). by exists k, m.
Qed.

Lemma prio_range idle s t : kwf idle s -> 0 <= prio (task_of s t) < RHINO_CONFIG_PRI_MAX.
Proof.
  intros H. unfold task_of. rewrite lookup_total_alt. destruct (tasks s !! t) as [k|] eqn:E; simpl; [|unfold RHINO_CONFIG_PRI_MAX; lia].
  eapply to_prio, kwf_task_ok; eauto.
Qed.

Lemma bprio_range idle s t : kwf idle s -> 0 <= b_prio (task_of s t) < RHINO_CONFIG_PRI_MAX.
Proof.
  intros H. unfold task_of. rewrite lookup_total_alt. destruct (tasks s !! t) as [k|] eqn:E; simpl; [|unfold RHINO_CONFIG_PRI_MAX; lia].
  eapply to_bprio, kwf_task_ok; eauto.
Qed.

Lemma is_targetX_range idle X s t p : kwf idle s -> is_targetX X s t p -> 0 <= p < RHINO_CONFIG_PRI_MAX.
Proof.
  intros H (_ & _ & [->|(w & _ & ->)]); [by eapply bprio_range|by eapply prio_range].
Qed.

(** ** Walking the chain *)
Lemma held_fuel s t l : held s t l -> (length l < mutex_fuel s)%nat.
Proof.
  intros (_ & Hd & Hel). unfold mutex_fuel.
  rewrite <- (size_list_to_set (C := gset Z) l) by done. rewrite <- size_dom.
  apply Nat.lt_succ_r, subseteq_size. intros m Hm%elem_of_list_to_set%Hel.
  destruct Hm as (_ & <- & Hn). apply elem_of_dom. unfold mutex_of in Hn. rewrite lookup_total_alt in Hn.
  destruct (mutexes s !! m); [by eexists|done].
Qed.

(** The priorities the loops compare: the first waiter of each mutex of a list. *)
Definition firsts s (l : list Z) (w : Z) : Prop := exists m r, m ∈ l /\ blk_list (blk_of s m) = w :: r.

Lemma is_min_cons s m l p high r :
  high <= p ->
  let pri := match blk_list (blk_of s m) with [] => p | w :: _ => prio (task_of s w) end in
  is_min s (firsts s l) (if pri <? high then pri else high) r -> is_min s (firsts s (m :: l)) high r.
Proof.
  intros Hp pri (Hb & Hw & Hex). subst pri.
  assert ((forall w, ~ firsts s [m] w) /\ blk_list (blk_of s m) = [] \/
          exists w r, blk_list (blk_of s m) = w :: r) as [[Hno E]|(w0 & r0 & E)].
  { destruct (blk_list (blk_of s m)) as [|w0 r0] eqn:E; [left|right; eauto]. split; [|done].
    intros w (m' & r' & ->%list_elem_of_singleton & E'). congruence. }
  - rewrite E in *. rewrite (proj2 (Z.ltb_ge _ _) Hp) in *.
    eapply is_min_ext, (conj Hb (conj Hw Hex)); [|done]. intros w. unfold firsts. split.
    + intros (m' & r' & ? & ?). exists m', r'. set_solver.
    + intros (m' & r' & [->|?]%elem_of_cons & ?); [congruence|]. by exists m', r'.
  - rewrite E in *. assert (firsts s (m :: l) w0) by (exists m, r0; set_solver).
    assert (forall w, firsts s (m :: l) w <-> w = w0 \/ firsts s l w) as Hf.
    { intros w. unfold firsts. split.
      - intros (m' & r' & [->|?]%elem_of_cons & ?); [left; congruence|right; by exists m', r'].
      - intros [->|(m' & r' & ? & ?)]; [by exists m, r0; set_solver|]. exists m', r'. set_solver. }
    destruct (Z.ltb_spec (prio (task_of s w0)) high) as [Hlt|Hge]; (split_and!; [lia| |]).
    + intros w [->|Hw']%Hf; [done|auto].
    + destruct Hex as [->|(w & Hw' & ->)]; right; [by exists w0|]. exists w. split; [|done]. apply Hf. auto.
    + intros w [->|Hw']%Hf; [lia|auto].
    + destruct Hex as [->|(w & Hw' & ->)]; [by left|right]. exists w. split; [|done]. apply Hf. auto.
Qed.

Lemma is_min_nil s b : is_min s (firsts s []) b b.
Proof. split_and!; [lia| |by left]. intros w (m & r & Hm & _). by apply elem_of_nil in Hm. Qed.

Lemma mutex_pri_limit_loop_min s l fuel head p high :
  chain (mutexes s) head l -> (length l < fuel)%nat -> high <= p ->
  is_min s (firsts s l) high (mutex_pri_limit_loop fuel head p high s).
Proof.
  revert fuel head p high. induction l as [|m l IH]; intros fuel head p high Hc Hf Hp;
    (destruct fuel as [|fuel]; [simpl in Hf; lia|]); simpl in *.
  - subst. rewrite Z.eqb_refl. apply is_min_nil.
  - destruct Hc as (-> & Hm & Hc). rewrite (proj2 (Z.eqb_neq _ _) Hm).
    apply (is_min_cons s m l p high); [done|]. apply IH; [done|lia|].
    destruct (Z.ltb_spec (match blk_list (blk_of s m) with [] => p | w :: _ => prio (task_of s w) end) high); lia.
Qed.

(** In a sorted block list the first waiter is the most urgent one. *)
Lemma firsts_waits idle D s t l b p :
  kwf idle s -> pstructD D s -> held s t l -> is_min s (firsts s l) b p -> is_min s (fun w => waits s w t) b p.
Proof.
  intros H Hps (_ & _ & Hel) (Hb & Hw & Hex). split_and!; [done| |].
  - intros w (m & Ho & Hin). destruct (blk_list (blk_of s m)) as [|w0 r] eqn:E; [by apply elem_of_nil in Hin|].
    transitivity (prio (task_of s w0)); [apply Hw; exists m, r; split; [by apply Hel|done]|].
    pose proof (br_sorted _ _ _ (kw_blk H) m (ps_policy Hps m (proj1 Ho))) as Hs.
    unfold blk_of in E. rewrite E in Hs. exact (StronglySorted_head (prio_in (tasks s)) _ _ _ Hs Hin).
  - destruct Hex as [->|(w & (m & r & Hm & E) & ->)]; [by left|right]. exists w. split; [|done].
    exists m. split; [by apply Hel|]. rewrite E. by left.
Qed.

Lemma mutex_pri_limit_min idle s t k p :
  kwf idle s -> pstruct s -> tasks s !! t = Some k -> is_alive k = true ->
  is_min s (fun w => waits s w t) p (mutex_pri_limit t p s).
Proof.
  intros H Hps Ht Ha. destruct (ps_chain Hps _ _ Ht Ha id) as [l Hl].
  eapply firsts_waits; [done..|]. apply mutex_pri_limit_loop_min; [apply Hl|by apply (held_fuel _ t)|lia].
Qed.

(** ** [mutex_pri_look]: the same minimum, unlinking the released mutex on the way *)
Lemma mutex_pri_look_loop_skip s rel l fuel prev p new :
  chain (mutexes s) (read_link prev s) l -> rel ∉ l -> (length l < fuel)%nat -> new <= p ->
  exists r, mutex_pri_look_loop fuel prev rel p new s = (r, s) /\ is_min s (firsts s l) new r.
Proof.
  revert fuel prev p new. induction l as [|m l IH]; intros fuel prev p new Hc Hrel Hf Hp;
    (destruct fuel as [|fuel]; [simpl in Hf; lia|]); cbn [mutex_pri_look_loop chain length] in *.
  - rewrite Hc, Z.eqb_refl. exists new. split; [done|apply is_min_nil].
  - destruct Hc as (Hh & Hm & Hc). rewrite Hh, (proj2 (Z.eqb_neq _ _) Hm).
    rewrite (proj2 (Z.eqb_neq m rel)) by set_solver +Hrel.
    edestruct (IH fuel (LinkMutex m)) as (r & Er & Hr); [exact Hc|set_solver +Hrel|lia| |].
    2:{ exists r. split; [exact Er|]. eapply is_min_cons, Hr. done. }
    destruct (Z.ltb_spec (match blk_list (blk_of s m) with [] => p | w :: _ => prio (task_of s w) end) new); lia.
Qed.

Definition link_before (prev : mutex_link) (l1 : list Z) : mutex_link :=
  match last l1 with Some m => LinkMutex m | None => prev end.

(** Writing a link changes no priority, block list or owner. *)
Lemma write_link_frame lk v s :
  (forall w, prio (task_of (write_link lk v s) w) = prio (task_of s w)) /\
  (forall w, b_prio (task_of (write_link lk v s) w) = b_prio (task_of s w)) /\
  blk_objs (write_link lk v s) = blk_objs s /\
  (forall m, mutex_task (mutex_of (write_link lk v s) m) = mutex_task (mutex_of s m)).
Proof.
  destruct lk as [t|m]; (split_and!; [intros w|intros w|done|intros m']);
    unfold write_link, upd_task, upd_mutex, task_of, mutex_of; rsimpl; try done.
  - destruct (decide (w = t)) as [->|]; by rewrite ?lookup_total_insert_eq, ?lookup_total_insert_ne.
  - destruct (decide (w = t)) as [->|]; by rewrite ?lookup_total_insert_eq, ?lookup_total_insert_ne.
  - destruct (decide (m' = m)) as [->|]; by rewrite ?lookup_total_insert_eq, ?lookup_total_insert_ne.
Qed.

Lemma read_write_link lk v s : read_link lk (write_link lk v s) = v.
Proof.
  destruct lk; unfold read_link, write_link, task_of, mutex_of, upd_task, upd_mutex; rsimpl;
    by rewrite lookup_total_insert_eq.
Qed.

Lemma chain_ext ms ms' head l :
  (forall m, m ∈ l -> mutex_next (ms' !!! m) = mutex_next (ms !!! m)) -> chain ms head l -> chain ms' head l.
Proof.
  revert head. induction l as [|m l IH]; intros head Heq; simpl; [done|]. intros (-> & Hm & Hc).
  split_and!; [done..|]. rewrite Heq by set_solver. apply IH; [|done]. intros. apply Heq. set_solver.
Qed.

(** Links are written outside the rest of the chain. *)
Definition link_off (lk : mutex_link) (l : list Z) : Prop := match lk with LinkMutex m => m ∉ l | LinkTask _ => True end.

Lemma chain_write_link lk v s head l :
  link_off lk l -> chain (mutexes s) head l -> chain (mutexes (write_link lk v s)) head l.
Proof.
  intros Hoff. apply chain_ext. intros m Hm. destruct lk as [t|m']; [done|]. unfold write_link, upd_mutex; rsimpl.
  rewrite lookup_total_insert_ne; [done|]. intros ->. by apply Hoff.
Qed.

Lemma firsts_write_link lk v s l w : firsts (write_link lk v s) l w <-> firsts s l w.
Proof. destruct (write_link_frame lk v s) as (_ & _ & Hb & _). unfold firsts, blk_of. by rewrite Hb. Qed.

Lemma mutex_pri_look_loop_rel s rel l1 l2 fuel prev p new :
  chain (mutexes s) (read_link prev s) (l1 ++ rel :: l2) -> NoDup (l1 ++ rel :: l2) ->
  link_off prev (l1 ++ rel :: l2) -> (length (l1 ++ rel :: l2) < fuel)%nat -> new <= p ->
  exists r, mutex_pri_look_loop fuel prev rel p new s =
      (r, write_link (link_before prev l1) (mutex_next (mutex_of s rel)) s) /\
    is_min s (firsts s (l1 ++ l2)) new r.
Proof.
  revert fuel prev p new. induction l1 as [|m l1 IH]; intros fuel prev p new Hc Hd Hoff Hf Hp;
    (destruct fuel as [|fuel]; [simpl in Hf; lia|]); cbn [mutex_pri_look_loop chain length app] in *;
    destruct Hc as (Hh & Hm & Hc); rewrite Hh, (proj2 (Z.eqb_neq _ _) Hm); apply NoDup_cons in Hd as [Hn Hd].
  - rewrite Z.eqb_refl. set (s' := write_link prev (mutex_next (mutex_of s rel)) s).
    edestruct (mutex_pri_look_loop_skip s' rel l2 fuel prev p new) as (r & Er & Hr); [|done|lia|done|].
    { subst s'. rewrite read_write_link. apply chain_write_link; [|done]. destruct prev; simpl in *; [done|set_solver +Hoff]. }
    exists r. split; [exact Er|]. eapply is_min_ext, Hr; [apply firsts_write_link|].
    intros w _. apply write_link_frame.
  - rewrite (proj2 (Z.eqb_neq m rel)) by set_solver +Hn.
    edestruct (IH fuel (LinkMutex m)) as (r & Er & Hr); [exact Hc|done|exact Hn|lia| |].
    2:{ exists r. split; [|eapply is_min_cons, Hr; done]. rewrite Er. f_equal. f_equal.
        unfold link_before. destruct l1 as [|z l1]; [done|]. rewrite last_cons_cons.
        destruct (last (z :: l1)) eqn:El; [done|]. by apply last_None in El. }
    destruct (Z.ltb_spec (match blk_list (blk_of s m) with [] => p | w :: _ => prio (task_of s w) end) new); lia.
Qed.

Lemma mutex_pri_look_null idle s t k :
  kwf idle s -> pstruct s -> tasks s !! t = Some k -> is_alive k = true ->
  exists r, mutex_pri_look t NULL s = (r, s) /\ is_target s t r.
Proof.
  intros H Hps Ht Ha. destruct (ps_chain Hps _ _ Ht Ha id) as [l Hl]. unfold mutex_pri_look.
  destruct (mutex_pri_look_loop_skip s NULL l (mutex_fuel s) (LinkTask t) (b_prio (task_of s t)) (b_prio (task_of s t)))
    as (r & -> & Hr); [apply Hl| |by apply (held_fuel _ t)|lia|].
  - destruct Hl as [Hc _]. revert Hc. generalize (mutex_list (task_of s t)).
    induction l as [|m l IH]; simpl; [by intros ? _ ?%elem_of_nil|]. intros h (_ & Hm & Hc) [E|?]%elem_of_cons; [congruence|].
    by eapply IH.
  - exists r. split; [done|]. by eapply firsts_waits.
Qed.

(** ** Priority changes keep the structure *)
Lemma pri_frame_task s s' t k :
  pri_frame s s' -> tasks s !! t = Some k ->
  tasks s' !! t = Some (k <| prio := prio_in (tasks s') t |>).
Proof. intros F Ht. by rewrite (pf_tasks _ _ F), Ht. Qed.

Lemma pri_frame_task_inv s s' t k' :
  pri_frame s s' -> tasks s' !! t = Some k' -> exists k, tasks s !! t = Some k /\ k' = k <| prio := prio k' |>.
Proof.
  intros F Ht. pose proof Ht as Ht'. rewrite (pf_tasks _ _ F) in Ht.
  destruct (tasks s !! t) as [k|]; [|done]. exists k. split; [done|]. simpl in Ht. injection Ht as <-.
  unfold prio_in. by destruct k.
Qed.

(** Every field of a task but [prio] reads the same. *)
Lemma pri_frame_field {A} (f : ktask_t -> A) s s' t :
  (forall k p, f (k <| prio := p |>) = f k) -> pri_frame s s' -> f (task_of s' t) = f (task_of s t).
Proof.
  intros Hf F. unfold task_of. rewrite !lookup_total_alt, (pf_tasks _ _ F).
  destruct (tasks s !! t); simpl; [apply Hf|done].
Qed.

Lemma owner_frame s s' m t : pri_frame s s' -> owner s' m t <-> owner s m t.
Proof. intros F. unfold owner, mutex_of. by rewrite (pf_type _ _ F), (pf_mutexes _ _ F). Qed.

Lemma waits_frame s s' w t : pri_frame s s' -> waits s' w t <-> waits s w t.
Proof.
  intros F. unfold waits. split; intros (m & Ho & Hin); exists m.
  - rewrite <- (pf_list _ _ F). split; [by apply (owner_frame s s')|done].
  - rewrite (pf_list _ _ F). split; [by apply (owner_frame s s')|done].
Qed.

Lemma pstruct_frame D s s' : pri_frame s s' -> pstructD D s -> pstructD D s'.
Proof.
  intros F Hps. split.
  - intros t k' Ht Ha HD. apply (pri_frame_task_inv s) in Ht as (k & Ht & E); [|done].
    destruct (ps_chain Hps t k Ht) as (l & Hc & Hd & Hel); [rewrite E in Ha; exact Ha|done|].
    exists l. split_and!; [|done|].
    + rewrite (pf_mutexes _ _ F). by rewrite (pri_frame_field mutex_list s s' t).
    + intros m. rewrite Hel. symmetry. by apply owner_frame.
  - intros m t Ho. apply (owner_frame s) in Ho; [|done]. destruct (ps_owner Hps _ _ Ho) as (k & Ht & Ha & HD).
    eexists. split; [by eapply pri_frame_task|split; [exact Ha|done]].
  - intros m w. rewrite (pf_type _ _ F), (pf_list _ _ F). unfold mutex_of. rewrite (pf_mutexes _ _ F). apply Hps.
  - intros m. rewrite (pf_type _ _ F), (pf_policy _ _ F). apply Hps.
Qed.

(** ** A measure of all priorities *)
Definition psum (ts : gmap Z ktask_t) : Z := map_fold (fun _ k acc => prio k + acc) 0 ts.

Lemma psum_insert_new ts t k : ts !! t = None -> psum (<[t := k]> ts) = prio k + psum ts.
Proof. intros Ht. unfold psum. rewrite map_fold_insert_L; [done| |done]. intros. lia. Qed.

Lemma psum_update ts t k k' : ts !! t = Some k -> psum (<[t := k']> ts) = psum ts - prio k + prio k'.
Proof.
  intros Ht. rewrite <- (insert_delete_id ts t k Ht) at 2.
  rewrite <- (insert_delete_eq ts t k').
  rewrite !psum_insert_new by (by rewrite lookup_delete_eq). lia.
Qed.

Lemma psum_bounds ts :
  map_Forall task_ok ts -> 0 <= psum ts <= RHINO_CONFIG_PRI_MAX * Z.of_nat (size ts).
Proof.
  unfold RHINO_CONFIG_PRI_MAX. induction ts as [|t k ts Ht IH] using map_ind; intros Hok.
  - unfold psum. rewrite map_fold_empty, map_size_empty. lia.
  - apply map_Forall_insert in Hok as [Hk Hok]; [|done]. rewrite psum_insert_new, map_size_insert_None by done.
    pose proof (to_prio _ _ Hk). unfold RHINO_CONFIG_PRI_MAX in *. specialize (IH Hok). lia.
Qed.

(** Distance to the end of a walk that makes priorities more urgent ([up]) or less. *)
Definition measure (up : bool) s : Z :=
  if up then psum (tasks s) else RHINO_CONFIG_PRI_MAX * Z.of_nat (size (tasks s)) - psum (tasks s).

Definition moves (up : bool) (old new : Z) : Prop := if up then new < old else old < new.

Section Loop.
Context (idle : kenv).

(** The situation before an iteration: everything is in order except that [t] must
    get priority [p]; [X] holds extra waits of tasks that are already as urgent. *)
Record pri_pre (up : bool) (X : Z -> Z -> Prop) t (p : Z) s : Prop := {
  pp_wf : kwf idle s;
  pp_struct : pstruct s;
  pp_prio : pprio X (fun u => u = t) s;
  pp_target : is_targetX X s t p;
  pp_task : exists k, tasks s !! t = Some k /\ is_alive k = true;
  pp_idle : t <> idle;
  pp_moves : moves up (prio (task_of s t)) p;
  pp_extra : forall w u, X w u -> up = true /\ prio (task_of s w) <= p;
}.

(** The equation for a task whose waiters keep their priority. *)
Lemma is_targetX_keep X s s' t k p u q :
  pri_frame s s' -> tasks s' = <[t := k <| prio := p |>]> (tasks s) -> tasks s !! t = Some k ->
  ~ waitsX X s t u -> is_targetX X s u q -> is_targetX X s' u q.
Proof.
  intros F Hts Ht Hw Hu. unfold is_targetX in *.
  rewrite (pri_frame_field b_prio s s' u) by done.
  eapply is_min_ext, Hu.
  - intros w. unfold waitsX. by rewrite (waits_frame s s' w u F).
  - intros w Hw'. unfold task_of. rewrite Hts, lookup_total_insert_ne; [done|]. by intros ->.
Qed.

Lemma task_pri_change_step_eq t p s k :
  tasks s !! t = Some k -> prio k <> p ->
  is_alive k = true ->
  task_pri_change_step t p s =
    let s1 := set_prio t p s in
    if is_pending k then
      let o := blk_obj (task_of s1 t) in
      if decide (obj_type (blk_of s1 o) = RHINO_MUTEX_OBJ_TYPE) then
        let mtask := mutex_task (mutex_of s1 o) in
        if prio (task_of s1 t) <? prio (task_of s1 mtask) then (s1, PriCont mtask p)
        else if prio (task_of s1 mtask) =? prio k then
          let '(np, s2) := mutex_pri_look mtask NULL s1 in
          if negb (np =? prio (task_of s2 mtask)) then (s2, PriCont mtask np) else (s2, PriDone RHINO_SUCCESS)
        else (s1, PriDone RHINO_SUCCESS)
      else (s1, PriDone RHINO_SUCCESS)
    else (s1, PriDone RHINO_SUCCESS).
Proof.
  intros Ht Hp Ha. unfold task_pri_change_step, set_prio, is_pending. rewrite (task_of_Some _ _ _ Ht).
  rewrite (proj2 (Z.eqb_neq _ _) Hp); cbn [negb]. unfold is_alive in Ha. destruct (task_state k); try done.
Qed.

(** One iteration: either the invariant holds everywhere, or the exception has moved
    to the owner of the mutex [t] waits for, in the same direction. *)
Lemma pri_step up X t p s :
  pri_pre up X t p s ->
  let '(s', n) := task_pri_change_step t p s in
  kwf idle s' /\ pri_frame s s' /\ err_log s' = err_log s /\ measure up s' < measure up s /\
  match n with
  | PriDone st => st = RHINO_SUCCESS /\ pstruct s' /\ pprio X (fun _ => False) s'
  | PriCont t' p' => pri_pre up X t' p' s'
  end.
Proof.
  intros [H Hps Hpp Htg (k & Ht & Ha) Hid Hmv HX].
  rewrite (task_of_Some _ _ _ Ht) in Hmv.
  assert (prio k <> p) as Hne by (destruct up; simpl in Hmv; lia).
  assert (0 <= p < RHINO_CONFIG_PRI_MAX) as Hpr by (by eapply is_targetX_range).
  rewrite (task_pri_change_step_eq _ _ _ k) by done. cbv zeta.
  destruct (set_prio_frame idle s t k p H Ht Hid Hpr) as (H1 & F & Hts & Herr).
  set (s1 := set_prio t p s) in *.
  assert (task_of s1 t = k <| prio := p |>) as Et by (unfold task_of; by rewrite Hts, lookup_total_insert_eq).
  assert (forall u, u <> t -> task_of s1 u = task_of s u) as Eu.
  { intros u Hu. unfold task_of. by rewrite Hts, lookup_total_insert_ne. }
  pose proof (pstruct_frame _ _ _ F Hps) as Hps1.
  assert (measure up s1 < measure up s) as Hmeas.
  { unfold measure. rewrite Hts, (psum_update _ _ k), map_size_insert, Ht by done.
    destruct up; simpl in *; lia. }
  assert (~ X t t /\ forall u, X t u -> False) as [_ HXt].
  { split; [intros Hx|intros u Hx]; apply HX in Hx as [-> Hx]; rewrite (task_of_Some _ _ _ Ht) in Hx; simpl in Hmv; lia. }
  assert (forall u k', tasks s1 !! u = Some k' -> is_alive k' = true -> ~ waitsX X s t u ->
            is_targetX X s1 u (prio k')) as Hkeep.
  { intros u k' Hu Hau Hw. destruct (decide (u = t)) as [->|Hut].
    - rewrite Hts, lookup_insert_eq in Hu. injection Hu as <-. by eapply is_targetX_keep.
    - rewrite Hts, lookup_insert_ne in Hu by done. eapply is_targetX_keep; try done. by apply (Hpp u k'). }
  assert ((forall u, ~ waitsX X s t u) -> pprio X (fun _ => False) s1) as Hall.
  { intros Hno u k' Hu Hau _. by apply Hkeep. }
  destruct (is_pending k) eqn:Epend.
  2:{ split_and!; try done. apply Hall. intros u [Hw|Hx]; [|by eapply HXt].
      destruct (waits_pending _ _ _ _ H Hw) as (k' & _ & ? & ? & _). congruence. }
  rewrite Et. change (blk_obj (k <| prio := p |>)) with (blk_obj k). rsimpl.
  case_decide as Emut.
  2:{ split_and!; try done. apply Hall. intros u [Hw|Hx]; [|by eapply HXt].
      destruct (waits_pending _ _ _ _ H Hw) as (k' & m & Hk' & ? & Hm & Ho & _).
      rewrite (pf_type _ _ F) in Emut. congruence. }
  rewrite (pf_type _ _ F) in Emut.
  assert (mutex_task (mutex_of s1 (blk_obj k)) = mutex_task (mutex_of s (blk_obj k))) as ->
    by (unfold mutex_of; by rewrite (pf_mutexes _ _ F)).
  set (mt := mutex_task (mutex_of s (blk_obj k))).
  pose proof (kwf_pending _ _ _ _ _ H Ht Epend eq_refl) as Hin.
  destruct (ps_held Hps _ _ Emut Hin) as [Hmn Hmt]. fold mt in Hmn, Hmt.
  assert (owner s (blk_obj k) mt) as Ho by done.
  assert (waits s t mt) as Hwt by (by exists (blk_obj k)).
  assert (forall u, waitsX X s t u -> u = mt) as Huniq.
  { intros u [Hw|Hx]; [|by destruct (HXt _ Hx)].
    destruct (waits_pending _ _ _ _ H Hw) as (k' & m & Hk' & _ & Hm & Hou).
    rewrite Ht in Hk'. injection Hk' as <-. rewrite Hm in Ho. by eapply owner_unique. }
  destruct (ps_owner Hps _ _ Ho) as (km & Hkm & Ham & _).
  assert (mt <> idle) as Hmi by (apply (kw_idle_free H)).
  pose proof (Hpp mt km Hkm Ham Hmt) as Htm. rewrite <- (task_of_Some _ _ _ Hkm) in Htm.
  assert (pprio X (fun u => u = mt) s1) as Hpp1.
  { intros u k' Hu Hau Hum. apply Hkeep; [done..|]. intros Hw. by apply Huniq in Hw. }
  assert (exists k', tasks s1 !! mt = Some k' /\ is_alive k' = true) as Hex.
  { eexists. rewrite Hts, lookup_insert_ne by auto. eauto. }
  assert (forall w, waitsX X s1 w mt <-> waitsX X s w mt) as Hwx.
  { intros w. unfold waitsX. by rewrite (waits_frame s s1 w mt F). }
  rewrite (Eu mt) by done.
  assert (is_targetX X s1 mt (prio (task_of s mt)) -> pprio X (fun _ => False) s1) as Hdone.
  { intros Htg' u k' Hu Hau _. destruct (decide (u = mt)) as [->|Hum]; [|by apply Hpp1].
    rewrite Hts, lookup_insert_ne, Hkm in Hu by auto. injection Hu as <-.
    by rewrite (task_of_Some _ _ _ Hkm) in Htg'. }
  destruct Htm as (Hmb & Hmw & Hmex).
  assert (prio (task_of s mt) <= prio k) as Hmk.
  { rewrite <- (task_of_Some _ _ _ Ht). apply Hmw. by left. }
  assert (b_prio (task_of s1 mt) = b_prio (task_of s mt)) as Ebm by (by rewrite Eu).
  assert (forall w u, X w u -> up = true /\ prio (task_of s1 w) <= p) as HX1.
  { intros w u Hx. destruct (HX _ _ Hx) as [-> Hle]. split; [done|].
    destruct (decide (w = t)) as [->|]; [rewrite Et; simpl; lia|by rewrite Eu]. }
  destruct (Z.ltb_spec p (prio (task_of s mt))) as [Hlt|Hge].
  - split_and!; try done. split; try done.
    + unfold is_targetX. rewrite Ebm. split_and!; [lia| |].
      * intros w Hw%Hwx. destruct (decide (w = t)) as [->|Hwt']; [rewrite Et; simpl; lia|].
        rewrite Eu by done. specialize (Hmw _ Hw). lia.
      * right. exists t. split; [apply Hwx; by left|by rewrite Et].
    + rewrite Eu by done. destruct up; simpl in *; lia.
  - destruct (Z.eqb_spec (prio (task_of s mt)) (prio k)) as [Heq|Hneq].
    + assert (up = false) as -> by (destruct up; simpl in *; [lia|done]).
      assert (forall w u, ~ X w u) as Hnox by (intros w u Hx; by destruct (HX _ _ Hx)).
      destruct Hex as (k' & Hk' & Ha').
      destruct (mutex_pri_look_null idle s1 mt k' H1 Hps1 Hk' Ha') as (r & -> & Hr).
      assert (is_targetX X s1 mt r) as HrX.
      { eapply is_min_ext, Hr; [|done]. intros w. unfold waitsX. specialize (Hnox w mt). tauto. }
      rewrite (Eu mt) by done. destruct (Z.eqb_spec r (prio (task_of s mt))) as [->|Hrne]; cbn [negb].
      * split_and!; try done. by apply Hdone.
      * split_and!; try done. split; try done; [by eauto| |by intros w u ?%Hnox].
        rewrite Eu by done. simpl. simpl in Hmv. destruct HrX as (Hrb & Hrw & [Hrx|(w & Hw & Hrx)]).
        -- rewrite Ebm in Hrx. lia.
        -- destruct (decide (w = t)) as [->|Hwt']; [rewrite Et in Hrx; simpl in Hrx; lia|].
           rewrite Eu in Hrx by done. apply Hwx in Hw. specialize (Hmw _ Hw). lia.
    + split_and!; try done. apply Hdone. unfold is_targetX. rewrite Ebm. split_and!; [done| |].
      * intros w Hw%Hwx. destruct (decide (w = t)) as [->|Hwt']; [rewrite Et; simpl; lia|].
        rewrite Eu by done. auto.
      * destruct Hmex as [?|(w & Hw & Hpw)]; [by left|right]. exists w. split; [by apply Hwx|].
        rewrite Eu; [done|]. intros ->. rewrite (task_of_Some _ _ _ Ht) in Hpw. lia.
Qed.
(** The [do ... while] loop without a bound on the number of iterations. *)
Inductive pri_run : Z -> Z -> kstate -> kstat_t -> kstate -> Prop :=
| pri_run_done t p s s' st : task_pri_change_step t p s = (s', PriDone st) -> pri_run t p s st s'
| pri_run_cont t p s s1 t' p' st s' :
    task_pri_change_step t p s = (s1, PriCont t' p') -> pri_run t' p' s1 st s' -> pri_run t p s st s'.

Lemma pri_loop up X n t p s :
  pri_pre up X t p s -> measure up s < Z.of_nat n ->
  let '(st, s') := task_pri_change_loop n t p s in
  pri_run t p s st s' /\ st = RHINO_SUCCESS /\ kwf idle s' /\ pri_frame s s' /\ err_log s' = err_log s /\
  pstruct s' /\ pprio X (fun _ => False) s'.
Proof.
  revert t p s. induction n as [|n IH]; intros t p s Hpre Hn.
  - exfalso. pose proof (psum_bounds _ (kw_tasks (pp_wf _ _ _ _ _ Hpre))). unfold measure in Hn. destruct up; lia.
  - cbn [task_pri_change_loop]. pose proof (pri_step _ _ _ _ _ Hpre) as Hs.
    destruct (task_pri_change_step t p s) as [s1 [t' p'|st]] eqn:E; destruct Hs as (H1 & F1 & E1 & M1 & Hs).
    + specialize (IH t' p' s1 Hs ltac:(lia)). destruct (task_pri_change_loop n t' p' s1) as [st s'].
      destruct IH as (R & -> & H2 & F2 & E2 & ? & ?). split_and!; try done.
      * by eapply pri_run_cont.
      * by etrans.
      * congruence.
    + destruct Hs as (-> & ? & ?). split_and!; try done. by apply pri_run_done.
Qed.

Lemma measure_fuel up s : kwf idle s -> measure up s < Z.of_nat (pri_fuel s).
Proof.
  intros H. pose proof (psum_bounds _ (kw_tasks H)). unfold measure, pri_fuel, RHINO_CONFIG_PRI_MAX in *.
  destruct up; lia.
Qed.

(** [task_pri_change] re-establishes the protocol from a state in which only [t] is
    out of order. *)
Lemma task_pri_change_spec X t p s k :
  kwf idle s -> pstruct s -> pprio X (fun u => u = t) s -> is_targetX X s t p ->
  tasks s !! t = Some k -> is_alive k = true -> t <> idle ->
  (forall w u, X w u -> p <= prio k /\ prio (task_of s w) <= p) ->
  let '(st, s') := task_pri_change t p s in
  pri_run t p s st s' /\ st = RHINO_SUCCESS /\ kwf idle s' /\ pri_frame s s' /\ err_log s' = err_log s /\
  pstruct s' /\ pprio X (fun _ => False) s'.
Proof.
  intros H Hps Hpp Htg Ht Ha Hid HX. unfold task_pri_change.
  destruct (decide (prio k = p)) as [<-|Hne].
  - assert (task_pri_change_step t (prio k) s = (s, PriDone RHINO_SUCCESS)) as E.
    { unfold task_pri_change_step. by rewrite (task_of_Some _ _ _ Ht), Z.eqb_refl. }
    unfold pri_fuel. cbn [task_pri_change_loop]. rewrite E. split_and!; try done; [by apply pri_run_done|].
    intros u ku Hu Hau _. destruct (decide (u = t)) as [->|]; [|by apply Hpp]. congruence.
  - apply (pri_loop (bool_decide (p < prio k)) X); [|by apply measure_fuel].
    split; try done; [by eauto| |].
    + rewrite (task_of_Some _ _ _ Ht). case_bool_decide; simpl; lia.
    + intros w u Hx. apply HX in Hx as [? ?]. rewrite bool_decide_true by lia. done.
Qed.

Lemma pprio_none D s : pprio no_extra D s <->
  forall t k, tasks s !! t = Some k -> is_alive k = true -> ~ D t -> is_target s t (prio k).
Proof.
  unfold pprio. split; intros Hp t k Ht Ha HD; apply is_targetX_none; auto.
Qed.

(** [mutex_release] with no mutex to unlink repairs the priority of one task. *)
Lemma mutex_release_null_spec t s k :
  kwf idle s -> pstruct s -> pprio no_extra (fun u => u = t) s ->
  tasks s !! t = Some k -> is_alive k = true -> t <> idle ->
  kwf idle (mutex_release t NULL s) /\ pri_frame s (mutex_release t NULL s) /\
  err_log (mutex_release t NULL s) = err_log s /\ pinv (mutex_release t NULL s).
Proof.
  intros H Hps Hpp Ht Ha Hid. unfold mutex_release.
  destruct (mutex_pri_look_null idle s t k H Hps Ht Ha) as (r & -> & Hr).
  rewrite (task_of_Some _ _ _ Ht). destruct (Z.eqb_spec r (prio k)) as [->|Hne]; cbn [negb].
  - split_and!; try done. split; [done|]. apply pprio_none. intros u ku Hu Hau _.
    destruct (decide (u = t)) as [->|]; [|by apply Hpp]. rewrite Ht in Hu. injection Hu as <-.
    by apply is_targetX_none.
  - pose proof (task_pri_change_spec no_extra t r s k H Hps Hpp) as Hs.
    destruct (task_pri_change t r s) as [st s']. simpl.
    destruct Hs as (_ & _ & H' & F & E & Hps' & Hpp'); try done; [by apply is_targetX_none|].
    split_and!; try done. split; [done|]. by apply pprio_none.
Qed.
End Loop.
