(* ===== verification/KInv.v ===== *)
(** * The kernel invariant

    [kbody] joins the list invariant, the priority-inheritance protocol and the
    object invariant (tasks only wait for objects that have nothing to offer: a
    semaphore without units, an empty queue).  [schedok] says that, outside
    interrupts and with the scheduler unlocked, the running task is the preferred
    ready task.  [kinv] is their conjunction, which every kernel call preserves
    ([Reach]).  This file proves it for the building blocks the calls share. *)
From S2P Require Import Prelude Bitmap KTypes RunQueue RingBuf Kernel Pend Invariant InvPend PriInherit.
Local Open Scope Z_scope.

Implicit Types (s : kstate) (t u w m o : Z) (k : ktask_t).

(** ** Objects *)

(** The object at [o] has nothing to hand out, so that waiting for it makes sense. *)
Definition obj_quiet s o : Prop :=
  match obj_type (blk_of s o) with
  | RHINO_OBJ_TYPE_NONE => False
  | RHINO_SEM_OBJ_TYPE => ~ 0 < count (sem_of s o)
  | RHINO_QUEUE_OBJ_TYPE => ~ 0 < q_cur_num (queues s !!! o)
  | RHINO_BUF_QUEUE_OBJ_TYPE => ringbuf_is_empty (bq_ringbuf (buf_queues s !!! o)) = true
  | _ => True
  end.

(** [D] are objects under destruction. *)
Definition objinv (D : Z -> Prop) s : Prop :=
  forall o, ~ D o -> blk_list (blk_of s o) <> [] -> obj_quiet s o.

(** ** The invariant *)
Record kbody (idle : kenv) (D : Z -> Prop) s : Prop := {
  kb_wf : kwf idle s;
  kb_pi : pinv s;
  kb_obj : objinv D s;
  kb_null : obj_type (blk_of s NULL) = RHINO_OBJ_TYPE_NONE;
  kb_lock : 0 <= g_sched_lock s <= SCHED_MAX_LOCK_COUNT;
  kb_nest : 0 <= g_intrpt_nested_level s <= RHINO_CONFIG_INTRPT_MAX_NESTED_LEVEL;
  kb_locked : g_sys_stat s = RHINO_RUNNING -> 0 < g_sched_lock s ->
    task_state (task_of s (g_active_task s)) = K_RDY;
}.
Arguments kb_wf {_ _ _} _.
Arguments kb_pi {_ _ _} _.
Arguments kb_obj {_ _ _} _.
Arguments kb_null {_ _ _} _.
Arguments kb_lock {_ _ _} _.
Arguments kb_nest {_ _ _} _.
Arguments kb_locked {_ _ _} _.

Definition schedok s : Prop :=
  g_sys_stat s = RHINO_RUNNING -> g_intrpt_nested_level s = 0 -> g_sched_lock s = 0 ->
  g_active_task s = preferred_cpu_ready_task_get (g_ready_queue s).

Definition kinv (idle : kenv) s : Prop := kbody idle none s /\ schedok s.

(** ** Changes outside the invariant's view *)
Record same_view s s' : Prop := {
  sv_tasks : tasks s' = tasks s;
  sv_blk : blk_objs s' = blk_objs s;
  sv_mutexes : mutexes s' = mutexes s;
  sv_rq : g_ready_queue s' = g_ready_queue s;
  sv_th : g_tick_head s' = g_tick_head s;
  sv_now : g_tick_count s' = g_tick_count s;
  sv_err : err_log s' = err_log s;
  sv_sys : g_sys_stat s' = g_sys_stat s;
  sv_lock : g_sched_lock s' = g_sched_lock s;
  sv_nest : g_intrpt_nested_level s' = g_intrpt_nested_level s;
  sv_active : g_active_task s' = g_active_task s;
}.

Lemma pinv_same D s s' :
  tasks s' = tasks s -> blk_objs s' = blk_objs s -> mutexes s' = mutexes s -> pinvD D s -> pinvD D s'.
Proof.
  destruct s, s'; simpl. intros -> -> -> [[Hc Ho Hh Hp] Hpr]. split; [split|].
  - exact Hc.
  - exact Ho.
  - exact Hh.
  - exact Hp.
  - exact Hpr.
Qed.

Lemma kbody_same idle D s s' :
  same_view s s' -> (forall o, blk_list (blk_of s o) <> [] -> obj_quiet s o -> obj_quiet s' o) ->
  kbody idle D s -> kbody idle D s'.
Proof.
  intros [Et Eb Em Er Eh En Ee Es El Ei Ea] Hq [H Hpi Hobj Hnull Hlock Hnest Hl].
  split; unfold blk_of, task_of; rewrite ?Eb, ?Et, ?Es, ?El, ?Ei, ?Ea; try done.
  - unfold kwf. by rewrite Et, Eb, Em, Er, Eh, En, Ee.
  - by apply (pinv_same none s).
  - intros o HD. unfold blk_of. rewrite Eb. intros Hne. by apply Hq, Hobj.
Qed.

Lemma schedok_same s s' :
  g_sys_stat s' = g_sys_stat s -> g_intrpt_nested_level s' = g_intrpt_nested_level s ->
  g_sched_lock s' = g_sched_lock s -> g_active_task s' = g_active_task s -> g_ready_queue s' = g_ready_queue s ->
  schedok s -> schedok s'.
Proof. unfold schedok. intros -> -> -> -> ->. done. Qed.

Lemma kbody_mask idle D s b : kbody idle D s -> kbody idle D (s <| intrpt_masked := b |>).
Proof. by apply kbody_same. Qed.
Lemma kbody_pref idle D s t : kbody idle D s -> kbody idle D (s <| g_preferred_ready_task := t |>).
Proof. by apply kbody_same. Qed.
Lemma kbody_kobj idle D s f : kbody idle D s -> kbody idle D (s <| g_kobj_list ::= f |>).
Proof. by apply kbody_same. Qed.
Lemma schedok_mask s b : schedok s -> schedok (s <| intrpt_masked := b |>).
Proof. by apply schedok_same. Qed.
#[export] Hint Resolve kbody_mask kbody_pref kbody_kobj schedok_mask : rhino.

(** ** Facts about the running task *)
Lemma kwf_preferred idle s :
  kwf idle s -> exists k, tasks s !! preferred_cpu_ready_task_get (g_ready_queue s) = Some k /\
    task_state k = K_RDY /\ forall t k', tasks s !! t = Some k' -> task_state k' = K_RDY -> prio k <= prio k'.
Proof.
  intros H. destruct (preferred_highest _ _ (kw_rq H)) as (p & Hp & Hmin).
  { intros E. pose proof (kw_idle H) as Hi. by rewrite E in Hi. }
  apply abs_Some in Hp as (k & Hk & [Hr <-]%rdy_prio_Some). exists k. split_and!; [done..|].
  intros t k' Ht Hr'. eapply Hmin, kwf_ready; done.
Qed.

Lemma kinv_active idle s :
  kinv idle s -> g_sys_stat s = RHINO_RUNNING -> g_intrpt_nested_level s = 0 \/ 0 < g_sched_lock s ->
  exists k, tasks s !! g_active_task s = Some k /\ task_state k = K_RDY.
Proof.
  intros [Hb Hs] Hrun Hor. destruct (decide (0 < g_sched_lock s)) as [Hl|Hl].
  - pose proof (kb_locked Hb Hrun Hl) as Hr. unfold task_of in Hr. rewrite lookup_total_alt in Hr.
    destruct (tasks s !! g_active_task s) as [k|]; [by exists k|done].
  - pose proof (kb_lock Hb). rewrite Hs by (try done; lia).
    destruct (kwf_preferred _ _ (kb_wf Hb)) as (k & ? & ? & _). by exists k.
Qed.

(** ** Leaving a critical section *)
Lemma cpu_task_switch_kbody idle D s :
  kbody idle D s -> g_sched_lock s = 0 -> kbody idle D (cpu_task_switch s).
Proof.
  intros [H Hpi Hobj Hnull Hlock Hnest Hl] Hl0. split; try done.
  - by apply (pinv_same none s).
  - unfold cpu_task_switch; rsimpl. lia.
Qed.

Lemma core_sched_kinv idle s : kbody idle none s -> kinv idle (core_sched s).
Proof.
  intros Hb. unfold core_sched, RHINO_CPU_INTRPT_DISABLE, RHINO_CPU_INTRPT_ENABLE.
  pose proof (kb_nest Hb). pose proof (kb_lock Hb). rsimpl.
  destruct (Z.ltb_spec 0 (g_intrpt_nested_level s)).
  { split; [auto with rhino|]. intros ? Hn. rsimpl_in Hn. lia. }
  destruct (Z.ltb_spec 0 (g_sched_lock s)).
  { split; [auto with rhino|]. intros ? ? Hn. rsimpl_in Hn. lia. }
  destruct (Z.eqb_spec (preferred_cpu_ready_task_get (g_ready_queue s)) (g_active_task s)) as [E|E].
  - split; [auto with rhino|]. intros _ _ _. rsimpl. by rewrite E.
  - split; [|done]. apply kbody_mask, cpu_task_switch_kbody; [auto with rhino|]. rsimpl. lia.
Qed.

Lemma exit_sched_kinv idle s b : kbody idle none s -> kinv idle (RHINO_CRITICAL_EXIT_SCHED b s).
Proof. intros Hb. apply core_sched_kinv. by apply kbody_mask. Qed.

Lemma exit_kinv idle s b : kbody idle none s -> schedok s -> kinv idle (RHINO_CRITICAL_EXIT b s).
Proof. intros Hb Hs. split; [by apply kbody_mask|by apply schedok_mask]. Qed.

Lemma kinv_mask idle s b : kinv idle s -> kinv idle (s <| intrpt_masked := b |>).
Proof. intros [Hb Hs]. by apply exit_kinv. Qed.
#[export] Hint Resolve exit_sched_kinv exit_kinv kinv_mask : rhino.

(** ** Changes that no mutex notices *)

(** What the protocol sees of a task. *)
Definition pview k : option (Z * Z * Z) := if is_alive k then Some (prio k, b_prio k, mutex_list k) else None.
Definition tview s t : option (Z * Z * Z) := tasks s !! t ≫= pview.

Record mutex_view s s' : Prop := {
  mv_tasks : forall t, tview s' t = tview s t;
  mv_mutexes : forall o, mutex_task (mutex_of s' o) = mutex_task (mutex_of s o) /\
    mutex_next (mutex_of s' o) = mutex_next (mutex_of s o);
  mv_type : forall o, obj_type (blk_of s' o) = RHINO_MUTEX_OBJ_TYPE <-> obj_type (blk_of s o) = RHINO_MUTEX_OBJ_TYPE;
  mv_list : forall o, obj_type (blk_of s o) = RHINO_MUTEX_OBJ_TYPE ->
    blk_list (blk_of s' o) = blk_list (blk_of s o) /\ blk_policy (blk_of s' o) = blk_policy (blk_of s o);
}.

Lemma tview_Some s t k : tasks s !! t = Some k -> is_alive k = true -> tview s t = Some (prio k, b_prio k, mutex_list k).
Proof. intros Ht Ha. unfold tview, pview. by rewrite Ht; simpl; rewrite Ha. Qed.

Lemma tview_inv s t v :
  tview s t = Some v -> exists k, tasks s !! t = Some k /\ is_alive k = true /\ v = (prio k, b_prio k, mutex_list k).
Proof.
  unfold tview, pview. destruct (tasks s !! t) as [k|]; simpl; [|done]. destruct (is_alive k) eqn:E; [|done].
  intros [= <-]. by exists k.
Qed.

Lemma is_pending_alive k : is_pending k = true -> is_alive k = true.
Proof. unfold is_pending, is_alive. by destruct (task_state k). Qed.

Section MutexView.
Context (idle : kenv) (s s' : kstate) (H : kwf idle s) (V : mutex_view s s').

Lemma mv_task t k' : tasks s' !! t = Some k' -> is_alive k' = true ->
  exists k, tasks s !! t = Some k /\ is_alive k = true /\ prio k' = prio k /\ b_prio k' = b_prio k /\
    mutex_list k' = mutex_list k.
Proof.
  intros Ht Ha. pose proof (tview_Some _ _ _ Ht Ha) as E. rewrite (mv_tasks _ _ V) in E.
  apply tview_inv in E as (k & Hk & Hak & [= -> -> ->]). by exists k.
Qed.

Lemma mv_task' t k : tasks s !! t = Some k -> is_alive k = true ->
  exists k', tasks s' !! t = Some k' /\ is_alive k' = true /\ prio k' = prio k /\ b_prio k' = b_prio k /\
    mutex_list k' = mutex_list k.
Proof.
  intros Ht Ha. pose proof (tview_Some _ _ _ Ht Ha) as E. rewrite <- (mv_tasks _ _ V) in E.
  apply tview_inv in E as (k' & Hk & Hak & [= -> -> ->]). by exists k'.
Qed.

Lemma mv_owner m t : owner s' m t <-> owner s m t.
Proof. unfold owner. by rewrite (mv_type _ _ V), (proj1 (mv_mutexes _ _ V m)). Qed.

Lemma mv_waits w t : waits s' w t <-> waits s w t.
Proof.
  unfold waits. split; intros (m & Ho & Hin); exists m.
  - apply mv_owner in Ho. split; [done|]. by rewrite <- (proj1 (mv_list _ _ V m (proj1 Ho))).
  - split; [by apply mv_owner|]. by rewrite (proj1 (mv_list _ _ V m (proj1 Ho))).
Qed.

Lemma mv_prio w t : waits s w t -> prio (task_of s' w) = prio (task_of s w).
Proof.
  intros Hw. destruct (waits_pending _ _ _ _ H Hw) as (k & m & Hk & Hp & _).
  destruct (mv_task' _ _ Hk (is_pending_alive _ Hp)) as (k' & Hk' & _ & E & _).
  by rewrite (task_of_Some _ _ _ Hk), (task_of_Some _ _ _ Hk').
Qed.

Lemma mv_is_target t k p : tasks s !! t = Some k -> is_alive k = true -> is_target s t p -> is_target s' t p.
Proof.
  intros Ht Ha Hp. destruct (mv_task' _ _ Ht Ha) as (k' & Hk' & _ & _ & E & _). unfold is_target in *.
  rewrite (task_of_Some _ _ _ Hk'), E, <- (task_of_Some _ _ _ Ht).
  eapply is_min_ext, Hp; [intros w; by rewrite mv_waits|]. intros w Hw. symmetry. exact (mv_prio _ _ Hw).
Qed.

Lemma mv_pstruct D : pstructD D s -> pstructD D s'.
Proof.
  intros Hps. split.
  - intros t k' Ht Ha HD. destruct (mv_task _ _ Ht Ha) as (k & Hk & Hak & _ & _ & Em).
    destruct (ps_chain Hps _ _ Hk Hak HD) as (l & Hc & Hd & Hel). exists l. split_and!; [|done|].
    + rewrite (task_of_Some _ _ _ Ht), Em. rewrite (task_of_Some _ _ _ Hk) in Hc.
      eapply chain_ext, Hc. intros o _. apply (mv_mutexes _ _ V).
    + intros m. by rewrite Hel, mv_owner.
  - intros m t Ho%mv_owner. destruct (ps_owner Hps _ _ Ho) as (k & Hk & Ha & HD).
    destruct (mv_task' _ _ Hk Ha) as (k' & ? & ? & _). by exists k'.
  - intros m w Hm%(mv_type _ _ V). rewrite (proj1 (mv_list _ _ V m Hm)), (proj1 (mv_mutexes _ _ V m)).
    by apply Hps.
  - intros m Hm%(mv_type _ _ V). rewrite (proj2 (mv_list _ _ V m Hm)). by apply Hps.
Qed.

Lemma mv_pinv D : pinvD D s -> pinvD D s'.
Proof.
  intros [Hps Hp]. split; [by apply mv_pstruct|]. intros t k' Ht Ha HD.
  destruct (mv_task _ _ Ht Ha) as (k & Hk & Hak & -> & _). eapply mv_is_target; eauto.
Qed.
End MutexView.

(** One control block changes in fields the protocol does not see. *)
Lemma tview_insert s s' t k k' :
  tasks s !! t = Some k -> tasks s' = <[t := k']> (tasks s) -> pview k' = pview k ->
  forall u, tview s' u = tview s u.
Proof.
  intros Ht E Hv u. unfold tview. rewrite E, lookup_insert. case_decide; subst; [by rewrite Ht|done].
Qed.

(** ** Waking and blocking on objects that are not mutexes *)
Lemma pview_unpend st k : is_pending k = true -> pview (unpend st k) = pview k.
Proof.
  intros Hp. unfold pview. rewrite (is_pending_alive _ Hp). unfold is_alive; simpl. by case_decide.
Qed.

Lemma pend_end_mutex_view idle s t k st :
  kwf idle s -> tasks s !! t = Some k -> is_pending k = true ->
  obj_type (blk_of s (blk_obj k)) <> RHINO_MUTEX_OBJ_TYPE -> mutex_view s (pend_end st t s).
Proof.
  intros H Ht Hp Hty. rewrite (pend_end_eq idle _ _ k) by done. split; unfold blk_of; rsimpl.
  - eapply tview_insert; [done|done|]. by apply pview_unpend.
  - done.
  - intros o. by rewrite rm_from_lookup.
  - intros o Ho. rewrite rm_from_lookup; simpl. split; [|done]. apply remove_addr_not_in. intros Hin.
    destruct (kwf_blocked _ _ _ _ H Hin) as (k' & Hk' & _ & <-). apply Hty; rewrite Ht in Hk'; injection Hk' as <-; exact Ho.
Qed.

Lemma objinv_mono D s s' :
  (forall o, blk_list (blk_of s' o) <> [] -> blk_list (blk_of s o) <> []) ->
  (forall o, ~ D o -> blk_list (blk_of s' o) <> [] -> obj_quiet s o -> obj_quiet s' o) -> objinv D s -> objinv D s'.
Proof. intros Hl Hq Ho o HD Hne. apply Hq; auto. Qed.

Lemma obj_quiet_ext s s' o :
  obj_type (blk_of s' o) = obj_type (blk_of s o) -> sems s' = sems s -> queues s' = queues s ->
  buf_queues s' = buf_queues s -> obj_quiet s o -> obj_quiet s' o.
Proof. unfold obj_quiet, sem_of. intros -> -> -> ->. done. Qed.

Lemma remove_addr_nonempty t l : remove_addr t l <> [] -> l <> [].
Proof. by intros ? ->. Qed.

Lemma pend_end_objinv idle D s t k st :
  kwf idle s -> tasks s !! t = Some k -> is_pending k = true -> objinv D s -> objinv D (pend_end st t s).
Proof.
  intros H Ht Hp. rewrite (pend_end_eq idle _ _ k) by done. apply objinv_mono; unfold blk_of; rsimpl.
  - intros o. rewrite rm_from_lookup; simpl. apply remove_addr_nonempty.
  - intros o _ _. apply obj_quiet_ext; try done. unfold blk_of; rsimpl. by rewrite rm_from_lookup.
Qed.

Lemma ready_not_pending k : task_state k = K_RDY -> is_pending k = false.
Proof. unfold is_pending. by intros ->. Qed.

(** A task other than the running one moves; the running task keeps its state. *)
Lemma kb_locked_insert s s' t k k' :
  tasks s !! t = Some k -> tasks s' = <[t := k']> (tasks s) ->
  g_sys_stat s' = g_sys_stat s -> g_sched_lock s' = g_sched_lock s -> g_active_task s' = g_active_task s ->
  (task_state k = K_RDY -> 0 < g_sched_lock s -> t = g_active_task s -> task_state k' = K_RDY) ->
  (g_sys_stat s = RHINO_RUNNING -> 0 < g_sched_lock s -> task_state (task_of s (g_active_task s)) = K_RDY) ->
  (g_sys_stat s' = RHINO_RUNNING -> 0 < g_sched_lock s' -> task_state (task_of s' (g_active_task s')) = K_RDY).
Proof.
  intros Ht E -> -> -> Hk Hl Hr Hlock. specialize (Hl Hr Hlock). unfold task_of in *. rewrite E.
  destruct (decide (g_active_task s = t)) as [Eq|]; [|by rewrite lookup_total_insert_ne].
  rewrite Eq, lookup_total_insert_eq. rewrite Eq, (lookup_total_Some _ _ _ Ht) in Hl. auto.
Qed.

Lemma pend_end_kbody idle D s t o st :
  kbody idle D s -> t ∈ blk_list (blk_of s o) -> obj_type (blk_of s o) <> RHINO_MUTEX_OBJ_TYPE ->
  kbody idle D (pend_end st t s).
Proof.
  intros [H Hpi Hobj Hnull Hlock Hnest Hl] Hin Hty.
  destruct (kwf_blocked _ _ _ _ H Hin) as (k & Ht & Hp & <-).
  pose proof (pend_end_mutex_view idle s t k st H Ht Hp Hty) as V.
  split; [by eapply pend_end_kwf|by eapply mv_pinv|by eapply pend_end_objinv|..];
    rewrite (pend_end_eq idle _ _ k) by done; try done.
  - unfold blk_of; rsimpl. by rewrite rm_from_lookup.
  - eapply (kb_locked_insert s _ t k); try done. intros Hr%ready_not_pending. congruence.
Qed.

(** One task moves without any mutex noticing; lists may shrink, or grow on a quiet
    object. *)
Lemma kbody_move idle D s s' t k k' :
  kbody idle D s -> kwf idle s' -> kframe s s' -> mutexes s' = mutexes s ->
  tasks s !! t = Some k -> tasks s' = <[t := k']> (tasks s) -> pview k' = pview k ->
  (forall o, obj_type (blk_of s' o) = obj_type (blk_of s o) /\ blk_policy (blk_of s' o) = blk_policy (blk_of s o)) ->
  (forall o, obj_type (blk_of s o) = RHINO_MUTEX_OBJ_TYPE -> blk_list (blk_of s' o) = blk_list (blk_of s o)) ->
  (forall o, blk_list (blk_of s' o) <> [] -> blk_list (blk_of s o) <> [] \/ obj_quiet s o) ->
  (task_state k = K_RDY -> 0 < g_sched_lock s -> t = g_active_task s -> task_state k' = K_RDY) ->
  kbody idle D s'.
Proof.
  intros [H Hpi Hobj Hnull Hlock Hnest Hl] H' F Hm Ht Hts Hv Hty Hml Hne Hk.
  destruct F. split; try done; try congruence.
  - eapply (mv_pinv idle s); [done| |done]. split; [by eapply tview_insert|intros o; unfold mutex_of; by rewrite Hm| |].
    + intros o. by rewrite (proj1 (Hty o)).
    + intros o Ho. split; [by apply Hml|apply Hty].
  - intros o HD Hno. eapply (obj_quiet_ext s); try done; [apply Hty|].
    destruct (Hne o Hno) as [?|?]; [by apply Hobj|done].
  - by rewrite (proj1 (Hty NULL)).
  - by eapply (kb_locked_insert s s' t k).
Qed.

(** The block lists stay as they are. *)
Lemma kbody_move_task idle D s s' t k k' :
  kbody idle D s -> kwf idle s' -> kframe s s' -> mutexes s' = mutexes s -> blk_objs s' = blk_objs s ->
  tasks s !! t = Some k -> tasks s' = <[t := k']> (tasks s) -> pview k' = pview k ->
  (task_state k = K_RDY -> 0 < g_sched_lock s -> t = g_active_task s -> task_state k' = K_RDY) ->
  kbody idle D s'.
Proof.
  intros Hb H' F Hm Hbl Ht Hts Hv Hk. unfold blk_of.
  eapply (kbody_move idle D s s' t k k'); try done; unfold blk_of; rewrite Hbl; auto.
Qed.

Lemma pend_to_blk_obj_kbody idle D s k o timeout :
  kbody idle D s -> tasks s !! g_active_task s = Some k -> g_active_task s <> idle -> task_state k = K_RDY ->
  u32 timeout -> g_sched_lock s = 0 -> obj_quiet s o -> obj_type (blk_of s o) <> RHINO_MUTEX_OBJ_TYPE ->
  kbody idle D (pend_to_blk_obj o (g_active_task s) timeout s).
Proof.
  intros Hb Ht Hid Hr Hto Hl Hq Hty.
  pose proof (pend_to_blk_obj_kwf idle s _ k o timeout (kb_wf Hb) Ht Hid Hr Hto) as H'.
  rewrite (pend_to_blk_obj_eq idle _ _ k) in * by (done || apply Hb).
  eapply (kbody_move idle D s _ (g_active_task s) k); try done; unfold blk_of; rsimpl; try lia.
  - unfold pview, is_alive. rewrite Hr. unfold pended. by destruct (timed timeout).
  - intros o'. destruct (decide (o = o')) as [<-|]; [rewrite lookup_total_insert_eq|by rewrite lookup_total_insert_ne].
    by unfold linked.
  - intros o' Ho'. rewrite lookup_total_insert_ne; [done|]. by intros <-.
  - intros o'. destruct (decide (o = o')) as [<-|]; [auto|rewrite lookup_total_insert_ne by done; auto].
Qed.

(** ** Waking every waiter of an object *)
Lemma while_blocked_ind (P : kstate -> Prop) n o f s :
  (forall s t r, P s -> blk_list (blk_of s o) = t :: r -> P (f t s) /\ blk_list (blk_of (f t s) o) = r) ->
  P s -> length (blk_list (blk_of s o)) = n ->
  P (while_blocked n o f s) /\ blk_list (blk_of (while_blocked n o f s) o) = [].
Proof.
  intros Hf. revert s. induction n as [|n IH]; intros s Hs Hn; cbn [while_blocked].
  - by apply nil_length_inv in Hn.
  - destruct (blk_list (blk_of s o)) as [|t r] eqn:E; [done|]. simpl in Hn. injection Hn as Hn.
    destruct (Hf s t r Hs E) as [Hs' E']. apply IH; [done|]. by rewrite E'.
Qed.

Lemma wake_all_ind (P : kstate -> Prop) o f s :
  (forall s t r, P s -> blk_list (blk_of s o) = t :: r -> P (f t s) /\ blk_list (blk_of (f t s) o) = r) ->
  P s -> P (wake_all o f s) /\ blk_list (blk_of (wake_all o f s) o) = [].
Proof. intros Hf Hs. by apply while_blocked_ind. Qed.

Lemma pend_end_list idle s t k st o r :
  kwf idle s -> tasks s !! t = Some k -> is_pending k = true ->
  blk_list (blk_of s o) = t :: r -> blk_list (blk_of (pend_end st t s) o) = r.
Proof.
  intros H Ht Hp E. rewrite (pend_end_eq idle _ _ k) by done. unfold blk_of; rsimpl.
  rewrite rm_from_lookup; simpl. unfold blk_of in E. rewrite E. apply remove_addr_head.
  rewrite <- E. apply (br_nodup _ _ _ (kw_blk H)).
Qed.

(** Objects other than tasks and block lists are not touched by a wake-up. *)
Lemma pend_end_frame idle s t k st :
  kwf idle s -> tasks s !! t = Some k -> is_pending k = true ->
  kframe s (pend_end st t s) /\ (forall o, obj_type (blk_of (pend_end st t s) o) = obj_type (blk_of s o)).
Proof.
  intros H Ht Hp. rewrite (pend_end_eq idle _ _ k) by done. split; [by split|].
  intros o. unfold blk_of; rsimpl. by rewrite rm_from_lookup.
Qed.

Lemma wake_all_kbody idle D s o st :
  kbody idle D s -> obj_type (blk_of s o) <> RHINO_MUTEX_OBJ_TYPE ->
  let s' := wake_all o (pend_end st) s in
  kbody idle D s' /\ kframe s s' /\ obj_type (blk_of s' o) = obj_type (blk_of s o) /\ blk_list (blk_of s' o) = [].
Proof.
  intros Hb Hty.
  destruct (wake_all_ind (fun s' => kbody idle D s' /\ kframe s s' /\ obj_type (blk_of s' o) = obj_type (blk_of s o))
    o (pend_end st) s) as ((? & ? & ?) & ?); [|done|done].
  intros s1 t r (Hb1 & F1 & T1) E. assert (t ∈ blk_list (blk_of s1 o)) as Hin by (rewrite E; by left).
  destruct (kwf_blocked _ _ _ _ (kb_wf Hb1) Hin) as (k & Ht & Hp & _).
  destruct (pend_end_frame idle s1 t k st (kb_wf Hb1) Ht Hp) as [F2 T2].
  split; [|by eapply pend_end_list; [apply Hb1|..]].
  split_and!; [eapply pend_end_kbody; [done..|]; congruence|by etrans|congruence].
Qed.

(** ** Object headers *)
Lemma upd_blk_eq s o f : upd_blk o f s = s <| blk_objs := <[o := f (blk_of s o)]> (blk_objs s) |>.
Proof. done. Qed.

Lemma blk_of_upd s o f o' : blk_of (upd_blk o f s) o' = if decide (o = o') then f (blk_of s o) else blk_of s o'.
Proof.
  unfold blk_of, upd_blk; rsimpl. case_decide; subst; [by rewrite lookup_total_insert_eq|by rewrite lookup_total_insert_ne].
Qed.

(** Writing the header of an object that is not a mutex and does not become one. *)
Lemma kbody_header idle (D D' : Z -> Prop) s o f :
  kbody idle D s -> o <> NULL ->
  blk_list (f (blk_of s o)) = blk_list (blk_of s o) ->
  blk_policy (f (blk_of s o)) = blk_policy (blk_of s o) \/ blk_list (blk_of s o) = [] ->
  obj_type (blk_of s o) <> RHINO_MUTEX_OBJ_TYPE -> obj_type (f (blk_of s o)) <> RHINO_MUTEX_OBJ_TYPE ->
  (forall o', D o' -> D' o') -> D' o \/ blk_list (blk_of s o) = [] ->
  kbody idle D' (upd_blk o f s).
Proof.
  intros [H Hpi Hobj Hnull Hlock Hnest Hl] Ho El Ep Ht Ht' HD Hq.
  assert (kwf idle (upd_blk o f s)) as H'.
  { destruct H as [? [Bd Be Bs] ? ? ? ? ? ? ?]. split; try done.
    change (blk_objs (upd_blk o f s)) with (<[o := f (blk_of s o)]> (blk_objs s)).
    split; intros o'; (destruct (decide (o = o')) as [<-|]; [|rewrite lookup_total_insert_ne by done; auto]);
      rewrite lookup_total_insert_eq, El; [apply Bd|apply Be|].
    destruct Ep as [Ep|Ep]; [rewrite Ep; apply Bs|]. intros _. rewrite Ep. constructor. }
  split; try done.
  - eapply (mv_pinv idle s); [done| |done]. split; try done; intros o'; rewrite blk_of_upd; case_decide; subst; try done.
  - intros o' HD' Hne. rewrite blk_of_upd in Hne. unfold obj_quiet. rewrite blk_of_upd. case_decide; subst.
    + rewrite El in Hne. destruct Hq; done.
    + apply Hobj; auto.
  - rewrite blk_of_upd. by rewrite decide_False.
Qed.

(** Destruction is over when no waiter is left. *)
Lemma kbody_finish idle s o : kbody idle (fun x => x = o) s -> blk_list (blk_of s o) = [] -> kbody idle none s.
Proof.
  intros [H Hpi Hobj Hnull Hlock Hnest Hl] E. split; try done.
  intros o' _ Hne. apply Hobj; [|done]. by intros ->.
Qed.

Lemma kbody_none_list idle s o :
  kbody idle none s -> obj_type (blk_of s o) = RHINO_OBJ_TYPE_NONE -> blk_list (blk_of s o) = [].
Proof.
  intros Hb E. destruct (blk_list (blk_of s o)) as [|t r] eqn:El; [done|]. exfalso.
  assert (obj_quiet s o) as Hq by (apply (kb_obj Hb); [by intros []|by rewrite El]).
  unfold obj_quiet in Hq. by rewrite E in Hq.
Qed.
