(* ===== verification/ApiInv.v ===== *)
(** * Kernel calls preserve the kernel invariant: semaphores, queues, events

    One lemma per call.  A call runs in task context, where the caller is not the
    idle task ([task_ctx]), or in an interrupt handler; calls that create an object
    require that the address is not in use. *)
From S2P Require Import Prelude Bitmap KTypes Alloc RunQueue RingBuf Kernel Pend Task Sem Mutex Queue Event.
From S2P Require Import Invariant InvPend PriInherit KInv.
Local Open Scope Z_scope.

Implicit Types (s : kstate) (t u w m o : Z) (k : ktask_t).

(** The kernel is running and a task (not the idle task, which makes no calls) or an
    interrupt handler executes. *)
Definition task_ctx (idle : kenv) s : Prop :=
  g_sys_stat s = RHINO_RUNNING /\ (in_intrpt s = false -> g_active_task s <> idle).

(** The running task, in a call that may block. *)
Lemma running_task idle s :
  kinv idle s -> task_ctx idle s -> in_intrpt s = false ->
  exists k, tasks s !! g_active_task s = Some k /\ task_state k = K_RDY /\ g_active_task s <> idle.
Proof.
  intros Hk [Hrun Hid] Hi. destruct (kinv_active idle s Hk Hrun) as (k & ? & ?).
  - left. unfold in_intrpt in Hi. pose proof (kb_nest (proj1 Hk)). lia.
  - eauto.
Qed.

Lemma kinv_exit idle s b : kinv idle s -> kinv idle (RHINO_CRITICAL_EXIT b s).
Proof. intros [? ?]. by apply exit_kinv. Qed.
#[export] Hint Resolve kinv_exit : rhino.

(** Reporting an error that is not fatal. *)
Lemma kinv_err idle s e : kinv idle s -> e <> RHINO_SYS_FATAL_ERR -> kinv idle (k_err_proc e s).
Proof.
  intros [[H Hpi Hobj Hnull Hlock Hnest Hl] Hs] He. split; [|done]. split; try done.
  - destruct H as [? ? ? ? ? ? ? ? Herr]. split; try done. unfold k_err_proc; rsimpl.
    rewrite elem_of_app, list_elem_of_singleton. naive_solver.
  - by apply (pinv_same none s).
Qed.

(** Enter a critical section: the remaining goals speak of the masked state. *)
Ltac kenter idle s :=
  unfold RHINO_CRITICAL_ENTER, RHINO_CPU_INTRPT_DISABLE; cbv beta iota;
  let s1 := fresh "s1" in
  set (s1 := s <| intrpt_masked := true |>);
  match goal with
  | H : kinv idle s |- _ => let H1 := fresh "Hk1" in assert (kinv idle s1) as H1 by (by apply kinv_mask)
  end.

(** Take the early returns. *)
Ltac kreturn := solve [assumption | apply kinv_exit; assumption | apply kinv_exit, kinv_err; [assumption|discriminate]].
Ltac kif E := match goal with |- context [if ?b then _ else _] => destruct b eqn:E end; cbn [fst snd]; try kreturn.
Ltac kcase := match goal with |- context [if ?b then _ else _] => destruct b end.
(** The object-type test; afterwards the type is known. *)
Ltac ktype H :=
  match goal with
  | |- context [if decide (?a <> ?b) then _ else _] => destruct (decide (a <> b)) as [H|H%dec_stable]
  end; cbn [fst snd]; try kreturn.

(** ** Semaphores *)
Lemma sem_count_ok idle s sem (f : ksem_t -> ksem_t) :
  kinv idle s -> obj_type (blk_of s sem) = RHINO_SEM_OBJ_TYPE ->
  (blk_list (blk_of s sem) <> [] -> ~ 0 < count (sem_of s sem) -> ~ 0 < count (f (sem_of s sem))) ->
  kinv idle (upd_sem sem f s).
Proof.
  intros [Hb Hs] Hty Hf. split; [|by eapply schedok_same, Hs].
  eapply kbody_same, Hb; [by split|]. intros o Hne. unfold obj_quiet, sem_of, upd_sem, blk_of; rsimpl.
  destruct (obj_type (blk_objs s !!! o)) eqn:E; try done.
  destruct (decide (sem = o)) as [->|]; [|by rewrite lookup_total_insert_ne].
  rewrite lookup_total_insert_eq. by apply Hf.
Qed.

(** Every [*_create] initialises the header, fills in the object and publishes its
    type last. *)
Definition header_init (name : Z) (b : blk_obj_t) : blk_obj_t := (blk_obj_init name) <| obj_type := obj_type b |>.

(** A created object before its type is published: [o] is not in use. *)
Definition unpublished idle o s : Prop :=
  kinv idle s /\ blk_list (blk_of s o) = [] /\ obj_type (blk_of s o) = RHINO_OBJ_TYPE_NONE /\ o <> NULL.

Lemma init_unpublished idle s o name :
  kinv idle s -> obj_type (blk_of s o) = RHINO_OBJ_TYPE_NONE -> o <> NULL ->
  unpublished idle o (upd_blk o (header_init name) s).
Proof.
  intros [Hb Hs] Hnone Ho. pose proof (kbody_none_list _ _ _ Hb Hnone) as Hl.
  split_and!; try done; [split|..].
  - apply (kbody_header idle none none); try done; auto; unfold header_init; rsimpl; by rewrite Hnone.
  - by eapply schedok_same, Hs.
  - by rewrite blk_of_upd, decide_True by done.
  - rewrite blk_of_upd, decide_True by done. exact Hnone.
Qed.

(** Filling in the object and registering it. *)
Lemma unpublished_same idle o s s' :
  same_view s s' -> (forall o', o' <> o -> obj_quiet s o' -> obj_quiet s' o') ->
  unpublished idle o s -> unpublished idle o s'.
Proof.
  intros V Hq ([Hb Hs] & Hl & Hty & Ho). pose proof V as [? E ? ? ? ? ? ? ? ? ?].
  split_and!; unfold blk_of; try (rewrite E; done); [|done]. split; [|by eapply schedok_same, Hs].
  eapply kbody_same, Hb; [done|]. intros o' Hne. apply Hq. by intros ->.
Qed.

Lemma publish_kinv idle o ty s :
  unpublished idle o s -> ty <> RHINO_MUTEX_OBJ_TYPE -> kinv idle (set_obj_type o ty s).
Proof.
  intros ([Hb Hs] & Hl & Hty & Ho) Hm. split; [|by eapply schedok_same, Hs].
  apply (kbody_header idle none none); rsimpl; auto; by rewrite Hty.
Qed.

Lemma quiet_upd_sem o o' f s : o' <> o -> obj_quiet s o' -> obj_quiet (upd_sem o f s) o'.
Proof. intros Hne. unfold obj_quiet, sem_of, upd_sem; rsimpl. by rewrite lookup_total_insert_ne by auto. Qed.
Lemma quiet_upd_queue o o' f s : o' <> o -> obj_quiet s o' -> obj_quiet (upd_queue o f s) o'.
Proof. intros Hne. unfold obj_quiet, upd_queue; rsimpl. by rewrite lookup_total_insert_ne by auto. Qed.
Lemma quiet_upd_buf_queue o o' f s : o' <> o -> obj_quiet s o' -> obj_quiet (upd_buf_queue o f s) o'.
Proof. intros Hne. unfold obj_quiet, upd_buf_queue; rsimpl. by rewrite lookup_total_insert_ne by auto. Qed.

Lemma sv_upd_sem o f s : same_view s (upd_sem o f s).
Proof. by split. Qed.
Lemma sv_upd_queue o f s : same_view s (upd_queue o f s).
Proof. by split. Qed.
Lemma sv_upd_buf_queue o f s : same_view s (upd_buf_queue o f s).
Proof. by split. Qed.
Lemma sv_upd_event o f s : same_view s (upd_event o f s).
Proof. by split. Qed.
Lemma sv_mask b s : same_view s (s <| intrpt_masked := b |>).
Proof. by split. Qed.
Lemma sv_kobj f s : same_view s (s <| g_kobj_list ::= f |>).
Proof. by split. Qed.
Lemma quiet_upd_event o o' f s : obj_quiet s o' -> obj_quiet (upd_event o f s) o'.
Proof. done. Qed.
Lemma quiet_mask b o' s : obj_quiet s o' -> obj_quiet (s <| intrpt_masked := b |>) o'.
Proof. done. Qed.
Lemma quiet_kobj f o' s : obj_quiet s o' -> obj_quiet (s <| g_kobj_list ::= f |>) o'.
Proof. done. Qed.

Ltac unpublished_tac :=
  repeat match goal with
  | |- unpublished _ ?o (upd_sem ?o _ ?s) =>
      apply (unpublished_same _ o s); [apply sv_upd_sem|intros; by apply quiet_upd_sem|]
  | |- unpublished _ ?o (upd_queue ?o _ ?s) =>
      apply (unpublished_same _ o s); [apply sv_upd_queue|intros; by apply quiet_upd_queue|]
  | |- unpublished _ ?o (upd_buf_queue ?o _ ?s) =>
      apply (unpublished_same _ o s); [apply sv_upd_buf_queue|intros; by apply quiet_upd_buf_queue|]
  | |- unpublished _ ?o (upd_event ?o _ ?s) =>
      apply (unpublished_same _ o s); [apply sv_upd_event|intros; by apply quiet_upd_event|]
  | |- unpublished _ ?o (set_with intrpt_masked _ ?s) =>
      apply (unpublished_same _ o s); [apply sv_mask|intros; by apply quiet_mask|]
  | |- unpublished _ ?o (set_with g_kobj_list _ ?s) =>
      apply (unpublished_same _ o s); [apply sv_kobj|intros; by apply quiet_kobj|]
  end; apply init_unpublished; [done|done|lia].

Lemma sem_create_kinv idle s sem name cnt flag :
  kinv idle s -> obj_type (blk_of s sem) = RHINO_OBJ_TYPE_NONE -> kinv idle (sem_create sem name cnt flag s).2.
Proof.
  intros Hk Hnone. unfold sem_create. kif E1. kif E2. cbv zeta beta iota. apply publish_kinv; [|done].
  unfold RHINO_CRITICAL_EXIT, RHINO_CPU_INTRPT_ENABLE. unpublished_tac.
Qed.

(** Deletion: unpublish the object, release the waiters. *)
Lemma delete_kbody idle s o :
  kinv idle s -> o <> NULL -> obj_type (blk_of s o) <> RHINO_MUTEX_OBJ_TYPE ->
  kbody idle none (wake_all o pend_task_rm (set_obj_type o RHINO_OBJ_TYPE_NONE s)).
Proof.
  intros [Hb _] Ho Hty. unfold set_obj_type.
  assert (kbody idle (fun x => x = o) (upd_blk o (fun b => b <| obj_type := RHINO_OBJ_TYPE_NONE |>) s)) as Hb1.
  { apply (kbody_header idle none); rsimpl; try done; auto. }
  edestruct (wake_all_kbody idle _ _ o BLK_DEL Hb1) as (Hb2 & _ & _ & El).
  { rewrite blk_of_upd, decide_True by done. done. }
  by eapply kbody_finish.
Qed.

Lemma sem_del_kinv idle s flag sem : kinv idle s -> kinv idle (sem_del_with flag sem s).2.
Proof.
  intros Hk. unfold sem_del_with. kif E1. kenter idle s. kif E2. ktype E3. kif E4.
  apply exit_sched_kinv, kbody_kobj, delete_kbody; [done|lia|by rewrite E3].
Qed.

(** Waking the first or all waiters of an object that is not a mutex. *)
Lemma wake_first_kbody idle s o t r st :
  kinv idle s -> obj_type (blk_of s o) <> RHINO_MUTEX_OBJ_TYPE -> blk_list (blk_of s o) = t :: r ->
  kbody idle none (pend_end st t s).
Proof. intros [Hb _] Hty E. eapply pend_end_kbody; [done| |done]. rewrite E. by left. Qed.

Lemma sem_give_kinv idle s sem all : kinv idle s -> kinv idle (sem_give sem all s).2.
Proof.
  intros Hk. unfold sem_give. kenter idle s. ktype E1.
  assert (obj_type (blk_of s1 sem) <> RHINO_MUTEX_OBJ_TYPE) as Hty by (by rewrite E1).
  destruct (blk_list (blk_of s1 sem)) as [|t r] eqn:El.
  - kif E2. apply kinv_exit.
    assert (kinv idle (upd_sem sem (fun c => c <| count ::= fun n => wrap32 (n + 1) |>) s1)) as Hk2
      by (apply sem_count_ok; [done..|]; by rewrite El).
    kif E3. apply sem_count_ok; try done.
  - apply exit_sched_kinv. destruct all.
    + by apply (wake_all_kbody idle none s1 sem BLK_FINISH (proj1 Hk1)).
    + by eapply (wake_first_kbody idle s1 sem t r BLK_FINISH).
Qed.

Lemma krhino_sem_give_kinv idle s sem : kinv idle s -> kinv idle (krhino_sem_give sem s).2.
Proof. intros Hk. unfold krhino_sem_give. kif E. by apply sem_give_kinv. Qed.

Lemma krhino_sem_give_all_kinv idle s sem : kinv idle s -> kinv idle (krhino_sem_give_all sem s).2.
Proof. intros Hk. unfold krhino_sem_give_all. kif E. by apply sem_give_kinv. Qed.

(** Blocking the caller on an object that has nothing to offer. *)
Lemma block_kinv idle s o ticks b :
  kinv idle s -> task_ctx idle s -> in_intrpt s = false -> (0 <? g_sched_lock s) = false -> u32 ticks ->
  obj_quiet s o -> obj_type (blk_of s o) <> RHINO_MUTEX_OBJ_TYPE ->
  kinv idle (RHINO_CRITICAL_EXIT_SCHED b (pend_to_blk_obj o (g_active_task s) ticks s)).
Proof.
  intros Hk Hc Hi Hl Ht Hq Hty. apply exit_sched_kinv.
  destruct (running_task _ _ Hk Hc Hi) as (k & Hk1 & Hr & Hid). pose proof (kb_lock (proj1 Hk)).
  eapply pend_to_blk_obj_kbody; try done; [apply Hk|lia].
Qed.

Lemma krhino_sem_take_kinv idle s sem ticks :
  kinv idle s -> task_ctx idle s -> u32 ticks -> kinv idle (krhino_sem_take sem ticks s).2.
Proof.
  intros Hk Hc Ht. unfold krhino_sem_take. kif E1. kenter idle s. kif E2. ktype E3. kif E4.
  { apply kinv_exit, sem_count_ok; [done..|]. lia. }
  kif E5. kif E6. apply block_kinv; try done; [|by rewrite E3]. unfold obj_quiet. rewrite E3. lia.
Qed.

Lemma krhino_sem_count_set_kinv idle s sem n :
  kinv idle s -> kinv idle (krhino_sem_count_set sem n s).2.
Proof.
  intros Hk. unfold krhino_sem_count_set. kif E1. kenter idle s. kif E2. ktype E3. kif E4.
  apply kinv_exit.
  assert (kinv idle (upd_sem sem (fun c => c <| count := n |>) s1)) as Hk2.
  { apply sem_count_ok; [done..|]. intros Hne Hc. exfalso. apply andb_false_iff in E4 as [E4|E4].
    - apply negb_false_iff in E4. lia.
    - by rewrite bool_decide_false in E4. }
  kif E5. by apply sem_count_ok.
Qed.

(** ** Message queues *)
Section MsgQueue.
Import MsgQueue.

Lemma queue_upd_ok idle s queue (f : kqueue_t -> kqueue_t) :
  kinv idle s ->
  (blk_list (blk_of s queue) <> [] -> ~ 0 < q_cur_num (queue_of s queue) -> ~ 0 < q_cur_num (f (queue_of s queue))) ->
  kinv idle (upd_queue queue f s).
Proof.
  intros [Hb Hs] Hf. split; [|by eapply schedok_same, Hs].
  eapply kbody_same, Hb; [by split|]. intros o Hne. unfold obj_quiet, sem_of, upd_queue, blk_of; rsimpl.
  destruct (obj_type (blk_objs s !!! o)) eqn:E; try done.
  destruct (decide (queue = o)) as [->|]; [|by rewrite lookup_total_insert_ne].
  rewrite lookup_total_insert_eq. by apply Hf.
Qed.

Lemma queue_create_kinv idle s queue name start num flag mem :
  kinv idle s -> obj_type (blk_of s queue) = RHINO_OBJ_TYPE_NONE ->
  kinv idle (queue_create queue name start num flag mem s).2.
Proof.
  intros Hk Hnone. unfold queue_create. kif E1. kif E2. kif E3. kif E4.
  apply publish_kinv; [|done].
  unfold RHINO_CRITICAL_EXIT, RHINO_CPU_INTRPT_ENABLE. unpublished_tac.
Qed.

Lemma kbody_queue idle s queue f :
  kbody idle none s -> (forall q, q_cur_num (f q) = q_cur_num q) -> kbody idle none (upd_queue queue f s).
Proof.
  intros Hb Hf. eapply kbody_same, Hb; [by split|]. intros o Hne. unfold obj_quiet, upd_queue, blk_of, sem_of; rsimpl.
  destruct (obj_type (blk_objs s !!! o)); try done.
  destruct (decide (queue = o)) as [->|]; [rewrite lookup_total_insert_eq, Hf|rewrite lookup_total_insert_ne by done]; done.
Qed.

Lemma queue_del_kinv idle s flag queue : kinv idle s -> kinv idle (queue_del_with flag queue s).2.
Proof.
  intros Hk. unfold queue_del_with. kif E1. kenter idle s. kif E2. ktype E3. kif E4.
  apply exit_sched_kinv, kbody_queue; [|done]. apply kbody_kobj, delete_kbody; [done|lia|by rewrite E3].
Qed.

(** Handing the message over leaves the protocol's view of the receiver alone. *)
Lemma set_msg_kbody idle D s t k (f : ktask_t -> ktask_t) :
  kbody idle D s -> tasks s !! t = Some k -> t <> idle ->
  task_state (f k) = task_state k -> tick_head (f k) = tick_head k -> tick_match (f k) = tick_match k ->
  blk_obj (f k) = blk_obj k -> suspend_count (f k) = suspend_count k ->
  prio (f k) = prio k -> b_prio (f k) = b_prio k -> mutex_list (f k) = mutex_list k ->
  kbody idle D (upd_task t f s).
Proof.
  intros Hb Ht Hid Es Eth Em Eo Esc Ep Ebp Eml. rewrite (upd_task_eq _ _ k) by done.
  pose proof (kwf_task_ok _ _ _ _ (kb_wf Hb) Ht) as [? Hok1 Hok2 Hok3 Hok4 Hok5 Hok6].
  unfold is_sleeping, is_pending, is_suspended in *.
  eapply (kbody_move_task idle D s _ t k (f k)); try done.
  - eapply (kwf_step idle s _ t k (f k)); try done; [apply Hb|..]; rsimpl.
    + split; unfold is_sleeping, is_pending, is_suspended; rewrite ?Es, ?Eth, ?Em, ?Esc, ?Ep, ?Ebp; try done.
    + constructor. unfold rdy_prio. by rewrite Es, Ep.
    + constructor; [|by left]. unfold pend_on, is_pending. by rewrite Es, Eo.
    + constructor. unfold deadline. by rewrite Eth, Em.
  - unfold pview, is_alive. by rewrite Es, Ep, Ebp, Eml.
  - by rewrite Es.
Qed.

(** [f] fills in message fields of a blocked task before it is woken. *)
Lemma deliver_kbody idle D s o t r f :
  kbody idle D s -> blk_list (blk_of s o) = t :: r -> obj_type (blk_of s o) <> RHINO_MUTEX_OBJ_TYPE ->
  (forall k, task_state (f k) = task_state k /\ tick_head (f k) = tick_head k /\ tick_match (f k) = tick_match k /\
     blk_obj (f k) = blk_obj k /\ suspend_count (f k) = suspend_count k /\ prio (f k) = prio k /\
     b_prio (f k) = b_prio k /\ mutex_list (f k) = mutex_list k) ->
  let s' := pend_end BLK_FINISH t (upd_task t f s) in
  kbody idle D s' /\ obj_type (blk_of s' o) = obj_type (blk_of s o) /\ blk_list (blk_of s' o) = r.
Proof.
  intros Hb El Hty Hf. assert (t ∈ blk_list (blk_of s o)) as Hin by (rewrite El; by left).
  destruct (kwf_blocked _ _ _ _ (kb_wf Hb) Hin) as (k & Ht & Hp & _).
  destruct (Hf k) as (Es & ? & ? & ? & ? & ? & ? & ?).
  assert (kbody idle D (upd_task t f s)) as Hb1.
  { eapply set_msg_kbody; try done. eapply kwf_not_idle; [apply Hb|done|].
    by destruct (is_pending_cases _ Hp) as [E|E]; rewrite E. }
  assert (tasks (upd_task t f s) !! t = Some (f k)) as Ht1.
  { rewrite (upd_task_eq _ _ k) by done. rsimpl. by rewrite lookup_insert_eq. }
  assert (is_pending (f k) = true) as Hp1 by (unfold is_pending in *; by rewrite Es).
  intros s'. split_and!.
  - by eapply (pend_end_kbody idle D _ t o).
  - apply (pend_end_frame idle _ t (f k) BLK_FINISH (kb_wf Hb1) Ht1 Hp1).
  - by eapply pend_end_list; [apply Hb1|..].
Qed.

Lemma wake_msg_kbody idle s o p :
  kbody idle none s -> obj_type (blk_of s o) <> RHINO_MUTEX_OBJ_TYPE ->
  kbody idle none (wake_all o (task_msg_recv p) s).
Proof.
  intros Hb Hty.
  apply (wake_all_ind (fun s' => kbody idle none s' /\ obj_type (blk_of s' o) <> RHINO_MUTEX_OBJ_TYPE)); [|done].
  intros s1 t r (Hb1 & T1) E.
  destruct (deliver_kbody idle none s1 o t r (fun k => k <| msg := p |>) Hb1 E T1) as (? & E2 & ?); [done|].
  split; [split; [done|]|done]. 
  change (task_msg_recv p t s1) with (pend_end BLK_FINISH t (upd_task t (fun k => k <| msg := p |>) s1)).
  by rewrite E2.
Qed.

Lemma msg_send_kinv idle s queue p opt all : kinv idle s -> kinv idle (msg_send queue p opt all s).2.
Proof.
  intros Hk. unfold msg_send. kif E1. kenter idle s. ktype E2. kif E3.
  assert (obj_type (blk_of s1 queue) <> RHINO_MUTEX_OBJ_TYPE) as Hty by (by rewrite E2).
  destruct (blk_list (blk_of s1 queue)) as [|t r] eqn:El.
  - apply kinv_exit. cbv zeta.
    set (s2 := upd_queue queue (fun q => q <| q_cur_num ::= fun n => wrap32 (n + 1) |>) s1).
    assert (kinv idle s2) as Hk2 by (apply queue_upd_ok; [done|]; by rewrite El).
    apply queue_upd_ok; [|done]. destruct (_ <? _); [|done]. by apply queue_upd_ok.
  - apply exit_sched_kinv. destruct all.
    + apply wake_msg_kbody; [apply Hk1|done].
    + by eapply (deliver_kbody idle none s1 queue t r (fun k => k <| msg := p |>) (proj1 Hk1)).
Qed.

Lemma krhino_queue_recv_kinv idle s queue ticks mn :
  kinv idle s -> task_ctx idle s -> u32 ticks -> kinv idle (krhino_queue_recv queue ticks mn s).2.
Proof.
  intros Hk Hc Ht. unfold krhino_queue_recv. kif E1. kif E2. kenter idle s. kif E3. ktype E4. kif E5.
  { destruct (ringbuf_pop _) as [[[? bytes] ?] rb]. cbn [fst snd]. apply kinv_exit.
    unfold queue_of in E5. apply queue_upd_ok; [by apply queue_upd_ok|].
    intros _. unfold queue_of, upd_queue; rsimpl. rewrite lookup_total_insert_eq; rsimpl. lia. }
  kif E6. kif E7. apply block_kinv; try done; [| |by rewrite E4].
  - by rewrite andb_true_r in E3.
  - unfold obj_quiet. rewrite E4. unfold queue_of in E5. lia.
Qed.

Lemma krhino_queue_flush_kinv idle s queue : kinv idle s -> kinv idle (krhino_queue_flush queue s).2.
Proof.
  intros Hk. unfold krhino_queue_flush. kif E1. kenter idle s. kif E2. ktype E3.
  apply kinv_exit, queue_upd_ok; [|done]. apply queue_upd_ok; [done|]. rsimpl. lia.
Qed.
End MsgQueue.

(** ** Buffer queues *)
Section BufQueue.
Import BufQueue.

Lemma kbody_buf_queue idle s queue f :
  kbody idle none s ->
  (blk_list (blk_of s queue) <> [] -> ringbuf_is_empty (bq_ringbuf (buf_queue_of s queue)) = true ->
   ringbuf_is_empty (bq_ringbuf (f (buf_queue_of s queue))) = true) ->
  kbody idle none (upd_buf_queue queue f s).
Proof.
  intros Hb Hf. eapply kbody_same, Hb; [by split|]. intros o Hne. unfold obj_quiet, sem_of, upd_buf_queue, blk_of; rsimpl.
  destruct (obj_type (blk_objs s !!! o)) eqn:E; try done.
  destruct (decide (queue = o)) as [->|]; [|by rewrite lookup_total_insert_ne].
  rewrite lookup_total_insert_eq. by apply Hf.
Qed.

Lemma buf_queue_upd_ok idle s queue (f : kbuf_queue_t -> kbuf_queue_t) :
  kinv idle s ->
  (blk_list (blk_of s queue) <> [] -> ringbuf_is_empty (bq_ringbuf (buf_queue_of s queue)) = true ->
   ringbuf_is_empty (bq_ringbuf (f (buf_queue_of s queue))) = true) ->
  kinv idle (upd_buf_queue queue f s).
Proof. intros [Hb Hs] Hf. split; [by apply kbody_buf_queue|by eapply schedok_same, Hs]. Qed.

Lemma ringbuf_reset_empty rb : ringbuf_is_empty (ringbuf_reset rb).2 = true.
Proof. unfold ringbuf_is_empty, ringbuf_reset, rb_end; simpl. apply Nat.eqb_refl. Qed.

Lemma buf_queue_create_kinv idle s queue name buf size mx flag mem :
  kinv idle s -> obj_type (blk_of s queue) = RHINO_OBJ_TYPE_NONE ->
  kinv idle (buf_queue_create queue name buf size mx flag mem s).2.
Proof.
  intros Hk Hnone. unfold buf_queue_create. kif E1. kif E2. kif E3. kif E4. kif E5.
  unfold RHINO_CRITICAL_ENTER, RHINO_CPU_INTRPT_DISABLE; cbv zeta beta iota; cbn [snd].
  match goal with |- context [set_obj_type ?o ?ty ?x] => set (sp := set_obj_type o ty x) end.
  assert (kinv idle sp /\ blk_list (blk_of sp queue) = []) as [Hkp Hl].
  { subst sp. unfold RHINO_CRITICAL_EXIT, RHINO_CPU_INTRPT_ENABLE.
    match goal with |- context [set_obj_type _ _ ?s'] => assert (unpublished idle queue s') as Hu by unpublished_tac end.
    split; [by apply publish_kinv|]. unfold set_obj_type. rewrite blk_of_upd, decide_True by done. apply Hu. }
  clearbody sp. apply buf_queue_upd_ok; [|done]. apply buf_queue_upd_ok; [done|]. by rewrite Hl.
Qed.

Lemma buf_queue_del_kinv idle s flag queue : kinv idle s -> kinv idle (buf_queue_del_with flag queue s).2.
Proof.
  intros Hk. unfold buf_queue_del_with. kif E1. kenter idle s. kif E2. ktype E3. kif E4.
  apply exit_sched_kinv, kbody_buf_queue; [|intros; apply ringbuf_reset_empty].
  apply kbody_kobj, delete_kbody; [done|lia|by rewrite E3].
Qed.

Lemma user_bufs_kinv idle s f : kinv idle s -> kinv idle (s <| user_bufs ::= f |>).
Proof. intros [Hb Hs]. split; [by eapply kbody_same, Hb|by eapply schedok_same, Hs]. Qed.

Lemma buf_queue_send_kinv idle s queue data front :
  kinv idle s -> kinv idle (buf_queue_send queue data front s).2.
Proof.
  intros Hk. unfold buf_queue_send. kenter idle s. ktype E2. kif E3. kif E4.
  assert (obj_type (blk_of s1 queue) <> RHINO_MUTEX_OBJ_TYPE) as Hty by (by rewrite E2).
  destruct (blk_list (blk_of s1 queue)) as [|t r] eqn:El.
  - match goal with |- context [let '(_, _) := ?x in _] => destruct x as [err rb] end.
    set (s2 := upd_buf_queue queue (fun q => q <| bq_ringbuf := rb |>) s1).
    assert (kinv idle s2) as Hk2 by (apply buf_queue_upd_ok; [done|]; by rewrite El).
    clearbody s2. case_decide; cbn [snd]; [|by apply kinv_exit]. apply kinv_exit. cbv zeta.
    repeat match goal with
    | |- kinv _ (if ?b then upd_buf_queue _ _ ?s else ?s) =>
        assert (kinv idle s) as ?Hx; [|destruct b; [by apply buf_queue_upd_ok|done]]
    end. by apply buf_queue_upd_ok.
  - apply exit_sched_kinv.
    set (s2 := s1 <| user_bufs := _ |>). assert (kinv idle s2) as Hk2 by (by apply user_bufs_kinv).
    by eapply (deliver_kbody idle none s2 queue t r
                 (fun k => k <| bq_msg_size := Z.of_nat (length data) |>) (proj1 Hk2)).
Qed.

Lemma krhino_buf_queue_recv_kinv idle s queue ticks p sn :
  kinv idle s -> task_ctx idle s -> u32 ticks -> kinv idle (krhino_buf_queue_recv queue ticks p sn s).2.
Proof.
  intros Hk Hc Ht. unfold krhino_buf_queue_recv. kif E1. kif E2. kif E2'. kenter idle s. kif E3. ktype E4. kif E5.
  { destruct (ringbuf_pop _) as [[[? bytes] plen] rb]. cbn [fst snd]. apply kinv_exit.
    set (s2 := s1 <| user_bufs := _ |>). assert (kinv idle s2) as Hk2 by (by apply user_bufs_kinv).
    assert (blk_list (blk_of s2 queue) = []) as Hl.
    { destruct (blk_list (blk_of s2 queue)) eqn:El; [done|]. exfalso.
      assert (obj_quiet s1 queue) as Hq.
      { apply (kb_obj (proj1 Hk1)); [by intros []|]. change (blk_of s1 queue) with (blk_of s2 queue). by rewrite El. }
      unfold obj_quiet in Hq. rewrite E4 in Hq. unfold buf_queue_of in E5. by rewrite Hq in E5. }
    apply buf_queue_upd_ok; [|done]. apply buf_queue_upd_ok; [done|]. by rewrite Hl. }
  kif E6. kif E7.
  assert (in_intrpt s1 = false) as Hi by (by rewrite andb_true_r in E3).
  destruct (running_task idle s1 Hk1 Hc Hi) as (k & Hk2 & Hr & Hid).
  set (s2 := upd_task _ _ s1).
  assert (kinv idle s2) as Hkk.
  { split; [by eapply set_msg_kbody; [apply Hk1|..]|]. eapply schedok_same, (proj2 Hk1); done. }
  apply (block_kinv idle s2); try done; change (blk_of s2 queue) with (blk_of s1 queue); [|by rewrite E4].
  unfold obj_quiet. change (blk_of s2 queue) with (blk_of s1 queue). rewrite E4.
  by apply negb_false_iff in E5.
Qed.

Lemma krhino_buf_queue_flush_kinv idle s queue : kinv idle s -> kinv idle (krhino_buf_queue_flush queue s).2.
Proof.
  intros Hk. unfold krhino_buf_queue_flush. kif E1. kenter idle s. kif E2. ktype E3.
  apply kinv_exit. apply buf_queue_upd_ok; [|done]. apply buf_queue_upd_ok; [|done].
  apply buf_queue_upd_ok; [done|]. intros. apply ringbuf_reset_empty.
Qed.
End BufQueue.

(** ** Events *)
Lemma kbody_event idle D s o f : kbody idle D s -> kbody idle D (upd_event o f s).
Proof. intros Hb. eapply kbody_same, Hb; [apply sv_upd_event|]. intros. by apply quiet_upd_event. Qed.

Lemma kbody_words idle D s f : kbody idle D s -> kbody idle D (s <| user_words ::= f |>).
Proof. by apply kbody_same. Qed.

Lemma kinv_event idle s o f : kinv idle s -> kinv idle (upd_event o f s).
Proof. intros [Hb Hs]. split; [by apply kbody_event|by eapply schedok_same, Hs]. Qed.

Lemma event_create_kinv idle s event name fl flag :
  kinv idle s -> obj_type (blk_of s event) = RHINO_OBJ_TYPE_NONE -> kinv idle (event_create event name fl flag s).2.
Proof.
  intros Hk Hnone. unfold event_create. kif E1. kif E2. apply publish_kinv; [|done].
  unfold RHINO_CRITICAL_EXIT, RHINO_CPU_INTRPT_ENABLE. unpublished_tac.
Qed.

Lemma event_del_kinv idle s flag event : kinv idle s -> kinv idle (event_del_with flag event s).2.
Proof.
  intros Hk. unfold event_del_with. kif E1. kenter idle s. kif E2. ktype E3. kif E4.
  apply exit_sched_kinv, kbody_kobj, kbody_event, delete_kbody; [done|lia|by rewrite E3].
Qed.

Lemma krhino_event_get_kinv idle s event fl opt actl ticks :
  kinv idle s -> task_ctx idle s -> u32 ticks -> kinv idle (krhino_event_get event fl opt actl ticks s).2.
Proof.
  intros Hk Hc Ht. unfold krhino_event_get. kif E1. kif E2. kif E2'. kenter idle s. kif E3. ktype E4. kif E5.
  { apply kinv_exit. set (s2 := s1 <| user_words ::= _ |>).
    assert (kinv idle s2) as Hk2 by (split; [by apply kbody_words, Hk1|by eapply schedok_same, (proj2 Hk1)]).
    kcase; [by apply kinv_event|done]. }
  kif E6. kif E7.
  destruct (running_task idle s1 Hk1 Hc E3) as (k & Hk2 & Hr & Hid).
  set (s2 := upd_task _ _ s1).
  assert (kinv idle s2) as Hkk.
  { split; [by eapply set_msg_kbody; [apply Hk1|..]|]. eapply schedok_same, (proj2 Hk1); done. }
  apply (block_kinv idle s2); try done; change (blk_of s2 event) with (blk_of s1 event); [|by rewrite E4].
  unfold obj_quiet. change (blk_of s2 event) with (blk_of s1 event). by rewrite E4.
Qed.

(** The walk wakes tasks of the list it started from; the others stay blocked. *)
Lemma event_set_walk_kbody idle event cur l s :
  kbody idle none s -> obj_type (blk_of s event) <> RHINO_MUTEX_OBJ_TYPE ->
  NoDup l -> (forall t, t ∈ l -> t ∈ blk_list (blk_of s event)) ->
  kbody idle none (event_set_walk event cur l s).
Proof.
  revert s. induction l as [|t l IH]; intros s Hb Hty Hd Hl; cbn [event_set_walk]; [done|].
  apply NoDup_cons in Hd as [Hn Hd]. cbv zeta.
  assert (forall x : Z, x ∈ l -> x ∈ blk_list (blk_of s event)) as Hl' by (intros; apply Hl; by right).
  match goal with |- context [if ?b then _ else _] => destruct b end; [|by apply IH].
  set (s2 := s <| user_words ::= _ |>).
  assert (kbody idle none s2) as Hb2 by (by apply kbody_words).
  assert (t ∈ blk_list (blk_of s event)) as Hin by (apply Hl; by left).
  destruct (kwf_blocked _ _ _ _ (kb_wf Hb) Hin) as (k & Ht & Hp & _).
  change (pend_task_wakeup t s2) with (pend_end BLK_FINISH t s2).
  destruct (pend_end_frame idle s2 t k BLK_FINISH (kb_wf Hb2) Ht Hp) as [_ Ety].
  assert (kbody idle none (pend_end BLK_FINISH t s2)) as Hb3 by (by eapply (pend_end_kbody idle none s2 t event)).
  assert (forall x : Z, x ∈ l -> x ∈ blk_list (blk_of (pend_end BLK_FINISH t s2) event)) as Hl3.
  { intros x Hx. rewrite (pend_end_eq idle s2 t k) by (done || apply Hb2). unfold blk_of; rsimpl.
    rewrite rm_from_lookup; simpl. apply elem_of_remove_addr. split; [by intros ->|by apply Hl']. }
  assert (obj_type (blk_of (pend_end BLK_FINISH t s2) event) <> RHINO_MUTEX_OBJ_TYPE) as Hty3 by (by rewrite Ety).
  kcase; apply IH; try done. by apply kbody_event.
Qed.

Lemma krhino_event_set_kinv idle s event fl opt : kinv idle s -> kinv idle (krhino_event_set event fl opt s).2.
Proof.
  intros Hk. unfold krhino_event_set. kif E1. kif E2. unfold event_set. kenter idle s. ktype E3. kif E4.
  { by apply kinv_exit, kinv_event. }
  set (s2 := upd_event _ _ s1). assert (kinv idle s2) as Hk2 by (by apply kinv_event).
  apply exit_sched_kinv, event_set_walk_kbody; try done.
  - apply Hk2.
  - change (blk_of s2 event) with (blk_of s1 event). by rewrite E3.
  - apply (br_nodup _ _ _ (kw_blk (kb_wf (proj1 Hk2)))).
Qed.
