(* ===== verification/MutexInv.v ===== *)
(** * Mutexes and the priority-inheritance protocol

    How acquiring, releasing and abandoning a mutex act on the protocol invariant.
    A mutex in transit between two owners is seen as an object that is not a mutex:
    [retire] takes it out of its owner's chain, [adopt] gives it to a new owner whose
    priority is at least as urgent as that of the remaining waiters. *)
From S2P Require Import Prelude Bitmap KTypes Alloc RunQueue RingBuf Kernel Pend Task Sem Mutex.
From S2P Require Import Invariant InvPend PriInherit KInv ApiInv.
Local Open Scope Z_scope.

Implicit Types (s : kstate) (t u w m o : Z) (k : ktask_t).

Lemma not_owner_type s m t : obj_type (blk_of s m) <> RHINO_MUTEX_OBJ_TYPE -> ~ owner s m t.
Proof. by intros Hn [? _]. Qed.

(** ** Giving a mutex to a new owner *)
Section Adopt.
Context (idle : kenv) (D : Z -> Prop) (s s' : kstate) (m w : Z) (kw : ktask_t).
Context (H : kwf idle s) (Hpi : pinvD D s).
Context (Hty : obj_type (blk_of s m) <> RHINO_MUTEX_OBJ_TYPE) (Hm : m <> NULL) (Hw : w <> NULL).
Context (Hkw : tasks s !! w = Some kw) (Ha : is_alive kw = true) (HD : ~ D w).
Context (Ht' : tasks s' = <[w := kw <| mutex_list := m |>]> (tasks s)).
Context (Hm' : exists mm, mutexes s' = <[m := mm]> (mutexes s) /\ mutex_task mm = w /\ mutex_next mm = mutex_list kw).
Context (Hb' : forall o, o <> m -> blk_of s' o = blk_of s o).
Context (Hl' : blk_list (blk_of s' m) = blk_list (blk_of s m)).
Context (Hty' : obj_type (blk_of s' m) = RHINO_MUTEX_OBJ_TYPE) (Hp' : blk_policy (blk_of s' m) = BLK_POLICY_PRI).
Context (Hwait : forall x, x ∈ blk_list (blk_of s m) -> x <> w /\ prio kw <= prio (task_of s x)).

Lemma adopt_mutex o : o <> m -> mutex_of s' o = mutex_of s o.
Proof. intros Ho. destruct Hm' as (mm & E & _). unfold mutex_of. by rewrite E, lookup_total_insert_ne by auto. Qed.

Lemma adopt_owner o u : owner s' o u <-> (o = m /\ u = w) \/ owner s o u.
Proof.
  destruct (decide (o = m)) as [->|Hne].
  - destruct Hm' as (mm & E & Etk & _). unfold owner, mutex_of. rewrite Hty', E, lookup_total_insert_eq, Etk.
    naive_solver.
  - unfold owner. rewrite Hb', adopt_mutex by done. naive_solver.
Qed.

Lemma adopt_waits x u : waits s' x u <-> waits s x u \/ (u = w /\ x ∈ blk_list (blk_of s m)).
Proof.
  unfold waits. split.
  - intros (o & Ho%adopt_owner & Hin). destruct (decide (o = m)) as [->|Hne].
    + rewrite Hl' in Hin. destruct Ho as [[_ ->]|Ho]; [auto|by destruct (not_owner_type _ _ _ Hty Ho)].
    + rewrite Hb' in Hin by done. destruct Ho as [[? _]|Ho]; [done|]. left. eauto.
  - intros [(o & Ho & Hin)|[-> Hin]].
    + exists o. assert (o <> m) as Hne by (intros ->; by destruct (not_owner_type _ _ _ Hty Ho)).
      rewrite Hb' by done. split; [apply adopt_owner; auto|done].
    + exists m. rewrite Hl'. split; [apply adopt_owner; auto|done].
Qed.

Lemma adopt_field {A} (f : ktask_t -> A) x :
  (forall k v, f (k <| mutex_list := v |>) = f k) -> f (task_of s' x) = f (task_of s x).
Proof.
  intros Hf. unfold task_of. rewrite Ht'. destruct (decide (w = x)) as [<-|]; [|by rewrite lookup_total_insert_ne].
  by rewrite lookup_total_insert_eq, Hf, (lookup_total_Some _ _ _ Hkw).
Qed.

Lemma adopt_chain h l : m ∉ l -> chain (mutexes s) h l -> chain (mutexes s') h l.
Proof.
  intros Hn. apply chain_ext. intros o Ho. fold (mutex_of s' o) (mutex_of s o). rewrite adopt_mutex; [done|].
  by intros ->.
Qed.

Lemma adopt_task u k' : tasks s' !! u = Some k' -> is_alive k' = true ->
  exists k, tasks s !! u = Some k /\ is_alive k = true /\ prio k' = prio k.
Proof.
  rewrite Ht', lookup_insert. case_decide as E; [|by eauto]. subst. intros [= <-] _. by exists kw.
Qed.

Lemma adopt_pinv : pinvD D s'.
Proof.
  destruct Hpi as [Hps Hpp].
  split; [split|].
  - intros u k' Hu Hau HDu. destruct (adopt_task _ _ Hu Hau) as (k & Hk & Hak & _).
    destruct (ps_chain Hps _ _ Hk Hak HDu) as (l & Hc & Hd & Hel).
    assert (m ∉ l) as Hn by (intros Hin%Hel; by destruct (not_owner_type _ _ _ Hty Hin)).
    destruct (decide (u = w)) as [->|Huw].
    + exists (m :: l). split_and!; [| |].
      * unfold task_of. rewrite Ht', lookup_total_insert_eq; rsimpl. split_and!; [done..|].
        assert (mutex_next (mutexes s' !!! m) = mutex_list kw) as ->.
        { destruct Hm' as (mm & E & _ & En). by rewrite E, lookup_total_insert_eq. }
        apply adopt_chain; [done|]. by rewrite (task_of_Some _ _ _ Hkw) in Hc.
      * by apply NoDup_cons.
      * intros o. rewrite elem_of_cons, Hel, adopt_owner. naive_solver.
    + exists l. split_and!; [|done|].
      * unfold task_of. rewrite Ht', lookup_total_insert_ne by done. by apply adopt_chain.
      * intros o. rewrite Hel, adopt_owner. naive_solver.
  - intros o u [[-> ->]|Ho]%adopt_owner.
    + eexists. rewrite Ht', lookup_insert_eq. done.
    + destruct (ps_owner Hps _ _ Ho) as (k & Hk & Hak & HDu).
      rewrite Ht', lookup_insert. case_decide as E; [subst|by eauto]. eexists. split; [done|].
      rewrite Hk in Hkw. injection Hkw as <-. done.
  - intros o x Ho Hin. destruct (decide (o = m)) as [->|Hne].
    + destruct Hm' as (mm & E & Etk & _). unfold mutex_of. rewrite E, lookup_total_insert_eq, Etk.
      rewrite Hl' in Hin. destruct (Hwait x Hin). auto.
    + rewrite Hb' in Ho, Hin by done. rewrite adopt_mutex by done. by apply Hps.
  - intros o Ho. destruct (decide (o = m)) as [->|Hne]; [done|]. rewrite Hb' in * by done. by apply Hps.
  - intros u k' Hu Hau HDu. destruct (adopt_task _ _ Hu Hau) as (k & Hk & Hak & ->).
    destruct (Hpp u k Hk Hak HDu) as (Hb & Hws & Hex). unfold is_target, is_min.
    rewrite (adopt_field b_prio) by done. split_and!; [done| |].
    + intros x [Hx|[-> Hx]]%adopt_waits; rewrite (adopt_field prio) by done; [by apply Hws|].
      rewrite Hk in Hkw. injection Hkw as <-. by apply Hwait.
    + destruct Hex as [?|(x & Hx & ->)]; [by left|right]. exists x.
      rewrite adopt_waits, (adopt_field prio) by done. auto.
Qed.
End Adopt.

(** ** Taking a mutex out of its owner's chain *)
Lemma chain_unlink ms ms' h l1 m l2 x :
  chain ms h (l1 ++ m :: l2) -> NoDup (l1 ++ m :: l2) -> last l1 = Some x ->
  mutex_next (ms' !!! x) = mutex_next (ms !!! m) -> (forall y, y <> x -> ms' !!! y = ms !!! y) ->
  chain ms' h (l1 ++ l2).
Proof.
  intros Hc Hd Hx En Eo. revert h Hc Hd Hx. induction l1 as [|y l1 IH]; intros h Hc Hd Hx; [done|].
  cbn [app chain] in *. destruct Hc as (-> & Hy & Hc). apply NoDup_cons in Hd as [Hn Hd].
  split_and!; [done..|]. destruct l1 as [|z l1].
  - injection Hx as <-. rewrite En. destruct Hc as (_ & _ & Hc).
    eapply chain_ext, Hc. intros o Ho. rewrite Eo; [done|]. intros ->. apply Hn. by right.
  - rewrite Eo; [by apply IH|]. intros ->. rewrite last_cons_cons in Hx. apply Hn.
    apply last_Some_elem_of in Hx. set_solver +Hx.
Qed.

Section Retire.
Context (idle : kenv) (D : Z -> Prop) (s s' : kstate) (m t : Z) (kt : ktask_t) (l1 l2 : list Z).
Context (H : kwf idle s) (Hpi : pinvD D s) (Ho : owner s m t) (Hh : held s t (l1 ++ m :: l2)).
Let lk := link_before (LinkTask t) l1.
Let v := mutex_next (mutex_of s m).
Context (Hkt : tasks s !! t = Some kt).
Context (Ht' : tasks s' = tasks (write_link lk v s)).
Context (Hm' : mutexes s' = mutexes (write_link lk v s)).
Context (Hb' : forall o, o <> m -> blk_of s' o = blk_of s o).
Context (Hty' : obj_type (blk_of s' m) <> RHINO_MUTEX_OBJ_TYPE).

Lemma retire_owner o u : owner s' o u <-> owner s o u /\ o <> m.
Proof.
  destruct (decide (o = m)) as [->|Hne].
  - split; [|naive_solver]. intros Ho'. by destruct (not_owner_type _ _ _ Hty' Ho').
  - unfold owner. rewrite Hb' by done. unfold mutex_of at 1. rewrite Hm'.
    fold (mutex_of (write_link lk v s) o).
    destruct (write_link_frame lk v s) as (_ & _ & _ & ->). naive_solver.
Qed.

Lemma retire_waits x u : u <> t -> waits s' x u <-> waits s x u.
Proof.
  intros Hu. unfold waits. split; intros (o & Hou & Hin); exists o.
  - apply retire_owner in Hou as [? ?]. by rewrite Hb' in Hin.
  - assert (o <> m) as Hne by (intros ->; apply Hu; by eapply owner_unique).
    rewrite Hb' by done. split; [by apply retire_owner|done].
Qed.

Lemma retire_prio x : prio (task_of s' x) = prio (task_of s x) /\ b_prio (task_of s' x) = b_prio (task_of s x).
Proof.
  unfold task_of at 1 3. rewrite Ht'. destruct (write_link_frame lk v s) as (E1 & E2 & _).
  split; [apply E1|apply E2].
Qed.

Lemma lk_cases : (l1 = [] /\ lk = LinkTask t) \/ (exists x, last l1 = Some x /\ lk = LinkMutex x).
Proof.
  unfold lk, link_before. destruct (last l1) as [x|] eqn:E; [right; eauto|left]. by apply last_None in E.
Qed.

(** Only the owner's chain is rewritten. *)
Lemma retire_task u k' : tasks s' !! u = Some k' ->
  exists k, tasks s !! u = Some k /\ is_alive k' = is_alive k /\ prio k' = prio k /\
    (u <> t -> mutex_list k' = mutex_list k).
Proof.
  rewrite Ht'. destruct lk_cases as [[_ ->]|(x & _ & ->)]; cbn [write_link].
  - rewrite (upd_task_eq _ _ kt) by done. rsimpl. rewrite lookup_insert. case_decide as E; [|by eauto].
    subst. intros [= <-]. exists kt. done.
  - eauto.
Qed.

Lemma retire_alive u k : tasks s !! u = Some k ->
  exists k', tasks s' !! u = Some k' /\ is_alive k' = is_alive k.
Proof.
  intros Hu. rewrite Ht'. destruct lk_cases as [[_ ->]|(x & _ & ->)]; cbn [write_link]; [|by eauto].
  rewrite (upd_task_eq _ _ kt) by done. rsimpl. rewrite lookup_insert. case_decide as E; [|by eauto].
  subst. rewrite Hkt in Hu. injection Hu as <-. eexists. done.
Qed.

Lemma retire_held : held s' t (l1 ++ l2).
Proof.
  destruct Hh as (Hc & Hd & Hel). split_and!.
  - unfold task_of. rewrite Ht', Hm'. destruct lk_cases as [[-> ->]|(x & Hx & ->)]; cbn [write_link].
    + unfold upd_task; rsimpl. rewrite lookup_total_insert_eq; rsimpl.
      destruct Hc as (_ & _ & Hc). exact Hc.
    + unfold upd_mutex; rsimpl. eapply (chain_unlink (mutexes s)); [exact Hc|done|done|..].
      * by rewrite lookup_total_insert_eq.
      * intros y Hy. by rewrite lookup_total_insert_ne by auto.
  - rewrite NoDup_app in *. rewrite NoDup_cons in Hd. set_solver +Hd.
  - intros o. rewrite retire_owner, <- Hel. rewrite NoDup_app, NoDup_cons in Hd. set_solver +Hd.
Qed.

Lemma retire_held_other u l : u <> t -> held s u l -> held s' u l.
Proof.
  intros Hu (Hc & Hd & Hel). split_and!; [|done|].
  - assert (mutex_list (task_of s' u) = mutex_list (task_of s u)) as ->.
    { unfold task_of. rewrite Ht'. destruct lk_cases as [[_ ->]|(x & _ & ->)]; cbn [write_link]; [|done].
      unfold upd_task; rsimpl. by rewrite lookup_total_insert_ne. }
    rewrite Hm'. destruct lk_cases as [[_ ->]|(x & Hx & ->)]; cbn [write_link]; [done|].
    eapply chain_ext, Hc. intros o Hin. unfold upd_mutex; rsimpl. rewrite lookup_total_insert_ne; [done|].
    intros ->. apply Hu. apply Hel in Hin. eapply owner_unique; [exact Hin|].
    apply (proj2 (proj2 Hh)), elem_of_app. left. by apply last_Some_elem_of.
  - intros o. rewrite Hel, retire_owner. split; [|naive_solver]. intros Hou. split; [done|].
    intros ->. apply Hu. by eapply owner_unique.
Qed.

Lemma retire_pstruct : pstructD D s'.
Proof.
  destruct Hpi as [Hps _]. split.
  - intros u k' Hu Hau HDu. destruct (retire_task _ _ Hu) as (k & Hk & Ea & _). rewrite Ea in Hau.
    destruct (decide (u = t)) as [->|Hne]; [eexists; apply retire_held|].
    destruct (ps_chain Hps _ _ Hk Hau HDu) as [l Hl]. exists l. by apply retire_held_other.
  - intros o u [Hou _]%retire_owner. destruct (ps_owner Hps _ _ Hou) as (k & Hk & Hak & HDu).
    destruct (retire_alive _ _ Hk) as (k' & ? & E). exists k'. by rewrite E.
  - intros o x Hoty Hin. assert (o <> m) as Hne by (intros ->; done). rewrite Hb' in Hoty, Hin by done.
    unfold mutex_of. rewrite Hm'. fold (mutex_of (write_link lk v s) o).
    destruct (write_link_frame lk v s) as (_ & _ & _ & ->). by apply Hps.
  - intros o Hoty. assert (o <> m) as Hne by (intros ->; done). rewrite Hb' in * by done. by apply Hps.
Qed.

Lemma retire_pprio : pprio no_extra (fun u => u = t \/ D u) s'.
Proof.
  destruct Hpi as [_ Hpp]. intros u k' Hu Hau HDu. apply is_targetX_none.
  destruct (retire_task _ _ Hu) as (k & Hk & Ea & -> & _). rewrite Ea in Hau.
  unfold is_target. rewrite (proj2 (retire_prio u)).
  eapply is_min_ext, (Hpp u k Hk Hau); [| |naive_solver].
  - intros x. symmetry. apply retire_waits. naive_solver.
  - intros x _. symmetry. apply retire_prio.
Qed.
End Retire.

(** ** Changing the type of an object nobody owns *)
Lemma pinv_retype D s s' m :
  pinvD D s -> tasks s' = tasks s -> (forall o, o <> m -> mutex_of s' o = mutex_of s o) ->
  (forall o, o <> m -> blk_of s' o = blk_of s o) ->
  (forall u, ~ owner s m u) -> (forall u, ~ owner s' m u) ->
  (obj_type (blk_of s' m) = RHINO_MUTEX_OBJ_TYPE ->
     blk_list (blk_of s' m) = [] /\ blk_policy (blk_of s' m) = BLK_POLICY_PRI) ->
  pinvD D s'.
Proof.
  intros [Hps Hpp] Ht Hm Hb Hno Hno' Hty.
  assert (forall o u, owner s' o u <-> owner s o u) as Ho.
  { intros o u. destruct (decide (o = m)) as [->|]; [naive_solver|]. unfold owner. by rewrite Hb, Hm. }
  assert (forall o u, owner s o u -> o <> m) as Hne by (intros o u Hou ->; by eapply Hno).
  assert (forall w u, waits s' w u <-> waits s w u) as Hw.
  { intros w u. unfold waits. split; intros (o & Hou & Hin); exists o.
    - apply Ho in Hou. rewrite Hb in Hin by eauto. done.
    - rewrite Hb by eauto. by rewrite Ho. }
  split; [split|].
  - intros u k Hu Hau HDu. rewrite Ht in Hu. destruct (ps_chain Hps _ _ Hu Hau HDu) as (l & Hc & Hd & Hel).
    exists l. split_and!; [|done|intros o; by rewrite Ho, Hel]. unfold task_of. rewrite Ht.
    eapply chain_ext, Hc. intros o Hin%Hel%Hne. fold (mutex_of s' o) (mutex_of s o). by rewrite Hm.
  - intros o u Hou%Ho. rewrite Ht. by apply Hps in Hou.
  - intros o w Hoty Hin. destruct (decide (o = m)) as [->|Hom].
    + destruct (Hty Hoty) as [E _]. rewrite E in Hin. by apply elem_of_nil in Hin.
    + rewrite Hb in * by done. rewrite Hm by done. by apply Hps.
  - intros o Hoty. destruct (decide (o = m)) as [->|Hom]; [by apply Hty|]. rewrite Hb in * by done. by apply Hps.
  - intros u k Hu Hau HDu. rewrite Ht in Hu. specialize (Hpp u k Hu Hau HDu). unfold is_target, is_min, task_of in *.
    rewrite Ht. setoid_rewrite Hw. done.
Qed.

(** ** The list invariant and object types *)
Lemma kwf_set_type idle s o ty : kwf idle s -> kwf idle (set_obj_type o ty s).
Proof.
  intros [? Hb ? ? ? ? ? ? ?]. split; try done. unfold set_obj_type, upd_blk; rsimpl. by apply blk_rep_header.
Qed.

Lemma kwf_mutexes idle s ms :
  kwf idle s -> (forall o, mutex_task (ms !!! o) <> idle) -> kwf idle (s <| mutexes := ms |>).
Proof. intros [] ?. by split. Qed.

Lemma kwf_upd_mutex idle s o f :
  kwf idle s -> mutex_task (f (mutex_of s o)) <> idle -> kwf idle (upd_mutex o f s).
Proof.
  intros H Hf. apply kwf_mutexes; [done|]. intros o'. destruct (decide (o = o')) as [->|].
  - by rewrite lookup_total_insert_eq.
  - rewrite lookup_total_insert_ne by done. apply (kw_idle_free H).
Qed.

Lemma kwf_set_mutex_list idle s t k v :
  kwf idle s -> tasks s !! t = Some k -> t <> idle -> kwf idle (upd_task t (fun k => k <| mutex_list := v |>) s).
Proof.
  intros H Ht Hid. rewrite (upd_task_eq _ _ k) by done.
  eapply (kwf_step idle s _ t k); rsimpl; try done; try (constructor; try done; by left).
  by destruct (kwf_task_ok _ _ _ _ H Ht).
Qed.

Lemma kwf_write_link idle s t k l1 v :
  kwf idle s -> tasks s !! t = Some k -> t <> idle -> kwf idle (write_link (link_before (LinkTask t) l1) v s).
Proof.
  intros H Ht Hid. unfold link_before. destruct (last l1) as [x|]; cbn [write_link].
  - apply kwf_upd_mutex; [done|]. rsimpl. apply (kw_idle_free H).
  - by eapply kwf_set_mutex_list.
Qed.

Lemma owner_not_idle idle s m t : kwf idle s -> owner s m t -> t <> idle.
Proof. intros H (_ & <- & _). apply (kw_idle_free H). Qed.

(** ** Releasing a mutex that is no longer published *)
Section Release.
Context (idle : kenv) (s sv : kstate) (m t : Z) (k : ktask_t) (l1 l2 : list Z).
Context (H : kwf idle s) (Hpi : pinv s) (Ho : owner s m t) (Hh : held s t (l1 ++ m :: l2)).
Context (Hk : tasks s !! t = Some k) (Hv : kwf idle sv).
Context (Htv : tasks sv = tasks s) (Hmv : mutexes sv = mutexes s).
Context (Hbv : forall o, o <> m -> blk_of sv o = blk_of s o).
Context (Htyv : obj_type (blk_of sv m) <> RHINO_MUTEX_OBJ_TYPE).
Let lk := link_before (LinkTask t) l1.
Let v := mutex_next (mutex_of s m).

Lemma release_look :
  exists r, mutex_pri_look t m sv = (r, write_link lk v sv) /\ is_target (write_link lk v sv) t r /\
    kwf idle (write_link lk v sv) /\ pstruct (write_link lk v sv) /\
    pprio no_extra (fun u => u = t) (write_link lk v sv).
Proof.
  set (s1 := write_link lk v sv).
  assert (t <> idle) as Hid by (exact (owner_not_idle idle s m t H Ho)).
  assert (kwf idle s1) as H1 by (apply (kwf_write_link idle sv t k); [done|by rewrite Htv|done]).
  destruct (write_link_frame lk v sv) as (E1 & E2 & Eb & _).
  assert (tasks s1 = tasks (write_link lk v s) /\ mutexes s1 = mutexes (write_link lk v s)) as [Et Em].
  { subst s1. destruct lk; cbn [write_link]; unfold upd_task, upd_mutex; rsimpl; by rewrite ?Htv, ?Hmv. }
  assert (forall o, o <> m -> blk_of s1 o = blk_of s o) as Hb1.
  { intros o Hne. unfold blk_of. subst s1. rewrite Eb. by apply Hbv. }
  assert (obj_type (blk_of s1 m) <> RHINO_MUTEX_OBJ_TYPE) as Hty1 by (subst s1; unfold blk_of; by rewrite Eb).
  pose proof (retire_held s s1 m t l1 l2 Hh Et Em Hb1 Hty1) as Hh1.
  pose proof (retire_pstruct none s s1 m t k l1 l2 Hpi Ho Hh Hk Et Em Hb1 Hty1) as Hps1.
  pose proof (retire_pprio none s s1 m t k l1 l2 Hpi Ho Hh Hk Et Em Hb1 Hty1) as Hpp1.
  destruct Hh as (Hc & Hd & Hel).
  assert (task_of sv t = task_of s t) as Etk by (unfold task_of; by rewrite Htv).
  edestruct (mutex_pri_look_loop_rel sv m l1 l2 (mutex_fuel sv) (LinkTask t)
    (b_prio (task_of sv t)) (b_prio (task_of sv t))) as (r & Er & Hr); [..|lia|].
  - simpl. by rewrite Hmv, Etk.
  - done.
  - done.
  - pose proof (held_fuel s t (l1 ++ m :: l2) (conj Hc (conj Hd Hel))). unfold mutex_fuel in *. by rewrite Hmv.
  - exists r. split_and!; try done.
    + unfold mutex_pri_look. rewrite Er. do 2 f_equal. unfold v, mutex_of. by rewrite Hmv.
    + unfold is_target. eapply firsts_waits; [done..|]. subst s1. rewrite E2.
      eapply is_min_ext, Hr; [intros w; symmetry; apply firsts_write_link|]. intros w _. by rewrite E1.
    + intros u ku Hu Hau Hut. apply Hpp1; [done..|]. intros [?|[]]. done.
Qed.

Lemma release_spec :
  let s2 := mutex_release t m sv in
  kwf idle s2 /\ pinv s2 /\ pri_frame (write_link lk v sv) s2 /\ err_log s2 = err_log sv.
Proof.
  unfold mutex_release. destruct release_look as (r & -> & Htg & H1 & Hps1 & Hpp1).
  set (s1 := write_link lk v sv) in *.
  assert (exists k1, tasks s1 !! t = Some k1 /\ is_alive k1 = true) as (k1 & Hk1 & Ha1).
  { destruct (ps_owner (proj1 Hpi) _ _ Ho) as (k' & Hk' & Ha' & _). rewrite <- Htv in Hk'.
    subst s1. destruct lk as [u|x]; cbn [write_link]; [|by exists k'].
    unfold upd_task; rsimpl. rewrite lookup_insert. case_decide as E; [|by exists k']. subst.
    rewrite (lookup_total_Some _ _ _ Hk'). by eexists. }
  assert (err_log s1 = err_log sv) as Ee by (subst s1; by destruct lk).
  rewrite (task_of_Some _ _ _ Hk1). destruct (Z.eqb_spec r (prio k1)) as [->|Hne]; cbn [negb].
  - split_and!; try done. split; [done|]. apply pprio_none. intros u ku Hu Hau _.
    destruct (decide (u = t)) as [->|]; [|by apply Hpp1]. rewrite Hk1 in Hu. injection Hu as <-.
    by apply is_targetX_none.
  - pose proof (task_pri_change_spec idle no_extra t r s1 k1 H1 Hps1 Hpp1) as Hs.
    destruct (task_pri_change t r s1) as [st s2]. simpl.
    destruct Hs as (_ & _ & H2 & F & E & Hps2 & Hpp2); try done.
    { by apply is_targetX_none. }
    { exact (owner_not_idle idle s m t H Ho). }
    split_and!; [done| |done|congruence]. split; [done|]. by apply pprio_none.
Qed.
End Release.

(** ** From one protocol state to another *)
Lemma kbody_via idle D D' s s' :
  kbody idle D s -> kwf idle s' -> pinv s' -> kframe s s' -> objinv D' s' ->
  obj_type (blk_of s' NULL) = RHINO_OBJ_TYPE_NONE ->
  (task_state (task_of s (g_active_task s)) = K_RDY -> 0 < g_sched_lock s ->
   task_state (task_of s' (g_active_task s)) = K_RDY) ->
  kbody idle D' s'.
Proof.
  intros [H Hpi Hobj Hnull Hlock Hnest Hl] H' Hpi' F Hobj' Hnull' Hact.
  split; try done; rewrite ?(kf_sys _ _ F), ?(kf_lock _ _ F), ?(kf_active _ _ F), ?(kf_nest _ _ F); auto.
Qed.

(** Objects that keep their type stay quiet. *)
Lemma objinv_via (D D' : Z -> Prop) s s' :
  objinv D s -> sems s' = sems s -> queues s' = queues s -> buf_queues s' = buf_queues s ->
  (forall o, ~ D' o -> blk_list (blk_of s' o) <> [] ->
     obj_type (blk_of s' o) = RHINO_MUTEX_OBJ_TYPE \/
     (~ D o /\ blk_list (blk_of s o) <> [] /\ obj_type (blk_of s' o) = obj_type (blk_of s o))) ->
  objinv D' s'.
Proof.
  intros Ho E1 E2 E3 Hl o HD Hne. destruct (Hl o HD Hne) as [E|(HD0 & Hne0 & Ety)].
  - unfold obj_quiet. by rewrite E.
  - eapply obj_quiet_ext; [done..|]. by apply Ho.
Qed.

Lemma pri_frame_list_nonempty s s' o : pri_frame s s' -> blk_list (blk_of s' o) <> [] -> blk_list (blk_of s o) <> [].
Proof. intros F Hne E. apply Hne. pose proof (pf_list _ _ F o) as P. rewrite E in P. by apply Permutation_nil_r in P. Qed.

Lemma pri_frame_state s s' t : pri_frame s s' -> task_state (task_of s' t) = task_state (task_of s t).
Proof. intros F. by apply (pri_frame_field task_state). Qed.

Lemma write_link_kframe lk v s : kframe s (write_link lk v s).
Proof. by destruct lk; split. Qed.

Lemma write_link_state lk v s t : task_state (task_of (write_link lk v s) t) = task_state (task_of s t).
Proof.
  destruct lk as [u|x]; cbn [write_link]; [|done]. destruct (decide (t = u)) as [->|].
  - by rewrite task_of_upd.
  - by rewrite task_of_upd_ne.
Qed.

(** The owner of a mutex and its chain around the mutex. *)
Lemma owner_chain s m t :
  pinv s -> owner s m t -> exists k l1 l2, tasks s !! t = Some k /\ is_alive k = true /\ held s t (l1 ++ m :: l2).
Proof.
  intros [Hps _] Ho. destruct (ps_owner Hps _ _ Ho) as (k & Hk & Ha & HD).
  destruct (ps_chain Hps _ _ Hk Ha HD) as [l Hl]. pose proof (proj2 (proj2 (proj2 Hl) m) Ho) as Hin.
  apply list_elem_of_split in Hin as (l1 & l2 & ->). eauto 8.
Qed.

Lemma set_type_blk s o ty o' :
  blk_of (set_obj_type o ty s) o' = if decide (o = o') then (blk_of s o) <| obj_type := ty |> else blk_of s o'.
Proof. unfold set_obj_type. apply blk_of_upd. Qed.

Lemma set_type_kframe o ty s : kframe s (set_obj_type o ty s).
Proof. by split. Qed.

(** ** Creating and deleting *)
Lemma kbody_retype idle D s s' m :
  kbody idle D s -> tasks s' = tasks s -> kframe s s' -> kwf idle s' ->
  (forall o, o <> m -> mutex_of s' o = mutex_of s o) -> (forall o, o <> m -> blk_of s' o = blk_of s o) ->
  (forall u, ~ owner s m u) -> (forall u, ~ owner s' m u) -> blk_list (blk_of s' m) = [] -> m <> NULL ->
  (obj_type (blk_of s' m) = RHINO_MUTEX_OBJ_TYPE -> blk_policy (blk_of s' m) = BLK_POLICY_PRI) ->
  kbody idle D s'.
Proof.
  intros Hb Ht F H' Hm Hbl Hno Hno' Hl Hnull Hpol.
  eapply (kbody_via idle D D s); try done.
  - eapply (pinv_retype none s s' m); eauto. apply Hb.
  - eapply (objinv_via D D s); [apply Hb|apply F..|]. intros o HD Hne. right.
    assert (o <> m) by (by intros ->). rewrite Hbl in * by done. done.
  - rewrite Hbl by auto. apply Hb.
  - unfold task_of. by rewrite Ht.
Qed.

Lemma schedok_frame s s' : kframe s s' -> g_ready_queue s' = g_ready_queue s -> schedok s -> schedok s'.
Proof. intros F E. apply schedok_same; [apply F..|done]. Qed.

Lemma mutex_create_kinv idle s m name flag :
  kinv idle s -> obj_type (blk_of s m) = RHINO_OBJ_TYPE_NONE -> kinv idle (mutex_create m name flag s).2.
Proof.
  intros Hk Hnone. unfold mutex_create. kif E1. kif E2.
  unfold RHINO_CRITICAL_ENTER, RHINO_CPU_INTRPT_DISABLE, RHINO_CRITICAL_EXIT, RHINO_CPU_INTRPT_ENABLE; cbn [fst snd].
  assert (unpublished idle m (upd_blk m (header_init name) s)) as ([Hb1 Hs1] & El & Ety & Hm)
    by (apply init_unpublished; [done|done|lia]).
  change (fun b : blk_obj_t => (blk_obj_init name) <| obj_type := obj_type b |>) with (header_init name).
  set (s1 := upd_blk m (header_init name) s) in *.
  match goal with |- context [upd_mutex m ?f s1] => set (s2 := set_obj_type m RHINO_MUTEX_OBJ_TYPE (upd_mutex m f s1)) end.
  assert (kinv idle s2) as [Hb2 Hs2];
    [|by split; [eapply (kbody_same idle none s2), Hb2; [by split|done]|by apply (schedok_same s2)]].
  assert (kwf idle s2) as H2.
  { apply kwf_set_type. apply (kwf_upd_mutex idle s1); [apply Hb1|]. simpl. intros E.
    destruct (kwf_idle_task _ _ (kb_wf Hb1)) as (k & Hk' & _).
    by apply (to_addr _ _ (kwf_task_ok _ _ _ _ (kb_wf Hb1) Hk')). }
  assert (blk_of s2 m = (blk_of s1 m) <| obj_type := RHINO_MUTEX_OBJ_TYPE |>) as Eb2.
  { etrans; [apply set_type_blk|]. by rewrite decide_True by done. }
  assert (mutex_task (mutex_of s2 m) = NULL) as Emt.
  { change (mutex_of s2 m) with (<[m := (mutexes s1 !!! m) <| mutex_task := NULL |> <| mutex_next := NULL |>
      <| mutex_alloc_flag := flag |>]> (mutexes s1) !!! m). by rewrite lookup_total_insert_eq. }
  split; [|by apply (schedok_frame s1)].
  eapply (kbody_retype idle none s1 s2 m); try done.
  - intros o Ho. change (mutex_of s2 o) with (<[m := (mutexes s1 !!! m) <| mutex_task := NULL |> <| mutex_next := NULL |>
      <| mutex_alloc_flag := flag |>]> (mutexes s1) !!! o). by rewrite lookup_total_insert_ne by auto.
  - intros o Ho. etrans; [apply set_type_blk|]. by rewrite decide_False by auto.
  - intros u. apply not_owner_type. by rewrite Ety.
  - intros u (_ & Eu & Hu). congruence.
  - rewrite Eb2. exact El.
  - intros _. rewrite Eb2. unfold s1. rsimpl. by rewrite blk_of_upd, decide_True by done.
Qed.

Lemma mutex_del_kinv idle s flag m : kinv idle s -> kinv idle (mutex_del_with flag m s).2.
Proof.
  intros Hk. unfold mutex_del_with. kif E1. kenter idle s. kif E2. ktype E3. kif E4.
  apply exit_sched_kinv, kbody_kobj. destruct Hk1 as [Hb1 Hs1].
  set (sv := set_obj_type m RHINO_OBJ_TYPE_NONE s1).
  assert (kwf idle sv) as Hv by (apply kwf_set_type, Hb1).
  assert (blk_of sv m = (blk_of s1 m) <| obj_type := RHINO_OBJ_TYPE_NONE |>) as Ebm.
  { subst sv. by rewrite set_type_blk, decide_True by done. }
  assert (forall o, o <> m -> blk_of sv o = blk_of s1 o) as Ebo.
  { intros o Ho. subst sv. by rewrite set_type_blk, decide_False by auto. }
  match goal with |- context [wake_all m pend_task_rm ?x] => set (s2 := x) end.
  assert (kbody idle (fun x => x = m) s2 /\ obj_type (blk_of s2 m) = RHINO_OBJ_TYPE_NONE) as [Hb2 Ety2].
  2:{ destruct (wake_all_kbody idle _ s2 m BLK_DEL Hb2) as (Hb3 & _ & _ & El); [by rewrite Ety2|].
      by eapply kbody_finish. }
  subst s2. change (mutex_of sv m) with (mutex_of s1 m).
  destruct (Z.eqb_spec (mutex_task (mutex_of s1 m)) NULL) as [Enull|Enull]; cbn [negb].
  - assert (blk_list (blk_of s1 m) = []) as El.
    { destruct (blk_list (blk_of s1 m)) as [|w r] eqn:El; [done|].
      destruct (ps_held (proj1 (kb_pi Hb1)) m w E3) as [? _]; [rewrite El; by left|done]. }
    assert (forall u, ~ owner s1 m u) as Hno by (intros u (_ & Eu & Hu); congruence).
    split; [|by rewrite Ebm]. eapply (kbody_via idle none _ s1); try done.
    + eapply (pinv_retype none s1 sv m); try done; [apply Hb1| |by rewrite Ebm].
      intros u. apply not_owner_type. by rewrite Ebm.
    + eapply (objinv_via none _ s1); [apply Hb1|done..|]. intros o Ho Hne. right.
      rewrite Ebo in * by done. split_and!; [by intros []|done..].
    + rewrite Ebo by lia. apply Hb1.
  - set (t := mutex_task (mutex_of s1 m)) in *. assert (owner s1 m t) as Ho by done.
    destruct (owner_chain s1 m t (kb_pi Hb1) Ho) as (k & l1 & l2 & Hkt & Ha & Hh).
    destruct (release_spec idle s1 sv m t k l1 l2 (kb_wf Hb1) (kb_pi Hb1) Ho Hh Hkt Hv) as (H2 & Hpi2 & F & Ee);
      [done|done|done|by rewrite Ebm|].
    set (s2 := mutex_release t m sv) in *. set (lk := link_before _ _) in *. set (v := mutex_next _) in *.
    destruct (write_link_frame lk v sv) as (_ & _ & Ebl & _).
    assert (forall o, obj_type (blk_of s2 o) = obj_type (blk_of sv o)) as Et2.
    { intros o. rewrite (pf_type _ _ F). unfold blk_of. by rewrite Ebl. }
    assert (kframe s1 s2) as F2.
    { etrans; [apply (set_type_kframe m RHINO_OBJ_TYPE_NONE)|]. etrans; [apply (write_link_kframe lk v)|apply F]. }
    split; [|by rewrite Et2, Ebm]. eapply (kbody_via idle none _ s1); try done.
    + eapply (objinv_via none _ s1); [apply Hb1|apply F2..|]. intros o Hom Hne. right.
      apply (pri_frame_list_nonempty _ _ _ F) in Hne. unfold blk_of in Hne. rewrite Ebl in Hne.
      fold (blk_of sv o) in Hne. rewrite Et2. rewrite Ebo in * by done. split_and!; [by intros []|done..].
    + rewrite Et2, Ebo by lia. apply Hb1.
    + intros Hr _. rewrite (pri_frame_state _ _ _ F), write_link_state. exact Hr.
Qed.

(** ** Locking *)
Lemma kbody_nested idle s m f :
  kbody idle none s -> (forall mm, mutex_task (f mm) = mutex_task mm /\ mutex_next (f mm) = mutex_next mm) ->
  kbody idle none (upd_mutex m f s).
Proof.
  intros Hb Hf.
  assert (kwf idle (upd_mutex m f s)) as H'.
  { apply kwf_upd_mutex; [apply Hb|]. rewrite (proj1 (Hf _)). apply (kw_idle_free (kb_wf Hb)). }
  eapply (kbody_via idle none none s); try done; [|apply Hb..].
  eapply (mv_pinv idle s); [apply Hb| |apply Hb]. split; try done. intros o. unfold mutex_of, upd_mutex; rsimpl.
  destruct (decide (m = o)) as [<-|]; [rewrite lookup_total_insert_eq; apply Hf|by rewrite lookup_total_insert_ne].
Qed.

Lemma kinv_nested idle s m f :
  kinv idle s -> (forall mm, mutex_task (f mm) = mutex_task mm /\ mutex_next (f mm) = mutex_next mm) ->
  kinv idle (upd_mutex m f s).
Proof. intros [Hb Hs] Hf. split; [by apply kbody_nested|by apply (schedok_same s)]. Qed.

Lemma free_no_waiters idle D s m :
  kbody idle D s -> obj_type (blk_of s m) = RHINO_MUTEX_OBJ_TYPE -> mutex_task (mutex_of s m) = NULL ->
  blk_list (blk_of s m) = [].
Proof.
  intros Hb Hty Hn. destruct (blk_list (blk_of s m)) as [|w r] eqn:El; [done|].
  destruct (ps_held (proj1 (kb_pi Hb)) m w Hty) as [? _]; [rewrite El; by left|done].
Qed.

(** The state after a task has been made the owner of [m]. *)
Definition acquire (m t : Z) s : kstate :=
  let s := upd_mutex m (fun mm => mm <| mutex_task := t |>) s in
  let s := upd_mutex m (fun mm => mm <| mutex_next := mutex_list (task_of s t) |>) s in
  upd_task t (fun k => k <| mutex_list := m |>) s.

Lemma acquire_eq s m t k :
  tasks s !! t = Some k ->
  tasks (acquire m t s) = <[t := k <| mutex_list := m |>]> (tasks s) /\
  mutexes (acquire m t s) =
    <[m := (mutex_of s m) <| mutex_task := t |> <| mutex_next := mutex_list k |>]> (mutexes s) /\
  blk_objs (acquire m t s) = blk_objs s /\ kframe s (acquire m t s) /\
  g_ready_queue (acquire m t s) = g_ready_queue s.
Proof.
  intros Ht. unfold acquire. cbv zeta. split_and!; try done.
  - rewrite (upd_task_eq _ _ k) by done. done.
  - unfold upd_task, upd_mutex, mutex_of, task_of; rsimpl.
    by rewrite lookup_total_insert_eq, insert_insert_eq, (lookup_total_Some _ _ _ Ht).
Qed.

(** Handing [m], which is not owned in [sv], to [t] in [s]. *)
Lemma acquire_pinv idle D s sv m t k :
  kwf idle sv -> pinvD D sv -> tasks sv = tasks s -> mutexes sv = mutexes s ->
  (forall o, o <> m -> blk_of sv o = blk_of s o) -> blk_list (blk_of sv m) = blk_list (blk_of s m) ->
  obj_type (blk_of sv m) <> RHINO_MUTEX_OBJ_TYPE -> obj_type (blk_of s m) = RHINO_MUTEX_OBJ_TYPE ->
  blk_policy (blk_of s m) = BLK_POLICY_PRI -> m <> NULL ->
  tasks s !! t = Some k -> is_alive k = true -> ~ D t ->
  (forall x, x ∈ blk_list (blk_of s m) -> x <> t /\ prio k <= prio (task_of s x)) ->
  pinvD D (acquire m t s).
Proof.
  intros Hv Hpi Et Em Eb El Htyv Hty Hpol Hm Ht Ha HD Hw.
  destruct (acquire_eq s m t k Ht) as (Et' & Em' & Eb' & _).
  assert (tasks sv !! t = Some k) as Htv by (by rewrite Et).
  assert (t <> NULL) as Htn by (eapply to_addr, kwf_task_ok, Htv; done).
  eapply (adopt_pinv D sv (acquire m t s) m t k); try done; unfold blk_of; rewrite ?Eb'; try done.
  - by rewrite Et', Et.
  - eexists. by rewrite Em', Em.
  - intros o Ho. symmetry. by apply Eb.
  - intros x Hx. fold (blk_of sv m) in Hx. rewrite El in Hx. unfold task_of. rewrite Et. by apply Hw.
Qed.

Lemma lock_free_kinv idle s m t k b :
  kinv idle s -> obj_type (blk_of s m) = RHINO_MUTEX_OBJ_TYPE -> mutex_task (mutex_of s m) = NULL -> m <> NULL ->
  tasks s !! t = Some k -> is_alive k = true -> t <> idle ->
  kinv idle (RHINO_CRITICAL_EXIT b (upd_mutex m (fun mm => mm <| owner_nested := 1 |>) (acquire m t s))).
Proof.
  intros [Hb Hs] Hty Hn Hm Ht Ha Hid. apply kinv_exit, kinv_nested; [|done].
  destruct (acquire_eq s m t k Ht) as (Et' & Em' & Eb' & F & Er).
  split; [|by eapply schedok_frame].
  pose proof (free_no_waiters _ _ _ _ Hb Hty Hn) as El.
  set (sv := set_obj_type m RHINO_OBJ_TYPE_NONE s).
  assert (kwf idle sv) as Hv by (apply kwf_set_type, Hb).
  assert (blk_of sv m = (blk_of s m) <| obj_type := RHINO_OBJ_TYPE_NONE |>) as Ebm.
  { subst sv. by rewrite set_type_blk, decide_True by done. }
  assert (forall o, o <> m -> blk_of sv o = blk_of s o) as Ebo.
  { intros o Ho. subst sv. by rewrite set_type_blk, decide_False by auto. }
  assert (pinv sv) as Hpv.
  { eapply (pinv_retype none s sv m); try done; [apply Hb| | |by rewrite Ebm].
    - intros u (_ & Eu & Hu). congruence.
    - intros u. apply not_owner_type. by rewrite Ebm. }
  eapply (kbody_via idle none none s); try done.
  - unfold acquire. eapply kwf_set_mutex_list; [|exact Ht|done].
    apply kwf_upd_mutex; [apply kwf_upd_mutex; [apply Hb|done]|]. unfold upd_mutex, mutex_of; rsimpl.
    by rewrite lookup_total_insert_eq.
  - eapply (acquire_pinv idle none s sv); try done.
    + by rewrite Ebm.
    + by rewrite Ebm.
    + by apply (ps_policy (proj1 (kb_pi Hb))).
    + by intros [].
    + rewrite El. by intros x ?%elem_of_nil.
  - eapply (objinv_via none none s); [apply Hb|apply F..|]. intros o _ Hne. right. unfold blk_of in *.
    rewrite Eb' in *. split_and!; [by intros []|done..].
  - unfold blk_of. rewrite Eb'. apply Hb.
  - intros Hr _. unfold task_of in *. rewrite Et'. destruct (decide (t = g_active_task s)) as [E|].
    + rewrite <- E in *. rewrite lookup_total_insert_eq. by rewrite (lookup_total_Some _ _ _ Ht) in Hr.
    + by rewrite lookup_total_insert_ne.
Qed.

(** The running task waits for [m]: after the owner has inherited its priority, the
    equation holds as if the task were already in the block list. *)
Section LockBlock.
Context (idle : kenv) (s : kstate) (m : Z) (ka : ktask_t).
Let a := g_active_task s.
Let ow := mutex_task (mutex_of s m).
Context (Hb : kbody idle none s) (Hty : obj_type (blk_of s m) = RHINO_MUTEX_OBJ_TYPE) (Hm : m <> NULL).
Context (Hown : ow <> NULL) (Hne : a <> ow).
Context (Hka : tasks s !! a = Some ka) (Hr : task_state ka = K_RDY) (Hid : a <> idle).

Let X : Z -> Z -> Prop := fun w u => w = a /\ u = ow.

Lemma lock_owner : owner s m ow.
Proof. done. Qed.

(** The inheritance step of [krhino_mutex_lock]. *)
Definition inherit : kstate :=
  if prio (task_of s a) <? prio (task_of s ow) then (task_pri_change ow (prio (task_of s a)) s).2 else s.

Lemma targetX_other u p : u <> ow -> is_target s u p -> is_targetX X s u p.
Proof.
  intros Hu. apply is_min_ext; [|done]. intros w. unfold waitsX, X. split; [by left|]. intros [?|[_ ?]]; done.
Qed.

Lemma inherit_spec :
  kwf idle inherit /\ pri_frame s inherit /\ err_log inherit = err_log s /\
  pstruct inherit /\ pprio X (fun _ => False) inherit.
Proof.
  destruct Hb as [H [Hps Hpp] _ _ _ _ _]. unfold inherit. rewrite (task_of_Some _ _ _ Hka).
  destruct (ps_owner Hps _ _ lock_owner) as (ko & Hko & Hao & _).
  pose proof (Hpp ow ko Hko Hao id) as (Hob & How & Hox).
  rewrite (task_of_Some _ _ _ Hko). rewrite (task_of_Some _ _ _ Hko) in Hob.
  assert (prio (task_of s a) = prio ka) as Epa by (by rewrite (task_of_Some _ _ _ Hka)).
  destruct (Z.ltb_spec (prio ka) (prio ko)) as [Hlt|Hge].
  - pose proof (task_pri_change_spec idle X ow (prio ka) s ko H Hps) as Hs.
    destruct (task_pri_change ow (prio ka) s) as [st s']. cbn [snd].
    destruct Hs as (_ & _ & ? & ? & ? & ? & ?); try done.
    + intros u ku Hu Hau Huo. apply targetX_other; [done|]. exact (Hpp u ku Hu Hau id).
    + unfold is_targetX. rewrite (task_of_Some _ _ _ Hko). split_and!; [lia| |].
      * intros w [Hw|[-> _]]; [specialize (How w Hw); lia|lia].
      * right. exists a. split; [by right|done].
    + by eapply owner_not_idle, lock_owner.
    + intros w u [-> ->]. lia.
  - split_and!; try done. intros u ku Hu Hau _. destruct (decide (u = ow)) as [->|Huo].
    + rewrite Hko in Hu. injection Hu as <-. unfold is_targetX. rewrite (task_of_Some _ _ _ Hko).
      split_and!; [done| |].
      * intros w [Hw|[-> _]]; [by apply How|lia].
      * destruct Hox as [Hox|(w & Hw & ?)]; [left; by rewrite (task_of_Some _ _ _ Hko) in Hox|right].
        exists w. split; [by left|done].
    + apply targetX_other; [done|]. exact (Hpp u ku Hu Hau id).
Qed.

(** Blocking afterwards turns the extra wait into a real one. *)
Lemma lock_block_kbody ticks :
  u32 ticks -> g_sched_lock s = 0 -> kbody idle none (pend_to_blk_obj m a ticks inherit).
Proof.
  intros Hto Hl0. destruct inherit_spec as (H1 & F & Ee & Hps1 & Hpp1). set (s1 := inherit) in *.
  pose proof (pri_frame_task _ _ _ _ F Hka) as Hka1. set (k1 := ka <| prio := _ |>) in *.
  assert (task_state k1 = K_RDY) as Hr1 by done.
  pose proof (pend_to_blk_obj_kwf idle s1 a k1 m ticks H1 Hka1 Hid Hr1 Hto) as H2.
  rewrite (pend_to_blk_obj_eq idle s1 a k1) in * by done.
  match type of H2 with kwf _ ?x => set (s2 := x) in * end.
  set (kp := pended m ticks (g_tick_count s1) k1) in *.
  assert (pview kp = pview k1) as Epv.
  { unfold pview, is_alive. rewrite Hr1. subst kp. unfold pended. by destruct (timed ticks). }
  assert (forall x, prio (task_of s2 x) = prio (task_of s1 x) /\ b_prio (task_of s2 x) = b_prio (task_of s1 x) /\
            mutex_list (task_of s2 x) = mutex_list (task_of s1 x)) as Efld.
  { intros x. unfold task_of, s2; rsimpl. destruct (decide (a = x)) as [<-|]; [|by rewrite lookup_total_insert_ne].
    rewrite lookup_total_insert_eq, (lookup_total_Some _ _ _ Hka1). unfold kp, pended. by destruct (timed ticks). }
  assert (forall o, obj_type (blk_of s2 o) = obj_type (blk_of s1 o) /\ blk_policy (blk_of s2 o) = blk_policy (blk_of s1 o) /\
            (forall x, x ∈ blk_list (blk_of s2 o) <-> x ∈ blk_list (blk_of s1 o) \/ (o = m /\ x = a))) as Eblk.
  { intros o. unfold blk_of, s2; rsimpl. destruct (decide (m = o)) as [<-|].
    - rewrite lookup_total_insert_eq. unfold linked; rsimpl. split_and!; [done..|]. intros x.
      destruct (blk_policy (blk_objs s1 !!! m)); rewrite ?elem_of_insert_where, ?elem_of_app, ?list_elem_of_singleton;
        naive_solver.
    - rewrite lookup_total_insert_ne by done. naive_solver. }
  assert (forall o u, owner s2 o u <-> owner s1 o u) as Eow.
  { intros o u. unfold owner. rewrite (proj1 (Eblk o)). done. }
  assert (owner s1 m ow) as Ho1 by (by apply (owner_frame s s1)).
  assert (forall w u, waits s2 w u <-> waitsX X s1 w u) as Ewt.
  { intros w u. unfold waitsX, waits, X. setoid_rewrite Eow. split.
    - intros (o & Hou & Hin). apply (proj2 (proj2 (Eblk o))) in Hin as [Hin|[-> ->]]; [left; eauto|].
      right. split; [done|]. by eapply owner_unique.
    - intros [(o & Hou & Hin)|[-> ->]]; [exists o|exists m]; (split; [done|]); apply (proj2 (proj2 (Eblk _))); auto. }
  assert (forall x k2, tasks s2 !! x = Some k2 -> is_alive k2 = true ->
            exists k', tasks s1 !! x = Some k' /\ is_alive k' = true /\ prio k2 = prio k') as Etk.
  { intros x k2. unfold s2; rsimpl. rewrite lookup_insert. case_decide as E; [|by eauto]. subst x.
    intros [= <-] _. exists k1. split_and!; [done|unfold is_alive; by rewrite Hr1|]. unfold kp, pended. by destruct (timed ticks). }
  assert (kframe s s2) as F2 by (etrans; [apply F|by split]).
  eapply (kbody_via idle none none s); try done.
  - split; [split|].
    + intros u k2 Hu Hau HD. destruct (Etk _ _ Hu Hau) as (k' & Hk' & Ha' & _).
      destruct (ps_chain Hps1 _ _ Hk' Ha' HD) as (l & Hc & Hd & Hel). exists l. split_and!; [|done|].
      * by rewrite (proj2 (proj2 (Efld u))).
      * intros o. by rewrite Eow, Hel.
    + intros o u Hou%Eow. destruct (ps_owner Hps1 _ _ Hou) as (k' & Hk' & Ha' & HD).
      unfold s2; rsimpl. rewrite lookup_insert. case_decide as E; [|by eauto]. subst u. exists kp.
      split_and!; [done| |done]. unfold kp, pended, is_alive. by destruct (timed ticks).
    + intros o w Hoty Hin. rewrite (proj1 (Eblk o)) in Hoty.
      apply (proj2 (proj2 (Eblk o))) in Hin as [Hin|[-> ->]]; [by apply (ps_held Hps1)|].
      destruct Ho1 as (_ & E & _). change (mutex_of s2 m) with (mutex_of s1 m). rewrite E. auto.
    + intros o Hoty. rewrite (proj1 (Eblk o)) in Hoty. rewrite (proj1 (proj2 (Eblk o))). by apply (ps_policy Hps1).
    + intros u k2 Hu Hau _. destruct (Etk _ _ Hu Hau) as (k' & Hk' & Ha' & ->).
      pose proof (Hpp1 u k' Hk' Ha' id) as Htg. unfold is_target. rewrite (proj1 (proj2 (Efld u))).
      eapply is_min_ext, Htg; [intros w; symmetry; apply Ewt|]. intros w _. symmetry. apply Efld.
  - eapply (objinv_via none none s); [apply Hb|apply F2..|]. intros o _ Hno.
    destruct (decide (o = m)) as [->|Hom]; [left; by rewrite (proj1 (Eblk m)), (pf_type _ _ F)|right].
    split_and!; [by intros []| |by rewrite (proj1 (Eblk o)), (pf_type _ _ F)].
    apply (pri_frame_list_nonempty _ _ _ F). intros E. apply Hno. unfold blk_of, s2; rsimpl.
    by rewrite lookup_total_insert_ne by auto.
  - rewrite (proj1 (Eblk NULL)), (pf_type _ _ F). apply Hb.
  - lia.
Qed.
End LockBlock.

Lemma krhino_mutex_lock_kinv idle s m ticks :
  kinv idle s -> task_ctx idle s -> u32 ticks -> kinv idle (krhino_mutex_lock m ticks s).2.
Proof.
  intros Hk Hc Hto. unfold krhino_mutex_lock. kif E1.
  destruct (decide (g_sys_stat s = RHINO_STOPPED)); [done|]. kenter idle s. kif E2. ktype E3.
  destruct (running_task idle s1 Hk1 Hc E2) as (ka & Hka & Hr & Hid).
  destruct (Z.eqb_spec (g_active_task s1) (mutex_task (mutex_of s1 m))) as [Eo|Eo].
  { kif E4. apply kinv_exit. by apply kinv_nested. }
  destruct (Z.eqb_spec (mutex_task (mutex_of s1 m)) NULL) as [En|En].
  { cbn [snd]. eapply (lock_free_kinv idle s1 m _ ka); try done; [lia|unfold is_alive; by rewrite Hr]. }
  kif E5. kif E6. pose proof (kb_lock (proj1 Hk1)).
  apply exit_sched_kinv.
  destruct (inherit_spec idle s1 m ka (proj1 Hk1) E3 En Hka) as (_ & F & _).
  set (si := if prio _ <? prio _ then _ else _). change si with (inherit s1 m) in *.
  rewrite (kf_active _ _ (pf_frame _ _ F)).
  eapply lock_block_kbody; try done; [apply Hk1|lia].
Qed.

(** ** Unlocking *)
Section TypeIrrelevant.
Context (o : Z) (ty : kobj_type_t).

Lemma set_type_list s o' : blk_list (blk_of (set_obj_type o ty s) o') = blk_list (blk_of s o').
Proof. rewrite set_type_blk. by case_decide; subst. Qed.

Lemma look_loop_type fuel prev rel p new s :
  mutex_pri_look_loop fuel prev rel p new (set_obj_type o ty s) =
  ((mutex_pri_look_loop fuel prev rel p new s).1, set_obj_type o ty (mutex_pri_look_loop fuel prev rel p new s).2).
Proof.
  revert prev p new s. induction fuel as [|fuel IH]; intros prev p new s; [done|]. cbn [mutex_pri_look_loop].
  assert (read_link prev (set_obj_type o ty s) = read_link prev s) as -> by (by destruct prev).
  destruct (read_link prev s =? NULL); [done|]. destruct (read_link prev s =? rel).
  - rewrite <- IH. f_equal. by destruct prev.
  - rewrite set_type_list. apply IH.
Qed.

Lemma mutex_pri_look_type t rel s :
  mutex_pri_look t rel (set_obj_type o ty s) =
  ((mutex_pri_look t rel s).1, set_obj_type o ty (mutex_pri_look t rel s).2).
Proof. unfold mutex_pri_look. apply look_loop_type. Qed.

Lemma task_pri_change_ready s t p :
  task_state (task_of s t) = K_RDY -> prio (task_of s t) <> p -> (task_pri_change t p s).2 = set_prio t p s.
Proof.
  intros Hr Hne. unfold task_pri_change, pri_fuel. cbn [task_pri_change_loop].
  unfold task_pri_change_step, set_prio. rewrite (proj2 (Z.eqb_neq _ _) Hne). cbn [negb]. by rewrite Hr.
Qed.

Lemma set_prio_type t p s :
  task_state (task_of s t) = K_RDY -> set_prio t p (set_obj_type o ty s) = set_obj_type o ty (set_prio t p s).
Proof.
  intros Hr. unfold set_prio. change (task_of (set_obj_type o ty s) t) with (task_of s t). rewrite Hr.
  unfold k_ready_list_rm. change (task_of (set_obj_type o ty s) t) with (task_of s t).
  change (g_ready_queue (set_obj_type o ty s)) with (g_ready_queue s).
  destruct (ready_list_rm _ _ _) as [rq [e|]];
    unfold k_err_proc, k_ready_list_add_head, k_ready_list_add_tail, set_obj_type, upd_blk, upd_task, task_of; rsimpl;
    destruct (t =? g_active_task s); by kstate_eq.
Qed.

Lemma mutex_release_type t rel s :
  task_state (task_of s t) = K_RDY -> task_state (task_of (mutex_pri_look t rel s).2 t) = K_RDY ->
  mutex_release t rel (set_obj_type o ty s) = set_obj_type o ty (mutex_release t rel s).
Proof.
  intros Hr Hr1. unfold mutex_release. rewrite mutex_pri_look_type.
  destruct (mutex_pri_look t rel s) as [r s1]. cbn [fst snd] in *.
  change (task_of (set_obj_type o ty s1) t) with (task_of s1 t).
  destruct (Z.eqb_spec r (prio (task_of s1 t))) as [|Hne]; [done|]. cbn [negb].
  rewrite !task_pri_change_ready by (done || auto). by apply set_prio_type.
Qed.

Lemma pend_end_type idle st t k s :
  kwf idle s -> tasks s !! t = Some k -> is_pending k = true ->
  pend_end st t (set_obj_type o ty s) = set_obj_type o ty (pend_end st t s).
Proof.
  intros H Ht Hp. rewrite (pend_end_eq idle s t k), (pend_end_eq idle _ t k) by (done || by apply kwf_set_type).
  unfold set_obj_type, upd_blk. kstate_eq. rewrite fmap_insert. f_equal. unfold blk_of; rsimpl. by rewrite rm_from_lookup.
Qed.
End TypeIrrelevant.

Lemma kwf_set_type_inv idle s o ty : kwf idle (set_obj_type o ty s) -> kwf idle s.
Proof.
  intros [? [Bd Be Bs] ? ? ? ? ? ? ?]. split; try done.
  assert (forall o', blk_list (blk_objs (set_obj_type o ty s) !!! o') = blk_list (blk_objs s !!! o') /\
            blk_policy (blk_objs (set_obj_type o ty s) !!! o') = blk_policy (blk_objs s !!! o')) as E.
  { intros o'. fold (blk_of (set_obj_type o ty s) o') (blk_of s o'). rewrite set_type_blk. by case_decide; subst. }
  split; intros o'; rewrite <- ?(proj1 (E o')), <- ?(proj2 (E o')); auto.
Qed.

(** The release phase of [krhino_mutex_unlock]: [sb] is the state after
    [mutex_release], [svb] the same state with the mutex seen as retired. *)
Section Unlock.
Context (idle : kenv) (sa : kstate) (m t : Z) (k : ktask_t).
Context (Hb : kbody idle none sa) (Ho : owner sa m t).
Context (Hk : tasks sa !! t = Some k) (Hr : task_state k = K_RDY).
Let sb := mutex_release t m sa.
Let svb := set_obj_type m RHINO_OBJ_TYPE_NONE sb.

Lemma set_prio_ready_frame s p :
  task_state (task_of s t) = K_RDY ->
  blk_objs (set_prio t p s) = blk_objs s /\ mutexes (set_prio t p s) = mutexes s /\ kframe s (set_prio t p s).
Proof.
  intros E. unfold set_prio. rewrite E. unfold k_ready_list_rm.
  destruct (ready_list_rm _ _ _) as [rq [e|]]; unfold k_err_proc; cbv zeta;
    match goal with |- context [if ?b then _ else _] => destruct b end; (split_and!; [done|done|by split]).
Qed.

Lemma unlock_release :
  kwf idle svb /\ kwf idle sb /\ pinv svb /\ kframe sa sb /\ blk_objs sb = blk_objs sa /\
  (forall u, task_state (task_of sb u) = task_state (task_of sa u)) /\
  (blk_list (blk_of sa m) = [] -> g_ready_queue sb = g_ready_queue sa).
Proof.
  destruct (owner_chain sa m t (kb_pi Hb) Ho) as (k' & l1 & l2 & Hk' & Ha & Hh).
  rewrite Hk in Hk'. injection Hk' as <-.
  set (sv := set_obj_type m RHINO_OBJ_TYPE_NONE sa).
  assert (kwf idle sv) as Hv by (apply kwf_set_type, Hb).
  assert (obj_type (blk_of sv m) <> RHINO_MUTEX_OBJ_TYPE) as Htyv
    by (subst sv; by rewrite set_type_blk, decide_True by done).
  assert (forall o, o <> m -> blk_of sv o = blk_of sa o) as Ebo.
  { intros o Hne. subst sv. by rewrite set_type_blk, decide_False by auto. }
  destruct (release_look idle sa sv m t k l1 l2 (kb_wf Hb) (kb_pi Hb) Ho Hh Hk Hv eq_refl eq_refl Ebo Htyv)
    as (r & El & Htg & _).
  destruct (release_spec idle sa sv m t k l1 l2 (kb_wf Hb) (kb_pi Hb) Ho Hh Hk Hv eq_refl eq_refl Ebo Htyv)
    as (H2 & Hp2 & F & _).
  set (lk := link_before (LinkTask t) l1) in *. set (v := mutex_next (mutex_of sa m)) in *.
  assert (mutex_pri_look t m sa = (r, write_link lk v sa)) as Elk.
  { pose proof (mutex_pri_look_type m RHINO_OBJ_TYPE_NONE t m sa) as Elt. fold sv in Elt. rewrite El in Elt.
    injection Elt as Er _. destruct Hh as (Hc & Hd & Hel).
    edestruct (mutex_pri_look_loop_rel sa m l1 l2 (mutex_fuel sa) (LinkTask t)
      (b_prio (task_of sa t)) (b_prio (task_of sa t))) as (r' & Er' & _);
      [exact Hc|done|done|by apply (held_fuel sa t)|lia|].
    unfold mutex_pri_look in *. rewrite Er' in *. by subst. }
  set (s1 := write_link lk v sa) in *.
  assert (task_state (task_of s1 t) = K_RDY) as Hr1.
  { subst s1. by rewrite write_link_state, (task_of_Some _ _ _ Hk). }
  assert (mutex_release t m sv = svb) as Esvb.
  { apply mutex_release_type; [by rewrite (task_of_Some _ _ _ Hk)|by rewrite Elk]. }
  rewrite Esvb in H2, Hp2, F. destruct (write_link_frame lk v sa) as (E1 & _ & Eb & _).
  assert (sb = s1 /\ r = prio k \/ sb = set_prio t r s1) as Esb.
  { unfold sb, mutex_release. rewrite Elk. destruct (Z.eqb_spec r (prio (task_of s1 t))) as [->|Hne]; cbn [negb].
    - left. split; [done|]. subst s1. by rewrite E1, (task_of_Some _ _ _ Hk).
    - right. apply task_pri_change_ready; auto. }
  destruct (set_prio_ready_frame s1 r Hr1) as (Eb1 & _ & F1).
  assert (kframe sa s1) as F0 by apply write_link_kframe.
  split_and!; try done.
  - by eapply kwf_set_type_inv.
  - destruct Esb as [[-> _]| ->]; [done|by etrans].
  - destruct Esb as [[-> _]| ->]; [done|by rewrite Eb1].
  - intros u. change (task_of sb u) with (task_of svb u). rewrite (pri_frame_state _ _ _ F). etrans; [apply write_link_state|done].
  - intros Hl.
    assert (r = prio k) as ->.
    { destruct (kb_pi Hb) as [_ Hpp]. specialize (Hpp t k Hk Ha id).
      eapply is_min_unique; [|exact Hpp]. unfold is_target in Htg.
      destruct (write_link_frame lk v sv) as (Ep & Ebp & Ebv & Emt).
      rewrite Ebp in Htg. eapply is_min_ext, Htg; [|intros w _; apply Ep].
      intros w. unfold waits, owner, blk_of. rewrite Ebv. fold (blk_of sv).
      split; intros (o & (Hot & Ht1 & Ht2) & Hin); exists o.
      + fold (blk_of sv o) in Hot, Hin. assert (o <> m) as Hne by (by intros ->).
        rewrite Ebo in Hot, Hin by done. rewrite Emt in Ht1. done.
      + assert (o <> m) as Hne by (intros ->; unfold blk_of in Hl; rewrite Hl in Hin; by apply elem_of_nil in Hin).
        fold (blk_of sv o). rewrite Ebo by done. rewrite Emt. done. }
    unfold sb, mutex_release. rewrite Elk. subst s1. rewrite E1, (task_of_Some _ _ _ Hk), Z.eqb_refl. cbn [negb].
    by destruct lk.
Qed.
End Unlock.

Lemma unlock_none_kinv idle sa m t k b :
  kinv idle sa -> owner sa m t -> tasks sa !! t = Some k -> task_state k = K_RDY -> m <> NULL ->
  blk_list (blk_of (mutex_release t m sa) m) = [] ->
  kinv idle (RHINO_CRITICAL_EXIT b (upd_mutex m (fun mm => mm <| mutex_task := NULL |>) (mutex_release t m sa))).
Proof.
  intros [Hb Hs] Ho Hk Hr Hm El.
  destruct (unlock_release idle sa m t k Hb Ho Hk Hr) as (Hvb & Hsb & Hpi & F & Ebl & Est & Erq).
  set (sb := mutex_release t m sa) in *. set (sc := upd_mutex m _ sb).
  assert (blk_list (blk_of sa m) = []) as El0 by (unfold blk_of in *; by rewrite Ebl in El).
  assert (forall o, blk_of sc o = blk_of sa o) as Ebc by (intros o; unfold blk_of; by rewrite <- Ebl).
  assert (kframe sa sc) as Fc by (etrans; [exact F|by split]).
  apply kinv_exit. split.
  2:{ apply (schedok_frame sa); [exact Fc|by apply Erq|done]. }
  eapply (kbody_via idle none none sa); try done.
  - apply kwf_upd_mutex; [done|]. simpl. destruct (kwf_idle_task _ _ Hsb) as (ki & Hki & _).
    intros E. by apply (to_addr _ _ (kwf_task_ok _ _ _ _ Hsb Hki)).
  - eapply (pinv_retype none (set_obj_type m RHINO_OBJ_TYPE_NONE sb) sc m); try done.
    + intros o Hne. unfold mutex_of, sc, upd_mutex; rsimpl. by rewrite lookup_total_insert_ne by auto.
    + intros o Hne. rewrite set_type_blk, decide_False by auto. done.
    + intros u. apply not_owner_type. by rewrite set_type_blk, decide_True by done.
    + intros u (_ & Eu & Hu). unfold mutex_of, sc, upd_mutex in Eu; rsimpl_in Eu.
      rewrite lookup_total_insert_eq in Eu. by subst.
    + intros Hty. rewrite Ebc in *. split; [done|]. by apply (ps_policy (proj1 (kb_pi Hb))).
  - eapply (objinv_via none none sa); [apply Hb|apply Fc..|]. intros o _ Hne. right. rewrite Ebc in *.
    split_and!; [by intros []|done..].
  - rewrite Ebc. apply Hb.
  - intros Hra _. change (task_of sc (g_active_task sa)) with (task_of sb (g_active_task sa)). by rewrite Est.
Qed.

Lemma unlock_wake_kinv idle sa m t k w r b :
  kinv idle sa -> owner sa m t -> tasks sa !! t = Some k -> task_state k = K_RDY -> m <> NULL ->
  blk_list (blk_of (mutex_release t m sa) m) = w :: r ->
  kinv idle (RHINO_CRITICAL_EXIT_SCHED b (upd_mutex m (fun mm => mm <| owner_nested := 1 |>)
    (acquire m w (pend_task_wakeup w (mutex_release t m sa))))).
Proof.
  intros [Hb Hs] Ho Hk Hr Hm El. change pend_task_wakeup with (pend_end BLK_FINISH).
  destruct (unlock_release idle sa m t k Hb Ho Hk Hr) as (Hvb & Hsb & Hpi & F & Ebl & Est & _).
  set (sb := mutex_release t m sa) in *. set (svb := set_obj_type m RHINO_OBJ_TYPE_NONE sb) in *.
  assert (w ∈ blk_list (blk_of sb m)) as Hin by (rewrite El; by left).
  destruct (kwf_blocked _ _ _ _ Hsb Hin) as (kw & Hkw & Hp & Hbo).
  assert (w <> idle) as Hwi.
  { eapply kwf_not_idle; [exact Hsb|done|]. by destruct (is_pending_cases _ Hp) as [E|E]; rewrite E. }
  pose proof (pend_end_type m RHINO_OBJ_TYPE_NONE idle BLK_FINISH w kw sb Hsb Hkw Hp) as Ecomm. fold svb in Ecomm.
  pose proof (pend_end_kwf idle sb w kw BLK_FINISH Hsb Hkw Hp) as Hsd.
  pose proof (pend_end_kwf idle svb w kw BLK_FINISH Hvb Hkw Hp) as Hsvd.
  assert (pinv (pend_end BLK_FINISH w svb)) as Hpd.
  { eapply (mv_pinv idle svb); [done| |done]. eapply (pend_end_mutex_view idle); [done..|].
    rewrite Hbo. subst svb. by rewrite set_type_blk, decide_True by done. }
  rewrite Ecomm in Hsvd, Hpd.
  destruct (pend_end_frame idle sb w kw BLK_FINISH Hsb Hkw Hp) as [F1 Ety].
  pose proof (pend_end_list idle sb w kw BLK_FINISH m r Hsb Hkw Hp El) as Eld.
  pose proof (pend_end_eq idle sb w kw BLK_FINISH Hsb Hkw Hp) as Eeq.
  set (sd := pend_end BLK_FINISH w sb) in *.
  assert (tasks sd !! w = Some (unpend BLK_FINISH kw)) as Hkd by (rewrite Eeq; rsimpl; by rewrite lookup_insert_eq).
  assert (forall o, blk_list (blk_of sd o) = remove_addr w (blk_list (blk_of sa o)) /\
    obj_type (blk_of sd o) = obj_type (blk_of sa o) /\ blk_policy (blk_of sd o) = blk_policy (blk_of sa o)) as Ebd.
  { intros o. rewrite Eeq. unfold blk_of; rsimpl. rewrite rm_from_lookup, Ebl. done. }
  destruct (acquire_eq sd m w _ Hkd) as (Eta & Ema & Eba & Fa & _).
  assert (kbody idle none (acquire m w sd)) as Hfin.
  { apply (kbody_via idle none none sa); [exact Hb|..].
    - unfold acquire. eapply kwf_set_mutex_list; [|exact Hkd|done].
      apply kwf_upd_mutex; [by apply kwf_upd_mutex|]. unfold upd_mutex, mutex_of; rsimpl.
      by rewrite lookup_total_insert_eq.
    - eapply (acquire_pinv idle none sd (set_obj_type m RHINO_OBJ_TYPE_NONE sd)); try done.
      + intros o Hne. by rewrite set_type_blk, decide_False by auto.
      + apply set_type_list.
      + by rewrite set_type_blk, decide_True by done.
      + rewrite (proj1 (proj2 (Ebd m))). apply Ho.
      + rewrite (proj2 (proj2 (Ebd m))). apply (ps_policy (proj1 (kb_pi Hb))), Ho.
      + unfold unpend, is_alive; simpl. by case_decide.
      + by intros [].
      + rewrite Eld. intros x Hx. pose proof (br_nodup _ _ _ (kw_blk Hsb) m) as Hd.
        pose proof (br_sorted _ _ _ (kw_blk Hsb) m) as Hsrt. unfold blk_of in El. rewrite El in Hd, Hsrt.
        apply NoDup_cons in Hd as [Hn _]. assert (x <> w) as Hxw by (by intros ->). split; [done|].
        unfold task_of. rewrite Eeq; rsimpl. rewrite lookup_total_insert_ne by auto. fold (task_of sb x).
        change (prio (unpend BLK_FINISH kw)) with (prio kw). rewrite <- (task_of_Some _ _ _ Hkw).
        eapply (StronglySorted_head (prio_in (tasks sb))); [apply Hsrt|by right].
        rewrite Ebl. apply (ps_policy (proj1 (kb_pi Hb))), Ho.
    - etrans; [exact F|]. etrans; [exact F1|exact Fa].
    - eapply (objinv_via none none sa); [apply Hb|..].
      1-3: etrans; [apply Fa|etrans; [apply F1|apply F]].
      intros o _ Hne. right. unfold blk_of in Hne |- *. rewrite Eba in Hne |- *. fold (blk_of sd o) in Hne |- *.
      rewrite (proj1 (Ebd o)) in Hne. split_and!; [by intros []|by eapply remove_addr_nonempty|apply Ebd].
    - unfold blk_of. rewrite Eba. fold (blk_of sd NULL). rewrite (proj1 (proj2 (Ebd NULL))). apply Hb.
    - intros Hra _. unfold task_of. rewrite Eta. rewrite <- Est in Hra. unfold task_of in Hra.
      destruct (decide (w = g_active_task sa)) as [E|].
      + rewrite <- E, (lookup_total_Some _ _ _ Hkw) in Hra. by apply ready_not_pending in Hra; rewrite Hp in Hra.
      + rewrite lookup_total_insert_ne by done. rewrite Eeq; rsimpl. by rewrite lookup_total_insert_ne. }
  apply exit_sched_kinv. by apply kbody_nested.
Qed.

Lemma krhino_mutex_unlock_kinv idle s m :
  kinv idle s -> task_ctx idle s -> kinv idle (krhino_mutex_unlock m s).2.
Proof.
  intros Hk Hc. unfold krhino_mutex_unlock. kif E1.
  destruct (decide (g_sys_stat s = RHINO_STOPPED)); [done|]. kenter idle s. kif E2. ktype E3. kif E4.
  destruct (running_task idle s1 Hk1 Hc E2) as (ka & Hka & Hr & Hid).
  set (sa := upd_mutex m (fun mm => mm <| owner_nested ::= fun n => wrap32 (n - 1) |>) s1).
  assert (kinv idle sa) as Hka' by (by apply kinv_nested). kif E5.
  assert (mutex_task (mutex_of sa m) = mutex_task (mutex_of s1 m)) as Emt.
  { unfold sa, mutex_of, upd_mutex; rsimpl. by rewrite lookup_total_insert_eq. }
  assert (owner sa m (g_active_task sa)) as Ho.
  { split_and!; [done| |].
    - rewrite Emt. change (g_active_task sa) with (g_active_task s1). lia.
    - exact (to_addr _ _ (kwf_task_ok _ _ _ _ (kb_wf (proj1 Hk1)) Hka)). }
  assert (m <> NULL) by lia.
  destruct (blk_list (blk_of (mutex_release (g_active_task sa) m sa) m)) as [|w r] eqn:El; cbn [snd].
  - by eapply unlock_none_kinv.
  - by eapply unlock_wake_kinv.
Qed.
