(* ===== verification/TaskInv.v ===== *)
(** * Task calls and the tick interrupt preserve the kernel invariant

    A task that stops waiting without getting the mutex (timeout, abort, deletion)
    may have lent its priority to the owner; [mutex_task_pri_reset] takes it back.
    [Left] is that situation.  The rest of the file goes through [k_task.c],
    [k_tick.c] and the scheduler calls. *)
From S2P Require Import Prelude Bitmap KTypes Alloc RunQueue RingBuf Kernel Pend Task Sem Mutex.
From S2P Require Import Invariant InvPend PriInherit KInv ApiInv MutexInv.
Local Open Scope Z_scope.

Implicit Types (s : kstate) (t u w m o : Z) (k : ktask_t) (idle : kenv).

(** ** A blocked task leaves its block list *)
Section Left.
Context (idle : kenv) (D : Z -> Prop) (s s1 : kstate) (t : Z) (k k1 : ktask_t).
Context (H : kwf idle s) (Hpi : pinvD D s) (H1 : kwf idle s1).
Context (Ht : tasks s !! t = Some k) (Hp : is_pending k = true).
Context (Et : tasks s1 = <[t := k1]> (tasks s)) (Em : mutexes s1 = mutexes s).
Context (Eb : forall o, blk_of s1 o = rm_from t (blk_of s o)).
Context (Ek : prio k1 = prio k /\ b_prio k1 = b_prio k /\ mutex_list k1 = mutex_list k /\ blk_obj k1 = blk_obj k).
Context (HD : forall u, D u -> u = t /\ is_alive k1 = false).
Context (Hv : is_alive k1 = true \/ (is_alive k1 = false /\ forall m, ~ owner s m t)).

Lemma left_field {A} (f : ktask_t -> A) x : f k1 = f k -> f (task_of s1 x) = f (task_of s x).
Proof.
  intros E. unfold task_of. rewrite Et. destruct (decide (t = x)) as [<-|]; [|by rewrite lookup_total_insert_ne].
  by rewrite lookup_total_insert_eq, (lookup_total_Some _ _ _ Ht).
Qed.

Lemma left_owner m u : owner s1 m u <-> owner s m u.
Proof. unfold owner, mutex_of. rewrite Eb, Em. done. Qed.

Lemma left_waits w u : waits s1 w u <-> waits s w u /\ w <> t.
Proof.
  unfold waits. setoid_rewrite left_owner. split.
  - intros (m & Ho & Hin). rewrite Eb in Hin. simpl in Hin. apply elem_of_remove_addr in Hin as [? ?]. eauto.
  - intros [(m & Ho & Hin) Hne]. exists m. rewrite Eb. simpl. rewrite elem_of_remove_addr. done.
Qed.

(** [t] was waiting for the owner of its object only. *)
Lemma left_waits_uniq u : waits s t u -> owner s (blk_obj k) u.
Proof.
  intros Hw. destruct (waits_pending _ _ _ _ H Hw) as (k' & m & Hk' & _ & Hb & Ho).
  rewrite Ht in Hk'. injection Hk' as <-. by subst.
Qed.

Lemma left_task u k' : tasks s1 !! u = Some k' -> is_alive k' = true ->
  exists k0, tasks s !! u = Some k0 /\ is_alive k0 = true /\ ~ D u /\ prio k' = prio k0.
Proof.
  rewrite Et, lookup_insert. case_decide as E.
  - subst u. intros [= <-] Ha. exists k. split_and!; [done|by apply is_pending_alive| |apply Ek].
    intros [_ ?]%HD. congruence.
  - intros Hu Ha. exists k'. split_and!; [done..| |done]. intros [? _]%HD. by subst.
Qed.

Lemma left_pstruct : pstruct s1.
Proof.
  destruct Hpi as [Hps _]. destruct Ek as (Ep & Ebp & El & Ebo). split.
  - intros u k' Hu Ha _. destruct (left_task _ _ Hu Ha) as (k0 & Hk0 & Ha0 & HD0 & _).
    destruct (ps_chain Hps _ _ Hk0 Ha0 HD0) as (l & Hc & Hd & Hel). exists l. split_and!; [|done|].
    + rewrite Em. by rewrite (left_field mutex_list u El).
    + intros m. by rewrite left_owner, Hel.
  - intros m u Ho%left_owner. destruct (ps_owner Hps _ _ Ho) as (k0 & Hk0 & Ha0 & HD0).
    rewrite Et, lookup_insert. case_decide as E; [subst u|by exists k0; split_and!; [| |intros []]].
    exists k1. split_and!; [done| |by intros []].
    destruct Hv as [?|[_ Hno]]; [done|by destruct (Hno _ Ho)].
  - intros m w. rewrite Eb. simpl. intros Hty [_ Hin]%elem_of_remove_addr.
    unfold mutex_of. rewrite Em. by apply Hps.
  - intros m. rewrite Eb. apply Hps.
Qed.

Lemma left_pprio : pprio no_extra (fun u => owner s (blk_obj k) u) s1.
Proof.
  destruct Hpi as [_ Hpp]. destruct Ek as (Ep & Ebp & _). intros u k' Hu Ha Hno. apply is_targetX_none.
  destruct (left_task _ _ Hu Ha) as (k0 & Hk0 & Ha0 & HD0 & ->).
  unfold is_target. rewrite (left_field b_prio u Ebp).
  eapply is_min_ext, (Hpp u k0 Hk0 Ha0 HD0).
  - intros w. rewrite left_waits. split; [|by intros [? _]]. intros Hw. split; [done|].
    intros ->. by apply Hno, left_waits_uniq.
  - intros w _. symmetry. by apply (left_field prio).
Qed.

(** The owner is not affected when its priority comes from somewhere else. *)
Lemma left_owner_keeps u ku :
  owner s (blk_obj k) u -> tasks s1 !! u = Some ku -> is_alive ku = true -> prio ku <> prio k ->
  is_target s1 u (prio ku).
Proof.
  intros Ho Hu Ha Hne. destruct Hpi as [_ Hpp]. destruct Ek as (Ep & Ebp & _).
  destruct (left_task _ _ Hu Ha) as (k0 & Hk0 & Ha0 & HD0 & E). rewrite E in *.
  destruct (Hpp u k0 Hk0 Ha0 HD0) as (Hb & Hw & Hex). unfold is_target.
  rewrite (left_field b_prio u Ebp). split_and!; [done| |].
  - intros w [Hw' _]%left_waits. rewrite (left_field prio w Ep). by apply Hw.
  - destruct Hex as [?|(w & Hw' & Ew)]; [by left|right]. exists w. rewrite (left_field prio w Ep).
    split; [|done]. apply left_waits. split; [done|]. intros ->.
    by rewrite (task_of_Some _ _ _ Ht) in Ew.
Qed.

Lemma left_reset :
  let s2 := mutex_task_pri_reset t s1 in
  kwf idle s2 /\ pinv s2 /\ pri_frame s1 s2 /\ err_log s2 = err_log s1.
Proof.
  destruct Ek as (Ep & _ & _ & Ebo).
  assert (blk_obj (task_of s1 t) = blk_obj k /\ prio (task_of s1 t) = prio k) as [Eo Ept].
  { unfold task_of. rewrite Et, lookup_total_insert_eq. done. }
  unfold mutex_task_pri_reset. rewrite Eo, Ept. change (obj_type (blk_of s1 (blk_obj k)))
    with (obj_type (blk_of s1 (blk_obj k))).
  pose proof (kwf_pending _ _ _ _ _ H Ht Hp eq_refl) as Hin.
  case_decide as Ety; rewrite Eb in Ety; simpl in Ety.
  - assert (mutex_of s1 (blk_obj k) = mutex_of s (blk_obj k)) as -> by (unfold mutex_of; by rewrite Em).
    set (mt := mutex_task (mutex_of s (blk_obj k))).
    destruct (ps_held (proj1 Hpi) _ _ Ety Hin) as [Hmn Hmt].
    assert (owner s (blk_obj k) mt) as Ho by done.
    destruct (ps_owner left_pstruct _ _ (proj2 (left_owner _ _) Ho)) as (km & Hkm & Ham & _).
    assert (pprio no_extra (fun u => u = mt) s1) as Hpp1.
    { intros u ku Hu Hau Hne. apply left_pprio; [done..|]. intros Ho'. apply Hne. by eapply owner_unique. }
    destruct (Z.eqb_spec (prio (task_of s1 mt)) (prio k)) as [E|E].
    + destruct (mutex_release_null_spec idle mt s1 km) as (? & ? & ? & ?); try done; [apply left_pstruct|].
      by apply (owner_not_idle idle s (blk_obj k)).
    + split_and!; try done. split; [apply left_pstruct|]. intros u ku Hu Hau _.
      destruct (decide (u = mt)) as [->|Hne]; [|by apply is_targetX_none, Hpp1].
      eapply left_owner_keeps; eauto. by rewrite (task_of_Some _ _ _ Hu) in E.
  - split_and!; try done. split; [apply left_pstruct|]. intros u ku Hu Hau _. apply is_targetX_none, left_pprio; try done.
    by intros [? _].
Qed.
End Left.

(** ** The state in which a task has left every waiting list *)
Definition dropped (st : task_stat_t) (bst : blk_state_t) k : ktask_t :=
  k <| tick_head := false |> <| blk_state := bst |> <| task_state := st |>.

Definition drop_state t k (st : task_stat_t) (bst : blk_state_t) (rq : runqueue_t) s : kstate :=
  s <| tasks := <[t := dropped st bst k]> (tasks s) |> <| g_ready_queue := rq |>
    <| blk_objs ::= fmap (rm_from t) |> <| g_tick_head ::= remove_addr t |>.

(** The states a dropped task can be in. *)
Definition off_state (st : task_stat_t) : Prop := st = K_RDY \/ st = K_SUSPENDED \/ st = K_DELETED.

Definition drop_rq (st : task_stat_t) t k (ap : Z) (rq : runqueue_t) : runqueue_t :=
  if decide (st = K_RDY) then ready_list_add rq t (prio k) ap else rq.

Lemma drop_ok t k st bst :
  task_ok t k -> off_state st -> (st = K_SUSPENDED -> is_suspended k = true) -> task_ok t (dropped st bst k).
Proof.
  intros [? ? ? ? ? ? Hsus] Hst Hs. split; rsimpl; try done; unfold is_sleeping, is_suspended, dropped; rsimpl.
  - by destruct Hst as [-> |[-> | ->]].
  - destruct Hst as [-> |[-> | ->]]; try done. intros _. by apply Hsus, Hs.
Qed.

Lemma drop_rq_step t k st bst ap rq :
  task_state k <> K_RDY -> off_state st -> rq_step t k (dropped st bst k) rq (drop_rq st t k ap rq).
Proof.
  intros Hk Hst. unfold drop_rq. case_decide as E.
  - apply rq_enter; [by apply rdy_prio_None|done|done].
  - constructor. rewrite (proj2 (rdy_prio_None k)) by done. by apply rdy_prio_None.
Qed.

Lemma drop_kwf idle s t k st bst ap :
  kwf idle s -> tasks s !! t = Some k -> task_state k <> K_RDY -> off_state st ->
  (st = K_SUSPENDED -> is_suspended k = true) ->
  kwf idle (drop_state t k st bst (drop_rq st t k ap (g_ready_queue s)) s).
Proof.
  intros H Ht Hk Hst Hs. unfold drop_state.
  eapply (kwf_step idle s _ t k (dropped st bst k)); rsimpl; try done.
  - by eapply kwf_not_idle.
  - apply drop_ok; [by eapply kwf_task_ok|done..].
  - by apply drop_rq_step.
  - apply blk_leave. unfold pend_on, is_pending, dropped; rsimpl. by destruct Hst as [-> |[-> | ->]].
  - by apply tick_leave.
Qed.

Lemma pending_not_ready k : is_pending k = true -> task_state k <> K_RDY.
Proof. intros Hp E. apply ready_not_pending in E. congruence. Qed.

Lemma dropped_alive st bst k : st <> K_DELETED -> off_state st -> is_alive (dropped st bst k) = true.
Proof. intros Hd [-> |[-> | ->]]; done. Qed.

(** Leaving and taking the lent priority back, as one step of the invariant. *)
Lemma drop_reset_kbody idle s t k st bst ap :
  kbody idle none s -> tasks s !! t = Some k -> is_pending k = true -> off_state st -> st <> K_DELETED ->
  (st = K_SUSPENDED -> is_suspended k = true) ->
  let s1 := drop_state t k st bst (drop_rq st t k ap (g_ready_queue s)) s in
  let s2 := mutex_task_pri_reset t s1 in
  kbody idle none s2 /\ pri_frame s1 s2.
Proof.
  intros Hb Ht Hp Hst Hnd Hs s1.
  pose proof (drop_kwf idle s t k st bst ap (kb_wf Hb) Ht (pending_not_ready _ Hp) Hst Hs) as H1. fold s1 in H1.
  assert (forall o, blk_of s1 o = rm_from t (blk_of s o)) as Eb.
  { intros o. unfold blk_of, s1, drop_state; rsimpl. apply rm_from_lookup. }
  destruct (left_reset idle none s s1 t k (dropped st bst k)) as (H2 & Hpi2 & F & Ee); try done.
  { apply Hb. } { apply Hb. } { left. by apply dropped_alive. }
  cbv zeta. set (s2 := mutex_task_pri_reset t s1) in *. split; [|done].
  assert (kframe s s2) as F2 by (etrans; [|apply F]; by split).
  apply (kbody_via idle none none s); try done.
  - eapply (objinv_via none none s); [apply Hb|apply F2..|]. intros o _ Hne. right.
    apply (pri_frame_list_nonempty _ _ _ F) in Hne. rewrite Eb in Hne.
    split_and!; [by intros []|exact (remove_addr_nonempty t _ Hne)|]. rewrite (pf_type _ _ F), Eb. done.
  - rewrite (pf_type _ _ F), Eb. apply Hb.
  - intros Hr _. rewrite (pri_frame_state _ _ _ F). unfold task_of, s1, drop_state; rsimpl.
    destruct (decide (t = g_active_task s)) as [E|]; [|by rewrite lookup_total_insert_ne].
    rewrite <- E, (task_of_Some _ _ _ Ht) in Hr. by apply pending_not_ready in Hp.
Qed.

(** [task->blk_obj = NULL] on a task that is not blocked. *)
Lemma clear_blk_obj_kbody idle D s t k :
  kbody idle D s -> tasks s !! t = Some k -> is_pending k = false -> t <> k_idle idle ->
  kbody idle D (upd_task t (fun k => k <| blk_obj := NULL |>) s).
Proof.
  intros Hb Ht Hp Hid. rewrite (upd_task_eq _ _ k) by done.
  eapply (kbody_move_task idle D s _ t k); try done.
  eapply (kwf_step idle s _ t k); rsimpl; try done; [apply Hb|..].
  - by destruct (kwf_task_ok _ _ _ _ (kb_wf Hb) Ht).
  - by constructor.
  - assert (pend_on k = None) as Ek by (unfold pend_on; by rewrite Hp).
    constructor; [|by right]. rewrite Ek. unfold pend_on, is_pending in *; rsimpl. by rewrite Hp.
  - by constructor.
Qed.

(** A waiting task is made to leave, with result [bst]. *)
Lemma drop_clear_kbody idle s t k st bst ap :
  kbody idle none s -> tasks s !! t = Some k -> is_pending k = true -> off_state st -> st <> K_DELETED ->
  (st = K_SUSPENDED -> is_suspended k = true) ->
  kbody idle none (upd_task t (fun k => k <| blk_obj := NULL |>)
    (mutex_task_pri_reset t (drop_state t k st bst (drop_rq st t k ap (g_ready_queue s)) s))).
Proof.
  intros Hb Ht Hp Hst Hnd Hs.
  destruct (drop_reset_kbody idle s t k st bst ap Hb Ht Hp Hst Hnd Hs) as [Hb2 F].
  set (s1 := drop_state _ _ _ _ _ _) in *.
  assert (tasks s1 !! t = Some (dropped st bst k)) as Ht1.
  { unfold s1, drop_state; rsimpl. by rewrite lookup_insert_eq. }
  eapply clear_blk_obj_kbody; [done|by eapply pri_frame_task| |].
  - unfold is_pending, dropped; rsimpl. by destruct Hst as [-> |[-> | ->]].
  - eapply kwf_not_idle; [apply Hb|exact Ht|by apply pending_not_ready].
Qed.

(** ** Moves that involve no block list *)
Lemma kbody_step idle D s s' t k k' :
  kbody idle D s -> t <> k_idle idle -> tasks s !! t = Some k -> task_ok t k' ->
  tasks s' = <[t := k']> (tasks s) -> rq_step t k k' (g_ready_queue s) (g_ready_queue s') ->
  blk_objs s' = blk_objs s -> pend_on k' = pend_on k -> pview k' = pview k -> prio k' = prio k ->
  tick_step t k k' (g_tick_head s) (tasks s) (g_tick_count s) (g_tick_head s') ->
  kframe s s' -> mutexes s' = mutexes s -> err_log s' = err_log s ->
  (task_state k = K_RDY -> 0 < g_sched_lock s -> t = g_active_task s -> task_state k' = K_RDY) ->
  kbody idle D s'.
Proof.
  intros Hb Hid Ht Hok Ets Hrq Ebl Hpend Hpv Hpr Htick F Em Ee Hact.
  eapply (kbody_move_task idle D s s' t k k'); try done.
  eapply (kwf_step idle s s' t k k'); try done; [apply Hb| |apply F].
  rewrite Ebl. constructor; auto.
Qed.

(** ** The tick interrupt *)

(** What the walk needs to know about an expired task. *)
Record expired_frame t s s' : Prop := {
  ef_frame : kframe s s';
  ef_head : g_tick_head s' = remove_addr t (g_tick_head s);
  ef_match : forall u, u <> t -> tick_match (task_of s' u) = tick_match (task_of s u) /\
    tick_head (task_of s' u) = tick_head (task_of s u);
}.

Lemma sleeper_expire_kbody idle s t k st bst ap :
  kbody idle none s -> tasks s !! t = Some k -> is_sleeping k = true ->
  st = K_RDY \/ (st = K_SUSPENDED /\ is_suspended k = true) ->
  let s' := s <| tasks := <[t := dropped st bst k]> (tasks s) |>
              <| g_ready_queue := drop_rq st t k ap (g_ready_queue s) |> <| g_tick_head ::= remove_addr t |> in
  kbody idle none s'.
Proof.
  intros Hb Ht Hsl Hst s'.
  assert (task_state k <> K_RDY) as Hr by (intros E; unfold is_sleeping in Hsl; by rewrite E in Hsl).
  assert (is_pending k = false) as Hp by (unfold is_sleeping, is_pending in *; by destruct (task_state k)).
  assert (off_state st) as Hoff by (unfold off_state; naive_solver).
  eapply (kbody_step idle none s s' t k (dropped st bst k)); try done.
  - eapply kwf_not_idle; [apply Hb|done..].
  - apply drop_ok; [eapply kwf_task_ok; [apply Hb|done]|done|]. naive_solver.
  - unfold s'; rsimpl. by apply drop_rq_step.
  - unfold pend_on, is_pending, dropped in *; rsimpl. rewrite Hp. by destruct Hoff as [-> |[-> | ->]].
  - unfold pview. rewrite (dropped_alive st) by naive_solver.
    assert (is_alive k = true) as -> by (unfold is_sleeping, is_alive in *; by destruct (task_state k)). done.
  - unfold s'; rsimpl. by apply tick_leave.
Qed.

(** Closed forms of the branches of [tick_expire]. *)
Lemma tick_expire_sleep idle s t k :
  kwf idle s -> tasks s !! t = Some k -> task_state k = K_SLEEP ->
  tick_expire t s = s <| tasks := <[t := dropped K_RDY BLK_FINISH k]> (tasks s) |>
    <| g_ready_queue := drop_rq K_RDY t k (prio (task_of s (g_active_task s))) (g_ready_queue s) |>
    <| g_tick_head ::= remove_addr t |>.
Proof.
  intros H Ht Es. unfold tick_expire. rewrite (task_of_Some _ _ _ Ht), Es, upd_task_upd, (upd_task_eq _ _ k) by done.
  erewrite tick_list_rm_eq; [|rsimpl; by rewrite lookup_insert_eq|rsimpl; by eapply kwf_tick_off].
  unfold k_ready_list_add, task_of, drop_rq. rewrite decide_True by done.
  assert (forall k', prio k' = prio k ->
    prio (<[t := k']> (tasks s) !!! g_active_task s) = prio (tasks s !!! g_active_task s)) as Eap.
  { intros k' E. destruct (decide (t = g_active_task s)) as [<-|]; [|by rewrite lookup_total_insert_ne].
    by rewrite lookup_total_insert_eq, (lookup_total_Some _ _ _ Ht). }
  kstate_eq; rewrite insert_insert_eq; [|done]. rewrite lookup_total_insert_eq, Eap by done. done.
Qed.

Lemma prio_of_insert s t k k' u :
  tasks s !! t = Some k -> prio k' = prio k -> prio (<[t := k']> (tasks s) !!! u) = prio (tasks s !!! u).
Proof.
  intros Ht E. destruct (decide (t = u)) as [<-|]; [|by rewrite lookup_total_insert_ne].
  by rewrite lookup_total_insert_eq, (lookup_total_Some _ _ _ Ht).
Qed.

Lemma rm_lists_eq idle s t k :
  kwf idle s -> tasks s !! t = Some k ->
  blk_list_rm t (tick_list_rm t s) =
    s <| tasks := <[t := k <| tick_head := false |>]> (tasks s) |>
      <| blk_objs ::= fmap (rm_from t) |> <| g_tick_head ::= remove_addr t |>.
Proof.
  intros H Ht. rewrite (tick_list_rm_eq _ _ k); [|done|by eapply kwf_tick_off]. unfold blk_list_rm. by kstate_eq.
Qed.

(** Leaving the lists for the ready queue, in the order of [tick_expire] and of
    [krhino_task_wait_abort]. *)
Lemma drop_ready_eq idle s t k bst :
  kwf idle s -> tasks s !! t = Some k ->
  let s0 := k_ready_list_add t (blk_list_rm t (tick_list_rm t s)) in
  let sd := drop_state t k K_RDY bst (drop_rq K_RDY t k (prio (task_of s (g_active_task s))) (g_ready_queue s)) s in
  upd_task t (fun k => k <| task_state := K_RDY |>) (upd_task t (fun k => k <| blk_state := bst |>) s0) = sd /\
  upd_task t (fun k => k <| blk_state := bst |>) (upd_task t (fun k => k <| task_state := K_RDY |>) s0) = sd.
Proof.
  intros H Ht. cbv zeta. rewrite (rm_lists_eq idle _ _ k) by done. rewrite !upd_task_upd.
  unfold k_ready_list_add, drop_state, drop_rq, task_of. rewrite decide_True by done. rsimpl.
  rewrite lookup_total_insert_eq, (prio_of_insert s t k) by done. rsimpl.
  erewrite !upd_task_eq by (rsimpl; by rewrite lookup_insert_eq).
  split; kstate_eq; by rewrite insert_insert_eq.
Qed.

Lemma drop_suspended_eq idle s t k bst ap :
  kwf idle s -> tasks s !! t = Some k ->
  upd_task t (fun k => k <| task_state := K_SUSPENDED |>)
    (upd_task t (fun k => k <| blk_state := bst |>) (blk_list_rm t (tick_list_rm t s))) =
  drop_state t k K_SUSPENDED bst (drop_rq K_SUSPENDED t k ap (g_ready_queue s)) s.
Proof.
  intros H Ht. rewrite (rm_lists_eq idle _ _ k), upd_task_upd by done. unfold drop_state, drop_rq.
  rewrite decide_False by done. erewrite upd_task_eq by (rsimpl; by rewrite lookup_insert_eq).
  kstate_eq. by rewrite insert_insert_eq.
Qed.

Lemma tick_expire_sleep_suspended idle s t k :
  kwf idle s -> tasks s !! t = Some k -> task_state k = K_SLEEP_SUSPENDED ->
  tick_expire t s = s <| tasks := <[t := dropped K_SUSPENDED BLK_FINISH k]> (tasks s) |>
    <| g_ready_queue := drop_rq K_SUSPENDED t k 0 (g_ready_queue s) |> <| g_tick_head ::= remove_addr t |>.
Proof.
  intros H Ht Es. unfold tick_expire. rewrite (task_of_Some _ _ _ Ht), Es, upd_task_upd, (upd_task_eq _ _ k) by done.
  erewrite tick_list_rm_eq; [|rsimpl; by rewrite lookup_insert_eq|rsimpl; by eapply kwf_tick_off].
  unfold drop_rq. rewrite decide_False by done. kstate_eq. by rewrite insert_insert_eq.
Qed.

(** Expiry of a waiting task, in both pending states. *)
Lemma tick_expire_pend idle s t k :
  kwf idle s -> tasks s !! t = Some k -> is_pending k = true ->
  let st := if decide (task_state k = K_PEND) then K_RDY else K_SUSPENDED in
  let ap := prio (task_of s (g_active_task s)) in
  tick_expire t s = upd_task t (fun k => k <| blk_obj := NULL |>)
    (mutex_task_pri_reset t (drop_state t k st BLK_TIMEOUT (drop_rq st t k ap (g_ready_queue s)) s)).
Proof.
  intros H Ht Hp. cbv zeta. unfold tick_expire. rewrite (task_of_Some _ _ _ Ht).
  destruct (is_pending_cases _ Hp) as [E|E]; rewrite E; [rewrite !decide_True by done|rewrite !decide_False by done].
  - by rewrite (proj1 (drop_ready_eq idle s t k BLK_TIMEOUT H Ht)).
  - by rewrite (drop_suspended_eq idle s t k BLK_TIMEOUT (prio (task_of s (g_active_task s))) H Ht).
Qed.

Lemma timed_task_cases k : is_sleeping k = true \/ is_pending k = true ->
  task_state k = K_SLEEP \/ task_state k = K_SLEEP_SUSPENDED \/ is_pending k = true.
Proof. unfold is_sleeping, is_pending. destruct (task_state k); naive_solver. Qed.

Lemma drop_frame_others s t k st bst rq u :
  u <> t -> task_of (drop_state t k st bst rq s) u = task_of s u.
Proof. intros Hu. unfold task_of, drop_state; rsimpl. by rewrite lookup_total_insert_ne. Qed.

Lemma tick_expire_spec idle s t k :
  kbody idle none s -> tasks s !! t = Some k -> tick_head k = true ->
  kbody idle none (tick_expire t s) /\ expired_frame t s (tick_expire t s).
Proof.
  intros Hb Ht Hth. pose proof (kwf_task_ok _ _ _ _ (kb_wf Hb) Ht) as Hok.
  destruct (timed_task_cases k (to_tick _ _ Hok Hth)) as [E|[E|Hp]].
  - rewrite (tick_expire_sleep idle s t k (kb_wf Hb) Ht E). split.
    + eapply sleeper_expire_kbody; [done..| |by left]. unfold is_sleeping. by rewrite E.
    + split; [by split|done|]. intros u Hu. unfold task_of; rsimpl. by rewrite lookup_total_insert_ne.
  - rewrite (tick_expire_sleep_suspended idle s t k (kb_wf Hb) Ht E). split.
    + eapply sleeper_expire_kbody; [done..| |right; split; [done|]]; unfold is_sleeping, is_suspended; by rewrite E.
    + split; [by split|done|]. intros u Hu. unfold task_of; rsimpl. by rewrite lookup_total_insert_ne.
  - rewrite (tick_expire_pend idle s t k (kb_wf Hb) Ht Hp). cbv zeta.
    set (st := if decide (task_state k = K_PEND) then K_RDY else K_SUSPENDED).
    assert (off_state st) as Hst by (subst st; unfold off_state; case_decide; auto).
    assert (st <> K_DELETED) as Hnd by (subst st; by case_decide).
    assert (st = K_SUSPENDED -> is_suspended k = true) as Hs.
    { subst st. case_decide as E; [done|]. intros _. unfold is_suspended.
      by destruct (is_pending_cases _ Hp) as [E'|E']; rewrite E' in *. }
    split; [by apply drop_clear_kbody|].
    destruct (drop_reset_kbody idle s t k st BLK_TIMEOUT (prio (task_of s (g_active_task s))) Hb Ht Hp Hst Hnd Hs)
      as [_ F].
    set (s1 := drop_state _ _ _ _ _ _) in *.
    split.
    + etrans; [|etrans; [apply F|by split]]. by split.
    + change (g_tick_head (mutex_task_pri_reset t s1) = remove_addr t (g_tick_head s)). by rewrite (pf_tick _ _ F).
    + intros u Hu. rewrite task_of_upd_ne by done.
      rewrite (pri_frame_field tick_match _ _ u) by done. rewrite (pri_frame_field tick_head _ _ u) by done.
      unfold s1. by rewrite drop_frame_others.
Qed.

Definition env (i : Z) (lb : Z) : kenv := {| k_idle := i; k_lb := lb |}.

Lemma kbody_env i lb lb' D s :
  kbody (env i lb) D s -> 0 <= lb' <= 1 ->
  (forall t m, tick_map (tasks s) !! t = Some m -> lb' <= wrap32 (m - g_tick_count s)) -> kbody (env i lb') D s.
Proof. intros [[] ? ? ? ? ? ?] Hlb Hpos. by split; [split|..]. Qed.

Lemma wrap32_dec m now : u32 m -> u32 now -> 1 <= wrap32 (m - now) ->
  wrap32 (m - wrap32 (now + 1)) = wrap32 (m - now) - 1.
Proof.
  intros Hm Hn Hp. rewrite wrap32_sub_r. unfold wrap32, u32 in *.
  replace (m - (now + 1)) with ((m - now) - 1) by lia.
  pose proof (Z.mod_pos_bound (m - now) (2 ^ 32)). rewrite <- Zminus_mod_idemp_l. apply Z.mod_small. lia.
Qed.

(** Advancing the clock takes one tick from every running timeout. *)
Lemma advance_kbody i D s :
  kbody (env i 1) D s ->
  kbody (env i 0) D (s <| g_tick_count ::= fun n => wrap32 (n + 1) |> <| g_sys_time_tick ::= fun n => wrap64 (n + 1) |>).
Proof.
  intros [[Hr Hbl Htk Hpos Hlb Hnow Hts Hi Hf He] Hpi Hobj Hnull Hlock Hnest Hl]. split; try done.
  2:{ by apply (pinv_same none s). }
  assert (forall t m, tick_map (tasks s) !! t = Some m ->
    wrap32 (m - wrap32 (g_tick_count s + 1)) = wrap32 (m - g_tick_count s) - 1) as Hdec.
  { intros t m Hm. apply wrap32_dec; [|done|by eapply Hpos]. apply abs_Some in Hm as (k & Hk & Hd).
    unfold deadline in Hd. destruct (tick_head k); [|done]. injection Hd as <-. by apply (Hts _ _ Hk). }
  split; rsimpl; try done.
  - destruct Htk as [Td Te Ts]. split; try done. eapply StronglySorted_impl, Ts.
    intros x y [mx Hx]%Te [my Hy]%Te. unfold left_at.
    rewrite (lookup_total_Some _ _ _ Hx), (lookup_total_Some _ _ _ Hy), (Hdec _ _ Hx), (Hdec _ _ Hy). lia.
  - intros t m Hm. rewrite (Hdec _ _ Hm). specialize (Hpos _ _ Hm). simpl in *. lia.
  - apply wrap32_range.
Qed.

Lemma tick_rep_head_min l T now t t' m m' :
  tick_rep (t :: l) T now -> T !! t = Some m -> T !! t' = Some m' -> wrap32 (m - now) <= wrap32 (m' - now).
Proof.
  intros [_ He Hs] Ht Ht'. assert (t' ∈ t :: l) as Hin by (apply He; eauto).
  pose proof (StronglySorted_head (left_at T now) _ _ _ Hs Hin) as Hle. unfold left_at in Hle.
  by rewrite (lookup_total_Some _ _ _ Ht), (lookup_total_Some _ _ _ Ht') in Hle.
Qed.

(** The walk expires exactly the tasks whose time has come. *)
Lemma tick_list_walk_kbody i l s :
  kbody (env i 0) none s -> g_tick_head s = l ->
  kbody (env i 1) none (tick_list_walk l s) /\ kframe s (tick_list_walk l s).
Proof.
  revert s. induction l as [|t l IH]; intros s Hb El; cbn [tick_list_walk].
  - split; [|done]. eapply (kbody_env i 0); [done|lia|]. intros t m Hm.
    assert (t ∈ g_tick_head s) as Hin by (apply (tr_elem _ _ _ (kw_tick (kb_wf Hb))); eauto).
    rewrite El in Hin. by apply elem_of_nil in Hin.
  - assert (t ∈ g_tick_head s) as Hin by (rewrite El; by left).
    apply (tr_elem _ _ _ (kw_tick (kb_wf Hb))) in Hin as [m Hm]. pose proof Hm as Hm'.
    apply abs_Some in Hm' as (k & Hk & Hd). unfold deadline in Hd. destruct (tick_head k) eqn:Eth; [|done].
    injection Hd as <-. rewrite (task_of_Some _ _ _ Hk).
    destruct (Z.eqb_spec (g_tick_count s) (tick_match k)) as [E|E].
    + destruct (tick_expire_spec (env i 0) s t k Hb Hk Eth) as [Hb1 F1].
      destruct (IH (tick_expire t s) Hb1) as [Hb2 F2].
      { rewrite (ef_head _ _ _ F1), El. apply remove_addr_head. rewrite <- El.
        apply (tr_nodup _ _ _ (kw_tick (kb_wf Hb))). }
      split; [done|]. etrans; [apply F1|exact F2].
    + split; [|done]. eapply (kbody_env i 0); [done|lia|]. intros t' m' Ht'.
      transitivity (wrap32 (tick_match k - g_tick_count s)).
      * pose proof (to_match _ _ (kwf_task_ok _ _ _ _ (kb_wf Hb) Hk)) as Hu. pose proof (kw_now (kb_wf Hb)) as Hn.
        pose proof (wrap32_range (tick_match k - g_tick_count s)) as Hw. unfold u32, wrap32 in *.
        destruct (decide ((tick_match k - g_tick_count s) mod 2 ^ 32 = 0)) as [E0|]; [|lia].
        apply Z.mod_divide in E0 as [q Hq]; [|lia]. assert (q = 0) by nia. lia.
      * eapply (tick_rep_head_min l _ _ t); [|done..]. rewrite <- El. apply (kw_tick (kb_wf Hb)).
Qed.

(** [schedok] says nothing inside an interrupt handler. *)
Lemma schedok_intrpt s : in_intrpt s = true -> schedok s.
Proof. unfold in_intrpt, schedok. intros E _ En. rewrite En in E. done. Qed.

Lemma tick_list_update_kbody i s :
  kbody (env i 1) none s -> kbody (env i 1) none (tick_list_update s) /\ g_sched_lock (tick_list_update s) = g_sched_lock s /\
  g_intrpt_nested_level (tick_list_update s) = g_intrpt_nested_level s /\ g_active_task (tick_list_update s) = g_active_task s /\
  g_sys_stat (tick_list_update s) = g_sys_stat s.
Proof.
  intros Hb. unfold tick_list_update, RHINO_CRITICAL_ENTER, RHINO_CPU_INTRPT_DISABLE. cbv beta iota zeta.
  set (s1 := s <| intrpt_masked := true |>).
  assert (kbody (env i 1) none s1) as Hb1 by (by apply kbody_mask).
  apply advance_kbody in Hb1. set (s2 := _ <| g_sys_time_tick ::= _ |>) in *.
  destruct (tick_list_walk_kbody i (g_tick_head s2) s2 Hb1 eq_refl) as [Hb2 F].
  split; [by apply kbody_mask|]. split_and!; apply F.
Qed.

(** ** Round robin *)
Lemma kbody_rotate idle D s p :
  kbody idle D s -> kbody idle D (s <| g_ready_queue := ready_list_head_to_tail (g_ready_queue s) p |>).
Proof.
  intros [[] ? ? ? ? ? ?]. split; try done; [|by apply (pinv_same none s)]. split; try done.
  by apply ready_list_head_to_tail_rep.
Qed.
