(* ===== verification/TaskApiInv.v ===== *)
(** * Task calls preserve the kernel invariant

    The tick and interrupt handlers, the scheduler lock, and every call of [k_task.c]
    except deletion ([TaskDelInv]). *)
From S2P Require Import Prelude Bitmap KTypes Alloc RunQueue RingBuf Kernel Pend Task Sem Mutex.
From S2P Require Import Invariant InvPend PriInherit KInv ApiInv MutexInv TaskInv.
Local Open Scope Z_scope.

Implicit Types (s : kstate) (t u w m o : Z) (k : ktask_t) (idle : kenv).

(** ** Fields outside the invariant *)

(** The fields of a control block the invariant looks at. *)
Record same_task k k' : Prop := {
  st_state : task_state k' = task_state k;
  st_prio : prio k' = prio k;
  st_bprio : b_prio k' = b_prio k;
  st_list : mutex_list k' = mutex_list k;
  st_blk : blk_obj k' = blk_obj k;
  st_head : tick_head k' = tick_head k;
  st_match : tick_match k' = tick_match k;
  st_susp : suspend_count k' = suspend_count k;
}.

Lemma kwf_touch idle s t k k' :
  kwf idle s -> tasks s !! t = Some k -> same_task k k' -> kwf idle (s <| tasks := <[t := k']> (tasks s) |>).
Proof.
  intros [Hr Hbl Htk Hpos Hlb Hnow Hts Hi Hf He] Ht [Es Ep Eb El Eo Eh Em Ec].
  assert (rdy_prio k' = rdy_prio k) as E1 by (unfold rdy_prio; by rewrite Es, Ep).
  assert (pend_on k' = pend_on k) as E2 by (unfold pend_on, is_pending; by rewrite Es, Eo).
  assert (deadline k' = deadline k) as E3 by (unfold deadline; by rewrite Eh, Em).
  split; rsimpl; unfold ready_map, pend_map, tick_map; rewrite ?(omap_upd_same _ _ _ k) by done; try done.
  - by apply (blk_rep_prio_same _ _ _ _ k).
  - apply map_Forall_insert_2; [|done]. destruct (Hts _ _ Ht).
    split; unfold is_sleeping, is_pending, is_suspended in *; rewrite ?Es, ?Ep, ?Eb, ?Eh, ?Em, ?Ec; done.
Qed.

Lemma kbody_touch idle D s t (f : ktask_t -> ktask_t) :
  kbody idle D s -> is_Some (tasks s !! t) -> (forall k, same_task k (f k)) -> kbody idle D (upd_task t f s).
Proof.
  intros Hb [k Ht] Hf. destruct (Hf k) eqn:Ef. rewrite (upd_task_eq _ _ k) by done.
  eapply (kbody_move_task idle D s _ t k (f k)); try done.
  - eapply kwf_touch; [apply Hb|done|apply Hf].
  - unfold pview, is_alive. by rewrite st_state0, st_prio0, st_bprio0, st_list0.
  - intros Hr _ _. by rewrite st_state0.
Qed.

Lemma kinv_touch idle s t (f : ktask_t -> ktask_t) :
  kinv idle s -> is_Some (tasks s !! t) -> (forall k, same_task k (f k)) -> kinv idle (upd_task t f s).
Proof. intros [Hb Hs] Ht Hf. split; [by apply kbody_touch|by eapply schedok_same, Hs]. Qed.

(** ** The tick interrupt *)
Lemma ready_list_task idle s t p :
  kwf idle s -> t ∈ ready_list (g_ready_queue s) p -> is_Some (tasks s !! t).
Proof.
  intros H Hin. apply (rr_elem _ _ (kw_rq H)) in Hin. apply abs_Some in Hin as (k & Hk & _). by exists k.
Qed.

Lemma time_slice_update_kbody idle s p : kbody idle none s -> kbody idle none (time_slice_update p s).
Proof.
  intros Hb. unfold time_slice_update, RHINO_CRITICAL_ENTER, RHINO_CPU_INTRPT_DISABLE; cbv beta iota zeta.
  set (s1 := s <| intrpt_masked := true |>).
  assert (kbody idle none s1) as Hb1 by (by apply kbody_mask).
  destruct (is_ready_list_empty _ p) eqn:Ee; [by apply kbody_mask|].
  set (t := hd NULL _). assert (is_Some (tasks s1 !! t)) as Ht.
  { apply (ready_list_task idle s1 t p (kb_wf Hb1)). unfold is_ready_list_empty in Ee.
    apply bool_decide_eq_false in Ee. subst t. destruct (ready_list _ p); [done|by left]. }
  destruct (_ =? KSCHED_FIFO); [by apply kbody_mask|]. destruct (_ =? _)%nat; [by apply kbody_mask|].
  assert (kbody idle none (if 0 <? time_slice (task_of s1 t)
      then upd_task t (fun k => k <| time_slice ::= fun n => n - 1 |>) s1 else s1)) as Hb2.
  { destruct (0 <? time_slice (task_of s1 t)); [|done]. by apply kbody_touch. }
  assert (is_Some (tasks (if 0 <? time_slice (task_of s1 t)
      then upd_task t (fun k => k <| time_slice ::= fun n => n - 1 |>) s1 else s1) !! t)) as Ht2.
  { destruct (0 <? _); [|done]. unfold upd_task; rsimpl. rewrite lookup_insert_eq. eauto. }
  destruct (0 <? time_slice (task_of s1 t)); destruct (0 <? _); try (by apply kbody_mask);
    (apply kbody_mask, kbody_touch; [by apply kbody_rotate|done|by split]).
Qed.

Lemma time_slice_update_nest p s :
  g_intrpt_nested_level (time_slice_update p s) = g_intrpt_nested_level s.
Proof.
  unfold time_slice_update, RHINO_CRITICAL_ENTER, RHINO_CPU_INTRPT_DISABLE; cbv beta iota zeta.
  destruct (is_ready_list_empty _ _); [reflexivity|]. destruct (_ =? KSCHED_FIFO); [reflexivity|].
  destruct (_ =? _)%nat; [reflexivity|]. destruct (0 <? time_slice (task_of _ _)).
  all: destruct (0 <? _); reflexivity.
Qed.

Lemma krhino_tick_proc_kinv i s :
  kinv (env i 1) s -> in_intrpt s = true -> kinv (env i 1) (krhino_tick_proc s).
Proof.
  intros [Hb Hs] Hi. unfold krhino_tick_proc.
  destruct (tick_list_update_kbody i s Hb) as (Hb1 & _ & En & _).
  set (s1 := tick_list_update s) in *. split; [by apply time_slice_update_kbody|].
  apply schedok_intrpt. unfold in_intrpt.
  assert (g_intrpt_nested_level (time_slice_update (prio (task_of s1 (g_active_task s1))) s1) =
          g_intrpt_nested_level s1) as ->.
  { apply time_slice_update_nest. }
  by rewrite En.
Qed.

(** ** Interrupt entry and exit, the scheduler lock *)
Lemma kbody_counters idle D s s' :
  kbody idle D s -> tasks s' = tasks s -> blk_objs s' = blk_objs s -> mutexes s' = mutexes s ->
  g_ready_queue s' = g_ready_queue s -> g_tick_head s' = g_tick_head s -> g_tick_count s' = g_tick_count s ->
  err_log s' = err_log s -> sems s' = sems s -> queues s' = queues s -> buf_queues s' = buf_queues s ->
  0 <= g_sched_lock s' <= SCHED_MAX_LOCK_COUNT ->
  0 <= g_intrpt_nested_level s' <= RHINO_CONFIG_INTRPT_MAX_NESTED_LEVEL ->
  (g_sys_stat s' = RHINO_RUNNING -> 0 < g_sched_lock s' -> task_state (task_of s (g_active_task s')) = K_RDY) ->
  kbody idle D s'.
Proof.
  intros [H Hpi Hobj Hnull Hlock Hnest Hl] Et Eb Em Er Eh En Ee E1 E2 E3 Hlk Hn Ha.
  split; unfold blk_of, task_of; rewrite ?Eb, ?Et; try done.
  - unfold kwf. by rewrite Et, Eb, Em, Er, Eh, En, Ee.
  - by apply (pinv_same none s).
  - intros o HD. unfold blk_of. rewrite Eb. intros Hne. apply (obj_quiet_ext s); try done; [|by apply Hobj].
    unfold blk_of. by rewrite Eb.
Qed.

Lemma krhino_intrpt_enter_kinv idle s : kinv idle s -> kinv idle (krhino_intrpt_enter s).2.
Proof.
  intros Hk. unfold krhino_intrpt_enter, RHINO_CPU_INTRPT_ENABLE. kenter idle s.
  destruct (Z.leb_spec RHINO_CONFIG_INTRPT_MAX_NESTED_LEVEL (g_intrpt_nested_level s1)) as [Hn|Hn]; cbn [snd].
  { by apply kinv_mask, kinv_err. }
  apply kinv_mask. destruct Hk1 as [Hb1 _]. pose proof (kb_nest Hb1).
  assert (wrap8 (g_intrpt_nested_level s1 + 1) = g_intrpt_nested_level s1 + 1) as E.
  { apply wrap8_small. unfold u8, RHINO_CONFIG_INTRPT_MAX_NESTED_LEVEL in *. lia. }
  split.
  - eapply (kbody_counters idle none s1); try done; rsimpl; [apply Hb1|lia|apply Hb1].
  - apply schedok_intrpt. unfold in_intrpt. rsimpl. lia.
Qed.

Lemma krhino_intrpt_exit_kinv idle s :
  kinv idle s -> in_intrpt s = true -> kinv idle (krhino_intrpt_exit s).
Proof.
  intros Hk Hi. unfold krhino_intrpt_exit, RHINO_CPU_INTRPT_ENABLE. kenter idle s. destruct Hk1 as [Hb1 _].
  pose proof (kb_nest Hb1). change (in_intrpt s1 = true) in Hi. unfold in_intrpt in Hi. apply Z.ltb_lt in Hi.
  rewrite (proj2 (Z.eqb_neq (g_intrpt_nested_level s1) 0)) by lia.
  assert (wrap8 (g_intrpt_nested_level s1 - 1) = g_intrpt_nested_level s1 - 1) as E.
  { apply wrap8_small. unfold u8, RHINO_CONFIG_INTRPT_MAX_NESTED_LEVEL in *. lia. }
  set (s2 := s1 <| g_intrpt_nested_level ::= _ |>).
  assert (kbody idle none s2) as Hb2.
  { eapply (kbody_counters idle none s1); try done; subst s2; rsimpl; [apply Hb1|lia|apply Hb1]. }
  change (kinv idle (core_sched (s2 <| intrpt_masked := intrpt_masked s |>))). by apply core_sched_kinv, kbody_mask.
Qed.

Lemma krhino_sched_disable_kinv idle s :
  kinv idle s -> g_sys_stat s = RHINO_RUNNING -> kinv idle (krhino_sched_disable s).2.
Proof.
  intros Hk Hrun. unfold krhino_sched_disable. kenter idle s. kif E1.
  destruct (Z.leb_spec SCHED_MAX_LOCK_COUNT (g_sched_lock s1)) as [Hn|Hn]; cbn [snd]; [kreturn|].
  pose proof (kb_lock (proj1 Hk1)). pose proof (kb_nest (proj1 Hk1)).
  assert (wrap8 (g_sched_lock s1 + 1) = g_sched_lock s1 + 1) as E.
  { apply wrap8_small. unfold u8, SCHED_MAX_LOCK_COUNT in *. lia. }
  apply exit_kinv.
  - eapply (kbody_counters idle none s1); try done; rsimpl; [apply Hk1|lia|].
    intros _ _. destruct (kinv_active idle s1 Hk1 Hrun) as (k & Ht & Hr); [left; unfold in_intrpt in E1; lia|].
    by rewrite (task_of_Some _ _ _ Ht).
  - intros _ _. rsimpl. lia.
Qed.

Lemma krhino_sched_enable_kinv idle s : kinv idle s -> kinv idle (krhino_sched_enable s).2.
Proof.
  intros Hk. unfold krhino_sched_enable. kenter idle s. kif E1. kif E2.
  destruct Hk1 as [Hb1 Hs1]. pose proof (kb_lock Hb1).
  assert (wrap8 (g_sched_lock s1 - 1) = g_sched_lock s1 - 1) as E.
  { apply wrap8_small. unfold u8, SCHED_MAX_LOCK_COUNT in *. lia. }
  set (s2 := s1 <| g_sched_lock ::= _ |>).
  assert (kbody idle none s2) as Hb2.
  { eapply (kbody_counters idle none s1); try done; subst s2; rsimpl; [lia|apply Hb1|].
    intros Hr _. apply (kb_locked Hb1 Hr). lia. }
  destruct (0 <? g_sched_lock s2) eqn:E3; cbn [snd]; [|by apply exit_sched_kinv].
  apply exit_kinv; [done|]. intros _ _ En. rewrite En in E3. done.
Qed.

Lemma krhino_task_yield_kinv idle s : kinv idle s -> kinv idle (krhino_task_yield s).2.
Proof.
  intros Hk. unfold krhino_task_yield. kenter idle s. apply exit_sched_kinv, kbody_rotate, Hk1.
Qed.

(** ** Sleep *)
Definition asleep (ticks now : Z) k : ktask_t := with_timeout ticks now (k <| task_state := K_SLEEP |>).

Lemma sleep_eq idle s t k ticks :
  kwf idle s -> tasks s !! t = Some k -> t <> idle -> task_state k = K_RDY -> 0 < ticks ->
  k_ready_list_rm t (tick_list_insert t ticks (upd_task t (fun k => k <| task_state := K_SLEEP |>) s)) =
  s <| tasks := <[t := asleep ticks (g_tick_count s) k]> (tasks s) |> <| g_tick_head := tick_inserted t ticks s |>
    <| g_ready_queue := (ready_list_rm (g_ready_queue s) t (prio k)).1 |>.
Proof.
  intros H Ht Hid Hr Hpos. rewrite (upd_task_eq _ _ k) by done.
  assert (t ∉ g_tick_head s) as Hn.
  { eapply kwf_tick_off; [done..|]. pose proof (kwf_task_ok _ _ _ _ H Ht) as Hok.
    destruct (tick_head k) eqn:E; [|done]. apply (to_tick _ _ Hok) in E.
    unfold is_sleeping, is_pending in E. rewrite Hr in E. by destruct E. }
  erewrite tick_list_insert_eq; [|rsimpl; by rewrite lookup_insert_eq|done|done].
  assert (forall k', tick_inserted t ticks (s <| tasks := <[t := k']> (tasks s) |>) = tick_inserted t ticks s) as Ei.
  { intros k'. unfold tick_inserted. apply insert_where_ext. intros q Hq. rsimpl.
    rewrite lookup_total_insert_ne; [done|]. by intros ->. }
  rewrite (k_ready_list_rm_eq idle _ (ready_map (tasks s))).
  - unfold task_of, asleep. kstate_eq.
    + by rewrite lookup_total_insert_eq.
    + by rewrite Ei.
    + by rewrite insert_insert_eq.
  - exact (kw_rq H).
  - exact (kw_idle H).
  - done.
  - unfold task_of; rsimpl. rewrite lookup_total_insert_eq. exact (kwf_ready _ _ _ _ H Ht Hr).
Qed.

Lemma krhino_task_sleep_kinv idle s ticks :
  kinv idle s -> task_ctx idle s -> u32 ticks -> kinv idle (krhino_task_sleep ticks s).2.
Proof.
  intros Hk Hc Hto. unfold krhino_task_sleep. destruct (Z.eqb_spec ticks 0) as [|Hpos]; [done|].
  kenter idle s. kif E1. kif E2. apply exit_sched_kinv.
  destruct (running_task idle s1 Hk1 Hc E1) as (k & Ht & Hr & Hid). destruct Hk1 as [Hb1 _].
  pose proof (kwf_task_ok _ _ _ _ (kb_wf Hb1) Ht) as Hok.
  assert (0 < ticks) as Ht0 by (unfold u32 in Hto; lia).
  rewrite (sleep_eq idle s1 _ k _ (kb_wf Hb1) Ht Hid Hr Ht0).
  eapply (kbody_step idle none s1 _ _ k (asleep ticks (g_tick_count s1) k)); try done; rsimpl.
  - destruct Hok. split; try done; [apply wrap32_range|by left].
  - by apply rq_leave.
  - unfold pend_on, is_pending. by rewrite Hr.
  - unfold pview, is_alive. by rewrite Hr.
  - apply tick_enter; [|unfold u32 in Hto; lia|done].
    eapply deadline_off; [done|..]; unfold is_sleeping, is_pending; by rewrite Hr.
  - lia.
Qed.

(** ** Suspension *)
Definition with_state (c : Z) (st : task_stat_t) k : ktask_t := k <| suspend_count := c |> <| task_state := st |>.

(** The suspended states differ from the others only in the suspension itself. *)
Definition base_state (st : task_stat_t) : task_stat_t :=
  match st with K_SUSPENDED => K_RDY | K_SLEEP_SUSPENDED => K_SLEEP | K_PEND_SUSPENDED => K_PEND | _ => st end.

Lemma with_state_ok t k c st :
  task_ok t k -> base_state st = base_state (task_state k) ->
  (is_suspended (with_state c st k) = true -> 1 <= c <= 255) -> task_ok t (with_state c st k).
Proof.
  intros [] E Hc. split; try done; unfold is_sleeping, is_pending, is_suspended, with_state in *; rsimpl; try done.
  - intros Hh. specialize (to_tick Hh). destruct (task_state k), st; naive_solver.
  - intros Hst. apply to_sleep. destruct (task_state k), st; naive_solver.
Qed.

Lemma with_state_pend k c st :
  base_state st = base_state (task_state k) -> pend_on (with_state c st k) = pend_on k.
Proof. unfold pend_on, is_pending, with_state; rsimpl. destruct (task_state k), st; done. Qed.

Lemma with_state_pview k c st :
  base_state st = base_state (task_state k) -> pview (with_state c st k) = pview k.
Proof. unfold pview, is_alive, with_state; rsimpl. destruct (task_state k), st; done. Qed.

Lemma with_state_kbody idle s t k c st rq :
  kbody idle none s -> tasks s !! t = Some k -> t <> idle -> base_state st = base_state (task_state k) ->
  (is_suspended (with_state c st k) = true -> 1 <= c <= 255) ->
  rq_step t k (with_state c st k) (g_ready_queue s) rq ->
  (task_state k = K_RDY -> 0 < g_sched_lock s -> t = g_active_task s -> st = K_RDY) ->
  kbody idle none (s <| tasks := <[t := with_state c st k]> (tasks s) |> <| g_ready_queue := rq |>).
Proof.
  intros Hb Ht Hid Hst Hc Hrq Ha.
  eapply (kbody_step idle none s _ t k (with_state c st k)); try done; rsimpl.
  - apply with_state_ok; [eapply kwf_task_ok; [apply Hb|done]|done..].
  - by apply with_state_pend.
  - by apply with_state_pview.
  - by apply tick_keep.
Qed.

(** Without a change of the ready queue. *)
Lemma with_state_kbody' idle s t k c st :
  kbody idle none s -> tasks s !! t = Some k -> t <> idle -> base_state st = base_state (task_state k) ->
  (is_suspended (with_state c st k) = true -> 1 <= c <= 255) ->
  task_state k <> K_RDY -> st <> K_RDY ->
  kbody idle none (s <| tasks := <[t := with_state c st k]> (tasks s) |>).
Proof.
  intros Hb Ht Hid Hst Hc Hk Hs.
  replace (s <| tasks := <[t := with_state c st k]> (tasks s) |>) with
    (s <| tasks := <[t := with_state c st k]> (tasks s) |> <| g_ready_queue := g_ready_queue s |>) by (by kstate_eq).
  apply with_state_kbody; try done. constructor. rewrite (proj2 (rdy_prio_None k)) by done. by apply rdy_prio_None.
Qed.

Lemma with_state_upd s t k c st :
  tasks s !! t = Some k ->
  upd_task t (fun k => k <| task_state := st |>) (upd_task t (fun k => k <| suspend_count := c |>) s) =
  s <| tasks := <[t := with_state c st k]> (tasks s) |>.
Proof. intros Ht. by rewrite upd_task_upd, (upd_task_eq _ _ k). Qed.

Lemma idle_prio idle s t : kwf idle s -> prio (task_of s t) <> RHINO_IDLE_PRI -> t <> idle.
Proof. intros H Hp ->. destruct (kwf_idle_task _ _ H) as (k & Hk & _ & E). by rewrite (task_of_Some _ _ _ Hk) in Hp. Qed.

(** A control block in any state but [K_SEED] belongs to a created task. *)
Lemma task_exists s t : task_state (task_of s t) <> K_SEED -> tasks s !! t = Some (task_of s t).
Proof. unfold task_of. rewrite lookup_total_alt. by destruct (tasks s !! t). Qed.

Ltac ktask t Ht Es :=
  match goal with
  | |- context [match task_state (task_of ?s t) with _ => _ end] =>
      destruct (task_state (task_of s t)) eqn:Es; cbn [fst snd]; try kreturn;
      assert (tasks s !! t = Some (task_of s t)) as Ht by (apply task_exists; by rewrite Es)
  end.

(** One more, or one less, level of suspension. *)
Lemma suspend_more_kbody idle s t k c :
  kbody idle none s -> tasks s !! t = Some k -> is_suspended k = true -> 1 <= c <= 255 ->
  kbody idle none (upd_task t (fun k => k <| suspend_count := c |>) s).
Proof.
  intros Hb Ht Hs Hc. rewrite (upd_task_eq _ _ k) by done.
  assert (task_state k <> K_RDY) as Hr by (intros E; unfold is_suspended in Hs; by rewrite E in Hs).
  replace (k <| suspend_count := c |>) with (with_state c (task_state k) k) by (by destruct k).
  apply with_state_kbody'; try done. exact (kwf_not_idle _ _ _ _ (kb_wf Hb) Ht Hr).
Qed.

Lemma suspend_again_kinv idle s t b :
  kinv idle s -> tasks s !! t = Some (task_of s t) -> is_suspended (task_of s t) = true ->
  kinv idle (if suspend_count (task_of s t) =? SUSPEND_COUNT_MAX
    then (RHINO_SUSPENDED_COUNT_OVF, RHINO_CRITICAL_EXIT b s)
    else (RHINO_SUCCESS, RHINO_CRITICAL_EXIT_SCHED b
      (upd_task t (fun k => k <| suspend_count ::= fun n => wrap8 (n + 1) |>) s))).2.
Proof.
  intros Hk1 Ht Hs. kif E. apply exit_sched_kinv. unfold SUSPEND_COUNT_MAX in E.
  pose proof (to_susp _ _ (kwf_task_ok _ _ _ _ (kb_wf (proj1 Hk1)) Ht) Hs) as Hc.
  assert (wrap8 (suspend_count (task_of s t) + 1) = suspend_count (task_of s t) + 1) as Ew
    by (apply wrap8_small; unfold u8; lia).
  rewrite (upd_task_eq _ _ _ _ Ht); rsimpl.
  change ((task_of s t) <| suspend_count ::= fun n => wrap8 (n + 1) |>)
    with ((task_of s t) <| suspend_count := wrap8 (suspend_count (task_of s t) + 1) |>).
  rewrite Ew, <- (upd_task_eq s t (task_of s t) (fun k => k <| suspend_count := suspend_count (task_of s t) + 1 |>)) by done.
  eapply suspend_more_kbody; [apply Hk1|done|done|lia].
Qed.

Lemma krhino_task_suspend_kinv idle s t : kinv idle s -> kinv idle (krhino_task_suspend t s).2.
Proof.
  intros Hk. unfold krhino_task_suspend, task_suspend. kif E1. kif E2. kenter idle s. kif E3.
  assert (t <> idle) as Hid.
  { apply (idle_prio idle s1 t (kb_wf (proj1 Hk1))). apply Z.eqb_neq. exact E2. }
  ktask t Ht Es; try (apply suspend_again_kinv; [done..|]; unfold is_suspended; by rewrite Es);
    apply exit_sched_kinv; erewrite with_state_upd by done; destruct Hk1 as [Hb1 Hs1].
  - rewrite (k_ready_list_rm_eq idle _ (ready_map (tasks s1))).
    + unfold task_of at 2; rsimpl. rewrite lookup_total_insert_eq; rsimpl.
      apply with_state_kbody; try done; [by rewrite Es|apply (rq_leave t (task_of s1 t)); [done|]|].
      * by apply rdy_prio_None.
      * intros _ Hl ->. rewrite Z.eqb_refl in E3. cbn [andb] in E3. lia.
    + exact (kw_rq (kb_wf Hb1)).
    + exact (kw_idle (kb_wf Hb1)).
    + done.
    + unfold task_of; rsimpl. rewrite lookup_total_insert_eq. exact (kwf_ready _ _ _ _ (kb_wf Hb1) Ht Es).
  - apply with_state_kbody'; try done; by rewrite Es.
  - apply with_state_kbody'; try done; by rewrite Es.
Qed.

(** One level less; the last one ends the suspension with state [st]. *)
Lemma resume_kbody idle s t st (g : kstate -> kstate) :
  kbody idle none s -> tasks s !! t = Some (task_of s t) -> is_suspended (task_of s t) = true ->
  st = base_state (task_state (task_of s t)) ->
  (forall k, tasks s !! t = Some k ->
     kbody idle none (g (s <| tasks := <[t := with_state 0 st k]> (tasks s) |>))) ->
  let s1 := upd_task t (fun k => k <| suspend_count ::= fun n => wrap8 (n - 1) |>) s in
  kbody idle none (if suspend_count (task_of s1 t) =? 0
    then g (upd_task t (fun k => k <| task_state := st |>) s1) else s1).
Proof.
  intros Hb Ht Hs Hst Hg s1. pose proof (to_susp _ _ (kwf_task_ok _ _ _ _ (kb_wf Hb) Ht) Hs) as Hc.
  set (k := task_of s t) in *.
  assert (wrap8 (suspend_count k - 1) = suspend_count k - 1) as Ew by (apply wrap8_small; unfold u8; lia).
  assert (s1 = upd_task t (fun k' => k' <| suspend_count := suspend_count k - 1 |>) s) as E1.
  { subst s1. rewrite !(upd_task_eq _ _ _ _ Ht). rewrite <- Ew. done. }
  rewrite E1, task_of_upd; rsimpl. destruct (Z.eqb_spec (suspend_count k - 1) 0) as [E0|E0].
  - rewrite (with_state_upd _ _ k) by done. rewrite E0. by apply Hg.
  - eapply suspend_more_kbody; [done..|]. lia.
Qed.

Lemma krhino_task_resume_kinv idle s t : kinv idle s -> kinv idle (krhino_task_resume t s).2.
Proof.
  intros Hk. unfold krhino_task_resume, task_resume. kif E1. kenter idle s.
  ktask t Ht Es; apply exit_sched_kinv; destruct Hk1 as [Hb1 Hs1];
    (assert (t <> idle) as Hid by (apply (kwf_not_idle _ _ _ _ (kb_wf Hb1) Ht); by rewrite Es)).
  - apply (resume_kbody idle s1 t K_RDY (k_ready_list_add t)); try done;
      [unfold is_suspended; by rewrite Es|by rewrite Es|].
    intros k Hk'. rewrite Ht in Hk'. injection Hk' as <-. unfold k_ready_list_add. rsimpl.
    apply with_state_kbody; try done; [by rewrite Es|].
    unfold task_of at 3; rsimpl. rewrite lookup_total_insert_eq.
    apply rq_enter; [|done|done]. apply rdy_prio_None. by rewrite Es.
  - apply (resume_kbody idle s1 t K_PEND id); try done; [unfold is_suspended; by rewrite Es|by rewrite Es|].
    intros k Hk'. rewrite Ht in Hk'. injection Hk' as <-. apply with_state_kbody'; try done; by rewrite Es.
  - apply (resume_kbody idle s1 t K_SLEEP id); try done; [unfold is_suspended; by rewrite Es|by rewrite Es|].
    intros k Hk'. rewrite Ht in Hk'. injection Hk' as <-. apply with_state_kbody'; try done; by rewrite Es.
Qed.

(** ** Aborting a wait *)
Lemma abort_sleep_eq idle s t k :
  kwf idle s -> tasks s !! t = Some k ->
  upd_task t (fun k => k <| blk_state := BLK_ABORT |>) (upd_task t (fun k => k <| task_state := K_RDY |>)
    (k_ready_list_add t (tick_list_rm t s))) =
  s <| tasks := <[t := dropped K_RDY BLK_ABORT k]> (tasks s) |>
    <| g_ready_queue := drop_rq K_RDY t k (prio (task_of s (g_active_task s))) (g_ready_queue s) |>
    <| g_tick_head ::= remove_addr t |>.
Proof.
  intros H Ht. rewrite (tick_list_rm_eq _ _ k); [|done|by eapply kwf_tick_off].
  unfold k_ready_list_add, drop_rq, task_of. rewrite decide_True by done. rsimpl.
  rewrite lookup_total_insert_eq, (prio_of_insert s t k) by done. rsimpl. rewrite upd_task_upd.
  erewrite upd_task_eq by (rsimpl; by rewrite lookup_insert_eq). kstate_eq. by rewrite insert_insert_eq.
Qed.

Lemma abort_suspended_kbody idle s t :
  kbody idle none s -> tasks s !! t = Some (task_of s t) -> task_state (task_of s t) = K_SUSPENDED ->
  kbody idle none (k_ready_list_add t (upd_task t (fun k => k <| task_state := K_RDY |>) s)).
Proof.
  intros Hb Ht Es. set (k := task_of s t) in *. clearbody k.
  rewrite (upd_task_eq _ _ _ _ Ht). unfold k_ready_list_add, task_of; rsimpl. rewrite lookup_total_insert_eq.
  replace (k <| task_state := K_RDY |>) with (with_state (suspend_count k) K_RDY k) by (by destruct k).
  apply with_state_kbody; try done; [|by rewrite Es|].
  - apply (kwf_not_idle _ _ _ _ (kb_wf Hb) Ht). by rewrite Es.
  - apply rq_enter; [|done|done]. apply rdy_prio_None. by rewrite Es.
Qed.

Lemma krhino_task_wait_abort_kinv idle s t : kinv idle s -> kinv idle (krhino_task_wait_abort t s).2.
Proof.
  intros Hk. unfold krhino_task_wait_abort. kif E1. kenter idle s. kif E2.
  ktask t Ht Es; apply exit_sched_kinv; destruct Hk1 as [Hb1 Hs1]; [done|..].
  - rewrite (proj2 (drop_ready_eq idle s1 t _ BLK_ABORT (kb_wf Hb1) Ht)).
    apply drop_clear_kbody; try done; [|by left]. unfold is_pending. by rewrite Es.
  - by apply abort_suspended_kbody.
  - rewrite (proj2 (drop_ready_eq idle s1 t _ BLK_ABORT (kb_wf Hb1) Ht)).
    apply drop_clear_kbody; try done; [|by left]. unfold is_pending. by rewrite Es.
  - rewrite (abort_sleep_eq idle s1 t _ (kb_wf Hb1) Ht). apply sleeper_expire_kbody; try done; [|by left].
    unfold is_sleeping. by rewrite Es.
  - rewrite (abort_sleep_eq idle s1 t _ (kb_wf Hb1) Ht). apply sleeper_expire_kbody; try done; [|by left].
    unfold is_sleeping. by rewrite Es.
Qed.

(** ** Priority change *)
Section BasePrio.
Context (idle : kenv) (s : kstate) (t p : Z) (k : ktask_t).
Context (H : kwf idle s) (Hpi : pinv s) (Ht : tasks s !! t = Some k) (Ha : is_alive k = true) (Hid : t <> idle).
Context (Hp : 0 <= p < RHINO_CONFIG_PRI_MAX).
Let s1 := upd_task t (fun k => k <| b_prio := p |>) s.

Lemma bprio_task : tasks s1 = <[t := k <| b_prio := p |>]> (tasks s).
Proof. unfold s1. by rewrite (upd_task_eq _ _ k). Qed.

Lemma bprio_field {A} (f : ktask_t -> A) u :
  (forall k q, f (k <| b_prio := q |>) = f k) -> f (task_of s1 u) = f (task_of s u).
Proof.
  intros Hf. unfold s1. destruct (decide (u = t)) as [->|]; [by rewrite task_of_upd|by rewrite task_of_upd_ne].
Qed.

Lemma bprio_kwf : kwf idle s1.
Proof.
  eapply (kwf_step idle s _ t k (k <| b_prio := p |>)); try done.
  - by destruct (kwf_task_ok _ _ _ _ H Ht).
  - apply bprio_task.
  - by constructor.
  - constructor; [done|by left].
  - by constructor.
Qed.

Lemma bprio_alive u ku : tasks s1 !! u = Some ku -> is_alive ku = true ->
  exists k0, tasks s !! u = Some k0 /\ is_alive k0 = true /\ prio ku = prio k0.
Proof.
  rewrite bprio_task, lookup_insert. case_decide as E; [subst u|by eauto]. intros [= <-] Hau. by exists k.
Qed.

Lemma bprio_pstruct : pstruct s1.
Proof.
  destruct Hpi as [Hps _]. split.
  - intros u ku Hu Hau HD. destruct (bprio_alive _ _ Hu Hau) as (k0 & Hk0 & Ha0 & _).
    destruct (ps_chain Hps _ _ Hk0 Ha0 HD) as (l & Hc & Hl). exists l. split; [|done].
    by rewrite (bprio_field mutex_list).
  - intros m u Ho. destruct (ps_owner Hps m u Ho) as (k0 & Hk0 & Ha0 & HD). rewrite bprio_task, lookup_insert.
    case_decide as E; [|by eauto]. subst u. eexists. split_and!; [done| |done]. rewrite Ht in Hk0. by injection Hk0 as <-.
  - exact (ps_held Hps).
  - exact (ps_policy Hps).
Qed.

Lemma bprio_min W b q : is_min s W b q -> is_min s1 W b q.
Proof. apply is_min_ext; [done|]. intros w _. symmetry. by apply (bprio_field prio). Qed.

Lemma bprio_pprio : pprio no_extra (fun u => u = t) s1.
Proof.
  destruct Hpi as [_ Hpp]. intros u ku Hu Hau Hne. apply is_targetX_none.
  destruct (bprio_alive _ _ Hu Hau) as (k0 & Hk0 & Ha0 & ->). unfold is_target.
  unfold s1 at 3. rewrite task_of_upd_ne by done. apply bprio_min. exact (Hpp u k0 Hk0 Ha0 id).
Qed.

Lemma pri_change_spec q :
  q = mutex_pri_limit t p s ->
  let '(st, s2) := task_pri_change t q s1 in
  pri_run t q s1 st s2 /\ st = RHINO_SUCCESS /\ kwf idle s2 /\ pri_frame s1 s2 /\ pinv s2.
Proof.
  intros ->. pose proof (mutex_pri_limit_min idle s t k p H (proj1 Hpi) Ht Ha) as Hmin.
  pose proof (task_pri_change_spec idle no_extra t (mutex_pri_limit t p s) s1 (k <| b_prio := p |>)
    bprio_kwf bprio_pstruct bprio_pprio) as Hs.
  destruct (task_pri_change t _ s1) as [st s2]. destruct Hs as (Hr & Est & H2 & F & _ & Hps & Hpp); try done.
  - apply is_targetX_none. unfold is_target, s1. rewrite task_of_upd. rsimpl. by apply bprio_min.
  - rewrite bprio_task. by rewrite lookup_insert_eq.
  - split_and!; try done. split; [done|]. by apply pprio_none.
Qed.
End BasePrio.

(** A valid handle: the control block of a task that has been created. *)
Definition valid_task s t : Prop := task_state (task_of s t) <> K_SEED.

(** A priority change as a whole step of the invariant. *)
Lemma pri_frame_kbody idle D s s1 s2 :
  kbody idle D s -> kframe s s1 -> blk_objs s1 = blk_objs s ->
  (forall u, task_state (task_of s1 u) = task_state (task_of s u)) ->
  kwf idle s2 -> pinv s2 -> pri_frame s1 s2 -> kbody idle D s2.
Proof.
  intros Hb F1 Eb Est H2 Hpi2 F. assert (kframe s s2) as F2 by (etrans; [done|apply F]).
  apply (kbody_via idle D D s); try done.
  - eapply (objinv_via D D s); [apply Hb|apply F2..|]. intros o HD Hne. right.
    apply (pri_frame_list_nonempty _ _ _ F) in Hne. unfold blk_of in Hne. rewrite Eb in Hne.
    split_and!; [done..|]. rewrite (pf_type _ _ F). unfold blk_of. by rewrite Eb.
  - rewrite (pf_type _ _ F). unfold blk_of. rewrite Eb. apply Hb.
  - intros Hr _. by rewrite (pri_frame_state _ _ _ F), Est.
Qed.

Lemma krhino_task_pri_change_kinv idle s t pri on :
  kinv idle s -> valid_task s t -> 0 <= pri -> kinv idle (krhino_task_pri_change t pri on s).2.
Proof.
  intros Hk Hv Hpri. unfold krhino_task_pri_change. kif E1. kif E2. kif E3. kif E4.
  destruct (decide (task_state (task_of s t) = K_DELETED)) as [|Hd]; [done|]. kenter idle s. kif E5.
  pose proof (task_exists s1 t Hv) as Ht. destruct Hk1 as [Hb1 Hs1].
  assert (is_alive (task_of s1 t) = true) as Ha.
  { unfold is_alive. destruct (task_state (task_of s1 t)) eqn:E; done. }
  assert (t <> idle) as Hid by (apply (idle_prio idle s1 t (kb_wf Hb1)); change (task_of s1 t) with (task_of s t); lia).
  assert (0 <= pri < RHINO_CONFIG_PRI_MAX) as Hp by (unfold RHINO_IDLE_PRI in *; lia).
  pose proof (pri_change_spec idle s1 t pri _ (kb_wf Hb1) (kb_pi Hb1) Ht Ha Hid Hp _ eq_refl) as Hs. cbv zeta.
  destruct (task_pri_change t (mutex_pri_limit t pri s1) _) as [st s2]. destruct Hs as (_ & -> & H2 & F & Hpi2).
  rewrite decide_True by done. cbn [snd]. apply exit_sched_kinv.
  eapply (pri_frame_kbody idle none s1); [done| | | |done|done|exact F]; [by split|done|].
  intros u. by apply (bprio_field s1 t pri task_state).
Qed.

(** ** Attributes *)
Lemma krhino_task_time_slice_set_kinv idle s t slice :
  kinv idle s -> valid_task s t -> kinv idle (krhino_task_time_slice_set t slice s).2.
Proof.
  intros Hk Hv. unfold krhino_task_time_slice_set. kif E1. kenter idle s. kif E2. rewrite upd_task_upd.
  apply kinv_exit, kinv_touch; [done| |by split]. pose proof (task_exists s1 t Hv). eauto.
Qed.

Lemma krhino_sched_policy_set_kinv idle s t policy :
  kinv idle s -> valid_task s t -> kinv idle (krhino_sched_policy_set t policy s).2.
Proof.
  intros Hk Hv. unfold krhino_sched_policy_set. kif E1. kif E2. kenter idle s. kif E3.
  apply kinv_exit, kinv_touch; [done| |by split]. pose proof (task_exists s1 t Hv). eauto.
Qed.

Lemma krhino_task_info_set_kinv idle s t idx info :
  kinv idle s -> valid_task s t -> kinv idle (krhino_task_info_set t idx info s).2.
Proof.
  intros Hk Hv. unfold krhino_task_info_set. kif E1. kif E2. kenter idle s.
  apply kinv_exit, kinv_touch; [done| |by split]. pose proof (task_exists s1 t Hv). eauto.
Qed.

(** ** Creation *)
Section NewTask.
Context (idle : kenv) (s s' : kstate) (t : Z) (k' : ktask_t).
Context (Hb : kbody idle none s) (Hnew : is_alive (task_of s t) = false) (Hok : task_ok t k').
Context (Halive : task_state k' = K_RDY \/ task_state k' = K_SUSPENDED).
Context (Hth : tick_head k' = false) (Hml : mutex_list k' = NULL) (Hbp : b_prio k' = prio k').
Context (Et : tasks s' = <[t := k']> (tasks s)).
Context (Er : g_ready_queue s' = if decide (task_state k' = K_RDY)
  then ready_list_add_tail (g_ready_queue s) t (prio k') else g_ready_queue s).
Context (Eb : blk_objs s' = blk_objs s) (Em : mutexes s' = mutexes s) (Eh : g_tick_head s' = g_tick_head s).
Context (Ee : err_log s' = err_log s) (En : g_tick_count s' = g_tick_count s).

Lemma new_off {B} (f : ktask_t -> option B) :
  (forall k, task_ok t k -> is_alive k = false -> f k = None) -> (omap f (tasks s) : gmap Z B) !! t = None.
Proof.
  intros Hf. rewrite lookup_omap. unfold task_of in Hnew. rewrite lookup_total_alt in Hnew.
  destruct (tasks s !! t) as [k|] eqn:E; simpl in *; [|done]. apply Hf; [|done].
  exact (kwf_task_ok _ _ _ _ (kb_wf Hb) E).
Qed.

Lemma new_maps : ready_map (tasks s) !! t = None /\ pend_map (tasks s) !! t = None /\ tick_map (tasks s) !! t = None.
Proof.
  split_and!; apply new_off; unfold is_alive.
  - intros k _ E. apply rdy_prio_None. intros E'. by rewrite E' in E.
  - intros k _ E. unfold pend_on, is_pending. by destruct (task_state k).
  - intros k Hk E. apply (deadline_off t); [done|..]; unfold is_sleeping, is_pending; by destruct (task_state k).
Qed.

Lemma new_ready : ready_map (tasks s') =
  if decide (task_state k' = K_RDY) then <[t := prio k']> (ready_map (tasks s)) else ready_map (tasks s).
Proof.
  destruct new_maps as (E & _). rewrite Et. unfold ready_map. rewrite omap_upd. unfold rdy_prio at 1.
  case_decide; [done|]. by apply delete_id.
Qed.

Lemma new_pend : pend_map (tasks s') = pend_map (tasks s).
Proof.
  destruct new_maps as (_ & E & _). rewrite Et. unfold pend_map. rewrite omap_upd.
  assert (pend_on k' = None) as -> by (unfold pend_on, is_pending; by destruct Halive as [-> | ->]). by apply delete_id.
Qed.

Lemma new_tick : tick_map (tasks s') = tick_map (tasks s).
Proof.
  destruct new_maps as (_ & _ & E). rewrite Et. unfold tick_map. rewrite omap_upd.
  assert (deadline k' = None) as -> by (unfold deadline; by rewrite Hth). by apply delete_id.
Qed.

Lemma new_not_idle : t <> idle.
Proof.
  intros ->. destruct (kwf_idle_task _ _ (kb_wf Hb)) as (k & Hk & Hr & _).
  rewrite (task_of_Some _ _ _ Hk) in Hnew. unfold is_alive in Hnew. by rewrite Hr in Hnew.
Qed.

Lemma new_kwf : kwf idle s'.
Proof.
  pose proof new_not_idle as Hid. destruct new_maps as (E1 & E2 & _).
  destruct (kb_wf Hb) as [Hr Hbl Htk Hpos Hlb Hnow Hts Hi Hf He]. unfold kwf. rewrite Er, Eb, Em, Eh, Ee, En.
  split; rewrite ?new_ready, ?new_pend, ?new_tick; try done.
  - case_decide; [|done]. apply ready_list_add_tail_rep; [done|done|apply Hok].
  - rewrite Et. by apply blk_rep_prio_off.
  - rewrite Et. by apply map_Forall_insert_2.
  - case_decide; [|done]. by rewrite lookup_insert_ne by done.
Qed.

Lemma new_other_alive u ku : tasks s' !! u = Some ku -> u <> t -> tasks s !! u = Some ku.
Proof. intros Hu Hne. by rewrite Et, lookup_insert_ne in Hu. Qed.

Lemma new_owner m u : owner s' m u <-> owner s m u.
Proof. unfold owner, blk_of, mutex_of. by rewrite Eb, Em. Qed.

Lemma new_no_owner m : ~ owner s m t.
Proof.
  intros Ho. destruct (ps_owner (proj1 (kb_pi Hb)) _ _ Ho) as (k & Hk & Ha & _).
  rewrite (task_of_Some _ _ _ Hk) in Hnew. congruence.
Qed.

Lemma new_waits w u : waits s' w u <-> waits s w u.
Proof. unfold waits. setoid_rewrite new_owner. unfold blk_of. by rewrite Eb. Qed.

Lemma new_task_of u : u <> t -> task_of s' u = task_of s u.
Proof. intros Hu. unfold task_of. by rewrite Et, lookup_total_insert_ne. Qed.

Lemma new_pinv : pinv s'.
Proof.
  destruct (kb_pi Hb) as [Hps Hpp]. split; [split|].
  - intros u ku Hu Ha HD. destruct (decide (u = t)) as [->|Hne].
    + exists []. unfold held, task_of. rewrite Et, lookup_total_insert_eq, Hml. split_and!; [done|constructor|].
      intros m. rewrite new_owner. split; [by intros ?%elem_of_nil|]. by intros ?%new_no_owner.
    + apply new_other_alive in Hu; [|done]. destruct (ps_chain Hps _ _ Hu Ha HD) as (l & Hc & Hd & Hel).
      exists l. unfold held. rewrite new_task_of, Em by done. split_and!; [done..|]. intros m. by rewrite new_owner.
  - intros m u Ho%new_owner. destruct (ps_owner Hps _ _ Ho) as (k & Hk & Ha & HD). exists k.
    rewrite Et, lookup_insert_ne; [done|]. intros <-. by destruct (new_no_owner _ Ho).
  - intros m w. unfold blk_of, mutex_of. rewrite Eb, Em. apply (ps_held Hps).
  - intros m. unfold blk_of. rewrite Eb. apply (ps_policy Hps).
  - intros u ku Hu Ha HD. unfold is_target. destruct (decide (u = t)) as [->|Hne].
    + rewrite Et, lookup_insert_eq in Hu. injection Hu as <-. unfold task_of. rewrite Et, lookup_total_insert_eq.
      split_and!; [lia| |by left]. intros w (m & Ho & _)%new_waits. by destruct (new_no_owner _ Ho).
    + apply new_other_alive in Hu; [|done]. rewrite new_task_of by done.
      eapply is_min_ext, (Hpp u ku Hu Ha HD); [intros w; by rewrite new_waits|].
      intros w Hw. rewrite new_task_of; [done|]. intros ->.
      destruct (waits_pending _ _ _ _ (kb_wf Hb) Hw) as (kw & m & Hkw & Hpw & _).
      rewrite (task_of_Some _ _ _ Hkw), (is_pending_alive _ Hpw) in Hnew. done.
Qed.

Lemma new_kbody :
  g_sys_stat s' = g_sys_stat s -> g_sched_lock s' = g_sched_lock s -> g_active_task s' = g_active_task s ->
  g_intrpt_nested_level s' = g_intrpt_nested_level s -> sems s' = sems s -> queues s' = queues s ->
  buf_queues s' = buf_queues s -> kbody idle none s'.
Proof.
  intros F1 F2 F3 F4 F5 F6 F7. split; rewrite ?F1, ?F2, ?F3, ?F4.
  - apply new_kwf.
  - apply new_pinv.
  - intros o HD. unfold blk_of. rewrite Eb. intros Hne. apply (obj_quiet_ext s); try done; [|by apply (kb_obj Hb)].
    unfold blk_of. by rewrite Eb.
  - unfold blk_of. rewrite Eb. exact (kb_null Hb).
  - exact (kb_lock Hb).
  - exact (kb_nest Hb).
  - intros Hr Hl. pose proof (kb_locked Hb Hr Hl) as E. rewrite new_task_of; [done|]. intros E'. rewrite E' in E.
    unfold is_alive in Hnew. by rewrite E in Hnew.
Qed.
End NewTask.

Lemma task_init_ok t name p ticks sb ss ar mm cpu :
  t <> NULL -> 0 <= p < RHINO_CONFIG_PRI_MAX -> task_ok t (task_init name p ticks sb ss ar mm cpu).
Proof.
  intros Hn Hp. set (k := task_init _ _ _ _ _ _ _ _).
  assert (prio k = p /\ b_prio k = p /\ tick_match k = 0 /\ tick_head k = false /\
    (task_state k = K_RDY \/ task_state k = K_SUSPENDED /\ suspend_count k = 1)) as (Ep & Eb & Em & Eh & Es).
  { subst k. unfold task_init. destruct (0 <? ar); split_and!; auto; right; split; reflexivity. }
  clearbody k. split; unfold is_sleeping, is_suspended; rewrite ?Ep, ?Eb, ?Em, ?Eh; try done.
  - by destruct Es as [-> |[-> _]].
  - destruct Es as [-> |[-> ->]]; [done|lia].
Qed.

(** The state after a successful creation, before the critical section is left. *)
Definition task_created t (k' : ktask_t) s : kstate :=
  let s := s <| tasks := <[t := k']> (tasks s) |> <| intrpt_masked := true |> in
  let s := s <| g_kobj_list ::= fun kl => kl <| task_head ::= fun l => l ++ [t] |> |> in
  if decide (task_state k' = K_RDY)
  then s <| g_ready_queue := ready_list_add_tail (g_ready_queue s) t (prio k') |> else s.

Lemma task_created_kbody idle s t name p ticks sb ss ar mm cpu :
  kbody idle none s -> is_alive (task_of s t) = false -> t <> NULL -> 0 <= p < RHINO_CONFIG_PRI_MAX ->
  kbody idle none (task_created t (task_init name p ticks sb ss ar mm cpu) s).
Proof.
  intros Hb Hnew Hn Hp. set (k' := task_init _ _ _ _ _ _ _ _).
  assert (task_state k' = K_RDY \/ task_state k' = K_SUSPENDED) as Hst
    by (subst k'; unfold task_init; destruct (0 <? ar); auto).
  assert (tick_head k' = false /\ mutex_list k' = NULL /\ b_prio k' = prio k') as (E1 & E2 & E3)
    by (subst k'; unfold task_init; by destruct (0 <? ar)).
  eapply (new_kbody idle s _ t k'); try done; [by apply task_init_ok|..];
    unfold task_created; case_decide; done.
Qed.

Lemma task_create_kinv idle s t name arg p ticks sb ss entry ar mm cpu :
  kinv idle s -> is_alive (task_of s t) = false -> 0 <= p ->
  kinv idle (task_create t name arg p ticks sb ss entry ar mm cpu s).2.
Proof.
  intros Hk Hnew Hp. unfold task_create. kif E1. kif E2. kif E3. kif E4. kif E7. kif E8. kenter idle s. kif E5. kif E6.
  set (s2 := if p =? RHINO_IDLE_PRI then s1 <| g_idle_task_spawned := 1 |> else s1).
  assert (kinv idle s2 /\ tasks s2 = tasks s) as [Hk2 Et2].
  { subst s2. destruct (p =? RHINO_IDLE_PRI); [|done]. split; [|done]. destruct Hk1 as [Hb1 Hs1].
    split; [by apply (kbody_same idle none s1)|by apply (schedok_same s1)]. }
  cbv zeta. unfold RHINO_CRITICAL_EXIT at 1, RHINO_CPU_INTRPT_ENABLE at 1.
  set (k' := task_init _ _ _ _ _ _ _ _). set (s3 := s2 <| intrpt_masked := intrpt_masked s |>).
  assert (kbody idle none (task_created t k' s3)) as Hb3.
  { apply task_created_kbody; [by apply kbody_mask, Hk2| |lia|unfold RHINO_CONFIG_PRI_MAX in *; lia].
    unfold task_of, s3; rsimpl. by rewrite Et2. }
  assert (task_state k' = if 0 <? ar then K_RDY else K_SUSPENDED) as Est by (subst k'; unfold task_init; by destruct (0 <? ar)).
  unfold task_created in Hb3. rewrite Est in Hb3. cbv zeta in Hb3.
  destruct (0 <? ar); cbn [fst snd].
  - rewrite decide_True in Hb3 by done. unfold upd_task. unfold k_ready_list_add_tail, task_of; rsimpl.
    rewrite lookup_total_insert_eq. case_decide as Er; cbn [snd]; [apply exit_sched_kinv; exact Hb3|].
    apply exit_kinv; [exact Hb3|]. intros Hr. by destruct Er.
  - rewrite decide_False in Hb3 by done. apply exit_kinv; [done|]. apply (schedok_same s2); try done. apply Hk2.
Qed.
