(* ===== verification/TaskDelInv.v ===== *)
(** * Task deletion preserves the kernel invariant

    [task_mutex_free] hands the mutexes of the dying task to their first waiters, one
    after the other.  While it runs, the mutexes still to be handed over are
    treated as unpublished ([retype]) and the dying task is exempt from the protocol
    (the set [D] of [pinvD]); afterwards the task owns nothing and leaves the lists
    it is queued on. *)
From S2P Require Import Prelude Bitmap KTypes Alloc RunQueue RingBuf Kernel Pend Task Sem Mutex.
From S2P Require Import Invariant InvPend PriInherit KInv ApiInv MutexInv TaskInv TaskApiInv.
Local Open Scope Z_scope.

Implicit Types (s : kstate) (t u w m o : Z) (k : ktask_t) (idle : kenv).

(** ** Unpublishing a set of mutexes *)
Definition retype (l : list Z) s : kstate := foldr (fun m s => set_obj_type m RHINO_OBJ_TYPE_NONE s) s l.

Lemma retype_blk l s o :
  blk_of (retype l s) o = if decide (o ∈ l) then (blk_of s o) <| obj_type := RHINO_OBJ_TYPE_NONE |> else blk_of s o.
Proof.
  induction l as [|m l IH]; cbn [retype foldr]; [by rewrite decide_False by apply not_elem_of_nil|].
  fold (retype l s). rewrite set_type_blk. destruct (decide (m = o)) as [->|E].
  - rewrite IH. rewrite (decide_True (P:= o ∈ o :: l)) by (by left). by case_decide.
  - rewrite IH. destruct (decide (o ∈ l)) as [Hin|Hn]; [by rewrite decide_True by (by right)|].
    rewrite decide_False; [done|]. rewrite elem_of_cons. naive_solver.
Qed.

Lemma retype_cons l m o s : o <> m -> blk_of (retype (m :: l) s) o = blk_of (retype l s) o.
Proof. intros Hne. cbn [retype foldr]. by rewrite set_type_blk, decide_False by auto. Qed.

Lemma retype_tasks l s : tasks (retype l s) = tasks s /\ mutexes (retype l s) = mutexes s.
Proof. induction l as [|m l IH]; done. Qed.

Lemma retype_kwf idle l s : kwf idle s -> kwf idle (retype l s).
Proof. intros H. induction l as [|m l IH]; [done|]. by apply kwf_set_type. Qed.

Lemma retype_acquire l m w s : acquire m w (retype l s) = retype l (acquire m w s).
Proof.
  induction l as [|o l IH]; [done|]. cbn [retype foldr]. fold (retype l s) (retype l (acquire m w s)).
  rewrite <- IH. unfold acquire, set_obj_type, upd_blk, upd_mutex, upd_task. by kstate_eq.
Qed.

Lemma retype_mutex l m f s : upd_mutex m f (retype l s) = retype l (upd_mutex m f s).
Proof.
  induction l as [|o l IH]; [done|]. cbn [retype foldr]. fold (retype l s) (retype l (upd_mutex m f s)).
  rewrite <- IH. unfold set_obj_type, upd_blk, upd_mutex. by kstate_eq.
Qed.

Lemma retype_pend_end idle l st w k s :
  kwf idle s -> tasks s !! w = Some k -> is_pending k = true -> pend_end st w (retype l s) = retype l (pend_end st w s).
Proof.
  intros H Hw Hp. induction l as [|o l IH]; [done|]. cbn [retype foldr].
  fold (retype l s) (retype l (pend_end st w s)). rewrite <- IH.
  apply (pend_end_type o RHINO_OBJ_TYPE_NONE idle st w k); [by apply retype_kwf| |done].
  by rewrite (proj1 (retype_tasks l s)).
Qed.

(** ** The start: every mutex of the task is unpublished *)
Section Start.
Context (idle : kenv) (s : kstate) (t : Z) (l : list Z).
Context (H : kwf idle s) (Hpi : pinv s) (Hh : held s t l) (Htn : t <> NULL).

Lemma start_owner m u : owner (retype l s) m u <-> owner s m u /\ u <> t.
Proof.
  destruct Hh as (_ & _ & Hel). unfold owner, mutex_of. rewrite retype_blk, (proj2 (retype_tasks l s)). split.
  - intros (Ety & Em & Hu). case_decide as Hin; [done|]. split; [done|]. intros ->. by apply Hin, Hel.
  - intros ((Ety & Em & Hu) & Hne). rewrite decide_False; [done|]. intros Hin%Hel. apply Hne.
    apply (owner_unique s m); done.
Qed.

Lemma start_list o : blk_list (blk_of (retype l s) o) = blk_list (blk_of s o).
Proof. rewrite retype_blk. by case_decide. Qed.

Lemma start_pinv : pinvD (fun u => u = t) (retype l s).
Proof.
  destruct Hpi as [Hps Hpp]. destruct (retype_tasks l s) as [Et Em].
  assert (forall u, task_of (retype l s) u = task_of s u) as Eto by (intros u; unfold task_of; by rewrite Et).
  split; [split|].
  - intros u k Hu Ha HD. rewrite Et in Hu. destruct (ps_chain Hps _ _ Hu Ha id) as (lu & Hc & Hd & Hel).
    exists lu. unfold held. rewrite Em, Eto. split_and!; [done..|]. intros m. rewrite start_owner, Hel. naive_solver.
  - intros m u [Ho Hne]%start_owner. rewrite Et. destruct (ps_owner Hps _ _ Ho) as (k & Hk & Ha & _). by exists k.
  - intros m w. rewrite start_list. unfold mutex_of. rewrite Em, retype_blk. case_decide; [done|]. apply (ps_held Hps).
  - intros m. rewrite retype_blk. case_decide; [done|]. apply (ps_policy Hps).
  - intros u k Hu Ha HD. rewrite Et in Hu. unfold is_target. rewrite Eto.
    eapply is_min_ext, (Hpp u k Hu Ha id); [|intros w _; by rewrite Eto].
    intros w. unfold waits. setoid_rewrite start_owner. setoid_rewrite start_list. naive_solver.
Qed.
End Start.

(** ** The loop *)

(** The state in the loop: [l] are the mutexes still to be handed over. *)
Record free_inv (idle : kenv) (s0 : kstate) t k (l : list Z) s : Prop := {
  fi_wf : kwf idle s;
  fi_pi : pinvD (fun u => u = t) (retype l s);
  fi_obj : objinv none s;
  fi_frame : kframe s0 s;
  fi_types : forall o, obj_type (blk_of s o) = obj_type (blk_of s0 o) /\ blk_policy (blk_of s o) = blk_policy (blk_of s0 o);
  fi_task : tasks s !! t = Some k;
  fi_own : forall m, m ∈ l -> owner s m t /\ m <> NULL /\ (t ∉ blk_list (blk_of s m)) /\ blk_policy (blk_of s m) = BLK_POLICY_PRI;
  fi_nodup : NoDup l;
  fi_active : task_state (task_of s0 (g_active_task s0)) = K_RDY -> task_state (task_of s (g_active_task s0)) = K_RDY;
}.

Definition free_step m s : kstate :=
  match blk_list (blk_of s m) with
  | next_task :: _ => acquire m next_task (pend_task_wakeup next_task s)
  | [] => upd_mutex m (fun mm => mm <| mutex_task := NULL |>) s
  end.

Section FreeStep.
Context (idle : kenv) (s0 s : kstate) (t m : Z) (k : ktask_t) (l : list Z).
Context (I : free_inv idle s0 t k (m :: l) s).

Lemma free_m : owner s m t /\ m <> NULL /\ (t ∉ blk_list (blk_of s m)) /\ blk_policy (blk_of s m) = BLK_POLICY_PRI.
Proof. apply (fi_own _ _ _ _ _ _ I). by left. Qed.

Lemma free_unpublished : obj_type (blk_of (retype (m :: l) s) m) = RHINO_OBJ_TYPE_NONE.
Proof. rewrite retype_blk, decide_True by (by left). done. Qed.

Lemma free_notin : (m ∉ l) /\ NoDup l.
Proof. apply NoDup_cons, (fi_nodup _ _ _ _ _ _ I). Qed.

Lemma free_published s' : obj_type (blk_of s' m) = RHINO_MUTEX_OBJ_TYPE -> obj_type (blk_of (retype l s') m) = RHINO_MUTEX_OBJ_TYPE.
Proof. intros E. rewrite retype_blk, decide_False; [done|apply free_notin]. Qed.

(** No waiter: the mutex becomes free. *)
Lemma free_none : blk_list (blk_of s m) = [] -> free_inv idle s0 t k l (upd_mutex m (fun mm => mm <| mutex_task := NULL |>) s).
Proof.
  intros El. destruct free_m as (Ho & Hm & _ & Hpol). destruct free_notin as [Hn Hd].
  set (s' := upd_mutex m (fun mm => mm <| mutex_task := NULL |>) s).
  assert (forall o, o <> m -> mutex_of s' o = mutex_of s o) as Emo.
  { intros o Hne. unfold s', mutex_of, upd_mutex; rsimpl. by rewrite lookup_total_insert_ne by auto. }
  assert (mutex_task (mutex_of s' m) = NULL) as Emm.
  { unfold s', mutex_of, upd_mutex; rsimpl. by rewrite lookup_total_insert_eq. }
  destruct I as [H Hpi Hobj F Hty Hk Hown _ Hact]. split; try done.
  - apply kwf_upd_mutex; [done|]. destruct (kwf_idle_task _ _ H) as (ki & Hki & _).
    pose proof (to_addr _ _ (kwf_task_ok _ _ _ _ H Hki)). rsimpl. auto.
  - eapply (pinv_retype _ (retype (m :: l) s) _ m Hpi).
    + by rewrite !(proj1 (retype_tasks _ _)).
    + intros o Hne. unfold mutex_of. rewrite !(proj2 (retype_tasks _ _)). by apply Emo.
    + intros o Hne. rewrite retype_cons, !retype_blk by done. done.
    + intros u. apply not_owner_type. by rewrite free_unpublished.
    + intros u (_ & E & Hu). unfold mutex_of in E. rewrite (proj2 (retype_tasks _ _)) in E.
      fold (mutex_of s' m) in E. congruence.
    + intros _. rewrite retype_blk, decide_False by done. done.
  - etrans; [exact F|by split].
  - intros o Ho'. destruct (Hown o) as (Hoo & Hrest); [by right|]. split; [|exact Hrest].
    assert (o <> m) as Hne by (by intros ->). unfold owner. rewrite Emo by done. exact Hoo.
Qed.

(** The first waiter [w] gets the mutex. *)
Section Wake.
Context (w : Z) (r : list Z) (El : blk_list (blk_of s m) = w :: r).
Let sd := pend_end BLK_FINISH w s.

Lemma free_waiter : exists kw, tasks s !! w = Some kw /\ is_pending kw = true /\ blk_obj kw = m /\ w <> t.
Proof.
  assert (w ∈ blk_list (blk_of s m)) as Hin by (rewrite El; by left).
  destruct (kwf_blocked _ _ _ _ (fi_wf _ _ _ _ _ _ I) Hin) as (kw & ? & ? & ?). exists kw. split_and!; try done.
  intros ->. by destruct free_m as (_ & _ & ? & _).
Qed.

Lemma free_woken kw : tasks s !! w = Some kw -> is_pending kw = true ->
  tasks sd = <[w := unpend BLK_FINISH kw]> (tasks s) /\ mutexes sd = mutexes s /\ kframe s sd /\ kwf idle sd /\
  (forall o, blk_of sd o = rm_from w (blk_of s o)).
Proof.
  intros Hkw Hp. pose proof (fi_wf _ _ _ _ _ _ I) as H. unfold sd.
  pose proof (pend_end_kwf idle s w kw BLK_FINISH H Hkw Hp).
  rewrite (pend_end_eq idle s w kw) in * by done. split_and!; try done.
  intros o. unfold blk_of; rsimpl. apply rm_from_lookup.
Qed.

(** The remaining waiters are not more urgent than the first one. *)
Lemma free_first kw x : tasks s !! w = Some kw -> is_pending kw = true ->
  x ∈ blk_list (blk_of sd m) -> x <> w /\ prio (unpend BLK_FINISH kw) <= prio (task_of sd x).
Proof.
  intros Hkw Hp. destruct (free_woken kw Hkw Hp) as (Et & _ & _ & _ & Eb). pose proof (fi_wf _ _ _ _ _ _ I) as H.
  rewrite Eb. simpl. intros [Hne Hx]%elem_of_remove_addr. split; [done|].
  unfold task_of. rewrite Et, lookup_total_insert_ne by auto. change (prio (unpend BLK_FINISH kw)) with (prio kw).
  rewrite <- (task_of_Some _ _ _ Hkw). pose proof (br_sorted _ _ _ (kw_blk H) m) as Hs.
  unfold blk_of in El, Hx. rewrite El in Hs, Hx.
  apply (StronglySorted_head (prio_in (tasks s)) w r x); [|done]. apply Hs. apply free_m.
Qed.

Lemma free_wake_pinv kw : tasks s !! w = Some kw -> is_pending kw = true -> blk_obj kw = m -> w <> t ->
  pinvD (fun u => u = t) (retype l (acquire m w sd)).
Proof.
  intros Hkw Hp Hbo Hwt. destruct (free_woken kw Hkw Hp) as (Et & Em & F & Hsd & Eb).
  destruct free_m as (Ho & Hm & _ & Hpol). destruct free_notin as [Hn Hd]. pose proof (fi_wf _ _ _ _ _ _ I) as H.
  rewrite <- retype_acquire.
  assert (blk_of (retype l sd) m = blk_of sd m) as Ebm by (by rewrite retype_blk, decide_False).
  eapply (acquire_pinv idle _ (retype l sd) (retype (m :: l) sd) m w (unpend BLK_FINISH kw)); try done.
  - by apply retype_kwf.
  - unfold sd. rewrite <- (retype_pend_end idle (m :: l) _ _ kw) by done.
    assert (tasks (retype (m :: l) s) !! w = Some kw) as Hkw' by (by rewrite (proj1 (retype_tasks _ _))).
    eapply (mv_pinv idle (retype (m :: l) s)); [by apply retype_kwf| |apply I].
    eapply (pend_end_mutex_view idle); [by apply retype_kwf|done|done|]. by rewrite Hbo, free_unpublished.
  - intros o Hne. by rewrite retype_cons.
  - rewrite Ebm, retype_blk. by case_decide.
  - rewrite retype_blk, decide_True by (by left). done.
  - rewrite Ebm, Eb. apply Ho.
  - by rewrite Ebm, Eb.
  - by rewrite (proj1 (retype_tasks _ _)), Et, lookup_insert_eq.
  - unfold unpend, is_alive; simpl. by case_decide.
  - rewrite Ebm. intros x Hx. unfold task_of. rewrite (proj1 (retype_tasks _ _)). by apply (free_first kw).
Qed.

Lemma free_wake : free_inv idle s0 t k l (acquire m w sd).
Proof.
  destruct free_waiter as (kw & Hkw & Hp & Hbo & Hwt).
  destruct (free_woken kw Hkw Hp) as (Et & Em & F & Hsd & Eb). destruct free_notin as [Hn Hd].
  assert (tasks sd !! w = Some (unpend BLK_FINISH kw)) as Hkd by (by rewrite Et, lookup_insert_eq).
  destruct (acquire_eq sd m w _ Hkd) as (Eta & Ema & Eba & Fa & _).
  assert (w <> idle) as Hwi by (exact (kwf_not_idle _ _ _ _ (fi_wf _ _ _ _ _ _ I) Hkw (pending_not_ready _ Hp))).
  assert (forall o, blk_of (acquire m w sd) o = rm_from w (blk_of s o)) as Eb'.
  { intros o. rewrite <- Eb. unfold blk_of. by rewrite Eba. }
  pose proof (free_wake_pinv kw Hkw Hp Hbo Hwt) as Hpi'.
  destruct I as [H Hpi Hobj F0 Hty Hk Hown _ Hact].
  assert (kframe s (acquire m w sd)) as F' by (etrans; [exact F|exact Fa]).
  split; try done.
  - unfold acquire. eapply kwf_set_mutex_list; [|exact Hkd|done].
    apply kwf_upd_mutex; [by apply kwf_upd_mutex|]. unfold upd_mutex, mutex_of; rsimpl. by rewrite lookup_total_insert_eq.
  - eapply (objinv_via none none s); [done|apply F'..|]. intros o _. rewrite Eb'. intros Hne. right.
    split_and!; [by intros []|exact (remove_addr_nonempty w _ Hne)|done].
  - by etrans.
  - intros o. rewrite Eb'. apply Hty.
  - rewrite Eta, lookup_insert_ne, Et, lookup_insert_ne by done. done.
  - intros o Ho. destruct (Hown o) as ((Hoty & Hot & _) & Hon & Hnt & Hpol); [by right|].
    assert (o <> m) as Hne by (by intros ->). rewrite Eb'. simpl. split_and!; try done.
    + split_and!; [by rewrite Eb'| |by destruct (kwf_task_ok _ _ _ _ H Hk)].
      unfold mutex_of. by rewrite Ema, lookup_total_insert_ne, Em by auto.
    + rewrite elem_of_remove_addr. intros [_ Hin]. exact (Hnt Hin).
  - intros Hr. specialize (Hact Hr). assert (g_active_task s0 <> w) as Hne.
    { intros E. rewrite E, (task_of_Some _ _ _ Hkw) in Hact. by apply pending_not_ready in Hp. }
    unfold task_of. rewrite Eta, lookup_total_insert_ne, Et, lookup_total_insert_ne by auto. done.
Qed.
End Wake.

Lemma free_step_inv : free_inv idle s0 t k l (free_step m s).
Proof.
  unfold free_step. destruct (blk_list (blk_of s m)) as [|w r] eqn:El; [by apply free_none|by apply (free_wake w r)].
Qed.
End FreeStep.

(** ** The whole loop, and leaving the lists *)
Lemma task_mutex_free_loop_inv idle s0 t k l fuel h s :
  free_inv idle s0 t k l s -> chain (mutexes s) h l -> (length l < fuel)%nat ->
  free_inv idle s0 t k [] (task_mutex_free_loop fuel h s).
Proof.
  revert fuel h s. induction l as [|m l IH]; intros fuel h s I Hc Hf;
    (destruct fuel as [|fuel]; [simpl in Hf; lia|]); cbn [task_mutex_free_loop chain] in *.
  - by rewrite (proj2 (Z.eqb_eq _ _) Hc).
  - destruct Hc as (-> & Hm & Hc). rewrite (proj2 (Z.eqb_neq _ _) Hm).
    change (free_inv idle s0 t k [] (task_mutex_free_loop fuel (mutex_next (mutex_of s m)) (free_step m s))).
    apply IH; [by apply free_step_inv| |simpl in Hf; lia].
    pose proof (free_notin _ _ _ _ _ _ _ I) as [Hn _]. eapply chain_ext, Hc. intros o Ho.
    assert (o <> m) as Hne by (by intros ->). unfold free_step. destruct (blk_list (blk_of s m)) as [|w r] eqn:El.
    + unfold upd_mutex; rsimpl. by rewrite lookup_total_insert_ne by auto.
    + destruct (free_waiter _ _ _ _ _ _ _ I w r El) as (kw & Hkw & Hp & _).
      destruct (free_woken _ _ _ _ _ _ _ I w kw Hkw Hp) as (Et & Em & _).
      change pend_task_wakeup with (pend_end BLK_FINISH).
      destruct (acquire_eq (pend_end BLK_FINISH w s) m w (unpend BLK_FINISH kw)) as (_ & -> & _).
      { by rewrite Et, lookup_insert_eq. }
      by rewrite lookup_total_insert_ne, Em by auto.
Qed.

Lemma task_mutex_free_inv idle s t k :
  kbody idle none s -> tasks s !! t = Some k -> is_alive k = true -> free_inv idle s t k [] (task_mutex_free t s).
Proof.
  intros Hb Ht Ha. destruct (ps_chain (proj1 (kb_pi Hb)) _ _ Ht Ha id) as [l Hl].
  unfold task_mutex_free. eapply task_mutex_free_loop_inv; [|apply Hl|by apply (held_fuel s t)].
  split; try done; try (by apply Hb).
  - apply (start_pinv s t l (kb_pi Hb) Hl).
  - intros m Hm. pose proof (proj1 (proj2 (proj2 Hl) m) Hm) as Ho. split_and!; [done| | |].
    + intros ->. destruct Ho as [E _]. by rewrite (kb_null Hb) in E.
    + intros Hin. destruct Ho as (Ety & Em & _). by destruct (ps_held (proj1 (kb_pi Hb)) m t Ety Hin).
    + apply (ps_policy (proj1 (kb_pi Hb))), Ho.
  - apply Hl.
Qed.

(** The task leaves whatever list it is on and is marked deleted. *)
Section Leave.
Context (idle : kenv) (s : kstate) (t : Z) (k : ktask_t).
Context (H : kwf idle s) (Hpi : pinvD (fun u => u = t) s) (Ht : tasks s !! t = Some k) (Hid : t <> idle).
Lemma deleted_no_owner m : ~ owner s m t.
Proof. intros Ho. by destruct (ps_owner (proj1 Hpi) _ _ Ho) as (_ & _ & _ & Hn). Qed.

(** A task that waits for no object: the protocol does not see it go. *)
Lemma deleted_pinv s' k1 :
  is_pending k = false -> is_alive k1 = false -> tasks s' = <[t := k1]> (tasks s) -> mutexes s' = mutexes s -> blk_objs s' = blk_objs s ->
  pinv s'.
Proof.
  intros Hp Hdead Et Em Eb. destruct Hpi as [Hps Hpp].
  assert (forall m u, owner s' m u <-> owner s m u) as Ho by (intros; unfold owner, blk_of, mutex_of; by rewrite Eb, Em).
  assert (forall w u, waits s' w u <-> waits s w u) as Hw.
  { intros. unfold waits. setoid_rewrite Ho. unfold blk_of. by rewrite Eb. }
  assert (forall u ku, tasks s' !! u = Some ku -> is_alive ku = true -> tasks s !! u = Some ku /\ u <> t) as Hal.
  { intros u ku. rewrite Et, lookup_insert. case_decide as E; [intros [= <-]; congruence|]. auto. }
  assert (forall u, u <> t -> task_of s' u = task_of s u) as Eto.
  { intros u Hu. unfold task_of. by rewrite Et, lookup_total_insert_ne by auto. }
  split; [split|].
  - intros u ku Hu Ha _. destruct (Hal _ _ Hu Ha) as [Hu' Hne].
    destruct (ps_chain Hps _ _ Hu' Ha Hne) as (l & Hc & Hd & Hel). exists l. unfold held. rewrite Em, Eto by done.
    split_and!; [done..|]. intros m. by rewrite Ho.
  - intros m u Hmu%Ho. destruct (ps_owner Hps _ _ Hmu) as (ku & Hku & Ha & Hne). exists ku.
    rewrite Et, lookup_insert_ne by auto. split_and!; [done..|by intros []].
  - intros m w. unfold blk_of, mutex_of. rewrite Eb, Em. apply (ps_held Hps).
  - intros m. unfold blk_of. rewrite Eb. apply (ps_policy Hps).
  - intros u ku Hu Ha _. destruct (Hal _ _ Hu Ha) as [Hu' Hne]. unfold is_target. rewrite Eto by done.
    eapply is_min_ext, (Hpp u ku Hu' Ha Hne); [intros w; by rewrite Hw|]. intros w Hwu. rewrite Eto; [done|].
    intros ->. destruct (waits_pending _ _ _ _ H Hwu) as (kw & ? & Hkw & Hpw & _).
    rewrite Ht in Hkw. injection Hkw as <-. congruence.
Qed.
End Leave.

(** The end of the deletion, from the state [s0] before it. *)
Lemma deleted_kbody idle s0 t k s s' :
  kbody idle none s0 -> free_inv idle s0 t k [] s -> kwf idle s' -> pinv s' -> kframe s s' ->
  (forall o, blk_list (blk_of s' o) <> [] -> blk_list (blk_of s o) <> []) ->
  (forall o, obj_type (blk_of s' o) = obj_type (blk_of s o)) ->
  (forall u, u <> t -> task_state (task_of s' u) = task_state (task_of s u)) ->
  (t = g_active_task s0 -> ~ 0 < g_sched_lock s0) -> kbody idle none s'.
Proof.
  intros Hb [H Hpi Hobj F Hty Hk _ _ Hact] H' Hpi' F' Hl Ht' Hst Hna.
  apply (kbody_via idle none none s0); try done.
  - by etrans.
  - eapply (objinv_via none none s); [done|apply F'..|]. intros o _ Hne. right.
    split_and!; [by intros []|by apply Hl|apply Ht'].
  - rewrite Ht', (proj1 (Hty NULL)). exact (kb_null Hb).
  - intros Hr Hlk. rewrite Hst; [auto|]. intros E. by apply Hna.
Qed.

Lemma deleted_ok idle s t k k1 :
  kwf idle s -> tasks s !! t = Some k -> prio k1 = prio k -> b_prio k1 = b_prio k -> tick_match k1 = tick_match k ->
  tick_head k1 = false -> task_state k1 = K_DELETED -> task_ok t k1.
Proof.
  intros H Ht E1 E2 E3 E4 E5. destruct (kwf_task_ok _ _ _ _ H Ht).
  split; unfold is_sleeping, is_suspended; rewrite ?E1, ?E2, ?E3, ?E4, ?E5; done.
Qed.

(** Deletion of a task that waits for no object, once it has left its list. *)
Lemma delete_plain_kbody idle s0 t k s s' k1 :
  kbody idle none s0 -> free_inv idle s0 t k [] s -> t <> idle -> is_pending k = false ->
  (t = g_active_task s0 -> ~ 0 < g_sched_lock s0) ->
  task_ok t k1 -> task_state k1 = K_DELETED -> tasks s' = <[t := k1]> (tasks s) ->
  mutexes s' = mutexes s -> blk_objs s' = blk_objs s -> kframe s s' -> err_log s' = err_log s ->
  rq_step t k k1 (g_ready_queue s) (g_ready_queue s') ->
  tick_step t k k1 (g_tick_head s) (tasks s) (g_tick_count s) (g_tick_head s') -> kbody idle none s'.
Proof.
  intros Hb I Hid Hp Hna Hok Hdel Et Em Eb F Ee Hrq Htk. pose proof (fi_wf _ _ _ _ _ _ I) as H.
  pose proof (fi_task _ _ _ _ _ _ I) as Ht.
  assert (pend_on k = None /\ pend_on k1 = None) as [E1 E2].
  { unfold pend_on, is_pending in *. rewrite Hp, Hdel. done. }
  eapply (deleted_kbody idle s0 t k s s'); try done.
  - eapply (kwf_step idle s s' t k k1); try done; [|apply F]. rewrite Eb. constructor; [by rewrite E1|by right].
  - eapply (deleted_pinv idle s t k); try done; [apply I|]. unfold is_alive. by rewrite Hdel.
  - intros o. unfold blk_of. by rewrite Eb.
  - intros o. unfold blk_of. by rewrite Eb.
  - intros u Hu. unfold task_of. by rewrite Et, lookup_total_insert_ne by auto.
Qed.

Lemma delete_pend_kbody idle s0 t k s :
  kbody idle none s0 -> free_inv idle s0 t k [] s -> is_pending k = true ->
  (t = g_active_task s0 -> ~ 0 < g_sched_lock s0) ->
  kbody idle none (mutex_task_pri_reset t (upd_task t (fun k => k <| task_state := K_DELETED |>)
    (blk_list_rm t (tick_list_rm t s)))).
Proof.
  intros Hb I Hp Hna. pose proof (fi_wf _ _ _ _ _ _ I) as H. pose proof (fi_task _ _ _ _ _ _ I) as Ht.
  rewrite (rm_lists_eq idle _ _ k) by done. erewrite upd_task_eq by (rsimpl; by rewrite lookup_insert_eq).
  set (k1 := k <| tick_head := false |> <| task_state := K_DELETED |>). set (s1 := set_with tasks _ _).
  assert (tasks s1 = <[t := k1]> (tasks s)) as Et by (subst s1; rsimpl; by rewrite insert_insert_eq).
  assert (forall o, blk_of s1 o = rm_from t (blk_of s o)) as Eb by (intros o; unfold blk_of, s1; rsimpl; apply rm_from_lookup).
  assert (kwf idle s1) as H1.
  { eapply (kwf_step idle s s1 t k k1); try done.
    - exact (kwf_not_idle _ _ _ _ H Ht (pending_not_ready _ Hp)).
    - by apply (deleted_ok idle s t k).
    - apply rq_keep. rewrite (proj2 (rdy_prio_None k)) by (by apply pending_not_ready). by apply rdy_prio_None.
    - by apply blk_leave.
    - by apply tick_leave. }
  destruct (left_reset idle (fun u => u = t) s s1 t k k1) as (H2 & Hpi2 & F & _); try done.
  { apply I. }
  { right. split; [done|]. intros m. exact (deleted_no_owner s t (fi_pi _ _ _ _ _ _ I) m). }
  eapply (deleted_kbody idle s0 t k s); try done.
  - etrans; [|apply F]. by split.
  - intros o Hne. apply (pri_frame_list_nonempty _ _ _ F) in Hne. rewrite Eb in Hne. exact (remove_addr_nonempty t _ Hne).
  - intros o. by rewrite (pf_type _ _ F), Eb.
  - intros u Hu. rewrite (pri_frame_state _ _ _ F). unfold task_of. by rewrite Et, lookup_total_insert_ne by auto.
Qed.

Lemma tick_off_state k t : task_ok t k -> task_state k = K_RDY \/ task_state k = K_SUSPENDED -> tick_head k = false.
Proof.
  intros Hok Hst. destruct (tick_head k) eqn:E; [|done]. apply (to_tick _ _ Hok) in E.
  unfold is_sleeping, is_pending in E. destruct Hst as [E'|E']; rewrite E' in E; by destruct E.
Qed.

(** Deletion from each state a live task can be in. *)
Lemma task_del_lists_kbody idle s0 t k s :
  kbody idle none s0 -> free_inv idle s0 t k [] s -> t <> idle -> is_alive k = true ->
  (t = g_active_task s0 -> ~ 0 < g_sched_lock s0) ->
  exists s', task_del_lists t s = Some s' /\ kbody idle none s'.
Proof.
  intros Hb I Hid Ha Hna. pose proof (fi_wf _ _ _ _ _ _ I) as H. pose proof (fi_task _ _ _ _ _ _ I) as Ht.
  pose proof (kwf_task_ok _ _ _ _ H Ht) as Hok. unfold task_del_lists. rewrite (task_of_Some _ _ _ Ht).
  assert (forall k1, task_state k <> K_RDY -> task_state k1 = K_DELETED -> rdy_prio k1 = rdy_prio k) as Hnr.
  { intros k1 Hr E. rewrite (proj2 (rdy_prio_None k)) by done. apply rdy_prio_None. by rewrite E. }
  unfold is_alive in Ha. destruct (task_state k) eqn:Es; try done; eexists; (split; [reflexivity|]).
  - rewrite (k_ready_list_rm_eq idle _ (ready_map (tasks s))), (task_of_Some _ _ _ Ht).
    + rewrite (upd_task_eq _ _ k) by done.
      eapply (delete_plain_kbody idle s0 t k s _ (k <| task_state := K_DELETED |>)); try done; rsimpl.
      * unfold is_pending. by rewrite Es.
      * apply (deleted_ok idle s t k); try done. apply (tick_off_state k t); auto.
      * by apply rq_leave; [|apply rdy_prio_None].
      * by apply tick_keep.
    + exact (kw_rq H).
    + exact (kw_idle H).
    + done.
    + by rewrite (task_of_Some _ _ _ Ht), (kwf_ready idle s t k).
  - eapply delete_pend_kbody; try done. unfold is_pending. by rewrite Es.
  - rewrite (upd_task_eq _ _ k) by done.
    eapply (delete_plain_kbody idle s0 t k s _ (k <| task_state := K_DELETED |>)); try done; rsimpl.
    + unfold is_pending. by rewrite Es.
    + apply (deleted_ok idle s t k); try done. apply (tick_off_state k t); auto.
    + apply rq_keep. by apply Hnr.
    + by apply tick_keep.
  - eapply delete_pend_kbody; try done. unfold is_pending. by rewrite Es.
  - rewrite (tick_list_rm_eq _ _ k), (upd_task_eq _ _ (k <| tick_head := false |>));
      [|rsimpl; by rewrite lookup_insert_eq|done|by eapply kwf_tick_off].
    eapply (delete_plain_kbody idle s0 t k s _ (k <| tick_head := false |> <| task_state := K_DELETED |>));
      try done; rsimpl; [unfold is_pending; by rewrite Es|by apply (deleted_ok idle s t k)|by rewrite insert_insert_eq|
        apply rq_keep; by apply Hnr|by apply tick_leave].
  - rewrite (tick_list_rm_eq _ _ k), (upd_task_eq _ _ (k <| tick_head := false |>));
      [|rsimpl; by rewrite lookup_insert_eq|done|by eapply kwf_tick_off].
    eapply (delete_plain_kbody idle s0 t k s _ (k <| tick_head := false |> <| task_state := K_DELETED |>));
      try done; rsimpl; [unfold is_pending; by rewrite Es|by apply (deleted_ok idle s t k)|by rewrite insert_insert_eq|
        apply rq_keep; by apply Hnr|by apply tick_leave].
Qed.

(** The task a call of [krhino_task_del] names. *)
Definition del_target task s : Z := if task =? NULL then g_active_task s else task.

Lemma krhino_task_del_kinv idle s task :
  kinv idle s -> is_alive (task_of s (del_target task s)) = true -> kinv idle (krhino_task_del task s).2.
Proof.
  intros Hk Ha. unfold krhino_task_del. kenter idle s. kif E1.
  change (if task =? NULL then g_active_task s1 else task) with (del_target task s).
  set (t := del_target task s) in *. kif E2. kif E3. kif E4.
  change (is_alive (task_of s1 t) = true) in Ha.
  assert (tasks s1 !! t = Some (task_of s1 t)) as Ht.
  { apply task_exists. intros E. unfold is_alive in Ha. by rewrite E in Ha. }
  destruct Hk1 as [Hb1 _]. pose proof (task_mutex_free_inv idle s1 t _ Hb1 Ht Ha) as I.
  destruct (task_del_lists_kbody idle s1 t _ _ Hb1 I) as (s' & -> & Hb'); try done.
  - apply (idle_prio idle s1 t (kb_wf Hb1)). lia.
  - intros Ea Hl. rewrite Ea, Z.eqb_refl in E4. cbn [andb] in E4. change (g_sched_lock s1) with (g_sched_lock s) in *. lia.
  - apply exit_sched_kinv. by apply kbody_kobj.
Qed.
