(* ===== verification/TaskDynInv.v ===== *)
(** * Task semaphores and deletion of dynamic tasks keep the invariant

    [krhino_task_dyn_del] gives a semaphore in the middle of its critical section with
    the scheduler locked; [sem_give_locked] says what that amounts to. *)
From S2P Require Import Prelude Bitmap KTypes RunQueue RingBuf Kernel Pend Alloc Task Sem Mutex Queue Event TaskDyn.
From S2P Require Import Invariant InvPend PriInherit KInv ApiInv MutexInv TaskInv TaskApiInv TaskDelInv.
Local Open Scope Z_scope.

Implicit Types (s : kstate) (t u w o sem : Z) (k : ktask_t) (idle : kenv).

(** ** The scheduler does nothing while it is locked *)
Lemma exit_sched_locked b s : 0 < g_sched_lock s -> RHINO_CRITICAL_EXIT_SCHED b s = RHINO_CRITICAL_EXIT b s.
Proof.
  intros Hl. unfold RHINO_CRITICAL_EXIT_SCHED, core_sched, RHINO_CPU_INTRPT_DISABLE; cbv beta iota.
  match goal with |- context [if 0 <? g_intrpt_nested_level ?x then _ else _] => destruct (0 <? g_intrpt_nested_level x) end; [done|].
  match goal with |- context [if 0 <? g_sched_lock ?x then _ else _] => replace (0 <? g_sched_lock x) with true end; [done|].
  symmetry. by apply Z.ltb_lt.
Qed.

(** The semaphore after a give without a waiter. *)
Definition sem_counted sem s : kstate :=
  let s := upd_sem sem (fun c => c <| count ::= fun n => wrap32 (n + 1) |>) s in
  if peak_count (sem_of s sem) <? count (sem_of s sem) then upd_sem sem (fun c => c <| peak_count := count c |>) s else s.

(** What [krhino_sem_give] does with the scheduler locked. *)
Definition sem_given sem s : kstat_t * kstate :=
  if sem =? NULL then (RHINO_NULL_PTR, s)
  else if decide (obj_type (blk_of s sem) <> RHINO_SEM_OBJ_TYPE) then (RHINO_KOBJ_TYPE_ERR, s)
  else match blk_list (blk_of s sem) with
       | [] => if count (sem_of s sem) =? SEM_COUNT_MAX then (RHINO_SEM_OVF, s) else (RHINO_SUCCESS, sem_counted sem s)
       | w :: _ => (RHINO_SUCCESS, pend_end BLK_FINISH w s)
       end.

Lemma sem_counted_eq sem s : exists m, sem_counted sem s = s <| sems := m |>.
Proof. unfold sem_counted. destruct (_ <? _); by eexists. Qed.

Lemma sem_give_locked idle s sem n :
  kwf idle s -> 0 < n ->
  krhino_sem_give sem (s <| g_sched_lock := n |>) = ((sem_given sem s).1, (sem_given sem s).2 <| g_sched_lock := n |>).
Proof.
  intros H Hn. unfold krhino_sem_give, sem_given. destruct (sem =? NULL); [done|].
  unfold sem_give, WAKE_ONE_SEM, RHINO_CRITICAL_ENTER, RHINO_CPU_INTRPT_DISABLE; cbv beta iota.
  set (s1 := s <| g_sched_lock := n |> <| intrpt_masked := true |>).
  change (blk_of s1 sem) with (blk_of s sem). change (sem_of s1 sem) with (sem_of s sem).
  destruct (decide (obj_type (blk_of s sem) <> RHINO_SEM_OBJ_TYPE)); [done|].
  destruct (blk_list (blk_of s sem)) as [|w r] eqn:El.
  - destruct (count (sem_of s sem) =? SEM_COUNT_MAX); [done|].
    unfold sem_counted. destruct (_ <? _); reflexivity.
  - assert (exists k, tasks s !! w = Some k /\ is_pending k = true /\ blk_obj k = sem) as (k & Hk & Hp & _)
      by (apply (kwf_blocked idle); [done|]; rewrite El; by left).
    change (pend_task_wakeup w s1) with (pend_end BLK_FINISH w s1).
    rewrite (pend_end_eq idle s1 w k), (pend_end_eq idle s w k) by done.
    rewrite exit_sched_locked by done. reflexivity.
Qed.

(** A failed give changes nothing. *)
Lemma sem_given_fail sem s : (sem_given sem s).1 <> RHINO_SUCCESS -> (sem_given sem s).2 = s.
Proof.
  unfold sem_given. destruct (sem =? NULL); [done|]. case_decide; [done|].
  destruct (blk_list _); [|done]. by destruct (_ =? _).
Qed.

Lemma sem_given_kbody idle s sem : kinv idle s -> kbody idle none (sem_given sem s).2.
Proof.
  intros Hk. unfold sem_given. destruct (sem =? NULL); [apply Hk|]. case_decide as Hty; [apply Hk|].
  assert (obj_type (blk_of s sem) = RHINO_SEM_OBJ_TYPE) as E by (destruct (decide (obj_type (blk_of s sem) = RHINO_SEM_OBJ_TYPE)); [done|by destruct Hty]).
  destruct (blk_list (blk_of s sem)) as [|w r] eqn:El.
  - destruct (_ =? _); [apply Hk|]. cbn [snd]. unfold sem_counted.
    assert (kinv idle (upd_sem sem (fun c => c <| count ::= fun n => wrap32 (n + 1) |>) s)) as Hk2
      by (apply sem_count_ok; [done..|]; by rewrite El).
    destruct (_ <? _); [|apply Hk2]. by apply sem_count_ok.
  - cbn [snd]. eapply wake_first_kbody; [exact Hk|by rewrite E|exact El].
Qed.

(** The task being deleted is still there after the give. *)
Lemma sem_given_task idle s sem t :
  kwf idle s ->
  is_alive (task_of (sem_given sem s).2 t) = is_alive (task_of s t) /\
  prio (task_of (sem_given sem s).2 t) = prio (task_of s t) /\
  task_stack_base (task_of (sem_given sem s).2 t) = task_stack_base (task_of s t).
Proof.
  intros H. unfold sem_given. destruct (sem =? NULL); [done|]. case_decide; [done|].
  destruct (blk_list (blk_of s sem)) as [|w r] eqn:El.
  - destruct (_ =? _); [done|]. cbn [snd]. by destruct (sem_counted_eq sem s) as [m ->].
  - assert (exists k, tasks s !! w = Some k /\ is_pending k = true /\ blk_obj k = sem) as (k & Hk & Hp & _)
      by (apply (kwf_blocked idle); [done|]; rewrite El; by left).
    cbn [snd]. rewrite (pend_end_eq idle s w k) by done. unfold task_of; rsimpl.
    destruct (decide (w = t)) as [->|Hne]; [|by rewrite lookup_total_insert_ne by done].
    rewrite lookup_total_insert_eq, (lookup_total_Some _ _ _ Hk). unfold unpend; rsimpl. split; [|done].
    unfold is_alive; rsimpl. destruct (is_pending_cases _ Hp) as [E|E]; by rewrite E.
Qed.

Lemma sem_given_ctx idle s sem :
  kwf idle s ->
  g_sched_lock (sem_given sem s).2 = g_sched_lock s /\ g_active_task (sem_given sem s).2 = g_active_task s /\
  g_res_list (sem_given sem s).2 = g_res_list s.
Proof.
  intros H. unfold sem_given. destruct (sem =? NULL); [done|]. case_decide; [done|].
  destruct (blk_list (blk_of s sem)) as [|w r] eqn:El.
  - destruct (_ =? _); [done|]. cbn [snd]. by destruct (sem_counted_eq sem s) as [m ->].
  - assert (exists k, tasks s !! w = Some k /\ is_pending k = true /\ blk_obj k = sem) as (k & Hk & Hp & _)
      by (apply (kwf_blocked idle); [done|]; rewrite El; by left).
    cbn [snd]. by rewrite (pend_end_eq idle s w k) by done.
Qed.

(** ** The rest of a deletion *)
Lemma del_tail_kbody idle s t :
  kbody idle none s -> is_alive (task_of s t) = true -> prio (task_of s t) <> RHINO_IDLE_PRI ->
  (t = g_active_task s -> ~ 0 < g_sched_lock s) ->
  exists s', task_del_lists t (task_mutex_free t s) = Some s' /\ kbody idle none s'.
Proof.
  intros Hb Ha Hp Hl.
  assert (tasks s !! t = Some (task_of s t)) as Ht by (apply task_exists; intros E; unfold is_alive in Ha; by rewrite E in Ha).
  pose proof (task_mutex_free_inv idle s t _ Hb Ht Ha) as I.
  eapply (task_del_lists_kbody idle s t _ _ Hb I); [|done|done]. by apply (idle_prio idle s t (kb_wf Hb)).
Qed.

Lemma krhino_task_dyn_del_kinv idle s g_res_sem task :
  kinv idle s -> is_alive (task_of s (del_target task s)) = true -> kinv idle (krhino_task_dyn_del g_res_sem task s).2.
Proof.
  intros Hk Ha. unfold krhino_task_dyn_del. kenter idle s. kif E1.
  change (if task =? NULL then g_active_task s1 else task) with (del_target task s).
  set (t := del_target task s) in *. kif E2. kif E3. kif E4. case_decide as E5; [by kreturn|].
  change (is_alive (task_of s1 t) = true) in Ha. set (r0 := {| res := _; cnt := 2 |}).
  set (s2 := s1 <| g_res_list ::= fun l => l ++ [r0] |>).
  assert (kinv idle s2) as Hk2 by (split; [eapply kbody_same, Hk1; done|by eapply schedok_same, Hk1]).
  pose proof (kb_lock (proj1 Hk1)) as Hlk. unfold SCHED_MAX_LOCK_COUNT in Hlk.
  change (s1 <| g_sched_lock ::= _ |> <| g_res_list ::= _ |>) with (s2 <| g_sched_lock := wrap8 (g_sched_lock s1 + 1) |>).
  rewrite (sem_give_locked idle s2) by (apply Hk2 || (rewrite wrap8_small by (unfold u8; lia); lia)).
  destruct (sem_given_ctx idle s2 g_res_sem (kb_wf (proj1 Hk2))) as (C1 & C2 & C3).
  destruct (sem_given_task idle s2 g_res_sem t (kb_wf (proj1 Hk2))) as (T1 & T2 & _).
  pose proof (sem_given_kbody idle s2 g_res_sem Hk2) as Hb3. pose proof (sem_given_fail g_res_sem s2) as Hf.
  destruct (sem_given g_res_sem s2) as [ret s3]; cbn [fst snd] in *.
  assert (s3 <| g_sched_lock := wrap8 (g_sched_lock s1 + 1) |> <| g_sched_lock ::= fun n => wrap8 (n - 1) |> = s3) as ->.
  { kstate_eq. rewrite C1. change (g_sched_lock s2) with (g_sched_lock s1). rewrite (wrap8_small (g_sched_lock s1 + 1)) by (unfold u8; lia).
    rewrite wrap8_small by (unfold u8; lia). lia. }
  case_decide as Er; cbn [snd].
  - rewrite Hf by done. by apply kinv_err; [apply kinv_exit|].
  - destruct (del_tail_kbody idle s3 t Hb3) as (s4 & E6 & Hb4).
    + by rewrite T1.
    + rewrite T2. change (task_of s2 t) with (task_of s1 t). lia.
    + rewrite C1, C2. intros Ea Hl. change (g_active_task s2) with (g_active_task s1) in Ea.
      rewrite Ea, Z.eqb_refl in E4. cbn [andb] in E4. change (g_sched_lock s2) with (g_sched_lock s1) in Hl. lia.
    + rewrite E6. apply exit_sched_kinv. by apply kbody_kobj.
Qed.

(** ** Task semaphores and the memory service *)
Lemma krhino_task_sem_create_kinv idle s t sem name cnt :
  kinv idle s -> valid_task s t -> obj_type (blk_of s sem) = RHINO_OBJ_TYPE_NONE ->
  kinv idle (krhino_task_sem_create t sem name cnt s).2.
Proof.
  intros Hk Hv Hty. unfold krhino_task_sem_create, krhino_sem_create. kif E1.
  pose proof (sem_create_kinv idle s sem name cnt K_OBJ_STATIC_ALLOC Hk Hty) as Hk1.
  assert (tasks (sem_create sem name cnt K_OBJ_STATIC_ALLOC s).2 = tasks s) as Et.
  { unfold sem_create. destruct (sem =? NULL); [reflexivity|]. destruct (name =? NULL); reflexivity. }
  destruct (sem_create sem name cnt K_OBJ_STATIC_ALLOC s) as [ret s1]; cbn [snd] in *.
  assert (valid_task s1 t) as Hv1 by (unfold valid_task, task_of in *; by rewrite Et).
  pose proof (task_exists s1 t Hv1). case_decide; cbn [snd]; (apply kinv_touch; [done|eauto|by split]).
Qed.

Lemma dyn_mem_take_kinv idle s : kinv idle s -> kinv idle (dyn_mem_take s).2.
Proof.
  intros Hk. unfold dyn_mem_take. kenter idle s. destruct (g_res_list s1) as [|r rest]; cbn [snd]; [by apply kinv_exit|].
  apply kinv_exit. split; [eapply kbody_same, Hk1; done|by eapply schedok_same, Hk1].
Qed.
