(* ===== verification/Cx.v ===== *)
(** * Execution context

    [cx] is the part of the state that says who runs: system status, scheduler lock,
    interrupt nesting and active task.  Every kernel call saves the interrupt mask,
    works on the kernel's lists without touching the context, and returns by
    restoring the mask, with or without a call of the scheduler ([returns]).  Two
    consequences hold for every state, reachable or not: calls leave the interrupt
    mask as they found it, and no call switches tasks in an interrupt handler or
    while the scheduler is locked. *)
From S2P Require Import Prelude Bitmap KTypes RunQueue RingBuf Kernel Pend Alloc Task Sem Mutex Queue Event.
From S2P Require Import MmBlk Timer Workqueue TaskDyn Sys Invariant InvPend PriInherit KInv ApiInv MutexInv.
From S2P Require Import TaskInv TaskApiInv TaskDelInv.
Import MsgQueue BufQueue.
Local Open Scope Z_scope.

Implicit Types (s r : kstate) (t u w m o : Z).

Definition cx s : kstat_t * Z * Z * Z := (g_sys_stat s, g_sched_lock s, g_intrpt_nested_level s, g_active_task s).

Create Rewrite HintDb cx.

(** ** Updates outside the context *)
Lemma cx_upd_task t f s : cx (upd_task t f s) = cx s. Proof. done. Qed.
Lemma cx_upd_blk t f s : cx (upd_blk t f s) = cx s. Proof. done. Qed.
Lemma cx_upd_sem t f s : cx (upd_sem t f s) = cx s. Proof. done. Qed.
Lemma cx_upd_mutex t f s : cx (upd_mutex t f s) = cx s. Proof. done. Qed.
Lemma cx_upd_event t f s : cx (upd_event t f s) = cx s. Proof. done. Qed.
Lemma cx_upd_queue t f s : cx (upd_queue t f s) = cx s. Proof. done. Qed.
Lemma cx_upd_buf_queue t f s : cx (upd_buf_queue t f s) = cx s. Proof. done. Qed.
Lemma cx_blk_list_rm t s : cx (blk_list_rm t s) = cx s. Proof. done. Qed.
Lemma cx_err e s : cx (k_err_proc e s) = cx s. Proof. done. Qed.
Lemma cx_add t s : cx (k_ready_list_add t s) = cx s. Proof. done. Qed.
Lemma cx_add_head t s : cx (k_ready_list_add_head t s) = cx s. Proof. done. Qed.
Lemma cx_add_tail t s : cx (k_ready_list_add_tail t s) = cx s. Proof. done. Qed.
Lemma cx_rm t s : cx (k_ready_list_rm t s) = cx s.
Proof. unfold k_ready_list_rm. by destruct (ready_list_rm _ _ _) as [? [?|]]. Qed.
Lemma cx_mask b s : cx (s <| intrpt_masked := b |>) = cx s. Proof. done. Qed.
Lemma cx_kobj f s : cx (s <| g_kobj_list ::= f |>) = cx s. Proof. done. Qed.
Lemma cx_rq f s : cx (s <| g_ready_queue ::= f |>) = cx s. Proof. done. Qed.
Lemma cx_words f s : cx (s <| user_words ::= f |>) = cx s. Proof. done. Qed.
Lemma cx_bufs f s : cx (s <| user_bufs ::= f |>) = cx s. Proof. done. Qed.
Lemma cx_spawned f s : cx (s <| g_idle_task_spawned ::= f |>) = cx s. Proof. done. Qed.
Lemma cx_if (b : bool) s s' s0 : cx s = cx s0 -> cx s' = cx s0 -> cx (if b then s else s') = cx s0.
Proof. by destruct b. Qed.
#[export] Hint Rewrite cx_upd_task cx_upd_blk cx_upd_sem cx_upd_mutex cx_upd_event cx_upd_queue cx_upd_buf_queue
  cx_blk_list_rm cx_err cx_add cx_add_head cx_add_tail cx_rm cx_mask cx_kobj cx_rq cx_words cx_bufs cx_spawned : cx.

(** ** Pending and waking *)
Lemma cx_tick_rm t s : cx (tick_list_rm t s) = cx s.
Proof. unfold tick_list_rm. by destruct (tick_head _). Qed.
Lemma cx_tick_insert t n s : cx (tick_list_insert t n s) = cx s.
Proof. unfold tick_list_insert. by destruct (0 <? n). Qed.
Lemma cx_unblock t s : cx (pend_unblock t s) = cx s.
Proof. unfold pend_unblock. by destruct (task_state _). Qed.
#[export] Hint Rewrite cx_tick_rm cx_tick_insert cx_unblock : cx.
Lemma cx_wakeup t s : cx (pend_task_wakeup t s) = cx s.
Proof. unfold pend_task_wakeup. by autorewrite with cx. Qed.
Lemma cx_pend_rm t s : cx (pend_task_rm t s) = cx s.
Proof. unfold pend_task_rm. by autorewrite with cx. Qed.
Lemma cx_pend o t n s : cx (pend_to_blk_obj o t n s) = cx s.
Proof.
  unfold pend_to_blk_obj. destruct (blk_policy _), (negb _); unfold pend_list_add; by autorewrite with cx.
Qed.
Lemma cx_reorder t s : cx (pend_list_reorder t s) = cx s.
Proof. unfold pend_list_reorder. by destruct (blk_policy _). Qed.
Lemma cx_set_type o ty s : cx (set_obj_type o ty s) = cx s. Proof. done. Qed.
Lemma cx_msg_recv m t s : cx (task_msg_recv m t s) = cx s.
Proof. unfold task_msg_recv. by rewrite cx_wakeup. Qed.
#[export] Hint Rewrite cx_wakeup cx_pend_rm cx_pend cx_reorder cx_set_type cx_msg_recv : cx.

Lemma cx_while n o f s : (forall t s, cx (f t s) = cx s) -> cx (while_blocked n o f s) = cx s.
Proof.
  intros Hf. revert s. induction n as [|n IH]; intros s; cbn [while_blocked]; [done|].
  destruct (blk_list _); [done|]. by rewrite IH, Hf.
Qed.
Lemma cx_wake_wakeup o s : cx (wake_all o pend_task_wakeup s) = cx s.
Proof. apply cx_while, cx_wakeup. Qed.
Lemma cx_wake_rm o s : cx (wake_all o pend_task_rm s) = cx s.
Proof. apply cx_while, cx_pend_rm. Qed.
Lemma cx_wake_msg o m s : cx (wake_all o (task_msg_recv m) s) = cx s.
Proof. apply cx_while. intros. apply cx_msg_recv. Qed.
#[export] Hint Rewrite cx_wake_wakeup cx_wake_rm cx_wake_msg : cx.

(** ** Priorities *)
Lemma cx_look_loop n prev rel p q s : cx (mutex_pri_look_loop n prev rel p q s).2 = cx s.
Proof.
  revert prev p q s. induction n as [|n IH]; intros prev p q s; cbn [mutex_pri_look_loop]; [done|].
  destruct (_ =? NULL); [done|]. destruct (_ =? rel); [|by rewrite IH]. rewrite IH. by destruct prev.
Qed.
Lemma cx_look t rel s : cx (mutex_pri_look t rel s).2 = cx s.
Proof. apply cx_look_loop. Qed.
#[export] Hint Rewrite cx_look : cx.

(** The common tail of the two pending states in [task_pri_change_step]. *)
Ltac cx_pend_branch :=
  case_decide; [|cbn [fst]; by autorewrite with cx]; destruct (_ <? _); [cbn [fst]; by autorewrite with cx|];
  destruct (_ =? _); [|cbn [fst]; by autorewrite with cx];
  match goal with
  | |- context [mutex_pri_look ?t ?m ?s] =>
      let E := fresh in pose proof (cx_look t m s) as E; destruct (mutex_pri_look t m s) as [? ?]; cbn [snd] in E;
      destruct (negb _); cbn [fst]; rewrite E; by autorewrite with cx
  end.

Lemma cx_change_step t p s : cx (task_pri_change_step t p s).1 = cx s.
Proof.
  unfold task_pri_change_step. destruct (negb _); [|done]. cbv zeta.
  destruct (task_state _); try done; cbn [fst]; [|cx_pend_branch..]. destruct (_ =? _); by autorewrite with cx.
Qed.

Lemma cx_change_loop n t p s : cx (task_pri_change_loop n t p s).2 = cx s.
Proof.
  revert t p s. induction n as [|n IH]; intros t p s; cbn [task_pri_change_loop]; [done|].
  pose proof (cx_change_step t p s) as E. destruct (task_pri_change_step t p s) as [s' [t' p'|st]]; cbn [fst snd] in *.
  - by rewrite IH.
  - done.
Qed.
Lemma cx_change t p s : cx (task_pri_change t p s).2 = cx s.
Proof. apply cx_change_loop. Qed.
#[export] Hint Rewrite cx_change : cx.

Lemma cx_release t m s : cx (mutex_release t m s) = cx s.
Proof.
  unfold mutex_release. pose proof (cx_look t m s) as E. destruct (mutex_pri_look t m s) as [r s'].
  cbn [snd] in E. destruct (negb _); autorewrite with cx; done.
Qed.
#[export] Hint Rewrite cx_release : cx.
Lemma cx_pri_reset t s : cx (mutex_task_pri_reset t s) = cx s.
Proof. unfold mutex_task_pri_reset. case_decide; [|done]. destruct (_ =? _); by autorewrite with cx. Qed.
#[export] Hint Rewrite cx_pri_reset : cx.

(** ** Tick, events, deletion *)
Lemma cx_expire t s : cx (tick_expire t s) = cx s.
Proof. unfold tick_expire. destruct (task_state _); by autorewrite with cx. Qed.
Lemma cx_walk l s : cx (tick_list_walk l s) = cx s.
Proof.
  revert s. induction l as [|t l IH]; intros s; cbn [tick_list_walk]; [done|].
  destruct (_ =? _); [|done]. by rewrite IH, cx_expire.
Qed.
Lemma cx_tick_update s : cx (tick_list_update s) = cx s.
Proof.
  unfold tick_list_update, RHINO_CRITICAL_ENTER, RHINO_CPU_INTRPT_DISABLE, RHINO_CRITICAL_EXIT, RHINO_CPU_INTRPT_ENABLE.
  cbv beta iota zeta. by rewrite cx_mask, cx_walk.
Qed.
Lemma cx_slice p s : cx (time_slice_update p s) = cx s.
Proof.
  unfold time_slice_update, RHINO_CRITICAL_ENTER, RHINO_CPU_INTRPT_DISABLE; cbv beta iota zeta.
  destruct (is_ready_list_empty _ _); [reflexivity|]. destruct (_ =? KSCHED_FIFO); [reflexivity|].
  destruct (_ =? _)%nat; [reflexivity|]. destruct (0 <? time_slice (task_of _ _)); destruct (0 <? _); reflexivity.
Qed.
Lemma cx_event_walk e c l s : cx (event_set_walk e c l s) = cx s.
Proof.
  revert s. induction l as [|t l IH]; intros s; cbn [event_set_walk]; [done|]. rewrite IH.
  apply cx_if; [|done]. apply cx_if; by autorewrite with cx.
Qed.
Lemma cx_free_loop n m s : cx (task_mutex_free_loop n m s) = cx s.
Proof.
  revert m s. induction n as [|n IH]; intros m s; cbn [task_mutex_free_loop]; [done|].
  destruct (m =? NULL); [done|]. rewrite IH. destruct (blk_list _); by autorewrite with cx.
Qed.
Lemma cx_free t s : cx (task_mutex_free t s) = cx s.
Proof. apply cx_free_loop. Qed.
#[export] Hint Rewrite cx_free cx_expire cx_walk cx_tick_update cx_slice cx_event_walk cx_free_loop : cx.

Lemma cx_del_lists t s s' : task_del_lists t s = Some s' -> cx s' = cx s.
Proof. unfold task_del_lists. destruct (task_state _); intros [= <-]; by autorewrite with cx. Qed.

(** ** How a call returns *)
Inductive returns s : kstate -> Prop :=
| ret_plain r : cx r = cx s -> intrpt_masked r = intrpt_masked s -> returns s r
| ret_sched r : cx r = cx s -> intrpt_masked r = intrpt_masked s -> returns s (core_sched r).

Lemma core_sched_mask s : intrpt_masked (core_sched s) = intrpt_masked s.
Proof.
  unfold core_sched, RHINO_CPU_INTRPT_DISABLE, RHINO_CPU_INTRPT_ENABLE; cbv beta iota zeta.
  destruct (0 <? _); [done|]. destruct (0 <? _); [done|]. by destruct (_ =? _).
Qed.

Lemma core_sched_stays s :
  0 < g_intrpt_nested_level s \/ 0 < g_sched_lock s -> cx (core_sched s) = cx s.
Proof.
  intros Hor. unfold core_sched, RHINO_CPU_INTRPT_DISABLE, RHINO_CPU_INTRPT_ENABLE; rsimpl.
  destruct (Z.ltb_spec 0 (g_intrpt_nested_level s)); [done|]. destruct (Z.ltb_spec 0 (g_sched_lock s)); [done|]. lia.
Qed.

Lemma returns_mask s r : returns s r -> intrpt_masked r = intrpt_masked s.
Proof. intros [?|? ? ?]; [done|]. by rewrite core_sched_mask. Qed.

Lemma returns_stays s r : returns s r -> 0 < g_intrpt_nested_level s \/ 0 < g_sched_lock s -> cx r = cx s.
Proof.
  intros [?|r' E Em]; [done|]. intros Hor. rewrite core_sched_stays; [done|].
  unfold cx in E. injection E as _ -> -> _. done.
Qed.

Lemma ret_exit s r b : cx r = cx s -> b = intrpt_masked s -> returns s (RHINO_CRITICAL_EXIT b r).
Proof. intros E ->. by apply ret_plain. Qed.
Lemma ret_exit_sched s r b : cx r = cx s -> b = intrpt_masked s -> returns s (RHINO_CRITICAL_EXIT_SCHED b r).
Proof. intros E ->. by apply ret_sched. Qed.
Lemma ret_same s : returns s s.
Proof. by apply ret_plain. Qed.

(** Split a call into its branches and close each one. *)
Ltac cx_solve := autorewrite with cx; first [reflexivity | apply cx_if; cx_solve].
Ltac cx_branch :=
  cbn [fst snd];
  lazymatch goal with
  | |- returns ?s ?s => apply ret_same
  | |- returns _ (RHINO_CRITICAL_EXIT _ _) => apply ret_exit; [cx_solve|reflexivity]
  | |- returns _ (RHINO_CRITICAL_EXIT_SCHED _ _) => apply ret_exit_sched; [cx_solve|reflexivity]
  | |- returns _ (snd (match ?x with _ => _ end)) => destruct x; cx_branch
  end.
Ltac cx_call :=
  unfold RHINO_CRITICAL_ENTER, RHINO_CPU_INTRPT_DISABLE; cbv beta iota zeta; cx_branch.

(** ** The calls *)
Section Calls.
Context (s : kstate).

Lemma ret_task_create t n a p ti sb ss e ar mm cpu : returns s (task_create t n a p ti sb ss e ar mm cpu s).2.
Proof.
  unfold task_create. cx_call.
Qed.
Lemma ret_task_del t :
  negb (in_intrpt s) && (prio (task_of s (del_target t s)) =? RHINO_IDLE_PRI) = false -> returns s (krhino_task_del t s).2.
Proof.
  unfold krhino_task_del, del_target, RHINO_CRITICAL_ENTER, RHINO_CPU_INTRPT_DISABLE; cbv beta iota zeta.
  change (in_intrpt (s <| intrpt_masked := true |>)) with (in_intrpt s). destruct (in_intrpt s); [intros _; cx_branch|].
  cbn [negb andb]. intros E. rsimpl. unfold task_of in *; rsimpl. rewrite E. cbn [snd].
  destruct (negb _); [cx_branch|]. destruct (_ && _); [cx_branch|].
  destruct (task_del_lists _ _) as [s'|] eqn:El; [|cx_branch]. cbn [snd].
  apply ret_exit_sched; [|done]. rewrite cx_kobj, (cx_del_lists _ _ _ El). cx_solve.
Qed.
Lemma ret_sleep n : returns s (krhino_task_sleep n s).2.
Proof. unfold krhino_task_sleep. cx_call. Qed.
Lemma ret_yield : returns s (krhino_task_yield s).2.
Proof. unfold krhino_task_yield. cx_call. Qed.
Lemma ret_suspend t : returns s (krhino_task_suspend t s).2.
Proof. unfold krhino_task_suspend, task_suspend. cx_call. Qed.
Lemma ret_resume t : returns s (krhino_task_resume t s).2.
Proof. unfold krhino_task_resume, task_resume. cx_call. Qed.
Lemma ret_abort t : returns s (krhino_task_wait_abort t s).2.
Proof. unfold krhino_task_wait_abort. cx_call. Qed.
Lemma ret_slice_set t n : returns s (krhino_task_time_slice_set t n s).2.
Proof. unfold krhino_task_time_slice_set. cx_call. Qed.
Lemma ret_policy_set t n : returns s (krhino_sched_policy_set t n s).2.
Proof. unfold krhino_sched_policy_set. cx_call. Qed.
Lemma ret_info_set t i n : returns s (krhino_task_info_set t i n s).2.
Proof.
  unfold krhino_task_info_set. destruct (_ =? _); [cx_branch|]. destruct (_ <=? _); [cx_branch|]. by apply ret_plain.
Qed.
Lemma ret_pri_change t p b : returns s (krhino_task_pri_change t p b s).2.
Proof.
  unfold krhino_task_pri_change. destruct (t =? NULL); [cx_branch|]. destruct b; [cx_branch|].
  destruct (_ <=? _); [cx_branch|]. destruct (_ <=? _); [cx_branch|]. case_decide; [cx_branch|].
  unfold RHINO_CRITICAL_ENTER, RHINO_CPU_INTRPT_DISABLE; cbv beta iota zeta. destruct (in_intrpt _); [cx_branch|].
  match goal with |- context [task_pri_change ?a ?b ?c] => pose proof (cx_change a b c) as E; destruct (task_pri_change a b c) end.
  cbn [snd] in E. case_decide; cbn [snd]; [apply ret_exit_sched|apply ret_exit]; rewrite ?E; done.
Qed.
Lemma ret_sem_create o n c f : returns s (sem_create o n c f s).2.
Proof. unfold sem_create. destruct (_ =? _); [cx_branch|]. destruct (_ =? _); [cx_branch|]. by apply ret_plain. Qed.
Lemma ret_sem_del f o : returns s (sem_del_with f o s).2.
Proof. unfold sem_del_with. cx_call. Qed.
Lemma ret_sem_give o : returns s (krhino_sem_give o s).2.
Proof. unfold krhino_sem_give, sem_give. cx_call. Qed.
Lemma ret_sem_give_all o : returns s (krhino_sem_give_all o s).2.
Proof. unfold krhino_sem_give_all, sem_give. cx_call. Qed.
Lemma ret_sem_take o n : returns s (krhino_sem_take o n s).2.
Proof. unfold krhino_sem_take. cx_call. Qed.
Lemma ret_sem_set o n : returns s (krhino_sem_count_set o n s).2.
Proof. unfold krhino_sem_count_set. cx_call. Qed.
Lemma ret_mutex_create o n f : returns s (mutex_create o n f s).2.
Proof. unfold mutex_create. destruct (_ =? _); [cx_branch|]. destruct (_ =? _); [cx_branch|]. by apply ret_plain. Qed.
Lemma ret_mutex_del f o : returns s (mutex_del_with f o s).2.
Proof. unfold mutex_del_with. cx_call. Qed.
Lemma ret_mutex_lock o n : returns s (krhino_mutex_lock o n s).2.
Proof. unfold krhino_mutex_lock. cx_call. Qed.
Lemma ret_mutex_unlock o : returns s (krhino_mutex_unlock o s).2.
Proof. unfold krhino_mutex_unlock. cx_call. Qed.
Lemma ret_event_create o n fl f : returns s (event_create o n fl f s).2.
Proof. unfold event_create. destruct (_ =? _); [cx_branch|]. destruct (_ =? _); [cx_branch|]. by apply ret_plain. Qed.
Lemma ret_event_del f o : returns s (event_del_with f o s).2.
Proof. unfold event_del_with. cx_call. Qed.
Lemma ret_event_get o fl op a n : returns s (krhino_event_get o fl op a n s).2.
Proof. unfold krhino_event_get. cx_call. Qed.
Lemma ret_event_set o fl op : returns s (krhino_event_set o fl op s).2.
Proof. unfold krhino_event_set, event_set. cx_call. Qed.
Lemma ret_queue_create o n st nu f mem : returns s (queue_create o n st nu f mem s).2.
Proof. unfold queue_create. do 4 (destruct (_ =? _); [cx_branch|]). by apply ret_plain. Qed.
Lemma ret_queue_del f o : returns s (queue_del_with f o s).2.
Proof. unfold queue_del_with. cx_call. Qed.
Lemma ret_msg_send o p op all : returns s (msg_send o p op all s).2.
Proof. unfold msg_send. cx_call. Qed.
Lemma ret_queue_recv o n b : returns s (krhino_queue_recv o n b s).2.
Proof. unfold krhino_queue_recv. cx_call. Qed.
Lemma ret_queue_flush o : returns s (krhino_queue_flush o s).2.
Proof. unfold krhino_queue_flush. cx_call. Qed.
Lemma ret_buf_queue_create o n b sz mx f mem : returns s (buf_queue_create o n b sz mx f mem s).2.
Proof. unfold buf_queue_create. do 5 (destruct (_ =? _); [cx_branch|]). by apply ret_plain. Qed.
Lemma ret_buf_queue_del f o : returns s (buf_queue_del_with f o s).2.
Proof. unfold buf_queue_del_with. cx_call. Qed.
Lemma ret_buf_queue_send o d f : returns s (buf_queue_send o d f s).2.
Proof. unfold buf_queue_send. cx_call. Qed.
Lemma ret_buf_queue_recv o n p b : returns s (krhino_buf_queue_recv o n p b s).2.
Proof. unfold krhino_buf_queue_recv. cx_call. Qed.
Lemma ret_buf_queue_flush o : returns s (krhino_buf_queue_flush o s).2.
Proof. unfold krhino_buf_queue_flush. cx_call. Qed.
Lemma ret_blocked : returns s (blocked_return s).2.
Proof.
  unfold blocked_return, pend_state_end_proc, RHINO_CPU_INTRPT_DISABLE, RHINO_CPU_INTRPT_ENABLE; cbv beta iota zeta.
  by destruct (blk_state _); apply ret_plain.
Qed.
Lemma slice_mask p r : intrpt_masked (time_slice_update p r) = intrpt_masked r.
Proof.
  unfold time_slice_update, RHINO_CRITICAL_ENTER, RHINO_CPU_INTRPT_DISABLE; cbv beta iota zeta.
  destruct (is_ready_list_empty _ _); [reflexivity|]. destruct (_ =? KSCHED_FIFO); [reflexivity|].
  destruct (_ =? _)%nat; [reflexivity|]. destruct (0 <? time_slice (task_of _ _)); destruct (0 <? _); reflexivity.
Qed.
Lemma ret_tick : returns s (krhino_tick_proc s).
Proof.
  unfold krhino_tick_proc. apply ret_plain; [by rewrite cx_slice, cx_tick_update|]. by rewrite slice_mask.
Qed.

(** Task semaphores are semaphores, except that creation also writes the task. *)
Lemma ret_task_sem_create t o n c : returns s (krhino_task_sem_create t o n c s).2.
Proof.
  unfold krhino_task_sem_create, krhino_sem_create. destruct (t =? NULL); [cx_branch|].
  unfold sem_create. destruct (o =? NULL); [by apply ret_plain|]. destruct (n =? NULL); by apply ret_plain.
Qed.

(** The interrupt mask after [krhino_task_dyn_del], in every state. *)
Lemma dyn_del_mask rs t : intrpt_masked (krhino_task_dyn_del rs t s).2 = intrpt_masked s.
Proof.
  unfold krhino_task_dyn_del, RHINO_CRITICAL_ENTER, RHINO_CPU_INTRPT_DISABLE; cbv beta iota zeta.
  destruct (in_intrpt _); [done|]. destruct (_ =? RHINO_IDLE_PRI); [done|]. destruct (negb _); [done|]. destruct (_ && _); [done|].
  case_decide; [done|]. destruct (krhino_sem_give _ _) as [ret s3]. case_decide; [done|]. cbn [snd].
  unfold RHINO_CRITICAL_EXIT_SCHED. by rewrite core_sched_mask.
Qed.

Lemma ret_dyn_take : returns s (dyn_mem_take s).2.
Proof.
  unfold dyn_mem_take, RHINO_CRITICAL_ENTER, RHINO_CPU_INTRPT_DISABLE; cbv beta iota zeta.
  destruct (g_res_list _); by apply ret_plain.
Qed.
End Calls.

(** [krhino_task_dyn_del] locks the scheduler around a give; the 8-bit lock must not wrap. *)
Lemma ret_dyn_del rs t s : 0 <= g_sched_lock s < 255 -> returns s (krhino_task_dyn_del rs t s).2.
Proof.
  intros Hl. unfold krhino_task_dyn_del, RHINO_CRITICAL_ENTER, RHINO_CPU_INTRPT_DISABLE; cbv beta iota zeta.
  destruct (in_intrpt _); [cx_branch|]. destruct (_ =? RHINO_IDLE_PRI); [cx_branch|]. destruct (negb _); [cx_branch|].
  destruct (_ && _); [cx_branch|]. case_decide; [cx_branch|].
  match goal with |- context [krhino_sem_give rs ?x] => set (s2 := x) end.
  assert (g_sched_lock s2 = g_sched_lock s + 1) as E2 by (unfold s2; rsimpl; apply wrap8_small; unfold u8; lia).
  assert (g_sys_stat s2 = g_sys_stat s /\ g_intrpt_nested_level s2 = g_intrpt_nested_level s /\ g_active_task s2 = g_active_task s)
    as (F1 & F2 & F3) by done.
  clearbody s2.
  pose proof (returns_stays s2 _ (ret_sem_give s2 rs) ltac:(right; lia)) as E.
  destruct (krhino_sem_give rs s2) as [ret s3]; cbn [snd] in E.
  assert (cx (s3 <| g_sched_lock ::= fun n => wrap8 (n - 1) |>) = cx s) as E3.
  { unfold cx in *. injection E as Es El En Ea. rsimpl. rewrite Es, El, En, Ea, E2, F1, F2, F3, wrap8_small by (unfold u8; lia).
    by replace (g_sched_lock s + 1 - 1) with (g_sched_lock s) by lia. }
  set (s4 := s3 <| g_sched_lock ::= _ |>) in *. clearbody s4.
  case_decide; cbn [snd]; [by apply ret_plain|]. apply ret_exit_sched; [|done].
  rewrite cx_kobj. destruct (task_del_lists _ _) as [s5|] eqn:El.
  - change (cx s5 = cx s). by rewrite (cx_del_lists _ _ _ El), cx_free.
  - change (cx (task_mutex_free (if t =? NULL then g_active_task (s <| intrpt_masked := true |>) else t) s4) = cx s). by rewrite cx_free.
Qed.

(** ** Who runs after a call

    Outside interrupts and with the scheduler unlocked, the preferred task is active. *)
Definition settled s : Prop :=
  g_intrpt_nested_level s = 0 /\ g_sched_lock s = 0 /\ g_active_task s = preferred_cpu_ready_task_get (g_ready_queue s).

Lemma settled_sched s : g_intrpt_nested_level s = 0 -> g_sched_lock s = 0 -> settled (core_sched s).
Proof.
  intros Hn Hl. unfold core_sched, RHINO_CPU_INTRPT_DISABLE, RHINO_CPU_INTRPT_ENABLE; cbv beta iota; rsimpl. rewrite Hn, Hl. cbn [Z.ltb Z.compare].
  destruct (Z.eqb_spec (preferred_cpu_ready_task_get (g_ready_queue s)) (g_active_task s)) as [E|E]; (split_and!; [exact Hn|exact Hl|]).
  - symmetry. exact E.
  - reflexivity.
Qed.

Lemma settled_exit_sched b s s0 : settled s0 -> cx s = cx s0 -> settled (RHINO_CRITICAL_EXIT_SCHED b s).
Proof. intros (Hn & Hl & _) E. unfold cx in E. injection E as _ El En _. apply settled_sched; [by rewrite <- Hn, <- En|by rewrite <- Hl, <- El]. Qed.

Lemma settled_same s s0 : settled s0 -> cx s = cx s0 -> g_ready_queue s = g_ready_queue s0 -> settled s.
Proof. intros (Hn & Hl & Ha) E Eq. unfold cx in E. injection E as _ El En Ea. split_and!; congruence. Qed.

Ltac settle :=
  cbn [fst snd];
  lazymatch goal with
  | |- settled (snd (match ?x with _ => _ end)) => destruct x; settle
  | H : settled ?s0 |- settled (RHINO_CRITICAL_EXIT_SCHED _ _) => apply (settled_exit_sched _ _ s0 H); cx_solve
  | H : settled ?s0 |- settled _ => apply (settled_same _ s0 H); [cx_solve|reflexivity]
  end.

Lemma settled_sem_create o n c f s : settled s -> settled (sem_create o n c f s).2.
Proof. intros H. unfold sem_create. destruct (_ =? _); [done|]. destruct (_ =? _); [done|]. by apply (settled_same _ s H). Qed.

Lemma settled_sem_del f o s : settled s -> settled (sem_del_with f o s).2.
Proof. intros H. unfold sem_del_with, RHINO_CRITICAL_ENTER, RHINO_CPU_INTRPT_DISABLE; cbv beta iota zeta. settle. Qed.

Lemma settled_resume t s : settled s -> settled (krhino_task_resume t s).2.
Proof. intros H. unfold krhino_task_resume, task_resume, RHINO_CRITICAL_ENTER, RHINO_CPU_INTRPT_DISABLE; cbv beta iota zeta. settle. Qed.

(** A task created suspended does not disturb the ready queue. *)
Lemma settled_task_create t n a p ti sb ss e mm cpu s : settled s -> settled (task_create t n a p ti sb ss e 0 mm cpu s).2.
Proof.
  intros H. unfold task_create, RHINO_CRITICAL_ENTER, RHINO_CPU_INTRPT_DISABLE; cbv beta iota zeta. change (0 <? 0) with false. cbv iota.
  do 5 (destruct (_ =? _); [done|]). destruct (_ <=? _); [done|]. destruct (in_intrpt _); [by apply (settled_same _ s H)|].
  destruct (_ && _); [by apply (settled_same _ s H)|]. destruct (_ =? _); by apply (settled_same _ s H).
Qed.

(** * Start of the system with its default work queue

    [krhino_start] chooses the first task, then creates the default work queue, and only
    then declares the kernel running.  Creating the queue keeps the preferred task active
    ([settled]), so the invariant holds once the kernel runs. *)

Implicit Types (idle : kenv).

(** Writes to timers, works and work queues are invisible to the scheduler. *)
Lemma kinv_fields idle s s' :
  kinv idle s -> same_view s s' -> sems s' = sems s -> queues s' = queues s -> buf_queues s' = buf_queues s -> kinv idle s'.
Proof.
  intros [Hb Hs] V E1 E2 E3. destruct V as [V1 V2 V3 V4 V5 V6 V7 V8 V9 V10 V11]. split.
  - eapply kbody_same, Hb; [by split|]. intros o _. unfold obj_quiet, blk_of, sem_of, queue_of, buf_queue_of. by rewrite V2, E1, E2, E3.
  - by eapply schedok_same, Hs.
Qed.

Section Create.
Context (worker_addr sem_addr : Z -> Z) (sem_name worker_entry : Z).

(** The worker and the semaphore are not in use. *)
Definition wq_fresh workqueue s : bool :=
  negb (is_alive (task_of s (worker_addr workqueue))) && bool_decide (obj_type (blk_of s (sem_addr workqueue)) = RHINO_OBJ_TYPE_NONE).

Lemma workqueue_create_kinv idle workqueue name pri sb ss s :
  kinv idle s -> settled s -> wq_fresh workqueue s = true -> 0 <= pri ->
  let s' := (krhino_workqueue_create worker_addr sem_addr sem_name worker_entry workqueue name pri sb ss s).2 in
  kinv idle s' /\ settled s'.
Proof.
  intros Hk Hs [Hf1 Hf2]%andb_true_iff Hp. apply negb_true_iff in Hf1. apply bool_decide_eq_true in Hf2.
  cbv zeta. unfold krhino_workqueue_create. do 3 (destruct (_ =? NULL); [done|]). destruct (_ <=? pri); [done|].
  destruct (ss =? 0); [done|]. case_decide; [done|]. set (s1 := upd_workqueue _ _ s).
  assert (kinv idle s1) as Hk1 by (eapply kinv_fields; [exact Hk|done..]).
  assert (settled s1) as Hs1 by (by apply (settled_same _ s)).
  assert (task_of s1 (worker_addr workqueue) = task_of s (worker_addr workqueue)) as Ew by done.
  assert (obj_type (blk_of s1 (sem_addr workqueue)) = RHINO_OBJ_TYPE_NONE) as Hf by exact Hf2. clearbody s1.
  pose proof (sem_create_kinv idle s1 _ sem_name 0 K_OBJ_STATIC_ALLOC Hk1 Hf) as Hk2.
  pose proof (settled_sem_create (sem_addr workqueue) sem_name 0 K_OBJ_STATIC_ALLOC s1 Hs1) as Hs2.
  assert (tasks (sem_create (sem_addr workqueue) sem_name 0 K_OBJ_STATIC_ALLOC s1).2 = tasks s1) as Et.
  { unfold sem_create. destruct (_ =? NULL); [reflexivity|]. destruct (_ =? NULL); reflexivity. }
  unfold krhino_sem_create. destruct (sem_create _ _ _ _ s1) as [r2 s2]; cbn [snd] in *. case_decide; [done|].
  assert (is_alive (task_of s2 (worker_addr workqueue)) = false) as Hw by (unfold task_of in *; by rewrite Et, Ew). unfold krhino_task_create.
  pose proof (task_create_kinv idle s2 _ name workqueue pri 0 sb ss worker_entry 0 K_OBJ_STATIC_ALLOC 0 Hk2 Hw Hp) as Hk3.
  pose proof (settled_task_create (worker_addr workqueue) name workqueue pri 0 sb ss worker_entry K_OBJ_STATIC_ALLOC 0 s2 Hs2) as Hs3.
  destruct (task_create _ _ _ _ _ _ _ _ _ _ _ s2) as [r3 s3]; cbn [snd] in *. case_decide; cbn [snd].
  { split; [by apply sem_del_kinv|by apply settled_sem_del]. }
  unfold RHINO_CRITICAL_ENTER, RHINO_CPU_INTRPT_DISABLE; cbv beta iota. set (s4 := RHINO_CRITICAL_EXIT _ _).
  assert (kinv idle s4) as Hk4 by (eapply kinv_fields; [exact Hk3|done..]).
  assert (settled s4) as Hs4 by (by apply (settled_same _ s3)). clearbody s4.
  pose proof (krhino_task_resume_kinv idle s4 (worker_addr workqueue) Hk4) as Hk5.
  pose proof (settled_resume (worker_addr workqueue) s4 Hs4) as Hs5.
  destruct (krhino_task_resume _ s4) as [r5 s5]; cbn [snd] in *. by case_decide.
Qed.

Lemma workqueue_create_mask workqueue name pri sb ss s :
  intrpt_masked (krhino_workqueue_create worker_addr sem_addr sem_name worker_entry workqueue name pri sb ss s).2 = intrpt_masked s.
Proof.
  unfold krhino_workqueue_create. do 3 (destruct (_ =? NULL); [done|]). destruct (_ <=? pri); [done|].
  destruct (ss =? 0); [done|]. case_decide; [done|]. set (s1 := upd_workqueue _ _ s).
  assert (intrpt_masked s1 = intrpt_masked s) as <- by done. clearbody s1. unfold krhino_sem_create.
  pose proof (returns_mask _ _ (ret_sem_create s1 (sem_addr workqueue) sem_name 0 K_OBJ_STATIC_ALLOC)) as E2.
  destruct (sem_create _ _ _ _ s1) as [r2 s2]; cbn [snd] in *. rewrite <- E2. case_decide; [done|]. unfold krhino_task_create.
  pose proof (returns_mask _ _ (ret_task_create s2 (worker_addr workqueue) name workqueue pri 0 sb ss worker_entry 0 K_OBJ_STATIC_ALLOC 0)) as E3.
  destruct (task_create _ _ _ _ _ _ _ _ _ _ _ s2) as [r3 s3]; cbn [snd] in *. rewrite <- E3. case_decide; cbn [snd].
  { apply (returns_mask _ _ (ret_sem_del s3 K_OBJ_STATIC_ALLOC (sem_addr workqueue))). }
  unfold RHINO_CRITICAL_ENTER, RHINO_CPU_INTRPT_DISABLE; cbv beta iota. set (s4 := RHINO_CRITICAL_EXIT _ _).
  assert (intrpt_masked s4 = intrpt_masked s3) as <- by done. clearbody s4.
  pose proof (returns_mask _ _ (ret_resume s4 (worker_addr workqueue))) as E5.
  destruct (krhino_task_resume _ s4) as [r5 s5]; cbn [snd] in *. by case_decide.
Qed.
End Create.

Lemma krhino_start_kinv idle W s :
  kinv idle s -> g_intrpt_nested_level s = 0 -> g_sched_lock s = 0 ->
  wq_fresh (a_worker_addr W) (a_sem_addr W) (a_wq W) s = true -> kinv idle (krhino_start W s).2.
Proof.
  intros [Hb Hs] Hn Hl Hf. unfold krhino_start. case_decide as Est; [|done]. cbn [snd]. unfold workqueue_init.
  set (s1 := s <| g_preferred_ready_task := _ |> <| g_active_task ::= _ |> <| g_workqueue_list_head := [] |>).
  assert (kinv idle s1) as Hk1.
  { split; [|intros E; change (g_sys_stat s = RHINO_RUNNING) in E; by rewrite E in Est].
    eapply (kbody_counters idle none s); try done; [apply Hb|apply Hb|]. intros E. change (g_sys_stat s = RHINO_RUNNING) in E. by rewrite E in Est. }
  assert (settled s1) as Hs1 by done.
  destruct (workqueue_create_kinv (a_worker_addr W) (a_sem_addr W) (a_wq_sem_name W) (a_wq_entry W) idle (a_wq W) (a_wq_name W)
    RHINO_CONFIG_WORKQUEUE_TASK_PRIO (a_wq_stack W) RHINO_CONFIG_WORKQUEUE_STACK_SIZE s1 Hk1 Hs1 Hf ltac:(done)) as [[Hb2 _] (E1 & E2 & E3)].
  set (s2 := (krhino_workqueue_create _ _ _ _ _ _ _ _ _ s1).2) in *. change (kinv idle (s2 <| g_sys_stat := RHINO_RUNNING |>)). clearbody s2.
  split; [|intros _ _ _; exact E3]. eapply (kbody_counters idle none s2); try done; [apply Hb2|apply Hb2|]. intros _ Hl'. rsimpl_in Hl'. lia.
Qed.

Lemma krhino_start_mask W s : intrpt_masked (krhino_start W s).2 = intrpt_masked s.
Proof.
  unfold krhino_start. case_decide; [|done]. cbn [snd]. unfold workqueue_init.
  match goal with |- context [krhino_workqueue_create ?a ?b ?c ?d ?e ?f ?g ?h ?i ?x] =>
    pose proof (workqueue_create_mask a b c d e f g h i x) as E; destruct (krhino_workqueue_create a b c d e f g h i x) as [r s2] end.
  exact E.
Qed.
