(* ===== verification/Reach.v ===== *)
(** * Runs of the kernel

    [kcall] lists every kernel entry point: the calls of tasks and interrupt
    handlers, the return of a blocked call in its task, the entry and exit of
    interrupts and the tick.  [kcall_run] executes one of them and [kcall_ok] is what
    the caller must guarantee (a valid handle, an address that is not in use, a
    32-bit timeout, the right context).  [krun] interprets a sequence of them,
    interleaved in any order; it is [None] when the environment breaks a guarantee.
    Every state of such a run from system start satisfies [kinv]. *)
From S2P Require Import Prelude Bitmap KTypes RunQueue RingBuf Kernel Pend Alloc Task Sem Mutex Queue Event.
From S2P Require Import MmBlk Timer Workqueue TaskDyn Sys Invariant InvPend PriInherit KInv ApiInv MutexInv.
From S2P Require Import TaskInv TaskApiInv TaskDelInv TaskDynInv Cx.
Import MsgQueue BufQueue.
Local Open Scope Z_scope.

Implicit Types (s : kstate) (t u w m o : Z) (k : ktask_t) (idle : kenv).

(** ** Entry points *)
Inductive kcall :=
| C_start (W : wq_addrs)
| C_intrpt_enter | C_intrpt_exit | C_tick
| C_sched_disable | C_sched_enable
| C_task_create (task name arg pri ticks stack_buf stack_size entry autorun mm_flag cpu : Z)
| C_task_del (task : Z) | C_task_sleep (ticks : Z) | C_task_yield
| C_task_suspend (task : Z) | C_task_resume (task : Z)
| C_task_pri_change (task pri : Z) (old_pri_null : bool) | C_task_wait_abort (task : Z)
| C_task_time_slice_set (task slice : Z) | C_sched_policy_set (task policy : Z) | C_task_info_set (task idx info : Z)
| C_sem_create (sem name cnt flag : Z) | C_sem_del (flag sem : Z)
| C_sem_give (sem : Z) | C_sem_give_all (sem : Z) | C_sem_take (sem ticks : Z) | C_sem_count_set (sem n : Z)
| C_mutex_create (mutex name flag : Z) | C_mutex_del (flag mutex : Z)
| C_mutex_lock (mutex ticks : Z) | C_mutex_unlock (mutex : Z)
| C_event_create (event name fl flag : Z) | C_event_del (flag event : Z)
| C_event_get (event fl opt actl_flags ticks : Z) | C_event_set (event fl opt : Z)
| C_queue_create (queue name start num flag : Z) (mem : list Z) | C_queue_del (flag queue : Z)
| C_msg_send (queue p opt : Z) (all : bool) | C_queue_recv (queue ticks : Z) (msg_null : bool) | C_queue_flush (queue : Z)
| C_buf_queue_create (queue name buf size mx flag : Z) (mem : list Z) | C_buf_queue_del (flag queue : Z)
| C_buf_queue_send (queue : Z) (data : list Z) (front : bool)
| C_buf_queue_recv (queue ticks p : Z) (size_null : bool) | C_buf_queue_flush (queue : Z)
| C_task_sem_create (task sem name cnt : Z) | C_task_sem_del (task : Z) | C_task_sem_give (task : Z)
| C_task_sem_take (ticks : Z) | C_task_sem_count_set (task n : Z)
| C_task_dyn_del (res_sem task : Z) | C_dyn_mem_take
| C_blocked_return.

Definition kcall_run (c : kcall) s : kstate :=
  match c with
  | C_start W => (krhino_start W s).2
  | C_intrpt_enter => (krhino_intrpt_enter s).2
  | C_intrpt_exit => krhino_intrpt_exit s
  | C_tick => krhino_tick_proc s
  | C_sched_disable => (krhino_sched_disable s).2
  | C_sched_enable => (krhino_sched_enable s).2
  | C_task_create task name arg pri ticks sb ss entry ar mm cpu =>
      (task_create task name arg pri ticks sb ss entry ar mm cpu s).2
  | C_task_del task => (krhino_task_del task s).2
  | C_task_sleep ticks => (krhino_task_sleep ticks s).2
  | C_task_yield => (krhino_task_yield s).2
  | C_task_suspend task => (krhino_task_suspend task s).2
  | C_task_resume task => (krhino_task_resume task s).2
  | C_task_pri_change task pri on => (krhino_task_pri_change task pri on s).2
  | C_task_wait_abort task => (krhino_task_wait_abort task s).2
  | C_task_time_slice_set task slice => (krhino_task_time_slice_set task slice s).2
  | C_sched_policy_set task policy => (krhino_sched_policy_set task policy s).2
  | C_task_info_set task idx info => (krhino_task_info_set task idx info s).2
  | C_sem_create sem name cnt flag => (sem_create sem name cnt flag s).2
  | C_sem_del flag sem => (sem_del_with flag sem s).2
  | C_sem_give sem => (krhino_sem_give sem s).2
  | C_sem_give_all sem => (krhino_sem_give_all sem s).2
  | C_sem_take sem ticks => (krhino_sem_take sem ticks s).2
  | C_sem_count_set sem n => (krhino_sem_count_set sem n s).2
  | C_mutex_create mutex name flag => (mutex_create mutex name flag s).2
  | C_mutex_del flag mutex => (mutex_del_with flag mutex s).2
  | C_mutex_lock mutex ticks => (krhino_mutex_lock mutex ticks s).2
  | C_mutex_unlock mutex => (krhino_mutex_unlock mutex s).2
  | C_event_create event name fl flag => (event_create event name fl flag s).2
  | C_event_del flag event => (event_del_with flag event s).2
  | C_event_get event fl opt actl ticks => (krhino_event_get event fl opt actl ticks s).2
  | C_event_set event fl opt => (krhino_event_set event fl opt s).2
  | C_queue_create queue name start num flag mem => (queue_create queue name start num flag mem s).2
  | C_queue_del flag queue => (queue_del_with flag queue s).2
  | C_msg_send queue p opt all => (msg_send queue p opt all s).2
  | C_queue_recv queue ticks mn => (krhino_queue_recv queue ticks mn s).2
  | C_queue_flush queue => (krhino_queue_flush queue s).2
  | C_buf_queue_create queue name buf size mx flag mem => (buf_queue_create queue name buf size mx flag mem s).2
  | C_buf_queue_del flag queue => (buf_queue_del_with flag queue s).2
  | C_buf_queue_send queue data front => (buf_queue_send queue data front s).2
  | C_buf_queue_recv queue ticks p sn => (krhino_buf_queue_recv queue ticks p sn s).2
  | C_buf_queue_flush queue => (krhino_buf_queue_flush queue s).2
  | C_task_sem_create task sem name cnt => (krhino_task_sem_create task sem name cnt s).2
  | C_task_sem_del task => (krhino_task_sem_del task s).2
  | C_task_sem_give task => (krhino_task_sem_give task s).2
  | C_task_sem_take ticks => (krhino_task_sem_take ticks s).2
  | C_task_sem_count_set task n => (krhino_task_sem_count_set task n s).2
  | C_task_dyn_del res_sem task => (krhino_task_dyn_del res_sem task s).2
  | C_dyn_mem_take => (dyn_mem_take s).2
  | C_blocked_return => (blocked_return s).2
  end.

(** ** What the environment guarantees *)
Definition u32b (x : Z) : bool := (0 <=? x) && (x <? 2 ^ 32).
Definition running (s : kstate) : bool := bool_decide (g_sys_stat s = RHINO_RUNNING).
Definition task_ctxb idle s : bool := running s && (in_intrpt s || negb (g_active_task s =? k_idle idle)).
Definition unused s o : bool := bool_decide (obj_type (blk_of s o) = RHINO_OBJ_TYPE_NONE).
Definition valid s t : bool := negb (bool_decide (task_state (task_of s t) = K_SEED)).

Definition kcall_ok idle (c : kcall) s : bool :=
  match c with
  | C_start W => bool_decide (g_sys_stat s = RHINO_STOPPED) && (g_intrpt_nested_level s =? 0) && (g_sched_lock s =? 0) &&
                 wq_fresh (a_worker_addr W) (a_sem_addr W) (a_wq W) s
  | C_intrpt_exit | C_tick => in_intrpt s
  | C_sched_disable => running s
  | C_task_create task _ _ pri _ _ _ _ _ _ _ => negb (is_alive (task_of s task)) && (0 <=? pri)
  | C_task_del task | C_task_dyn_del _ task => is_alive (task_of s (del_target task s))
  | C_task_sem_create task o _ _ => valid s task && unused s o
  | C_task_sem_take ticks => task_ctxb idle s && u32b ticks
  | C_task_sleep ticks => task_ctxb idle s && u32b ticks
  | C_task_pri_change task pri _ => valid s task && (0 <=? pri)
  | C_task_time_slice_set task _ | C_sched_policy_set task _ | C_task_info_set task _ _ => valid s task
  | C_sem_create o _ _ _ | C_mutex_create o _ _ | C_event_create o _ _ _ | C_queue_create o _ _ _ _ _
  | C_buf_queue_create o _ _ _ _ _ _ => unused s o
  | C_sem_take _ ticks | C_mutex_lock _ ticks | C_event_get _ _ _ _ ticks | C_queue_recv _ ticks _
  | C_buf_queue_recv _ ticks _ _ => task_ctxb idle s && u32b ticks
  | C_mutex_unlock _ => task_ctxb idle s
  | _ => true
  end.

Definition kstep idle (c : kcall) s : option kstate := if kcall_ok idle c s then Some (kcall_run c s) else None.

Fixpoint krun idle (cs : list kcall) s : option kstate :=
  match cs with
  | [] => Some s
  | c :: cs => match kstep idle c s with Some s' => krun idle cs s' | None => None end
  end.

(** ** Every step preserves the invariant *)
Lemma u32b_ok x : u32b x = true -> u32 x.
Proof. unfold u32b, u32. lia. Qed.

Lemma task_ctxb_ok idle s : task_ctxb idle s = true -> task_ctx idle s.
Proof.
  unfold task_ctxb, running. intros [Hr Hi]%andb_true_iff. split; [by apply bool_decide_eq_true in Hr|].
  intros E. rewrite E in Hi. cbn [orb] in Hi. apply negb_true_iff, Z.eqb_neq in Hi. done.
Qed.

Lemma blocked_return_kinv idle s : kinv idle s -> kinv idle (blocked_return s).2.
Proof.
  intros Hk. unfold blocked_return. kenter idle s. unfold pend_state_end_proc, RHINO_CPU_INTRPT_ENABLE.
  destruct (blk_state _); cbn [snd]; try (by apply kinv_mask). by apply kinv_mask, kinv_err.
Qed.

Lemma kstep_kinv i c s s' : kinv (env i 1) s -> kstep (env i 1) c s = Some s' -> kinv (env i 1) s'.
Proof.
  intros Hk. unfold kstep. destruct (kcall_ok (env i 1) c s) eqn:Hok; [|done]. intros [= <-].
  destruct c; cbn [kcall_ok kcall_run] in *; rewrite ?andb_true_iff in Hok; destruct_and? Hok;
    repeat match goal with
    | H : u32b _ = true |- _ => apply u32b_ok in H
    | H : task_ctxb _ _ = true |- _ => apply task_ctxb_ok in H
    | H : unused _ _ = true |- _ => unfold unused in H; apply bool_decide_eq_true in H
    | H : valid _ _ = true |- _ => unfold valid in H; apply negb_true_iff, bool_decide_eq_false in H
    | H : (_ <=? _) = true |- _ => apply Z.leb_le in H
    end.
  - apply krhino_start_kinv; [done|lia|lia|done].
  - by apply krhino_intrpt_enter_kinv.
  - by apply krhino_intrpt_exit_kinv.
  - by apply krhino_tick_proc_kinv.
  - apply krhino_sched_disable_kinv; [done|]. by eapply bool_decide_eq_true.
  - by apply krhino_sched_enable_kinv.
  - apply task_create_kinv; [done|by apply negb_true_iff|done].
  - by apply krhino_task_del_kinv.
  - by apply krhino_task_sleep_kinv.
  - by apply krhino_task_yield_kinv.
  - by apply krhino_task_suspend_kinv.
  - by apply krhino_task_resume_kinv.
  - by apply krhino_task_pri_change_kinv.
  - by apply krhino_task_wait_abort_kinv.
  - by apply krhino_task_time_slice_set_kinv.
  - by apply krhino_sched_policy_set_kinv.
  - by apply krhino_task_info_set_kinv.
  - by apply sem_create_kinv.
  - by apply sem_del_kinv.
  - by apply krhino_sem_give_kinv.
  - by apply krhino_sem_give_all_kinv.
  - by apply krhino_sem_take_kinv.
  - by apply krhino_sem_count_set_kinv.
  - by apply mutex_create_kinv.
  - by apply mutex_del_kinv.
  - by apply krhino_mutex_lock_kinv.
  - by apply krhino_mutex_unlock_kinv.
  - by apply event_create_kinv.
  - by apply event_del_kinv.
  - by apply krhino_event_get_kinv.
  - by apply krhino_event_set_kinv.
  - by apply queue_create_kinv.
  - by apply queue_del_kinv.
  - by apply msg_send_kinv.
  - by apply krhino_queue_recv_kinv.
  - by apply krhino_queue_flush_kinv.
  - by apply buf_queue_create_kinv.
  - by apply buf_queue_del_kinv.
  - by apply buf_queue_send_kinv.
  - by apply krhino_buf_queue_recv_kinv.
  - by apply krhino_buf_queue_flush_kinv.
  - by apply krhino_task_sem_create_kinv.
  - unfold krhino_task_sem_del. destruct (_ =? NULL); [done|]. by apply sem_del_kinv.
  - unfold krhino_task_sem_give. destruct (_ =? NULL); [done|]. by apply krhino_sem_give_kinv.
  - by apply krhino_sem_take_kinv.
  - unfold krhino_task_sem_count_set. destruct (_ =? NULL); [done|]. by apply krhino_sem_count_set_kinv.
  - by apply krhino_task_dyn_del_kinv.
  - by apply dyn_mem_take_kinv.
  - by apply blocked_return_kinv.
Qed.

Lemma krun_kinv i cs s s' : kinv (env i 1) s -> krun (env i 1) cs s = Some s' -> kinv (env i 1) s'.
Proof.
  revert s. induction cs as [|c cs IH]; intros s Hk; cbn [krun]; [by intros [= <-]|].
  destruct (kstep (env i 1) c s) as [s1|] eqn:E; [|done]. apply IH. by eapply kstep_kinv.
Qed.

(** * Execution context of a run

    Every call returns with the interrupt mask it was entered with, and no call switches
    tasks in an interrupt handler or while the scheduler is locked: the lemmas of [Cx]
    for each entry point of [Reach]. *)

Import MsgQueue BufQueue.

Implicit Types (r : kstate).

(** Calls that change the scheduler lock or the nesting level, and the start. *)
Definition changes_ctx (c : kcall) : bool :=
  match c with C_start _ | C_intrpt_enter | C_intrpt_exit | C_sched_disable | C_sched_enable => true | _ => false end.

(** The deletion that returns with interrupts masked: see [task_del_idle_masks]. *)
Definition deletes_idle (c : kcall) s : bool :=
  match c with
  | C_task_del task => negb (in_intrpt s) && (prio (task_of s (del_target task s)) =? RHINO_IDLE_PRI)
  | _ => false
  end.

(** The 8-bit scheduler lock has room for the one [krhino_task_dyn_del] adds. *)
Definition lock_room (c : kcall) s : bool :=
  match c with C_task_dyn_del _ _ => (0 <=? g_sched_lock s) && (g_sched_lock s <? 255) | _ => true end.

Lemma kcall_returns c s : changes_ctx c = false -> deletes_idle c s = false -> lock_room c s = true -> returns s (kcall_run c s).
Proof.
  intros Hc Hd Hl. destruct c; try done; cbn [kcall_run];
    try (apply ret_dyn_del; cbn [lock_room] in Hl; lia);
    try (unfold krhino_task_sem_del, krhino_task_sem_give, krhino_task_sem_count_set; destruct (_ =? NULL); [apply ret_same|]);
    unfold krhino_task_sem_take, krhino_sem_del;
    auto using ret_task_sem_create, ret_dyn_take;
    auto using ret_task_create, ret_sleep, ret_yield, ret_suspend, ret_resume, ret_abort, ret_slice_set,
      ret_policy_set, ret_info_set, ret_pri_change, ret_task_del, ret_tick, ret_blocked;
    auto using ret_sem_create, ret_sem_del, ret_sem_give, ret_sem_give_all, ret_sem_take, ret_sem_set,
      ret_mutex_create, ret_mutex_del, ret_mutex_lock, ret_mutex_unlock, ret_event_create, ret_event_del, ret_event_get,
      ret_event_set;
    auto using ret_queue_create, ret_queue_del, ret_msg_send, ret_queue_recv, ret_queue_flush, ret_buf_queue_create,
      ret_buf_queue_del, ret_buf_queue_send, ret_buf_queue_recv, ret_buf_queue_flush.
Qed.

(** The calls that do change the context restore the mask as well. *)
Lemma kcall_mask c s : deletes_idle c s = false -> intrpt_masked (kcall_run c s) = intrpt_masked s.
Proof.
  intros Hd. destruct (changes_ctx c) eqn:Hc.
  2:{ destruct c; try (by apply returns_mask, kcall_returns). apply dyn_del_mask. }
  destruct c; try done; cbn [kcall_run]; clear Hc Hd.
  - apply krhino_start_mask.
  - unfold krhino_intrpt_enter, RHINO_CPU_INTRPT_DISABLE; cbv beta iota zeta. by destruct (_ <=? _).
  - unfold krhino_intrpt_exit, RHINO_CPU_INTRPT_DISABLE; cbv beta iota zeta.
    destruct (_ =? 0); (destruct (0 <? _); [reflexivity|]; destruct (0 <? _); [reflexivity|]; by destruct (_ =? _)).
  - unfold krhino_sched_disable, RHINO_CRITICAL_ENTER, RHINO_CPU_INTRPT_DISABLE; cbv beta iota zeta.
    destruct (in_intrpt _); [done|]. by destruct (_ <=? _).
  - unfold krhino_sched_enable, RHINO_CRITICAL_ENTER, RHINO_CPU_INTRPT_DISABLE; cbv beta iota zeta.
    destruct (in_intrpt _); [done|]. destruct (_ =? 0); [done|]. destruct (0 <? _); [done|]. cbn [snd].
    unfold RHINO_CRITICAL_EXIT_SCHED. by rewrite core_sched_mask.
Qed.
