(* ===== verification/Boot.v ===== *)
(** * System start establishes the kernel invariant

    [boot] describes the kernel while [krhino_init] runs: every task is ready, no
    task waits, no mutex exists.  Every creation preserves it, and once the idle task
    exists it implies [kinv]. *)
From S2P Require Import Prelude Bitmap KTypes RunQueue RingBuf Kernel Pend Alloc Task Sem Mutex Queue Event MmBlk Timer Workqueue TaskDyn Sys.
From S2P Require Import Invariant InvPend PriInherit KInv ApiInv MutexInv TaskInv TaskApiInv.
Import MsgQueue.
Local Open Scope Z_scope.

Implicit Types (s : kstate) (t u w m o : Z) (k : ktask_t).

Record boot_task t k : Prop := {
  bt_ok : task_ok t k;
  bt_state : task_state k = K_RDY;
  bt_head : tick_head k = false;
  bt_list : mutex_list k = NULL;
  bt_prio : b_prio k = prio k;
}.

Record boot s : Prop := {
  bo_rq : rq_rep (g_ready_queue s) (ready_map (tasks s));
  bo_tasks : map_Forall boot_task (tasks s);
  bo_blk : forall o, blk_list (blk_of s o) = [] /\ obj_type (blk_of s o) <> RHINO_MUTEX_OBJ_TYPE;
  bo_null : obj_type (blk_of s NULL) = RHINO_OBJ_TYPE_NONE;
  bo_tick : g_tick_head s = [];
  bo_now : g_tick_count s = 0;
  bo_mutexes : mutexes s = ∅;
  bo_err : err_log s = [];
  bo_lock : g_sched_lock s = 0;
  bo_nest : g_intrpt_nested_level s = 0;
  bo_sys : g_sys_stat s = RHINO_STOPPED;
}.

Section BootInv.
Context (s : kstate) (B : boot s) (i : Z) (ki : ktask_t) (Hi : tasks s !! i = Some ki) (Hp : prio ki = RHINO_IDLE_PRI).

Lemma boot_omap {X} (f : ktask_t -> option X) :
  (forall t k, boot_task t k -> f k = None) -> (omap f (tasks s) : gmap Z X) = ∅.
Proof.
  intros Hf. apply map_empty. intros t. rewrite lookup_omap.
  destruct (tasks s !! t) as [k|] eqn:E; simpl; [|done]. eapply Hf, (bo_tasks _ B), E.
Qed.

Lemma boot_kwf : kwf (env i 1) s.
Proof.
  assert (pend_map (tasks s) = ∅) as Ep.
  { apply boot_omap. intros t k Hk. unfold pend_on, is_pending. by rewrite (bt_state _ _ Hk). }
  assert (tick_map (tasks s) = ∅) as Et.
  { apply boot_omap. intros t k Hk. unfold deadline. by rewrite (bt_head _ _ Hk). }
  pose proof (bo_tasks _ B _ _ Hi) as Hbi.
  split; rewrite ?Ep, ?Et, ?(bo_tick _ B), ?(bo_now _ B), ?(bo_mutexes _ B), ?(bo_err _ B).
  - exact (bo_rq _ B).
  - split; intros o; pose proof (proj1 (bo_blk _ B o)) as El; unfold blk_of in El; rewrite El; [constructor| |constructor].
    intros t. rewrite lookup_empty. split; [by intros ?%elem_of_nil|done].
  - split; [constructor| |constructor]. intros t. rewrite lookup_empty. split; [by intros ?%elem_of_nil|by intros []].
  - intros t m. by rewrite lookup_empty.
  - simpl. lia.
  - done.
  - intros t k Ht. exact (bt_ok _ _ (bo_tasks _ B _ _ Ht)).
  - simpl. rewrite <- Hp. unfold ready_map. rewrite (lookup_abs _ _ _ _ Hi). apply rdy_prio_Some.
    by rewrite (bt_state _ _ Hbi).
  - intros m. rewrite lookup_total_empty. pose proof (to_addr _ _ (bt_ok _ _ Hbi)). simpl. auto.
  - apply not_elem_of_nil.
Qed.

Lemma boot_no_owner m t : ~ owner s m t.
Proof. intros [E _]. by destruct (bo_blk _ B m). Qed.

Lemma boot_pinv : pinv s.
Proof.
  split; [split|].
  - intros t k Ht _ _. exists []. split_and!; [|constructor|].
    + simpl. rewrite (task_of_Some _ _ _ Ht). exact (bt_list _ _ (bo_tasks _ B _ _ Ht)).
    + intros m. split; [by intros ?%elem_of_nil|by intros ?%boot_no_owner].
  - by intros m t ?%boot_no_owner.
  - intros m w Hm. by destruct (bo_blk _ B m).
  - intros m Hm. by destruct (bo_blk _ B m).
  - intros t k Ht _ _. unfold is_target. rewrite (task_of_Some _ _ _ Ht), (bt_prio _ _ (bo_tasks _ B _ _ Ht)).
    split_and!; [lia| |by left]. by intros w (m & ?%boot_no_owner & _).
Qed.

Lemma boot_kinv : kinv (env i 1) s.
Proof.
  split; [split|].
  - apply boot_kwf.
  - apply boot_pinv.
  - intros o _ Hne. by destruct (bo_blk _ B o).
  - exact (bo_null _ B).
  - rewrite (bo_lock _ B). unfold SCHED_MAX_LOCK_COUNT. lia.
  - rewrite (bo_nest _ B). unfold RHINO_CONFIG_INTRPT_MAX_NESTED_LEVEL. lia.
  - by rewrite (bo_sys _ B).
  - intros Hr. by rewrite (bo_sys _ B) in Hr.
Qed.
End BootInv.

(** ** Creations *)
Lemma boot_header s s' :
  boot s -> tasks s' = tasks s -> g_ready_queue s' = g_ready_queue s -> g_tick_head s' = g_tick_head s ->
  g_tick_count s' = g_tick_count s -> mutexes s' = mutexes s -> err_log s' = err_log s ->
  g_sched_lock s' = g_sched_lock s -> g_intrpt_nested_level s' = g_intrpt_nested_level s -> g_sys_stat s' = g_sys_stat s ->
  (forall o, blk_list (blk_of s' o) = [] /\ obj_type (blk_of s' o) <> RHINO_MUTEX_OBJ_TYPE) ->
  obj_type (blk_of s' NULL) = RHINO_OBJ_TYPE_NONE -> boot s'.
Proof.
  intros [] E1 E2 E3 E4 E5 E6 E7 E8 E9 Hb Hn. split; try done; by rewrite ?E1, ?E2, ?E3, ?E4, ?E5, ?E6, ?E7, ?E8, ?E9.
Qed.

Lemma blk_of_same s s' o : blk_objs s' = blk_objs s -> blk_of s' o = blk_of s o.
Proof. unfold blk_of. by intros ->. Qed.

(** The header writes of a creation: any state whose block objects are those of [s]
    with [o] initialised and typed. *)
Lemma boot_create s s' o name ty :
  boot s -> o <> NULL -> ty <> RHINO_MUTEX_OBJ_TYPE ->
  blk_objs s' = blk_objs (set_obj_type o ty (upd_blk o (header_init name) s)) ->
  tasks s' = tasks s -> g_ready_queue s' = g_ready_queue s -> g_tick_head s' = g_tick_head s ->
  g_tick_count s' = g_tick_count s -> mutexes s' = mutexes s -> err_log s' = err_log s ->
  g_sched_lock s' = g_sched_lock s -> g_intrpt_nested_level s' = g_intrpt_nested_level s -> g_sys_stat s' = g_sys_stat s ->
  boot s'.
Proof.
  intros B Ho Hty Eb. intros. apply (boot_header s); try done.
  - intros o'. rewrite (blk_of_same _ _ _ Eb), set_type_blk, !blk_of_upd. case_decide; subst.
    + by rewrite decide_True by done.
    + apply (bo_blk _ B).
  - rewrite (blk_of_same _ _ _ Eb), set_type_blk, !blk_of_upd, !decide_False by done. apply (bo_null _ B).
Qed.

Lemma boot_sem_create s sem name cnt flag : boot s -> boot (sem_create sem name cnt flag s).2.
Proof.
  intros B. unfold sem_create. destruct (Z.eqb_spec sem NULL); [done|]. destruct (name =? NULL); [done|].
  eapply (boot_create s _ sem name RHINO_SEM_OBJ_TYPE); done.
Qed.

Lemma boot_queue_create s queue name start num flag mem :
  boot s -> boot (queue_create queue name start num flag mem s).2.
Proof.
  intros B. unfold queue_create. destruct (Z.eqb_spec queue NULL); [done|]. destruct (start =? NULL); [done|].
  destruct (name =? NULL); [done|]. destruct (num =? 0); [done|].
  eapply (boot_create s _ queue name RHINO_QUEUE_OBJ_TYPE); done.
Qed.

(** A successful creation of a ready task. *)
Lemma task_init_boot t name p ticks sb ss mm cpu :
  t <> NULL -> 0 <= p < RHINO_CONFIG_PRI_MAX -> boot_task t (task_init name p ticks sb ss 1 mm cpu).
Proof. intros Hn Hp. split; [by apply task_init_ok|done..]. Qed.

Lemma boot_task_insert s s' t k :
  boot s -> tasks s !! t = None -> boot_task t k -> tasks s' = <[t := k]> (tasks s) ->
  g_ready_queue s' = ready_list_add_tail (g_ready_queue s) t (prio k) ->
  blk_objs s' = blk_objs s -> g_tick_head s' = g_tick_head s ->
  g_tick_count s' = g_tick_count s -> mutexes s' = mutexes s -> err_log s' = err_log s ->
  g_sched_lock s' = g_sched_lock s -> g_intrpt_nested_level s' = g_intrpt_nested_level s -> g_sys_stat s' = g_sys_stat s ->
  boot s'.
Proof.
  intros [Hr Hts Hb Hn] Ht Hk E1 E2 E3 E4 E5 E6 E7 E8 E9 E10.
  split; unfold blk_of; rewrite ?E1, ?E2, ?E3, ?E4, ?E5, ?E6, ?E7, ?E8, ?E9, ?E10; try done.
  - unfold ready_map. rewrite omap_upd. rewrite (proj2 (rdy_prio_Some k (prio k))) by (split; [apply Hk|done]).
    apply ready_list_add_tail_rep; [done| |apply Hk]. by rewrite lookup_omap, Ht.
  - by apply map_Forall_insert_2.
Qed.

(** The parameter checks of [task_create], outside interrupts. *)
Definition create_ok t (name p sb ss entry : Z) s : bool :=
  negb (t =? NULL) && negb (name =? NULL) && negb (entry =? NULL) && negb (sb =? NULL) && negb (ss =? 0) &&
  (p <? RHINO_CONFIG_PRI_MAX) && negb ((p =? RHINO_IDLE_PRI) && (0 <? g_idle_task_spawned s)).

(** [task_create] with [autorun], on every branch: nothing happens or the task is
    created. *)
Lemma boot_task_create s t name arg p ticks sb ss entry mm cpu :
  boot s -> tasks s !! t = None -> 0 <= p ->
  let s' := (task_create t name arg p ticks sb ss entry 1 mm cpu s).2 in
  boot s' /\ 
  tasks s' = (if create_ok t name p sb ss entry s
              then <[t := task_init name p ticks sb ss 1 mm cpu]> (tasks s) else tasks s) /\
  (g_idle_task_spawned s = 0 -> p = RHINO_IDLE_PRI \/ g_idle_task_spawned s' = 0).
Proof.
  intros B Ht Hp. unfold task_create, create_ok. destruct (Z.eqb_spec t NULL); [auto|].
  destruct (name =? NULL); [auto|]. destruct (entry =? NULL); [auto|]. destruct (sb =? NULL); [auto|].
  destruct (ss =? 0); [auto|]. rewrite (Z.ltb_antisym RHINO_CONFIG_PRI_MAX p). destruct (Z.leb_spec RHINO_CONFIG_PRI_MAX p); [auto|].
  unfold RHINO_CRITICAL_ENTER, RHINO_CPU_INTRPT_DISABLE, RHINO_CRITICAL_EXIT, RHINO_CPU_INTRPT_ENABLE; cbv beta iota zeta.
  assert (in_intrpt (s <| intrpt_masked := true |>) = false) as ->.
  { unfold in_intrpt; rsimpl. by rewrite (bo_nest _ B). }
  change (g_idle_task_spawned (s <| intrpt_masked := true |>)) with (g_idle_task_spawned s).
  destruct ((p =? RHINO_IDLE_PRI) && _); cbn [snd negb andb].
  { split_and!; [|done|by right]. by apply (boot_header s); [..|apply (bo_blk _ B)|apply (bo_null _ B)]. }
  change (0 <? 1) with true. cbv iota.
  rewrite decide_False.
  2:{ destruct (p =? RHINO_IDLE_PRI); unfold k_ready_list_add_tail, upd_task; rsimpl; by rewrite (bo_sys _ B). }
  cbn [snd]. split_and!.
  - destruct (p =? RHINO_IDLE_PRI);
      (eapply (boot_task_insert s _ t (task_init name p ticks sb ss 1 mm cpu)); try done; try (by apply task_init_boot);
       unfold k_ready_list_add_tail, upd_task, task_of; rsimpl; by rewrite lookup_total_insert_eq).
  - by destruct (p =? RHINO_IDLE_PRI).
  - intros Es. destruct (Z.eqb_spec p RHINO_IDLE_PRI); [by left|by right].
Qed.

(** ** The whole start *)
Section Init.
Context {H : Type} `{MemAlloc H} `{!MemAllocOk H}.

(** The static objects have addresses of their own, which the heap does not hand out. *)
Record static_ok (A : static_addrs) (h : H) : Prop := {
  so_idle : a_idle_task A <> NULL /\ a_idle_name A <> NULL /\ a_idle_stack A <> NULL /\ a_idle_entry A <> NULL;
  so_timer : a_timer_task A <> a_idle_task A;
  so_live : live h (a_idle_task A) = true /\ live h (a_timer_task A) = true;
}.

Lemma dyn_start_boot A h s :
  boot s -> tasks s = ∅ -> g_idle_task_spawned s = 0 -> static_ok A h ->
  let s' := (dyn_mem_proc_task_start A h s).2 in
  boot s' /\ g_idle_task_spawned s' = 0 /\ tasks s' !! a_idle_task A = None /\ tasks s' !! a_timer_task A = None.
Proof.
  intros B Et Es So. unfold dyn_mem_proc_task_start, krhino_task_dyn_create, task_dyn_create.
  change (RHINO_CONFIG_K_DYN_TASK_STACK =? 0) with false. cbv iota zeta.
  destruct (krhino_mm_alloc _ h) as [p1 h1] eqn:E1.
  destruct (Z.eqb_spec p1 NULL); [cbn [snd]; by rewrite Et|].
  destruct (krhino_mm_alloc (sizeof S_ktask) h1) as [p2 h2] eqn:E2.
  destruct (Z.eqb_spec p2 NULL) as [|Hp2]; [cbn [snd]; by rewrite Et|].
  assert (forall x, live h x = true -> x <> p2) as Hx.
  { intros x Hl ->. destruct (alloc_fresh _ _ _ _ E2 Hp2) as [Hd _]. destruct (decide (p2 = p1)) as [->|Hne].
    - destruct (alloc_fresh _ _ _ _ E1 Hp2) as [Hd1 _]. congruence.
    - rewrite (alloc_frame _ _ _ _ _ E1 Hne) in Hd. congruence. }
  pose proof (boot_task_create s p2 (a_dyn_name A) 0 RHINO_CONFIG_K_DYN_MEM_TASK_PRI 0 p1
    RHINO_CONFIG_K_DYN_TASK_STACK (a_dyn_entry A) K_OBJ_DYN_ALLOC 0 B) as Hc.
  destruct (task_create p2 _ _ _ _ _ _ _ _ _ _ s) as [ret s'].
  destruct Hc as (B' & Ets & Hsp); [by rewrite Et|done|].
  assert (g_idle_task_spawned s' = 0) as Es' by (by destruct (Hsp Es)).
  assert (forall x, x <> p2 -> tasks s' !! x = None) as Hn.
  { intros x Hne. cbn [snd] in Ets. rewrite Ets, Et. destruct (create_ok _ _ _ _ _ _ _); [|done].
    by rewrite lookup_insert_ne. }
  destruct (_ && _); (split_and!; [done..| |]; apply Hn, Hx, So).
Qed.

(** [ktimer_init], with any outcome of its calls. *)
Lemma ktimer_init_boot (A : timer_addrs) mem s :
  boot s -> tasks s !! a_timer_task A = None ->
  boot (ktimer_init A mem s) /\
  forall t k, t <> a_timer_task A -> tasks s !! t = Some k -> tasks (ktimer_init A mem s) !! t = Some k.
Proof.
  intros B Ht. unfold ktimer_init.
  set (s1 := s <| g_timer_head := [] |>). assert (boot s1) as B1 by (by apply (boot_header s); [..|apply (bo_blk _ B)|apply (bo_null _ B)]).
  change (tasks s1 !! a_timer_task A = None) in Ht. change (tasks s) with (tasks s1). clearbody s1. clear B s.
  assert (tasks (krhino_queue_create (a_timer_queue A) (a_timer_queue_name A) (a_timer_msg A) RHINO_CONFIG_TIMER_MSG_NUM mem s1).2 = tasks s1) as Et2.
  { unfold krhino_queue_create, queue_create. do 3 (destruct (_ =? NULL); [done|]). by destruct (_ =? 0). }
  pose proof (boot_queue_create s1 (a_timer_queue A) (a_timer_queue_name A) (a_timer_msg A) RHINO_CONFIG_TIMER_MSG_NUM
    K_OBJ_STATIC_ALLOC mem B1) as B2. set (s2 := (krhino_queue_create _ _ _ _ _ _).2) in *.
  change (boot s2) in B2. clearbody s2. rewrite <- Et2 in *. clear Et2 B1.
  match goal with |- context [krhino_task_create _ _ _ _ _ _ _ _ _ ?x] => set (s3 := x) end.
  assert (boot s3 /\ tasks s3 = tasks s2) as [B3 Et3].
  { unfold s3. destruct (krhino_mblk_pool_init _ _ _ _ _ s2) as [[r s3']|] eqn:E; [|done].
    apply pool_init_frame in E as (w & p & ks & ->). split; [|done].
    apply (boot_header s2); try done; [apply (bo_blk _ B2)|apply (bo_null _ B2)]. }
  clearbody s3. rewrite <- Et3 in *. clear Et3 B2 s2.
  destruct (boot_task_create s3 (a_timer_task A) (a_timer_name A) NULL RHINO_CONFIG_TIMER_TASK_PRI 0 (a_timer_stack A)
    RHINO_CONFIG_TIMER_TASK_STACK_SIZE (a_timer_entry A) K_OBJ_STATIC_ALLOC 0 B3 Ht ltac:(done)) as (B4 & Et4 & _).
  split; [exact B4|]. intros t k Hne Htk. unfold krhino_task_create. rewrite Et4.
  destruct (create_ok _ _ _ _ _ _ s3); [by rewrite lookup_insert_ne by done|done].
Qed.

(** After [krhino_init], with any heap and any outcome of its allocations. *)
Lemma krhino_init_boot A mem h :
  static_ok A h ->
  let s := (krhino_init A mem h kstate_zero).2 in
  boot s /\ exists k, tasks s !! a_idle_task A = Some k /\ prio k = RHINO_IDLE_PRI.
Proof.
  intros So. unfold krhino_init.
  set (s0 := kobj_list_init _).
  assert (boot s0) as B0.
  { split; try done. by apply runqueue_init_rep. }
  set (s1 := (krhino_sem_create _ _ _ _).2).
  assert (boot s1) as B1 by (by apply boot_sem_create).
  assert (tasks s1 = ∅ /\ g_idle_task_spawned s1 = 0) as [Et1 Es1].
  { subst s1. unfold krhino_sem_create, sem_create. destruct (_ =? NULL); [done|]. by destruct (_ =? NULL). }
  pose proof (dyn_start_boot A h s1 B1 Et1 Es1 So) as Hd.
  destruct (dyn_mem_proc_task_start A h s1) as [h2 s2]. cbn [snd] in Hd. destruct Hd as (B2 & Es2 & Hi2 & Ht2).
  pose proof (boot_task_create s2 (a_idle_task A) (a_idle_name A) NULL RHINO_IDLE_PRI 0 (a_idle_stack A)
    RHINO_CONFIG_IDLE_TASK_STACK_SIZE (a_idle_entry A) K_OBJ_STATIC_ALLOC 0 B2 Hi2) as Hc.
  change (task_create (a_idle_task A) (a_idle_name A) NULL RHINO_IDLE_PRI 0 (a_idle_stack A)
    RHINO_CONFIG_IDLE_TASK_STACK_SIZE (a_idle_entry A) 1 K_OBJ_STATIC_ALLOC 0 s2) with
    (krhino_task_create (a_idle_task A) (a_idle_name A) NULL RHINO_IDLE_PRI 0 (a_idle_stack A)
    RHINO_CONFIG_IDLE_TASK_STACK_SIZE (a_idle_entry A) 1 s2) in Hc.
  set (s3 := (krhino_task_create _ _ _ _ _ _ _ _ _ _).2) in *. destruct Hc as (B3 & Et3 & _); [done|].
  assert (create_ok (a_idle_task A) (a_idle_name A) RHINO_IDLE_PRI (a_idle_stack A)
    RHINO_CONFIG_IDLE_TASK_STACK_SIZE (a_idle_entry A) s2 = true) as Eok.
  { unfold create_ok. destruct (so_idle _ _ So) as (H1 & H2 & H3 & H4). rewrite Es2.
    rewrite !(proj2 (Z.eqb_neq _ _)) by done. done. }
  rewrite Eok in Et3. pose proof (so_timer _ _ So) as Hne.
  destruct (ktimer_init_boot A mem s3 B3) as [B4 Hk4]; [by rewrite Et3, lookup_insert_ne by done|].
  cbn [snd]. split; [exact B4|]. eexists. split; [apply Hk4; [done|by rewrite Et3, lookup_insert_eq]|done].
Qed.
End Init.
