(* ===== verification/Safety.v ===== *)
(** * What holds in every run

    The kernel invariant unfolded into the guarantees an application sees, for every
    state reachable from system start by any sequence of kernel calls, interrupts and
    ticks: scheduling, priority inheritance, mutex ownership, block lists, no lost
    wake-ups, timeouts. *)
From S2P Require Import Prelude Bitmap KTypes RunQueue RingBuf Kernel Pend Alloc Task Sem Mutex Queue Event MmBlk Timer Workqueue TaskDyn Sys.
From S2P Require Import Invariant InvPend PriInherit KInv ApiInv MutexInv TaskInv TaskApiInv TaskDelInv Reach Boot.
Import MsgQueue BufQueue.
Local Open Scope Z_scope.

Implicit Types (s : kstate) (t u w m o : Z) (k : ktask_t).

(** [s] is the state after [krhino_init] on heap [h] and the calls [cs]. *)
Definition reached {H} `{MemAlloc H} (A : static_addrs) (mem : list Z) (h : H) (cs : list kcall) s : Prop :=
  krun (env (a_idle_task A) 1) cs (krhino_init A mem h kstate_zero).2 = Some s.

Section Runs.
Context {H : Type} `{MemAlloc H} `{!MemAllocOk H}.
Context (A : static_addrs) (mem : list Z) (h : H) (So : static_ok A h).

Lemma reached_kinv cs s : reached A mem h cs s -> kinv (env (a_idle_task A) 1) s.
Proof.
  apply krun_kinv. destruct (krhino_init_boot A mem h So) as (B & k & Hk & Hp). by eapply boot_kinv.
Qed.
End Runs.

(** ** A concrete system for the witnesses *)
Module Demo.
Import RefAlloc.
Definition addrs : static_addrs := {|
  a_idle_task := 1000; a_idle_stack := 1001; a_idle_entry := 1002; a_idle_name := 1003;
  a_res_sem := 1010; a_res_sem_name := 1011; a_dyn_name := 1020; a_dyn_entry := 1021;
  a_timers := {|
    a_timer_task := 1030; a_timer_stack := 1031; a_timer_entry := 1032; a_timer_name := 1033;
    a_timer_queue := 1040; a_timer_queue_name := 1041; a_timer_msg := 1042;
    a_timer_pool := 1050; a_timer_pool_name := 1051; a_timer_cb := 8000 |};
  a_workqueue := {|
    a_wq := 1060; a_wq_name := 1061; a_wq_sem_name := 1062; a_wq_stack := 1063; a_wq_entry := 1064;
    a_worker_addr := fun q => q + 5; a_sem_addr := fun q => q + 6 |} |}.
Definition wq : wq_addrs := a_workqueue addrs.

Definition heap0 : heap :=
  {| limit := 5000; next_addr := 2000; blocks := {[1000 := tt; 1030 := tt]} |}.

Definition mem : list Z := replicate 160 0.

Lemma addrs_ok : static_ok addrs heap0.
Proof. by split. Qed.

(** Two application tasks of priorities 20 and 10, a mutex and a semaphore; the
    low-priority task takes the mutex, is preempted by the other one, which blocks on
    the mutex with a timeout of 5 ticks, so that the owner inherits its priority. *)
Definition calls : list kcall := [
  C_task_create 1 1 0 20 0 1 64 1 1 K_OBJ_STATIC_ALLOC 0;
  C_task_create 2 1 0 10 0 1 64 1 0 K_OBJ_STATIC_ALLOC 0;
  C_mutex_create 50 1 K_OBJ_STATIC_ALLOC; C_sem_create 60 1 0 K_OBJ_STATIC_ALLOC;
  C_start wq;
  (* the timer, memory and work-queue tasks wait for work *)
  C_queue_recv 1040 RHINO_WAIT_FOREVER false; C_sem_take 1010 RHINO_WAIT_FOREVER; C_sem_take 1066 RHINO_WAIT_FOREVER;
  (* task 1 *)
  C_mutex_lock 50 RHINO_WAIT_FOREVER; C_task_resume 2;
  (* task 2 preempts *)
  C_mutex_lock 50 5 ].

Definition state : kstate := default kstate_zero (krun (env 1000 1) calls (krhino_init addrs mem heap0 kstate_zero).2).

Lemma reached_state : reached addrs mem heap0 calls state.
Proof. vm_compute. reflexivity. Qed.

Example demo_inherits :
  g_active_task state = 1 /\ prio (task_of state 1) = 10 /\ b_prio (task_of state 1) = 20 /\
  task_state (task_of state 2) = K_PEND /\ blk_list (blk_of state 50) = [2] /\ g_tick_head state = [2].
Proof. vm_compute. done. Qed.
End Demo.

(** ** Guarantees *)
Section Guarantees.
Context {H : Type} `{MemAlloc H} `{!MemAllocOk H}.
Context (A : static_addrs) (mem : list Z) (h : H).




(** C2: Priority inheritance: the priority of every live task is exactly the most
    urgent of its base priority and the priorities of the tasks that wait for a mutex
    it owns, in every reachable state (also with nested mutexes, timeouts, aborted
    waits and deletions). *)
Theorem priority_inheritance cs s t k :
  static_ok A h -> reached A mem h cs s -> tasks s !! t = Some k -> is_alive k = true ->
  prio k <= b_prio k /\
  (forall m w, owner s m t -> w ∈ blk_list (blk_of s m) -> prio k <= prio (task_of s w)) /\
  (prio k = b_prio k \/ exists m w, owner s m t /\ w ∈ blk_list (blk_of s m) /\ prio k = prio (task_of s w)).
Proof.
  intros So Hr Ht Ha. destruct (reached_kinv A mem h So cs s Hr) as [Hb _].
  destruct (proj2 (kb_pi Hb) t k Ht Ha id) as (Hbp & Hw & Hex). rewrite (task_of_Some _ _ _ Ht) in *.
  split_and!; [done| |].
  - intros m w Ho Hin. apply Hw. by exists m.
  - destruct Hex as [?|(w & (m & Ho & Hin) & E)]; [by left|right]. eauto.
Qed.

(** C6: Mutex ownership: a mutex with an owner is owned by a live task whose chain of
    held mutexes contains exactly the mutexes it owns, each once; a mutex with waiters
    has an owner, which is not among them. *)
Theorem mutex_ownership cs s m :
  static_ok A h -> reached A mem h cs s -> obj_type (blk_of s m) = RHINO_MUTEX_OBJ_TYPE ->
  let t := mutex_task (mutex_of s m) in
  (t <> NULL -> is_alive (task_of s t) = true /\ exists l, held s t l /\ m ∈ l) /\
  (forall w, w ∈ blk_list (blk_of s m) -> t <> NULL /\ t <> w).
Proof.
  intros So Hr Hty. destruct (reached_kinv A mem h So cs s Hr) as [Hb _]. destruct (kb_pi Hb) as [Hps _].
  cbv zeta. split; [|intros w; exact (ps_held Hps m w Hty)].
  intros Hn. assert (owner s m (mutex_task (mutex_of s m))) as Ho by done.
  destruct (owner_chain s m _ (kb_pi Hb) Ho) as (k & l1 & l2 & Hk & Ha & Hh).
  rewrite (task_of_Some _ _ _ Hk). split; [done|]. exists (l1 ++ m :: l2). split; [done|]. set_solver.
Qed.

(** C5: A task is on the block list of an object exactly when it is in a pending state
    and the object is the one it waits for; no list holds a task twice, and lists with
    the priority policy are sorted by the current priorities. *)
Theorem block_lists cs s o :
  static_ok A h -> reached A mem h cs s ->
  NoDup (blk_list (blk_of s o)) /\
  (forall t, t ∈ blk_list (blk_of s o) <-> is_pending (task_of s t) = true /\ blk_obj (task_of s t) = o) /\
  (blk_policy (blk_of s o) = BLK_POLICY_PRI ->
   StronglySorted (fun a b => prio (task_of s a) <= prio (task_of s b)) (blk_list (blk_of s o))).
Proof.
  intros So Hr. destruct (reached_kinv A mem h So cs s Hr) as [Hb _]. pose proof (kb_wf Hb) as Hw.
  split_and!; [apply (br_nodup _ _ _ (kw_blk Hw))| |apply (br_sorted _ _ _ (kw_blk Hw))].
  intros t. split.
  - intros (k & Hk & Hp & Ho)%(kwf_blocked _ _ _ _ Hw). by rewrite (task_of_Some _ _ _ Hk).
  - intros [Hp Ho]. eapply kwf_pending; [exact Hw|apply task_exists|exact Hp|exact Ho].
    intros E. unfold is_pending in Hp. by rewrite E in Hp.
Qed.

(** C4: No lost wake-up: a task only waits for an existing object that has nothing to
    offer: a semaphore whose count is zero, a queue without messages, a mutex that is
    held. *)
Theorem no_lost_wakeup cs s o w :
  static_ok A h -> reached A mem h cs s -> w ∈ blk_list (blk_of s o) ->
  match obj_type (blk_of s o) with
  | RHINO_OBJ_TYPE_NONE => False
  | RHINO_SEM_OBJ_TYPE => ~ 0 < count (sem_of s o)
  | RHINO_QUEUE_OBJ_TYPE => ~ 0 < q_cur_num (queues s !!! o)
  | RHINO_BUF_QUEUE_OBJ_TYPE => ringbuf_is_empty (bq_ringbuf (buf_queues s !!! o)) = true
  | RHINO_MUTEX_OBJ_TYPE => mutex_task (mutex_of s o) <> NULL
  | _ => True
  end.
Proof.
  intros So Hr Hin. destruct (reached_kinv A mem h So cs s Hr) as [Hb _].
  assert (obj_quiet s o) as Hq by (apply (kb_obj Hb); [by intros []|]; by intros E; rewrite E in Hin; apply elem_of_nil in Hin).
  unfold obj_quiet in Hq. destruct (obj_type (blk_of s o)) eqn:E; try done.
  by destruct (ps_held (proj1 (kb_pi Hb)) o w E Hin).
Qed.

(** C7: The tick list holds exactly the tasks with a running timeout, each once, in
    the order in which the timeouts expire; all of them lie in the future; every
    sleeping task is on it and only sleeping or pending tasks are. *)
Theorem tick_list_invariant cs s :
  static_ok A h -> reached A mem h cs s ->
  NoDup (g_tick_head s) /\
  StronglySorted (fun a b => ticks_left s a <= ticks_left s b) (g_tick_head s) /\
  (forall t, t ∈ g_tick_head s <-> tick_head (task_of s t) = true) /\
  (forall t, t ∈ g_tick_head s ->
     1 <= ticks_left s t /\ (is_sleeping (task_of s t) = true \/ is_pending (task_of s t) = true)) /\
  (forall t, is_sleeping (task_of s t) = true -> t ∈ g_tick_head s).
Proof.
  intros So Hr. destruct (reached_kinv A mem h So cs s Hr) as [Hb _]. pose proof (kb_wf Hb) as Hw.
  destruct (kw_tick Hw) as [Td Te Ts].
  assert (forall t, t ∈ g_tick_head s -> exists k, tasks s !! t = Some k /\ tick_head k = true /\
            tick_map (tasks s) !! t = Some (tick_match k)) as Hin.
  { intros t [m Hm]%Te. pose proof Hm as Hm'. apply abs_Some in Hm' as (k & Hk & Hd). unfold deadline in Hd.
    destruct (tick_head k) eqn:E; [|done]. injection Hd as <-. eauto. }
  assert (forall t, tick_head (task_of s t) = true -> t ∈ g_tick_head s) as Hin'.
  { intros t Hh. apply Te. unfold task_of in Hh. rewrite lookup_total_alt in Hh.
    destruct (tasks s !! t) as [k|] eqn:E; [|done]. unfold tick_map. rewrite (lookup_abs _ _ _ _ E).
    unfold deadline. simpl in Hh. rewrite Hh. eauto. }
  split_and!; [done| | | |].
  - eapply StronglySorted_impl, Ts. intros a b (ka & Hka & _ & Ea)%Hin (kb & Hkb & _ & Eb)%Hin.
    unfold left_at, ticks_left. rewrite (lookup_total_Some _ _ _ Ea), (lookup_total_Some _ _ _ Eb).
    by rewrite (task_of_Some _ _ _ Hka), (task_of_Some _ _ _ Hkb).
  - intros t. split; [|apply Hin']. intros (k & Hk & Hh & _)%Hin. by rewrite (task_of_Some _ _ _ Hk).
  - intros t (k & Hk & Hh & Em)%Hin. unfold ticks_left. rewrite (task_of_Some _ _ _ Hk).
    split; [exact (kw_pos Hw _ _ Em)|]. exact (to_tick _ _ (kwf_task_ok _ _ _ _ Hw Hk) Hh).
  - intros t Hs. apply Hin'. apply (to_sleep t); [|done].
    apply (kwf_task_ok _ _ _ _ Hw). apply task_exists. intros E. unfold is_sleeping in Hs. by rewrite E in Hs.
Qed.
End Guarantees.

(** ** Witnesses: the guarantees on [Demo.state] *)
Import RefAlloc.




Lemma priority_inheritance_witness :
  let k := task_of Demo.state 1 in
  prio k <= b_prio k /\
  (forall m w, owner Demo.state m 1 -> w ∈ blk_list (blk_of Demo.state m) -> prio k <= prio (task_of Demo.state w)) /\
  (prio k = b_prio k \/ exists m w, owner Demo.state m 1 /\ w ∈ blk_list (blk_of Demo.state m) /\ prio k = prio (task_of Demo.state w)).
Proof.
  apply (priority_inheritance Demo.addrs Demo.mem Demo.heap0 Demo.calls Demo.state 1 (task_of Demo.state 1)
           Demo.addrs_ok Demo.reached_state); vm_compute; reflexivity.
Defined.

Lemma mutex_ownership_witness :
  let t := mutex_task (mutex_of Demo.state 50) in
  (t <> NULL -> is_alive (task_of Demo.state t) = true /\ exists l, held Demo.state t l /\ 50 ∈ l) /\
  (forall w, w ∈ blk_list (blk_of Demo.state 50) -> t <> NULL /\ t <> w).
Proof.
  apply (mutex_ownership Demo.addrs Demo.mem Demo.heap0 Demo.calls Demo.state 50 Demo.addrs_ok Demo.reached_state).
  vm_compute. reflexivity.
Defined.

Lemma block_lists_witness :
  NoDup (blk_list (blk_of Demo.state 50)) /\
  (forall t, t ∈ blk_list (blk_of Demo.state 50) <-> is_pending (task_of Demo.state t) = true /\ blk_obj (task_of Demo.state t) = 50) /\
  (blk_policy (blk_of Demo.state 50) = BLK_POLICY_PRI ->
   StronglySorted (fun a b => prio (task_of Demo.state a) <= prio (task_of Demo.state b)) (blk_list (blk_of Demo.state 50))).
Proof.
  exact (block_lists Demo.addrs Demo.mem Demo.heap0 Demo.calls Demo.state 50 Demo.addrs_ok Demo.reached_state).
Defined.

Lemma no_lost_wakeup_witness :
  2 ∈ blk_list (blk_of Demo.state 50) /\
  match obj_type (blk_of Demo.state 50) with
  | RHINO_OBJ_TYPE_NONE => False
  | RHINO_SEM_OBJ_TYPE => ~ 0 < count (sem_of Demo.state 50)
  | RHINO_QUEUE_OBJ_TYPE => ~ 0 < q_cur_num (queues Demo.state !!! 50)
  | RHINO_BUF_QUEUE_OBJ_TYPE => ringbuf_is_empty (bq_ringbuf (buf_queues Demo.state !!! 50)) = true
  | RHINO_MUTEX_OBJ_TYPE => mutex_task (mutex_of Demo.state 50) <> NULL
  | _ => True
  end.
Proof.
  assert (2 ∈ blk_list (blk_of Demo.state 50)) as Hin by (vm_compute; left).
  split; [exact Hin|].
  exact (no_lost_wakeup Demo.addrs Demo.mem Demo.heap0 Demo.calls Demo.state 50 2 Demo.addrs_ok Demo.reached_state Hin).
Defined.

Lemma tick_list_invariant_witness :
  NoDup (g_tick_head Demo.state) /\
  StronglySorted (fun a b => ticks_left Demo.state a <= ticks_left Demo.state b) (g_tick_head Demo.state) /\
  (forall t, t ∈ g_tick_head Demo.state <-> tick_head (task_of Demo.state t) = true) /\
  (forall t, t ∈ g_tick_head Demo.state ->
     1 <= ticks_left Demo.state t /\ (is_sleeping (task_of Demo.state t) = true \/ is_pending (task_of Demo.state t) = true)) /\
  (forall t, is_sleeping (task_of Demo.state t) = true -> t ∈ g_tick_head Demo.state).
Proof.
  exact (tick_list_invariant Demo.addrs Demo.mem Demo.heap0 Demo.calls Demo.state Demo.addrs_ok Demo.reached_state).
Defined.
