(* ===== verification/Timeout.v ===== *)
(** * Timeouts are exact

    One tick takes one from the remaining time of every task on the tick list;
    the tasks whose time is over leave it, with the result their wait prescribes, and
    no other task changes state. *)
From S2P Require Import Prelude Bitmap KTypes RunQueue RingBuf Kernel Pend Alloc Task Sem Mutex.
From S2P Require Import Invariant InvPend PriInherit KInv ApiInv MutexInv TaskInv TaskApiInv Reach Boot Safety.
Local Open Scope Z_scope.

Implicit Types (s : kstate) (t u : Z) (k : ktask_t).

(** State and wait result of a task. *)
Definition wait_state k : task_stat_t * blk_state_t := (task_state k, blk_state k).

(** What the end of its time makes of a waiting task. *)
Definition expire_result (st : task_stat_t) : task_stat_t * blk_state_t :=
  match st with
  | K_SLEEP => (K_RDY, BLK_FINISH)
  | K_SLEEP_SUSPENDED => (K_SUSPENDED, BLK_FINISH)
  | K_PEND => (K_RDY, BLK_TIMEOUT)
  | _ => (K_SUSPENDED, BLK_TIMEOUT)
  end.

Lemma wait_state_upd_blk t s u :
  wait_state (task_of (upd_task t (fun k => k <| blk_obj := NULL |>) s) u) = wait_state (task_of s u).
Proof. destruct (decide (u = t)) as [->|]; [by rewrite task_of_upd|by rewrite task_of_upd_ne]. Qed.

Lemma tick_expire_states idle s t k :
  kbody idle none s -> tasks s !! t = Some k -> tick_head k = true ->
  forall u, wait_state (task_of (tick_expire t s) u) =
            if decide (u = t) then expire_result (task_state k) else wait_state (task_of s u).
Proof.
  intros Hb Ht Hth u. pose proof (kwf_task_ok _ _ _ _ (kb_wf Hb) Ht) as Hok.
  assert (forall s' k', tasks s' = <[t := k']> (tasks s) -> wait_state k' = expire_result (task_state k) ->
    wait_state (task_of s' u) = if decide (u = t) then expire_result (task_state k) else wait_state (task_of s u)) as Hins.
  { intros s' k' E Ek. unfold task_of. rewrite E. case_decide as Eu; [subst; by rewrite lookup_total_insert_eq|].
    by rewrite lookup_total_insert_ne by auto. }
  destruct (timed_task_cases k (to_tick _ _ Hok Hth)) as [E|[E|Hp]].
  - rewrite (tick_expire_sleep idle s t k (kb_wf Hb) Ht E). eapply Hins; [done|]. by rewrite E.
  - rewrite (tick_expire_sleep_suspended idle s t k (kb_wf Hb) Ht E). eapply Hins; [done|]. by rewrite E.
  - rewrite (tick_expire_pend idle s t k (kb_wf Hb) Ht Hp). cbv zeta.
    set (st := if decide (task_state k = K_PEND) then K_RDY else K_SUSPENDED).
    assert (off_state st /\ st <> K_DELETED /\ (st = K_SUSPENDED -> is_suspended k = true) /\
      (st, BLK_TIMEOUT) = expire_result (task_state k)) as (Hst & Hnd & Hs & Er).
    { subst st. unfold off_state, is_suspended. destruct (is_pending_cases _ Hp) as [E|E]; rewrite E;
        [rewrite decide_True by done|rewrite decide_False by done]; split_and!; auto; discriminate. }
    destruct (drop_reset_kbody idle s t k st BLK_TIMEOUT (prio (task_of s (g_active_task s))) Hb Ht Hp Hst Hnd Hs)
      as [_ F].
    rewrite wait_state_upd_blk, (pri_frame_field wait_state _ _ u ltac:(done) F).
    by eapply (Hins _ (dropped st BLK_TIMEOUT k)).
Qed.

(** ** One pass over the tick list *)

(** A task on the list, its control block and its remaining time. *)
Lemma tick_entry idle s t :
  kwf idle s -> t ∈ g_tick_head s ->
  exists k, tasks s !! t = Some k /\ tick_head k = true /\
    ticks_left s t = left_at (tick_map (tasks s)) (g_tick_count s) t /\
    (ticks_left s t = 0 <-> g_tick_count s = tick_match k).
Proof.
  intros H [m Hm]%(tr_elem _ _ _ (kw_tick H)). pose proof Hm as Hm'. apply abs_Some in Hm' as (k & Hk & Hd).
  unfold deadline in Hd. destruct (tick_head k) eqn:E; [|done]. injection Hd as <-. exists k.
  pose proof (to_match _ _ (kwf_task_ok _ _ _ _ H Hk)) as Hu. pose proof (kw_now H) as Hnow.
  unfold ticks_left, left_at. rewrite (task_of_Some _ _ _ Hk), (lookup_total_Some _ _ _ Hm). split_and!; try done.
  unfold u32, wrap32 in *. split; [|intros ->; by rewrite Z.sub_diag].
  intros E0. apply Z.mod_divide in E0 as [q Hq]; [|lia]. assert (q = 0) by nia. lia.
Qed.

(** A task whose wait is over is not on the list. *)
Lemma expired_off_list idle s t st : kwf idle s -> wait_state (task_of s t) = expire_result st -> t ∉ g_tick_head s.
Proof.
  intros H Ew Hin. destruct (tick_entry _ _ _ H Hin) as (k & Hk & Hh & _).
  pose proof (to_tick _ _ (kwf_task_ok _ _ _ _ H Hk) Hh) as Htk. rewrite (task_of_Some _ _ _ Hk) in Ew.
  unfold wait_state in Ew. unfold is_sleeping, is_pending in Htk. destruct (task_state k), st; naive_solver.
Qed.

(** When the first task is not due, none is. *)
Lemma none_due idle s t l :
  kwf idle s -> g_tick_head s = t :: l -> ticks_left s t <> 0 -> forall x, x ∈ t :: l -> ticks_left s x <> 0.
Proof.
  intros H El Hne x Hx. pose proof (tr_sorted _ _ _ (kw_tick H)) as Ts. rewrite El in Ts.
  pose proof (StronglySorted_head (left_at (tick_map (tasks s)) (g_tick_count s)) _ _ _ Ts Hx) as Hle.
  rewrite <- El in Hx. assert (t ∈ g_tick_head s) as Ht by (rewrite El; by left).
  destruct (tick_entry _ _ _ H Hx) as (_ & _ & _ & Ex & _). destruct (tick_entry _ _ _ H Ht) as (_ & _ & _ & Et & _).
  rewrite <- Ex, <- Et in Hle.
  pose proof (wrap32_range (tick_match (task_of s t) - g_tick_count s)) as Hr. unfold ticks_left, u32 in *. lia.
Qed.

(** The effect of a pass on every task. *)
Definition walked (l : list Z) s s' : Prop :=
  (forall t, t ∈ l -> ticks_left s t = 0 ->
     (t ∉ g_tick_head s') /\ wait_state (task_of s' t) = expire_result (task_state (task_of s t))) /\
  (forall t, ~ (t ∈ l /\ ticks_left s t = 0) ->
     wait_state (task_of s' t) = wait_state (task_of s t) /\
     (t ∈ l -> t ∈ g_tick_head s' /\ ticks_left s' t = ticks_left s t)).

Lemma walked_cons i t l s s' k :
  kbody (env i 0) none s -> tasks s !! t = Some k -> tick_head k = true -> t ∉ l -> ticks_left s t = 0 ->
  kwf (env i 1) s' -> walked l (tick_expire t s) s' -> walked (t :: l) s s'.
Proof.
  intros Hb Hk Eth Hn H0 H' [W1 W2]. destruct (tick_expire_spec (env i 0) s t k Hb Hk Eth) as [Hb1 F1].
  pose proof (tick_expire_states (env i 0) s t k Hb Hk Eth) as Hst.
  assert (forall x, x <> t -> ticks_left (tick_expire t s) x = ticks_left s x) as Hlf.
  { intros x Hx. unfold ticks_left. rewrite (proj1 (ef_match _ _ _ F1 x Hx)). by rewrite (kf_now _ _ (ef_frame _ _ _ F1)). }
  assert (forall x, x <> t -> wait_state (task_of (tick_expire t s) x) = wait_state (task_of s x)) as Hss.
  { intros x Hx. by rewrite Hst, decide_False. }
  split.
  - intros x Hx Hx0. apply elem_of_cons in Hx as [->|Hx].
    + destruct (W2 t) as [Ew _]; [by intros [? _]|]. rewrite Hst, decide_True in Ew by done.
      rewrite (task_of_Some _ _ _ Hk). split; [by eapply expired_off_list|done].
    + assert (x <> t) as Hxt by (by intros ->). pose proof (Hss x Hxt) as E. unfold wait_state at 1 2 in E.
      injection E as <- _. apply W1; [done|by rewrite Hlf].
  - intros x Hx. assert (x <> t) as Hxt by (intros ->; apply Hx; split; [by left|done]).
    destruct (W2 x) as [Ew Hh]. { rewrite Hlf by done. intros [? ?]. apply Hx. split; [by right|done]. }
    rewrite Ew, Hss by done. split; [done|]. intros Hin. rewrite <- (Hlf x Hxt). apply Hh.
    by apply elem_of_cons in Hin as [?|?].
Qed.

Lemma tick_list_walk_states i l s :
  kbody (env i 0) none s -> g_tick_head s = l -> walked l s (tick_list_walk l s).
Proof.
  revert s. induction l as [|t l IH]; intros s Hb El; cbn [tick_list_walk].
  - split; [by intros t ?%elem_of_nil|]. intros t _. split; [done|]. by intros ?%elem_of_nil.
  - assert (t ∈ g_tick_head s) as Ht by (rewrite El; by left).
    destruct (tick_entry _ _ _ (kb_wf Hb) Ht) as (k & Hk & Eth & _ & Hz). rewrite (task_of_Some _ _ _ Hk).
    pose proof (tr_nodup _ _ _ (kw_tick (kb_wf Hb))) as Hd. rewrite El in Hd.
    destruct (Z.eqb_spec (g_tick_count s) (tick_match k)) as [E|E].
    + destruct (tick_expire_spec (env i 0) s t k Hb Hk Eth) as [Hb1 F1].
      assert (g_tick_head (tick_expire t s) = l) as El1
        by (rewrite (ef_head _ _ _ F1), El; by apply remove_addr_head).
      apply (walked_cons i t l s _ k); try done; [by apply NoDup_cons in Hd as [? _]|by apply Hz| |by apply IH].
      exact (kb_wf (proj1 (tick_list_walk_kbody i l (tick_expire t s) Hb1 El1))).
    + assert (ticks_left s t <> 0) as Hne by (by rewrite Hz). rewrite <- El.
      assert (forall x, x ∈ g_tick_head s -> ticks_left s x <> 0) as Hnd
        by (rewrite El; exact (none_due _ _ _ _ (kb_wf Hb) El Hne)).
      split; [|done]. intros x Hx H0. by destruct (Hnd x Hx).
Qed.

(** ** The tick interrupt *)
Lemma tick_list_update_states i s t :
  kbody (env i 1) none s ->
  let s' := tick_list_update s in
  (t ∈ g_tick_head s -> ticks_left s t = 1 ->
     (t ∉ g_tick_head s') /\ wait_state (task_of s' t) = expire_result (task_state (task_of s t))) /\
  (t ∈ g_tick_head s -> ticks_left s t <> 1 ->
     t ∈ g_tick_head s' /\ ticks_left s' t = ticks_left s t - 1 /\ wait_state (task_of s' t) = wait_state (task_of s t)) /\
  (t ∉ g_tick_head s -> wait_state (task_of s' t) = wait_state (task_of s t)).
Proof.
  intros Hb. unfold tick_list_update, RHINO_CRITICAL_ENTER, RHINO_CPU_INTRPT_DISABLE, RHINO_CRITICAL_EXIT, RHINO_CPU_INTRPT_ENABLE.
  cbv beta iota zeta. set (s1 := s <| intrpt_masked := true |>).
  assert (kbody (env i 1) none s1) as Hb1 by (by apply kbody_mask).
  pose proof (kb_wf Hb1) as H1. apply advance_kbody in Hb1. set (s2 := _ <| g_sys_time_tick ::= _ |>) in *.
  destruct (tick_list_walk_states i (g_tick_head s2) s2 Hb1 eq_refl) as [W1 W2].
  assert (t ∈ g_tick_head s -> ticks_left s2 t = ticks_left s t - 1) as Hdec.
  { intros Hin. destruct (tick_entry _ _ _ H1 Hin) as (k & Hk & Hh & _). unfold ticks_left.
    change (task_of s2 t) with (task_of s1 t). change (task_of s t) with (task_of s1 t). rewrite (task_of_Some _ _ _ Hk).
    apply wrap32_dec; [exact (to_match _ _ (kwf_task_ok _ _ _ _ H1 Hk))|exact (kw_now H1)|].
    apply (kw_pos H1 t). unfold tick_map. rewrite (lookup_abs _ _ _ _ Hk). unfold deadline. by rewrite Hh. }
  split_and!.
  - intros Hin E. apply (W1 t Hin). rewrite Hdec by done. lia.
  - intros Hin E. destruct (W2 t) as [Ew Hh]; [intros [_ E0]; rewrite Hdec in E0 by done; lia|].
    destruct (Hh Hin) as [Hh1 Hh2]. split_and!; [exact Hh1| |exact Ew]. rewrite <- Hdec by done. exact Hh2.
  - intros Hin. by apply W2; intros [? _].
Qed.

(** ** Any number of ticks *)
Lemma ticks_O s : Nat.iter 0 tick_list_update s = s. Proof. done. Qed.
Lemma ticks_S n s : Nat.iter (S n) tick_list_update s = tick_list_update (Nat.iter n tick_list_update s). Proof. done. Qed.

Lemma iter_ticks i s t n :
  kbody (env i 1) none s -> t ∈ g_tick_head s -> Z.of_nat n < ticks_left s t ->
  let s' := Nat.iter n tick_list_update s in
  kbody (env i 1) none s' /\ t ∈ g_tick_head s' /\ ticks_left s' t = ticks_left s t - Z.of_nat n /\
  wait_state (task_of s' t) = wait_state (task_of s t).
Proof.
  intros Hb Hin Hn. induction n as [|n IH]; [rewrite ticks_O; split_and!; try done; lia|].
  rewrite ticks_S. cbv zeta.
  destruct IH as (Hb' & Hin' & El & Ew); [lia|]. set (s' := Nat.iter n tick_list_update s) in *.
  destruct (tick_list_update_kbody i s' Hb') as [Hb2 _].
  destruct (tick_list_update_states i s' t Hb') as (_ & Hk & _). destruct Hk as (? & ? & E); [done|lia|].
  split_and!; [done|done|lia|by rewrite E].
Qed.

Lemma iter_ticks_last i s t n :
  kbody (env i 1) none s -> t ∈ g_tick_head s -> ticks_left s t = Z.of_nat (S n) ->
  let s' := Nat.iter (S n) tick_list_update s in
  (t ∉ g_tick_head s') /\ wait_state (task_of s' t) = expire_result (task_state (task_of s t)).
Proof.
  intros Hb Hin Hn. rewrite ticks_S. cbv zeta. destruct (iter_ticks i s t n Hb Hin) as (Hb' & Hin' & El & Ew); [lia|].
  set (s' := Nat.iter n tick_list_update s) in *.
  destruct (tick_list_update_states i s' t Hb') as (Hx & _). destruct Hx as [? E]; [done|lia|].
  split; [done|]. rewrite E. unfold wait_state in Ew. by injection Ew as -> _.
Qed.

(** C9: Timeouts are exact: a task with [n] ticks left keeps waiting through the first
    [n - 1] ticks and at the [n]-th one leaves the tick list with the result of an
    expired wait: a sleeper becomes ready with [BLK_FINISH], a blocked task becomes
    ready with [BLK_TIMEOUT], suspended ones stay suspended. *)
Theorem timeout_exact i s t n :
  kinv (env i 1) s -> t ∈ g_tick_head s -> ticks_left s t = Z.of_nat (S n) ->
  (forall j, (j <= n)%nat ->
     let s' := Nat.iter j tick_list_update s in
     t ∈ g_tick_head s' /\ wait_state (task_of s' t) = wait_state (task_of s t)) /\
  let s' := Nat.iter (S n) tick_list_update s in
  (t ∉ g_tick_head s') /\ wait_state (task_of s' t) = expire_result (task_state (task_of s t)).
Proof.
  intros [Hb _] Hin Hn. split; [|by eapply iter_ticks_last]. intros j Hj.
  destruct (iter_ticks i s t j Hb Hin) as (_ & ? & _ & ?); [lia|done].
Qed.

(** The scheduler touches no task. *)
Lemma core_sched_tasks s :
  tasks (core_sched s) = tasks s /\ g_tick_head (core_sched s) = g_tick_head s /\ g_tick_count (core_sched s) = g_tick_count s.
Proof.
  unfold core_sched, RHINO_CPU_INTRPT_DISABLE; cbv beta iota zeta.
  destruct (0 <? _); [done|]. destruct (0 <? _); [done|]. by destruct (_ =? _).
Qed.

(** The sleeping call puts the running task on the tick list. *)
Lemma sleep_result idle s n :
  kinv idle s -> task_ctx idle s -> in_intrpt s = false -> g_sched_lock s = 0 -> 0 < n < 2 ^ 32 ->
  let s1 := (krhino_task_sleep n s).2 in
  task_state (task_of s1 (g_active_task s)) = K_SLEEP /\ g_active_task s ∈ g_tick_head s1 /\
  ticks_left s1 (g_active_task s) = n.
Proof.
  intros Hk Hc Hi Hl Hn. destruct (running_task idle s Hk Hc Hi) as (k & Ht & Hr & Hid). cbv zeta.
  unfold krhino_task_sleep. rewrite (proj2 (Z.eqb_neq _ _)) by lia.
  unfold RHINO_CRITICAL_ENTER, RHINO_CPU_INTRPT_DISABLE; cbv beta iota. set (sm := s <| intrpt_masked := true |>).
  change (in_intrpt sm) with (in_intrpt s). rewrite Hi. change (g_sched_lock sm) with (g_sched_lock s). rewrite Hl.
  cbv zeta. change (0 <? 0) with false. cbv iota. cbn [snd]. change (g_active_task sm) with (g_active_task s).
  rewrite (sleep_eq idle sm (g_active_task s) k); [|exact (kb_wf (proj1 (kinv_mask _ _ true Hk)))|done|done|done|lia].
  unfold RHINO_CRITICAL_EXIT_SCHED, RHINO_CPU_INTRPT_ENABLE. unfold task_of, ticks_left, task_of.
  match goal with |- context [core_sched ?x] => destruct (core_sched_tasks x) as (-> & -> & ->) end. rsimpl.
  rewrite lookup_total_insert_eq. split_and!; [done|apply elem_of_insert_where; by left|].
  unfold asleep, with_timeout; rsimpl. change (g_tick_count sm) with (g_tick_count s).
  rewrite wrap32_sub_l. replace (g_tick_count s + n - g_tick_count s) with n by lia. apply wrap32_small. unfold u32. lia.
Qed.

(** [krhino_task_sleep(n)] by the running task makes it sleep through exactly [n]
    ticks: after fewer ticks it is still asleep, after [n] ticks it is ready again and
    its call will report success. *)
Theorem sleep_exact i s n :
  kinv (env i 1) s -> task_ctx (env i 1) s -> in_intrpt s = false -> g_sched_lock s = 0 ->
  0 < Z.of_nat n < 2 ^ 32 ->
  let t := g_active_task s in
  let s1 := (krhino_task_sleep (Z.of_nat n) s).2 in
  (forall j, (j < n)%nat -> task_state (task_of (Nat.iter j tick_list_update s1) t) = K_SLEEP) /\
  wait_state (task_of (Nat.iter n tick_list_update s1) t) = (K_RDY, BLK_FINISH).
Proof.
  intros Hk Hc Hi Hl Hn t s1.
  assert (kinv (env i 1) s1) as [Hb1 _] by (apply krhino_task_sleep_kinv; [done|done|unfold u32; lia]).
  destruct (sleep_result (env i 1) s (Z.of_nat n) Hk Hc Hi Hl Hn) as (Es & Hin & Elf). split.
  - intros j Hj. destruct (iter_ticks i s1 t j Hb1 Hin) as (_ & _ & _ & Ew); [fold s1 t in Elf; rewrite Elf; lia|].
    unfold wait_state in Ew. injection Ew as -> _. exact Es.
  - destruct n as [|n]; [lia|]. destruct (iter_ticks_last i s1 t n Hb1 Hin Elf) as [_ ->]. fold s1 t in Es. by rewrite Es.
Qed.

(** ** Witnesses on [Demo.state]: task 2 waits for the mutex with a timeout of 5 ticks,
    task 1 runs *)
Import RefAlloc.

Lemma timeout_exact_witness :
  (forall j, (j <= 4)%nat ->
     let s' := Nat.iter j tick_list_update Demo.state in
     2 ∈ g_tick_head s' /\ wait_state (task_of s' 2) = wait_state (task_of Demo.state 2)) /\
  let s' := Nat.iter 5 tick_list_update Demo.state in
  (2 ∉ g_tick_head s') /\ wait_state (task_of s' 2) = expire_result (task_state (task_of Demo.state 2)).
Proof.
  apply (timeout_exact 1000 Demo.state 2 4).
  - exact (reached_kinv Demo.addrs Demo.mem Demo.heap0 Demo.addrs_ok Demo.calls Demo.state Demo.reached_state).
  - vm_compute. left.
  - vm_compute. reflexivity.
Defined.

Lemma sleep_exact_witness :
  let s1 := (krhino_task_sleep 3 Demo.state).2 in
  (forall j, (j < 3)%nat -> task_state (task_of (Nat.iter j tick_list_update s1) 1) = K_SLEEP) /\
  wait_state (task_of (Nat.iter 3 tick_list_update s1) 1) = (K_RDY, BLK_FINISH).
Proof.
  apply (sleep_exact 1000 Demo.state 3).
  - exact (reached_kinv Demo.addrs Demo.mem Demo.heap0 Demo.addrs_ok Demo.calls Demo.state Demo.reached_state).
  - apply task_ctxb_ok. vm_compute. reflexivity.
  - vm_compute. reflexivity.
  - vm_compute. reflexivity.
  - vm_compute. split; reflexivity.
Defined.
