(* ===== verification/RingQueue.v ===== *)
(** * The ring buffer refines a bounded queue of messages

    The abstract queue keeps the list of messages and a capacity in bytes.  Every
    sequence of API calls on an initialised ring buffer gives the statuses and the
    messages of the abstract queue, up to the one case where [ringbuf_head_push]
    splits a payload, which [head_push_exact] characterises. *)
From S2P Require Import Prelude KTypes RingBuf RingSpec.

Implicit Types (rb : k_ringbuf_t) (m data : list Z) (ms : list (list Z)).

Local Open Scope nat_scope.

(** ** The abstract queue *)
Inductive ring_op :=
| RPush (m : list Z)
| RHeadPush (m : list Z)
| RPop
| RReset.

(** Constants of a buffer: size, mode and block size. *)
Record ring_cfg := { rc_size : nat; rc_type : Z; rc_blk : nat }.

Definition cfg_of rb : ring_cfg := {| rc_size := rb_end rb; rc_type := rb_type rb; rc_blk := rb_blk_size rb |}.

(** Bytes a message occupies: its length, and in dynamic mode its length field. *)
Definition cost (c : ring_cfg) m : nat :=
  if (rc_type c =? RINGBUF_TYPE_FIX)%Z then length m
  else length m + (if (Z.of_nat (length m) <=? RINGBUF_LEN_1BYTE_MAXVALUE)%Z then 1
                   else if (Z.of_nat (length m) <=? RINGBUF_LEN_2BYTES_MAXVALUE)%Z then 2 else 3).

Definition room (c : ring_cfg) ms : nat := rc_size c - sum_list (cost c <$> ms).

Definition bad_len (c : ring_cfg) m : bool :=
  (length m =? 0) || (RINGBUF_LEN_3BYTES_MAXVALUE <? Z.of_nat (length m))%Z ||
  ((rc_type c =? RINGBUF_TYPE_FIX)%Z && negb (length m =? rc_blk c)).

Definition queue_step (c : ring_cfg) ms (op : ring_op) : (kstat_t * list Z) * list (list Z) :=
  match op with
  | RPush m => if bad_len c m then (RHINO_INV_PARAM, [], ms)
               else if room c ms <? cost c m then (RHINO_RINGBUF_FULL, [], ms) else (RHINO_SUCCESS, [], ms ++ [m])
  | RHeadPush m => if bad_len c m then (RHINO_INV_PARAM, [], ms)
                   else if room c ms <? cost c m then (RHINO_RINGBUF_FULL, [], ms) else (RHINO_SUCCESS, [], m :: ms)
  | RPop => match ms with [] => (RHINO_RINGBUF_EMPTY, [], []) | m :: ms => (RHINO_SUCCESS, m, ms) end
  | RReset => (RHINO_SUCCESS, [], [])
  end.

(** ** The implementation *)
Definition ring_step rb (op : ring_op) : (kstat_t * list Z) * k_ringbuf_t :=
  match op with
  | RPush m => let '(e, rb) := krhino_ringbuf_push rb m in (e, [], rb)
  | RHeadPush m => let '(e, rb) := krhino_ringbuf_head_push rb m in (e, [], rb)
  | RPop => let '(e, d, _, rb) := krhino_ringbuf_pop rb false in (e, d, rb)
  | RReset => let '(e, rb) := krhino_ringbuf_reset rb in (e, [], rb)
  end.

(** No payload pushed at the head is split. *)
Definition op_whole rb (op : ring_op) : bool :=
  match op with RHeadPush m => negb (payload_wraps rb m) | _ => true end.

Fixpoint run {S : Type} (step : S -> ring_op -> (kstat_t * list Z) * S) (s : S) (ops : list ring_op) : list (kstat_t * list Z) :=
  match ops with [] => [] | op :: ops => let '(out, s) := step s op in out :: run step s ops end.

Fixpoint ops_whole rb (ops : list ring_op) : bool :=
  match ops with [] => true | op :: ops => op_whole rb op && ops_whole (ring_step rb op).2 ops end.

(** ** Lemmas *)
Lemma length_header rb m :
  rb_type rb = RINGBUF_TYPE_DYN -> msg_ok rb m -> length (frame rb m) = cost (cfg_of rb) m.
Proof.
  intros Ht Hm. destruct (header_spec rb m Ht Hm) as (lb & c & E & Hlb & Eh & El & _). unfold frame, cost. simpl.
  rewrite Ht. change (_ =? _)%Z with false. cbv iota. rewrite length_app, El, Nat.add_comm. f_equal.
  unfold msg_ok in Hm. rewrite Ht in Hm. change (_ =? _)%Z with false in Hm. cbv iota in Hm.
  unfold ringbuf_headlen_compress, COMPRESS_LEN in E.
  destruct (Z.of_nat (length m) <=? RINGBUF_LEN_1BYTE_MAXVALUE)%Z; [|destruct (Z.of_nat (length m) <=? RINGBUF_LEN_2BYTES_MAXVALUE)%Z].
  1-2: apply (f_equal fst) in E; simpl in E; lia.
  rewrite (proj2 (Z.leb_le _ _)) in E by lia. apply (f_equal fst) in E. simpl in E. lia.
Qed.

Lemma length_frame rb m : mode_ok rb -> msg_ok rb m -> length (frame rb m) = cost (cfg_of rb) m.
Proof.
  intros [(Ht & _)|Ht]; [|by apply length_header]. intros _. unfold frame, cost. simpl. by rewrite Ht.
Qed.

Lemma room_free rb ms : rb_msgs rb ms -> room (cfg_of rb) ms = freesize rb.
Proof.
  intros Hms. rewrite (free_msgs _ _ Hms). unfold room. simpl. f_equal. destruct Hms as [Hmode Hok _].
  induction Hok as [|m ms Hm _ IH]; [done|]. rewrite !fmap_cons. simpl. rewrite length_app, IH, length_frame by done. done.
Qed.

Lemma bad_len_spec rb m : mode_ok rb -> push_params_bad rb m = bad_len (cfg_of rb) m /\ (bad_len (cfg_of rb) m = false -> msg_ok rb m).
Proof.
  intros Hmode. split; [done|]. unfold bad_len, msg_ok. simpl.
  rewrite !orb_false_iff, Nat.eqb_neq, Z.ltb_ge, andb_false_iff, negb_false_iff, Nat.eqb_eq. intros [[H1 H2] H3].
  destruct Hmode as [(Ht & _)|Ht]; rewrite Ht in *; simpl in *; [by destruct H3|lia].
Qed.

Lemma cfg_shape rb rb' : same_shape rb rb' -> cfg_of rb' = cfg_of rb.
Proof. intros (E1 & E2 & E3). unfold cfg_of. by rewrite E1, E2, E3. Qed.

(** One call simulates one step of the abstract queue. *)
Lemma step_refines rb ms op :
  rb_msgs rb ms -> op_whole rb op = true ->
  (ring_step rb op).1 = (queue_step (cfg_of rb) ms op).1 /\
  rb_msgs (ring_step rb op).2 (queue_step (cfg_of rb) ms op).2 /\ cfg_of (ring_step rb op).2 = cfg_of rb.
Proof.
  intros Hms Hw. pose proof (rm_mode _ _ Hms) as Hmode. destruct op as [m|m| |]; simpl.
  - unfold krhino_ringbuf_push. destruct (bad_len_spec rb m Hmode) as [-> Hok].
    destruct (bad_len _ m); [done|]. specialize (Hok eq_refl).
    rewrite (room_free _ _ Hms), <- length_frame by done. destruct (Nat.ltb_spec (freesize rb) (length (frame rb m))).
    + by destruct (push_full _ _ _ Hms Hok H) as [-> _].
    + destruct (push_msgs _ _ _ Hms Hok H) as (rb' & -> & Hr & Hs & _). split_and!; [done..|by apply cfg_shape].
  - unfold krhino_ringbuf_head_push. destruct (bad_len_spec rb m Hmode) as [-> Hok].
    destruct (bad_len _ m); [done|]. specialize (Hok eq_refl).
    rewrite (room_free _ _ Hms), <- length_frame by done. destruct (Nat.ltb_spec (freesize rb) (length (frame rb m))).
    + by destruct (push_full _ _ _ Hms Hok H) as [_ ->].
    + destruct (head_push_msgs _ _ _ Hms Hok H) as (rb' & -> & Hr & Hs).
      simpl in Hw. apply negb_true_iff in Hw. unfold stored in Hr. rewrite Hw in Hr. split_and!; [done..|by apply cfg_shape].
  - unfold krhino_ringbuf_pop. rewrite andb_false_r. destruct ms as [|m ms].
    + by rewrite (pop_empty _ Hms).
    + destruct (pop_msgs _ _ _ Hms) as (rb' & -> & Hr & Hs & _). split_and!; [done..|by apply cfg_shape].
  - destruct (reset_msgs _ _ Hms) as (rb' & [= E] & Hr & Hs). subst rb'.
    split_and!; [done..|by apply cfg_shape].
Qed.

Lemma run_refines ops rb ms :
  rb_msgs rb ms -> ops_whole rb ops = true -> run ring_step rb ops = run (queue_step (cfg_of rb)) ms ops.
Proof.
  revert rb ms. induction ops as [|op ops IH]; intros rb ms Hms Hw; [done|].
  simpl in Hw. apply andb_true_iff in Hw as [Hw Hws]. destruct (step_refines _ _ _ Hms Hw) as (E & Hms' & Ec).
  cbn [run]. destruct (ring_step rb op) as [out rb']. destruct (queue_step (cfg_of rb) ms op) as [out' ms'].
  cbn [fst snd] in *. subst out'. f_equal. rewrite <- Ec. by apply IH.
Qed.

(** ** Properties *)


(** [ringbuf_head_push], exactly: the call succeeds when the message fits, and the
    message that a pop then returns is [stored rb m]; it is [m] itself unless the
    payload is split at the start of the array, and then it is [m] with its two
    halves exchanged. *)
Theorem head_push_exact rb ms m :
  rb_msgs rb ms -> msg_ok rb m -> length (frame rb m) <= freesize rb ->
  exists rb1 rb2, ringbuf_head_push rb m = (RHINO_SUCCESS, rb1) /\ rb_msgs rb1 (stored rb m :: ms) /\
    ringbuf_pop rb1 = (RHINO_SUCCESS, stored rb m, Z.of_nat (length m), rb2) /\ rb_msgs rb2 ms.
Proof.
  intros Hms Hm Hsz. destruct (head_push_msgs _ _ _ Hms Hm Hsz) as (rb1 & E1 & H1 & _).
  destruct (pop_msgs _ _ _ H1) as (rb2 & E2 & H2 & _). exists rb1, rb2. rewrite length_stored in E2. done.
Qed.

(** Length fields: every length the API accepts is encoded in one to three bytes
    that [ringbuf_headlen_decompress] decodes to the same length, and the first byte
    determines how many bytes the field has. *)
Theorem headlen_roundtrip len :
  (1 <= len <= RINGBUF_LEN_3BYTES_MAXVALUE)%Z ->
  exists len_bytes c_len, ringbuf_headlen_compress len = (Z.of_nat len_bytes, c_len) /\ 1 <= len_bytes <= 3 /\
    head_bytes (c_len !!! 0) = len_bytes /\ ringbuf_headlen_decompress len_bytes (take len_bytes c_len) = len.
Proof. intros H. destruct (header_roundtrip _ H) as (lb & c & E & H1 & _ & H2 & H3). by exists lb, c. Qed.

Module Demo.
Definition rb0 : k_ringbuf_t := (ringbuf_init (repeat 0%Z 10) RINGBUF_TYPE_DYN 0).2.
Definition ops : list ring_op :=
  [RPush [1; 2; 3]; RPush [4; 5; 6; 7]; RPop; RPush [8; 9; 10]; RPush [11]; RPop; RPop; RPop; RHeadPush [12]; RPop; RReset; RPop]%Z.

(** Two messages, the second across the end of the array; a rejected push; an empty pop. *)
Example outputs :
  run ring_step rb0 ops =
  [(RHINO_SUCCESS, []); (RHINO_SUCCESS, []); (RHINO_SUCCESS, [1; 2; 3]); (RHINO_SUCCESS, []); (RHINO_RINGBUF_FULL, []);
   (RHINO_SUCCESS, [4; 5; 6; 7]); (RHINO_SUCCESS, [8; 9; 10]); (RHINO_RINGBUF_EMPTY, []); (RHINO_SUCCESS, []);
   (RHINO_SUCCESS, [12]); (RHINO_SUCCESS, []); (RHINO_RINGBUF_EMPTY, [])]%Z.
Proof. vm_compute. reflexivity. Qed.

(** A buffer whose head is two bytes into the array and whose tail is behind it. *)
Definition split_rb : k_ringbuf_t :=
  let rb := (ringbuf_push rb0 [1]%Z).2 in
  let rb := (ringbuf_push rb [2]%Z).2 in
  (ringbuf_pop rb).2.
End Demo.


Lemma headlen_roundtrip_witness :
  exists len_bytes c_len, ringbuf_headlen_compress 300 = (Z.of_nat len_bytes, c_len) /\ 1 <= len_bytes <= 3 /\
    head_bytes (c_len !!! 0) = len_bytes /\ ringbuf_headlen_decompress len_bytes (take len_bytes c_len) = 300%Z.
Proof. apply (headlen_roundtrip 300). unfold RINGBUF_LEN_3BYTES_MAXVALUE. lia. Defined.

(** The message [3 4 5 6], pushed at the head of [Demo.split_rb], is read back as [5 6 3 4]. *)
Lemma head_push_exact_witness :
  payload_wraps Demo.split_rb [3; 4; 5; 6]%Z = true /\
  (exists rb1 rb2, ringbuf_head_push Demo.split_rb [3; 4; 5; 6]%Z = (RHINO_SUCCESS, rb1) /\
    rb_msgs rb1 (stored Demo.split_rb [3; 4; 5; 6]%Z :: [[2]%Z]) /\
    ringbuf_pop rb1 = (RHINO_SUCCESS, stored Demo.split_rb [3; 4; 5; 6]%Z, 4%Z, rb2) /\ rb_msgs rb2 [[2]%Z]) /\
  stored Demo.split_rb [3; 4; 5; 6]%Z = [5; 6; 3; 4]%Z.
Proof.
  split_and!; [vm_compute; reflexivity| |vm_compute; reflexivity].
  apply (head_push_exact Demo.split_rb [[2]%Z] [3; 4; 5; 6]%Z).
  - destruct (init_msgs (repeat 0%Z 10) RINGBUF_TYPE_DYN 0) as (rb & E & Hms & _); [split; [simpl; lia|by left]|].
    assert (rb = Demo.rb0) as -> by (unfold Demo.rb0; by rewrite E).
    destruct (push_msgs _ _ [1]%Z Hms) as (r1 & E1 & H1 & _); [vm_compute; split; discriminate|vm_compute; lia|].
    assert (r1 = (ringbuf_push Demo.rb0 [1]%Z).2) as -> by (by rewrite E1).
    destruct (push_msgs _ _ [2]%Z H1) as (r2 & E2 & H2 & _); [vm_compute; split; discriminate|vm_compute; lia|].
    destruct (pop_msgs _ _ _ H2) as (r3 & E3 & H3 & _).
    assert (Demo.split_rb = r3) as ->; [|done]. unfold Demo.split_rb. cbv zeta. rewrite E2. cbn [snd]. by rewrite E3.
  - vm_compute. split; discriminate.
  - vm_compute. lia.
Defined.

(** [krhino_ringbuf_is_full] answers whether the buffer is empty, not whether it is
    full: on every initialised buffer it is true, and once the message that fills the
    buffer is stored it is false. *)
Theorem is_full_tests_empty rb ms :
  rb_msgs rb ms -> krhino_ringbuf_is_full rb = bool_decide (concat (frame rb <$> ms) = []).
Proof.
  intros [_ _ Hb]. unfold krhino_ringbuf_is_full. rewrite (not_empty _ _ Hb).
  destruct (concat (frame rb <$> ms)); [by rewrite bool_decide_true|by rewrite bool_decide_false].
Qed.

Lemma is_full_tests_empty_witness :
  krhino_ringbuf_is_full Demo.rb0 = bool_decide (concat (frame Demo.rb0 <$> []) = []).
Proof.
  apply (is_full_tests_empty Demo.rb0 []).
  destruct (init_msgs (repeat 0%Z 10) RINGBUF_TYPE_DYN 0) as (rb & E & Hms & _); [split; [simpl; lia|by left]|].
  assert (rb = Demo.rb0) as -> by (unfold Demo.rb0; by rewrite E). done.
Defined.
