(* ===== verification/Structures.v ===== *)
(** * The kernel's data structures refine their abstract types

    Sequences of operations: the priority bitmap is a set of numbers with its minimum,
    a pointer ring is a list, and the ready queue is a map from tasks to priorities
    with a most urgent task. *)
From S2P Require Import Prelude Bitmap KList KTypes RunQueue.
Local Open Scope Z_scope.

(** ** The bitmap as a set *)
Inductive bit_op := BSet (nr : Z) | BClear (nr : Z).

Definition bit_run (bm : list Z) (op : bit_op) : list Z :=
  match op with BSet nr => krhino_bitmap_set bm nr | BClear nr => krhino_bitmap_clear bm nr end.
Definition bit_spec (X : gset Z) (op : bit_op) : gset Z :=
  match op with BSet nr => {[nr]} ∪ X | BClear nr => X ∖ {[nr]} end.
Definition bit_ok (n : nat) (op : bit_op) : bool :=
  match op with BSet nr | BClear nr => (0 <=? nr) && (nr <? 32 * Z.of_nat n) end.

Record bit_rep (bm : list Z) (X : gset Z) : Prop := {
  bt_wf : bitmap_wf bm;
  bt_bits : forall m, 0 <= m -> bitmap_test bm m = bool_decide (m ∈ X);
  bt_range : forall m, m ∈ X -> 0 <= m;
}.

Lemma bit_step n bm X op :
  length bm = n -> bit_ok n op = true -> bit_rep bm X -> bit_rep (bit_run bm op) (bit_spec X op) /\ length (bit_run bm op) = n.
Proof.
  intros Hl Hok [Hw Hb Hr]. destruct op as [nr|nr]; simpl in *.
  - rewrite length_bitmap_set. split; [|done]. split; [by apply bitmap_wf_set| |].
    + intros m Hm. rewrite bitmap_test_set, Hb by lia. rewrite <- bool_decide_or. apply bool_decide_ext. set_solver.
    + intros m [->%elem_of_singleton|Hm]%elem_of_union; [lia|by apply Hr].
  - rewrite length_bitmap_clear. split; [|done]. split; [by apply bitmap_wf_clear| |].
    + intros m Hm. rewrite bitmap_test_clear, Hb by (done || lia). rewrite <- bool_decide_not, <- bool_decide_and.
      apply bool_decide_ext. set_solver.
    + intros m [Hm _]%elem_of_difference. by apply Hr.
Qed.

Lemma bit_runs n ops bm X :
  length bm = n -> forallb (bit_ok n) ops = true -> bit_rep bm X ->
  bit_rep (fold_left bit_run ops bm) (fold_left bit_spec ops X).
Proof.
  revert bm X. induction ops as [|op ops IH]; intros bm X Hl Hok Hr; [done|].
  cbn [forallb fold_left] in *. apply andb_true_iff in Hok as [H1 H2]. destruct (bit_step n bm X op Hl H1 Hr) as [H3 H4].
  by apply IH.
Qed.

Lemma find_first_rep bm X :
  bit_rep bm X ->
  match krhino_find_first_bit bm with
  | Some p => p ∈ X /\ forall q, q ∈ X -> p <= q
  | None => X = ∅
  end.
Proof.
  intros [Hw Hb Hr]. unfold krhino_find_first_bit. destruct (find_first_bit_from bm 0) as [p|] eqn:E.
  - destruct (find_first_bit_from_Some _ _ _ Hw E) as (H0 & H1 & H2). rewrite Z.sub_0_r in *. rewrite Hb in H1 by lia.
    apply bool_decide_eq_true in H1. split; [done|]. intros q Hq. destruct (Z.lt_ge_cases q p) as [Hlt|]; [|lia].
    specialize (H2 q ltac:(specialize (Hr q Hq); lia)). rewrite Hb in H2 by (by apply Hr).
    by apply bool_decide_eq_false in H2.
  - apply set_eq. intros q. split; [|set_solver]. intros Hq. pose proof (Hr q Hq).
    pose proof (find_first_bit_from_None _ _ q Hw E ltac:(lia)) as H1. rewrite Hb in H1 by lia.
    by apply bool_decide_eq_false in H1.
Qed.

(** The priority bitmap: after any sequence of [krhino_bitmap_set] and
    [krhino_bitmap_clear] on a zeroed bitmap, [krhino_find_first_bit] returns the
    smallest number in the set, and runs off the array only if the set is empty. *)
Theorem bitmap_refines_set n ops :
  forallb (bit_ok n) ops = true ->
  match krhino_find_first_bit (fold_left bit_run ops (replicate n 0)) with
  | Some p => p ∈ fold_left bit_spec ops ∅ /\ forall q, q ∈ fold_left bit_spec ops ∅ -> p <= q
  | None => fold_left bit_spec ops ∅ = ∅
  end.
Proof.
  intros Hok. apply find_first_rep, (bit_runs n); [apply length_replicate|done|]. split.
  - apply Forall_replicate. unfold u32. lia.
  - intros m Hm. rewrite bool_decide_false by set_solver. unfold bitmap_test.
    destruct (replicate n 0 !! Z.to_nat (m / 32)) as [w|] eqn:E; [|done].
    apply lookup_replicate in E as [-> _]. apply Z.testbit_0_l.
  - set_solver.
Qed.

Definition demo_bits : list bit_op := [BSet 61; BSet 40; BSet 7; BClear 7; BSet 33].

Lemma bitmap_refines_set_witness :
  match krhino_find_first_bit (fold_left bit_run demo_bits (replicate 2 0)) with
  | Some p => p ∈ fold_left bit_spec demo_bits ∅ /\ forall q, q ∈ fold_left bit_spec demo_bits ∅ -> p <= q
  | None => fold_left bit_spec demo_bits ∅ = ∅
  end.
Proof. apply (bitmap_refines_set 2 demo_bits). reflexivity. Defined.

(** ** Pointer rings as lists *)

(** The uses of [k_list.h] in the kernel: append, prepend, insert in order, remove. *)
Inductive list_op :=
| LAppend (e : Z)
| LPrepend (e : Z)
| LInsert (stop : Z -> bool) (e : Z)
| LRemove (e : Z).

Definition list_run (head : Z) (fuel : nat) (h : gmap Z klist_t) (op : list_op) : gmap Z klist_t :=
  match op with
  | LAppend e => klist_insert head e h
  | LPrepend e => klist_add head e h
  | LInsert stop e => klist_walk_insert fuel stop head e h
  | LRemove e => klist_rm e h
  end.
Definition list_spec (l : list Z) (op : list_op) : list Z :=
  match op with
  | LAppend e => l ++ [e]
  | LPrepend e => e :: l
  | LInsert stop e => insert_where stop e l
  | LRemove e => remove_addr e l
  end.
Definition list_ok (head : Z) (l : list Z) (op : list_op) : bool :=
  match op with
  | LAppend e | LPrepend e | LInsert _ e => bool_decide (e ∉ head :: l)
  | LRemove e => bool_decide (e ∈ l)
  end.

Fixpoint list_runs (head : Z) (fuel : nat) (h : gmap Z klist_t) (l : list Z) (ops : list list_op) : option (gmap Z klist_t * list Z) :=
  match ops with
  | [] => Some (h, l)
  | op :: ops => if list_ok head l op then list_runs head fuel (list_run head fuel h op) (list_spec l op) ops else None
  end.

Lemma list_step head fuel h l op :
  ring h (head :: l) -> list_ok head l op = true -> (length l <= fuel)%nat ->
  ring (list_run head fuel h op) (head :: list_spec l op) /\ (length (list_spec l op) <= S (length l))%nat.
Proof.
  intros Hr Hok Hf. destruct op as [e|e|stop e|e]; simpl in *; apply bool_decide_eq_true in Hok.
  - split; [by apply klist_insert_ring|]. rewrite length_app. simpl. lia.
  - split; [by apply klist_add_ring|done].
  - split; [by apply klist_walk_insert_ring|]. by rewrite (insert_where_Permutation stop e l).
  - apply list_elem_of_split in Hok as (l1 & l2 & ->). destruct Hr as [Hd Hs].
    assert ((e ∉ l1) /\ (e ∉ l2)) as [H1 H2].
    { apply NoDup_cons in Hd as [_ Hd]. rewrite <- Permutation_middle in Hd. apply NoDup_cons in Hd as [Hn _]. set_solver. }
    rewrite remove_addr_middle by done. split; [by apply klist_rm_ring|]. rewrite !length_app. simpl. lia.
Qed.

(** C17: A ring with a sentinel, as the kernel's lists are, behaves as a list: from
    [klist_init], any sequence of [klist_insert], [klist_add], ordered insertions and
    [klist_rm] on elements that are (not) linked leaves a well-formed ring that holds
    exactly the elements of the list, in order. *)
Theorem klist_refines_list head fuel ops h h' l :
  list_runs head fuel (klist_init head h) [] ops = Some (h', l) -> (length ops <= fuel)%nat ->
  ring h' (head :: l) /\ is_klist_empty head h' = bool_decide (l = []).
Proof.
  intros Hrun Hf.
  assert (forall ops h l0, ring h (head :: l0) -> (length l0 + length ops <= fuel)%nat ->
    list_runs head fuel h l0 ops = Some (h', l) -> ring h' (head :: l)) as Hgen.
  { clear. induction ops as [|op ops IH]; intros h l0 Hr Hf Hrun; cbn [list_runs] in Hrun; [by simplify_eq|].
    destruct (list_ok head l0 op) eqn:Hok; [|done]. simpl in Hf.
    destruct (list_step head fuel h l0 op Hr Hok ltac:(lia)) as [Hr' Hl']. eapply IH; [done|lia|done]. }
  assert (ring h' (head :: l)) as Hr.
  { eapply Hgen; [apply klist_init_ring| |exact Hrun]. simpl. lia. }
  split; [done|]. by apply is_klist_empty_ring.
Qed.

Definition demo_list : list list_op := [LAppend 20; LAppend 30; LPrepend 10; LInsert (fun x => 25 <? x) 25; LRemove 20].
Definition demo_list_end : gmap Z klist_t := (default (∅, []) (list_runs 1 5 (klist_init 1 ∅) [] demo_list)).1.

Lemma klist_refines_list_witness :
  ring demo_list_end [1; 10; 25; 30] /\ is_klist_empty 1 demo_list_end = bool_decide ([10; 25; 30] = []).
Proof. apply (klist_refines_list 1 5 demo_list ∅ demo_list_end [10; 25; 30]); [vm_compute; reflexivity|simpl; lia]. Defined.

(** ** The ready queue as a map *)
Inductive rq_op := QHead (t p : Z) | QTail (t p : Z) | QAdd (t p ap : Z) | QRm (t : Z) | QRotate (p : Z).

Implicit Types (rq : runqueue_t) (m : gmap Z Z).

Definition rq_run rq m (op : rq_op) : runqueue_t :=
  match op with
  | QHead t p => ready_list_add_head rq t p
  | QTail t p => ready_list_add_tail rq t p
  | QAdd t p ap => ready_list_add rq t p ap
  | QRm t => (ready_list_rm rq t (m !!! t)).1
  | QRotate p => ready_list_head_to_tail rq p
  end.
Definition rq_spec m (op : rq_op) : gmap Z Z :=
  match op with
  | QHead t p | QTail t p | QAdd t p _ => <[t := p]> m
  | QRm t => delete t m
  | QRotate _ => m
  end.
(** The idle task never leaves the queue, so a removal never empties it. *)
Definition rq_ok m (op : rq_op) : bool :=
  match op with
  | QHead t p | QTail t p | QAdd t p _ => bool_decide (m !! t = None) && (0 <=? p) && (p <? RHINO_CONFIG_PRI_MAX)
  | QRm t => bool_decide (m !! t <> None) && negb (bool_decide (delete t m = ∅))
  | QRotate _ => true
  end.

Fixpoint rq_runs rq m (ops : list rq_op) : option (runqueue_t * gmap Z Z) :=
  match ops with
  | [] => Some (rq, m)
  | op :: ops => if rq_ok m op then rq_runs (rq_run rq m op) (rq_spec m op) ops else None
  end.

Lemma rq_step_rep rq m op : rq_rep rq m -> rq_ok m op = true -> rq_rep (rq_run rq m op) (rq_spec m op).
Proof.
  intros Hr Hok. destruct op as [t p|t p|t p ap|t|p]; simpl in *;
    rewrite ?andb_true_iff, ?negb_true_iff, ?bool_decide_eq_true, ?bool_decide_eq_false in Hok.
  - apply ready_list_add_head_rep; [done|tauto|lia].
  - apply ready_list_add_tail_rep; [done|tauto|lia].
  - apply ready_list_add_rep; [done|tauto|lia].
  - destruct Hok as [Hin Hne]. destruct (m !! t) as [p|] eqn:E; [|done]. rewrite (lookup_total_correct _ _ _ E).
    by apply ready_list_rm_rep.
  - by apply ready_list_head_to_tail_rep.
Qed.

(** C18: The ready queue: from [runqueue_init], any sequence of insertions, removals and
    rotations keeps the lists, the bitmap and [highest_pri] in agreement with the map
    of queued tasks, and the preferred task is queued with the most urgent priority. *)
Theorem ready_queue_refines_map rq0 ops rq m :
  task_bit_map rq0 = [0; 0] -> rq_runs (runqueue_init rq0) ∅ ops = Some (rq, m) ->
  rq_rep rq m /\
  (m <> ∅ -> exists p, m !! preferred_cpu_ready_task_get rq = Some p /\ forall t q, m !! t = Some q -> p <= q).
Proof.
  intros Hb Hrun.
  assert (forall ops rq1 m1, rq_rep rq1 m1 -> rq_runs rq1 m1 ops = Some (rq, m) -> rq_rep rq m) as Hgen.
  { clear. induction ops as [|op ops IH]; intros rq1 m1 Hr Hrun; cbn [rq_runs] in Hrun; [by simplify_eq|].
    destruct (rq_ok m1 op) eqn:Hok; [|done]. eapply IH, Hrun. by apply rq_step_rep. }
  assert (rq_rep rq m) as Hr by (eapply Hgen, Hrun; by apply runqueue_init_rep).
  split; [done|]. by apply preferred_highest.
Qed.

Definition demo_rq0 : runqueue_t := {| cur_list_item := ∅; task_bit_map := [0; 0]; highest_pri := 0 |}.
Definition demo_rq : list rq_op := [QTail 1000 61; QTail 1 20; QHead 2 20; QAdd 3 5 20; QRm 3; QRotate 20].
Definition demo_rq_end : runqueue_t * gmap Z Z := default (demo_rq0, ∅) (rq_runs (runqueue_init demo_rq0) ∅ demo_rq).

Lemma ready_queue_refines_map_witness :
  rq_rep demo_rq_end.1 demo_rq_end.2 /\
  (demo_rq_end.2 <> ∅ -> exists p, demo_rq_end.2 !! preferred_cpu_ready_task_get demo_rq_end.1 = Some p /\
     forall t q, demo_rq_end.2 !! t = Some q -> p <= q).
Proof. apply (ready_queue_refines_map demo_rq0 demo_rq); [reflexivity|vm_compute; reflexivity]. Defined.
