(* ===== verification/Effects.v ===== *)
(** * What the calls do

    The functional contracts of the kernel calls, beyond the invariant they preserve:
    execution context, semaphores, mutex hand-over, suspension. *)
From S2P Require Import Prelude Bitmap KTypes RunQueue RingBuf Kernel Pend Alloc Task Sem Mutex Queue Event MmBlk Timer Workqueue TaskDyn Sys.
From S2P Require Import Invariant InvPend PriInherit KInv ApiInv MutexInv TaskInv TaskApiInv TaskDelInv Cx Reach Boot Safety.
Import MsgQueue BufQueue RefAlloc.
Local Open Scope Z_scope.

Implicit Types (s : kstate) (t u w m o : Z) (k : ktask_t).

(** ** Shared lemmas *)

(** The scheduler only writes the preferred and the active task. *)
Lemma exit_sched_shape b s :
  exists a p, RHINO_CRITICAL_EXIT_SCHED b s = s <| intrpt_masked := b |> <| g_active_task := a |> <| g_preferred_ready_task := p |>.
Proof.
  unfold RHINO_CRITICAL_EXIT_SCHED, core_sched, RHINO_CPU_INTRPT_ENABLE, RHINO_CPU_INTRPT_DISABLE; cbv beta iota zeta.
  destruct (0 <? g_intrpt_nested_level _); [by eexists (g_active_task s), (g_preferred_ready_task s)|].
  destruct (0 <? g_sched_lock _); [by eexists (g_active_task s), (g_preferred_ready_task s)|].
  set (q := preferred_cpu_ready_task_get (g_ready_queue s)).
  match goal with |- context [if ?c then _ else _] => destruct c end; [exists (g_active_task s), q|exists q, q]; reflexivity.
Qed.

Lemma in_intrpt_mask s b : in_intrpt (s <| intrpt_masked := b |>) = in_intrpt s. Proof. done. Qed.

(** Replace the scheduling exit by its effect. *)
Ltac open_exit :=
  match goal with
  | |- context [RHINO_CRITICAL_EXIT_SCHED ?b ?s] =>
      let a := fresh "a" in let p := fresh "p" in let E := fresh "E" in
      destruct (exit_sched_shape b s) as (a & p & E); rewrite E; clear E
  end.

(** A woken waiter, in the terms of [pend_end_eq]. *)
Lemma woken idle s o w r :
  kwf idle s -> blk_list (blk_of s o) = w :: r ->
  exists k, tasks s !! w = Some k /\ is_pending k = true /\ blk_obj k = o.
Proof. intros H E. apply (kwf_blocked idle); [done|]. rewrite E. by left. Qed.

(** ** Execution context *)



(** While an interrupt is served or the scheduler is locked, no kernel call of a
    task or handler switches tasks, changes the lock or the nesting level. *)
Theorem no_switch_when_locked c s :
  changes_ctx c = false -> deletes_idle c s = false -> lock_room c s = true ->
  0 < g_intrpt_nested_level s \/ 0 < g_sched_lock s ->
  g_active_task (kcall_run c s) = g_active_task s /\ g_sched_lock (kcall_run c s) = g_sched_lock s /\
  g_intrpt_nested_level (kcall_run c s) = g_intrpt_nested_level s.
Proof.
  intros Hc Hd Hl Hor. pose proof (returns_stays _ _ (kcall_returns c s Hc Hd Hl) Hor) as E. unfold cx in E. by injection E as _ -> -> ->.
Qed.

Lemma no_switch_when_locked_witness :
  let s := (krhino_sched_disable Demo.state).2 in
  g_active_task (kcall_run (C_mutex_unlock 50) s) = g_active_task s /\
  g_sched_lock (kcall_run (C_mutex_unlock 50) s) = g_sched_lock s /\
  g_intrpt_nested_level (kcall_run (C_mutex_unlock 50) s) = g_intrpt_nested_level s.
Proof.
  apply (no_switch_when_locked (C_mutex_unlock 50) (krhino_sched_disable Demo.state).2); [reflexivity|vm_compute; reflexivity|reflexivity|].
  right. vm_compute. reflexivity.
Defined.

(** [krhino_task_del] of a task with the idle priority, outside interrupts, returns
    [RHINO_TASK_DEL_NOT_ALLOWED] and leaves interrupts masked. *)
Theorem task_del_idle_masks t s :
  in_intrpt s = false -> t <> NULL -> prio (task_of s t) = RHINO_IDLE_PRI ->
  (krhino_task_del t s).1 = RHINO_TASK_DEL_NOT_ALLOWED /\ intrpt_masked (krhino_task_del t s).2 = true.
Proof.
  intros Hi Ht Hp. unfold krhino_task_del, RHINO_CRITICAL_ENTER, RHINO_CPU_INTRPT_DISABLE; cbv beta iota.
  rewrite in_intrpt_mask, Hi. cbv zeta. rewrite (proj2 (Z.eqb_neq _ _) Ht).
  change (task_of (s <| intrpt_masked := true |>) t) with (task_of s t). by rewrite Hp, Z.eqb_refl.
Qed.

Lemma task_del_idle_masks_witness :
  intrpt_masked Demo.state = false /\
  (krhino_task_del 1000 Demo.state).1 = RHINO_TASK_DEL_NOT_ALLOWED /\ intrpt_masked (krhino_task_del 1000 Demo.state).2 = true.
Proof. split; [vm_compute; reflexivity|]. apply (task_del_idle_masks 1000 Demo.state); [vm_compute; reflexivity|discriminate|vm_compute; reflexivity]. Defined.

(** A caller that blocked: it is pending on the object, another task runs, and its
    timeout, if any, has just started. *)
Definition blocked_on o t (ticks : Z) s : Prop :=
  task_state (task_of s t) = K_PEND /\ t ∈ blk_list (blk_of s o) /\ g_active_task s <> t /\
  (ticks = RHINO_WAIT_FOREVER \/ (t ∈ g_tick_head s /\ ticks_left s t = ticks)).

Lemma block_result idle s o t k ticks b :
  kwf idle s -> tasks s !! t = Some k -> task_state k = K_RDY -> t <> idle -> u32 ticks -> ticks <> RHINO_NO_WAIT ->
  g_sys_stat s = RHINO_RUNNING -> g_intrpt_nested_level s = 0 ->
  let s' := RHINO_CRITICAL_EXIT_SCHED b (pend_to_blk_obj o t ticks s) in
  kinv idle s' -> blocked_on o t ticks s' /\ sems s' = sems s /\ mutexes s' = mutexes s /\
    queues s' = queues s /\ buf_queues s' = buf_queues s /\ events s' = events s /\
    obj_type (blk_of s' o) = obj_type (blk_of s o) /\ task_of s' t = pended o ticks (g_tick_count s) k.
Proof.
  intros H Ht Hr Hid Hto Hnz Hrun Hn s' Hk'.
  assert (task_state (task_of s' t) = K_PEND /\ t ∈ blk_list (blk_of s' o) /\
    (ticks = RHINO_WAIT_FOREVER \/ (t ∈ g_tick_head s' /\ ticks_left s' t = ticks)) /\
    g_sys_stat s' = RHINO_RUNNING /\ g_intrpt_nested_level s' = 0 /\ sems s' = sems s /\ mutexes s' = mutexes s /\
    queues s' = queues s /\ buf_queues s' = buf_queues s /\ events s' = events s /\
    obj_type (blk_of s' o) = obj_type (blk_of s o) /\ task_of s' t = pended o ticks (g_tick_count s) k)
    as (E1 & E2 & E3 & E4 & E5 & E6 & E7 & E8 & E9 & E10 & E11 & E12).
  { unfold s'. rewrite (pend_to_blk_obj_eq idle s t k) by done. open_exit. unfold task_of, blk_of, ticks_left, task_of; rsimpl.
    rewrite !lookup_total_insert_eq. split_and!; try reflexivity; [| |exact Hrun|exact Hn].
    - unfold linked; rsimpl. destruct (blk_policy _); [apply elem_of_insert_where; by left|]. apply elem_of_app. right. by left.
    - unfold pended, timed. destruct (Z.eqb_spec ticks RHINO_WAIT_FOREVER) as [->|Hf]; [by left|right].
      cbn [negb andb]. rewrite (proj2 (Z.ltb_lt _ _)) by (unfold u32, RHINO_NO_WAIT in *; lia).
      split; [apply elem_of_insert_where; by left|]. unfold with_timeout; rsimpl.
      rewrite wrap32_sub_l. replace (g_tick_count s + ticks - g_tick_count s) with ticks by lia. by apply wrap32_small. }
  clearbody s'. unfold blocked_on. split_and!; try assumption.
  destruct (kinv_active idle s' Hk' E4 (or_introl E5)) as (ka & Hka & Hra).
  intros Ea. rewrite Ea in Hka. rewrite (task_of_Some _ _ _ Hka) in E1. congruence.
Qed.

(** ** Semaphores *)

(** What a waiter's wait has become once it is woken with result [st]: it is ready, or
    still suspended if it was suspended while waiting, and waits for nothing. *)
Definition wait_over (st : blk_state_t) (k k' : ktask_t) : Prop :=
  task_state k' = (if decide (task_state k = K_PEND) then K_RDY else K_SUSPENDED) /\
  blk_state k' = st /\ blk_obj k' = NULL /\ tick_head k' = false /\ prio k' = prio k.

Lemma wait_over_unpend st k : wait_over st k (unpend st k).
Proof. by split_and!. Qed.

(** The state after the first waiter [w] of [o] is woken. *)
Lemma wake_first idle st s o w r :
  kwf idle s -> blk_list (blk_of s o) = w :: r ->
  let s' := pend_end st w s in
  blk_list (blk_of s' o) = r /\ (forall u, u <> w -> task_of s' u = task_of s u) /\
  wait_over st (task_of s w) (task_of s' w) /\ (w ∉ g_tick_head s') /\ sems s' = sems s /\ mutexes s' = mutexes s.
Proof.
  intros H E. destruct (woken idle s o w r H E) as (k & Hk & Hp & Ho). cbv zeta.
  split; [by eapply pend_end_list|]. rewrite (pend_end_eq idle s w k) by done. unfold task_of; rsimpl.
  split_and!.
  - intros u Hu. by rewrite lookup_total_insert_ne.
  - rewrite lookup_total_insert_eq, (lookup_total_Some _ _ _ Hk). apply wait_over_unpend.
  - rewrite elem_of_remove_addr. by intros [].
  - done.
  - done.
Qed.

(** [krhino_sem_give], exactly: with waiters, the first one (the most urgent) gets
    the unit and becomes ready, and the count does not change; without waiters the
    count grows by one, or the call fails with [RHINO_SEM_OVF] at the maximum. *)
Theorem sem_give_exact idle s sem :
  kinv idle s -> sem <> NULL -> obj_type (blk_of s sem) = RHINO_SEM_OBJ_TYPE ->
  0 <= count (sem_of s sem) <= SEM_COUNT_MAX ->
  let '(ret, s') := krhino_sem_give sem s in
  match blk_list (blk_of s sem) with
  | w :: r => ret = RHINO_SUCCESS /\ blk_list (blk_of s' sem) = r /\ wait_over BLK_FINISH (task_of s w) (task_of s' w) /\
              sems s' = sems s
  | [] => (ret = RHINO_SUCCESS /\ count (sem_of s sem) < SEM_COUNT_MAX /\ count (sem_of s' sem) = count (sem_of s sem) + 1 /\
           tasks s' = tasks s) \/
          (ret = RHINO_SEM_OVF /\ count (sem_of s sem) = SEM_COUNT_MAX /\ sems s' = sems s /\ tasks s' = tasks s)
  end.
Proof.
  intros Hk Hn Hty Hc. unfold krhino_sem_give, sem_give. rewrite (proj2 (Z.eqb_neq _ _) Hn). kenter idle s.
  change (blk_of s1 sem) with (blk_of s sem). change (sem_of s1 sem) with (sem_of s sem).
  rewrite decide_False by (by intros []). destruct (blk_list (blk_of s sem)) as [|w r] eqn:El.
  - destruct (Z.eqb_spec (count (sem_of s sem)) SEM_COUNT_MAX) as [E|E]; [by right|left].
    unfold RHINO_CRITICAL_EXIT, RHINO_CPU_INTRPT_ENABLE. split_and!; [done|lia| |].
    + assert (wrap32 (count (sem_of s sem) + 1) = count (sem_of s sem) + 1) as Ew
        by (apply wrap32_small; unfold u32, SEM_COUNT_MAX in *; lia).
      match goal with |- context [if ?c then _ else _] => destruct c end; unfold upd_sem, sem_of; rsimpl;
        rewrite ?lookup_total_insert_eq; rsimpl; exact Ew.
    + match goal with |- context [if ?c then _ else _] => destruct c end; reflexivity.
  - cbn [WAKE_ONE_SEM]. cbv zeta iota.
    destruct (wake_first idle BLK_FINISH s1 sem w r) as (E1 & _ & E3 & _ & E5 & _); [apply Hk1|done|].
    change pend_task_wakeup with (pend_end BLK_FINISH). set (s2 := pend_end BLK_FINISH w s1) in *. clearbody s2.
    open_exit. split_and!; [done|exact E1|exact E3|exact E5].
Qed.

(** [krhino_sem_take] by the running task, exactly: a positive count is decremented;
    otherwise the call fails when it must not block, and else the caller blocks on the
    semaphore with its timeout, another task runs, and the count stays. *)
Theorem sem_take_exact idle s sem ticks :
  kinv idle s -> task_ctx idle s -> in_intrpt s = false -> sem <> NULL -> obj_type (blk_of s sem) = RHINO_SEM_OBJ_TYPE ->
  0 <= count (sem_of s sem) <= SEM_COUNT_MAX -> u32 ticks ->
  let '(ret, s') := krhino_sem_take sem ticks s in
  if 0 <? count (sem_of s sem) then
    ret = Some RHINO_SUCCESS /\ count (sem_of s' sem) = count (sem_of s sem) - 1 /\ tasks s' = tasks s
  else if ticks =? RHINO_NO_WAIT then ret = Some RHINO_NO_PEND_WAIT /\ sems s' = sems s /\ tasks s' = tasks s
  else if 0 <? g_sched_lock s then ret = Some RHINO_SCHED_DISABLE /\ sems s' = sems s /\ tasks s' = tasks s
  else ret = None /\ sems s' = sems s /\ blocked_on sem (g_active_task s) ticks s'.
Proof.
  intros Hk Hc Hi Hn Hty Hct Hto. destruct (running_task idle s Hk Hc Hi) as (k & Ht & Hr & Hid).
  pose proof (krhino_sem_take_kinv idle s sem ticks Hk Hc Hto) as Hk'. revert Hk'.
  unfold krhino_sem_take. rewrite (proj2 (Z.eqb_neq _ _) Hn). kenter idle s. cbv zeta.
  change (blk_of s1 sem) with (blk_of s sem). change (sem_of s1 sem) with (sem_of s sem).
  change (in_intrpt s1) with (in_intrpt s). rewrite Hi, decide_False by (by intros []).
  destruct (0 <? count (sem_of s sem)) eqn:E0.
  - intros _. split_and!; [done| |done]. unfold RHINO_CRITICAL_EXIT, RHINO_CPU_INTRPT_ENABLE, upd_sem, sem_of; rsimpl. rewrite lookup_total_insert_eq; rsimpl.
    apply wrap32_small. unfold sem_of, u32, SEM_COUNT_MAX in *. lia.
  - change (g_sched_lock s1) with (g_sched_lock s). destruct (ticks =? RHINO_NO_WAIT) eqn:E1; [done|].
    destruct (0 <? g_sched_lock s) eqn:E2; [done|]. cbn [snd]. change (g_active_task s1) with (g_active_task s).
    intros Hk'. pose proof (kb_nest (proj1 Hk)). unfold in_intrpt in Hi.
    destruct (block_result idle s1 sem (g_active_task s) k ticks _ (kb_wf (proj1 Hk1)) Ht Hr Hid Hto ltac:(lia)
      (proj1 Hc) ltac:(change (g_intrpt_nested_level s1) with (g_intrpt_nested_level s); lia) Hk') as (B & E & _). done.
Qed.

Lemma sem_give_exact_witness :
  let '(ret, s') := krhino_sem_give 60 Demo.state in
  match blk_list (blk_of Demo.state 60) with
  | w :: r => ret = RHINO_SUCCESS /\ blk_list (blk_of s' 60) = r /\ wait_over BLK_FINISH (task_of Demo.state w) (task_of s' w) /\
              sems s' = sems Demo.state
  | [] => (ret = RHINO_SUCCESS /\ count (sem_of Demo.state 60) < SEM_COUNT_MAX /\
           count (sem_of s' 60) = count (sem_of Demo.state 60) + 1 /\ tasks s' = tasks Demo.state) \/
          (ret = RHINO_SEM_OVF /\ count (sem_of Demo.state 60) = SEM_COUNT_MAX /\ sems s' = sems Demo.state /\ tasks s' = tasks Demo.state)
  end.
Proof.
  apply (sem_give_exact (env 1000 1) Demo.state 60).
  - exact (reached_kinv Demo.addrs Demo.mem Demo.heap0 Demo.addrs_ok Demo.calls Demo.state Demo.reached_state).
  - discriminate.
  - vm_compute. reflexivity.
  - vm_compute. split; discriminate.
Defined.

Lemma sem_take_exact_witness :
  let '(ret, s') := krhino_sem_take 60 7 Demo.state in
  if 0 <? count (sem_of Demo.state 60) then
    ret = Some RHINO_SUCCESS /\ count (sem_of s' 60) = count (sem_of Demo.state 60) - 1 /\ tasks s' = tasks Demo.state
  else if 7 =? RHINO_NO_WAIT then ret = Some RHINO_NO_PEND_WAIT /\ sems s' = sems Demo.state /\ tasks s' = tasks Demo.state
  else if 0 <? g_sched_lock Demo.state then ret = Some RHINO_SCHED_DISABLE /\ sems s' = sems Demo.state /\ tasks s' = tasks Demo.state
  else ret = None /\ sems s' = sems Demo.state /\ blocked_on 60 (g_active_task Demo.state) 7 s'.
Proof.
  apply (sem_take_exact (env 1000 1) Demo.state 60 7).
  - exact (reached_kinv Demo.addrs Demo.mem Demo.heap0 Demo.addrs_ok Demo.calls Demo.state Demo.reached_state).
  - apply task_ctxb_ok. vm_compute. reflexivity.
  - vm_compute. reflexivity.
  - discriminate.
  - vm_compute. reflexivity.
  - vm_compute. split; discriminate.
  - unfold u32. lia.
Defined.
