(* ===== verification/MutexEffects.v ===== *)
(** * Mutexes: what lock, unlock and deletion of an owner do

    Locking a free mutex, nested locking, blocking with inheritance; unlocking and
    the hand-over to the most urgent waiter; what deleting a task does to the mutexes
    it owns. *)
From S2P Require Import Prelude Bitmap KTypes RunQueue RingBuf Kernel Pend Alloc Task Sem Mutex Queue Event MmBlk Timer Workqueue TaskDyn Sys.
From S2P Require Import Invariant InvPend PriInherit KInv ApiInv MutexInv TaskInv TaskApiInv TaskDelInv Reach Boot Safety Effects.
Import RefAlloc.
Local Open Scope Z_scope.

Implicit Types (s : kstate) (t u w m o : Z) (k : ktask_t).

(** ** Releasing touches no other task *)
Definition own_link t (l : mutex_link) : Prop := match l with LinkTask u => u = t | LinkMutex _ => True end.

Lemma look_loop_other fuel prev t rel p q s w :
  own_link t prev -> w <> t ->
  let s' := (mutex_pri_look_loop fuel prev rel p q s).2 in
  task_of s' w = task_of s w /\ task_state (task_of s' t) = task_state (task_of s t).
Proof.
  revert prev p q s. induction fuel as [|fuel IH]; intros prev p q s Hl Hw; [done|]. cbn [mutex_pri_look_loop].
  destruct (_ =? NULL); [done|]. destruct (_ =? rel); [|by apply IH].
  destruct (IH prev p q (write_link prev (mutex_next (mutex_of s (read_link prev s))) s) Hl Hw) as [E1 E2].
  cbv zeta. rewrite E1, E2. destruct prev as [u|o]; [simpl in Hl; subst u|done]. cbn [write_link].
  by rewrite task_of_upd, task_of_upd_ne.
Qed.

Lemma set_prio_other t p s w : task_state (task_of s t) = K_RDY -> w <> t -> task_of (set_prio t p s) w = task_of s w.
Proof.
  intros Hr Hw. unfold set_prio. rewrite Hr. unfold k_ready_list_rm, k_ready_list_add_head, k_ready_list_add_tail.
  destruct (ready_list_rm _ _ _) as [rq [e|]]; cbv zeta;
    match goal with |- context [if ?c then _ else _] => destruct c end; unfold task_of, upd_task, k_err_proc; rsimpl;
    by rewrite lookup_total_insert_ne by auto.
Qed.

Lemma release_other t m s w :
  task_state (task_of s t) = K_RDY -> w <> t -> task_of (mutex_release t m s) w = task_of s w.
Proof.
  intros Hr Hw. unfold mutex_release, mutex_pri_look.
  destruct (look_loop_other (mutex_fuel s) (LinkTask t) t m (b_prio (task_of s t)) (b_prio (task_of s t)) s w eq_refl Hw)
    as [E1 E2].
  destruct (mutex_pri_look_loop _ _ _ _ _ _) as [p s1]. cbn [snd] in *.
  destruct (Z.eqb_spec p (prio (task_of s1 t))) as [|Hne]; [done|]. cbn [negb].
  rewrite task_pri_change_ready, set_prio_other by (congruence || done). done.
Qed.

(** ** Unlocking *)

(** The rest of [krhino_mutex_unlock] once the mutex is released. *)
Lemma hand_over idle s m t k w r b :
  kinv idle s -> owner s m t -> tasks s !! t = Some k -> task_state k = K_RDY ->
  blk_list (blk_of s m) = w :: r ->
  blk_list (blk_of (mutex_release t m s) m) = w :: r /\
  let s' := RHINO_CRITICAL_EXIT_SCHED b (upd_mutex m (fun mm => mm <| owner_nested := 1 |>)
              (acquire m w (pend_task_wakeup w (mutex_release t m s)))) in
  mutex_task (mutex_of s' m) = w /\ owner_nested (mutex_of s' m) = 1 /\ blk_list (blk_of s' m) = r /\
  wait_over BLK_FINISH (task_of s w) (task_of s' w).
Proof.
  intros [Hb Hs] Ho Hk Hr El. change pend_task_wakeup with (pend_end BLK_FINISH).
  destruct (unlock_release idle s m t k Hb Ho Hk Hr) as (_ & Hsb & _ & _ & Ebl & _).
  assert (w <> t) as Hwt.
  { intros ->. destruct (woken idle s m t r (kb_wf Hb) El) as (k' & Hk' & Hp & _). rewrite Hk in Hk'. injection Hk' as <-.
    by rewrite (ready_not_pending _ Hr) in Hp. }
  pose proof (release_other t m s w ltac:(by rewrite (task_of_Some _ _ _ Hk)) Hwt) as Ew.
  set (sb := mutex_release t m s) in *.
  assert (blk_list (blk_of sb m) = w :: r) as Elb by (unfold blk_of in *; by rewrite Ebl).
  split; [done|]. cbv zeta. destruct (wake_first idle BLK_FINISH sb m w r Hsb Elb) as (E1 & _ & E3 & _).
  destruct (woken idle sb m w r Hsb Elb) as (kw & Hkw & Hp & _).
  assert (exists kd, tasks (pend_end BLK_FINISH w sb) !! w = Some kd) as [kd Hkd].
  { rewrite (pend_end_eq idle sb w kw) by done. rsimpl. rewrite lookup_insert_eq. eauto. }
  rewrite Ew in E3. set (sd := pend_end BLK_FINISH w sb) in *.
  destruct (acquire_eq sd m w kd Hkd) as (Et & Em & Eb & _ & _). set (sc := acquire m w sd) in *. clearbody sc.
  open_exit. unfold mutex_of, blk_of, task_of in *. unfold upd_mutex; rsimpl. rewrite !lookup_total_insert_eq, Em, Eb, Et.
  rewrite !lookup_total_insert_eq. split_and!; [done|done|exact E1|].
  rewrite (lookup_total_Some _ _ _ Hkd) in E3. exact E3.
Qed.

(** C12: [krhino_mutex_unlock] by the running task, exactly: only the owner may unlock;
    a nested lock is undone; the last unlock frees the mutex, or hands it to the first
    waiter, the most urgent one, which owns it once and becomes ready. *)
Theorem mutex_unlock_exact idle s m :
  kinv idle s -> task_ctx idle s -> in_intrpt s = false -> m <> NULL -> obj_type (blk_of s m) = RHINO_MUTEX_OBJ_TYPE ->
  1 <= owner_nested (mutex_of s m) <= MUTEX_NESTED_MAX ->
  let '(ret, s') := krhino_mutex_unlock m s in
  if negb (g_active_task s =? mutex_task (mutex_of s m)) then
    ret = RHINO_MUTEX_NOT_RELEASED_BY_OWNER /\ tasks s' = tasks s /\ mutexes s' = mutexes s
  else if 1 <? owner_nested (mutex_of s m) then
    ret = RHINO_MUTEX_OWNER_NESTED /\ tasks s' = tasks s /\ mutex_task (mutex_of s' m) = g_active_task s /\
    owner_nested (mutex_of s' m) = owner_nested (mutex_of s m) - 1
  else ret = RHINO_SUCCESS /\
    match blk_list (blk_of s m) with
    | [] => mutex_task (mutex_of s' m) = NULL
    | w :: r => mutex_task (mutex_of s' m) = w /\ owner_nested (mutex_of s' m) = 1 /\ blk_list (blk_of s' m) = r /\
                wait_over BLK_FINISH (task_of s w) (task_of s' w)
    end.
Proof.
  intros Hk Hc Hi Hm Hty Hn. unfold krhino_mutex_unlock. rewrite (proj2 (Z.eqb_neq _ _) Hm).
  destruct (decide (g_sys_stat s = RHINO_STOPPED)) as [E|_]; [by rewrite (proj1 Hc) in E|]. kenter idle s.
  change (in_intrpt s1) with (in_intrpt s). change (blk_of s1 m) with (blk_of s m). rewrite Hi, decide_False by (by intros []).
  change (g_active_task s1) with (g_active_task s). change (mutex_of s1 m) with (mutex_of s m).
  destruct (Z.eqb_spec (g_active_task s) (mutex_task (mutex_of s m))) as [Eo|Eo]; cbn [negb]; [|done]. cbv zeta.
  set (sa := upd_mutex m (fun mm => mm <| owner_nested ::= fun n => wrap32 (n - 1) |>) s1).
  assert (mutex_task (mutex_of sa m) = mutex_task (mutex_of s m) /\ owner_nested (mutex_of sa m) = owner_nested (mutex_of s m) - 1)
    as [Et En].
  { unfold sa, upd_mutex, mutex_of; rsimpl. rewrite lookup_total_insert_eq; rsimpl. split; [done|].
    apply wrap32_small. unfold u32, MUTEX_NESTED_MAX, mutex_of in *. lia. }
  rewrite En. destruct (Z.ltb_spec 1 (owner_nested (mutex_of s m))).
  { rewrite (proj2 (Z.ltb_lt _ _)) by lia. split_and!; [done|done| |exact En]. etrans; [exact Et|done]. }
  rewrite (proj2 (Z.ltb_ge _ _)) by lia. change (g_active_task sa) with (g_active_task s).
  destruct (running_task idle s Hk Hc Hi) as (k & Ht & Hr & Hid).
  assert (kinv idle sa) as Hka by (by apply kinv_nested).
  assert (owner sa m (g_active_task s)) as Ho.
  { split_and!; [done|by rewrite Et|]. exact (to_addr _ _ (kwf_task_ok _ _ _ _ (kb_wf (proj1 Hk)) Ht)). }
  change (blk_of s m) with (blk_of sa m). destruct (blk_list (blk_of sa m)) as [|w r] eqn:El.
  - destruct (unlock_release idle sa m _ k (proj1 Hka) Ho Ht Hr) as (_ & _ & _ & _ & Ebl & _).
    unfold blk_of. rewrite Ebl. fold (blk_of sa m). rewrite El. split; [done|].
    unfold RHINO_CRITICAL_EXIT, RHINO_CPU_INTRPT_ENABLE, upd_mutex, mutex_of; rsimpl. by rewrite lookup_total_insert_eq.
  - destruct (hand_over idle sa m _ k w r (intrpt_masked s) Hka Ho Ht Hr El) as [-> Hh]. split; [done|exact Hh].
Qed.

(** ** Locking *)

(** C11: [krhino_mutex_lock] by the running task, exactly: a free mutex is taken; the
    owner nests; otherwise the call fails when it must not block, and else the caller
    blocks on the mutex with its timeout and the owner is at least as urgent as it. *)
Theorem mutex_lock_exact idle s m ticks :
  kinv idle s -> task_ctx idle s -> in_intrpt s = false -> m <> NULL -> obj_type (blk_of s m) = RHINO_MUTEX_OBJ_TYPE ->
  0 <= owner_nested (mutex_of s m) <= MUTEX_NESTED_MAX -> u32 ticks ->
  let a := g_active_task s in
  let ow := mutex_task (mutex_of s m) in
  let '(ret, s') := krhino_mutex_lock m ticks s in
  if a =? ow then
    (ret = Some RHINO_MUTEX_OWNER_NESTED /\ mutex_task (mutex_of s' m) = a /\
     owner_nested (mutex_of s' m) = owner_nested (mutex_of s m) + 1) \/
    (ret = Some RHINO_MUTEX_NESTED_OVF /\ owner_nested (mutex_of s m) = MUTEX_NESTED_MAX /\ mutexes s' = mutexes s)
  else if ow =? NULL then
    ret = Some RHINO_SUCCESS /\ mutex_task (mutex_of s' m) = a /\ owner_nested (mutex_of s' m) = 1
  else if ticks =? RHINO_NO_WAIT then ret = Some RHINO_NO_PEND_WAIT /\ mutexes s' = mutexes s /\ tasks s' = tasks s
  else if 0 <? g_sched_lock s then ret = Some RHINO_SCHED_DISABLE /\ mutexes s' = mutexes s /\ tasks s' = tasks s
  else ret = None /\ mutexes s' = mutexes s /\ blocked_on m a ticks s' /\ prio (task_of s' ow) <= prio (task_of s' a).
Proof.
  intros Hk Hc Hi Hm Hty Hn Hto. destruct (running_task idle s Hk Hc Hi) as (k & Ht & Hr & Hid).
  pose proof (krhino_mutex_lock_kinv idle s m ticks Hk Hc Hto) as Hk'. revert Hk'.
  unfold krhino_mutex_lock. rewrite (proj2 (Z.eqb_neq _ _) Hm).
  destruct (decide (g_sys_stat s = RHINO_STOPPED)) as [E|_]; [by rewrite (proj1 Hc) in E|]. kenter idle s.
  change (in_intrpt s1) with (in_intrpt s). change (blk_of s1 m) with (blk_of s m). rewrite Hi, decide_False by (by intros []).
  cbv zeta. change (g_active_task s1) with (g_active_task s). change (mutex_of s1 m) with (mutex_of s m).
  change (g_sched_lock s1) with (g_sched_lock s).
  destruct (Z.eqb_spec (g_active_task s) (mutex_task (mutex_of s m))) as [Eo|Eo].
  { intros _. destruct (Z.eqb_spec (owner_nested (mutex_of s m)) MUTEX_NESTED_MAX) as [E|E]; [by right|left].
    unfold RHINO_CRITICAL_EXIT, RHINO_CPU_INTRPT_ENABLE, upd_mutex, mutex_of; rsimpl. rewrite lookup_total_insert_eq; rsimpl.
    split_and!; [done|done|]. apply wrap32_small. unfold u32, MUTEX_NESTED_MAX, mutex_of in *. lia. }
  destruct (Z.eqb_spec (mutex_task (mutex_of s m)) NULL) as [En|En].
  { intros _. unfold RHINO_CRITICAL_EXIT, RHINO_CPU_INTRPT_ENABLE, upd_task, upd_mutex, mutex_of; rsimpl.
    by rewrite !lookup_total_insert_eq. }
  destruct (ticks =? RHINO_NO_WAIT) eqn:E1; [done|]. destruct (0 <? g_sched_lock s) eqn:E2; [done|]. cbn [snd].
  destruct (inherit_spec idle s1 m k (proj1 Hk1) Hty En Ht) as (Hwi & F & _).
  match goal with |- context [pend_to_blk_obj m (g_active_task ?x)] => change x with (inherit s1 m) end.
  set (si := inherit s1 m) in *. rewrite (kf_active _ _ (pf_frame _ _ F)). change (g_active_task s1) with (g_active_task s).
  intros Hk'. pose proof (kb_nest (proj1 Hk)). unfold in_intrpt in Hi.
  pose proof (pri_frame_task _ _ _ _ F Ht) as Hti. set (ki := k <| prio := _ |>) in *.
  destruct (block_result idle si m (g_active_task s) ki ticks _ Hwi Hti Hr Hid Hto ltac:(lia)
    ltac:(rewrite (kf_sys _ _ (pf_frame _ _ F)); apply Hc)
    ltac:(rewrite (kf_nest _ _ (pf_frame _ _ F)); change (g_intrpt_nested_level s1) with (g_intrpt_nested_level s); lia) Hk')
    as (B & _ & Em & _ & _ & _ & Ety & _).
  set (s' := RHINO_CRITICAL_EXIT_SCHED _ _) in *. clearbody s'.
  assert (mutexes s' = mutexes s) as Em' by (by rewrite Em, (pf_mutexes _ _ F)).
  split_and!; [done|done|exact B|].
  assert (owner s' m (mutex_task (mutex_of s m))) as Ho.
  { unfold owner, mutex_of. rewrite Em', Ety, (pf_type _ _ F). done. }
  destruct (kb_pi (proj1 Hk')) as [Hps Hpp]. destruct (ps_owner Hps _ _ Ho) as (ko & Hko & Hao & _).
  destruct (Hpp _ _ Hko Hao id) as (_ & Hw & _). rewrite (task_of_Some _ _ _ Hko). apply Hw.
  exists m. split; [done|apply B].
Qed.

(** ** Deleting an owner *)

(** Priority changes and releases keep every task's state. *)
Lemma state_upd_prio t p s u : task_state (task_of (upd_task t (fun k => k <| prio := p |>) s) u) = task_state (task_of s u).
Proof. unfold task_of, upd_task; rsimpl. destruct (decide (u = t)) as [->|]; by rewrite ?lookup_total_insert_eq, ?lookup_total_insert_ne by auto. Qed.

Lemma state_rm t s u : task_state (task_of (k_ready_list_rm t s) u) = task_state (task_of s u).
Proof. unfold k_ready_list_rm. by destruct (ready_list_rm _ _ _) as [? [?|]]. Qed.

Lemma state_reorder t s u : task_state (task_of (pend_list_reorder t s) u) = task_state (task_of s u).
Proof. unfold pend_list_reorder. by destruct (blk_policy _). Qed.

Lemma state_look fuel l rel p q s u :
  task_state (task_of (mutex_pri_look_loop fuel l rel p q s).2 u) = task_state (task_of s u).
Proof.
  revert l p q s. induction fuel as [|fuel IH]; intros l p q s; [done|]. cbn [mutex_pri_look_loop].
  destruct (_ =? NULL); [done|]. destruct (_ =? rel); [|by apply IH]. rewrite IH. apply write_link_state.
Qed.

Lemma state_pri_step t p s u : task_state (task_of (task_pri_change_step t p s).1 u) = task_state (task_of s u).
Proof.
  unfold task_pri_change_step. destruct (negb _); [|done].
  assert (forall x, task_state (task_of (pend_list_reorder t (upd_task t (fun k => k <| prio := p |>) s)) x) = task_state (task_of s x)) as Er.
  { intros x. by rewrite state_reorder, state_upd_prio. }
  destruct (task_state (task_of s t)); cbv zeta; cbn [fst]; try (done || by rewrite state_upd_prio).
  - destruct (_ =? _); etrans; [apply state_upd_prio|apply state_rm|apply state_upd_prio|apply state_rm].
  - set (s1 := pend_list_reorder _ _) in *. case_decide; [|apply Er]. destruct (_ <? _); [apply Er|]. destruct (_ =? _); [|apply Er].
    unfold mutex_pri_look. match goal with |- context [mutex_pri_look_loop ?a ?b ?c ?d ?e s1] =>
      pose proof (state_look a b c d e s1 u) as El; destruct (mutex_pri_look_loop a b c d e s1) end.
    cbn [snd] in El. destruct (negb _); cbn [fst]; by rewrite El, Er.
  - set (s1 := pend_list_reorder _ _) in *. case_decide; [|apply Er]. destruct (_ <? _); [apply Er|]. destruct (_ =? _); [|apply Er].
    unfold mutex_pri_look. match goal with |- context [mutex_pri_look_loop ?a ?b ?c ?d ?e s1] =>
      pose proof (state_look a b c d e s1 u) as El; destruct (mutex_pri_look_loop a b c d e s1) end.
    cbn [snd] in El. destruct (negb _); cbn [fst]; by rewrite El, Er.
Qed.

Lemma state_pri_change n t p s u : task_state (task_of (task_pri_change_loop n t p s).2 u) = task_state (task_of s u).
Proof.
  revert t p s. induction n as [|n IH]; intros t p s; [done|]. cbn [task_pri_change_loop].
  pose proof (state_pri_step t p s u) as E. destruct (task_pri_change_step t p s) as [s' [t' p'|st]]; cbn [fst snd] in *; [|done].
  by rewrite IH.
Qed.

Lemma state_pri_reset t s u : task_state (task_of (mutex_task_pri_reset t s) u) = task_state (task_of s u).
Proof.
  unfold mutex_task_pri_reset. case_decide; [|done]. destruct (_ =? _); [|done]. unfold mutex_release, mutex_pri_look.
  match goal with |- context [mutex_pri_look_loop ?a ?b ?c ?d ?e s] =>
    pose proof (state_look a b c d e s u) as El; destruct (mutex_pri_look_loop a b c d e s) end.
  cbn [snd] in El. destruct (negb _); [|done]. unfold task_pri_change. by rewrite state_pri_change.
Qed.

Lemma del_lists_deleted t s s' : task_del_lists t s = Some s' -> task_state (task_of s' t) = K_DELETED.
Proof.
  unfold task_del_lists. destruct (task_state (task_of s t)); intros [= <-]; try (by rewrite task_of_upd);
    rewrite state_pri_reset; by rewrite task_of_upd.
Qed.

(** C15: A successful [krhino_task_del] leaves no trace of the task: its state is
    [K_DELETED], it owns no mutex, and no block list, tick list or ready queue holds it. *)
Theorem task_del_complete i s t :
  kinv (env i 1) s -> is_alive (task_of s t) = true -> t <> NULL ->
  (krhino_task_del t s).1 = RHINO_SUCCESS ->
  let s' := (krhino_task_del t s).2 in
  task_state (task_of s' t) = K_DELETED /\ (forall m, ~ owner s' m t) /\ (forall o, t ∉ blk_list (blk_of s' o)) /\
  (t ∉ g_tick_head s') /\ (forall p, t ∉ ready_list (g_ready_queue s') p).
Proof.
  intros Hk Ha Ht Hok s'.
  assert (kinv (env i 1) s') as [Hb _].
  { apply krhino_task_del_kinv; [done|]. unfold del_target. by rewrite (proj2 (Z.eqb_neq _ _) Ht). }
  assert (task_state (task_of s' t) = K_DELETED) as Ed.
  { revert Hok. unfold s', krhino_task_del, RHINO_CRITICAL_ENTER, RHINO_CPU_INTRPT_DISABLE; cbv beta iota zeta.
    rewrite (proj2 (Z.eqb_neq _ _) Ht). destruct (in_intrpt _); [done|]. destruct (_ =? RHINO_IDLE_PRI); [done|].
    destruct (negb _); [done|]. destruct (_ && _); [done|]. destruct (task_del_lists _ _) as [s2|] eqn:E; [|done]. intros _. cbn [snd].
    apply del_lists_deleted in E. open_exit. exact E. }
  clearbody s'. pose proof (kb_wf Hb) as H. split_and!; [done|..].
  - intros m Ho. destruct (ps_owner (proj1 (kb_pi Hb)) _ _ Ho) as (k & Hk' & Hal & _).
    rewrite (task_of_Some _ _ _ Hk') in Ed. unfold is_alive in Hal. by rewrite Ed in Hal.
  - intros o (k & Hk' & Hp & _)%(kwf_blocked _ _ _ _ H). rewrite (task_of_Some _ _ _ Hk') in Ed.
    unfold is_pending in Hp. by rewrite Ed in Hp.
  - intros Hin. destruct (kw_tick H) as [_ Te _]. apply Te in Hin as [d Hd]. apply abs_Some in Hd as (k & Hk' & Hdl).
    unfold deadline in Hdl. destruct (tick_head k) eqn:Eh; [|done].
    rewrite (task_of_Some _ _ _ Hk') in Ed. pose proof (to_tick _ _ (kwf_task_ok _ _ _ _ H Hk') Eh) as Hor.
    unfold is_sleeping, is_pending in Hor. rewrite Ed in Hor. by destruct Hor.
  - intros p Hin. apply (rr_elem _ _ (kw_rq H)), abs_Some in Hin as (k & Hk' & [Hr _]%rdy_prio_Some).
    rewrite (task_of_Some _ _ _ Hk') in Ed. congruence.
Qed.

Lemma free_loop_nested fuel h s m :
  owner_nested (mutex_of (task_mutex_free_loop fuel h s) m) = owner_nested (mutex_of s m).
Proof.
  revert h s. induction fuel as [|fuel IH]; intros h s; [done|]. cbn [task_mutex_free_loop].
  destruct (h =? NULL); [done|]. rewrite IH.
  assert (forall s0 f, (forall x, owner_nested (f x) = owner_nested x) ->
    owner_nested (mutex_of (upd_mutex h f s0) m) = owner_nested (mutex_of s0 m)) as Hu.
  { intros s0 f Hf. unfold mutex_of, upd_mutex; rsimpl.
    destruct (decide (m = h)) as [->|]; [by rewrite lookup_total_insert_eq|by rewrite lookup_total_insert_ne by auto]. }
  destruct (blk_list (blk_of s h)) as [|w r]; [by apply Hu|]. cbv zeta.
  match goal with |- context [upd_task ?a ?f ?x] => change (mutex_of (upd_task a f x) m) with (mutex_of x m) end.
  rewrite !Hu by done. unfold mutex_of. f_equal.
  assert (mutexes (pend_task_wakeup w s) = mutexes s) as ->; [|done].
  unfold pend_task_wakeup, pend_unblock. destruct (task_state _); unfold tick_list_rm; by destruct (tick_head _).
Qed.

(** When a task is deleted, its mutexes pass to their first waiters with the nesting
    depth the deleted task had reached: [task_mutex_free] changes no [owner_nested],
    where [krhino_mutex_unlock] sets it to one. *)
Theorem task_mutex_free_keeps_nesting t s m :
  owner_nested (mutex_of (task_mutex_free t s) m) = owner_nested (mutex_of s m).
Proof. apply free_loop_nested. Qed.

(** ** Witnesses and examples *)
Module MutexDemo.
(** Task 1 locks the mutex twice, task 2 waits for it, task 1 deletes itself. *)
Definition calls : list kcall := [
  C_task_create 1 1 0 20 0 1 64 1 1 K_OBJ_STATIC_ALLOC 0;
  C_task_create 2 1 0 10 0 1 64 1 0 K_OBJ_STATIC_ALLOC 0;
  C_mutex_create 50 1 K_OBJ_STATIC_ALLOC; C_start Demo.wq;
  C_queue_recv 1040 RHINO_WAIT_FOREVER false; C_sem_take 1010 RHINO_WAIT_FOREVER; C_sem_take 1066 RHINO_WAIT_FOREVER;
  C_mutex_lock 50 RHINO_WAIT_FOREVER; C_mutex_lock 50 RHINO_WAIT_FOREVER; C_task_resume 2;
  C_mutex_lock 50 RHINO_WAIT_FOREVER; C_task_del 1 ].

Definition state : kstate :=
  default kstate_zero (krun (env 1000 1) calls (krhino_init Demo.addrs Demo.mem Demo.heap0 kstate_zero).2).

(** The new owner, task 2, locked the mutex once, but its unlock only undoes a level. *)
Example stale_nesting :
  reached Demo.addrs Demo.mem Demo.heap0 calls state /\
  g_active_task state = 2 /\ mutex_task (mutex_of state 50) = 2 /\ owner_nested (mutex_of state 50) = 2 /\
  (krhino_mutex_unlock 50 state).1 = RHINO_MUTEX_OWNER_NESTED /\
  mutex_task (mutex_of (krhino_mutex_unlock 50 state).2 50) = 2.
Proof. vm_compute. split_and!; reflexivity. Qed.
End MutexDemo.

Lemma mutex_unlock_exact_witness :
  let '(ret, s') := krhino_mutex_unlock 50 Demo.state in
  if negb (g_active_task Demo.state =? mutex_task (mutex_of Demo.state 50)) then
    ret = RHINO_MUTEX_NOT_RELEASED_BY_OWNER /\ tasks s' = tasks Demo.state /\ mutexes s' = mutexes Demo.state
  else if 1 <? owner_nested (mutex_of Demo.state 50) then
    ret = RHINO_MUTEX_OWNER_NESTED /\ tasks s' = tasks Demo.state /\ mutex_task (mutex_of s' 50) = g_active_task Demo.state /\
    owner_nested (mutex_of s' 50) = owner_nested (mutex_of Demo.state 50) - 1
  else ret = RHINO_SUCCESS /\
    match blk_list (blk_of Demo.state 50) with
    | [] => mutex_task (mutex_of s' 50) = NULL
    | w :: r => mutex_task (mutex_of s' 50) = w /\ owner_nested (mutex_of s' 50) = 1 /\ blk_list (blk_of s' 50) = r /\
                wait_over BLK_FINISH (task_of Demo.state w) (task_of s' w)
    end.
Proof.
  apply (mutex_unlock_exact (env 1000 1) Demo.state 50).
  - exact (reached_kinv Demo.addrs Demo.mem Demo.heap0 Demo.addrs_ok Demo.calls Demo.state Demo.reached_state).
  - apply task_ctxb_ok. vm_compute. reflexivity.
  - vm_compute. reflexivity.
  - discriminate.
  - vm_compute. reflexivity.
  - vm_compute. split; discriminate.
Defined.

Lemma mutex_lock_exact_witness :
  let a := g_active_task Demo.state in
  let ow := mutex_task (mutex_of Demo.state 50) in
  let '(ret, s') := krhino_mutex_lock 50 9 Demo.state in
  if a =? ow then
    (ret = Some RHINO_MUTEX_OWNER_NESTED /\ mutex_task (mutex_of s' 50) = a /\
     owner_nested (mutex_of s' 50) = owner_nested (mutex_of Demo.state 50) + 1) \/
    (ret = Some RHINO_MUTEX_NESTED_OVF /\ owner_nested (mutex_of Demo.state 50) = MUTEX_NESTED_MAX /\ mutexes s' = mutexes Demo.state)
  else if ow =? NULL then
    ret = Some RHINO_SUCCESS /\ mutex_task (mutex_of s' 50) = a /\ owner_nested (mutex_of s' 50) = 1
  else if 9 =? RHINO_NO_WAIT then ret = Some RHINO_NO_PEND_WAIT /\ mutexes s' = mutexes Demo.state /\ tasks s' = tasks Demo.state
  else if 0 <? g_sched_lock Demo.state then ret = Some RHINO_SCHED_DISABLE /\ mutexes s' = mutexes Demo.state /\ tasks s' = tasks Demo.state
  else ret = None /\ mutexes s' = mutexes Demo.state /\ blocked_on 50 a 9 s' /\ prio (task_of s' ow) <= prio (task_of s' a).
Proof.
  apply (mutex_lock_exact (env 1000 1) Demo.state 50 9).
  - exact (reached_kinv Demo.addrs Demo.mem Demo.heap0 Demo.addrs_ok Demo.calls Demo.state Demo.reached_state).
  - apply task_ctxb_ok. vm_compute. reflexivity.
  - vm_compute. reflexivity.
  - discriminate.
  - vm_compute. reflexivity.
  - vm_compute. split; discriminate.
  - unfold u32. lia.
Defined.

Lemma task_del_complete_witness :
  let s' := (krhino_task_del 1 Demo.state).2 in
  task_state (task_of s' 1) = K_DELETED /\ (forall m, ~ owner s' m 1) /\ (forall o, 1 ∉ blk_list (blk_of s' o)) /\
  (1 ∉ g_tick_head s') /\ (forall p, 1 ∉ ready_list (g_ready_queue s') p).
Proof.
  apply (task_del_complete 1000 Demo.state 1).
  - exact (reached_kinv Demo.addrs Demo.mem Demo.heap0 Demo.addrs_ok Demo.calls Demo.state Demo.reached_state).
  - vm_compute. reflexivity.
  - discriminate.
  - vm_compute. reflexivity.
Defined.
