(* ===== verification/TaskEffects.v ===== *)
(** * Tasks: suspension, round robin, yielding

    Nested suspension is undone by as many resumptions; the time slice of a task is
    used up by exactly as many ticks before the next task of its priority runs; a
    yielding task goes behind the other tasks of its priority. *)
From S2P Require Import Prelude Bitmap KTypes RunQueue RingBuf Kernel Pend Alloc Task Sem Mutex Queue Event MmBlk Timer Workqueue TaskDyn Sys.
From S2P Require Import Invariant InvPend PriInherit KInv ApiInv MutexInv TaskInv TaskApiInv TaskDelInv Reach Boot Safety Effects MutexEffects.
Import RefAlloc.
Local Open Scope Z_scope.

Implicit Types (s : kstate) (t u w m o : Z) (k : ktask_t).

(** ** Suspension *)
Definition suspended_of (st : task_stat_t) : option task_stat_t :=
  match st with
  | K_RDY => Some K_SUSPENDED
  | K_SLEEP => Some K_SLEEP_SUSPENDED
  | K_PEND => Some K_PEND_SUSPENDED
  | _ => None
  end.

(** What the suspension calls see of a task. *)
Definition susp s t : task_stat_t * Z := (task_state (task_of s t), suspend_count (task_of s t)).

(** The conditions under which the calls reach their [switch]. *)
Definition suspendable s t : Prop := t <> NULL /\ prio (task_of s t) <> RHINO_IDLE_PRI /\ g_sched_lock s = 0.

Lemma task_of_rm t s u : task_of (k_ready_list_rm t s) u = task_of s u.
Proof. unfold k_ready_list_rm. by destruct (ready_list_rm _ _ _) as [? [?|]]. Qed.

Lemma lock_rm t s : g_sched_lock (k_ready_list_rm t s) = g_sched_lock s.
Proof. unfold k_ready_list_rm. by destruct (ready_list_rm _ _ _) as [? [?|]]. Qed.

Lemma task_of_add t s u : task_of (k_ready_list_add t s) u = task_of s u.
Proof. done. Qed.

Lemma task_of_exit_sched b s u : task_of (RHINO_CRITICAL_EXIT_SCHED b s) u = task_of s u.
Proof. by open_exit. Qed.
Lemma lock_exit_sched b s : g_sched_lock (RHINO_CRITICAL_EXIT_SCHED b s) = g_sched_lock s.
Proof. by open_exit. Qed.

(** The scheduling exit keeps what the suspension calls see. *)
Lemma susp_result t b s s1 v :
  susp s1 t = v -> prio (task_of s1 t) = prio (task_of s t) -> g_sched_lock s1 = g_sched_lock s -> suspendable s t ->
  susp (RHINO_CRITICAL_EXIT_SCHED b s1) t = v /\ suspendable (RHINO_CRITICAL_EXIT_SCHED b s1) t.
Proof.
  intros E Ep El (H1 & H2 & H3). unfold susp, suspendable in *. rewrite task_of_exit_sched, lock_exit_sched, Ep, El. done.
Qed.

(** Read the updated control block. *)
Ltac read_task := unfold susp; rewrite ?task_of_add, ?task_of_rm, ?lock_rm, ?task_of_upd; rsimpl.

Lemma suspend_first t s st :
  suspendable s t -> suspended_of (task_state (task_of s t)) = Some st ->
  let '(ret, s') := krhino_task_suspend t s in
  ret = RHINO_SUCCESS /\ susp s' t = (st, 1) /\ suspendable s' t.
Proof.
  intros Hs E. pose proof Hs as (Ht & Hp & Hl). unfold krhino_task_suspend, task_suspend.
  rewrite (proj2 (Z.eqb_neq _ _) Ht), (proj2 (Z.eqb_neq _ _) Hp).
  unfold RHINO_CRITICAL_ENTER, RHINO_CPU_INTRPT_DISABLE; cbv beta iota. set (s1 := s <| intrpt_masked := true |>).
  change (g_sched_lock s1) with (g_sched_lock s). rewrite Hl. rewrite andb_false_r. change (task_of s1 t) with (task_of s t).
  destruct (task_state (task_of s t)) eqn:Est; try done; injection E as <-; (split; [done|]);
    (apply (susp_result t _ s); [read_task; done|read_task; done|read_task; done|done]).
Qed.

Lemma suspend_again t s st n :
  suspendable s t -> susp s t = (st, n) -> (exists st0, suspended_of st0 = Some st) -> 1 <= n < SUSPEND_COUNT_MAX ->
  let '(ret, s') := krhino_task_suspend t s in
  ret = RHINO_SUCCESS /\ susp s' t = (st, n + 1) /\ suspendable s' t.
Proof.
  intros Hs E [st0 E0] Hn. pose proof Hs as (Ht & Hp & Hl). injection E as Est Ec. unfold krhino_task_suspend, task_suspend.
  rewrite (proj2 (Z.eqb_neq _ _) Ht), (proj2 (Z.eqb_neq _ _) Hp).
  unfold RHINO_CRITICAL_ENTER, RHINO_CPU_INTRPT_DISABLE; cbv beta iota. set (s1 := s <| intrpt_masked := true |>).
  change (g_sched_lock s1) with (g_sched_lock s). rewrite Hl. rewrite andb_false_r. change (task_of s1 t) with (task_of s t).
  assert ((suspend_count (task_of s t) =? SUSPEND_COUNT_MAX) = false) as Hc by (apply Z.eqb_neq; lia).
  assert (wrap8 (suspend_count (task_of s t) + 1) = n + 1) as Hw.
  { unfold wrap8. rewrite Ec. apply Z.mod_small. unfold SUSPEND_COUNT_MAX in *. lia. }
  rewrite Est, Hc. destruct st0; try done; injection E0 as <-; (split; [done|]);
    (apply (susp_result t _ s); [read_task; change (task_of s1 t) with (task_of s t); by rewrite Est, Hw|read_task; done|read_task; done|done]).
Qed.

Lemma resume_step t s st0 st n :
  suspendable s t -> susp s t = (st, n) -> suspended_of st0 = Some st -> 1 <= n <= SUSPEND_COUNT_MAX ->
  let '(ret, s') := krhino_task_resume t s in
  ret = RHINO_SUCCESS /\ susp s' t = (if n =? 1 then st0 else st, n - 1) /\ suspendable s' t.
Proof.
  intros Hs E E0 Hn. pose proof Hs as (Ht & Hp & Hl). injection E as Est Ec. unfold krhino_task_resume, task_resume.
  rewrite (proj2 (Z.eqb_neq _ _) Ht).
  unfold RHINO_CRITICAL_ENTER, RHINO_CPU_INTRPT_DISABLE; cbv beta iota. set (s1 := s <| intrpt_masked := true |>).
  change (task_of s1 t) with (task_of s t). rewrite Est.
  assert (wrap8 (suspend_count (task_of s1 t) - 1) = n - 1) as Hw.
  { change (task_of s1 t) with (task_of s t). unfold wrap8. rewrite Ec. apply Z.mod_small. unfold SUSPEND_COUNT_MAX in *. lia. }
  destruct st0; try done; injection E0 as <-; (split; [done|]); cbv zeta; rewrite !task_of_upd; rsimpl; rewrite Hw;
    replace (n - 1 =? 0) with (n =? 1) by lia;
    (destruct (n =? 1); (apply (susp_result t _ s); [|..|done]); read_task; rewrite ?Hw; try done).
  all: change (task_of s1 t) with (task_of s t); by rewrite Est.
Qed.

(** [n] calls in a row, with their statuses. *)
Fixpoint repeat_call (f : kstate -> kstat_t * kstate) (n : nat) s : list kstat_t * kstate :=
  match n with
  | O => ([], s)
  | S n => let '(r, s) := f s in let '(rs, s) := repeat_call f n s in (r :: rs, s)
  end.

Lemma suspend_many t st n : (exists st0, suspended_of st0 = Some st) -> forall s c,
  suspendable s t -> susp s t = (st, c) -> 1 <= c -> c + Z.of_nat n <= SUSPEND_COUNT_MAX ->
  let '(rs, s') := repeat_call (krhino_task_suspend t) n s in
  rs = replicate n RHINO_SUCCESS /\ susp s' t = (st, c + Z.of_nat n) /\ suspendable s' t.
Proof.
  intros Hst. induction n as [|n IH]; intros s c Hs E Hc Hn; cbn [repeat_call replicate].
  { by replace (c + Z.of_nat 0) with c by lia. }
  pose proof (suspend_again t s st c Hs E Hst ltac:(lia)) as Ha. destruct (krhino_task_suspend t s) as [r s1].
  destruct Ha as (-> & E1 & Hs1). specialize (IH s1 (c + 1) Hs1 E1 ltac:(lia) ltac:(lia)).
  destruct (repeat_call _ n s1) as [rs s2]. destruct IH as (-> & E2 & Hs2). split_and!; [done| |done].
  rewrite E2. f_equal. lia.
Qed.

Lemma resume_many t st0 st n : suspended_of st0 = Some st -> forall s c,
  suspendable s t -> susp s t = (st, c) -> Z.of_nat n <= c <= SUSPEND_COUNT_MAX -> (0 < n)%nat ->
  let '(rs, s') := repeat_call (krhino_task_resume t) n s in
  rs = replicate n RHINO_SUCCESS /\ susp s' t = (if c =? Z.of_nat n then st0 else st, c - Z.of_nat n) /\ suspendable s' t.
Proof.
  intros Hst. induction n as [|n IH]; intros s c Hs E Hc Hn; [lia|]. cbn [repeat_call replicate].
  pose proof (resume_step t s st0 st c Hs E Hst ltac:(lia)) as Ha. destruct (krhino_task_resume t s) as [r s1].
  destruct Ha as (-> & E1 & Hs1). destruct n as [|n].
  { cbn [repeat_call replicate]. split_and!; [done|exact E1|done]. }
  rewrite (proj2 (Z.eqb_neq c 1)) in E1 by lia. specialize (IH s1 (c - 1) Hs1 E1 ltac:(lia) ltac:(lia)).
  destruct (repeat_call _ (S n) s1) as [rs s2]. destruct IH as (-> & E2 & Hs2). split_and!; [done| |done].
  rewrite E2. replace (c - 1 =? Z.of_nat (S n)) with (c =? Z.of_nat (S (S n)))
    by (destruct (Z.eqb_spec c (Z.of_nat (S (S n)))), (Z.eqb_spec (c - 1) (Z.of_nat (S n))); done || lia). f_equal. lia.
Qed.

(** Nested suspension: a ready, sleeping or blocked task that is suspended [n] times
    (up to 255) stays suspended until it has been resumed [n] times, every call
    succeeds, and afterwards the task is in the state it started from. *)
Theorem suspend_resume_nested t s st0 st n j :
  suspendable s t -> task_state (task_of s t) = st0 -> suspended_of st0 = Some st ->
  (1 <= n)%nat -> Z.of_nat n <= SUSPEND_COUNT_MAX -> (1 <= j <= n)%nat ->
  let '(r1, s1) := repeat_call (krhino_task_suspend t) n s in
  let '(r2, s2) := repeat_call (krhino_task_resume t) j s1 in
  r1 = replicate n RHINO_SUCCESS /\ susp s1 t = (st, Z.of_nat n) /\
  r2 = replicate j RHINO_SUCCESS /\ task_state (task_of s2 t) = (if (j =? n)%nat then st0 else st).
Proof.
  intros Hs E0 Est Hn Hmax Hj. destruct n as [|n]; [lia|]. cbn [repeat_call replicate].
  pose proof (suspend_first t s st Hs ltac:(by rewrite E0)) as Ha. destruct (krhino_task_suspend t s) as [r s1].
  destruct Ha as (-> & E1 & Hs1).
  pose proof (suspend_many t st n ltac:(eauto) s1 1 Hs1 E1 ltac:(lia) ltac:(lia)) as Hm.
  destruct (repeat_call (krhino_task_suspend t) n s1) as [r1 s2]. destruct Hm as (-> & E2 & Hs2).
  pose proof (resume_many t st0 st j Est s2 _ Hs2 E2 ltac:(lia) ltac:(lia)) as Hr.
  destruct (repeat_call (krhino_task_resume t) j s2) as [r2 s3]. destruct Hr as (-> & E3 & _).
  split_and!; [done| |done|].
  - rewrite E2. f_equal. lia.
  - injection E3 as -> _. replace (1 + Z.of_nat n =? Z.of_nat j) with (j =? S n)%nat; [done|].
    destruct (Nat.eqb_spec j (S n)), (Z.eqb_spec (1 + Z.of_nat n) (Z.of_nat j)); done || lia.
Qed.

Lemma suspend_resume_nested_witness :
  let '(r1, s1) := repeat_call (krhino_task_suspend 2) 3 Demo.state in
  let '(r2, s2) := repeat_call (krhino_task_resume 2) 3 s1 in
  r1 = replicate 3 RHINO_SUCCESS /\ susp s1 2 = (K_PEND_SUSPENDED, 3) /\
  r2 = replicate 3 RHINO_SUCCESS /\ task_state (task_of s2 2) = (if (3 =? 3)%nat then K_PEND else K_PEND_SUSPENDED).
Proof.
  apply (suspend_resume_nested 2 Demo.state K_PEND K_PEND_SUSPENDED 3 3).
  - split; [discriminate|]. split; [vm_compute; discriminate|vm_compute; reflexivity].
  - vm_compute. reflexivity.
  - reflexivity.
  - lia.
  - vm_compute. discriminate.
  - lia.
Defined.

(** ** Round robin *)

(** What the round-robin code sees at priority [p]: the ready list and the first task's
    remaining slice. *)
Definition rr_view p t s : list Z * Z := (ready_list (g_ready_queue s) p, time_slice (task_of s t)).

(** [t] is the round-robin task at the front of priority [p]; [T] is its full slice. *)
Definition rr_task p t (T : Z) s : Prop :=
  prio (task_of s t) = p /\ sched_policy (task_of s t) <> KSCHED_FIFO /\ time_total (task_of s t) = T.

Lemma slice_step p t T s l n :
  rr_task p t T s -> l <> [] -> 0 < n -> rr_view p t s = (t :: l, n) ->
  rr_task p t T (time_slice_update p s) /\
  rr_view p t (time_slice_update p s) = (if n =? 1 then (l ++ [t], T) else (t :: l, n - 1)).
Proof.
  intros (Hp & Hpol & HT) Hl Hn E. injection E as El Ets.
  unfold time_slice_update, RHINO_CRITICAL_ENTER, RHINO_CPU_INTRPT_DISABLE; cbv beta iota zeta.
  set (s1 := s <| intrpt_masked := true |>). change (g_ready_queue s1) with (g_ready_queue s).
  unfold is_ready_list_empty. rewrite El. rewrite bool_decide_false by done. cbn [hd].
  change (task_of s1 t) with (task_of s t).
  rewrite (proj2 (Z.eqb_neq _ _) Hpol). destruct l as [|u l]; [done|]. cbn [length Nat.eqb].
  rewrite Ets, (proj2 (Z.ltb_lt _ _) Hn). set (s2 := upd_task t _ s1).
  assert (task_of s2 t = (task_of s t) <| time_slice ::= fun n => n - 1 |>) as E2 by exact (task_of_upd s1 t _).
  rewrite E2; rsimpl. rewrite Ets. destruct (Z.eqb_spec n 1) as [->|E1].
  - change (0 <? 1 - 1) with false. cbv iota. unfold rr_task, rr_view, RHINO_CRITICAL_EXIT, RHINO_CPU_INTRPT_ENABLE, upd_task, task_of; rsimpl.
    rewrite lookup_total_insert_eq. fold (task_of s2 t). rewrite E2; rsimpl. rewrite Hp.
    split; [done|]. unfold ready_list_head_to_tail. change (g_ready_queue s2) with (g_ready_queue s).
    fold (task_of s t). rewrite Hp, ready_list_set, decide_True, El, HT by done. done.
  - rewrite (proj2 (Z.ltb_lt _ _)) by lia. unfold rr_task, rr_view, RHINO_CRITICAL_EXIT, RHINO_CPU_INTRPT_ENABLE.
    change (task_of (s2 <| intrpt_masked := intrpt_masked s |>) t) with (task_of s2 t). rewrite E2; rsimpl.
    change (g_ready_queue s2) with (g_ready_queue s). rewrite Ets, El. done.
Qed.

(** Round robin: while other tasks of its priority are ready, the task at the front
    keeps its place through exactly as many time-slice updates as its slice has, and
    then goes behind them with a fresh slice. *)
Theorem round_robin_slice p t T s l n j :
  rr_task p t T s -> l <> [] -> rr_view p t s = (t :: l, Z.of_nat n) -> (1 <= n)%nat -> (j <= n)%nat ->
  rr_view p t (Nat.iter j (time_slice_update p) s) = (if (j =? n)%nat then (l ++ [t], T) else (t :: l, Z.of_nat (n - j))).
Proof.
  intros Ht Hl E Hn Hj.
  assert (rr_task p t T (Nat.iter j (time_slice_update p) s) /\
    rr_view p t (Nat.iter j (time_slice_update p) s) = (if (j =? n)%nat then (l ++ [t], T) else (t :: l, Z.of_nat (n - j)))) as [_ ?]; [|done].
  induction j as [|j IH].
  { rewrite (proj2 (Nat.eqb_neq 0 n)) by lia. rewrite Nat.sub_0_r. done. }
  destruct IH as [IHt IHv]; [lia|]. rewrite (proj2 (Nat.eqb_neq j n)) in IHv by lia.
  change (Nat.iter (S j) (time_slice_update p) s) with (time_slice_update p (Nat.iter j (time_slice_update p) s)).
  destruct (slice_step p t T _ l (Z.of_nat (n - j)) IHt Hl ltac:(lia) IHv) as [Ht' Hv']. split; [done|]. rewrite Hv'.
  destruct (Nat.eqb_spec (S j) n) as [Ej|Ej].
  - by rewrite (proj2 (Z.eqb_eq (Z.of_nat (n - j)) 1)) by lia.
  - rewrite (proj2 (Z.eqb_neq (Z.of_nat (n - j)) 1)) by lia. f_equal. lia.
Qed.

(** ** Yielding *)

(** [krhino_task_yield]: the running task goes behind the other ready tasks of its
    priority and the next of them runs; alone at its priority it keeps running. *)
Theorem yield_rotates idle s :
  kinv idle s -> g_sys_stat s = RHINO_RUNNING -> g_intrpt_nested_level s = 0 -> g_sched_lock s = 0 ->
  let a := g_active_task s in
  let p := prio (task_of s a) in
  let s' := (krhino_task_yield s).2 in
  exists l, ready_list (g_ready_queue s) p = a :: l /\ ready_list (g_ready_queue s') p = l ++ [a] /\
    g_active_task s' = hd a l /\ tasks s' = tasks s.
Proof.
  intros Hk Hrun Hn Hl a p s'. pose proof (proj1 Hk) as Hb. pose proof (kb_wf Hb) as H.
  pose proof (krhino_task_yield_kinv idle s Hk) as [Hb' Hs']. fold s' in Hb', Hs'.
  destruct (kinv_active idle s Hk Hrun (or_introl Hn)) as (k & Hka & Hr). fold a in Hka.
  pose proof (kwf_ready _ _ _ _ H Hka Hr) as Hm. pose proof (kw_rq H) as Hq.
  assert (a = hd NULL (ready_list (g_ready_queue s) (highest_pri (g_ready_queue s)))) as Ea by (by apply Hk).
  assert (ready_list (g_ready_queue s) (highest_pri (g_ready_queue s)) <> []) as Hne.
  { apply (rr_high_in _ _ Hq). intros E. by rewrite E in Hm. }
  destruct (ready_list (g_ready_queue s) (highest_pri (g_ready_queue s))) as [|x l] eqn:El; [done|]. cbn [hd] in Ea. subst x.
  assert (p = highest_pri (g_ready_queue s)) as Ep.
  { pose proof (proj1 (rr_elem _ _ Hq a (highest_pri (g_ready_queue s))) ltac:(rewrite El; by left)) as E.
    rewrite Hm in E. injection E as E. unfold p. by rewrite (task_of_Some _ _ _ Hka). }
  exists l. rewrite Ep. split; [done|].
  assert (g_ready_queue s' = ready_list_head_to_tail (g_ready_queue s) p /\ tasks s' = tasks s /\
    g_sys_stat s' = g_sys_stat s /\ g_intrpt_nested_level s' = g_intrpt_nested_level s /\ g_sched_lock s' = g_sched_lock s)
    as (E1 & E2 & E3 & E4 & E5).
  { unfold s', krhino_task_yield, RHINO_CRITICAL_ENTER, RHINO_CPU_INTRPT_DISABLE; cbv beta iota zeta. cbn [snd]. by open_exit. }
  clearbody s'. unfold schedok in Hs'. rewrite E1, E3, E4, E5 in Hs'. specialize (Hs' Hrun Hn Hl).
  rewrite E1. unfold ready_list_head_to_tail in *. rewrite <- Ep in *. rewrite El in *.
  rewrite ready_list_set, decide_True by done. split_and!; [done| |done]. rewrite Hs'.
  unfold preferred_cpu_ready_task_get. change (highest_pri (set_ready_list p (l ++ [a]) (g_ready_queue s))) with (highest_pri (g_ready_queue s)).
  rewrite <- Ep, ready_list_set, decide_True by done. by destruct l.
Qed.

(** ** Witnesses: two round-robin tasks of priority 20 *)
Module RRDemo.
Definition calls : list kcall := [
  C_task_create 1 1 0 20 4 1 64 1 1 K_OBJ_STATIC_ALLOC 0;
  C_task_create 2 1 0 20 4 1 64 1 1 K_OBJ_STATIC_ALLOC 0;
  C_start Demo.wq;
  C_queue_recv 1040 RHINO_WAIT_FOREVER false; C_sem_take 1010 RHINO_WAIT_FOREVER ].

Definition state : kstate :=
  default kstate_zero (krun (env 1000 1) calls (krhino_init Demo.addrs Demo.mem Demo.heap0 kstate_zero).2).

Lemma rr_state_reached : reached Demo.addrs Demo.mem Demo.heap0 calls state.
Proof. vm_compute. reflexivity. Qed.

Example both_ready : rr_view 20 1 state = ([1; 2], 4).
Proof. vm_compute. reflexivity. Qed.
End RRDemo.

Lemma round_robin_slice_witness :
  rr_view 20 1 (Nat.iter 4 (time_slice_update 20) RRDemo.state) =
  (if (4 =? 4)%nat then ([2] ++ [1], 4) else ([1; 2], Z.of_nat (4 - 4))).
Proof.
  apply (round_robin_slice 20 1 4 RRDemo.state [2] 4 4).
  - split; [vm_compute; reflexivity|]. split; [vm_compute; discriminate|vm_compute; reflexivity].
  - discriminate.
  - vm_compute. reflexivity.
  - lia.
  - lia.
Defined.

Lemma yield_rotates_witness :
  let a := g_active_task RRDemo.state in
  let p := prio (task_of RRDemo.state a) in
  let s' := (krhino_task_yield RRDemo.state).2 in
  exists l, ready_list (g_ready_queue RRDemo.state) p = a :: l /\ ready_list (g_ready_queue s') p = l ++ [a] /\
    g_active_task s' = hd a l /\ tasks s' = tasks RRDemo.state.
Proof.
  apply (yield_rotates (env 1000 1) RRDemo.state).
  - exact (reached_kinv Demo.addrs Demo.mem Demo.heap0 Demo.addrs_ok RRDemo.calls RRDemo.state RRDemo.rr_state_reached).
  - vm_compute. reflexivity.
  - vm_compute. reflexivity.
  - vm_compute. reflexivity.
Defined.
