(* ===== verification/EventEffects.v ===== *)
(** * Event flags: waiting for and setting flags

    [krhino_event_get] succeeds exactly when the flags satisfy the option;
    [krhino_event_set] wakes exactly the waiters that the new flags satisfy, hands each
    of them the flags, and clears what the woken waiters asked to clear. *)
From S2P Require Import Prelude Bitmap KTypes RunQueue RingBuf Kernel Pend Alloc Task Sem Mutex Queue Event MmBlk Timer Workqueue TaskDyn Sys.
From S2P Require Import Invariant InvPend PriInherit KInv ApiInv MutexInv TaskInv TaskApiInv TaskDelInv Reach Boot Safety Effects.
Import RefAlloc.
Local Open Scope Z_scope.

Implicit Types (s : kstate) (t u w o : Z) (k : ktask_t).

(** ** Setting flags *)

(** The condition of a waiter, as [event_set] tests it. *)
Definition satisfied (cur : Z) k : bool :=
  if negb (Z.land (pend_option k) RHINO_FLAGS_AND_MASK =? 0)
  then Z.land cur (pend_flags k) =? pend_flags k
  else negb (Z.land cur (pend_flags k) =? 0).

(** The flags left after a woken waiter has cleared its own. *)
Definition clear_by (cur : Z) s (f t : Z) : Z :=
  let k := task_of s t in
  if satisfied cur k && negb (Z.land (pend_option k) RHINO_FLAGS_CLEAR_MASK =? 0) then clear_flags f (pend_flags k) else f.

(** One iteration of the walk for a waiter that is satisfied. *)
Definition event_wake event (cur t : Z) s : kstate :=
  let s1 := pend_task_wakeup t (s <| user_words ::= <[pend_info (task_of s t) := cur]> |>) in
  if negb (Z.land (pend_option (task_of s1 t)) RHINO_FLAGS_CLEAR_MASK =? 0)
  then upd_event event (fun e => e <| flags ::= fun f => clear_flags f (pend_flags (task_of s1 t)) |>) s1 else s1.

Lemma event_wake_spec idle event cur t s pre rest :
  kwf idle s -> blk_list (blk_of s event) = pre ++ t :: rest ->
  let s' := event_wake event cur t s in
  kwf idle s' /\ blk_list (blk_of s' event) = pre ++ rest /\ wait_over BLK_FINISH (task_of s t) (task_of s' t) /\
  (forall u, u <> t -> task_of s' u = task_of s u) /\
  flags (event_of s' event) = (if negb (Z.land (pend_option (task_of s t)) RHINO_FLAGS_CLEAR_MASK =? 0)
                               then clear_flags (flags (event_of s event)) (pend_flags (task_of s t)) else flags (event_of s event)) /\
  user_words s' = <[pend_info (task_of s t) := cur]> (user_words s).
Proof.
  intros H El. set (s0 := s <| user_words ::= <[pend_info (task_of s t) := cur]> |>).
  assert (kwf idle s0) as H0 by exact H.
  destruct (kwf_blocked idle s0 t event) as (k & Hk & Hp & Ho); [done|unfold s0, blk_of in *; rsimpl; rewrite El; set_solver|].
  pose proof (pend_end_kwf idle s0 t k BLK_FINISH H0 Hk Hp) as H1.
  pose proof (pend_end_eq idle s0 t k BLK_FINISH H0 Hk Hp) as Eeq.
  pose proof (br_nodup _ _ _ (kw_blk H) event) as Hd. unfold blk_of in El. rewrite El in Hd.
  rewrite <- Permutation_middle in Hd. apply NoDup_cons in Hd as [Hn _].
  unfold event_wake. fold s0. change pend_task_wakeup with (pend_end BLK_FINISH).
  set (s1 := pend_end BLK_FINISH t s0) in *.
  assert (task_of s t = k) as Etk by (by apply task_of_Some).
  assert (task_of s1 t = unpend BLK_FINISH k) as E1.
  { rewrite Eeq. unfold task_of; rsimpl. by rewrite lookup_total_insert_eq. }
  assert (blk_list (blk_of s1 event) = pre ++ rest) as E2.
  { rewrite Eeq. unfold blk_of; rsimpl. rewrite rm_from_lookup. unfold rm_from; rsimpl.
    change (blk_objs s0) with (blk_objs s). rewrite El. apply remove_addr_middle; set_solver. }
  assert (forall u, u <> t -> task_of s1 u = task_of s u) as E3.
  { intros u Hu. rewrite Eeq. unfold task_of; rsimpl. by rewrite lookup_total_insert_ne by auto. }
  assert (event_of s1 event = event_of s event /\ user_words s1 = <[pend_info (task_of s t) := cur]> (user_words s)) as [E4 E5].
  { rewrite Eeq. done. }
  assert (forall s2, kwf idle s2 -> tasks s2 = tasks s1 -> blk_objs s2 = blk_objs s1 -> user_words s2 = user_words s1 ->
    kwf idle s2 /\ blk_list (blk_of s2 event) = pre ++ rest /\ wait_over BLK_FINISH (task_of s t) (task_of s2 t) /\
    (forall u, u <> t -> task_of s2 u = task_of s u) /\ user_words s2 = <[pend_info (task_of s t) := cur]> (user_words s)) as Hfin.
  { intros s2 H2 Et Eb Ew. unfold blk_of, task_of in *. rewrite Et, Eb, Ew. split_and!; [done..| |done|done].
    rewrite E1, (lookup_total_Some _ _ _ Hk). apply wait_over_unpend. }
  cbv zeta. rewrite E1, Etk. clearbody s1. change (pend_option (unpend BLK_FINISH k)) with (pend_option k).
  change (pend_flags (unpend BLK_FINISH k)) with (pend_flags k). rewrite Etk in *.
  destruct (negb _).
  - destruct (Hfin (upd_event event (fun e => e <| flags ::= fun f => clear_flags f (pend_flags k) |>) s1) H1 eq_refl eq_refl eq_refl)
      as (? & ? & ? & ? & ?). split_and!; try assumption.
    unfold event_of, upd_event in *; rsimpl. rewrite lookup_total_insert_eq, E4. done.
  - destruct (Hfin s1 H1 eq_refl eq_refl eq_refl) as (? & ? & ? & ? & ?). split_and!; try assumption. by rewrite E4.
Qed.

Lemma event_walk_cons event cur t rest s :
  event_set_walk event cur (t :: rest) s =
  event_set_walk event cur rest (if satisfied cur (task_of s t) then event_wake event cur t s else s).
Proof. done. Qed.

Lemma fold_left_ext_in {A B} (f g : A -> B -> A) l a :
  (forall x b, b ∈ l -> f x b = g x b) -> fold_left f l a = fold_left g l a.
Proof.
  revert a. induction l as [|b l IH]; intros a Hf; [done|]. simpl. rewrite Hf by (by left).
  apply IH. intros x y Hy. apply Hf. by right.
Qed.

Lemma filter_ext_in {A} (f g : A -> bool) (l : list A) :
  (forall x, x ∈ l -> f x = g x) -> filter (fun x => f x = false) l = filter (fun x => g x = false) l.
Proof.
  induction l as [|x l IH]; intros Hf; [done|]. rewrite !filter_cons, Hf by (by left).
  rewrite IH; [done|]. intros y Hy. apply Hf. by right.
Qed.

Lemma event_walk_spec idle event cur rest pre s :
  kwf idle s -> blk_list (blk_of s event) = pre ++ rest ->
  let s' := event_set_walk event cur rest s in
  blk_list (blk_of s' event) = pre ++ filter (fun t => satisfied cur (task_of s t) = false) rest /\
  (forall t, t ∈ rest -> satisfied cur (task_of s t) = true -> wait_over BLK_FINISH (task_of s t) (task_of s' t)) /\
  (forall t, (t ∉ rest) \/ satisfied cur (task_of s t) = false -> task_of s' t = task_of s t) /\
  flags (event_of s' event) = fold_left (clear_by cur s) rest (flags (event_of s event)).
Proof.
  revert pre s. induction rest as [|t rest IH]; intros pre s H El.
  { split_and!; [exact El|by intros t Ht%elem_of_nil|done|done]. }
  rewrite event_walk_cons. cbv zeta.
  pose proof (br_nodup _ _ _ (kw_blk H) event) as Hd. fold (blk_of s event) in Hd. rewrite El in Hd.
  apply NoDup_app in Hd as (_ & _ & [Hn _]%NoDup_cons).
  rewrite filter_cons. cbn [fold_left]. unfold clear_by at 2. destruct (satisfied cur (task_of s t)) eqn:Es; cbn [andb].
  - destruct (event_wake_spec idle event cur t s pre rest H El) as (H1 & El1 & Hw & Ho & Ef & _).
    set (s1 := event_wake event cur t s) in *. clearbody s1.
    assert (forall u, u ∈ rest -> task_of s1 u = task_of s u) as Eu by (intros u Hu; apply Ho; by intros ->).
    assert (filter (fun x => satisfied cur (task_of s1 x) = false) rest = filter (fun x => satisfied cur (task_of s x) = false) rest) as Ef1.
    { apply (filter_ext_in (fun x => satisfied cur (task_of s1 x)) (fun x => satisfied cur (task_of s x))). intros x Hx. by rewrite Eu. }
    destruct (IH pre s1 H1 El1) as (I1 & I2 & I3 & I4). rewrite Ef1 in I1. split_and!.
    + exact I1.
    + intros u [->|Hu]%elem_of_cons Hs.
      * rewrite I3 by (by left). exact Hw.
      * rewrite <- Eu by done. apply I2; [done|]. by rewrite Eu.
    + intros u [Hu|Hu].
      * apply not_elem_of_cons in Hu as [Hne Hu]. rewrite I3 by (by left). by apply Ho.
      * assert (u <> t) by (intros ->; congruence). rewrite I3; [by apply Ho|].
        destruct (decide (u ∈ rest)); [right|by left]. by rewrite Eu.
    + rewrite I4, Ef. apply fold_left_ext_in. intros f u Hu. unfold clear_by. by rewrite Eu.
  - destruct (IH (pre ++ [t]) s H) as (I1 & I2 & I3 & I4); [by rewrite <- app_assoc|].
    rewrite <- app_assoc in I1. split_and!; [exact I1| | |exact I4].
    + intros u [->|Hu]%elem_of_cons Hs; [congruence|by apply I2].
    + intros u Hu. destruct (decide (u ∈ rest)) as [Hin|Hin]; [|apply I3; by left].
      destruct Hu as [Hu|Hu]; [|apply I3; by right]. exfalso. apply Hu. by right.
Qed.

(** C14: [krhino_event_set], exactly.  With [RHINO_OR] the flags are added and every
    waiter they satisfy, and no other, is taken off the block list and becomes ready;
    the others keep their order; afterwards the flags are the new ones without those
    that woken waiters clear.  With [RHINO_AND] the flags are masked and nobody wakes. *)
Theorem event_set_exact idle s event fl opt :
  kinv idle s -> event <> NULL -> obj_type (blk_of s event) = RHINO_EVENT_OBJ_TYPE -> opt = RHINO_OR \/ opt = RHINO_AND ->
  let '(ret, s') := krhino_event_set event fl opt s in
  let l := blk_list (blk_of s event) in
  let cur := Z.lor fl (flags (event_of s event)) in
  ret = RHINO_SUCCESS /\
  if opt =? RHINO_OR then
    blk_list (blk_of s' event) = filter (fun t => satisfied cur (task_of s t) = false) l /\
    (forall t, t ∈ l -> satisfied cur (task_of s t) = true -> wait_over BLK_FINISH (task_of s t) (task_of s' t)) /\
    (forall t, (t ∉ l) \/ satisfied cur (task_of s t) = false -> task_of s' t = task_of s t) /\
    flags (event_of s' event) = fold_left (clear_by cur s) l cur
  else flags (event_of s' event) = Z.land fl (flags (event_of s event)) /\ tasks s' = tasks s /\ blk_objs s' = blk_objs s.
Proof.
  intros Hk Hn Hty Hopt. unfold krhino_event_set, event_set. rewrite (proj2 (Z.eqb_neq _ _) Hn).
  replace (negb (opt =? RHINO_AND) && negb (opt =? RHINO_OR)) with false by (destruct Hopt as [-> | ->]; done).
  kenter idle s. change (blk_of s1 event) with (blk_of s event). rewrite decide_False by (by intros []).
  destruct Hopt as [-> | ->]; cbv zeta; cbn [Z.land RHINO_OR RHINO_AND RHINO_FLAGS_AND_MASK Z.eqb negb Pos.land N.eqb Pos.eqb Z.of_N].
  - set (s2 := upd_event event (fun e => e <| flags ::= Z.lor fl |>) s1).
    assert (kwf idle s2) as H2 by exact (kb_wf (proj1 Hk1)).
    assert (flags (event_of s2 event) = Z.lor fl (flags (event_of s event))) as Ef.
    { unfold event_of, s2, upd_event; rsimpl. by rewrite lookup_total_insert_eq. }
    rewrite Ef. change (blk_of s2 event) with (blk_of s event).
    destruct (event_walk_spec idle event (Z.lor fl (flags (event_of s event))) (blk_list (blk_of s event)) [] s2 H2 eq_refl)
      as (W1 & W2 & W3 & W4). rewrite Ef in W4. set (s3 := event_set_walk _ _ _ s2) in *. clearbody s3.
    split; [done|]. open_exit. split_and!; [exact W1|exact W2|exact W3|exact W4].
  - split; [done|]. split; [|done]. unfold RHINO_CRITICAL_EXIT, RHINO_CPU_INTRPT_ENABLE, event_of, upd_event; rsimpl.
    by rewrite lookup_total_insert_eq.
Qed.

(** ** Waiting for flags *)

(** The four option codes: all or any of the flags, with or without clearing. *)
Definition event_opt (opt : Z) : Prop := opt = RHINO_AND \/ opt = RHINO_OR \/ opt = RHINO_AND_CLEAR \/ opt = RHINO_OR_CLEAR.

(** [krhino_event_get] by the running task, exactly: when the flags satisfy the option
    it succeeds, stores the flags for the caller and clears the requested ones for a
    CLEAR option; otherwise it fails when it must not block, and else blocks the caller
    with its request recorded. *)
Theorem event_get_exact idle s event fl opt actl ticks :
  kinv idle s -> task_ctx idle s -> in_intrpt s = false -> event <> NULL -> actl <> NULL -> event_opt opt -> u32 ticks ->
  obj_type (blk_of s event) = RHINO_EVENT_OBJ_TYPE ->
  let '(ret, s') := krhino_event_get event fl opt actl ticks s in
  let cur := flags (event_of s event) in
  if event_status cur fl opt then
    ret = Some RHINO_SUCCESS /\ user_words s' = <[actl := cur]> (user_words s) /\ tasks s' = tasks s /\
    flags (event_of s' event) = (if (opt =? RHINO_AND_CLEAR) || (opt =? RHINO_OR_CLEAR) then clear_flags cur fl else cur)
  else if ticks =? RHINO_NO_WAIT then ret = Some RHINO_NO_PEND_WAIT /\ events s' = events s /\ tasks s' = tasks s
  else if 0 <? g_sched_lock s then ret = Some RHINO_SCHED_DISABLE /\ events s' = events s /\ tasks s' = tasks s
  else ret = None /\ events s' = events s /\ blocked_on event (g_active_task s) ticks s' /\
       let k := task_of s' (g_active_task s) in pend_flags k = fl /\ pend_option k = opt /\ pend_info k = actl.
Proof.
  intros Hk Hc Hi Hn Ha Hopt Hto Hty. destruct (running_task idle s Hk Hc Hi) as (k & Ht & Hr & Hid).
  pose proof (krhino_event_get_kinv idle s event fl opt actl ticks Hk Hc Hto) as Hk'. revert Hk'.
  unfold krhino_event_get. rewrite (proj2 (Z.eqb_neq _ _) Hn), (proj2 (Z.eqb_neq _ _) Ha).
  match goal with |- context [if ?b then (Some RHINO_NO_THIS_EVENT_OPT, _) else _] =>
    replace b with false by (by destruct Hopt as [-> |[-> |[-> | ->]]]) end.
  kenter idle s. cbv zeta. change (in_intrpt s1) with (in_intrpt s). change (blk_of s1 event) with (blk_of s event).
  rewrite Hi, decide_False by (by intros []). change (event_of s1 event) with (event_of s event).
  destruct (event_status _ _ _) eqn:Es.
  { intros _. split; [done|].
    replace (negb (Z.land opt RHINO_FLAGS_CLEAR_MASK =? 0)) with ((opt =? RHINO_AND_CLEAR) || (opt =? RHINO_OR_CLEAR))
      by (by destruct Hopt as [-> |[-> |[-> | ->]]]).
    unfold RHINO_CRITICAL_EXIT, RHINO_CPU_INTRPT_ENABLE. destruct (_ || _); [|done].
    split_and!; [done|done|]. unfold event_of, upd_event; rsimpl. by rewrite lookup_total_insert_eq. }
  change (g_sched_lock s1) with (g_sched_lock s). destruct (ticks =? RHINO_NO_WAIT) eqn:E1; [done|].
  destruct (0 <? g_sched_lock s) eqn:E2; [done|]. cbn [snd]. change (g_active_task s1) with (g_active_task s).
  set (f := fun k => k <| pend_option := opt |> <| pend_flags := fl |> <| pend_info := actl |>).
  set (s2 := upd_task (g_active_task s) f s1). change (g_active_task s2) with (g_active_task s). intros Hk'.
  assert (tasks s2 !! g_active_task s = Some (f k)) as Ht2.
  { unfold s2. rewrite (upd_task_eq s1 _ k) by done. rsimpl. apply lookup_insert_eq. }
  assert (kwf idle s2) as H2 by (apply (kb_wf (D := none)); by eapply set_msg_kbody; [apply Hk1|..]).
  pose proof (kb_nest (proj1 Hk)). unfold in_intrpt in Hi.
  destruct (block_result idle s2 event (g_active_task s) (f k) ticks _ H2 Ht2 Hr Hid Hto ltac:(lia)
    (proj1 Hc) ltac:(change (g_intrpt_nested_level s2) with (g_intrpt_nested_level s); lia) Hk')
    as (B & _ & _ & _ & _ & Ee & _ & Ek).
  set (s' := RHINO_CRITICAL_EXIT_SCHED _ _) in *. clearbody s'. split_and!; [done|exact Ee|exact B|..];
    rewrite Ek; unfold pended, with_timeout, f; by destruct (timed ticks).
Qed.

(** ** Witnesses *)
Module EventDemo.
(** Task 2 waits for flags 1 and 2 together and clears them, task 1 for flag 4; the
    least urgent task 3 runs. *)
Definition calls : list kcall := [
  C_event_create 70 1 0 K_OBJ_STATIC_ALLOC;
  C_task_create 1 1 0 20 0 1 64 1 1 K_OBJ_STATIC_ALLOC 0;
  C_task_create 2 1 0 10 0 1 64 1 1 K_OBJ_STATIC_ALLOC 0;
  C_task_create 3 1 0 30 0 1 64 1 1 K_OBJ_STATIC_ALLOC 0;
  C_start Demo.wq;
  C_queue_recv 1040 RHINO_WAIT_FOREVER false; C_sem_take 1010 RHINO_WAIT_FOREVER; C_sem_take 1066 RHINO_WAIT_FOREVER;
  C_event_get 70 3 RHINO_AND_CLEAR 501 RHINO_WAIT_FOREVER; C_event_get 70 4 RHINO_OR 502 RHINO_WAIT_FOREVER ].

Definition state : kstate :=
  default kstate_zero (krun (env 1000 1) calls (krhino_init Demo.addrs Demo.mem Demo.heap0 kstate_zero).2).

Lemma event_state_reached : reached Demo.addrs Demo.mem Demo.heap0 calls state.
Proof. vm_compute. reflexivity. Qed.

Example set_seven :
  let s' := (krhino_event_set 70 11 RHINO_OR state).2 in
  blk_list (blk_of state 70) = [2; 1] /\ blk_list (blk_of s' 70) = [1] /\ flags (event_of s' 70) = 8 /\ g_active_task s' = 2.
Proof. vm_compute. done. Qed.
End EventDemo.

Lemma event_set_exact_witness :
  let '(ret, s') := krhino_event_set 70 11 RHINO_OR EventDemo.state in
  let l := blk_list (blk_of EventDemo.state 70) in
  let cur := Z.lor 11 (flags (event_of EventDemo.state 70)) in
  ret = RHINO_SUCCESS /\
  if RHINO_OR =? RHINO_OR then
    blk_list (blk_of s' 70) = filter (fun t => satisfied cur (task_of EventDemo.state t) = false) l /\
    (forall t, t ∈ l -> satisfied cur (task_of EventDemo.state t) = true ->
       wait_over BLK_FINISH (task_of EventDemo.state t) (task_of s' t)) /\
    (forall t, (t ∉ l) \/ satisfied cur (task_of EventDemo.state t) = false -> task_of s' t = task_of EventDemo.state t) /\
    flags (event_of s' 70) = fold_left (clear_by cur EventDemo.state) l cur
  else flags (event_of s' 70) = Z.land 11 (flags (event_of EventDemo.state 70)) /\ tasks s' = tasks EventDemo.state /\
       blk_objs s' = blk_objs EventDemo.state.
Proof.
  apply (event_set_exact (env 1000 1) EventDemo.state 70 11 RHINO_OR).
  - exact (reached_kinv Demo.addrs Demo.mem Demo.heap0 Demo.addrs_ok EventDemo.calls EventDemo.state EventDemo.event_state_reached).
  - discriminate.
  - vm_compute. reflexivity.
  - left. reflexivity.
Defined.

Lemma event_get_exact_witness :
  let '(ret, s') := krhino_event_get 70 8 RHINO_OR 503 6 EventDemo.state in
  let cur := flags (event_of EventDemo.state 70) in
  if event_status cur 8 RHINO_OR then
    ret = Some RHINO_SUCCESS /\ user_words s' = <[503 := cur]> (user_words EventDemo.state) /\ tasks s' = tasks EventDemo.state /\
    flags (event_of s' 70) = (if (RHINO_OR =? RHINO_AND_CLEAR) || (RHINO_OR =? RHINO_OR_CLEAR) then clear_flags cur 8 else cur)
  else if 6 =? RHINO_NO_WAIT then ret = Some RHINO_NO_PEND_WAIT /\ events s' = events EventDemo.state /\ tasks s' = tasks EventDemo.state
  else if 0 <? g_sched_lock EventDemo.state then
    ret = Some RHINO_SCHED_DISABLE /\ events s' = events EventDemo.state /\ tasks s' = tasks EventDemo.state
  else ret = None /\ events s' = events EventDemo.state /\ blocked_on 70 (g_active_task EventDemo.state) 6 s' /\
       let k := task_of s' (g_active_task EventDemo.state) in pend_flags k = 8 /\ pend_option k = RHINO_OR /\ pend_info k = 503.
Proof.
  apply (event_get_exact (env 1000 1) EventDemo.state 70 8 RHINO_OR 503 6).
  - exact (reached_kinv Demo.addrs Demo.mem Demo.heap0 Demo.addrs_ok EventDemo.calls EventDemo.state EventDemo.event_state_reached).
  - apply task_ctxb_ok. vm_compute. reflexivity.
  - vm_compute. reflexivity.
  - discriminate.
  - discriminate.
  - right. left. reflexivity.
  - unfold u32. lia.
  - vm_compute. reflexivity.
Defined.
