(* ===== verification/QueueEffects.v ===== *)
(** * Queues: messages in, messages out

    A message queue holds a list of pointers and a buffer queue a list of messages
    ([q_rep], [bq_rep]); a send appends or prepends one or hands it to the first
    receiver, a receive takes the oldest or blocks.  The ring-buffer part rests on
    [RingSpec]. *)
From S2P Require Import Prelude Bitmap KTypes RunQueue RingBuf Kernel Pend Alloc Task Sem Mutex Queue Event MmBlk Timer Workqueue TaskDyn Sys.
From S2P Require Import RingSpec Invariant InvPend PriInherit KInv ApiInv MutexInv TaskInv TaskApiInv TaskDelInv Reach Boot Safety Effects.
Import MsgQueue BufQueue RefAlloc.
Local Open Scope Z_scope.

Implicit Types (s : kstate) (t u w o p : Z) (k : ktask_t) (msgs : list Z) (ms : list (list Z)) (mg : list Z).

(** ** Message pointers as bytes *)
Lemma ptr_roundtrip p : u32 p -> le_word (ptr_bytes p) = p.
Proof.
  intros Hp. unfold ptr_bytes, le_word. rewrite !le_byte_at by lia. symmetry. apply byte_at_small. exact Hp.
Qed.

(** ** The abstract message queue *)
Record q_rep (q : kqueue_t) msgs : Prop := {
  qr_ring : rb_msgs (q_ringbuf q) (ptr_bytes <$> msgs);
  qr_type : rb_type (q_ringbuf q) = RINGBUF_TYPE_FIX;
  qr_blk : rb_blk_size (q_ringbuf q) = sizeof_ptr;
  qr_size : 1 <= q_size q < 2 ^ 30;
  qr_end : Z.of_nat (rb_end (q_ringbuf q)) = 4 * q_size q;
  qr_num : q_cur_num q = Z.of_nat (length msgs);
  qr_ptrs : Forall u32 msgs;
}.

(** The bytes in use: four per message. *)
Lemma q_rep_used rb msgs :
  rb_type rb = RINGBUF_TYPE_FIX -> length (concat (frame rb <$> (ptr_bytes <$> msgs))) = (4 * length msgs)%nat.
Proof.
  intros Ht. induction msgs as [|p msgs IH]; [done|]. rewrite !fmap_cons. cbn [concat]. rewrite length_app, IH.
  unfold frame. rewrite Ht. simpl. lia.
Qed.

Lemma q_rep_free q msgs : q_rep q msgs -> Z.of_nat (freesize (q_ringbuf q)) = 4 * (q_size q - Z.of_nat (length msgs)).
Proof.
  intros [Hr Ht Hb Hs He Hn Hp]. pose proof (rbb_free _ _ (rm_bytes _ _ Hr)) as Hf. rewrite q_rep_used in Hf by done. lia.
Qed.

Lemma ptr_msg_ok rb p : rb_type rb = RINGBUF_TYPE_FIX -> rb_blk_size rb = sizeof_ptr -> msg_ok rb (ptr_bytes p).
Proof. intros Ht Hb. unfold msg_ok. by rewrite Ht, Hb. Qed.

Lemma ptr_frame rb p : rb_type rb = RINGBUF_TYPE_FIX -> frame rb (ptr_bytes p) = ptr_bytes p.
Proof. intros Ht. unfold frame. by rewrite Ht. Qed.

(** A stored message, at either end. *)
Lemma q_rep_push q msgs p (to_end : bool) :
  q_rep q msgs -> u32 p -> Z.of_nat (length msgs) < q_size q ->
  let rb := q_ringbuf q in
  let rb' := if to_end then (ringbuf_push rb (ptr_bytes p)).2 else (ringbuf_head_push rb (ptr_bytes p)).2 in
  forall q', q_ringbuf q' = rb' -> q_size q' = q_size q -> q_cur_num q' = q_cur_num q + 1 ->
  q_rep q' (if to_end then msgs ++ [p] else p :: msgs).
Proof.
  intros Hq Hp Hlt rb rb' q' E1 E2 E3. pose proof (q_rep_free _ _ Hq) as Hf. destruct Hq as [Hr Ht Hb Hs He Hn Hps].
  assert (length (frame rb (ptr_bytes p)) <= freesize rb)%nat as Hfit by (rewrite ptr_frame by done; simpl; unfold rb; lia).
  pose proof (ptr_msg_ok rb p Ht Hb) as Hm.
  assert (exists ms', rb_msgs rb' ms' /\ same_shape rb rb' /\
    ms' = ptr_bytes <$> (if to_end then msgs ++ [p] else p :: msgs)) as (ms' & Hr' & (S1 & S2 & S3) & Em).
  { unfold rb'. destruct to_end.
    - destruct (push_msgs _ _ _ Hr Hm Hfit) as (r & Er & Hr' & Hsh & _). unfold rb. rewrite Er. exists ((ptr_bytes <$> msgs) ++ [ptr_bytes p]).
      split_and!; [done|done|]. by rewrite fmap_app.
    - destruct (head_push_msgs _ _ _ Hr Hm Hfit) as (r & Er & Hr' & Hsh). unfold rb. rewrite Er. exists (ptr_bytes p :: (ptr_bytes <$> msgs)).
      assert (stored (q_ringbuf q) (ptr_bytes p) = ptr_bytes p) as Es by (unfold stored, payload_wraps; by rewrite Ht).
      rewrite Es in Hr'. done. }
  split; rewrite ?E1, ?E2, ?E3, ?S1, ?S2, ?S3; try done.
  - by rewrite <- Em.
  - rewrite Hn. destruct to_end; [rewrite length_app|]; simpl; lia.
  - destruct to_end; [apply Forall_app; split; [done|by apply Forall_singleton]|by constructor].
Qed.

Lemma q_rep_pop q p msgs :
  q_rep q (p :: msgs) ->
  exists rb', ringbuf_pop (q_ringbuf q) = (RHINO_SUCCESS, ptr_bytes p, 4, rb') /\ le_word (ptr_bytes p) = p /\
  forall q', q_ringbuf q' = rb' -> q_size q' = q_size q -> q_cur_num q' = q_cur_num q - 1 -> q_rep q' msgs.
Proof.
  intros [Hr Ht Hb Hs He Hn Hps]. apply Forall_cons in Hps as [Hp Hps]. rewrite fmap_cons in Hr.
  destruct (pop_msgs _ _ _ Hr) as (rb' & E & Hr' & (S1 & S2 & S3) & _). exists rb'. split_and!; [done|by apply ptr_roundtrip|].
  intros q' E1 E2 E3. split; rewrite ?E1, ?E2, ?E3, ?S1, ?S2, ?S3; try done. rewrite Hn. simpl. lia.
Qed.

(** A queue created over [4 * msg_num] bytes is empty. *)
Lemma q_rep_create queue name start num flag mem s :
  queue <> NULL -> start <> NULL -> name <> NULL -> 1 <= num < 2 ^ 30 -> Z.of_nat (length mem) = 4 * num ->
  (queue_create queue name start num flag mem s).1 = RHINO_SUCCESS /\
  q_rep (queue_of (queue_create queue name start num flag mem s).2 queue) [].
Proof.
  intros H1 H2 H3 Hn Hm. unfold queue_create. rewrite !(proj2 (Z.eqb_neq _ _)) by (done || lia). split; [done|].
  destruct (init_msgs mem RINGBUF_TYPE_FIX sizeof_ptr) as (rb & E & Hr & E1 & E2 & E3).
  { split; [lia|]. right. split_and!; [done|unfold sizeof_ptr; lia|]. apply Nat2Z.inj. rewrite Nat2Z.inj_mod, Hm.
    change (Z.of_nat sizeof_ptr) with 4. rewrite Z.mul_comm. apply Z.mod_mul. lia. }
  rewrite E. cbn [snd]. unfold queue_of, RHINO_CRITICAL_ENTER, RHINO_CPU_INTRPT_DISABLE, RHINO_CRITICAL_EXIT, RHINO_CPU_INTRPT_ENABLE,
    set_obj_type, upd_blk, upd_queue; cbv beta iota zeta; cbn [snd]; rsimpl. rewrite !lookup_total_insert_eq.
  split; rsimpl; try done. rewrite E1. lia.
Qed.

(** ** Delivery to a blocked receiver *)

(** [f] writes message fields only. *)
Definition msg_fields (f : ktask_t -> ktask_t) : Prop := forall k,
  task_state (f k) = task_state k /\ tick_head (f k) = tick_head k /\ tick_match (f k) = tick_match k /\
  blk_obj (f k) = blk_obj k /\ suspend_count (f k) = suspend_count k /\ prio (f k) = prio k /\
  b_prio (f k) = b_prio k /\ mutex_list (f k) = mutex_list k.

Lemma deliver_first idle s o w r f :
  kbody idle none s -> blk_list (blk_of s o) = w :: r -> msg_fields f ->
  let s' := pend_end BLK_FINISH w (upd_task w f s) in
  blk_list (blk_of s' o) = r /\ task_of s' w = unpend BLK_FINISH (f (task_of s w)) /\
  wait_over BLK_FINISH (task_of s w) (task_of s' w) /\ queues s' = queues s /\ buf_queues s' = buf_queues s /\
  user_bufs s' = user_bufs s.
Proof.
  intros Hb El Hf. destruct (woken idle s o w r (kb_wf Hb) El) as (k & Hk & Hp & Ho).
  assert (w <> idle) as Hid.
  { eapply kwf_not_idle; [apply Hb|exact Hk|]. by destruct (is_pending_cases _ Hp) as [E|E]; rewrite E. }
  destruct (Hf k) as (F1 & F2 & F3 & F4 & F5 & F6 & F7 & F8).
  assert (kbody idle none (upd_task w f s)) as Hb1 by (by eapply set_msg_kbody).
  assert (tasks (upd_task w f s) !! w = Some (f k)) as Hk1.
  { rewrite (upd_task_eq s _ k) by done. rsimpl. apply lookup_insert_eq. }
  assert (is_pending (f k) = true) as Hp1 by (unfold is_pending in *; by rewrite F1). cbv zeta.
  split; [by eapply pend_end_list; [apply Hb1|..]|].
  assert (task_of (pend_end BLK_FINISH w (upd_task w f s)) w = unpend BLK_FINISH (f k)) as ->.
  { rewrite (pend_end_eq idle _ w (f k)) by (apply Hb1 || done). unfold task_of; rsimpl. by rewrite lookup_total_insert_eq. }
  rewrite (task_of_Some _ _ _ Hk). split_and!; [done| |by rewrite (pend_end_eq idle _ w (f k)) by (apply Hb1 || done)..].
  destruct (wait_over_unpend BLK_FINISH (f k)) as (W1 & W2 & W3 & W4 & W5). rewrite F1 in W1. rewrite F6 in W5. by split_and!.
Qed.

(** ** Message queues *)

(** [krhino_queue_back_send] and [krhino_queue_front_send], exactly: a full queue
    rejects the message; with a receiver waiting, the first one gets the message and
    becomes ready and the queue is unchanged; otherwise the message is stored at the
    chosen end. *)
Theorem queue_send_exact idle s queue p (to_end : bool) msgs :
  kinv idle s -> queue <> NULL -> obj_type (blk_of s queue) = RHINO_QUEUE_OBJ_TYPE -> q_rep (queue_of s queue) msgs -> u32 p ->
  let '(ret, s') := if to_end then krhino_queue_back_send queue p s else krhino_queue_front_send queue p s in
  if q_size (queue_of s queue) =? Z.of_nat (length msgs) then
    ret = RHINO_QUEUE_FULL /\ queues s' = queues s /\ tasks s' = tasks s
  else ret = RHINO_SUCCESS /\
    match blk_list (blk_of s queue) with
    | [] => q_rep (queue_of s' queue) (if to_end then msgs ++ [p] else p :: msgs) /\ tasks s' = tasks s
    | w :: r => blk_list (blk_of s' queue) = r /\ wait_over BLK_FINISH (task_of s w) (task_of s' w) /\
                msg (task_of s' w) = p /\ queues s' = queues s
    end.
Proof.
  intros Hk Hn Hty Hq Hp. unfold krhino_queue_back_send, krhino_queue_front_send.
  replace (if to_end then msg_send queue p QMSG_SEND_TO_END false s else msg_send queue p QMSG_SEND_TO_FRONT false s)
    with (msg_send queue p (if to_end then QMSG_SEND_TO_END else QMSG_SEND_TO_FRONT) false s) by (by destruct to_end).
  unfold msg_send. rewrite (proj2 (Z.eqb_neq _ _) Hn). kenter idle s. cbv zeta.
  change (blk_of s1 queue) with (blk_of s queue). change (queue_of s1 queue) with (queue_of s queue).
  rewrite decide_False by (by intros []). pose proof (q_rep_free _ _ Hq) as Hf. rewrite (qr_num _ _ Hq).
  replace (q_size (queue_of s queue) <=? Z.of_nat (length msgs)) with (q_size (queue_of s queue) =? Z.of_nat (length msgs))
    by (destruct (Z.eqb_spec (q_size (queue_of s queue)) (Z.of_nat (length msgs))),
          (Z.leb_spec (q_size (queue_of s queue)) (Z.of_nat (length msgs))); done || lia).
  destruct (Z.eqb_spec (q_size (queue_of s queue)) (Z.of_nat (length msgs))) as [E|E]; [done|].
  destruct (blk_list (blk_of s queue)) as [|w r] eqn:El.
  - split; [done|]. split; [|by match goal with |- context [if ?a <? ?b then _ else _] => destruct (a <? b) end].
    set (rb' := if to_end then (ringbuf_push (q_ringbuf (queue_of s queue)) (ptr_bytes p)).2
                else (ringbuf_head_push (q_ringbuf (queue_of s queue)) (ptr_bytes p)).2).
    assert (wrap32 (q_cur_num (queue_of s queue) + 1) = q_cur_num (queue_of s queue) + 1) as Ew.
    { apply wrap32_small. rewrite (qr_num _ _ Hq). pose proof (qr_size _ _ Hq). unfold u32. lia. }
    eapply (q_rep_push _ _ p to_end Hq Hp); [lia|..];
      unfold queue_of, RHINO_CRITICAL_EXIT, RHINO_CPU_INTRPT_ENABLE, upd_queue; rsimpl;
      (match goal with |- context [if ?a <? ?b then _ else _] => destruct (a <? b) end); rsimpl; rewrite ?lookup_total_insert_eq; rsimpl;
      try exact Ew; by destruct to_end.
  - split; [done|]. destruct (deliver_first idle s1 queue w r (fun k => k <| msg := p |>) (proj1 Hk1) El ltac:(done))
      as (D1 & D2 & D3 & D4 & _).
    change (task_msg_recv p w s1) with (pend_end BLK_FINISH w (upd_task w (fun k => k <| msg := p |>) s1)).
    set (s2 := pend_end BLK_FINISH w _) in *. clearbody s2. open_exit.
    change (task_of s2 w) with (task_of s2 w). split_and!; [exact D1|exact D3| |exact D4].
    etrans; [exact (f_equal msg D2)|done].
Qed.

(** The queue fields after a change that leaves [user_bufs] and the tasks alone. *)
Lemma queue_of_exit b s o : queue_of (RHINO_CRITICAL_EXIT b s) o = queue_of s o.
Proof. done. Qed.

Lemma queue_of_upd o f s : queue_of (upd_queue o f s) o = f (queue_of s o).
Proof. unfold queue_of, upd_queue; rsimpl. by rewrite lookup_total_insert_eq. Qed.

Lemma buf_queue_of_upd o f s : buf_queue_of (upd_buf_queue o f s) o = f (buf_queue_of s o).
Proof. unfold buf_queue_of, upd_buf_queue; rsimpl. by rewrite lookup_total_insert_eq. Qed.

(** [krhino_queue_recv] in a task, exactly: it takes the oldest message out of a
    non-empty queue; on an empty one it fails at once with [RHINO_NO_WAIT] or a locked
    scheduler and otherwise blocks the caller on the queue. *)
Theorem queue_recv_exact idle s queue ticks msgs :
  kinv idle s -> task_ctx idle s -> in_intrpt s = false -> queue <> NULL -> obj_type (blk_of s queue) = RHINO_QUEUE_OBJ_TYPE ->
  q_rep (queue_of s queue) msgs -> u32 ticks ->
  let '(ret, m, s') := krhino_queue_recv queue ticks false s in
  match msgs with
  | p :: rest => ret = Some RHINO_SUCCESS /\ m = Some p /\ q_rep (queue_of s' queue) rest /\ tasks s' = tasks s
  | [] => if ticks =? RHINO_NO_WAIT then ret = Some RHINO_NO_PEND_WAIT /\ queues s' = queues s /\ tasks s' = tasks s
          else if 0 <? g_sched_lock s then ret = Some RHINO_SCHED_DISABLE /\ queues s' = queues s /\ tasks s' = tasks s
          else ret = None /\ queues s' = queues s /\ blocked_on queue (g_active_task s) ticks s'
  end.
Proof.
  intros Hk Hc Hi Hn Hty Hq Hto. destruct (running_task idle s Hk Hc Hi) as (k & Ht & Hr & Hid).
  pose proof (krhino_queue_recv_kinv idle s queue ticks false Hk Hc Hto) as Hk'. revert Hk'.
  unfold krhino_queue_recv. rewrite (proj2 (Z.eqb_neq _ _) Hn). kenter idle s. cbv zeta.
  change (blk_of s1 queue) with (blk_of s queue). change (queue_of s1 queue) with (queue_of s queue).
  change (0 <? g_intrpt_nested_level s1) with (in_intrpt s). rewrite Hi, decide_False by (by intros []). cbn [andb].
  rewrite (qr_num _ _ Hq). destruct msgs as [|p rest].
  - change (0 <? Z.of_nat (length (A:=Z) [])) with false. cbv iota. change (g_sched_lock s1) with (g_sched_lock s). destruct (ticks =? RHINO_NO_WAIT) eqn:E1; [done|].
    destruct (0 <? g_sched_lock s) eqn:E2; [done|]. cbn [snd]. change (g_active_task s1) with (g_active_task s).
    intros Hk'. pose proof (kb_nest (proj1 Hk)). unfold in_intrpt in Hi.
    destruct (block_result idle s1 queue (g_active_task s) k ticks _ (kb_wf (proj1 Hk1)) Ht Hr Hid Hto ltac:(lia)
      (proj1 Hc) ltac:(change (g_intrpt_nested_level s1) with (g_intrpt_nested_level s); lia) Hk') as (B & _ & _ & E & _). done.
  - intros _. rewrite (proj2 (Z.ltb_lt 0 _)) by (simpl; lia). destruct (q_rep_pop _ _ _ Hq) as (rb' & -> & Ew & Hrep).
    split_and!; [done|by rewrite Ew| |done]. rewrite queue_of_exit, !queue_of_upd.
    change (queue_of s1 queue) with (queue_of s queue). revert Hrep Hq. clear. generalize (queue_of s queue). intros q Hrep Hq.
    apply Hrep; rsimpl; [done|done|]. pose proof (qr_size _ _ Hq). pose proof (q_rep_free _ _ Hq) as Hf.
    rewrite (qr_num _ _ Hq). cbn [length] in *. apply wrap32_small. unfold u32. lia.
Qed.

(** ** Buffer queues *)
Record bq_rep (q : kbuf_queue_t) ms : Prop := {
  br_ring : rb_msgs (bq_ringbuf q) ms;
  br_type : rb_type (bq_ringbuf q) = RINGBUF_TYPE_DYN;
  br_num : bq_cur_num q = Z.of_nat (length ms);
  br_end : Z.of_nat (rb_end (bq_ringbuf q)) < 2 ^ 32;
}.

(** Every message takes at least one byte, so the counter does not wrap. *)
Lemma bq_rep_count q ms : bq_rep q ms -> Z.of_nat (length ms) + Z.of_nat (freesize (bq_ringbuf q)) < 2 ^ 32.
Proof.
  intros [[_ Hok Hb] Ht _ He]. pose proof (rbb_free _ _ Hb) as Hf. set (rb := bq_ringbuf q) in *. clearbody rb.
  assert (length ms <= length (concat (frame rb <$> ms)))%nat; [|lia]. clear Hf Hb.
  induction Hok as [|m ms Hm _ IH]; [simpl; lia|]. rewrite fmap_cons. cbn [concat length]. rewrite length_app.
  unfold msg_ok in Hm. unfold frame at 1. rewrite Ht in *. cbn [Z.eqb RINGBUF_TYPE_DYN RINGBUF_TYPE_FIX] in *. rewrite length_app. lia.
Qed.

(** A stored message, at either end; [stored] is the payload as it will be read back. *)
Lemma bq_rep_push q ms mg (front : bool) :
  bq_rep q ms -> msg_ok (bq_ringbuf q) mg -> (length (frame (bq_ringbuf q) mg) <= freesize (bq_ringbuf q))%nat ->
  exists rb', (if front then ringbuf_head_push (bq_ringbuf q) mg else ringbuf_push (bq_ringbuf q) mg) = (RHINO_SUCCESS, rb') /\
  forall q', bq_ringbuf q' = rb' -> bq_cur_num q' = wrap32 (bq_cur_num q + 1) ->
  bq_rep q' (if front then stored (bq_ringbuf q) mg :: ms else ms ++ [mg]).
Proof.
  intros Hq Hm Hfit. pose proof (bq_rep_count _ _ Hq) as Hc. destruct Hq as [Hr Ht Hn He].
  assert (1 <= length (frame (bq_ringbuf q) mg))%nat as H1.
  { unfold msg_ok in Hm. unfold frame. rewrite Ht in *. cbn [Z.eqb RINGBUF_TYPE_DYN RINGBUF_TYPE_FIX] in *. rewrite length_app. lia. }
  assert (wrap32 (bq_cur_num q + 1) = Z.of_nat (length ms) + 1) as Ew by (rewrite Hn; apply wrap32_small; unfold u32; lia).
  destruct front.
  - destruct (head_push_msgs _ _ _ Hr Hm Hfit) as (rb' & E & Hr' & S1 & S2 & S3). exists rb'. split; [done|].
    intros q' E1 E2. split; rewrite ?E1, ?S1, ?S2; try done. rewrite E2, Ew. simpl. lia.
  - destruct (push_msgs _ _ _ Hr Hm Hfit) as (rb' & E & Hr' & (S1 & S2 & S3) & _). exists rb'. split; [done|].
    intros q' E1 E2. split; rewrite ?E1, ?S1, ?S2; try done. rewrite E2, Ew, length_app. simpl. lia.
Qed.

Lemma bq_rep_pop q m ms :
  bq_rep q (m :: ms) ->
  exists rb', ringbuf_pop (bq_ringbuf q) = (RHINO_SUCCESS, m, Z.of_nat (length m), rb') /\
  forall q', bq_ringbuf q' = rb' -> bq_cur_num q' = wrap32 (bq_cur_num q - 1) -> bq_rep q' ms.
Proof.
  intros Hq. pose proof (bq_rep_count _ _ Hq) as Hc. destruct Hq as [Hr Ht Hn He].
  destruct (pop_msgs _ _ _ Hr) as (rb' & E & Hr' & (S1 & S2 & S3) & _). exists rb'. split; [done|].
  intros q' E1 E2. split; rewrite ?E1, ?S1, ?S2; try done. rewrite E2, Hn. cbn [length] in *.
  rewrite wrap32_small by (unfold u32; lia). lia.
Qed.

Lemma bq_rep_empty q ms : bq_rep q ms -> ringbuf_is_empty (bq_ringbuf q) = match ms with [] => true | _ => false end.
Proof.
  intros [[_ Hok Hb] Ht _ _]. rewrite (not_empty _ _ Hb). destruct ms as [|m ms]; [done|].
  apply Forall_cons in Hok as [Hm _]. rewrite fmap_cons. cbn [concat]. unfold msg_ok in Hm. unfold frame at 1. rewrite Ht in *.
  cbn [Z.eqb RINGBUF_TYPE_DYN RINGBUF_TYPE_FIX] in *. rewrite !length_app. apply Nat.eqb_neq. lia.
Qed.

(** A freshly created buffer queue is empty. *)
Lemma bq_rep_create queue name buf size mx flag mem s :
  queue <> NULL -> buf <> NULL -> name <> NULL -> mx <> 0 -> size = Z.of_nat (length mem) -> 1 <= size < 2 ^ 32 ->
  (buf_queue_create queue name buf size mx flag mem s).1 = RHINO_SUCCESS /\
  bq_rep (buf_queue_of (buf_queue_create queue name buf size mx flag mem s).2 queue) [].
Proof.
  intros H1 H2 H3 Hx Hm Hs. unfold buf_queue_create. rewrite !(proj2 (Z.eqb_neq _ _)) by (done || lia). split; [done|].
  destruct (init_msgs mem RINGBUF_TYPE_DYN 0) as (rb & E & Hr & E1 & E2 & E3); [split; [lia|by left]|].
  rewrite E. cbn [snd]. unfold RHINO_CRITICAL_ENTER, RHINO_CPU_INTRPT_DISABLE; cbv beta iota zeta; cbn [snd].
  rewrite !buf_queue_of_upd. unfold buf_queue_of, set_obj_type, upd_blk, RHINO_CRITICAL_EXIT, RHINO_CPU_INTRPT_ENABLE, upd_buf_queue; rsimpl.
  rewrite !lookup_total_insert_eq. split; rsimpl; try done. rewrite E1. lia.
Qed.

Lemma buf_queue_of_exit b s o : buf_queue_of (RHINO_CRITICAL_EXIT b s) o = buf_queue_of s o.
Proof. done. Qed.

(** C13: [krhino_buf_queue_send] and [krhino_buf_queue_send_front] on every branch: the
    size checks; with a receiver waiting, the message is copied to its buffer, its size
    recorded and the receiver made ready; otherwise the message is framed into the ring
    buffer at the chosen end, or rejected when header and payload do not fit.  A message
    sent to the front is the one [stored] describes. *)
Theorem buf_queue_send_exact idle s queue mg (front : bool) ms :
  kinv idle s -> queue <> NULL -> obj_type (blk_of s queue) = RHINO_BUF_QUEUE_OBJ_TYPE -> bq_rep (buf_queue_of s queue) ms ->
  Z.of_nat (length mg) <= RINGBUF_LEN_3BYTES_MAXVALUE ->
  let q := buf_queue_of s queue in
  let '(ret, s') := if front then krhino_buf_queue_send_front queue (Some mg) s else krhino_buf_queue_send queue (Some mg) s in
  if max_msg_size q <? Z.of_nat (length mg) then ret = RHINO_BUF_QUEUE_MSG_SIZE_OVERFLOW /\ buf_queues s' = buf_queues s /\ tasks s' = tasks s
  else if (length mg =? 0)%nat then ret = RHINO_INV_PARAM /\ buf_queues s' = buf_queues s /\ tasks s' = tasks s
  else match blk_list (blk_of s queue) with
  | w :: r => ret = RHINO_SUCCESS /\ blk_list (blk_of s' queue) = r /\ wait_over BLK_FINISH (task_of s w) (task_of s' w) /\
      bq_msg_size (task_of s' w) = Z.of_nat (length mg) /\ buf_queues s' = buf_queues s /\
      user_bufs s' !!! msg (task_of s w) = mem_write 0 mg (user_bufs s !!! msg (task_of s w))
  | [] => tasks s' = tasks s /\
      if (length (frame (bq_ringbuf q) mg) <=? freesize (bq_ringbuf q))%nat
      then ret = RHINO_SUCCESS /\ bq_rep (buf_queue_of s' queue) (if front then stored (bq_ringbuf q) mg :: ms else ms ++ [mg])
      else ret = RHINO_BUF_QUEUE_FULL /\ bq_rep (buf_queue_of s' queue) ms
  end.
Proof.
  intros Hk Hn Hty Hq Hl. cbv zeta. unfold krhino_buf_queue_send, krhino_buf_queue_send_front. rewrite (proj2 (Z.eqb_neq _ _) Hn).
  replace (if front then buf_queue_send queue mg true s else buf_queue_send queue mg false s) with (buf_queue_send queue mg front s)
    by (by destruct front).
  unfold buf_queue_send. kenter idle s. cbv zeta.
  change (blk_of s1 queue) with (blk_of s queue). change (buf_queue_of s1 queue) with (buf_queue_of s queue).
  rewrite decide_False by (by intros []). destruct (_ <? _) eqn:E1; [done|].
  replace (Z.of_nat (length mg) =? 0) with (length mg =? 0)%nat
    by (destruct (Nat.eqb_spec (length mg) 0), (Z.eqb_spec (Z.of_nat (length mg)) 0); done || lia).
  destruct (Nat.eqb_spec (length mg) 0) as [E2|E2]; [done|]. destruct (blk_list (blk_of s queue)) as [|w r] eqn:El.
  - assert (msg_ok (bq_ringbuf (buf_queue_of s queue)) mg) as Hm by (unfold msg_ok; rewrite (br_type _ _ Hq); simpl; lia).
    destruct (Nat.leb_spec (length (frame (bq_ringbuf (buf_queue_of s queue)) mg)) (freesize (bq_ringbuf (buf_queue_of s queue)))) as [Hfit|Hfull].
    + destruct (bq_rep_push _ _ _ front Hq Hm Hfit) as (rb' & -> & Hrep). rewrite decide_True by done.
      split; [by repeat match goal with |- context [if ?a <? ?b then _ else _] => destruct (a <? b) end|]. split; [done|].
      rewrite buf_queue_of_exit.
      repeat (match goal with |- context [if ?a <? ?b then upd_buf_queue _ _ _ else _] => destruct (a <? b) end);
        rewrite !buf_queue_of_upd; apply Hrep; done.
    + destruct (push_full _ _ _ (br_ring _ _ Hq) Hm Hfull) as [F1 F2].
      replace (if front then _ else _) with (RHINO_RINGBUF_FULL, bq_ringbuf (buf_queue_of s queue)) by (by destruct front).
      rewrite decide_False by done. split; [done|]. rewrite decide_True by done. split; [done|].
      rewrite buf_queue_of_exit, buf_queue_of_upd. change (buf_queue_of s1 queue) with (buf_queue_of s queue).
      destruct Hq. by split.
  - split; [done|]. set (p := msg (task_of s1 w)). change (msg (task_of s w)) with p.
    set (s2 := s1 <| user_bufs := <[p := mem_write 0 mg (user_bufs s1 !!! p)]> (user_bufs s1) |>).
    assert (kinv idle s2) as [Hb2 _] by (by apply user_bufs_kinv).
    destruct (deliver_first idle s2 queue w r (fun k => k <| bq_msg_size := Z.of_nat (length mg) |>) Hb2 El ltac:(done))
      as (D1 & D2 & D3 & _ & D4 & D5).
    change (pend_task_wakeup w ?x) with (pend_end BLK_FINISH w x).
    set (s3 := pend_end BLK_FINISH w _) in *. clearbody s3. open_exit. split_and!; [exact D1|exact D3| |exact D4|].
    + etrans; [exact (f_equal bq_msg_size D2)|done].
    + change (user_bufs s3 !!! p = mem_write 0 mg (user_bufs s !!! p)). rewrite D5. unfold s2; rsimpl. by rewrite lookup_total_insert_eq.
Qed.

(** [krhino_buf_queue_recv] in a task: the oldest message is copied to the caller's
    buffer and its length reported; on an empty queue the call fails at once or blocks,
    leaving the address of the buffer for the sender. *)
Theorem buf_queue_recv_exact idle s queue ticks p ms :
  kinv idle s -> task_ctx idle s -> in_intrpt s = false -> queue <> NULL -> p <> NULL ->
  obj_type (blk_of s queue) = RHINO_BUF_QUEUE_OBJ_TYPE -> bq_rep (buf_queue_of s queue) ms -> u32 ticks ->
  let '(ret, size, s') := krhino_buf_queue_recv queue ticks p false s in
  match ms with
  | m :: rest => ret = Some RHINO_SUCCESS /\ size = Some (Z.of_nat (length m)) /\ bq_rep (buf_queue_of s' queue) rest /\
      tasks s' = tasks s /\ user_bufs s' !!! p = mem_write 0 m (user_bufs s !!! p)
  | [] => if ticks =? RHINO_NO_WAIT then ret = Some RHINO_NO_PEND_WAIT /\ size = Some 0 /\ buf_queues s' = buf_queues s /\ tasks s' = tasks s
          else if 0 <? g_sched_lock s then ret = Some RHINO_SCHED_DISABLE /\ size = Some 0 /\ buf_queues s' = buf_queues s /\ tasks s' = tasks s
          else ret = None /\ buf_queues s' = buf_queues s /\ blocked_on queue (g_active_task s) ticks s' /\
               msg (task_of s' (g_active_task s)) = p
  end.
Proof.
  intros Hk Hc Hi Hn Hp Hty Hq Hto. destruct (running_task idle s Hk Hc Hi) as (k & Ht & Hr & Hid).
  pose proof (krhino_buf_queue_recv_kinv idle s queue ticks p false Hk Hc Hto) as Hk'. revert Hk'.
  unfold krhino_buf_queue_recv. rewrite !(proj2 (Z.eqb_neq _ _)) by done. kenter idle s. cbv zeta.
  change (blk_of s1 queue) with (blk_of s queue). change (buf_queue_of s1 queue) with (buf_queue_of s queue).
  change (0 <? g_intrpt_nested_level s1) with (in_intrpt s). rewrite Hi, decide_False by (by intros []). cbn [andb].
  rewrite (bq_rep_empty _ _ Hq). destruct ms as [|m rest]; cbn [negb].
  - change (g_sched_lock s1) with (g_sched_lock s). destruct (ticks =? RHINO_NO_WAIT) eqn:E1; [done|].
    destruct (0 <? g_sched_lock s) eqn:E2; [done|]. cbn [snd]. change (g_active_task s1) with (g_active_task s).
    intros Hk'. pose proof (kb_nest (proj1 Hk)). unfold in_intrpt in Hi.
    set (f := fun k : ktask_t => k <| msg := p |>) in *.
    assert (kbody idle none (upd_task (g_active_task s) f s1)) as Hb2.
    { by eapply (set_msg_kbody idle none s1 (g_active_task s) k f (proj1 Hk1)). }
    assert (tasks (upd_task (g_active_task s) f s1) !! g_active_task s = Some (f k)) as Ht2.
    { rewrite (upd_task_eq s1 _ k) by done. rsimpl. apply lookup_insert_eq. }
    change (g_active_task (upd_task (g_active_task s) f s1)) with (g_active_task s) in Hk' |- *.
    destruct (block_result idle _ queue (g_active_task s) (f k) ticks _ (kb_wf Hb2) Ht2 Hr Hid Hto ltac:(lia)
      (proj1 Hc) ltac:(change (g_intrpt_nested_level s = 0); lia) Hk') as (B & _ & _ & _ & E & _ & _ & Epd).
    split_and!; [done|exact E|exact B|]. etrans; [exact (f_equal msg Epd)|]. unfold pended. by destruct (timed ticks).
  - intros _. destruct (bq_rep_pop _ _ _ Hq) as (rb' & -> & Hrep). split_and!; [done|done| |done|].
    + rewrite buf_queue_of_exit, !buf_queue_of_upd. by apply Hrep.
    + change (user_bufs (s1 <| user_bufs := <[p := mem_write 0 m (user_bufs s !!! p)]> (user_bufs s) |>) !!! p = mem_write 0 m (user_bufs s !!! p)).
      rsimpl. by rewrite lookup_total_insert_eq.
Qed.

(** ** Witnesses *)
Module QueueDemo.
(** A message queue of two pointers and a buffer queue of 16 bytes, each holding one
    message; task 1 runs. *)
Definition calls : list kcall := [
  C_queue_create 80 1 81 2 K_OBJ_STATIC_ALLOC (replicate 8 0);
  C_buf_queue_create 90 1 91 16 10 K_OBJ_STATIC_ALLOC (replicate 16 0);
  C_task_create 1 1 0 20 0 1 64 1 1 K_OBJ_STATIC_ALLOC 0;
  C_start Demo.wq;
  C_queue_recv 1040 RHINO_WAIT_FOREVER false; C_sem_take 1010 RHINO_WAIT_FOREVER; C_sem_take 1066 RHINO_WAIT_FOREVER;
  C_msg_send 80 305419896 QMSG_SEND_TO_END false; C_buf_queue_send 90 [5; 6; 7] false ].

Definition state : kstate :=
  default kstate_zero (krun (env 1000 1) calls (krhino_init Demo.addrs Demo.mem Demo.heap0 kstate_zero).2).

Lemma queue_state_reached : reached Demo.addrs Demo.mem Demo.heap0 calls state.
Proof. vm_compute. reflexivity. Qed.

Lemma state_kinv : kinv (env 1000 1) state.
Proof. exact (reached_kinv Demo.addrs Demo.mem Demo.heap0 Demo.addrs_ok calls state queue_state_reached). Qed.

Definition queue80 : kqueue_t := Eval vm_compute in queue_of state 80.
Definition queue90 : kbuf_queue_t := Eval vm_compute in buf_queue_of state 90.

Lemma queue_rep : q_rep (queue_of state 80) [305419896].
Proof.
  assert (queue_of state 80 = queue80) as -> by (vm_compute; reflexivity).
  split; [split; [left|apply Forall_singleton|split; [..|intros k Hk; change (k < 4)%nat in Hk]]|..]; cbn;
    try (reflexivity || lia || (repeat split; lia)).
  - do 4 (destruct k as [|k]; [reflexivity|]). lia.
  - apply Forall_singleton. unfold u32. lia.
Qed.

Lemma buf_queue_rep : bq_rep (buf_queue_of state 90) [[5; 6; 7]].
Proof.
  assert (buf_queue_of state 90 = queue90) as -> by (vm_compute; reflexivity).
  split; [split; [right|apply Forall_singleton|split; [..|intros k Hk; change (k < 4)%nat in Hk]]|..]; cbn;
    try (reflexivity || lia || (repeat split; discriminate)).
  do 4 (destruct k as [|k]; [reflexivity|]). lia.
Qed.
End QueueDemo.

Lemma queue_send_exact_witness :
  let '(ret, s') := krhino_queue_front_send 80 7 QueueDemo.state in
  if q_size (queue_of QueueDemo.state 80) =? 1 then ret = RHINO_QUEUE_FULL /\ queues s' = queues QueueDemo.state /\ tasks s' = tasks QueueDemo.state
  else ret = RHINO_SUCCESS /\
    match blk_list (blk_of QueueDemo.state 80) with
    | [] => q_rep (queue_of s' 80) [7; 305419896] /\ tasks s' = tasks QueueDemo.state
    | w :: r => blk_list (blk_of s' 80) = r /\ wait_over BLK_FINISH (task_of QueueDemo.state w) (task_of s' w) /\
                msg (task_of s' w) = 7 /\ queues s' = queues QueueDemo.state
    end.
Proof.
  apply (queue_send_exact (env 1000 1) QueueDemo.state 80 7 false [305419896]);
    [exact QueueDemo.state_kinv|discriminate|vm_compute; reflexivity|exact QueueDemo.queue_rep|vm_compute; split; discriminate || reflexivity].
Defined.

Lemma queue_recv_exact_witness :
  let '(ret, m, s') := krhino_queue_recv 80 9 false QueueDemo.state in
  ret = Some RHINO_SUCCESS /\ m = Some 305419896 /\ q_rep (queue_of s' 80) [] /\ tasks s' = tasks QueueDemo.state.
Proof.
  apply (queue_recv_exact (env 1000 1) QueueDemo.state 80 9 [305419896]);
    [exact QueueDemo.state_kinv|apply task_ctxb_ok; vm_compute; reflexivity|vm_compute; reflexivity|discriminate|vm_compute; reflexivity
    |exact QueueDemo.queue_rep|vm_compute; split; discriminate || reflexivity].
Defined.

Lemma buf_queue_send_exact_witness :
  let q := buf_queue_of QueueDemo.state 90 in
  let '(ret, s') := krhino_buf_queue_send 90 (Some [1; 2]) QueueDemo.state in
  if max_msg_size q <? 2 then ret = RHINO_BUF_QUEUE_MSG_SIZE_OVERFLOW /\ buf_queues s' = buf_queues QueueDemo.state /\ tasks s' = tasks QueueDemo.state
  else if (2 =? 0)%nat then ret = RHINO_INV_PARAM /\ buf_queues s' = buf_queues QueueDemo.state /\ tasks s' = tasks QueueDemo.state
  else match blk_list (blk_of QueueDemo.state 90) with
  | w :: r => ret = RHINO_SUCCESS /\ blk_list (blk_of s' 90) = r /\ wait_over BLK_FINISH (task_of QueueDemo.state w) (task_of s' w) /\
      bq_msg_size (task_of s' w) = 2 /\ buf_queues s' = buf_queues QueueDemo.state /\
      user_bufs s' !!! msg (task_of QueueDemo.state w) = mem_write 0 [1; 2] (user_bufs QueueDemo.state !!! msg (task_of QueueDemo.state w))
  | [] => tasks s' = tasks QueueDemo.state /\
      if (length (frame (bq_ringbuf q) [1; 2]%Z) <=? freesize (bq_ringbuf q))%nat
      then ret = RHINO_SUCCESS /\ bq_rep (buf_queue_of s' 90) [[5; 6; 7]; [1; 2]]
      else ret = RHINO_BUF_QUEUE_FULL /\ bq_rep (buf_queue_of s' 90) [[5; 6; 7]]
  end.
Proof.
  apply (buf_queue_send_exact (env 1000 1) QueueDemo.state 90 [1; 2] false [[5; 6; 7]]);
    [exact QueueDemo.state_kinv|discriminate|vm_compute; reflexivity|exact QueueDemo.buf_queue_rep|vm_compute; discriminate].
Defined.

Lemma buf_queue_recv_exact_witness :
  let '(ret, size, s') := krhino_buf_queue_recv 90 9 500 false QueueDemo.state in
  ret = Some RHINO_SUCCESS /\ size = Some 3 /\ bq_rep (buf_queue_of s' 90) [] /\ tasks s' = tasks QueueDemo.state /\
  user_bufs s' !!! 500 = mem_write 0 [5; 6; 7] (user_bufs QueueDemo.state !!! 500).
Proof.
  apply (buf_queue_recv_exact (env 1000 1) QueueDemo.state 90 9 500 [[5; 6; 7]]);
    [exact QueueDemo.state_kinv|apply task_ctxb_ok; vm_compute; reflexivity|vm_compute; reflexivity|discriminate|discriminate
    |vm_compute; reflexivity|exact QueueDemo.buf_queue_rep|vm_compute; split; discriminate || reflexivity].
Defined.
