(* ===== verification/Errors.v ===== *)
(** * Error paths and termination

    [kcall_stat] is the status a call returns ([None] when the caller blocks or nothing
    is returned).  A call that fails has changed nothing that a task can observe:
    [errors_change_nothing].  The exceptions are listed in [err_effect].  The loop of
    [task_pri_change] ends in every state of the kernel: [pri_propagation_terminates]. *)
From S2P Require Import Prelude Bitmap KTypes RunQueue RingBuf Kernel Pend Alloc Task Sem Mutex Queue Event MmBlk Timer Workqueue TaskDyn Sys.
From S2P Require Import Invariant InvPend PriInherit KInv ApiInv MutexInv TaskInv TaskApiInv TaskDelInv TaskDynInv Cx Reach Boot Safety.
Import MsgQueue BufQueue RefAlloc.
Local Open Scope Z_scope.

Implicit Types (s : kstate) (t u w m o : Z) (k : ktask_t).

Definition kcall_stat (c : kcall) s : option kstat_t :=
  match c with
  | C_start W => (krhino_start W s).1
  | C_intrpt_enter => Some (krhino_intrpt_enter s).1
  | C_intrpt_exit | C_tick | C_dyn_mem_take | C_blocked_return => None
  | C_sched_disable => Some (krhino_sched_disable s).1
  | C_sched_enable => Some (krhino_sched_enable s).1
  | C_task_create task name arg pri ticks sb ss entry ar mm cpu =>
      Some (task_create task name arg pri ticks sb ss entry ar mm cpu s).1
  | C_task_del task => Some (krhino_task_del task s).1
  | C_task_sleep ticks => (krhino_task_sleep ticks s).1
  | C_task_yield => Some (krhino_task_yield s).1
  | C_task_suspend task => Some (krhino_task_suspend task s).1
  | C_task_resume task => Some (krhino_task_resume task s).1
  | C_task_pri_change task pri on => Some (krhino_task_pri_change task pri on s).1.1
  | C_task_wait_abort task => Some (krhino_task_wait_abort task s).1
  | C_task_time_slice_set task slice => Some (krhino_task_time_slice_set task slice s).1
  | C_sched_policy_set task policy => Some (krhino_sched_policy_set task policy s).1
  | C_task_info_set task idx info => Some (krhino_task_info_set task idx info s).1
  | C_sem_create sem name cnt flag => Some (sem_create sem name cnt flag s).1
  | C_sem_del flag sem => Some (sem_del_with flag sem s).1
  | C_sem_give sem => Some (krhino_sem_give sem s).1
  | C_sem_give_all sem => Some (krhino_sem_give_all sem s).1
  | C_sem_take sem ticks => (krhino_sem_take sem ticks s).1
  | C_sem_count_set sem n => Some (krhino_sem_count_set sem n s).1
  | C_mutex_create mutex name flag => Some (mutex_create mutex name flag s).1
  | C_mutex_del flag mutex => Some (mutex_del_with flag mutex s).1
  | C_mutex_lock mutex ticks => (krhino_mutex_lock mutex ticks s).1
  | C_mutex_unlock mutex => Some (krhino_mutex_unlock mutex s).1
  | C_event_create event name fl flag => Some (event_create event name fl flag s).1
  | C_event_del flag event => Some (event_del_with flag event s).1
  | C_event_get event fl opt actl ticks => (krhino_event_get event fl opt actl ticks s).1
  | C_event_set event fl opt => Some (krhino_event_set event fl opt s).1
  | C_queue_create queue name start num flag mem => Some (queue_create queue name start num flag mem s).1
  | C_queue_del flag queue => Some (queue_del_with flag queue s).1
  | C_msg_send queue p opt all => Some (msg_send queue p opt all s).1
  | C_queue_recv queue ticks mn => (krhino_queue_recv queue ticks mn s).1.1
  | C_queue_flush queue => Some (krhino_queue_flush queue s).1
  | C_buf_queue_create queue name buf size mx flag mem => Some (buf_queue_create queue name buf size mx flag mem s).1
  | C_buf_queue_del flag queue => Some (buf_queue_del_with flag queue s).1
  | C_buf_queue_send queue data front => Some (buf_queue_send queue data front s).1
  | C_buf_queue_recv queue ticks p sn => (krhino_buf_queue_recv queue ticks p sn s).1.1
  | C_buf_queue_flush queue => Some (krhino_buf_queue_flush queue s).1
  | C_task_sem_create task sem name cnt => Some (krhino_task_sem_create task sem name cnt s).1
  | C_task_sem_del task => Some (krhino_task_sem_del task s).1
  | C_task_sem_give task => Some (krhino_task_sem_give task s).1
  | C_task_sem_take ticks => (krhino_task_sem_take ticks s).1
  | C_task_sem_count_set task n => Some (krhino_task_sem_count_set task n s).1
  | C_task_dyn_del res_sem task => Some (krhino_task_dyn_del res_sem task s).1
  end.

(** Statuses that report an error: [RHINO_MUTEX_OWNER_NESTED] reports a nested lock or
    unlock that took place. *)
Definition is_error (r : kstat_t) : bool := negb (bool_decide (r = RHINO_SUCCESS)) && negb (bool_decide (r = RHINO_MUTEX_OWNER_NESTED)).

(** Calls that have an effect although they return an error status: [krhino_sched_enable]
    that only undoes one level of a nested lock, [krhino_task_del] of the idle task, which
    leaves interrupts masked, [krhino_task_sem_create], which resets the task's semaphore,
    and [krhino_task_dyn_del] when the semaphore of the memory task is exhausted. *)
Definition err_effect (c : kcall) s : bool :=
  match c with
  | C_sched_enable => 1 <? g_sched_lock s
  | C_task_del _ => deletes_idle c s
  | C_task_sem_create _ _ _ _ => true
  | C_task_dyn_del rs _ =>
      (rs =? NULL) || negb (bool_decide (obj_type (blk_of s rs) = RHINO_SEM_OBJ_TYPE)) || (count (sem_of s rs) =? SEM_COUNT_MAX)
  | _ => false
  end.

(** Equal but for the error log, and with buffer queues that read the same. *)
Definition unchanged s s' : Prop :=
  exists l bq, s' = s <| err_log := l |> <| buf_queues := bq |> /\ forall o, bq !!! o = buf_queues s !!! o.

Lemma unchanged_log s l : unchanged s (s <| err_log := l |>).
Proof. exists l, (buf_queues s). split; [by destruct s|done]. Qed.

Lemma unchanged_refl s : unchanged s s.
Proof. exists (err_log s), (buf_queues s). split; [by destruct s|done]. Qed.

Lemma unchanged_exit s : unchanged s (RHINO_CRITICAL_EXIT (intrpt_masked s) (s <| intrpt_masked := true |>)).
Proof. exists (err_log s), (buf_queues s). split; [by destruct s|done]. Qed.

Lemma unchanged_exit_err s e : unchanged s (RHINO_CRITICAL_EXIT (intrpt_masked s) (k_err_proc e (s <| intrpt_masked := true |>))).
Proof. exists (err_log s ++ [e]), (buf_queues s). split; [by destruct s|done]. Qed.

(** A call whose error returns change nothing. *)
Definition err_keeps (r : option kstat_t) s s' : Prop :=
  match r with Some r => is_error r = true -> unchanged s s' | None => True end.

Create HintDb err.
#[export] Hint Resolve unchanged_refl unchanged_exit unchanged_exit_err : err.

(** Split a call into its branches: the early returns change nothing, the others succeed. *)
Ltac err_branch :=
  cbn [fst snd err_keeps];
  lazymatch goal with
  | |- err_keeps None _ _ => exact I
  | |- True => exact I
  | |- is_error RHINO_SUCCESS = true -> _ => intros; discriminate
  | |- is_error RHINO_MUTEX_OWNER_NESTED = true -> _ => intros; discriminate
  | |- context [fst (match ?x with _ => _ end)] => destruct x; err_branch
  | |- context [fst (fst (match ?x with _ => _ end))] => destruct x; err_branch
  | |- _ => intros _; auto with err
  end.
Ltac err_call := unfold RHINO_CRITICAL_ENTER, RHINO_CPU_INTRPT_DISABLE; cbv beta iota zeta; err_branch.

Section Calls.
Context (s : kstate).

Lemma err_task_create t n a p ti sb ss e ar mm cpu : let r := task_create t n a p ti sb ss e ar mm cpu s in err_keeps (Some r.1) s r.2.
Proof. cbv zeta. unfold task_create. err_call. Qed.
Lemma err_task_sleep n : let r := krhino_task_sleep n s in err_keeps r.1 s r.2.
Proof. cbv zeta. unfold krhino_task_sleep. err_call. Qed.
Lemma err_task_suspend t : let r := krhino_task_suspend t s in err_keeps (Some r.1) s r.2.
Proof. cbv zeta. unfold krhino_task_suspend, task_suspend. err_call. Qed.
Lemma err_task_resume t : let r := krhino_task_resume t s in err_keeps (Some r.1) s r.2.
Proof. cbv zeta. unfold krhino_task_resume, task_resume. err_call. Qed.
Lemma err_wait_abort t : let r := krhino_task_wait_abort t s in err_keeps (Some r.1) s r.2.
Proof. cbv zeta. unfold krhino_task_wait_abort. err_call. Qed.
Lemma err_slice_set t n : let r := krhino_task_time_slice_set t n s in err_keeps (Some r.1) s r.2.
Proof. cbv zeta. unfold krhino_task_time_slice_set. err_call. Qed.
Lemma err_policy_set t n : let r := krhino_sched_policy_set t n s in err_keeps (Some r.1) s r.2.
Proof. cbv zeta. unfold krhino_sched_policy_set. err_call. Qed.
Lemma err_info_set t i n : let r := krhino_task_info_set t i n s in err_keeps (Some r.1) s r.2.
Proof. cbv zeta. unfold krhino_task_info_set. err_call. Qed.
Lemma err_sem_create o n c f : let r := sem_create o n c f s in err_keeps (Some r.1) s r.2.
Proof. cbv zeta. unfold sem_create. err_call. Qed.
Lemma err_sem_del f o : let r := sem_del_with f o s in err_keeps (Some r.1) s r.2.
Proof. cbv zeta. unfold sem_del_with. err_call. Qed.
Lemma err_sem_give o : let r := krhino_sem_give o s in err_keeps (Some r.1) s r.2.
Proof. cbv zeta. unfold krhino_sem_give, sem_give. err_call. Qed.
Lemma err_sem_give_all o : let r := krhino_sem_give_all o s in err_keeps (Some r.1) s r.2.
Proof. cbv zeta. unfold krhino_sem_give_all, sem_give. err_call. Qed.
Lemma err_sem_take o n : let r := krhino_sem_take o n s in err_keeps r.1 s r.2.
Proof. cbv zeta. unfold krhino_sem_take. err_call. Qed.
Lemma err_sem_set o n : let r := krhino_sem_count_set o n s in err_keeps (Some r.1) s r.2.
Proof. cbv zeta. unfold krhino_sem_count_set. err_call. Qed.
Lemma err_mutex_create o n f : let r := mutex_create o n f s in err_keeps (Some r.1) s r.2.
Proof. cbv zeta. unfold mutex_create. err_call. Qed.
Lemma err_mutex_del f o : let r := mutex_del_with f o s in err_keeps (Some r.1) s r.2.
Proof. cbv zeta. unfold mutex_del_with. err_call. Qed.
Lemma err_mutex_lock o n : let r := krhino_mutex_lock o n s in err_keeps r.1 s r.2.
Proof. cbv zeta. unfold krhino_mutex_lock. err_call. Qed.
Lemma err_mutex_unlock o : let r := krhino_mutex_unlock o s in err_keeps (Some r.1) s r.2.
Proof. cbv zeta. unfold krhino_mutex_unlock. err_call. Qed.
Lemma err_event_create o n fl f : let r := event_create o n fl f s in err_keeps (Some r.1) s r.2.
Proof. cbv zeta. unfold event_create. err_call. Qed.
Lemma err_event_del f o : let r := event_del_with f o s in err_keeps (Some r.1) s r.2.
Proof. cbv zeta. unfold event_del_with. err_call. Qed.
Lemma err_event_get o fl op a n : let r := krhino_event_get o fl op a n s in err_keeps r.1 s r.2.
Proof. cbv zeta. unfold krhino_event_get. err_call. Qed.
Lemma err_event_set o fl op : let r := krhino_event_set o fl op s in err_keeps (Some r.1) s r.2.
Proof. cbv zeta. unfold krhino_event_set, event_set. err_call. Qed.
Lemma err_queue_create o n st nu f mem : let r := queue_create o n st nu f mem s in err_keeps (Some r.1) s r.2.
Proof. cbv zeta. unfold queue_create. err_call. Qed.
Lemma err_queue_del f o : let r := queue_del_with f o s in err_keeps (Some r.1) s r.2.
Proof. cbv zeta. unfold queue_del_with. err_call. Qed.
Lemma err_msg_send o p op all : let r := msg_send o p op all s in err_keeps (Some r.1) s r.2.
Proof. cbv zeta. unfold msg_send. err_call. Qed.
Lemma err_queue_recv o n b : let r := krhino_queue_recv o n b s in err_keeps r.1.1 s r.2.
Proof. cbv zeta. unfold krhino_queue_recv. err_call. Qed.
Lemma err_queue_flush o : let r := krhino_queue_flush o s in err_keeps (Some r.1) s r.2.
Proof. cbv zeta. unfold krhino_queue_flush. err_call. Qed.
Lemma err_bq_create o n b sz mx f mem : let r := buf_queue_create o n b sz mx f mem s in err_keeps (Some r.1) s r.2.
Proof. cbv zeta. unfold buf_queue_create. err_call. Qed.
Lemma err_bq_del f o : let r := buf_queue_del_with f o s in err_keeps (Some r.1) s r.2.
Proof. cbv zeta. unfold buf_queue_del_with. err_call. Qed.
Lemma err_bq_recv o n p b : let r := krhino_buf_queue_recv o n p b s in err_keeps r.1.1 s r.2.
Proof. cbv zeta. unfold krhino_buf_queue_recv. err_call. Qed.
Lemma err_bq_flush o : let r := krhino_buf_queue_flush o s in err_keeps (Some r.1) s r.2.
Proof. cbv zeta. unfold krhino_buf_queue_flush. err_call. Qed.
Lemma err_sched_disable : let r := krhino_sched_disable s in err_keeps (Some r.1) s r.2.
Proof. cbv zeta. unfold krhino_sched_disable. err_call. Qed.
Lemma err_intrpt_enter : let r := krhino_intrpt_enter s in err_keeps (Some r.1) s r.2.
Proof. cbv zeta. unfold krhino_intrpt_enter. err_call. Qed.
End Calls.

(** ** The calls that do something before they can fail *)
Lemma ringbuf_push_error rb d : (ringbuf_push rb d).1 <> RHINO_SUCCESS -> (ringbuf_push rb d).2 = rb.
Proof.
  unfold ringbuf_push. destruct (ringbuf_is_full rb); [done|]. destruct (_ =? _); [done|].
  destruct (ringbuf_headlen_compress _) as [n c]. destruct (_ || _); [done|]. destruct (_ <? _)%nat; [done|].
  repeat match goal with |- context [let '(_, _) := ?x in _] => destruct x end; done.
Qed.

Lemma ringbuf_head_push_error rb d : (ringbuf_head_push rb d).1 <> RHINO_SUCCESS -> (ringbuf_head_push rb d).2 = rb.
Proof.
  unfold ringbuf_head_push. destruct (ringbuf_is_full rb); [done|]. destruct (_ =? _); [done|].
  destruct (ringbuf_headlen_compress _) as [n c]. destruct (_ || _); [done|]. destruct (_ <? _)%nat; [done|].
  repeat match goal with |- context [let '(_, _) := ?x in _] => destruct x end; done.
Qed.

Lemma err_bq_send o d f s : let r := buf_queue_send o d f s in err_keeps (Some r.1) s r.2.
Proof.
  cbv zeta. unfold buf_queue_send, RHINO_CRITICAL_ENTER, RHINO_CPU_INTRPT_DISABLE; cbv beta iota zeta.
  case_decide; [err_branch|]. destruct (_ <? _); [err_branch|]. destruct (_ =? 0); [err_branch|].
  destruct (blk_list _); [|err_branch]. set (rb := bq_ringbuf _).
  assert (let p := if f then ringbuf_head_push rb d else ringbuf_push rb d in p.1 <> RHINO_SUCCESS -> p.2 = rb) as Hp
    by (destruct f; [apply ringbuf_head_push_error|apply ringbuf_push_error]).
  destruct (if f then _ else _) as [err rb']. cbv zeta in Hp. cbn [fst snd] in Hp.
  case_decide as He; [err_branch|]. cbn [fst snd err_keeps]. rewrite (Hp He). intros _.
  exists (err_log s), (<[o := buf_queue_of s o]> (buf_queues s)). split.
  - unfold rb, upd_buf_queue, buf_queue_of, RHINO_CRITICAL_EXIT, RHINO_CPU_INTRPT_ENABLE. rsimpl.
    replace ((buf_queues s !!! o) <| bq_ringbuf := bq_ringbuf (buf_queues s !!! o) |>) with (buf_queues s !!! o)
      by (by destruct (buf_queues s !!! o)).
    by destruct s.
  - intros q. destruct (decide (q = o)) as [->|]; [by rewrite lookup_total_insert_eq|by rewrite lookup_total_insert_ne].
Qed.

Lemma err_task_del idle t s :
  kinv idle s -> is_alive (task_of s (del_target t s)) = true -> deletes_idle (C_task_del t) s = false ->
  let r := krhino_task_del t s in err_keeps (Some r.1) s r.2.
Proof.
  intros Hk Ha Hd. cbv zeta. cbn [deletes_idle] in Hd.
  unfold krhino_task_del. kenter idle s. change (in_intrpt s1) with (in_intrpt s). destruct (in_intrpt s); [err_branch|].
  change (if t =? NULL then g_active_task s1 else t) with (del_target t s). cbv zeta. set (u := del_target t s) in *.
  cbn [negb andb] in Hd. change (task_of s1 u) with (task_of s u). rewrite Hd.
  destruct (negb _); [err_branch|]. destruct ((u =? g_active_task s1) && (0 <? g_sched_lock s1)) eqn:El; [err_branch|].
  destruct (del_tail_kbody idle s1 u (proj1 Hk1) Ha) as (s' & -> & _); [|intros E; rewrite E, Z.eqb_refl in El; cbn [andb] in El; lia|].
  - by apply Z.eqb_neq.
  - err_branch.
Qed.

Lemma sem_give_succeeds o s :
  o <> NULL -> obj_type (blk_of s o) = RHINO_SEM_OBJ_TYPE -> count (sem_of s o) <> SEM_COUNT_MAX -> (krhino_sem_give o s).1 = RHINO_SUCCESS.
Proof.
  intros Hn Hty Hc. unfold krhino_sem_give, sem_give, RHINO_CRITICAL_ENTER, RHINO_CPU_INTRPT_DISABLE; cbv beta iota zeta.
  rewrite (proj2 (Z.eqb_neq _ _) Hn). change (blk_of (s <| intrpt_masked := true |>) o) with (blk_of s o).
  change (sem_of (s <| intrpt_masked := true |>) o) with (sem_of s o). rewrite decide_False by (by intros []).
  destruct (blk_list _); [|done]. by rewrite (proj2 (Z.eqb_neq _ _) Hc).
Qed.

Lemma err_dyn_del rs t s :
  err_effect (C_task_dyn_del rs t) s = false -> let r := krhino_task_dyn_del rs t s in err_keeps (Some r.1) s r.2.
Proof.
  cbn [err_effect]. intros [[Hn Hty]%orb_false_iff Hc]%orb_false_iff. cbv zeta.
  apply negb_false_iff, bool_decide_eq_true in Hty. apply Z.eqb_neq in Hn, Hc.
  unfold krhino_task_dyn_del, RHINO_CRITICAL_ENTER, RHINO_CPU_INTRPT_DISABLE; cbv beta iota zeta.
  destruct (in_intrpt _); [err_branch|]. destruct (_ =? RHINO_IDLE_PRI); [err_branch|]. destruct (negb _); [err_branch|].
  destruct (_ && _); [err_branch|]. case_decide; [err_branch|].
  match goal with |- context [krhino_sem_give rs ?x] => pose proof (sem_give_succeeds rs x Hn Hty Hc) as E; destruct (krhino_sem_give rs x) as [ret s3] end.
  cbn [fst] in E. subst ret. rewrite decide_False by (by intros []). err_branch.
Qed.

Lemma err_pri_change idle t p b s :
  kinv idle s -> valid_task s t -> 0 <= p -> let r := krhino_task_pri_change t p b s in err_keeps (Some r.1.1) s r.2.
Proof.
  intros Hk Hv Hp. cbv zeta. unfold krhino_task_pri_change. destruct (t =? NULL); [err_branch|]. destruct b; [err_branch|].
  destruct (Z.leb_spec RHINO_IDLE_PRI (prio (task_of s t))); [err_branch|]. destruct (Z.leb_spec RHINO_IDLE_PRI p); [err_branch|].
  case_decide as Hd; [err_branch|]. kenter idle s. destruct (in_intrpt s1); [err_branch|]. cbv zeta.
  pose proof (task_exists s1 t Hv) as Ht. destruct Hk1 as [Hb1 _].
  assert (is_alive (task_of s1 t) = true) as Ha.
  { unfold is_alive. destruct (task_state (task_of s1 t)) eqn:E; done. }
  assert (t <> idle) as Hid by (apply (idle_prio idle s1 t (kb_wf Hb1)); change (task_of s1 t) with (task_of s t); lia).
  assert (0 <= p < RHINO_CONFIG_PRI_MAX) as Hpp by (unfold RHINO_IDLE_PRI in *; lia).
  pose proof (pri_change_spec idle s1 t p _ (kb_wf Hb1) (kb_pi Hb1) Ht Ha Hid Hpp _ eq_refl) as Hs.
  destruct (task_pri_change t (mutex_pri_limit t p s1) _) as [st s2]. destruct Hs as (_ & -> & _). err_branch.
Qed.

Lemma err_sched_enable s : 0 <= g_sched_lock s -> err_effect C_sched_enable s = false ->
  let r := krhino_sched_enable s in err_keeps (Some r.1) s r.2.
Proof.
  cbn [err_effect]. intros Hl Hc. cbv zeta. unfold krhino_sched_enable, RHINO_CRITICAL_ENTER, RHINO_CPU_INTRPT_DISABLE; cbv beta iota zeta.
  destruct (in_intrpt _); [err_branch|]. rsimpl. destruct (Z.eqb_spec (g_sched_lock s) 0); [err_branch|].
  assert (g_sched_lock s = 1) as -> by lia. change (0 <? wrap8 (1 - 1)) with false. cbv iota. err_branch.
Qed.




