(* ===== verification/KernelHeap.v ===== *)
(** * The two-level allocator behind the kernel's interface

    The dynamic-creation functions of the kernel are written against the class [MemAlloc]
    and its laws [MemAllocOk].  A heap in a state its clients can reach ([tlsf]) is an
    instance: the theorems on the kernel hold with this allocator behind it. *)
From S2P Require Import Prelude Bitmap KTypes RunQueue RingBuf Kernel Pend Alloc Task Sem Mutex Queue Event.
From S2P Require Import MmBlk Mm MmBits MmLayout MmFree MmAlloc MmHeap Timer Workqueue TaskDyn Sys.
From S2P Require Import Invariant InvPend PriInherit KInv ApiInv MutexInv TaskInv TaskApiInv TaskDelInv Reach.
From S2P Require Import Boot Safety.
Local Open Scope Z_scope.

Section Tlsf.
Context (a T : Z).

(** A heap with the buffers that are handed out. *)
Record tlsf := { tl_client : client; tl_inv : heap_inv a T tl_client }.

(** One operation of a client; the heap stays as it is when it is not allowed. *)
Definition tlsf_some o (h : tlsf) c (E : heap_step o (tl_client h) = Some c) : tlsf :=
  {| tl_client := c; tl_inv := step_inv a T o (tl_client h) c (tl_inv h) E |}.

Definition tlsf_opt o (h : tlsf) (r : option client) : heap_step o (tl_client h) = r -> tlsf :=
  match r with Some c => tlsf_some o h c | None => fun _ => h end.

Definition tlsf_step o (h : tlsf) : tlsf := tlsf_opt o h _ eq_refl.

Lemma tlsf_step_client o h : tl_client (tlsf_step o h) = default (tl_client h) (heap_step o (tl_client h)).
Proof. unfold tlsf_step. generalize (eq_refl (heap_step o (tl_client h))). generalize (heap_step o (tl_client h)) at 2 3 4. by intros [c|] E. Qed.

(** Addresses outside the region are never handed out. *)
Definition tlsf_live (h : tlsf) (p : Z) : bool :=
  bool_decide (is_Some (c_bufs (tl_client h) !! p)) || (p <? a) || (a + T <=? p).

#[export] Instance tlsf_alloc : MemAlloc tlsf := {
  krhino_mm_alloc n h :=
    if decide (size_allowed n) then ((mm_alloc n (c_mm (tl_client h))).1, tlsf_step (HAlloc n) h) else (NULL, h);
  krhino_mm_free p h := tlsf_step (HFree p) h;
  sizeof := @sizeof RefAlloc.heap RefAlloc.ref_alloc;
  live := tlsf_live;
}.

(** The buffer returned is in the region and not in use. *)
Lemma alloc_fresh_ptr c s : heap_inv a T c -> size_allowed s -> let p := (mm_alloc s (c_mm c)).1 in
  p <> NULL -> c_bufs c !! p = None /\ (p <? a) || (a + T <=? p) = false.
Proof.
  intros [(bs & HH & Ht & HO) _] Hs. cbv zeta. unfold mm_alloc. rewrite (proj2 (Z.eqb_neq s 0)) by (unfold size_allowed in Hs; lia).
  pose proof (alloc_spec _ _ _ s HH Hs) as HA. destruct (k_mm_alloc s (c_mm c)) as [p m']. cbn [fst].
  destruct HA as [(-> & _)|(l1 & n & l2 & -> & -> & _)]; [done|]. intros _. split.
  2:{ pose proof (heap_layout _ _ _ HH) as HL. destruct (layout_mid _ _ _ _ _ HL) as (_ & (H1 & _ & H2) & _ & T1 & T2 & _). cbn [fst snd] in *. specialize (H2 eq_refl).
      rewrite total_app, total_cons in Ht. apply orb_false_iff. split; [apply Z.ltb_ge|apply Z.leb_gt]; lia. }
  apply eq_None_not_Some. intros [B HB].
  destruct (own_held _ _ _ _ HO (a + total l1 + 8) (b_len B)) as (_ & _ & k & Hk & _); [by rewrite lookup_fmap, HB|]. unfold used in Hk.
  rewrite Z.add_simpl_r in Hk. pose proof (lay_sizes _ _ (heap_layout _ _ _ HH)) as Hsz. pose proof (blocks_at a l1 n true l2) as Hb.
  destruct (blocks_sep _ _ _ _ _ _ _ _ Hsz Hk Hb) as [(_ & _ & [=])|Hsep]. apply blocks_range in Hk as (_ & _ & ? & _), Hb as (_ & _ & ? & _); [|done..]. cbn [fst] in *. lia.
Qed.

Lemma alloc_bufs h s : size_allowed s ->
  c_bufs (tl_client (tlsf_step (HAlloc s) h)) =
    (let p := (mm_alloc s (c_mm (tl_client h))).1 in if p =? NULL then c_bufs (tl_client h) else <[p := buf_new s]> (c_bufs (tl_client h))).
Proof. intros Hs. rewrite tlsf_step_client. unfold heap_step. rewrite decide_True by done. by destruct (mm_alloc s _) as [p m']. Qed.

Lemma live_ext h h' p : (is_Some (c_bufs (tl_client h') !! p) <-> is_Some (c_bufs (tl_client h) !! p)) -> tlsf_live h' p = tlsf_live h p.
Proof. intros H. unfold tlsf_live. by rewrite (bool_decide_ext _ _ H). Qed.

#[export] Instance tlsf_alloc_ok : MemAllocOk tlsf.
Proof.
  split; cbn [krhino_mm_alloc krhino_mm_free live tlsf_alloc].
  - intros n h p h'. case_decide as Hn; intros [= <- <-]; [|done]. intros Hp. destruct (alloc_fresh_ptr _ _ (tl_inv h) Hn Hp) as [Hf Hr]. unfold tlsf_live. rewrite alloc_bufs by done. cbv zeta.
    rewrite (proj2 (Z.eqb_neq _ NULL)) by done. rewrite Hf, lookup_insert_eq, <- !orb_assoc, Hr. rewrite bool_decide_false by (by intros [? [=]]). by rewrite bool_decide_true by eauto.
  - intros n h p h' q. case_decide as Hn; intros [= <- <-]; [|done]. intros Hq. apply live_ext. rewrite alloc_bufs by done. cbv zeta.
    destruct (Z.eqb_spec (mm_alloc n (c_mm (tl_client h))).1 NULL); [done|by rewrite lookup_insert_ne by auto].
  - intros n h h'. case_decide as Hn; intros [=]; subst; [|done]. intros q. apply live_ext. rewrite alloc_bufs by done. cbv zeta. by rewrite (proj2 (Z.eqb_eq _ NULL)).
  - intros n h p h'. case_decide as Hn; intros [= <- <-]; [|done]. intros Hp. destruct (alloc_fresh_ptr _ _ (tl_inv h) Hn Hp) as [_ Hr]. unfold tlsf_live. rewrite <- !orb_assoc, Hr.
    pose proof (alloc_bufs h n Hn) as Eb. cbv zeta in Eb. rewrite (proj2 (Z.eqb_neq _ NULL)) in Eb by done. rewrite tlsf_step_client. set (h1 := tlsf_step (HAlloc n) h) in *.
    unfold heap_step. rewrite Eb, decide_True by (rewrite lookup_insert_eq; eauto). cbn [from_option id c_bufs]. rewrite lookup_delete_eq. by rewrite bool_decide_false by (by intros [? [=]]).
  - intros p h q Hq. apply live_ext. rewrite tlsf_step_client. unfold heap_step. case_decide as Hp; cbn [from_option id c_bufs]; [by rewrite lookup_delete_ne by auto|done].
Qed.
End Tlsf.

(** The heap the kernel starts with. *)
Definition start_client (addr len : Z) (mem : gmap Z Z) : client :=
  match krhino_init_mm_head false addr len mem with (_, Some (_, m)) => fresh_client m | _ => fresh_client (Build_mm_state ∅ 0 0 ∅ ∅) end.

Lemma start_inv addr len mem : pool_ok addr len -> heap_inv (pool_start addr) (pool_free addr len + 32) (start_client addr len mem).
Proof. intros Hp. unfold start_client. destruct (init_spec addr len mem Hp) as (m & E & HH & _). rewrite E. by apply fresh_inv. Qed.

Definition tlsf_fresh (addr len : Z) (mem : gmap Z Z) (Hp : pool_ok addr len) : tlsf (pool_start addr) (pool_free addr len + 32) :=
  {| tl_client := start_client addr len mem; tl_inv := start_inv addr len mem Hp |}.

(** Nothing is handed out at the start; addresses outside the pool never are. *)
Lemma tlsf_fresh_live addr len mem Hp p : p < addr \/ addr + len <= p -> live (tlsf_fresh addr len mem Hp) p = true.
Proof.
  intros H. cbn [live tlsf_alloc]. unfold tlsf_live. destruct (Z.ltb_spec p (pool_start addr)); [by rewrite orb_true_r|].
  rewrite (proj2 (Z.leb_le _ p)); [by rewrite orb_true_r|]. unfold pool_free, pool_start, pool_len, pool_addr in *. change SIZEOF_MM_HEAD with 1728 in *.
  change MMREGION_USED_SIZE with 32 in *. destruct Hp as (? & ? & _). Z.to_euclidean_division_equations. lia.
Qed.

(** * The kernel on its own allocator

    [krhino_init] allocates the control blocks and stacks of its dynamic tasks.  With the
    heap that [krhino_init_mm_head] makes of a pool behind it, and the kernel's static
    objects outside of that pool, everything proved of reachable kernel states holds. *)

(** The static objects: their addresses are set and lie outside the pool. *)
Record outside_pool (A : static_addrs) (addr len : Z) : Prop := {
  op_idle : a_idle_task A <> NULL /\ a_idle_name A <> NULL /\ a_idle_stack A <> NULL /\ a_idle_entry A <> NULL;
  op_timer : a_timer_task A <> a_idle_task A;
  op_out : forall p, p = a_idle_task A \/ p = a_timer_task A -> p < addr \/ addr + len <= p;
}.

Lemma static_ok_pool A addr len mem Hp : outside_pool A addr len -> static_ok A (tlsf_fresh addr len mem Hp).
Proof. intros [H1 H2 H3]. split; [done|done|]. split; apply tlsf_fresh_live, H3; auto. Qed.

Theorem kernel_on_pool A stack addr len mem Hp cs s :
  outside_pool A addr len -> reached A stack (tlsf_fresh addr len mem Hp) cs s -> kinv (env (a_idle_task A) 1) s.
Proof. intros HA Hr. eapply reached_kinv; [|exact Hr]. by apply static_ok_pool. Qed.
