(* ===== verification/Kv.v ===== *)
(** * The key-value store ([kvmgr.c])

    A log of items in flash blocks of 4096 bytes.  A block starts with a header (magic
    number and state); an item is a header of 8 bytes, the key and the value, padded to a
    multiple of four.  A new version of an item is appended and the old one marked as
    deleted.  Of the two blocks (the boards set [CONFIG_AOS_KV_BUFFER_SIZE] to 8192) one is
    in use and one is kept clean, for the garbage collection, which copies the items that
    are not deleted to the clean block and erases the other.  With two blocks the search
    for another block in [kv_item_calc_pos] is not compiled.

    The flash is an interface, [Flash]: [hal_flash_read], [hal_flash_write] and
    [hal_flash_erase] on the partition of the store.  [mallocs] are the results of the
    coming calls of [aos_malloc]; when the list is empty they succeed.  The functions run
    under [kv_mutex], which is not represented; where [aos_kv_set] would wait for the
    garbage collection it returns no result. *)
From S2P Require Import Prelude KTypes.
Local Open Scope Z_scope.

(** Bytes, keys and values are lists of [0..255]; a key has no zero byte. *)
Class Flash (F : Type) := {
  hal_flash_read : Z -> Z -> F -> option (list Z);   (** offset and length; [None] on failure *)
  hal_flash_write : Z -> list Z -> F -> bool * F;    (** offset and data *)
  hal_flash_erase : Z -> Z -> F -> bool * F;         (** offset and length *)
}.

Inductive result_e := RES_OK | RES_CONT | RES_NO_SPACE | RES_INVALID_PARAM | RES_MALLOC_FAILED | RES_ITEM_NOT_FOUND | RES_EIO.
#[export] Instance result_e_eq_dec : EqDecision result_e.
Proof. solve_decision. Defined.

(** The three flash errors have the same value. *)
Definition RES_FLASH_READ_ERR := RES_EIO.
Definition RES_FLASH_WRITE_ERR := RES_EIO.
Definition RES_FLASH_EARSE_ERR := RES_EIO.

Definition KV_TOTAL_SIZE : Z := 8192.
Definition BLK_BITS : Z := 12.
Definition BLK_SIZE : Z := Z.shiftl 1 BLK_BITS.
Definition BLK_NUMS : Z := Z.shiftr KV_TOTAL_SIZE BLK_BITS.
Definition BLK_OFF_MASK : Z := wrap32 (Z.lnot (BLK_SIZE - 1)).
Definition BLK_STATE_USED : Z := 0xCC.
Definition BLK_STATE_CLEAN : Z := 0xEE.
Definition BLK_STATE_DIRTY : Z := 0x44.
Definition BLK_HEADER_SIZE : Z := 4.
Definition INVALID_BLK_STATE (state : Z) : bool :=
  negb (state =? BLK_STATE_USED) && negb (state =? BLK_STATE_CLEAN) && negb (state =? BLK_STATE_DIRTY).
Definition ITEM_HEADER_SIZE : Z := 8.
Definition ITEM_STATE_NORMAL : Z := 0xEE.
Definition ITEM_STATE_DELETE : Z := 0.
Definition ITEM_MAX_KEY_LEN : Z := 128.
Definition ITEM_MAX_VAL_LEN : Z := 512.
Definition ITEM_MAX_LEN : Z := ITEM_HEADER_SIZE + ITEM_MAX_KEY_LEN + ITEM_MAX_VAL_LEN.
Definition KV_STATE_OFF : Z := 1.
Definition KV_ALIGN_MASK : Z := wrap32 (Z.lnot 3).
Definition KV_GC_RESERVED : Z := 1.
Definition BLK_MAGIC_NUM : Z := 75.    (** 'K' *)
Definition ITEM_MAGIC_NUM : Z := 73.   (** 'I' *)

Inductive del_mode := KV_SELF_REMOVE | KV_ORIG_REMOVE.

Record item_hdr_t := { i_magic : Z; i_state : Z; i_crc : Z; key_len : Z; val_len : Z; origin_off : Z }.
Record kv_item_t := { i_hdr : item_hdr_t; i_store : list Z; i_len : Z; i_pos : Z }.
Record block_info_t := { space : Z; b_state : Z }.

(** [kv_mgr_t] with the flash and the coming results of [aos_malloc]. *)
Record kv_mgr_t (F : Type) := {
  kv_initialize : Z;
  gc_triggered : Z;
  gc_waiter : Z;
  clean_blk_nums : Z;
  write_pos : Z;
  block_info : list block_info_t;
  dev : F;
  mallocs : list bool;
}.
Arguments kv_initialize {F}. Arguments gc_triggered {F}. Arguments gc_waiter {F}. Arguments clean_blk_nums {F}.
Arguments write_pos {F}. Arguments block_info {F}. Arguments dev {F}. Arguments mallocs {F}.
#[export] Instance eta_kv_mgr {F} : Eta (kv_mgr_t F) := {| eta_expand := fun s => {|
  kv_initialize := kv_initialize s; gc_triggered := gc_triggered s; gc_waiter := gc_waiter s; clean_blk_nums := clean_blk_nums s;
  write_pos := write_pos s; block_info := block_info s; dev := dev s; mallocs := mallocs s |} |}.

(** ** Encodings *)
Definition hdr_bytes (h : item_hdr_t) : list Z :=
  [i_magic h; i_state h; i_crc h; key_len h; val_len h mod 256; val_len h / 256; origin_off h mod 256; origin_off h / 256].
Definition bytes_hdr (l : list Z) : item_hdr_t :=
  match l with
  | [a; b; c; d; e; f; g; h] => {| i_magic := a; i_state := b; i_crc := c; key_len := d; val_len := e + 256 * f; origin_off := g + 256 * h |}
  | _ => {| i_magic := 0; i_state := 0; i_crc := 0; key_len := 0; val_len := 0; origin_off := 0 |}
  end.

(** [(x + ~KV_ALIGN_MASK) & KV_ALIGN_MASK]. *)
Definition kv_align (x : Z) : Z := Z.land (wrap32 (x + wrap32 (Z.lnot KV_ALIGN_MASK))) KV_ALIGN_MASK.

(** CRC-8 with the polynomial 0x31. *)
Definition crc8_step (crc : Z) : Z :=
  if negb (Z.land crc 0x80 =? 0) then Z.lxor (wrap8 (Z.shiftl crc 1)) 0x31 else wrap8 (Z.shiftl crc 1).
Definition utils_crc8 (buf : list Z) : Z := fold_left (fun crc b => Nat.iter 8 crc8_step (Z.lxor crc b)) buf 0.

(** [memcmp(a, b, n) == 0]. *)
Definition same_bytes (a b : list Z) (n : Z) : bool := bool_decide (take (Z.to_nat n) a = take (Z.to_nat n) b).

Section Kv.
Context {F : Type} `{Flash F}.
Implicit Types (s : kv_mgr_t F) (pos state len i : Z) (key val : list Z) (item : kv_item_t).

Definition info_of s i : block_info_t := default {| space := 0; b_state := 0 |} (block_info s !! Z.to_nat i).
Definition set_space i (v : Z) s : kv_mgr_t F := s <| block_info ::= alter (fun b => {| space := v; b_state := b_state b |}) (Z.to_nat i) |>.
Definition set_state i state s : kv_mgr_t F := s <| block_info ::= alter (fun b => {| space := space b; b_state := state |}) (Z.to_nat i) |>.

Definition aos_malloc s : bool * kv_mgr_t F :=
  match mallocs s with [] => (true, s) | b :: bs => (b, s <| mallocs := bs |>) end.

(** ** Flash *)
Definition raw_read (offset nbytes : Z) s : option (list Z) := hal_flash_read offset nbytes (dev s).
Definition raw_write (offset : Z) (buf : list Z) s : bool * kv_mgr_t F :=
  let '(ok, d) := hal_flash_write offset buf (dev s) in (ok, s <| dev := d |>).
Definition raw_erase (offset size : Z) s : bool * kv_mgr_t F :=
  let '(ok, d) := hal_flash_erase offset size (dev s) in (ok, s <| dev := d |>).

Definition trigger_gc s : kv_mgr_t F := if gc_triggered s =? 0 then s <| gc_waiter := 0 |> <| gc_triggered := 1 |> else s.

Definition kv_state_set pos state s : result_e * kv_mgr_t F :=
  let '(ok, s) := raw_write (pos + KV_STATE_OFF) [state] s in (if ok then RES_OK else RES_EIO, s).

Definition kv_block_format (index : Z) s : result_e * kv_mgr_t F :=
  let pos := wrap16 (Z.shiftl index BLK_BITS) in
  let '(ok, s) := raw_erase pos BLK_SIZE s in
  if negb ok then (RES_FLASH_EARSE_ERR, s)
  else
    let '(ok, s) := raw_write pos [BLK_MAGIC_NUM; BLK_STATE_CLEAN; 0; 0] s in
    if negb ok then (RES_FLASH_WRITE_ERR, s)
    else
      let s := set_state index BLK_STATE_CLEAN s in
      let s := set_space index (BLK_SIZE - BLK_HEADER_SIZE) s in
      (RES_OK, s <| clean_blk_nums ::= fun n => wrap8 (n + 1) |>).

(** The position for an item of [len] bytes, 0 when there is no room. *)
Definition kv_item_calc_pos len s : Z * kv_mgr_t F :=
  let blk_index := Z.shiftr (write_pos s) BLK_BITS in
  let sp := space (info_of s blk_index) in
  if len <? sp then
    let s := if (sp - len <? ITEM_MAX_LEN) && (clean_blk_nums s <=? KV_GC_RESERVED) then trigger_gc s else s in
    (write_pos s, s)
  else (0, trigger_gc s).

(** The tail of [kv_item_del]: the item at [offset] is marked. *)
Definition kv_mark_deleted (offset : Z) s : result_e * kv_mgr_t F :=
  let '(ret, s) := kv_state_set offset ITEM_STATE_DELETE s in
  if decide (ret <> RES_OK) then (ret, s)
  else
    let i := Z.shiftr offset BLK_BITS in
    if b_state (info_of s i) =? BLK_STATE_USED then
      let '(ret, s) := kv_state_set (Z.land offset BLK_OFF_MASK) BLK_STATE_DIRTY s in
      if decide (ret <> RES_OK) then (ret, s) else (ret, set_state i BLK_STATE_DIRTY s)
    else (ret, s).

Definition kv_item_del item (mode : del_mode) s : result_e * kv_mgr_t F :=
  match mode with
  | KV_SELF_REMOVE => kv_mark_deleted (i_pos item) s
  | KV_ORIG_REMOVE =>
      let offset := origin_off (i_hdr item) in
      match raw_read offset ITEM_HEADER_SIZE s with
      | None => (RES_FLASH_READ_ERR, s)
      | Some l =>
          let h := bytes_hdr l in
          if negb (i_magic h =? ITEM_MAGIC_NUM) || negb (i_state h =? ITEM_STATE_NORMAL) || negb (key_len h =? key_len (i_hdr item)) then (RES_OK, s)
          else
            let '(ok, s) := aos_malloc s in
            if negb ok then (RES_MALLOC_FAILED, s)
            else
              let '(ok, s) := aos_malloc s in
              if negb ok then (RES_MALLOC_FAILED, s)
              else
                let origin_key := default [] (raw_read (offset + ITEM_HEADER_SIZE) (key_len h) s) in
                let new_key := default [] (raw_read (i_pos item + ITEM_HEADER_SIZE) (key_len h) s) in
                if negb (same_bytes origin_key new_key (key_len h)) then (RES_OK, s)
                else kv_mark_deleted offset s
      end
  end.

(** ** Callbacks of the traversal: the result and the item *)
Definition item_func : Type := kv_item_t -> list Z -> kv_mgr_t F -> result_e * kv_item_t * kv_mgr_t F.

Definition __item_recovery_cb : item_func := fun item key s =>
  let '(ok, s) := aos_malloc s in
  if negb ok then (RES_MALLOC_FAILED, item, s)
  else
    match raw_read (i_pos item + ITEM_HEADER_SIZE) (i_len item) s with
    | None => (RES_FLASH_READ_ERR, item, s)
    | Some p =>
        let s :=
          if i_crc (i_hdr item) =? utils_crc8 p then
            if negb (origin_off (i_hdr item) =? 0) && negb (i_pos item =? origin_off (i_hdr item))
            then (kv_item_del item KV_ORIG_REMOVE s).2 else s
          else (kv_item_del item KV_SELF_REMOVE s).2 in
        (RES_CONT, item, s)
    end.

Definition __item_find_cb : item_func := fun item key s =>
  if negb (key_len (i_hdr item) =? Z.of_nat (length key)) then (RES_CONT, item, s)
  else
    let '(ok, s) := aos_malloc s in
    if negb ok then (RES_MALLOC_FAILED, item, s)
    else
      match raw_read (i_pos item + ITEM_HEADER_SIZE) (i_len item) s with
      | None => (RES_FLASH_READ_ERR, item, s)
      | Some l =>
          let item := {| i_hdr := i_hdr item; i_store := l; i_len := i_len item; i_pos := i_pos item |} in
          if same_bytes l key (Z.of_nat (length key)) then (RES_OK, item, s) else (RES_CONT, item, s)
      end.

Definition __item_gc_cb : item_func := fun item key s =>
  let len := wrap16 (kv_align (ITEM_HEADER_SIZE + i_len item)) in
  let '(ok, s) := aos_malloc s in
  if negb ok then (RES_MALLOC_FAILED, item, s)
  else
    match raw_read (i_pos item) len s with
    | None => (RES_FLASH_READ_ERR, item, s)
    | Some p =>
        let '(ok, s) := raw_write (write_pos s) p s in
        if negb ok then (RES_FLASH_WRITE_ERR, item, s)
        else
          let s := s <| write_pos ::= fun w => wrap16 (w + len) |> in
          let index := Z.shiftr (write_pos s) BLK_BITS in
          (RES_CONT, item, set_space index (wrap16 (space (info_of s index) - len)) s)
    end.

(** A block with an item that is not valid has something to collect. *)
Definition mark_dirty (blk_index : Z) s : kv_mgr_t F :=
  if b_state (info_of s blk_index) =? BLK_STATE_USED then
    set_state blk_index BLK_STATE_DIRTY (kv_state_set (Z.shiftl blk_index BLK_BITS) BLK_STATE_DIRTY s).2
  else s.

(** The loop of [kv_item_traverse] at [pos]; every iteration advances by at least the size
    of an item header. *)
Fixpoint traverse_loop (fuel : nat) (func : item_func) (blk_index : Z) key pos s : option kv_item_t * kv_mgr_t F :=
  match fuel with
  | O => (None, s)
  | S fuel =>
      let stop (pos : Z) (s : kv_mgr_t F) : option kv_item_t * kv_mgr_t F :=
        let end_ := Z.shiftl blk_index BLK_BITS + BLK_SIZE in
        (None, set_space blk_index (if pos <? end_ then end_ - pos else ITEM_HEADER_SIZE) s) in
      let next (pos : Z) (s : kv_mgr_t F) : option kv_item_t * kv_mgr_t F :=
        if pos + ITEM_HEADER_SIZE <? Z.shiftl blk_index BLK_BITS + BLK_SIZE
        then traverse_loop fuel func blk_index key pos s else stop pos s in
      let '(ok, s) := aos_malloc s in
      if negb ok then (None, s)
      else
        match raw_read pos ITEM_HEADER_SIZE s with
        | None => (None, s)
        | Some l =>
            let h := bytes_hdr l in
            if negb (i_magic h =? ITEM_MAGIC_NUM) && (i_magic h =? 0xFF) && (i_state h =? 0xFF) then stop pos s
            else
              let vlen := if negb (i_magic h =? ITEM_MAGIC_NUM) then 0xFFFF else val_len h in
              if (ITEM_MAX_VAL_LEN <? vlen) || (ITEM_MAX_KEY_LEN <? key_len h) then
                next (wrap16 (pos + ITEM_HEADER_SIZE)) (mark_dirty blk_index s)
              else
                let len := wrap16 (kv_align (ITEM_HEADER_SIZE + key_len h + vlen)) in
                if i_state h =? ITEM_STATE_NORMAL then
                  let '(ret, item, s) := func {| i_hdr := h; i_store := []; i_len := key_len h + vlen; i_pos := pos |} key s in
                  match ret with
                  | RES_OK => (Some item, s)
                  | RES_CONT => next (wrap16 (pos + len)) s
                  | _ => (None, s)
                  end
                else next (wrap16 (pos + len)) (mark_dirty blk_index s)
        end
  end.

(** The number of iterations the loop can make. *)
Definition traverse_fuel : nat := 513.

Definition kv_item_traverse (func : item_func) (blk_index : Z) key s : option kv_item_t * kv_mgr_t F :=
  traverse_loop traverse_fuel func blk_index key (Z.shiftl blk_index BLK_BITS + BLK_HEADER_SIZE) s.

(** The blocks from [i] on, [n] of them. *)
Fixpoint get_from (n : nat) i key s : option kv_item_t * kv_mgr_t F :=
  match n with
  | O => (None, s)
  | S n =>
      if negb (b_state (info_of s i) =? BLK_STATE_CLEAN) then
        match kv_item_traverse __item_find_cb i key s with
        | (Some item, s) => (Some item, s)
        | (None, s) => get_from n (i + 1) key s
        end
      else get_from n (i + 1) key s
  end.

Definition kv_item_get key s : option kv_item_t * kv_mgr_t F := get_from (Z.to_nat BLK_NUMS) 0 key s.

Definition kv_item_store key val (origin : Z) s : result_e * kv_mgr_t F :=
  let data := key ++ val in
  let h := {| i_magic := ITEM_MAGIC_NUM; i_state := ITEM_STATE_NORMAL; i_crc := utils_crc8 data; key_len := wrap8 (Z.of_nat (length key));
              val_len := wrap16 (Z.of_nat (length val)); origin_off := origin |} in
  let len := wrap16 (kv_align (ITEM_HEADER_SIZE + key_len h + val_len h)) in
  let '(ok, s) := aos_malloc s in
  if negb ok then (RES_MALLOC_FAILED, s)
  else
    let p := hdr_bytes h ++ data in
    let p := p ++ replicate (Z.to_nat len - length p) 0 in
    let '(pos, s) := kv_item_calc_pos len s in
    if 0 <? pos then
      let '(ok, s) := raw_write pos p s in
      if ok then
        let s := s <| write_pos := wrap16 (pos + len) |> in
        let index := Z.shiftr (write_pos s) BLK_BITS in
        (RES_OK, set_space index (wrap16 (space (info_of s index) - len)) s)
      else (RES_EIO, s)
    else (RES_NO_SPACE, s).

Definition kv_item_update item key val s : result_e * kv_mgr_t F :=
  if (val_len (i_hdr item) =? Z.of_nat (length val)) &&
     same_bytes (drop (Z.to_nat (key_len (i_hdr item))) (i_store item)) val (Z.of_nat (length val)) then (RES_OK, s)
  else
    let '(ret, s) := kv_item_store key val (i_pos item) s in
    if decide (ret <> RES_OK) then (ret, s) else kv_item_del item KV_SELF_REMOVE s.

(** ** The API *)
Definition aos_kv_del key s : result_e * kv_mgr_t F :=
  match kv_item_get key s with
  | (None, s) => (RES_ITEM_NOT_FOUND, s)
  | (Some item, s) => kv_item_del item KV_SELF_REMOVE s
  end.

(** The part of [aos_kv_set] under the mutex. *)
Definition kv_set_locked key val s : result_e * kv_mgr_t F :=
  match kv_item_get key s with
  | (Some item, s) => kv_item_update item key val s
  | (None, s) => kv_item_store key val 0 s
  end.

(** No result when the caller waits for the garbage collection. *)
Definition aos_kv_set key val s : option result_e * kv_mgr_t F :=
  if (Z.of_nat (length val) <=? 0) || (ITEM_MAX_KEY_LEN <? Z.of_nat (length key)) || (ITEM_MAX_VAL_LEN <? Z.of_nat (length val))
  then (Some RES_INVALID_PARAM, s)
  else if negb (gc_triggered s =? 0) then (None, s <| gc_waiter ::= fun n => wrap8 (n + 1) |>)
  else let '(ret, s) := kv_set_locked key val s in (Some ret, s).

(** The status, the bytes copied to the buffer and the new [*buffer_len]. *)
Definition aos_kv_get key (buffer_len : Z) s : result_e * list Z * Z * kv_mgr_t F :=
  if buffer_len <=? 0 then (RES_INVALID_PARAM, [], buffer_len, s)
  else
    match kv_item_get key s with
    | (None, s) => (RES_ITEM_NOT_FOUND, [], buffer_len, s)
    | (Some item, s) =>
        let vlen := val_len (i_hdr item) in
        if buffer_len <? vlen then (RES_NO_SPACE, [], vlen, s)
        else (RES_OK, take (Z.to_nat vlen) (drop (Z.to_nat (key_len (i_hdr item))) (i_store item)), vlen, s)
    end.

(** ** Garbage collection *)

(** The first clean block from [i] on. *)
Fixpoint find_clean (n : nat) i s : option Z :=
  match n with
  | O => None
  | S n => if b_state (info_of s i) =? BLK_STATE_CLEAN then Some i else find_clean n (i + 1) s
  end.

(** The loop over the blocks from [i] up to the one of [origin_pos]; whether a block was
    copied. *)
Fixpoint gc_loop (n : nat) i (origin_pos gc_index : Z) s : bool * kv_mgr_t F :=
  match n with
  | O => (false, s)
  | S n =>
      let i := if i =? BLK_NUMS then 0 else i in
      if b_state (info_of s i) =? BLK_STATE_DIRTY then
        let s := (kv_item_traverse __item_gc_cb i [] s).2 in
        match kv_block_format i s with
        | (RES_OK, s) =>
            let s := (kv_state_set (Z.land (write_pos s) BLK_OFF_MASK) BLK_STATE_USED s).2 in
            let s := set_state gc_index BLK_STATE_USED s in
            (true, s <| clean_blk_nums ::= fun n => wrap8 (n - 1) |>)
        | (_, s) => (true, s)
        end
      else if i =? Z.shiftr origin_pos BLK_BITS then (false, s)
      else gc_loop n (i + 1) origin_pos gc_index s
  end.

Definition aos_kv_gc s : kv_mgr_t F :=
  let origin_pos := write_pos s in
  let s :=
    if clean_blk_nums s =? 0 then s
    else
      match find_clean (Z.to_nat BLK_NUMS) 0 s with
      | None => s
      | Some gc_index =>
          let s := s <| write_pos := Z.shiftl gc_index BLK_BITS + BLK_HEADER_SIZE |> in
          let '(gc_copy, s) := gc_loop (S (Z.to_nat BLK_NUMS)) (Z.shiftr origin_pos BLK_BITS + 1) origin_pos gc_index s in
          if gc_copy then s else s <| write_pos := origin_pos |>
      end in
  s <| gc_triggered := 0 |>.

(** ** Start *)

(** One block; [unclean] collects clean blocks with data in them. *)
Definition init_block i (unclean : list Z) s : result_e * list Z * kv_mgr_t F :=
  let h := default [0; 0; 0; 0] (raw_read (Z.shiftl i BLK_BITS) BLK_HEADER_SIZE s) in
  let magic := nth 0 h 0 in let state := nth 1 h 0 in
  if magic =? BLK_MAGIC_NUM then
    if INVALID_BLK_STATE state then
      let '(ret, s) := kv_block_format i s in (ret, unclean, s)
    else
      let s := set_state i state s in
      let s := (kv_item_traverse __item_recovery_cb i [] s).2 in
      if state =? BLK_STATE_CLEAN then
        if negb (space (info_of s i) =? BLK_SIZE - BLK_HEADER_SIZE) then (RES_OK, i :: unclean, s)
        else (RES_OK, unclean, s <| clean_blk_nums ::= fun n => wrap8 (n + 1) |>)
      else (RES_OK, unclean, s)
  else let '(ret, s) := kv_block_format i s in (ret, unclean, s).

Fixpoint init_blocks (n : nat) i (unclean : list Z) s : result_e * list Z * kv_mgr_t F :=
  match n with
  | O => (RES_OK, unclean, s)
  | S n =>
      match init_block i unclean s with
      | (RES_OK, unclean, s) => init_blocks n (i + 1) unclean s
      | r => r
      end
  end.

Fixpoint init_unclean (unclean : list Z) s : result_e * kv_mgr_t F :=
  match unclean with
  | [] => (RES_OK, s)
  | i :: unclean =>
      if KV_GC_RESERVED <=? clean_blk_nums s then
        match kv_state_set (Z.shiftl i BLK_BITS) BLK_STATE_DIRTY s with
        | (RES_OK, s) => init_unclean unclean (set_state i BLK_STATE_DIRTY s)
        | r => r
        end
      else
        match kv_block_format i s with
        | (RES_OK, s) => init_unclean unclean s
        | r => r
        end
  end.

(** The write position: behind the last item of a block in use before a clean one. *)
Fixpoint init_write_pos (n : nat) i s : kv_mgr_t F :=
  match n with
  | O => s
  | S n =>
      let b := info_of s i in
      let next := if i + 1 =? BLK_NUMS then 0 else i + 1 in
      if ((b_state b =? BLK_STATE_USED) || (b_state b =? BLK_STATE_DIRTY)) && (b_state (info_of s next) =? BLK_STATE_CLEAN)
      then s <| write_pos := Z.shiftl i BLK_BITS + BLK_SIZE - space b |>
      else init_write_pos n (i + 1) s
  end.

Definition kv_init s : result_e * kv_mgr_t F :=
  match init_blocks (Z.to_nat BLK_NUMS) 0 [] s with
  | (RES_OK, unclean, s) =>
      match init_unclean unclean s with
      | (RES_OK, s) =>
          let '(ret, s) := if clean_blk_nums s =? 0 then kv_block_format 0 s else (RES_OK, s) in
          if decide (ret <> RES_OK) then (ret, s)
          else if clean_blk_nums s =? BLK_NUMS then
            let s := s <| write_pos := BLK_HEADER_SIZE |> in
            match kv_state_set (Z.land (write_pos s) BLK_OFF_MASK) BLK_STATE_USED s with
            | (RES_OK, s) => (RES_OK, (set_state 0 BLK_STATE_USED s) <| clean_blk_nums ::= fun n => wrap8 (n - 1) |>)
            | (_, s) => (RES_OK, s)
            end
          else (RES_OK, init_write_pos (Z.to_nat BLK_NUMS) 0 s)
      | r => r
      end
  | (ret, _, s) => (ret, s)
  end.

(** The zeroed manager on the flash [d]. *)
Definition kv_mgr_zero (d : F) : kv_mgr_t F := {|
  kv_initialize := 0; gc_triggered := 0; gc_waiter := 0; clean_blk_nums := 0; write_pos := 0;
  block_info := replicate (Z.to_nat BLK_NUMS) {| space := 0; b_state := 0 |}; dev := d; mallocs := [] |}.

Definition aos_kv_init s : result_e * kv_mgr_t F :=
  if negb (kv_initialize s =? 0) then (RES_OK, s)
  else if BLK_NUMS <=? KV_GC_RESERVED then (RES_INVALID_PARAM, s)
  else
    let s := (kv_mgr_zero (dev s)) <| mallocs := mallocs s |> in
    let '(ret, s) := kv_init s in
    if decide (ret <> RES_OK) then (ret, s)
    else
      let s := s <| kv_initialize := 1 |> in
      let blk_index := Z.shiftr (write_pos s) BLK_BITS in
      let s := if (space (info_of s blk_index) <? ITEM_MAX_LEN) && (clean_blk_nums s <? KV_GC_RESERVED + 1) then trigger_gc s else s in
      (RES_OK, s).

Definition aos_kv_deinit s : kv_mgr_t F := s <| kv_initialize := 0 |>.
End Kv.

(** ** A flash in memory *)

(** Reads and writes stay inside a block, as on the boards, where the two blocks are in
    different partitions. *)
Definition in_block (off n : Z) : bool := (0 <=? off) && (0 <=? n) && (if off <? BLK_SIZE then off + n <=? BLK_SIZE else off + n <=? KV_TOTAL_SIZE).
Definition overwrite (off : Z) (l d : list Z) : list Z :=
  take (Z.to_nat off) d ++ l ++ drop (Z.to_nat off + length l) d.

(** The bytes and, newest first, the contents after each write and each erasure so far:
    what a loss of power can leave. *)
Record mem_flash := { mem_bytes : list Z; mem_journal : list (list Z) }.
Definition mem_put (l : list Z) (d : mem_flash) : mem_flash := {| mem_bytes := l; mem_journal := l :: mem_journal d |}.
#[export] Instance mem_flash_ops : Flash mem_flash := {
  hal_flash_read off n d := if in_block off n then Some (take (Z.to_nat n) (drop (Z.to_nat off) (mem_bytes d))) else None;
  hal_flash_write off l d := (true, if in_block off (Z.of_nat (length l)) then mem_put (overwrite off l (mem_bytes d)) d else d);
  hal_flash_erase off n d :=
    if in_block off n then (true, mem_put (overwrite off (replicate (Z.to_nat n) 0xFF) (mem_bytes d)) d) else (false, d);
}.

Module KvDemo.
Definition blank : mem_flash := {| mem_bytes := replicate (Z.to_nat KV_TOTAL_SIZE) 0xFF; mem_journal := [] |}.
Definition start : kv_mgr_t mem_flash := (aos_kv_init (kv_mgr_zero blank)).2.
Definition s1 := (aos_kv_set [1; 2] [10; 20; 30] start).2.
Definition s2 := (aos_kv_set [1; 3] [7] s1).2.
Definition s3 := (aos_kv_set [1; 2] [11] s2).2.
Definition s4 := aos_kv_gc s3.
Definition s5 := (aos_kv_del [1; 3] s4).2.

Example kv_demo :
  (aos_kv_get [1; 2] 100 s2).1.1.2 = [10; 20; 30] /\ (aos_kv_get [1; 2] 100 s3).1 = (RES_OK, [11], 1) /\
  write_pos s3 = 44 /\ write_pos s4 = 4096 + 28 /\ (aos_kv_get [1; 2] 100 s4).1 = (RES_OK, [11], 1) /\ (aos_kv_get [1; 3] 100 s4).1 = (RES_OK, [7], 1) /\
  (aos_kv_get [1; 3] 100 s5).1.1.1 = RES_ITEM_NOT_FOUND.
Proof. vm_compute. split_and!; reflexivity. Qed.
End KvDemo.
