(* ===== verification/KvLog.v ===== *)
(** * The log of the key-value store

    [FlashOk] states what the store relies on: a flash holds bytes that are read as they
    were written, inside a block.  [ebytes e] are the bytes of an item, [block_img] those
    of a block with the items [es], and [kv_rep] is the invariant of the store: the block
    [cur] holds the log [es], the other one is clean, and the manager's counters are the
    ones of that log. *)
From S2P Require Import Prelude KTypes Kv.
Local Open Scope Z_scope.

(** The bytes a flash holds, and a record of what it held: newest first, the contents
    after each write and each erasure. *)
Class FlashContents (F : Type) := { contents : F -> list Z; journal : F -> list (list Z) }.

Class FlashOk (F : Type) `{Flash F, FlashContents F} : Prop := {
  flash_read_ok : forall d off n, in_block off n = true -> hal_flash_read off n d = Some (take (Z.to_nat n) (drop (Z.to_nat off) (contents d)));
  flash_write_ok : forall d off l, in_block off (Z.of_nat (length l)) = true ->
    exists d', hal_flash_write off l d = (true, d') /\ contents d' = overwrite off l (contents d) /\ journal d' = contents d' :: journal d;
  flash_erase_ok : forall d off, off = 0 \/ off = BLK_SIZE ->
    exists d', hal_flash_erase off BLK_SIZE d = (true, d') /\ contents d' = overwrite off (replicate (Z.to_nat BLK_SIZE) 0xFF) (contents d) /\ journal d' = contents d' :: journal d;
}.

#[export] Instance mem_flash_contents : FlashContents mem_flash := { contents := mem_bytes; journal := mem_journal }.
#[export] Instance mem_flash_ok : FlashOk mem_flash.
Proof.
  split; [intros d off n Hb|intros d off l Hb|intros d off [-> | ->]; by eexists]; cbn [hal_flash_read hal_flash_write mem_flash_ops]; rewrite Hb; [done|by eexists].
Qed.

(** [d'] is the flash [d] after one more write, with the contents [c]. *)
Definition wrote {F : Type} `{FlashContents F} (d d' : F) (c : list Z) : Prop := contents d' = c /\ journal d' = c :: journal d.

(** From [d] to [d'] the flash only held contents with [P]. *)
Definition grows {F : Type} `{FlashContents F} (P : list Z -> Prop) (d d' : F) : Prop := exists js, journal d' = js ++ journal d /\ Forall P js.

Lemma grows_refl {F : Type} `{FlashContents F} P (d : F) : grows P d d.
Proof. by exists []. Qed.

Lemma grows_trans {F : Type} `{FlashContents F} P (d1 d2 d3 : F) : grows P d1 d2 -> grows P d2 d3 -> grows P d1 d3.
Proof. intros (j1 & E1 & H1) (j2 & E2 & H2). exists (j2 ++ j1). split; [by rewrite E2, E1, app_assoc|]. by apply Forall_app. Qed.

Lemma grows_wrote {F : Type} `{FlashContents F} (P : list Z -> Prop) (d d' : F) c : wrote d d' c -> P c -> grows P d d'.
Proof. intros [_ Hj] HP. exists [c]. split; [done|]. by constructor. Qed.

Lemma grows_mono {F : Type} `{FlashContents F} (P Q : list Z -> Prop) (d d' : F) : (forall c, P c -> Q c) -> grows P d d' -> grows Q d d'.
Proof. intros HPQ (js & E & HP). exists js. split; [done|]. by eapply Forall_impl. Qed.

(** ** Bytes at a place *)
Lemma read_at {A} (l1 x l2 : list A) off n : off = length l1 -> n = length x -> take n (drop off (l1 ++ x ++ l2)) = x.
Proof. intros -> ->. by rewrite drop_app_length, take_app_length. Qed.

Lemma overwrite_at (l1 x x' l2 : list Z) off : off = Z.of_nat (length l1) -> length x' = length x -> overwrite off x' (l1 ++ x ++ l2) = l1 ++ x' ++ l2.
Proof.
  intros -> Hl. unfold overwrite. rewrite Nat2Z.id, take_app_length, Hl. f_equal. f_equal.
  by rewrite drop_app_ge, Nat.add_comm, Nat.add_sub, drop_app_length by lia.
Qed.

(** ** Items *)
Record entry := { e_del : bool; e_key : list Z; e_val : list Z; e_org : Z }.
Implicit Types (e : entry) (es : list entry).

Definition klen e : Z := Z.of_nat (length (e_key e)).
Definition vlen e : Z := Z.of_nat (length (e_val e)).
Definition esize e : Z := 4 * ((8 + klen e + vlen e + 3) / 4).
Definition estate e : Z := if e_del e then ITEM_STATE_DELETE else ITEM_STATE_NORMAL.
Definition ehdr e : item_hdr_t := {| i_magic := ITEM_MAGIC_NUM; i_state := estate e; i_crc := utils_crc8 (e_key e ++ e_val e);
  key_len := klen e; val_len := vlen e; origin_off := e_org e |}.
Definition edata e : list Z := e_key e ++ e_val e.
Definition epad e : list Z := replicate (Z.to_nat (esize e) - length (hdr_bytes (ehdr e) ++ edata e)) 0.
Definition ebytes e : list Z := hdr_bytes (ehdr e) ++ edata e ++ epad e.
Definition entry_ok e : Prop := klen e <= ITEM_MAX_KEY_LEN /\ 1 <= vlen e <= ITEM_MAX_VAL_LEN.

Definition log_size es : Z := foldr (fun e n => esize e + n) 0 es.
Definition log_bytes es : list Z := concat (ebytes <$> es).

Definition item_at e pos : kv_item_t := {| i_hdr := ehdr e; i_store := []; i_len := klen e + vlen e; i_pos := pos |}.
Definition found_at e pos : kv_item_t := {| i_hdr := ehdr e; i_store := edata e; i_len := klen e + vlen e; i_pos := pos |}.

Lemma esize_spec e : entry_ok e -> 12 <= esize e <= 648 /\ esize e mod 4 = 0 /\ 8 + klen e + vlen e <= esize e.
Proof.
  unfold entry_ok, esize, ITEM_MAX_KEY_LEN, ITEM_MAX_VAL_LEN, klen, vlen. intros [H1 H2]. split_and!; [Z.to_euclidean_division_equations; lia..| |Z.to_euclidean_division_equations; lia].
  rewrite Z.mul_comm. by apply Z.mod_mul.
Qed.

Lemma length_ebytes e : entry_ok e -> Z.of_nat (length (ebytes e)) = esize e.
Proof.
  intros He. destruct (esize_spec e He) as (H1 & _ & H2). unfold ebytes, epad, edata. rewrite !length_app, length_replicate. cbn [hdr_bytes length].
  unfold klen, vlen in H2. lia.
Qed.

Lemma log_size_cons e es : log_size (e :: es) = esize e + log_size es.
Proof. done. Qed.

Lemma log_size_app es1 es2 : log_size (es1 ++ es2) = log_size es1 + log_size es2.
Proof. induction es1 as [|e es1 IH]; [done|]. cbn [app]. rewrite !log_size_cons, IH. lia. Qed.

Lemma log_size_nonneg es : Forall entry_ok es -> 0 <= log_size es /\ log_size es mod 4 = 0.
Proof.
  induction 1 as [|e es He _ [IH1 IH2]]; [done|]. rewrite log_size_cons. destruct (esize_spec e He) as (H1 & H2 & _). split; [lia|].
  Z.to_euclidean_division_equations. lia.
Qed.

Lemma log_bytes_app es1 es2 : log_bytes (es1 ++ es2) = log_bytes es1 ++ log_bytes es2.
Proof. unfold log_bytes. by rewrite fmap_app, concat_app. Qed.

Lemma length_log es : Forall entry_ok es -> Z.of_nat (length (log_bytes es)) = log_size es.
Proof.
  induction 1 as [|e es He _ IH]; [done|]. rewrite log_size_cons. change (e :: es) with ([e] ++ es). rewrite log_bytes_app, length_app. unfold log_bytes at 1. cbn [fmap list_fmap concat].
  rewrite app_nil_r, Nat2Z.inj_add, length_ebytes by done. lia.
Qed.

Lemma bytes_hdr_bytes h : bytes_hdr (hdr_bytes h) = h.
Proof. destruct h as [a b c d v o]. unfold bytes_hdr, hdr_bytes. cbn [i_magic i_state i_crc key_len val_len origin_off]. f_equal; Z.to_euclidean_division_equations; lia. Qed.

Lemma land_mask x k : 0 <= k <= 32 -> 0 <= x < 2 ^ 32 -> Z.land x (Z.ldiff (Z.ones 32) (Z.ones k)) = Z.shiftl (Z.shiftr x k) k.
Proof.
  intros Hk Hx. apply Z.bits_inj'. intros i Hi. rewrite Z.land_spec, Z.ldiff_spec, Z.shiftl_spec by done. destruct (Z.lt_ge_cases i k).
  - rewrite (Z.testbit_neg_r (Z.shiftr _ _)) by lia. rewrite (Z.ones_spec_low k) by lia. by rewrite andb_false_r, andb_false_r.
  - rewrite Z.shiftr_spec by lia. replace (i - k + k) with i by lia. rewrite (Z.ones_spec_high k) by lia. rewrite andb_true_r.
    destruct (Z.lt_ge_cases i 32); [rewrite Z.ones_spec_low by lia; by rewrite andb_true_r|]. rewrite Z.ones_spec_high by lia. rewrite andb_false_r.
    destruct (decide (x = 0)) as [->|]; [by rewrite Z.testbit_0_l|]. symmetry. apply Z.bits_above_log2; [lia|].
    apply Z.log2_lt_pow2; [lia|]. pose proof (Z.pow_le_mono_r 2 32 i). lia.
Qed.

Lemma kv_align_spec x : 0 <= x < 2 ^ 16 -> kv_align x = 4 * ((x + 3) / 4).
Proof.
  intros Hx. unfold kv_align. change (wrap32 (Z.lnot KV_ALIGN_MASK)) with 3. rewrite wrap32_small by (unfold u32; lia).
  change KV_ALIGN_MASK with (Z.ldiff (Z.ones 32) (Z.ones 2)). rewrite land_mask by lia.
  rewrite Z.shiftl_mul_pow2, Z.shiftr_div_pow2 by lia. change (2 ^ 2) with 4. lia.
Qed.

Lemma align_esize e : entry_ok e -> wrap16 (kv_align (ITEM_HEADER_SIZE + klen e + vlen e)) = esize e.
Proof.
  intros He. destruct (esize_spec e He) as (H1 & _ & H2). unfold entry_ok, ITEM_MAX_KEY_LEN, ITEM_MAX_VAL_LEN in He.
  rewrite kv_align_spec by (unfold ITEM_HEADER_SIZE, klen, vlen in *; lia). unfold ITEM_HEADER_SIZE. fold (esize e). apply Z.mod_small. lia.
Qed.

(** ** Blocks *)
Definition block_img (st : Z) es (sp : Z) : list Z := [BLK_MAGIC_NUM; st; 0; 0] ++ log_bytes es ++ replicate (Z.to_nat sp) 0xFF.
Definition clean_img : list Z := block_img BLK_STATE_CLEAN [] 4092.

(** The contents with the image [img] in the block [cur] and [other] in the other one. *)
Definition two_blocks (cur : bool) (img other : list Z) : list Z := if cur then other ++ img else img ++ other.
Definition base (cur : bool) : Z := if cur then 4096 else 0.
Definition two_infos (cur : bool) (b other : block_info_t) : list block_info_t := if cur then [other; b] else [b; other].

Lemma length_block st es sp : Forall entry_ok es -> 0 <= sp -> Z.of_nat (length (block_img st es sp)) = 4 + log_size es + sp.
Proof. intros He Hs. unfold block_img. rewrite !length_app, length_replicate, !Nat2Z.inj_add, length_log by done. cbn [length]. lia. Qed.

Lemma length_clean : Z.of_nat (length clean_img) = 4096.
Proof. unfold clean_img. by rewrite length_block. Qed.

Definition idx (cur : bool) : Z := Z.b2z cur.

Lemma two_blocks_swap cur a b : two_blocks cur a b = two_blocks (negb cur) b a.
Proof. by destruct cur. Qed.

(** Before and behind the block [cur]. *)
Definition before (cur : bool) (other : list Z) : list Z := if cur then other else [].
Definition behind (cur : bool) (other : list Z) : list Z := if cur then [] else other.

Lemma two_blocks_cut cur a x b other : two_blocks cur (a ++ x ++ b) other = (before cur other ++ a) ++ x ++ b ++ behind cur other.
Proof. destruct cur; cbn [two_blocks before behind]; by rewrite ?app_nil_r, <- ?app_assoc. Qed.

Lemma length_before cur other : Z.of_nat (length other) = 4096 -> Z.of_nat (length (before cur other)) = base cur.
Proof. by destruct cur. Qed.

Section Blocks.
Context {F : Type} `{FlashOk F}.
Implicit Types (d : F) (s : kv_mgr_t F).

Lemma in_block_ok cur (a n : Z) : 0 <= a -> 0 <= n -> a + n <= 4096 -> (n <> 0 \/ a < 4096) -> in_block (base cur + a) n = true.
Proof.
  intros. unfold in_block. change BLK_SIZE with 4096. change KV_TOTAL_SIZE with 8192. unfold base.
  rewrite !andb_true_iff, !Z.leb_le. destruct cur; [destruct (Z.ltb_spec (4096 + a) 4096)|destruct (Z.ltb_spec (0 + a) 4096)]; rewrite Z.leb_le; lia.
Qed.

Lemma block_read d cur a x b other off n :
  contents d = two_blocks cur (a ++ x ++ b) other -> Z.of_nat (length other) = 4096 -> Z.of_nat (length (a ++ x ++ b)) = 4096 -> x <> [] ->
  off = base cur + Z.of_nat (length a) -> n = Z.of_nat (length x) -> hal_flash_read off n d = Some x.
Proof.
  intros Hc Ho Hl Hx -> ->. rewrite !length_app in Hl. destruct x as [|y x]; [done|]. rewrite flash_read_ok by (apply in_block_ok; cbn [length] in *; lia).
  rewrite Hc, two_blocks_cut, read_at; [done|rewrite length_app; pose proof (length_before cur other Ho); lia|lia].
Qed.

Lemma block_write d cur a x x' b other off :
  contents d = two_blocks cur (a ++ x ++ b) other -> Z.of_nat (length other) = 4096 -> Z.of_nat (length (a ++ x ++ b)) = 4096 -> x <> [] ->
  length x' = length x -> off = base cur + Z.of_nat (length a) ->
  exists d', hal_flash_write off x' d = (true, d') /\ wrote d d' (two_blocks cur (a ++ x' ++ b) other).
Proof.
  intros Hc Ho Hl Hx Hx' ->. rewrite !length_app in Hl. destruct (flash_write_ok d (base cur + Z.of_nat (length a)) x') as (d' & Hw & Hc' & Hj).
  { destruct x; [done|]. apply in_block_ok; cbn [length] in *; lia. }
  exists d'. split; [done|]. unfold wrote. rewrite Hj, Hc', Hc, !two_blocks_cut, (overwrite_at _ x x'); [done| |done].
  rewrite length_app. pose proof (length_before cur other Ho). lia.
Qed.

Lemma block_erase d cur img other :
  contents d = two_blocks cur img other -> Z.of_nat (length other) = 4096 -> Z.of_nat (length img) = 4096 ->
  exists d', hal_flash_erase (base cur) 4096 d = (true, d') /\ wrote d d' (two_blocks cur (replicate 4096 0xFF) other).
Proof.
  intros Hc Ho Hl. destruct (flash_erase_ok d (base cur)) as (d' & Hw & Hc' & Hj); [destruct cur; [by right|by left]|].
  exists d'. split; [done|]. unfold wrote. rewrite Hj, Hc', Hc.
  pose proof (two_blocks_cut cur [] img [] other) as E1. pose proof (two_blocks_cut cur [] (replicate 4096 0xFF) [] other) as E2.
  rewrite app_nil_r in E1, E2. cbn [app] in E1, E2. rewrite E1, E2, (overwrite_at _ img); [done|by rewrite app_nil_r, length_before|].
  change (Z.to_nat BLK_SIZE) with 4096%nat. rewrite length_replicate. lia.
Qed.
End Blocks.
