(* ===== verification/KvFind.v ===== *)
(** * Traversing the log

    [kv_item_traverse] on a block that holds the log [es] behaves as [scan] on the items of
    the log; so the search of a key finds the first live item with that key, and changes
    nothing. *)
From S2P Require Import Prelude KTypes Kv KvLog.
Local Open Scope Z_scope.

(** What a log is, whatever the flash. *)
Record log_ok (st : Z) (es : list entry) (sp : Z) : Prop := {
  lo_entries : Forall entry_ok es;
  lo_size : 4 + log_size es + sp = 4096;
  lo_space : 4 <= sp;
  lo_dirty : Exists (fun e => e_del e = true) es -> st <> BLK_STATE_USED;
}.

Lemma log_ok_mid st pre e post sp : log_ok st (pre ++ e :: post) sp ->
  Forall entry_ok pre /\ entry_ok e /\ Forall entry_ok post /\ 0 <= log_size pre /\ 0 <= log_size post /\ 4 + log_size pre + esize e + log_size post + sp = 4096 /\ 4 <= sp.
Proof.
  intros [Hf Hs Hsp _]. apply Forall_app in Hf as [H1 H2]. inversion_clear H2 as [|?? H3 H4]. rewrite log_size_app, log_size_cons in Hs.
  pose proof (log_size_nonneg pre H1). pose proof (log_size_nonneg post H4). split_and!; [done|done|done|lia..].
Qed.

Lemma log_ok_length st es sp : log_ok st es sp -> 12 * Z.of_nat (length es) <= log_size es <= 4088.
Proof.
  intros [Hf Hs Hsp _]. split; [|lia]. clear -Hf. induction Hf as [|e es He _ IH]; [done|]. rewrite log_size_cons.
  pose proof (esize_spec e He). cbn [length]. lia.
Qed.

Lemma wrap16_small x : 0 <= x < 65536 -> wrap16 x = x.
Proof. apply Z.mod_small. Qed.

(** ** The parts of a block image *)
Definition blk_head (st : Z) : list Z := [BLK_MAGIC_NUM; st; 0; 0].
Definition blank (n : Z) : list Z := replicate (Z.to_nat n) 0xFF.

Lemma img_split st pre e post sp :
  block_img st (pre ++ e :: post) sp = (blk_head st ++ log_bytes pre) ++ ebytes e ++ (log_bytes post ++ blank sp).
Proof.
  unfold block_img. change (e :: post) with ([e] ++ post). rewrite !log_bytes_app. unfold log_bytes at 2. cbn [fmap list_fmap concat].
  by rewrite app_nil_r, <- !app_assoc.
Qed.

Lemma length_head st es : Forall entry_ok es -> Z.of_nat (length (blk_head st ++ log_bytes es)) = 4 + log_size es.
Proof. intros He. rewrite length_app, Nat2Z.inj_add, length_log by done. done. Qed.

Lemma length_img st st' es sp : log_ok st' es sp -> Z.of_nat (length (block_img st es sp)) = 4096.
Proof. intros [Hf Hs Hsp _]. rewrite length_block by (done || lia). done. Qed.

Definition pos_of (cur : bool) (pre : list entry) : Z := base cur + 4 + log_size pre.

Lemma pos_of_snoc cur pre e : pos_of cur (pre ++ [e]) = pos_of cur pre + esize e.
Proof. unfold pos_of. rewrite log_size_app, log_size_cons. cbn [log_size foldr]. lia. Qed.

Lemma base_shiftl cur : Z.shiftl (idx cur) BLK_BITS = base cur.
Proof. by destruct cur. Qed.

(** ** Reading the log *)
Section Reads.
Context {F : Type} `{FlashOk F}.
Implicit Types (d : F) (s : kv_mgr_t F) (e : entry).

(** The block [cur] holds the log [es], and its state is known. *)
Record holds s (cur : bool) (st : Z) (es : list entry) (sp : Z) : Prop := {
  h_mallocs : mallocs s = [];
  h_contents : exists other, Z.of_nat (length other) = 4096 /\ contents (dev s) = two_blocks cur (block_img st es sp) other;
  h_state : b_state (info_of s (idx cur)) = st;
}.

Lemma read_piece s cur st st' pre e post sp x y z (n : Z) off :
  holds s cur st (pre ++ e :: post) sp -> log_ok st' (pre ++ e :: post) sp -> ebytes e = x ++ y ++ z -> y <> [] -> n = Z.of_nat (length y) ->
  off = pos_of cur pre + Z.of_nat (length x) -> raw_read off n s = Some y.
Proof.
  intros [_ (other & Ho & Hc) _] Hok Hb Hy Hn ->. pose proof (length_img st _ _ _ Hok) as Hl. rewrite img_split, Hb in Hc, Hl. rewrite <- !app_assoc in Hc, Hl.
  rewrite !(app_assoc (blk_head st)), (app_assoc _ x) in Hc, Hl. destruct (log_ok_mid _ _ _ _ _ Hok) as (Hp & _).
  unfold raw_read. eapply block_read; [exact Hc|done|exact Hl|done| |done].
  rewrite length_app, Nat2Z.inj_add, length_head by done. unfold pos_of. lia.
Qed.

Lemma read_hdr s cur st st' pre e post sp :
  holds s cur st (pre ++ e :: post) sp -> log_ok st' (pre ++ e :: post) sp -> raw_read (pos_of cur pre) ITEM_HEADER_SIZE s = Some (hdr_bytes (ehdr e)).
Proof. intros Hh Hok. eapply (read_piece _ _ _ _ _ _ _ _ [] _ (edata e ++ epad e)); [done|done|done|done|done|cbn [length]; lia]. Qed.

Lemma read_data s cur st st' pre e post sp :
  holds s cur st (pre ++ e :: post) sp -> log_ok st' (pre ++ e :: post) sp -> raw_read (pos_of cur pre + ITEM_HEADER_SIZE) (klen e + vlen e) s = Some (edata e).
Proof.
  intros Hh Hok. destruct (log_ok_mid _ _ _ _ _ Hok) as (_ & [_ He] & _). eapply (read_piece _ _ _ _ _ _ _ _ (hdr_bytes (ehdr e)) _ (epad e)); [done|done|done| | |done].
  - unfold edata, vlen in *. destruct (e_key e), (e_val e); done || (cbn [length] in He; lia).
  - unfold edata, klen, vlen. rewrite length_app. lia.
Qed.

Lemma read_item s cur st st' pre e post sp :
  holds s cur st (pre ++ e :: post) sp -> log_ok st' (pre ++ e :: post) sp -> raw_read (pos_of cur pre) (esize e) s = Some (ebytes e).
Proof.
  intros Hh Hok. destruct (log_ok_mid _ _ _ _ _ Hok) as (_ & He & _). eapply (read_piece _ _ _ _ _ _ _ _ [] _ []); [done|done| |done| |cbn [length]; lia].
  - by rewrite app_nil_r.
  - by rewrite length_ebytes.
Qed.

Lemma read_blank s cur st st' es sp (n : Z) :
  holds s cur st es sp -> log_ok st' es sp -> 0 < n <= sp -> raw_read (pos_of cur es) n s = Some (blank n).
Proof.
  intros [_ (other & Ho & Hc) _] Hok Hn. pose proof (length_img st _ _ _ Hok) as Hl. destruct Hok as [Hf _ _ _].
  replace (block_img st es sp) with ((blk_head st ++ log_bytes es) ++ blank n ++ blank (sp - n)) in Hc, Hl.
  2: { unfold block_img, blank, blk_head. rewrite <- replicate_add, <- Z2Nat.inj_add by lia. replace (n + (sp - n)) with sp by lia. by rewrite <- app_assoc. }
  unfold raw_read. eapply block_read; [exact Hc|done|exact Hl| | |].
  - unfold blank. destruct (Z.to_nat n) eqn:?; [lia|done].
  - rewrite length_head by done. unfold pos_of. lia.
  - unfold blank. rewrite length_replicate. lia.
Qed.

Lemma alter_info_id (f : block_info_t -> block_info_t) (bi : list block_info_t) (i : nat) b : default {| space := 0; b_state := 0 |} (bi !! i) = b -> f b = b -> alter f i bi = bi.
Proof.
  revert i. induction bi as [|x bi IH]; intros [|j] Hi Hf; [done|done| |].
  - cbn in *. subst x. by rewrite Hf.
  - cbn. f_equal. by apply IH.
Qed.

Lemma set_space_id s i sp : space (info_of s i) = sp -> set_space i sp s = s.
Proof.
  intros Hi. unfold set_space, info_of in *. destruct s as [a b c d w bi f m]. cbn in *. f_equal. eapply alter_info_id; [done|]. rewrite <- Hi. by destruct (default _ _).
Qed.

Lemma mark_dirty_id s i : b_state (info_of s i) <> BLK_STATE_USED -> mark_dirty i s = s.
Proof. intros Hs. unfold mark_dirty. by destruct (Z.eqb_spec (b_state (info_of s i)) BLK_STATE_USED). Qed.

(** ** The traversal is a scan of the items *)
Fixpoint scan (func : item_func) (key : list Z) (pos : Z) (es : list entry) s : option kv_item_t * kv_mgr_t F :=
  match es with
  | [] => (None, s)
  | e :: es =>
      if e_del e then scan func key (pos + esize e) es s
      else
        match func (item_at e pos) key s with
        | (RES_OK, item, s) => (Some item, s)
        | (RES_CONT, _, s) => scan func key (pos + esize e) es s
        | (_, _, s) => (None, s)
        end
  end.

(** The test of the loop, with the code behind the loop. *)
Definition traverse_next (fuel : nat) (func : item_func) (i : Z) (key : list Z) (pos : Z) s : option kv_item_t * kv_mgr_t F :=
  if pos + ITEM_HEADER_SIZE <? Z.shiftl i BLK_BITS + BLK_SIZE then traverse_loop fuel func i key pos s
  else (None, set_space i (if pos <? Z.shiftl i BLK_BITS + BLK_SIZE then Z.shiftl i BLK_BITS + BLK_SIZE - pos else ITEM_HEADER_SIZE) s).

(** Behind the last item the space left is recorded. *)
Lemma stop_space cur st es sp : log_ok st es sp ->
  (if pos_of cur es <? base cur + BLK_SIZE then base cur + BLK_SIZE - pos_of cur es else ITEM_HEADER_SIZE) = sp.
Proof. intros [_ Hs Hsp _]. unfold pos_of. change BLK_SIZE with 4096. destruct (Z.ltb_spec (base cur + 4 + log_size es) (base cur + 4096)); lia. Qed.

Lemma next_end_space fuel func key s cur st st' es sp :
  holds s cur st es sp -> log_ok st' es sp -> traverse_next (S fuel) func (idx cur) key (pos_of cur es) s = (None, set_space (idx cur) sp s).
Proof.
  intros Hh Hok. unfold traverse_next. rewrite base_shiftl, (stop_space _ _ _ _ Hok). case_match eqn:Hp; [|done].
  cbn [traverse_loop]. unfold aos_malloc. rewrite (h_mallocs _ _ _ _ _ Hh). cbn [negb].
  pose proof (lo_size _ _ _ Hok). change BLK_SIZE with 4096 in Hp. unfold ITEM_HEADER_SIZE in Hp.
  erewrite read_blank by (done || unfold ITEM_HEADER_SIZE; unfold pos_of in Hp; lia).
  change (blank ITEM_HEADER_SIZE) with (replicate 8 255). cbn [replicate bytes_hdr i_magic i_state].
  change (255 =? ITEM_MAGIC_NUM) with false. cbn [negb andb]. change (255 =? 255) with true. cbn iota. by rewrite base_shiftl, (stop_space _ _ _ _ Hok).
Qed.

Lemma next_end fuel func key s cur st es sp :
  holds s cur st es sp -> log_ok st es sp -> space (info_of s (idx cur)) = sp -> traverse_next (S fuel) func (idx cur) key (pos_of cur es) s = (None, s).
Proof. intros Hh Hok Hsp. erewrite next_end_space by done. by rewrite set_space_id. Qed.

(** At an item. *)
Lemma next_item_mark fuel func key s cur st st' pre e post sp :
  holds s cur st (pre ++ e :: post) sp -> log_ok st' (pre ++ e :: post) sp ->
  traverse_next (S fuel) func (idx cur) key (pos_of cur pre) s =
  if e_del e then traverse_next fuel func (idx cur) key (pos_of cur (pre ++ [e])) (mark_dirty (idx cur) s)
  else
    match func (item_at e (pos_of cur pre)) key s with
    | (RES_OK, item, s) => (Some item, s)
    | (RES_CONT, _, s) => traverse_next fuel func (idx cur) key (pos_of cur (pre ++ [e])) s
    | (_, _, s) => (None, s)
    end.
Proof.
  intros Hh Hok. destruct (log_ok_mid _ _ _ _ _ Hok) as (_ & He & _ & Hl1 & Hl2 & Hsz & Hsp). pose proof (esize_spec e He) as (He1 & _ & He2).
  unfold traverse_next at 1. rewrite base_shiftl. change BLK_SIZE with 4096. unfold ITEM_HEADER_SIZE at 1. unfold pos_of at 1. destruct (Z.ltb_spec (base cur + 4 + log_size pre + 8) (base cur + 4096)); [|lia].
  cbn [traverse_loop]. unfold aos_malloc. rewrite (h_mallocs _ _ _ _ _ Hh). cbn [negb]. erewrite read_hdr by done. rewrite bytes_hdr_bytes. cbn [ehdr i_magic i_state key_len val_len].
  rewrite Z.eqb_refl. cbn [negb andb]. destruct He as [Hk Hv]. pose proof (proj2 Hv) as Hv'.
  destruct (Z.ltb_spec ITEM_MAX_VAL_LEN (vlen e)); [lia|]. destruct (Z.ltb_spec ITEM_MAX_KEY_LEN (klen e)); [lia|]. cbn [orb].
  rewrite align_esize by done. rewrite pos_of_snoc. fold (item_at e (pos_of cur pre)).
  rewrite (wrap16_small (pos_of cur pre + esize e)) by (unfold pos_of, base; destruct cur; lia).
  unfold estate. by destruct (e_del e).
Qed.

Lemma next_item fuel func key s cur st pre e post sp :
  holds s cur st (pre ++ e :: post) sp -> log_ok st (pre ++ e :: post) sp ->
  traverse_next (S fuel) func (idx cur) key (pos_of cur pre) s =
  if e_del e then traverse_next fuel func (idx cur) key (pos_of cur (pre ++ [e])) s
  else
    match func (item_at e (pos_of cur pre)) key s with
    | (RES_OK, item, s) => (Some item, s)
    | (RES_CONT, _, s) => traverse_next fuel func (idx cur) key (pos_of cur (pre ++ [e])) s
    | (_, _, s) => (None, s)
    end.
Proof.
  intros Hh Hok. erewrite next_item_mark by done. destruct (e_del e) eqn:Hd; [|done]. rewrite mark_dirty_id; [done|].
  rewrite (h_state _ _ _ _ _ Hh). apply (lo_dirty _ _ _ Hok). apply Exists_app. right. by left.
Qed.

Section Scan.
Context (func : item_func (F := F)) (key : list Z) (cur : bool) (st : Z) (es : list entry) (sp : Z).
Context (R : list entry -> kv_mgr_t F -> Prop).
Context (Hok : log_ok st es sp).
Context (R_holds : forall pre s, R pre s -> holds s cur st es sp /\ space (info_of s (idx cur)) = sp).
Context (R_live : forall pre e post s item s', es = pre ++ e :: post -> e_del e = false -> R pre s ->
  func (item_at e (pos_of cur pre)) key s = (RES_CONT, item, s') -> R (pre ++ [e]) s').
Context (R_del : forall pre e post s, es = pre ++ e :: post -> e_del e = true -> R pre s -> R (pre ++ [e]) s).

Lemma next_scan fuel pre post s :
  es = pre ++ post -> R pre s -> (length post < fuel)%nat ->
  traverse_next fuel func (idx cur) key (pos_of cur pre) s = scan func key (pos_of cur pre) post s.
Proof.
  revert pre s fuel. induction post as [|e post IH]; intros pre s fuel He HR Hf; (destruct fuel as [|fuel]; [cbn in Hf; lia|]); cbn [scan length] in *.
  - rewrite app_nil_r in He. subst pre. by eapply next_end; [eapply R_holds| |eapply R_holds].
  - destruct (R_holds _ _ HR) as [Hh _]. pose proof Hok as Hok'. rewrite He in Hh, Hok'. rewrite (next_item _ _ _ _ _ _ _ _ _ _ Hh Hok'). rewrite <- pos_of_snoc.
    assert (He' : es = (pre ++ [e]) ++ post) by by rewrite <- app_assoc.
    destruct (e_del e) eqn:Hd; [apply IH; [done|by eapply R_del|lia]|].
    destruct (func _ _ _) as [[ret item] s'] eqn:Hf'. destruct ret; try done. apply IH; [done|by eapply R_live|lia].
Qed.

Lemma traverse_scan s : R [] s -> kv_item_traverse func (idx cur) key s = scan func key (base cur + 4) es s.
Proof.
  intros HR. pose proof (log_ok_length _ _ _ Hok). pose proof (next_scan traverse_fuel [] es s eq_refl HR) as Hn. unfold traverse_fuel in *.
  unfold pos_of in Hn. cbn [log_size foldr] in Hn. rewrite Z.add_0_r in Hn. rewrite <- Hn by lia. unfold kv_item_traverse, traverse_next. rewrite base_shiftl.
  unfold traverse_fuel. change BLK_HEADER_SIZE with 4. destruct (Z.ltb_spec (base cur + 4 + ITEM_HEADER_SIZE) (base cur + BLK_SIZE)); [done|]. 
  change BLK_SIZE with 4096 in *. unfold ITEM_HEADER_SIZE in *. lia.
Qed.

(** When the callback goes on at every live item, the whole log is passed. *)
Lemma scan_all pre post s :
  (forall pre e post s, es = pre ++ e :: post -> e_del e = false -> R pre s -> exists item s', func (item_at e (pos_of cur pre)) key s = (RES_CONT, item, s')) ->
  es = pre ++ post -> R pre s -> exists s', scan func key (pos_of cur pre) post s = (None, s') /\ R es s'.
Proof.
  intros Hc. revert pre s. induction post as [|e post IH]; intros pre s He HR; cbn [scan].
  - rewrite app_nil_r in He. subst pre. by exists s.
  - rewrite <- pos_of_snoc. assert (He' : es = (pre ++ [e]) ++ post) by by rewrite <- app_assoc.
    destruct (e_del e) eqn:Hd; [apply IH; [done|by eapply R_del]|].
    destruct (Hc pre e post s He Hd HR) as (item & s' & Hf). rewrite Hf. apply IH; [done|by eapply R_live].
Qed.
End Scan.

(** ** The search of a key *)

(** The first live item with the key, and the items before it. *)
Definition is_key (key : list Z) (e : entry) : bool := negb (e_del e) && bool_decide (e_key e = key).

Fixpoint first_live (key : list Z) (es : list entry) : option (list entry * entry) :=
  match es with
  | [] => None
  | e :: es => if is_key key e then Some ([], e) else prod_map (cons e) id <$> first_live key es
  end.

Lemma same_key e key : entry_ok e -> klen e = Z.of_nat (length key) -> same_bytes (edata e) key (Z.of_nat (length key)) = bool_decide (e_key e = key).
Proof.
  intros _ Hl. unfold same_bytes. apply bool_decide_ext. rewrite Nat2Z.id. unfold edata, klen in *.
  by rewrite <- (Nat2Z.inj _ _ Hl) at 1; rewrite take_app_length, firstn_all.
Qed.

Lemma find_cb_step s cur st pre e post sp key :
  holds s cur st (pre ++ e :: post) sp -> log_ok st (pre ++ e :: post) sp -> e_del e = false ->
  exists item, __item_find_cb (item_at e (pos_of cur pre)) key s =
    (if is_key key e then RES_OK else RES_CONT, item, s) /\ (is_key key e = true -> item = found_at e (pos_of cur pre)).
Proof.
  intros Hh Hok Hd. unfold __item_find_cb, is_key. rewrite Hd. cbn [item_at i_hdr ehdr key_len i_pos i_len negb andb].
  destruct (Z.eqb_spec (klen e) (Z.of_nat (length key))) as [Hk|Hk]; cbn [negb].
  - unfold aos_malloc. rewrite (h_mallocs _ _ _ _ _ Hh). cbn [negb]. erewrite read_data by done. rewrite same_key by (done || eapply log_ok_mid; done).
    case_match; by eexists.
  - rewrite bool_decide_eq_false_2; [by eexists|]. intros <-. by apply Hk.
Qed.

Lemma scan_find s cur st pre post sp key :
  holds s cur st (pre ++ post) sp -> log_ok st (pre ++ post) sp ->
  scan __item_find_cb key (pos_of cur pre) post s = ((fun '(l, e) => found_at e (pos_of cur (pre ++ l))) <$> first_live key post, s).
Proof.
  revert pre. induction post as [|e post IH]; intros pre Hh Hok; [done|]. cbn [scan first_live].
  specialize (IH (pre ++ [e])). rewrite <- app_assoc in IH. specialize (IH Hh Hok). rewrite pos_of_snoc in IH.
  destruct (e_del e) eqn:Hd.
  - unfold is_key at 1. rewrite Hd. cbn [negb andb]. rewrite IH. f_equal. destruct (first_live key post) as [[l e']|]; [|done]. cbn. by rewrite <- app_assoc.
  - destruct (find_cb_step s cur st pre e post sp key Hh Hok Hd) as (item & -> & Hi). destruct (is_key key e); cbn iota.
    + rewrite Hi by done. cbn. by rewrite app_nil_r.
    + rewrite IH. f_equal. destruct (first_live key post) as [[l e']|]; [|done]. cbn. by rewrite <- app_assoc.
Qed.

Lemma find_traverse s cur st es sp key :
  holds s cur st es sp -> space (info_of s (idx cur)) = sp -> log_ok st es sp ->
  kv_item_traverse __item_find_cb (idx cur) key s = ((fun '(l, e) => found_at e (pos_of cur l)) <$> first_live key es, s).
Proof.
  intros Hh Hsp Hok. rewrite (traverse_scan _ _ cur st es sp (fun _ s' => s' = s)); [|done|by intros ?? ->| |done|done].
  - replace (base cur + 4) with (pos_of cur []) by (unfold pos_of; cbn; lia). by rewrite (scan_find s cur st [] es sp key).
  - intros pre e post s0 item s' -> Hd -> Hf. destruct (find_cb_step s cur st pre e post sp key Hh Hok Hd) as (item' & E & _). congruence.
Qed.
End Reads.
