(* ===== verification/KvOps.v ===== *)
(** * The operations of the store on a log

    [kv_rep] is the state of the store between two calls.  Searching finds the first live
    item of the key; storing appends an item, if the space left is more than its size;
    deleting marks the item and makes the block dirty. *)
From S2P Require Import Prelude KTypes Kv KvLog KvFind.
Local Open Scope Z_scope.

Definition mark (e : entry) : entry := {| e_del := true; e_key := e_key e; e_val := e_val e; e_org := e_org e |}.

Lemma esize_mark e : esize (mark e) = esize e.
Proof. done. Qed.

Lemma log_size_mark pre e post : log_size (pre ++ mark e :: post) = log_size (pre ++ e :: post).
Proof. by rewrite !log_size_app, !log_size_cons. Qed.

Lemma log_ok_mark pre e post st st' sp : log_ok st (pre ++ e :: post) sp -> st' <> BLK_STATE_USED -> log_ok st' (pre ++ mark e :: post) sp.
Proof.
  intros [Hf Hs Hsp _] Hst. split; [|by rewrite log_size_mark|done|done].
  apply Forall_app in Hf as [H1 H2]. inversion_clear H2. apply Forall_app. by split; [|constructor].
Qed.

Lemma log_ok_snoc st es e sp : log_ok st es sp -> entry_ok e -> e_del e = false -> esize e < sp -> log_ok st (es ++ [e]) (sp - esize e).
Proof.
  intros [Hf Hs Hsp Hd] He Hl Hlt. pose proof (log_size_nonneg es Hf) as [_ Hm]. pose proof (esize_spec e He) as (_ & Hm' & _). split.
  - apply Forall_app. by split; [|constructor].
  - rewrite log_size_app, log_size_cons. cbn [log_size foldr]. lia.
  - Z.to_euclidean_division_equations. lia.
  - rewrite Exists_app. intros [?|Hx]; [auto|]. inversion_clear Hx as [?? Hx'|?? Hx']; [congruence|inversion Hx'].
Qed.

Lemma shiftr_base cur a : 0 <= a < 4096 -> Z.shiftr (base cur + a) BLK_BITS = idx cur.
Proof. intros Ha. rewrite Z.shiftr_div_pow2 by done. change (2 ^ BLK_BITS) with 4096. unfold base, idx. destruct cur; cbn; Z.to_euclidean_division_equations; lia. Qed.

Lemma land_base cur a : 0 <= a < 4096 -> Z.land (base cur + a) BLK_OFF_MASK = base cur.
Proof.
  intros Ha. change BLK_OFF_MASK with (Z.ldiff (Z.ones 32) (Z.ones 12)). rewrite land_mask by (unfold base; destruct cur; lia).
  change 12 with BLK_BITS. rewrite shiftr_base by done. apply base_shiftl.
Qed.

Lemma shiftr_pos cur es : 0 <= 4 + log_size es < 4096 -> Z.shiftr (pos_of cur es) BLK_BITS = idx cur.
Proof. unfold pos_of. rewrite <- Z.add_assoc. apply shiftr_base. Qed.

Lemma land_pos cur es : 0 <= 4 + log_size es < 4096 -> Z.land (pos_of cur es) BLK_OFF_MASK = base cur.
Proof. unfold pos_of. rewrite <- Z.add_assoc. apply land_base. Qed.

Section Ops.
Context {F : Type} `{FlashOk F}.
Implicit Types (d : F) (s : kv_mgr_t F) (e : entry) (cur : bool).

Record kv_rep s cur (st : Z) (es : list entry) (sp : Z) : Prop := {
  k_log : log_ok st es sp;
  k_contents : contents (dev s) = two_blocks cur (block_img st es sp) clean_img;
  k_info : block_info s = two_infos cur {| space := sp; b_state := st |} {| space := 4092; b_state := BLK_STATE_CLEAN |};
  k_pos : write_pos s = pos_of cur es;
  k_clean : clean_blk_nums s = 1;
  k_mallocs : mallocs s = [];
  k_state : st = BLK_STATE_USED \/ st = BLK_STATE_DIRTY;
}.

Lemma info_two s cur b o : block_info s = two_infos cur b o -> info_of s (idx cur) = b.
Proof. unfold info_of. intros ->. by destruct cur. Qed.

Lemma info_other s cur b o : block_info s = two_infos cur b o -> info_of s (idx (negb cur)) = o.
Proof. unfold info_of. intros ->. by destruct cur. Qed.

Lemma rep_holds s cur st es sp : kv_rep s cur st es sp -> holds s cur st es sp.
Proof. intros [_ Hc Hi _ _ Hm _]. split; [done| |by rewrite (info_two _ _ _ _ Hi)]. exists clean_img. by split; [apply length_clean|]. Qed.

(** ** Search *)
Lemma item_get_spec s cur st es sp key :
  kv_rep s cur st es sp -> kv_item_get key s = ((fun '(l, e) => found_at e (pos_of cur l)) <$> first_live key es, s).
Proof.
  intros Hr. pose proof (rep_holds _ _ _ _ _ Hr) as Hh. pose proof (info_two _ _ _ _ (k_info _ _ _ _ _ Hr)) as Hi.
  pose proof (find_traverse _ _ _ _ _ key Hh (f_equal space Hi) (k_log _ _ _ _ _ Hr)) as Ht. pose proof (info_other _ _ _ _ (k_info _ _ _ _ _ Hr)) as Ho.
  assert (Hst : (st =? BLK_STATE_CLEAN) = false) by (destruct (k_state _ _ _ _ _ Hr) as [-> | ->]; done).
  unfold kv_item_get. change (Z.to_nat BLK_NUMS) with 2%nat. cbn [get_from]. destruct cur; cbn [idx Z.b2z negb Z.add] in *.
  - rewrite Ho. cbn [b_state]. change (BLK_STATE_CLEAN =? BLK_STATE_CLEAN) with true. cbn [negb]. change (0 + 1) with 1. rewrite Hi. cbn [b_state]. rewrite Hst. cbn [negb].
    rewrite Ht. by destruct (first_live key es) as [[l e]|].
  - rewrite Hi. cbn [b_state]. rewrite Hst. cbn [negb]. rewrite Ht. destruct (first_live key es) as [[l e]|]; cbn [fmap option_fmap option_map]; [done|].
    change (0 + 1) with 1. by rewrite Ho.
Qed.

(** ** Writing to the block *)
Lemma state_write s cur a st st' b other :
  contents (dev s) = two_blocks cur (a ++ [st] ++ b) other -> Z.of_nat (length other) = 4096 -> Z.of_nat (length (a ++ [st] ++ b)) = 4096 ->
  exists d', kv_state_set (base cur + Z.of_nat (length a) - KV_STATE_OFF) st' s = (RES_OK, s <| dev := d' |>) /\ wrote (dev s) d' (two_blocks cur (a ++ [st'] ++ b) other).
Proof.
  intros Hc Ho Hl. destruct (block_write (dev s) cur a [st] [st'] b other (base cur + Z.of_nat (length a)) Hc Ho Hl) as (d' & Hw & Hc'); [done..|].
  exists d'. split; [|done]. unfold kv_state_set, raw_write. rewrite Z.sub_add, Hw. done.
Qed.

(** A byte of state in the header of an item and of the block. *)
Lemma ebytes_state e : exists rest, ebytes e = [ITEM_MAGIC_NUM] ++ [estate e] ++ rest /\ ebytes (mark e) = [ITEM_MAGIC_NUM] ++ [ITEM_STATE_DELETE] ++ rest.
Proof. unfold ebytes. cbn [ehdr hdr_bytes i_magic i_state i_crc key_len val_len origin_off]. eexists. by split. Qed.

Lemma mark_item s cur st st' pre e post sp other :
  log_ok st' (pre ++ e :: post) sp -> contents (dev s) = two_blocks cur (block_img st (pre ++ e :: post) sp) other -> Z.of_nat (length other) = 4096 ->
  exists d', kv_state_set (pos_of cur pre) ITEM_STATE_DELETE s = (RES_OK, s <| dev := d' |>) /\
    wrote (dev s) d' (two_blocks cur (block_img st (pre ++ mark e :: post) sp) other).
Proof.
  intros Hok Hc Ho. pose proof (length_img st _ _ _ Hok) as Hl. destruct (log_ok_mid _ _ _ _ _ Hok) as (Hp & _).
  destruct (ebytes_state e) as (rest & E1 & E2). rewrite img_split in *. rewrite E1 in Hc, Hl. rewrite E2. 
  rewrite <- !app_assoc, (app_assoc (blk_head st)), (app_assoc _ [ITEM_MAGIC_NUM]) in Hc, Hl.
  destruct (state_write s cur _ _ ITEM_STATE_DELETE _ other Hc Ho Hl) as (d' & Hw & Hc'). exists d'. split; [|by rewrite !app_assoc in *].
  rewrite length_app, Nat2Z.inj_add, length_head in Hw by done. replace (pos_of cur pre) with (base cur + (4 + log_size pre + Z.of_nat (length [ITEM_MAGIC_NUM])) - KV_STATE_OFF); [done|].
  unfold pos_of, KV_STATE_OFF. cbn [length]. lia.
Qed.

Lemma set_blk_state s cur st st' es sp other :
  Z.of_nat (length (block_img st es sp)) = 4096 -> contents (dev s) = two_blocks cur (block_img st es sp) other -> Z.of_nat (length other) = 4096 ->
  exists d', kv_state_set (base cur) st' s = (RES_OK, s <| dev := d' |>) /\ wrote (dev s) d' (two_blocks cur (block_img st' es sp) other).
Proof.
  intros Hl Hc Ho.
  destruct (state_write s cur [BLK_MAGIC_NUM] st st' ([0; 0] ++ log_bytes es ++ blank sp) other Hc Ho Hl) as (d' & Hw & Hc'). exists d'. split; [|done].
  cbn [length] in Hw. unfold KV_STATE_OFF in Hw. replace (base cur) with (base cur + Z.of_nat 1 - 1) at 1 by lia. done.
Qed.

Lemma set_state_two s cur st st' sp o : block_info s = two_infos cur {| space := sp; b_state := st |} o ->
  block_info (set_state (idx cur) st' s) = two_infos cur {| space := sp; b_state := st' |} o.
Proof. unfold set_state. rsimpl. intros ->. by destruct cur. Qed.

Lemma set_space_two s cur st sp sp' o : block_info s = two_infos cur {| space := sp; b_state := st |} o ->
  block_info (set_space (idx cur) sp' s) = two_infos cur {| space := sp'; b_state := st |} o.
Proof. unfold set_space. rsimpl. intros ->. by destruct cur. Qed.

Lemma pos_small cur pre e post st sp : log_ok st (pre ++ e :: post) sp -> 0 <= 4 + log_size pre < 4096.
Proof. intros Hok. destruct (log_ok_mid _ _ _ _ _ Hok) as (_ & He & _ & Hl1 & Hl2 & Hsz & Hsp). pose proof (esize_spec e He). lia. Qed.

(** ** Deletion *)

(** The contents with a log in the block [cur], whatever the state of the block. *)
Definition any_state cur (es : list entry) (sp : Z) (c : list Z) : Prop :=
  exists st, (st = BLK_STATE_USED \/ st = BLK_STATE_DIRTY) /\ c = two_blocks cur (block_img st es sp) clean_img.

(** The other fields of the manager. *)
Definition same_rest s s' : Prop :=
  kv_initialize s' = kv_initialize s /\ gc_triggered s' = gc_triggered s /\ clean_blk_nums s' = clean_blk_nums s /\ write_pos s' = write_pos s /\ mallocs s' = mallocs s.

(** A used block becomes dirty. *)
Definition dirtied (st : Z) : Z := if st =? BLK_STATE_USED then BLK_STATE_DIRTY else st.

Lemma mark_deleted_gen s cur st st' pre e post sp x other o :
  log_ok st' (pre ++ e :: post) sp -> contents (dev s) = two_blocks cur (block_img st (pre ++ e :: post) sp) other -> Z.of_nat (length other) = 4096 ->
  block_info s = two_infos cur {| space := x; b_state := st |} o ->
  exists s', kv_mark_deleted (pos_of cur pre) s = (RES_OK, s') /\ contents (dev s') = two_blocks cur (block_img (dirtied st) (pre ++ mark e :: post) sp) other /\
    block_info s' = two_infos cur {| space := x; b_state := dirtied st |} o /\ same_rest s s' /\
    grows (fun c => exists st0, (st0 = st \/ st0 = dirtied st) /\ c = two_blocks cur (block_img st0 (pre ++ mark e :: post) sp) other) (dev s) (dev s').
Proof.
  intros Hok Hc Ho Hi. destruct (mark_item s cur st st' pre e post sp other Hok Hc Ho) as (d1 & Hw & Hc1).
  unfold kv_mark_deleted. rewrite Hw. rewrite decide_False by tauto. pose proof (pos_small cur _ _ _ _ _ Hok) as Hs.
  rewrite shiftr_pos, land_pos by done. set (s1 := s <| dev := d1 |>). change (info_of s1 (idx cur)) with (info_of s (idx cur)). rewrite (info_two _ cur _ _ Hi). cbn [b_state].
  unfold dirtied. destruct (Z.eqb_spec st BLK_STATE_USED) as [->|Hst].
  - assert (Hok' : log_ok BLK_STATE_DIRTY (pre ++ mark e :: post) sp) by by eapply log_ok_mark.
    destruct (set_blk_state s1 cur BLK_STATE_USED BLK_STATE_DIRTY (pre ++ mark e :: post) sp other (length_img _ _ _ _ Hok') (proj1 Hc1) Ho) as (d2 & Hw2 & Hc2).
    rewrite Hw2. rewrite decide_False by tauto. eexists. split; [done|]. split; [exact (proj1 Hc2)|]. split; [by eapply set_state_two|]. split; [done|].
    eapply grows_trans; eapply grows_wrote; [exact Hc1|by eauto|exact Hc2|by eauto].
  - eexists. split; [done|]. split; [exact (proj1 Hc1)|]. split; [done|]. split; [done|]. eapply grows_wrote; [exact Hc1|by eauto].
Qed.

Lemma mark_deleted_spec s cur st pre e post sp :
  kv_rep s cur st (pre ++ e :: post) sp ->
  exists s', kv_mark_deleted (pos_of cur pre) s = (RES_OK, s') /\ kv_rep s' cur BLK_STATE_DIRTY (pre ++ mark e :: post) sp /\
    gc_triggered s' = gc_triggered s /\ grows (any_state cur (pre ++ mark e :: post) sp) (dev s) (dev s').
Proof.
  intros [Hok Hc Hi Hp Hn Hm Hst]. destruct (mark_deleted_gen _ _ _ _ _ _ _ _ _ _ _ Hok Hc length_clean Hi) as (s' & Hmk & Hc' & Hi' & (_ & Hg & Hn' & Hp' & Hm') & Hgr).
  assert (Hd : dirtied st = BLK_STATE_DIRTY) by by destruct Hst as [-> | ->]. rewrite Hd in *. exists s'. split; [done|]. split; [|split; [done|]].
  - split; [by eapply log_ok_mark|done|done| |congruence|congruence|by right]. rewrite Hp', Hp. unfold pos_of. by rewrite log_size_mark.
  - eapply grows_mono; [|exact Hgr]. intros c (st0 & [-> | ->] & ->); [by exists st|exists BLK_STATE_DIRTY; split; [by right|done]].
Qed.

(** ** Storing *)
Definition new_entry (key val : list Z) (org : Z) : entry := {| e_del := false; e_key := key; e_val := val; e_org := org |}.

Lemma split_img st es e sp : esize e < sp -> entry_ok e ->
  exists x, block_img st es sp = (blk_head st ++ log_bytes es) ++ x ++ blank (sp - esize e) /\ length x = length (ebytes e) /\ x <> [] /\
    block_img st (es ++ [e]) (sp - esize e) = (blk_head st ++ log_bytes es) ++ ebytes e ++ blank (sp - esize e).
Proof.
  intros Hlt He. pose proof (esize_spec e He) as (He1 & _). exists (blank (esize e)). unfold block_img, blk_head, blank. split_and!.
  - rewrite <- replicate_add, <- Z2Nat.inj_add by lia. replace (esize e + (sp - esize e)) with sp by lia. by rewrite <- app_assoc.
  - rewrite length_replicate. pose proof (length_ebytes e He). lia.
  - destruct (Z.to_nat (esize e)) eqn:?; [lia|done].
  - rewrite log_bytes_app. unfold log_bytes at 2. cbn [fmap list_fmap concat]. by rewrite app_nil_r, <- !app_assoc.
Qed.

(** The garbage collection is started when little space is left. *)
Definition after_gc_test (left : Z) s : kv_mgr_t F := if left <? ITEM_MAX_LEN then trigger_gc s else s.

Lemma trigger_rep s cur st es sp : kv_rep s cur st es sp -> kv_rep (trigger_gc s) cur st es sp.
Proof. intros [Hok Hc Hi Hp Hn Hm Hst]. unfold trigger_gc. by case_match. Qed.

Lemma dev_after_test left s : dev (after_gc_test left s) = dev s.
Proof. unfold after_gc_test, trigger_gc. by repeat case_match. Qed.

Lemma calc_pos_spec s cur st es sp len : kv_rep s cur st es sp ->
  kv_item_calc_pos len s = if len <? sp then (pos_of cur es, after_gc_test (sp - len) s) else (0, trigger_gc s).
Proof.
  intros [Hok Hc Hi Hp Hn Hm Hst]. unfold kv_item_calc_pos. rewrite Hp. pose proof (lo_size _ _ _ Hok). pose proof (lo_space _ _ _ Hok).
  pose proof (log_size_nonneg _ (lo_entries _ _ _ Hok)). rewrite shiftr_pos by lia. rewrite (info_two _ _ _ _ Hi). cbn [space].
  rewrite Hn. change (1 <=? KV_GC_RESERVED) with true. rewrite andb_true_r. case_match; [|done]. unfold after_gc_test. f_equal. case_match; [|done]. unfold trigger_gc. by case_match.
Qed.

Lemma store_len key val org : entry_ok (new_entry key val org) ->
  wrap16 (kv_align (ITEM_HEADER_SIZE + wrap8 (Z.of_nat (length key)) + wrap16 (Z.of_nat (length val)))) = esize (new_entry key val org) /\
  wrap8 (Z.of_nat (length key)) = Z.of_nat (length key) /\ wrap16 (Z.of_nat (length val)) = Z.of_nat (length val).
Proof.
  intros He. pose proof He as [Hk Hv]. unfold klen, vlen, ITEM_MAX_KEY_LEN, ITEM_MAX_VAL_LEN, new_entry in Hk, Hv. cbn [e_key e_val] in *.
  assert (E1 : wrap8 (Z.of_nat (length key)) = Z.of_nat (length key)) by (apply Z.mod_small; lia).
  assert (E2 : wrap16 (Z.of_nat (length val)) = Z.of_nat (length val)) by (apply Z.mod_small; lia).
  rewrite E1, E2. split_and!; [|done..]. by apply (align_esize (new_entry key val org)).
Qed.

(** Appending the bytes of an item. *)
Lemma append_write s cur st es e sp other :
  log_ok st es sp -> entry_ok e -> esize e < sp -> contents (dev s) = two_blocks cur (block_img st es sp) other -> Z.of_nat (length other) = 4096 ->
  exists d', raw_write (pos_of cur es) (ebytes e) s = (true, s <| dev := d' |>) /\ wrote (dev s) d' (two_blocks cur (block_img st (es ++ [e]) (sp - esize e)) other).
Proof.
  intros Hok He Hlt Hc Ho. destruct (split_img st es e sp Hlt He) as (x & E1 & Hx & Hx' & E2). pose proof (length_img st _ _ _ Hok) as Hl. rewrite E1 in Hc, Hl.
  destruct (block_write (dev s) cur _ x (ebytes e) _ other (pos_of cur es) Hc Ho Hl) as (d' & Hw & Hc'); [done|done| |].
  { rewrite length_head by apply Hok. unfold pos_of. lia. }
  exists d'. unfold raw_write. rewrite Hw, E2. done.
Qed.

Lemma log_pos_small st es sp : log_ok st es sp -> 0 <= 4 + log_size es < 4096.
Proof. intros [Hf Hs Hsp _]. pose proof (log_size_nonneg _ Hf). lia. Qed.

Lemma pos_bound cur es : 0 <= 4 + log_size es < 4096 -> 0 < 4 + log_size es -> 0 < pos_of cur es < 65536.
Proof. unfold pos_of, base. destruct cur; lia. Qed.

(** The manager after an item of [len] bytes was written at [pos]. *)
Definition written (pos len : Z) (d' : F) s : kv_mgr_t F :=
  let s := s <| dev := d' |> <| write_pos := wrap16 (pos + len) |> in
  let index := Z.shiftr (write_pos s) BLK_BITS in
  set_space index (wrap16 (space (info_of s index) - len)) s.

Lemma written_fields s cur st es e sp d' o :
  log_ok st es sp -> entry_ok e -> e_del e = false -> esize e < sp -> block_info s = two_infos cur {| space := sp; b_state := st |} o ->
  let s' := written (pos_of cur es) (esize e) d' s in
  block_info s' = two_infos cur {| space := sp - esize e; b_state := st |} o /\ write_pos s' = pos_of cur (es ++ [e]) /\ dev s' = d'.
Proof.
  intros Hok He Hd Hlt Hi. pose proof (log_ok_snoc _ _ _ _ Hok He Hd Hlt) as Hok'. pose proof (log_pos_small _ _ _ Hok') as Hps.
  pose proof (log_size_nonneg _ (lo_entries _ _ _ Hok)). pose proof (lo_size _ _ _ Hok). pose proof (lo_space _ _ _ Hok'). pose proof (esize_spec e He).
  unfold written. rsimpl. rewrite <- pos_of_snoc, wrap16_small, shiftr_pos by (done || pose proof (pos_bound cur (es ++ [e])); pose proof (log_size_nonneg _ (lo_entries _ _ _ Hok')); lia).
  rewrite (info_two _ _ _ _ Hi). cbn [space]. rewrite wrap16_small by lia. split_and!; [by eapply set_space_two|done|done].
Qed.

Lemma written_rep s cur st es e sp d' :
  kv_rep s cur st es sp -> entry_ok e -> e_del e = false -> esize e < sp ->
  contents d' = two_blocks cur (block_img st (es ++ [e]) (sp - esize e)) clean_img ->
  kv_rep (written (pos_of cur es) (esize e) d' s) cur st (es ++ [e]) (sp - esize e).
Proof.
  intros [Hok Hc Hi Hp Hn Hm Hst] He Hd Hlt Hc'. destruct (written_fields s cur st es e sp d' _ Hok He Hd Hlt Hi) as (Hi' & Hp' & Hd').
  split; try done. by apply log_ok_snoc.
Qed.

Lemma store_bytes key val org : entry_ok (new_entry key val org) ->
  let e := new_entry key val org in
  (hdr_bytes (ehdr e) ++ key ++ val) ++ replicate (Z.to_nat (esize e) - length (hdr_bytes (ehdr e) ++ key ++ val)) 0 = ebytes e.
Proof. intros He e. unfold ebytes, epad, edata. by rewrite <- app_assoc. Qed.

Lemma item_store_spec s cur st es sp key val org :
  kv_rep s cur st es sp -> entry_ok (new_entry key val org) ->
  let e := new_entry key val org in
  if esize e <? sp then exists s', kv_item_store key val org s = (RES_OK, s') /\ kv_rep s' cur st (es ++ [e]) (sp - esize e) /\
    gc_triggered s' = gc_triggered (after_gc_test (sp - esize e) s) /\ grows (any_state cur (es ++ [e]) (sp - esize e)) (dev s) (dev s')
  else kv_item_store key val org s = (RES_NO_SPACE, trigger_gc s).
Proof.
  intros Hr He e. unfold kv_item_store. cbn [key_len val_len]. destruct (store_len key val org He) as (-> & -> & ->). fold e.
  unfold aos_malloc. rewrite (k_mallocs _ _ _ _ _ Hr). cbn [negb]. rewrite (calc_pos_spec _ _ _ _ _ _ Hr). destruct (Z.ltb_spec (esize e) sp) as [Hlt|Hge]; [|done].
  assert (Hr0 : kv_rep (after_gc_test (sp - esize e) s) cur st es sp) by (unfold after_gc_test; case_match; [by apply trigger_rep|done]).
  set (s0 := after_gc_test (sp - esize e) s) in *. pose proof (log_pos_small _ _ _ (k_log _ _ _ _ _ Hr)). pose proof (log_size_nonneg _ (lo_entries _ _ _ (k_log _ _ _ _ _ Hr))).
  destruct (Z.ltb_spec 0 (pos_of cur es)); [|pose proof (pos_bound cur es); lia].
  match goal with |- context [raw_write _ ?p s0] => change p with ((hdr_bytes (ehdr e) ++ key ++ val) ++ replicate (Z.to_nat (esize e) - length (hdr_bytes (ehdr e) ++ key ++ val)) 0) end.
  unfold e at 1 2 3. rewrite (store_bytes key val org He). fold e.
  destruct (append_write s0 cur st es e sp clean_img (k_log _ _ _ _ _ Hr0) He Hlt (k_contents _ _ _ _ _ Hr0) length_clean) as (d' & -> & Hc').
  exists (written (pos_of cur es) (esize e) d' s0). split; [done|].
  split; [by apply written_rep; [..|apply Hc']|]. split; [done|]. eapply grows_wrote; [rewrite <- (dev_after_test (sp - esize e) s); exact Hc'|]. exists st. split; [apply Hr|done].
Qed.
End Ops.

(** * Garbage collection of the store

    [aos_kv_gc] on a dirty block copies the live items, in their order, to the clean block,
    which is then the block in use, and formats the old one. *)

Definition live (es : list entry) : list entry := filter (fun e => e_del e = false) es.

Lemma live_snoc_live pre e : e_del e = false -> live (pre ++ [e]) = live pre ++ [e].
Proof. intros He. unfold live. rewrite filter_app, filter_cons_True by done. by rewrite filter_nil. Qed.

Lemma live_snoc_del pre e : e_del e = true -> live (pre ++ [e]) = live pre.
Proof. intros He. unfold live. rewrite filter_app, filter_cons_False by congruence. by rewrite filter_nil, app_nil_r. Qed.

Lemma live_ok es : Forall entry_ok es -> Forall entry_ok (live es).
Proof. intros He. apply Forall_forall. intros e [_ Hx]%list_elem_of_filter. rewrite Forall_forall in He. by apply He. Qed.

Lemma live_size es : Forall entry_ok es -> log_size (live es) <= log_size es.
Proof.
  induction 1 as [|e es He _ IH]; [done|]. pose proof (esize_spec e He). unfold live in *. rewrite filter_cons. case_decide; rewrite ?log_size_cons; lia.
Qed.

Lemma live_all es : ~ Exists (fun e => e_del e = true) es -> live es = es.
Proof.
  induction es as [|e es IH]; intros Hn; [done|]. unfold live in *. rewrite filter_cons_True.
  - f_equal. apply IH. intros Hx. by apply Hn; right.
  - destruct (e_del e) eqn:Hd; [|done]. destruct Hn. by left.
Qed.

Lemma live_log_ok st es st' sp : log_ok st es sp -> log_ok st' (live es) (4092 - log_size (live es)).
Proof.
  intros [Hf Hs Hsp _]. split; [by apply live_ok|lia|pose proof (live_size es Hf); lia|].
  intros (e & [Hd _]%list_elem_of_filter & Hd')%Exists_exists. congruence.
Qed.

Lemma live_prefix es pre e post sp st : log_ok st es sp -> es = pre ++ e :: post -> e_del e = false ->
  log_ok BLK_STATE_CLEAN (live pre) (4092 - log_size (live pre)) /\ entry_ok e /\ esize e < 4092 - log_size (live pre).
Proof.
  intros Hok -> Hd. destruct (log_ok_mid _ _ _ _ _ Hok) as (Hp & He & _ & Hl & Hl' & Hsz & Hsp). pose proof (live_size pre Hp).
  split_and!; [|done|lia]. split; [by apply live_ok|lia|pose proof (esize_spec e He); lia|].
  intros (e' & [Hd' _]%list_elem_of_filter & Hd'')%Exists_exists. congruence.
Qed.

Section Gc.
Context {F : Type} `{FlashOk F}.
Implicit Types (d : F) (s : kv_mgr_t F) (e : entry) (cur : bool).

(** What the flash holds during the collection. *)
Definition copy_img (es : list entry) : list Z := block_img BLK_STATE_CLEAN (live es) (4092 - log_size (live es)).
Inductive gc_phase cur (es : list entry) (sp : Z) : list Z -> Prop :=
  | gp_copy pre post : es = pre ++ post -> gc_phase cur es sp (two_blocks cur (block_img BLK_STATE_DIRTY es sp) (copy_img pre))
  | gp_erased : gc_phase cur es sp (two_blocks cur (replicate 4096 0xFF) (copy_img es))
  | gp_formatted : gc_phase cur es sp (two_blocks cur clean_img (copy_img es))
  | gp_used : gc_phase cur es sp (two_blocks cur clean_img (block_img BLK_STATE_USED (live es) (4092 - log_size (live es)))).

(** During the collection: the live items of [pre] are copied. *)
Record copied d cur (es : list entry) (sp : Z) (pre : list entry) s : Prop := {
  g_contents : contents (dev s) = two_blocks cur (block_img BLK_STATE_DIRTY es sp) (block_img BLK_STATE_CLEAN (live pre) (4092 - log_size (live pre)));
  g_info : block_info s = two_infos cur {| space := sp; b_state := BLK_STATE_DIRTY |} {| space := 4092 - log_size (live pre); b_state := BLK_STATE_CLEAN |};
  g_pos : write_pos s = pos_of (negb cur) (live pre);
  g_clean : clean_blk_nums s = 1;
  g_mallocs : mallocs s = [];
  g_grows : grows (gc_phase cur es sp) d (dev s);
}.

Lemma two_infos_swap cur a b : two_infos cur a b = two_infos (negb cur) b a.
Proof. by destruct cur. Qed.

Lemma copied_holds d cur es sp st pre s : log_ok st es sp -> (exists post, es = pre ++ post) -> copied d cur es sp pre s -> holds s cur BLK_STATE_DIRTY es sp /\ space (info_of s (idx cur)) = sp.
Proof.
  intros Hok [post ->] [Hc Hi _ _ Hm _]. rewrite (info_two _ _ _ _ Hi). split; [|done]. split; [done| |by rewrite (info_two _ _ _ _ Hi)]. eexists. split; [|exact Hc].
  destruct Hok as [Hf Hs Hsp _]. apply Forall_app in Hf as [Hf Hf']. rewrite log_size_app in Hs. pose proof (live_size pre Hf). pose proof (log_size_nonneg post Hf').
  rewrite length_block by (by apply live_ok || lia). lia.
Qed.

Lemma gc_cb_step d cur es sp pre e post s :
  log_ok BLK_STATE_DIRTY es sp -> es = pre ++ e :: post -> e_del e = false -> copied d cur es sp pre s ->
  exists item s', __item_gc_cb (item_at e (pos_of cur pre)) [] s = (RES_CONT, item, s') /\ copied d cur es sp (pre ++ [e]) s'.
Proof.
  intros Hok He Hd Hcp. destruct (copied_holds _ _ _ _ _ _ _ Hok (ex_intro _ _ He) Hcp) as [Hh _]. destruct (live_prefix _ _ _ _ _ _ Hok He Hd) as (Hlok & Heok & Hlt).
  destruct Hcp as [Hc Hi Hp Hn Hm Hg]. unfold __item_gc_cb. cbn [item_at i_len i_pos]. rewrite Z.add_assoc, align_esize by done.
  unfold aos_malloc. rewrite Hm. cbn [negb]. pose proof Hok as Hok'. rewrite He in Hok', Hh. erewrite read_item by done. rewrite <- He in *.
  rewrite Hp. rewrite two_blocks_swap in Hc.
  destruct (append_write s (negb cur) BLK_STATE_CLEAN (live pre) e _ _ Hlok Heok Hlt Hc (length_img _ _ _ _ Hok)) as (d' & -> & Hc').
  cbn [negb]. exists (item_at e (pos_of cur pre)), (written (pos_of (negb cur) (live pre)) (esize e) d' s). split; [unfold written; by rewrite <- Hp|].
  rewrite two_infos_swap in Hi. destruct (written_fields s (negb cur) _ _ e _ d' _ Hlok Heok Hd Hlt Hi) as (Hi' & Hp' & Hd').
  assert (Hsz : 4092 - log_size (live (pre ++ [e])) = 4092 - log_size (live pre) - esize e).
  { rewrite live_snoc_live, log_size_app, log_size_cons by done. cbn [log_size foldr]. lia. }
  split; rewrite ?Hsz, ?live_snoc_live by done.
  - by rewrite Hd', (proj1 Hc'), two_blocks_swap, negb_involutive.
  - by rewrite Hi', two_infos_swap, negb_involutive.
  - done.
  - done.
  - done.
  - eapply grows_trans; [exact Hg|]. rewrite Hd'. eapply grows_wrote; [exact Hc'|]. rewrite two_blocks_swap, negb_involutive, <- live_snoc_live, <- Hsz by done.
    apply (gp_copy cur es sp (pre ++ [e]) post). by rewrite He, <- app_assoc.
Qed.

Lemma gc_traverse d cur es sp s :
  log_ok BLK_STATE_DIRTY es sp -> copied d cur es sp [] s -> exists s', kv_item_traverse __item_gc_cb (idx cur) [] s = (None, s') /\ copied d cur es sp es s'.
Proof.
  intros Hok Hcp. set (R := fun pre s => (exists post, es = pre ++ post) /\ copied d cur es sp pre s).
  assert (HR0 : R [] s) by (split; [by exists es|done]).
  assert (HRh : forall pre s, R pre s -> holds s cur BLK_STATE_DIRTY es sp /\ space (info_of s (idx cur)) = sp) by (intros pre s' [? ?]; by eapply copied_holds).
  assert (HRl : forall pre e post s item s', es = pre ++ e :: post -> e_del e = false -> R pre s -> __item_gc_cb (item_at e (pos_of cur pre)) [] s = (RES_CONT, item, s') -> R (pre ++ [e]) s').
  { intros pre e post s1 item s2 He Hd [_ Hc1] Hf. destruct (gc_cb_step d cur es sp pre e post s1 Hok He Hd Hc1) as (? & s3 & E & Hc3).
    rewrite E in Hf. injection Hf as _ <-. split; [|done]. exists post. by rewrite He, <- app_assoc. }
  assert (HRd : forall pre e post s, es = pre ++ e :: post -> e_del e = true -> R pre s -> R (pre ++ [e]) s).
  { intros pre e post s1 He Hd [_ [? ? ? ? ? ?]]. split; [exists post; by rewrite He, <- app_assoc|]. split; by rewrite ?live_snoc_del. }
  rewrite (traverse_scan _ _ cur _ es sp R Hok HRh HRl HRd s HR0). replace (base cur + 4) with (pos_of cur []) by (unfold pos_of; cbn; lia).
  destruct (scan_all __item_gc_cb [] cur es R HRl HRd [] es s) as (s' & Hs & [_ Hc]); [|done|done|by exists s'].
  intros pre e post s1 He Hd [_ Hc1]. destruct (gc_cb_step d cur es sp pre e post s1 Hok He Hd Hc1) as (? & s3 & E & Hc3). by eexists _, _.
Qed.

(** ** The block in use is formatted, the other one is used *)
Lemma format_spec s cur img other b o :
  contents (dev s) = two_blocks cur img other -> Z.of_nat (length img) = 4096 -> Z.of_nat (length other) = 4096 -> block_info s = two_infos cur b o ->
  0 <= clean_blk_nums s < 255 ->
  exists s', kv_block_format (idx cur) s = (RES_OK, s') /\ contents (dev s') = two_blocks cur clean_img other /\
    block_info s' = two_infos cur {| space := 4092; b_state := BLK_STATE_CLEAN |} o /\ clean_blk_nums s' = clean_blk_nums s + 1 /\
    write_pos s' = write_pos s /\ mallocs s' = mallocs s /\ gc_triggered s' = gc_triggered s /\ kv_initialize s' = kv_initialize s /\
    forall P : list Z -> Prop, P (two_blocks cur (replicate 4096 0xFF) other) -> P (two_blocks cur clean_img other) -> grows P (dev s) (dev s').
Proof.
  intros Hc Hl Ho Hi Hn. unfold kv_block_format. rewrite base_shiftl. rewrite wrap16_small by (unfold base; destruct cur; lia).
  destruct (block_erase (dev s) cur img other Hc Ho Hl) as (d1 & Hw1 & Hc1). unfold raw_erase. change BLK_SIZE with 4096. rewrite Hw1. cbn [negb].
  destruct (block_write d1 cur [] (replicate 4 255) [BLK_MAGIC_NUM; BLK_STATE_CLEAN; 0; 0] (replicate 4092 255) other (base cur)) as (d2 & Hw2 & Hc2).
  - by rewrite (proj1 Hc1).
  - done.
  - rewrite !length_app, !length_replicate. done.
  - done.
  - done.
  - cbn [length]. lia.
  - unfold raw_write. rsimpl. rewrite Hw2. cbn [negb]. eexists. split; [done|]. split; [apply Hc2|].
    unfold set_space, set_state. rsimpl. rewrite Hi. split_and!; try done; [by destruct cur|apply Z.mod_small; lia|].
    intros P HP1 HP2. eapply grows_trans; eapply grows_wrote; [exact Hc1|done|exact Hc2|done].
Qed.

(** The body of the loop at the dirty block. *)
Definition collect (i gc_index : Z) s : bool * kv_mgr_t F :=
  let s := (kv_item_traverse __item_gc_cb i [] s).2 in
  match kv_block_format i s with
  | (RES_OK, s) =>
      let s := (kv_state_set (Z.land (write_pos s) BLK_OFF_MASK) BLK_STATE_USED s).2 in
      let s := set_state gc_index BLK_STATE_USED s in
      (true, s <| clean_blk_nums ::= fun n => wrap8 (n - 1) |>)
  | (_, s) => (true, s)
  end.

(** The loop reaches the block in use in two steps. *)
Lemma gc_loop_spec s cur st sp sp' w gc_index :
  block_info s = two_infos cur {| space := sp; b_state := st |} {| space := sp'; b_state := BLK_STATE_CLEAN |} -> Z.shiftr w BLK_BITS = idx cur ->
  gc_loop 3 (idx cur + 1) w gc_index s = if st =? BLK_STATE_DIRTY then collect (idx cur) gc_index s else (false, s).
Proof.
  intros Hi Hw. pose proof (info_two _ _ _ _ Hi) as H1'. pose proof (info_other _ _ _ _ Hi) as H2'. change BLK_NUMS with 2.
  destruct cur; cbn [idx Z.b2z negb] in *; cbn [gc_loop].
  - change (1 + 1 =? BLK_NUMS) with true. cbn iota. rewrite H2'. cbn [b_state]. change (BLK_STATE_CLEAN =? BLK_STATE_DIRTY) with false. cbn iota.
    rewrite Hw. change (0 =? 1) with false. cbn iota. change (0 + 1 =? BLK_NUMS) with false. cbn iota. change (0 + 1) with 1. rewrite H1'. cbn [b_state].
    case_match; done.
  - change (0 + 1 =? BLK_NUMS) with false. cbn iota. change (0 + 1) with 1. rewrite H2'. cbn [b_state]. change (BLK_STATE_CLEAN =? BLK_STATE_DIRTY) with false. cbn iota.
    rewrite Hw. change (1 =? 0) with false. cbn iota. change (1 + 1 =? BLK_NUMS) with true. cbn iota. rewrite H1'. cbn [b_state]. case_match; done.
Qed.

Lemma find_clean_spec s cur st sp sp' :
  block_info s = two_infos cur {| space := sp; b_state := st |} {| space := sp'; b_state := BLK_STATE_CLEAN |} -> st <> BLK_STATE_CLEAN ->
  find_clean (Z.to_nat BLK_NUMS) 0 s = Some (idx (negb cur)).
Proof.
  intros Hi Hst. pose proof (info_two _ _ _ _ Hi) as H1'. pose proof (info_other _ _ _ _ Hi) as H2'. change (Z.to_nat BLK_NUMS) with 2%nat. cbn [find_clean].
  destruct cur; cbn [idx Z.b2z negb] in *.
  - by rewrite H2'.
  - rewrite H1'. cbn [b_state]. destruct (Z.eqb_spec st BLK_STATE_CLEAN); [done|]. change (0 + 1) with 1. by rewrite H2'.
Qed.

Lemma collect_spec s d cur es sp :
  log_ok BLK_STATE_DIRTY es sp -> copied d cur es sp [] s ->
  exists s', collect (idx cur) (idx (negb cur)) s = (true, s') /\ kv_rep s' (negb cur) BLK_STATE_USED (live es) (4092 - log_size (live es)) /\
    grows (gc_phase cur es sp) d (dev s').
Proof.
  intros Hok Hcp. unfold collect. destruct (gc_traverse d cur es sp s Hok Hcp) as (s1 & -> & [Hc Hi Hp Hn Hm Hg]). cbn [snd].
  pose proof (live_log_ok _ _ BLK_STATE_CLEAN _ Hok) as Hlok. pose proof (length_img BLK_STATE_CLEAN _ _ _ Hlok) as Hlen.
  destruct (format_spec s1 cur _ _ _ _ Hc (length_img _ _ _ _ Hok) Hlen Hi) as (s2 & -> & Hc2 & Hi2 & Hn2 & Hp2 & Hm2 & _ & _ & Hg2); [lia|].
  rewrite Hp2, Hp. rewrite land_pos by by eapply log_pos_small. rewrite two_blocks_swap in Hc2.
  destruct (set_blk_state s2 (negb cur) BLK_STATE_CLEAN BLK_STATE_USED _ _ clean_img Hlen Hc2 length_clean) as (d3 & -> & Hc3). cbn [snd].
  eexists. split; [done|]. rewrite two_infos_swap in Hi2. split.
  2: { eapply grows_trans; [exact Hg|]. eapply grows_trans; [apply Hg2; constructor|]. eapply grows_wrote; [exact Hc3|]. rewrite two_blocks_swap, negb_involutive. constructor. }
  split; [by eapply live_log_ok|apply Hc3| | | | |by left].
  - by eapply set_state_two.
  - unfold set_state. rsimpl. congruence.
  - unfold set_state. rsimpl. rewrite Hn2, Hn. done.
  - unfold set_state. rsimpl. congruence.
Qed.

Lemma gc_spec s cur st es sp :
  kv_rep s cur st es sp ->
  gc_triggered (aos_kv_gc s) = 0 /\ grows (fun c => st = BLK_STATE_DIRTY /\ gc_phase cur es sp c) (dev s) (dev (aos_kv_gc s)) /\
  exists st', kv_rep (aos_kv_gc s) (if st =? BLK_STATE_DIRTY then negb cur else cur) st' (if st =? BLK_STATE_DIRTY then live es else es) (4092 - log_size (live es)).
Proof.
  intros Hr. pose proof Hr as [Hok Hc Hi Hp Hn Hm Hst]. unfold aos_kv_gc. split; [done|]. rewrite Hn. change (1 =? 0) with false. cbn iota.
  rewrite (find_clean_spec _ _ _ _ _ Hi) by (by destruct Hst as [-> | ->]). rewrite Hp. rewrite shiftr_pos by by eapply log_pos_small.
  rewrite base_shiftl. set (s0 := s <| write_pos := base (negb cur) + BLK_HEADER_SIZE |>). change (S (Z.to_nat BLK_NUMS)) with 3%nat.
  rewrite (gc_loop_spec s0 cur st sp 4092) by (done || by apply shiftr_pos; eapply log_pos_small).
  destruct Hst as [-> | ->]; [change (BLK_STATE_USED =? BLK_STATE_DIRTY) with false|change (BLK_STATE_DIRTY =? BLK_STATE_DIRTY) with true]; cbn iota.
  - split; [by apply grows_refl|]. exists BLK_STATE_USED. assert (live es = es) as ->. { apply live_all. intros Hx. by apply (lo_dirty _ _ _ Hok Hx). }
    pose proof (lo_size _ _ _ Hok). replace (4092 - log_size es) with sp by lia. split; try done. by left.
  - destruct (collect_spec s0 (dev s) cur es sp Hok) as (s' & -> & [? ? ? ? ? ? ?] & Hg).
    { split; try done; [|by apply grows_refl]. unfold s0, pos_of. rsimpl. cbn [log_size foldr live filter list_filter]. change BLK_HEADER_SIZE with 4. lia. }
    split; [by eapply grows_mono; [|exact Hg]|]. exists BLK_STATE_USED. by split.
Qed.
End Gc.
