(* ===== verification/KvSpec.v ===== *)
(** * The log as a finite map

    [kvmap es] is the map a log stands for: the value of a key is the one of its first live
    item.  While a key has one live item, marking that item deletes the key, appending an
    item inserts its key, and dropping the marked items changes nothing. *)
From stdpp Require Import gmap.
From S2P Require Import Prelude KTypes Kv KvLog KvFind KvOps.
Local Open Scope Z_scope.

Definition kv_pair (e : entry) : list Z * list Z := (e_key e, e_val e).
Definition kvmap (es : list entry) : gmap (list Z) (list Z) := list_to_map (kv_pair <$> live es).
Definition uniq (es : list entry) : Prop := NoDup (e_key <$> live es).

(** The bytes an item takes. *)
Definition item_size (key val : list Z) : Z := 4 * ((8 + Z.of_nat (length key) + Z.of_nat (length val) + 3) / 4).
Definition map_size (m : gmap (list Z) (list Z)) : Z := foldr (fun p n => item_size p.1 p.2 + n) 0 (map_to_list m).

Lemma keys_pairs (l : list entry) : (kv_pair <$> l).*1 = e_key <$> l.
Proof. rewrite <- list_fmap_compose. done. Qed.

Lemma live_app es1 es2 : live (es1 ++ es2) = live es1 ++ live es2.
Proof. apply filter_app. Qed.

Lemma live_cons e es : live (e :: es) = if e_del e then live es else e :: live es.
Proof. unfold live. rewrite filter_cons. destruct (e_del e); by case_decide. Qed.

Lemma live_live es : live (live es) = live es.
Proof. unfold live. rewrite list_filter_filter. apply list_filter_iff. naive_solver. Qed.

(** ** Lookup *)
Lemma kvmap_lookup es key : kvmap es !! key = (fun p => e_val p.2) <$> first_live key es.
Proof.
  induction es as [|e es IH]; [done|]. unfold kvmap in *. rewrite live_cons. cbn [first_live]. unfold is_key. destruct (e_del e); cbn [negb andb].
  - rewrite IH. by destruct (first_live key es) as [[]|].
  - rewrite fmap_cons. change (kv_pair e) with (e_key e, e_val e). rewrite list_to_map_cons. case_bool_decide as Hk; [subst key; by rewrite lookup_insert_eq|].
    rewrite lookup_insert_ne by done. rewrite IH. by destruct (first_live key es) as [[]|].
Qed.

Lemma first_live_some es key l e : first_live key es = Some (l, e) -> e_del e = false /\ e_key e = key /\ exists post, es = l ++ e :: post.
Proof.
  revert l. induction es as [|e0 es IH]; [done|]. intros l. cbn [first_live]. destruct (is_key key e0) eqn:Hk.
  - intros [= <- <-]. unfold is_key in Hk. apply andb_true_iff in Hk as [Hd Hk]. apply bool_decide_eq_true in Hk. apply negb_true_iff in Hd.
    split_and!; [done|done|]. by exists es.
  - destruct (first_live key es) as [[l' e']|] eqn:Hf; [|done]. cbn. intros [= <- <-]. destruct (IH _ eq_refl) as (? & ? & post & ->).
    split_and!; [done|done|]. by exists post.
Qed.

(** ** Changes *)
Lemma kvmap_perm es e rest : uniq es -> live es ≡ₚ e :: rest ->
  kvmap es = <[e_key e := e_val e]> (list_to_map (kv_pair <$> rest)) /\ NoDup (e_key <$> rest) /\ e_key e ∉ e_key <$> rest.
Proof.
  intros Hu Hp. unfold uniq in Hu. assert (Hu' : NoDup (e_key <$> e :: rest)) by by rewrite <- Hp. cbn [fmap list_fmap] in Hu'. apply NoDup_cons in Hu' as [Hn Hu'].
  split; [|done]. unfold kvmap. rewrite (list_to_map_proper _ (kv_pair <$> e :: rest)); [done|by rewrite keys_pairs|by rewrite Hp].
Qed.

Lemma live_mid pre e post : e_del e = false -> live (pre ++ e :: post) ≡ₚ e :: live pre ++ live post.
Proof. intros He. rewrite live_app, live_cons, He. by rewrite Permutation_middle. Qed.

Lemma live_mark pre e post : live (pre ++ mark e :: post) = live pre ++ live post.
Proof. by rewrite live_app, live_cons. Qed.

Lemma uniq_mark pre e post : uniq (pre ++ e :: post) -> e_del e = false ->
  uniq (pre ++ mark e :: post) /\ kvmap (pre ++ mark e :: post) = delete (e_key e) (kvmap (pre ++ e :: post)).
Proof.
  intros Hu He. destruct (kvmap_perm _ _ _ Hu (live_mid pre e post He)) as (Hm & Hu' & Hn). unfold uniq. rewrite live_mark. split; [done|].
  rewrite Hm, delete_insert_id; [unfold kvmap; by rewrite live_mark|]. apply not_elem_of_list_to_map_1. by rewrite keys_pairs.
Qed.

Lemma uniq_snoc es e : uniq es -> e_del e = false -> kvmap es !! e_key e = None ->
  uniq (es ++ [e]) /\ kvmap (es ++ [e]) = <[e_key e := e_val e]> (kvmap es).
Proof.
  intros Hu He Hn. assert (Hu' : uniq (es ++ [e])).
  { unfold uniq. rewrite live_snoc_live, fmap_app by done. apply NoDup_app. split; [done|]. split; [|by apply NoDup_singleton].
    intros k Hk ->%list_elem_of_singleton. apply not_elem_of_list_to_map_2 in Hn. by rewrite keys_pairs in Hn. }
  split; [done|]. destruct (kvmap_perm (es ++ [e]) e (live es) Hu') as (Hm & _); [|done]. rewrite live_snoc_live by done. by rewrite Permutation_app_comm.
Qed.

(** A new version is appended, then the old one is marked. *)
Lemma uniq_update pre e post e' : uniq (pre ++ e :: post) -> e_del e = false -> e_del e' = false -> e_key e' = e_key e ->
  uniq (pre ++ mark e :: post ++ [e']) /\ kvmap (pre ++ mark e :: post ++ [e']) = <[e_key e' := e_val e']> (kvmap (pre ++ e :: post)).
Proof.
  intros Hu He He' Hk. destruct (uniq_mark _ _ _ Hu He) as [Hu1 Hm1].
  destruct (uniq_snoc (pre ++ mark e :: post) e' Hu1 He') as [Hu2 Hm2]. { rewrite Hm1, Hk. apply lookup_delete_eq. }
  rewrite <- app_assoc in Hu2, Hm2. cbn [app] in Hu2, Hm2. split; [done|]. by rewrite Hm2, Hm1, Hk, insert_delete_eq.
Qed.

Lemma kvmap_live es : kvmap (live es) = kvmap es.
Proof. unfold kvmap. by rewrite live_live. Qed.

Lemma uniq_live es : uniq es -> uniq (live es).
Proof. unfold uniq. by rewrite live_live. Qed.

(** ** Size *)
Lemma esize_item e : esize e = item_size (e_key e) (e_val e).
Proof. done. Qed.

Lemma map_size_kvmap es : uniq es -> map_size (kvmap es) = log_size (live es).
Proof.
  intros Hu. unfold map_size, kvmap. trans (foldr (fun p n => item_size p.1 p.2 + n) 0 (kv_pair <$> live es)).
  - apply (foldr_permutation_proper eq); [by intros x ? ? ->|intros; lia|]. apply map_to_list_to_map. by rewrite keys_pairs.
  - clear. induction (live es) as [|e es' IH]; [done|]. cbn [fmap list_fmap foldr]. rewrite IH. by rewrite log_size_cons.
Qed.

(** * The store refines a finite map

    [kvs] is what the store promises: a map from keys to values, the bytes left in the
    block, and whether the garbage collection is to run.  Every sequence of calls on a
    formatted store returns what the same sequence returns on the map; the collection
    leaves the map and makes the space of overwritten and deleted items free. *)

Record kvs := { kv_map : gmap (list Z) (list Z); kv_free : Z; kv_gc : bool }.
Implicit Types (a : kvs) (key val : list Z).

(** ** The promise *)
Definition spec_invalid key val : bool :=
  (Z.of_nat (length val) <=? 0) || (ITEM_MAX_KEY_LEN <? Z.of_nat (length key)) || (ITEM_MAX_VAL_LEN <? Z.of_nat (length val)).

Definition spec_write key val a : result_e * kvs :=
  if decide (kv_map a !! key = Some val) then (RES_OK, a)
  else if item_size key val <? kv_free a then
    let left := kv_free a - item_size key val in
    (RES_OK, {| kv_map := <[key := val]> (kv_map a); kv_free := left; kv_gc := kv_gc a || (left <? ITEM_MAX_LEN) |})
  else (RES_NO_SPACE, {| kv_map := kv_map a; kv_free := kv_free a; kv_gc := true |}).

Definition spec_set key val a : option result_e * kvs :=
  if spec_invalid key val then (Some RES_INVALID_PARAM, a)
  else if kv_gc a then (None, a)
  else let '(r, a) := spec_write key val a in (Some r, a).

Definition spec_del key a : result_e * kvs :=
  match kv_map a !! key with
  | None => (RES_ITEM_NOT_FOUND, a)
  | Some _ => (RES_OK, {| kv_map := delete key (kv_map a); kv_free := kv_free a; kv_gc := kv_gc a |})
  end.

Definition spec_get key (n : Z) a : result_e * list Z * Z :=
  if n <=? 0 then (RES_INVALID_PARAM, [], n)
  else
    match kv_map a !! key with
    | None => (RES_ITEM_NOT_FOUND, [], n)
    | Some v => if n <? Z.of_nat (length v) then (RES_NO_SPACE, [], Z.of_nat (length v)) else (RES_OK, v, Z.of_nat (length v))
    end.

Definition spec_gc a : kvs := {| kv_map := kv_map a; kv_free := 4092 - map_size (kv_map a); kv_gc := false |}.

(** ** Sequences of calls

    [KSetResumed] is the rest of an [aos_kv_set] that waited for the collection. *)
Inductive kv_op := KSet (key val : list Z) | KSetResumed (key val : list Z) | KDel (key : list Z) | KGet (key : list Z) (n : Z) | KGc.
Inductive kv_out := OSet (r : option result_e) | ODel (r : result_e) | OGet (r : result_e * list Z * Z) | ONone.

Definition spec_step (o : kv_op) a : kv_out * kvs :=
  match o with
  | KSet key val => let '(r, a) := spec_set key val a in (OSet r, a)
  | KSetResumed key val => if spec_invalid key val then (ONone, a) else let '(r, a) := spec_write key val a in (OSet (Some r), a)
  | KDel key => let '(r, a) := spec_del key a in (ODel r, a)
  | KGet key n => (OGet (spec_get key n a), a)
  | KGc => (ONone, spec_gc a)
  end.

Fixpoint run {S : Type} (step : kv_op -> S -> kv_out * S) (os : list kv_op) (s : S) : list kv_out * S :=
  match os with
  | [] => ([], s)
  | o :: os => let '(r, s) := step o s in let '(rs, s) := run step os s in (r :: rs, s)
  end.

Section Refine.
Context {F : Type} `{FlashOk F}.
Implicit Types (s : kv_mgr_t F).

Definition kv_step (o : kv_op) s : kv_out * kv_mgr_t F :=
  match o with
  | KSet key val => let '(r, s) := aos_kv_set key val s in (OSet r, s)
  | KSetResumed key val => if spec_invalid key val then (ONone, s) else let '(r, s) := kv_set_locked key val s in (OSet (Some r), s)
  | KDel key => let '(r, s) := aos_kv_del key s in (ODel r, s)
  | KGet key n => let '(r, s) := aos_kv_get key n s in (OGet r, s)
  | KGc => (ONone, aos_kv_gc s)
  end.

(** The state of the store and the map it stands for. *)
Record stands s a : Prop := {
  st_log : exists cur st es, kv_rep s cur st es (kv_free a) /\ uniq es /\ kv_map a = kvmap es;
  st_gc : kv_gc a = negb (gc_triggered s =? 0);
}.

Lemma valid_entry key val org : spec_invalid key val = false -> entry_ok (new_entry key val org).
Proof.
  unfold spec_invalid. rewrite !orb_false_iff, Z.leb_gt, !Z.ltb_ge. intros [[? ?] ?]. unfold entry_ok, klen, vlen. cbn [e_key e_val new_entry]. lia.
Qed.

Lemma gc_after_test left s : negb (gc_triggered (after_gc_test left s) =? 0) = negb (gc_triggered s =? 0) || (left <? ITEM_MAX_LEN).
Proof. unfold after_gc_test, trigger_gc. case_match; [|by rewrite orb_false_r]. rewrite orb_true_r. by case_match eqn:Hg; [|rewrite Hg]. Qed.

Lemma gc_trigger s : negb (gc_triggered (trigger_gc s) =? 0) = true.
Proof. unfold trigger_gc. by case_match eqn:Hg; [|rewrite Hg]. Qed.

Lemma get_found s cur st es sp key a : kv_rep s cur st es sp -> kv_map a = kvmap es ->
  match kv_map a !! key with
  | None => first_live key es = None /\ kv_item_get key s = (None, s)
  | Some v => exists pre e post, es = pre ++ e :: post /\ e_del e = false /\ e_key e = key /\ e_val e = v /\ kv_item_get key s = (Some (found_at e (pos_of cur pre)), s)
  end.
Proof.
  intros Hr ->. rewrite kvmap_lookup, (item_get_spec _ _ _ _ _ _ Hr). destruct (first_live key es) as [[l e]|] eqn:Hf; [|done]. cbn.
  destruct (first_live_some _ _ _ _ Hf) as (Hd & Hk & post & ->). by exists l, e, post.
Qed.

Lemma drop_key e : drop (Z.to_nat (klen e)) (edata e) = e_val e.
Proof. unfold klen, edata. by rewrite Nat2Z.id, drop_app_length. Qed.

Lemma same_value e val : (vlen e =? Z.of_nat (length val)) && same_bytes (drop (Z.to_nat (klen e)) (edata e)) val (Z.of_nat (length val)) = bool_decide (e_val e = val).
Proof.
  rewrite drop_key. unfold same_bytes, vlen. rewrite Nat2Z.id, (firstn_all val). destruct (Z.eqb_spec (Z.of_nat (length (e_val e))) (Z.of_nat (length val))) as [Hl|Hl]; cbn [andb].
  - by rewrite <- (Nat2Z.inj _ _ Hl), firstn_all.
  - symmetry. apply bool_decide_eq_false. by intros <-.
Qed.

(** ** Writing and deleting, on the log *)

(** What [kv_set_locked] returns, what it makes of the log, and whether it wants the
    collection to run. *)
Inductive log_set cur (es : list entry) (sp : Z) key val : result_e -> list entry -> Z -> bool -> Prop :=
  | log_same : kvmap es !! key = Some val -> log_set cur es sp key val RES_OK es sp false
  | log_new sp' : kvmap es !! key = None -> item_size key val < sp -> sp' = sp - item_size key val ->
      log_set cur es sp key val RES_OK (es ++ [new_entry key val 0]) sp' (sp' <? ITEM_MAX_LEN)
  | log_over pre e post sp' : es = pre ++ e :: post -> e_del e = false -> e_key e = key -> kvmap es !! key = Some (e_val e) -> e_val e <> val -> item_size key val < sp ->
      sp' = sp - item_size key val -> log_set cur es sp key val RES_OK (pre ++ mark e :: post ++ [new_entry key val (pos_of cur pre)]) sp' (sp' <? ITEM_MAX_LEN)
  | log_full : kvmap es !! key <> Some val -> sp <= item_size key val -> log_set cur es sp key val RES_NO_SPACE es sp true.

(** What the flash can hold on the way: the new log, or the new version beside the old one. *)
Definition set_phase cur (es : list entry) key val (es' : list entry) (sp' : Z) (c : list Z) : Prop :=
  any_state cur es' sp' c \/
  exists pre e post, es = pre ++ e :: post /\ e_del e = false /\ e_key e = key /\ es' = pre ++ mark e :: post ++ [new_entry key val (pos_of cur pre)] /\
    any_state cur (es ++ [new_entry key val (pos_of cur pre)]) sp' c.

(** The call changed the log [es]. *)
Definition log_step s cur (es : list entry) (sp : Z) key val (r : result_e) s' : Prop :=
  exists st' es' sp' g, kv_rep s' cur st' es' sp' /\ log_set cur es sp key val r es' sp' g /\ grows (set_phase cur es key val es' sp') (dev s) (dev s') /\
    negb (gc_triggered s' =? 0) = negb (gc_triggered s =? 0) || g.

Lemma dev_trigger s : dev (trigger_gc s) = dev s.
Proof. unfold trigger_gc. by case_match. Qed.

Lemma full_step s cur st es sp key val : kv_rep s cur st es sp -> kvmap es !! key <> Some val -> sp <= item_size key val -> log_step s cur es sp key val RES_NO_SPACE (trigger_gc s).
Proof.
  intros Hr Hne Hge. exists st, es, sp, true. split_and!; [by apply trigger_rep|by apply log_full|rewrite dev_trigger; apply grows_refl|].
  by rewrite gc_trigger, orb_true_r.
Qed.

Lemma store_step s cur st es sp key val :
  kv_rep s cur st es sp -> spec_invalid key val = false -> kvmap es !! key = None ->
  exists r s', kv_item_store key val 0 s = (r, s') /\ log_step s cur es sp key val r s'.
Proof.
  intros Hr Hv Hn. pose proof (item_store_spec _ _ _ _ _ key val 0 Hr (valid_entry key val 0 Hv)) as Hst. cbn zeta in Hst. rewrite esize_item in Hst. cbn [e_key e_val new_entry] in Hst.
  destruct (Z.ltb_spec (item_size key val) sp).
  - destruct Hst as (s' & -> & Hr' & Hg & Hj). exists RES_OK, s'. split; [done|]. eexists st, _, _, _. split_and!; [done|by apply log_new| |].
    + eapply grows_mono; [|exact Hj]. by left.
    + by rewrite Hg, gc_after_test.
  - exists RES_NO_SPACE, (trigger_gc s). split; [done|]. eapply full_step; [done|congruence|done].
Qed.

Lemma update_step s cur st pre e post sp val :
  kv_rep s cur st (pre ++ e :: post) sp -> e_del e = false -> spec_invalid (e_key e) val = false -> kvmap (pre ++ e :: post) !! e_key e = Some (e_val e) ->
  exists r s', kv_item_update (found_at e (pos_of cur pre)) (e_key e) val s = (r, s') /\ log_step s cur (pre ++ e :: post) sp (e_key e) val r s'.
Proof.
  intros Hr Hd Hv Hl. unfold kv_item_update. cbn [found_at i_hdr i_store i_pos ehdr val_len key_len]. rewrite same_value. case_bool_decide as Hval.
  { exists RES_OK, s. split; [done|]. eexists st, _, _, _. split_and!; [done|apply log_same; congruence|apply grows_refl|]. by rewrite orb_false_r. }
  set (org := pos_of cur pre). pose proof (item_store_spec _ _ _ _ _ (e_key e) val org Hr (valid_entry _ _ org Hv)) as Hst.
  cbn zeta in Hst. rewrite esize_item in Hst. cbn [e_key e_val new_entry] in Hst. destruct (Z.ltb_spec (item_size (e_key e) val) sp).
  - destruct Hst as (s' & -> & Hr' & Hg' & Hj'). rewrite decide_False by tauto. rewrite <- app_assoc in Hr'. cbn [app] in Hr'.
    destruct (mark_deleted_spec _ _ _ _ _ _ _ Hr') as (s2 & Hmk & Hr2 & Hg2 & Hj2). cbn [kv_item_del i_pos found_at]. unfold org. rewrite Hmk. exists RES_OK, s2. split; [done|].
    eexists _, _, _, _. split_and!; [exact Hr2|by eapply log_over| |].
    + eapply grows_trans; (eapply grows_mono; [|done]); intros c Hc; [right; by exists pre, e, post|by left].
    + by rewrite Hg2, Hg', gc_after_test.
  - rewrite Hst. rewrite decide_True by done. exists RES_NO_SPACE, (trigger_gc s). split; [done|]. eapply full_step; [done|congruence|done].
Qed.

Lemma set_step s cur st es sp key val :
  kv_rep s cur st es sp -> spec_invalid key val = false -> exists r s', kv_set_locked key val s = (r, s') /\ log_step s cur es sp key val r s'.
Proof.
  intros Hr Hv. unfold kv_set_locked. rewrite (item_get_spec _ _ _ _ _ _ Hr). destruct (first_live key es) as [[l e]|] eqn:Hf; cbn [fmap option_fmap option_map].
  - destruct (first_live_some _ _ _ _ Hf) as (Hd & <- & post & ->). eapply update_step; [done|done|done|]. by rewrite kvmap_lookup, Hf.
  - eapply store_step; [done|done|]. by rewrite kvmap_lookup, Hf.
Qed.

Lemma log_set_map cur es sp key val r es' sp' g : log_set cur es sp key val r es' sp' g -> uniq es -> uniq es' /\ kvmap es' = if decide (r = RES_OK) then <[key := val]> (kvmap es) else kvmap es.
Proof.
  intros [Hl|? Hn Hs ->|pre e post ? -> Hd <- Hl Hne Hs ->|Hl Hs] Hu.
  - split; [done|]. rewrite decide_True by done. by rewrite insert_id.
  - rewrite decide_True by done. by apply (uniq_snoc es (new_entry key val 0) Hu).
  - rewrite decide_True by done. by apply (uniq_update _ _ _ (new_entry (e_key e) val (pos_of cur pre)) Hu).
  - by rewrite decide_False.
Qed.

Lemma del_step s cur st es sp key : kv_rep s cur st es sp ->
  match first_live key es with
  | None => aos_kv_del key s = (RES_ITEM_NOT_FOUND, s)
  | Some (pre, e) => exists post s', es = pre ++ e :: post /\ e_del e = false /\ e_key e = key /\ aos_kv_del key s = (RES_OK, s') /\
      kv_rep s' cur BLK_STATE_DIRTY (pre ++ mark e :: post) sp /\ gc_triggered s' = gc_triggered s /\ grows (any_state cur (pre ++ mark e :: post) sp) (dev s) (dev s')
  end.
Proof.
  intros Hr. unfold aos_kv_del. rewrite (item_get_spec _ _ _ _ _ _ Hr). destruct (first_live key es) as [[l e]|] eqn:Hf; cbn [fmap option_fmap option_map]; [|done].
  destruct (first_live_some _ _ _ _ Hf) as (Hd & <- & post & ->). destruct (mark_deleted_spec _ _ _ _ _ _ _ Hr) as (s' & Hmk & Hr' & Hg & Hj).
  exists post, s'. cbn [kv_item_del found_at i_pos]. by split_and!.
Qed.

(** ** One call *)
Lemma spec_write_log cur es key val r es' sp' g a : log_set cur es (kv_free a) key val r es' sp' g -> uniq es -> kv_map a = kvmap es ->
  spec_write key val a = (r, {| kv_map := kvmap es'; kv_free := sp'; kv_gc := kv_gc a || g |}).
Proof.
  intros Hls Hu Hm. destruct (log_set_map _ _ _ _ _ _ _ _ _ Hls Hu) as [_ Hm']. rewrite Hm'. unfold spec_write. rewrite Hm. destruct a as [m sp gc]. cbn [kv_map kv_free kv_gc] in *. subst m.
  destruct Hls as [Hl|sp' Hn Hs ->|pre e post sp' -> Hd <- Hl Hne Hs ->|Hl Hs].
  - rewrite !decide_True by done. by rewrite orb_false_r, insert_id.
  - rewrite decide_False, decide_True by congruence. by rewrite (proj2 (Z.ltb_lt _ _)).
  - rewrite decide_False, decide_True by congruence. by rewrite (proj2 (Z.ltb_lt _ _)).
  - rewrite !decide_False by done. by rewrite (proj2 (Z.ltb_ge _ _)), orb_true_r.
Qed.

Lemma refine_write s a key val : stands s a -> spec_invalid key val = false ->
  exists s', kv_set_locked key val s = ((spec_write key val a).1, s') /\ stands s' (spec_write key val a).2.
Proof.
  intros [(cur & st & es & Hr & Hu & Hm) Hg] Hv. destruct (set_step _ _ _ _ _ key val Hr Hv) as (r & s' & E & st' & es' & sp' & g & Hr' & Hls & _ & Hg'). exists s'.
  rewrite E, (spec_write_log _ _ _ _ _ _ _ _ _ Hls Hu Hm). split; [done|]. split; [|by rewrite Hg', <- Hg]. exists cur, st', es'. split_and!; [done|by eapply log_set_map|done].
Qed.

Lemma refine_set s a key val : stands s a -> exists s', aos_kv_set key val s = ((spec_set key val a).1, s') /\ stands s' (spec_set key val a).2.
Proof.
  intros Hs. unfold aos_kv_set, spec_set, spec_invalid. case_match eqn:Hv; [by exists s|]. rewrite (st_gc _ _ Hs). case_match.
  { eexists. split; [done|]. destruct Hs as [(cur & st & es & [] & Hu & Hm) Hg]. split; [|done]. exists cur, st, es. by split_and!. }
  destruct (refine_write s a key val Hs Hv) as (s' & -> & Hs'). exists s'. by destruct (spec_write key val a).
Qed.

Lemma refine_del s a key : stands s a -> exists s', aos_kv_del key s = ((spec_del key a).1, s') /\ stands s' (spec_del key a).2.
Proof.
  intros Hs. pose proof Hs as [(cur & st & es & Hr & Hu & Hm) Hg]. pose proof (del_step _ _ _ _ _ key Hr) as Hd. unfold spec_del. rewrite Hm, kvmap_lookup.
  destruct (first_live key es) as [[pre e]|]; cbn [fmap option_fmap option_map]; [|by exists s]. destruct Hd as (post & s' & -> & Hd & <- & -> & Hr' & Hg' & _). exists s'.
  split; [done|]. destruct (uniq_mark _ _ _ Hu Hd) as [Hu' Hm']. split; cbn [snd kv_map kv_free kv_gc]; [|by rewrite Hg']. by eexists _, _, _.
Qed.

Lemma refine_get s a key n : stands s a -> aos_kv_get key n s = (spec_get key n a, s).
Proof.
  intros Hs. pose proof Hs as [(cur & st & es & Hr & Hu & Hm) Hg]. pose proof (get_found s cur st es _ key a Hr Hm) as Hf. unfold aos_kv_get, spec_get. destruct (n <=? 0); [done|].
  destruct (kv_map a !! key) as [v|] eqn:Hl.
  - destruct Hf as (pre & e & post & -> & Hd & <- & <- & ->). cbn [found_at i_hdr ehdr val_len key_len i_store]. rewrite drop_key. unfold vlen. case_match; [done|]. by rewrite Nat2Z.id, firstn_all.
  - destruct Hf as [_ ->]. done.
Qed.

Lemma refine_gc s a : stands s a -> stands (aos_kv_gc s) (spec_gc a).
Proof.
  intros [(cur & st & es & Hr & Hu & Hm) Hg]. destruct (gc_spec _ _ _ _ _ Hr) as (Hg' & _ & st' & Hr'). split; [|by rewrite Hg'].
  exists (if st =? BLK_STATE_DIRTY then negb cur else cur), st', (if st =? BLK_STATE_DIRTY then live es else es). cbn [spec_gc kv_map kv_free]. rewrite Hm, (map_size_kvmap _ Hu). split; [done|].
  case_match; [by rewrite kvmap_live; split; [apply uniq_live|]|done].
Qed.

Lemma refine_step o s a : stands s a -> exists s', kv_step o s = ((spec_step o a).1, s') /\ stands s' (spec_step o a).2.
Proof.
  intros Hs. destruct o as [key val|key val|key|key n|]; cbn [kv_step spec_step].
  - destruct (refine_set s a key val Hs) as (s' & -> & ?). exists s'. by destruct (spec_set key val a).
  - case_match eqn:Hv; [by exists s|]. destruct (refine_write s a key val Hs Hv) as (s' & -> & ?). exists s'. by destruct (spec_write key val a).
  - destruct (refine_del s a key Hs) as (s' & -> & ?). exists s'. by destruct (spec_del key a).
  - rewrite (refine_get s a key n Hs). by exists s.
  - eexists. split; [done|]. by apply refine_gc.
Qed.

Lemma refine_run os s a : stands s a -> exists s', run kv_step os s = ((run spec_step os a).1, s') /\ stands s' (run spec_step os a).2.
Proof.
  revert s a. induction os as [|o os IH]; intros s a Hs; [by exists s|]. cbn [run]. destruct (refine_step o s a Hs) as (s1 & -> & Hs1).
  destruct (spec_step o a) as [r a1]. cbn [fst snd] in *. destruct (IH s1 a1 Hs1) as (s2 & -> & Hs2). destruct (run spec_step os a1). by exists s2.
Qed.
End Refine.
