(* ===== verification/KvRecover.v ===== *)
(** * Recovery of a block

    At the start every block is traversed with [__item_recovery_cb].  An item whose
    [origin_off] names an earlier item of the same key marks that item, which an
    interrupted update can have left; [recover] is what becomes of the log.  The other
    items are left alone when nothing live is found at their [origin_off]. *)
From S2P Require Import Prelude KTypes Kv KvLog KvFind KvOps.
Local Open Scope Z_scope.

(** ** What recovery does to a log *)
Fixpoint mark_at (org pos : Z) (es : list entry) : list entry :=
  match es with
  | [] => []
  | e :: es => if org =? pos then mark e :: es else e :: mark_at org (pos + esize e) es
  end.

Fixpoint recover (cur : bool) (pre post : list entry) : list entry :=
  match post with
  | [] => pre
  | e :: post => recover cur ((if e_del e then pre else mark_at (e_org e) (base cur + 4) pre) ++ [e]) post
  end.

Lemma mark_at_hit l e m pos : Forall entry_ok l -> mark_at (pos + log_size l) pos (l ++ e :: m) = l ++ mark e :: m.
Proof.
  revert pos. induction l as [|e0 l IH]; intros pos Hf; cbn [app mark_at].
  - rewrite (proj2 (Z.eqb_eq _ _)); [done|]. cbn. lia.
  - inversion_clear Hf as [|?? He Hl]. pose proof (esize_spec e0 He). pose proof (log_size_nonneg l Hl). rewrite log_size_cons. destruct (Z.eqb_spec (pos + (esize e0 + log_size l)) pos); [lia|].
    rewrite Z.add_assoc, IH by done. done.
Qed.

Lemma mark_at_miss org pos es : Forall entry_ok es -> org < pos \/ pos + log_size es <= org -> mark_at org pos es = es.
Proof.
  revert pos. induction es as [|e es IH]; intros pos Hf Ho; cbn [mark_at]; [done|]. inversion_clear Hf as [|?? He Hl]. pose proof (esize_spec e He). pose proof (log_size_nonneg es Hl).
  rewrite log_size_cons in Ho. destruct (Z.eqb_spec org pos); [lia|]. rewrite IH; [done|done|lia].
Qed.

Lemma mark_id e : e_del e = true -> mark e = e.
Proof. destruct e. cbn. by intros ->. Qed.

(** Eight bytes that are not the header of a live item. *)
Definition not_live (l : list Z) : Prop := i_magic (bytes_hdr l) <> ITEM_MAGIC_NUM \/ i_state (bytes_hdr l) <> ITEM_STATE_NORMAL.

(** [org] is a place in the block that is not [cur], with contents [other], where nothing
    live begins. *)
Definition silent (cur : bool) (other : list Z) (org : Z) : Prop :=
  exists a x b, other = a ++ x ++ b /\ length x = 8%nat /\ org = base (negb cur) + Z.of_nat (length a) /\ 4 <= Z.of_nat (length a) /\ not_live x.

(** Where the [origin_off] of the item [e] behind the items [pre] may point. *)
Inductive org_ok (cur : bool) (other : list Z) (pre : list entry) (e : entry) : Prop :=
  | org_none : e_org e = 0 -> org_ok cur other pre e
  | org_other : silent cur other (e_org e) -> org_ok cur other pre e
  | org_here l e0 m : pre = l ++ e0 :: m -> e_org e = pos_of cur l -> e_key e0 = e_key e -> org_ok cur other pre e.

Definition orgs_ok (cur : bool) (other : list Z) (es : list entry) : Prop :=
  forall pre e post, es = pre ++ e :: post -> e_del e = false -> org_ok cur other pre e.

Lemma silent_miss cur other org pre st e post sp : silent cur other org -> Z.of_nat (length other) = 4096 -> log_ok st (pre ++ e :: post) sp -> mark_at org (base cur + 4) pre = pre.
Proof.
  intros (a & y & b & -> & Hy & -> & Ha & _) Hlo Hok. destruct (log_ok_mid _ _ _ _ _ Hok) as (Hp & He & _ & Hl & Hl2 & Hsz & Hsp). pose proof (esize_spec e He). rewrite !length_app in Hlo.
  apply mark_at_miss; [done|]. unfold base. destruct cur; cbn [negb]; [left; lia|right]. lia.
Qed.

(** ** Marking keeps the shape of the log *)
Definition alike (e e' : entry) : Prop := e_key e' = e_key e /\ e_val e' = e_val e /\ e_org e' = e_org e.
Definition shape : list entry -> list entry -> Prop := Forall2 alike.

Lemma alike_size e e' : alike e e' -> esize e' = esize e /\ (entry_ok e -> entry_ok e').
Proof. intros (Hk & Hv & _). unfold entry_ok, esize, klen, vlen. by rewrite Hk, Hv. Qed.

Lemma shape_size es es' : shape es es' -> log_size es' = log_size es /\ (Forall entry_ok es -> Forall entry_ok es').
Proof.
  induction 1 as [|e e' es es' He _ [IH1 IH2]]; [done|]. destruct (alike_size _ _ He) as [H1 H2]. rewrite !log_size_cons. split; [lia|].
  intros Hf. inversion_clear Hf. constructor; auto.
Qed.

Lemma shape_refl es : shape es es.
Proof. induction es; constructor; [done|done]. Qed.

Lemma shape_trans es1 es2 es3 : shape es1 es2 -> shape es2 es3 -> shape es1 es3.
Proof.
  intros Hs. revert es3. induction Hs as [|x y l1 l2 (H1 & H2 & H3) _ IH]; intros es3 Ht; inversion Ht as [|? z ? l3 (H4 & H5 & H6) Ht']; subst; constructor; [split_and!; congruence|by apply IH].
Qed.

Lemma shape_mark_at org pos es : shape es (mark_at org pos es).
Proof.
  revert pos. induction es as [|e es IH]; intros pos; cbn [mark_at]; [constructor|]. case_match; constructor; [done|apply shape_refl|done|apply IH].
Qed.

Lemma shape_snoc pre pre' e : shape pre pre' -> shape (pre ++ [e]) (pre' ++ [e]).
Proof. intros Hs. apply Forall2_app; [done|]. by constructor. Qed.

Lemma log_ok_shape st st' es es' sp : shape es es' -> log_ok st es sp -> st' <> BLK_STATE_USED -> log_ok st' es' sp.
Proof. intros Hs [Hf Hsz Hsp _] Hst. destruct (shape_size _ _ Hs) as [H1 H2]. split; [auto|lia|done|done]. Qed.

Lemma org_ok_shape cur other pre pre' e : shape pre pre' -> org_ok cur other pre e -> org_ok cur other pre' e.
Proof.
  intros Hs [?|?|l e0 m -> Ho Hk]; [by apply org_none|by apply org_other|]. apply Forall2_app_inv_l in Hs as (l' & m' & Hl & Hm & ->). inversion Hm as [|? e0' ? m1 (Hk' & _) Hm' E1 E2]. subst.
  eapply org_here; [done| |congruence]. unfold pos_of in *. by rewrite (proj1 (shape_size _ _ Hl)).
Qed.

Section Recovery.
Context {F : Type} `{FlashOk F}.
Implicit Types (s : kv_mgr_t F) (e : entry) (cur : bool).

(** The manager knows the two blocks: what [kv_init] works on. *)
Record blocks s cur (img other : list Z) (b o : block_info_t) (n : Z) : Prop := {
  b_contents : contents (dev s) = two_blocks cur img other;
  b_limg : Z.of_nat (length img) = 4096;
  b_lother : Z.of_nat (length other) = 4096;
  b_info : block_info s = two_infos cur b o;
  b_clean : clean_blk_nums s = n;
  b_mallocs : mallocs s = [];
  b_gc : gc_triggered s = 0;
}.

Lemma blocks_holds s cur st es sp other x o n :
  blocks s cur (block_img st es sp) other {| space := x; b_state := st |} o n -> holds s cur st es sp.
Proof. intros [Hc _ Ho Hi _ Hm _]. split; [done| |by rewrite (info_two _ _ _ _ Hi)]. by exists other. Qed.

Lemma read_silent s cur img other b o n org :
  blocks s cur img other b o n -> silent cur other org -> exists l, raw_read org ITEM_HEADER_SIZE s = Some l /\ not_live l /\ org <> 0.
Proof.
  intros [Hc Hli Hlo _ _ _ _] (a & x & y & -> & Hx & -> & Ha & Hn). exists x. split; [|split; [done|unfold base; destruct (negb cur); lia]].
  rewrite two_blocks_swap in Hc. unfold raw_read. eapply block_read; [exact Hc|done|done| |lia|by rewrite Hx]. by destruct x.
Qed.

Lemma del_orig_silent item s l : raw_read (origin_off (i_hdr item)) ITEM_HEADER_SIZE s = Some l -> not_live l -> kv_item_del item KV_ORIG_REMOVE s = (RES_OK, s).
Proof.
  intros Hr Hn. cbn [kv_item_del]. rewrite Hr. destruct (Z.eqb_spec (i_magic (bytes_hdr l)) ITEM_MAGIC_NUM); [|done].
  destruct (Z.eqb_spec (i_state (bytes_hdr l)) ITEM_STATE_NORMAL); [|done]. by destruct Hn.
Qed.

(** The callback at the item [e]: its checksum is right. *)
Lemma recovery_cb_item s cur st st' pre e post sp :
  holds s cur st (pre ++ e :: post) sp -> log_ok st' (pre ++ e :: post) sp ->
  __item_recovery_cb (item_at e (pos_of cur pre)) [] s =
  (RES_CONT, item_at e (pos_of cur pre),
   if negb (e_org e =? 0) && negb (pos_of cur pre =? e_org e) then (kv_item_del (item_at e (pos_of cur pre)) KV_ORIG_REMOVE s).2 else s).
Proof.
  intros Hh Hok. unfold __item_recovery_cb, aos_malloc. rewrite (h_mallocs _ _ _ _ _ Hh). cbn [negb item_at i_pos i_len i_hdr]. erewrite read_data by done.
  cbn [ehdr i_crc origin_off]. fold (edata e). rewrite Z.eqb_refl. done.
Qed.

Lemma cb_silent s cur st st' pre e post sp other x o n :
  blocks s cur (block_img st (pre ++ e :: post) sp) other {| space := x; b_state := st |} o n -> log_ok st' (pre ++ e :: post) sp ->
  e_org e = 0 \/ silent cur other (e_org e) ->
  __item_recovery_cb (item_at e (pos_of cur pre)) [] s = (RES_CONT, item_at e (pos_of cur pre), s).
Proof.
  intros Hb Hok Ho. erewrite recovery_cb_item by (done || by eapply blocks_holds). destruct Ho as [-> | Hs]; [done|].
  destruct (read_silent _ _ _ _ _ _ _ _ Hb Hs) as (l & Hr & Hn & _). case_match; [|done]. by rewrite (del_orig_silent _ _ l).
Qed.

Lemma read_key s cur st st' pre e post sp :
  holds s cur st (pre ++ e :: post) sp -> log_ok st' (pre ++ e :: post) sp -> klen e <> 0 -> raw_read (pos_of cur pre + ITEM_HEADER_SIZE) (klen e) s = Some (e_key e).
Proof.
  intros Hh Hok Hk. eapply (read_piece _ _ _ _ _ _ _ _ (hdr_bytes (ehdr e)) _ (e_val e ++ epad e)); [done|done| | |done|done].
  - unfold ebytes, edata. by rewrite <- app_assoc.
  - by destruct (e_key e) eqn:E; [unfold klen in Hk; rewrite E in Hk|].
Qed.

(** The keys of the two items are compared. *)
Lemma same_keys_read s cur st st' l e0 m e post sp :
  holds s cur st (l ++ e0 :: m ++ e :: post) sp -> log_ok st' (l ++ e0 :: m ++ e :: post) sp -> e_key e0 = e_key e ->
  same_bytes (default [] (raw_read (pos_of cur l + ITEM_HEADER_SIZE) (klen e0) s))
             (default [] (raw_read (pos_of cur (l ++ e0 :: m) + ITEM_HEADER_SIZE) (klen e0) s)) (klen e0) = true.
Proof.
  intros Hh Hok Hk. unfold same_bytes. apply bool_decide_eq_true. destruct (decide (klen e0 = 0)) as [->|Hz]; [done|].
  erewrite read_key by done. assert (klen e0 = klen e) as -> by (unfold klen; by rewrite Hk).
  change (e0 :: m ++ e :: post) with ((e0 :: m) ++ e :: post) in *. rewrite app_assoc in *. erewrite read_key by (done || unfold klen in *; congruence). by rewrite Hk.
Qed.

(** The earlier item is live: it is marked. *)
Lemma cb_here s cur st st' l e0 m e post sp other x o n :
  blocks s cur (block_img st (l ++ e0 :: m ++ e :: post) sp) other {| space := x; b_state := st |} o n -> log_ok st' (l ++ e0 :: m ++ e :: post) sp ->
  e_org e = pos_of cur l -> e_key e0 = e_key e -> e_del e0 = false ->
  exists s', __item_recovery_cb (item_at e (pos_of cur (l ++ e0 :: m))) [] s = (RES_CONT, item_at e (pos_of cur (l ++ e0 :: m)), s') /\
    blocks s' cur (block_img (dirtied st) (l ++ mark e0 :: m ++ e :: post) sp) other {| space := x; b_state := dirtied st |} o n.
Proof.
  intros Hb Hok Ho Hk Hd. pose proof (blocks_holds _ _ _ _ _ _ _ _ _ Hb) as Hh. pose proof (same_keys_read _ _ _ _ _ _ _ _ _ _ Hh Hok Hk) as Hsame.
  pose proof (read_hdr _ _ _ _ _ _ _ _ Hh Hok) as Hr. destruct (log_ok_mid _ _ _ _ _ Hok) as (Hl & He0 & Hm & Hl0 & _ & Hsz & _).
  destruct Hb as [Hc Hli Hlo Hi Hn Hma Hg]. destruct (mark_deleted_gen _ _ _ _ _ _ _ _ _ _ _ Hok Hc Hlo Hi) as (s' & Hmk & Hc' & Hi' & (_ & Hg' & Hn' & _ & Hm') & _).
  exists s'. split.
  - pose proof Hh as Hh'. pose proof Hok as Hok'. change (e0 :: m ++ e :: post) with ((e0 :: m) ++ e :: post) in Hh', Hok'. rewrite app_assoc in Hh', Hok'.
    erewrite recovery_cb_item by done. pose proof (esize_spec e0 He0). apply Forall_app in Hm as [Hm _]. pose proof (log_size_nonneg m Hm).
    rewrite Ho. destruct (Z.eqb_spec (pos_of cur l) 0); [unfold pos_of, base in *; destruct cur; lia|].
    destruct (Z.eqb_spec (pos_of cur (l ++ e0 :: m)) (pos_of cur l)) as [E|]; [unfold pos_of in E; rewrite log_size_app, log_size_cons in E; lia|]. cbn [negb andb].
    cbn [kv_item_del item_at i_hdr ehdr origin_off key_len i_pos]. rewrite Ho, Hr, bytes_hdr_bytes. cbn [ehdr i_magic i_state key_len]. unfold estate. rewrite Hd.
    assert (klen e0 = klen e) as Hkl by (unfold klen; by rewrite Hk). rewrite <- Hkl, !Z.eqb_refl. cbn [negb orb]. unfold aos_malloc. rewrite Hma. cbn [negb]. rewrite Hma. cbn [negb].
    by rewrite Hsame, Hmk.
  - split; [done| |done|done|congruence|congruence|congruence]. by eapply length_img, (log_ok_mark _ _ _ _ BLK_STATE_DIRTY).
Qed.

Lemma mark_dirty_spec s cur st es sp x other o n :
  blocks s cur (block_img st es sp) other {| space := x; b_state := st |} o n ->
  blocks (mark_dirty (idx cur) s) cur (block_img (dirtied st) es sp) other {| space := x; b_state := dirtied st |} o n.
Proof.
  intros Hb. pose proof Hb as [Hc Hli Hlo Hi Hn Hma Hg]. unfold mark_dirty, dirtied. rewrite (info_two _ _ _ _ Hi). cbn [b_state]. destruct (Z.eqb_spec st BLK_STATE_USED) as [->|]; [|done].
  rewrite base_shiftl. destruct (set_blk_state s cur BLK_STATE_USED BLK_STATE_DIRTY es sp other Hli Hc Hlo) as (d' & -> & Hw). cbn [snd].
  split; [exact (proj1 Hw)|done|done| |done|done|done]. by eapply set_state_two.
Qed.

(** The state after the callback at a live item: the log is the one [recover] says. *)
Definition stepped s cur st pre e post sp other x o n : Prop :=
  exists s' st1, __item_recovery_cb (item_at e (pos_of cur pre)) [] s = (RES_CONT, item_at e (pos_of cur pre), s') /\
    blocks s' cur (block_img st1 (mark_at (e_org e) (base cur + 4) pre ++ e :: post) sp) other {| space := x; b_state := st1 |} o n /\
    (st1 = st /\ mark_at (e_org e) (base cur + 4) pre = pre \/ st1 = dirtied st).

Lemma step_quiet s cur st st' pre e post sp other x o n :
  blocks s cur (block_img st (pre ++ e :: post) sp) other {| space := x; b_state := st |} o n -> log_ok st' (pre ++ e :: post) sp ->
  e_org e = 0 \/ silent cur other (e_org e) -> stepped s cur st pre e post sp other x o n.
Proof.
  intros Hb Hok Hq. unfold stepped. assert (mark_at (e_org e) (base cur + 4) pre = pre) as ->; [|exists s, st; split; [by eapply cb_silent|by auto]].
  destruct Hq as [-> | Hq]; [|eapply silent_miss; [done|by destruct Hb|done]]. pose proof (log_ok_mid _ _ _ _ _ Hok) as (Hp & _).
  apply mark_at_miss; [done|]. left. unfold base. destruct cur; lia.
Qed.

Lemma step_deleted s cur st st' l e0 m e post sp other x o n :
  blocks s cur (block_img st (l ++ e0 :: m ++ e :: post) sp) other {| space := x; b_state := st |} o n -> log_ok st' (l ++ e0 :: m ++ e :: post) sp ->
  e_org e = pos_of cur l -> e_del e0 = true ->
  __item_recovery_cb (item_at e (pos_of cur (l ++ e0 :: m))) [] s = (RES_CONT, item_at e (pos_of cur (l ++ e0 :: m)), s).
Proof.
  intros Hb Hok Ho Hd. pose proof (blocks_holds _ _ _ _ _ _ _ _ _ Hb) as Hh. pose proof (read_hdr _ _ _ _ _ _ _ _ Hh Hok) as Hr.
  change (e0 :: m ++ e :: post) with ((e0 :: m) ++ e :: post) in Hh, Hok. rewrite app_assoc in Hh, Hok. erewrite recovery_cb_item by done. case_match; [|done].
  rewrite (del_orig_silent _ _ (hdr_bytes (ehdr e0))); [done|cbn [item_at i_hdr ehdr origin_off]; by rewrite Ho|]. right. rewrite bytes_hdr_bytes. cbn [ehdr i_state]. unfold estate. by rewrite Hd.
Qed.

Lemma recovery_step s cur st st' pre e post sp other x o n :
  blocks s cur (block_img st (pre ++ e :: post) sp) other {| space := x; b_state := st |} o n -> log_ok st' (pre ++ e :: post) sp -> org_ok cur other pre e ->
  stepped s cur st pre e post sp other x o n.
Proof.
  intros Hb Hok Horg. destruct Horg as [Hz|Hs|l e0 m -> Ho Hk]; [by eapply step_quiet; eauto..|]. pose proof (log_ok_mid _ _ _ _ _ Hok) as ([Hl _]%Forall_app & _).
  rewrite <- app_assoc in Hb, Hok. cbn [app] in Hb, Hok.
  assert (Hmk : mark_at (e_org e) (base cur + 4) (l ++ e0 :: m) = l ++ mark e0 :: m) by (rewrite Ho; by apply mark_at_hit). unfold stepped. rewrite Hmk, <- app_assoc. cbn [app].
  destruct (e_del e0) eqn:Hd.
  - exists s, st. rewrite mark_id by done. split; [by eapply step_deleted|by auto].
  - destruct (cb_here _ _ _ _ _ _ _ _ _ _ _ _ _ _ Hb Hok Ho Hk Hd) as (s' & Hcb & Hb'). exists s', (dirtied st). by auto.
Qed.

Lemma dirtied_not_used st : dirtied st <> BLK_STATE_USED.
Proof. unfold dirtied. by destruct (Z.eqb_spec st BLK_STATE_USED). Qed.

Lemma dirtied_twice st : dirtied (dirtied st) = dirtied st.
Proof. unfold dirtied. destruct (Z.eqb_spec st BLK_STATE_USED); [done|]. by destruct (Z.eqb_spec st BLK_STATE_USED). Qed.

(** ** The traversal *)
Lemma recover_next fuel s cur st pre0 pre post sp other x o n :
  orgs_ok cur other (pre0 ++ post) -> shape pre0 pre -> log_ok BLK_STATE_CLEAN (pre ++ post) sp -> (Exists (fun e => e_del e = true) pre -> st <> BLK_STATE_USED) ->
  blocks s cur (block_img st (pre ++ post) sp) other {| space := x; b_state := st |} o n -> (length post < fuel)%nat ->
  exists s' st1, traverse_next fuel __item_recovery_cb (idx cur) [] (pos_of cur pre) s = (None, s') /\ (st1 = st \/ st1 = dirtied st) /\
    blocks s' cur (block_img st1 (recover cur pre post) sp) other {| space := sp; b_state := st1 |} o n /\ log_ok st1 (recover cur pre post) sp.
Proof.
  revert fuel s st pre0 pre x. induction post as [|e post IH]; intros fuel s st pre0 pre x Horg Hsh Hok Hd Hb Hf; (destruct fuel as [|fuel]; [cbn in Hf; lia|]).
  - rewrite app_nil_r in *. cbn [recover]. pose proof (blocks_holds _ _ _ _ _ _ _ _ _ Hb) as Hh. erewrite next_end_space by done. exists (set_space (idx cur) sp s), st.
    destruct Hb as [? ? ? Hi ? ? ?]. split_and!; [done|by left| |by destruct Hok]. split; try done. by eapply set_space_two.
  - cbn [recover length] in *. pose proof (blocks_holds _ _ _ _ _ _ _ _ _ Hb) as Hh. erewrite next_item_mark by done. rewrite cons_middle, app_assoc in Horg.
    assert (Hnext : forall s1 st1 pre1, (st1 = st \/ st1 = dirtied st) -> shape pre pre1 -> (Exists (fun e => e_del e = true) (pre1 ++ [e]) -> st1 <> BLK_STATE_USED) ->
      blocks s1 cur (block_img st1 (pre1 ++ e :: post) sp) other {| space := x; b_state := st1 |} o n ->
      exists s' st2, traverse_next fuel __item_recovery_cb (idx cur) [] (pos_of cur (pre ++ [e])) s1 = (None, s') /\ (st2 = st \/ st2 = dirtied st) /\
      blocks s' cur (block_img st2 (recover cur (pre1 ++ [e]) post) sp) other {| space := sp; b_state := st2 |} o n /\ log_ok st2 (recover cur (pre1 ++ [e]) post) sp).
    { intros s1 st1 pre1 Hst1 Hsh1 Hd1 Hb1. rewrite cons_middle, app_assoc in Hb1, Hok. assert (pos_of cur (pre ++ [e]) = pos_of cur (pre1 ++ [e])) as ->.
      { unfold pos_of. by rewrite !log_size_app, (proj1 (shape_size _ _ Hsh1)). }
      destruct (IH fuel s1 st1 (pre0 ++ [e]) (pre1 ++ [e]) x) as (s' & st2 & E & Hst2 & Hb2 & Hok2); [done|by apply shape_snoc, (shape_trans _ pre)| |done|done|lia|].
      - eapply log_ok_shape; [|exact Hok|done]. apply Forall2_app; [by apply shape_snoc|apply shape_refl].
      - exists s', st2. split_and!; [done| |done|done]. destruct Hst1 as [-> | ->]; [done|]. rewrite dirtied_twice in Hst2. tauto. }
    destruct (e_del e) eqn:Hde.
    + apply (Hnext _ (dirtied st)); [by right|apply shape_refl|by intros _; apply dirtied_not_used|by apply mark_dirty_spec].
    + destruct (recovery_step _ _ _ _ _ _ _ _ _ _ _ _ Hb Hok) as (s1 & st1 & -> & Hb1 & Hst1).
      { eapply org_ok_shape; [done|]. by eapply Horg; [rewrite <- app_assoc|]. }
      apply (Hnext _ st1); [tauto|apply shape_mark_at| |done]. destruct Hst1 as [[-> E]| ->]; [|by intros _; apply dirtied_not_used]. rewrite E, Exists_app. intros [?|Hx]; [auto|]. apply Exists_cons in Hx as [?|Hx]; [congruence|inversion Hx].
Qed.

Lemma recover_traverse s cur st es sp other x o n :
  orgs_ok cur other es -> log_ok BLK_STATE_CLEAN es sp -> blocks s cur (block_img st es sp) other {| space := x; b_state := st |} o n ->
  exists s' st1, kv_item_traverse __item_recovery_cb (idx cur) [] s = (None, s') /\ (st1 = st \/ st1 = dirtied st) /\
    blocks s' cur (block_img st1 (recover cur [] es) sp) other {| space := sp; b_state := st1 |} o n /\ log_ok st1 (recover cur [] es) sp.
Proof.
  intros Horg Hok Hb. pose proof (log_ok_length _ _ _ Hok). destruct (recover_next traverse_fuel s cur st [] [] es sp other x o n) as (s' & st1 & E & Hrest); [done|constructor|done|by intros Hx; inversion Hx|done|unfold traverse_fuel; lia|].
  exists s', st1. split; [|done]. rewrite <- E. unfold kv_item_traverse, traverse_next, pos_of. rewrite base_shiftl. cbn [log_size foldr]. rewrite Z.add_0_r. change BLK_HEADER_SIZE with 4.
  destruct (Z.ltb_spec (base cur + 4 + ITEM_HEADER_SIZE) (base cur + BLK_SIZE)); [done|]. change BLK_SIZE with 4096 in *. unfold ITEM_HEADER_SIZE in *. lia.
Qed.

Lemma blocks_swap s cur img other b o n : blocks s cur img other b o n -> blocks s (negb cur) other img o b n.
Proof. intros []. split; try done; [by rewrite <- two_blocks_swap|by rewrite <- two_infos_swap]. Qed.
End Recovery.

(** ** When recovery changes nothing, and after an interrupted update *)
Lemma recover_app cur pre post e : recover cur pre (post ++ [e]) = (if e_del e then recover cur pre post else mark_at (e_org e) (base cur + 4) (recover cur pre post)) ++ [e].
Proof. revert pre. induction post as [|e0 post IH]; intros pre; [done|]. cbn [recover app]. by rewrite IH. Qed.

(** The earlier versions of an item are marked already. *)
Definition settled (es : list entry) : Prop :=
  forall l e0 m e post, es = l ++ e0 :: m ++ e :: post -> e_del e = false -> e_key e0 = e_key e -> e_del e0 = true.

Lemma recover_settled cur other st es sp pre post :
  orgs_ok cur other es -> settled es -> log_ok st es sp -> Z.of_nat (length other) = 4096 -> es = pre ++ post -> recover cur pre post = es.
Proof.
  intros Horg Hset Hok Hlo. revert pre. induction post as [|e post IH]; intros pre He; [by rewrite app_nil_r in He|]. cbn [recover].
  assert (Hid : (if e_del e then pre else mark_at (e_org e) (base cur + 4) pre) = pre).
  { destruct (e_del e) eqn:Hd; [done|]. rewrite He in Hok. pose proof (log_ok_mid _ _ _ _ _ Hok) as (Hp & _). destruct (Horg pre e post He Hd) as [->|Hs|l e0 m -> Ho Hk].
    - apply mark_at_miss; [done|]. left. unfold base. destruct cur; lia.
    - by eapply silent_miss.
    - apply Forall_app in Hp as [Hl _]. rewrite Ho. unfold pos_of. rewrite mark_at_hit by done. rewrite mark_id; [done|]. eapply (Hset l e0 m e post); [|done|done]. by rewrite He, <- app_assoc. }
  rewrite Hid. apply IH. by rewrite He, <- app_assoc.
Qed.

Lemma recover_update cur other st l e0 m e sp :
  orgs_ok cur other (l ++ e0 :: m) -> settled (l ++ e0 :: m) -> log_ok st (l ++ e0 :: m) sp -> Z.of_nat (length other) = 4096 ->
  e_del e = false -> e_org e = pos_of cur l -> recover cur [] ((l ++ e0 :: m) ++ [e]) = l ++ mark e0 :: m ++ [e].
Proof.
  intros Horg Hset Hok Hlo Hd Ho. rewrite recover_app, Hd, (recover_settled cur other st (l ++ e0 :: m) sp) by done. pose proof (log_ok_mid _ _ _ _ _ Hok) as (Hl & _).
  rewrite Ho. unfold pos_of. rewrite mark_at_hit by done. by rewrite <- app_assoc.
Qed.

(** * Starting the store

    [aos_kv_init] on what a flash can hold: nothing formatted, a log and a clean block, a
    log and a block with some of its items copied, or only the copies. *)

(** A block without a valid header. *)
Definition unformatted (img : list Z) : Prop :=
  exists m st x y rest, img = [m; st; x; y] ++ rest /\ (m <> BLK_MAGIC_NUM \/ INVALID_BLK_STATE st = true).

Section Init.
Context {F : Type} `{FlashOk F}.
Implicit Types (s : kv_mgr_t F) (e : entry) (cur : bool).

Lemma read_head s cur a x y z rest other b o n :
  blocks s cur ([a; x; y; z] ++ rest) other b o n -> raw_read (Z.shiftl (idx cur) BLK_BITS) BLK_HEADER_SIZE s = Some [a; x; y; z].
Proof.
  intros [Hc Hl Ho _ _ _ _]. rewrite base_shiftl. unfold raw_read. eapply (block_read _ _ []); [exact Hc|done|exact Hl|done| |done]. cbn [length]. lia.
Qed.

Lemma init_format s cur img other b o n u :
  blocks s cur img other b o n -> unformatted img -> 0 <= n < 255 ->
  exists s', init_block (idx cur) u s = (RES_OK, u, s') /\ blocks s' cur clean_img other {| space := 4092; b_state := BLK_STATE_CLEAN |} o (n + 1).
Proof.
  intros Hb (m & st & x & y & rest & -> & Hu) Hn. pose proof Hb as [Hc Hl Ho Hi Hcl Hm Hg].
  destruct (format_spec s cur _ other b o Hc Hl Ho Hi) as (s' & Hf & Hc' & Hi' & Hn' & _ & Hm' & Hg' & _); [lia|].
  exists s'. split; [|split; [done|apply length_clean|done|done|lia|congruence|congruence]].
  unfold init_block. rewrite (read_head _ _ _ _ _ _ _ _ _ _ _ Hb). cbn [default from_option id nth]. destruct (Z.eqb_spec m BLK_MAGIC_NUM) as [->|]; [|by rewrite Hf].
  destruct (INVALID_BLK_STATE st); [by rewrite Hf|]. by destruct Hu.
Qed.

Lemma set_state_blocks s cur img other b o n st : blocks s cur img other b o n -> blocks (set_state (idx cur) st s) cur img other {| space := space b; b_state := st |} o n.
Proof. intros [? ? ? Hi ? ? ?]. split; try done. destruct b. by eapply set_state_two. Qed.

Lemma init_traverse s cur st es sp other b o n :
  blocks s cur (block_img st es sp) other b o n -> orgs_ok cur other es -> log_ok BLK_STATE_CLEAN es sp -> INVALID_BLK_STATE st = false ->
  exists s' st1, (st1 = st \/ st1 = dirtied st) /\ blocks s' cur (block_img st1 (recover cur [] es) sp) other {| space := sp; b_state := st1 |} o n /\ log_ok st1 (recover cur [] es) sp /\
    forall u, init_block (idx cur) u s =
      if st =? BLK_STATE_CLEAN then
        if negb (sp =? 4092) then (RES_OK, idx cur :: u, s') else (RES_OK, u, s' <| clean_blk_nums ::= fun n => wrap8 (n + 1) |>)
      else (RES_OK, u, s').
Proof.
  intros Hb Horg Hok Hst. destruct (recover_traverse _ _ _ _ _ _ _ _ _ Horg Hok (set_state_blocks _ _ _ _ _ _ _ st Hb)) as (s' & st1 & Ht & Hst1 & Hb' & Hok').
  exists s', st1. split_and!; [done|done|done|]. intros u. unfold init_block. rewrite (read_head _ _ _ _ _ _ _ _ _ _ _ Hb). cbn [default from_option id nth]. rewrite Z.eqb_refl, Hst, Ht. cbn [snd].
  destruct (st =? BLK_STATE_CLEAN); [|done]. rewrite (info_two _ _ _ _ (b_info _ _ _ _ _ _ _ Hb')). done.
Qed.

(** A block in use. *)
Lemma init_log s cur st es sp other b o n u :
  blocks s cur (block_img st es sp) other b o n -> orgs_ok cur other es -> log_ok BLK_STATE_CLEAN es sp -> st = BLK_STATE_USED \/ st = BLK_STATE_DIRTY ->
  exists s' st1, init_block (idx cur) u s = (RES_OK, u, s') /\ (st1 = BLK_STATE_USED \/ st1 = BLK_STATE_DIRTY) /\
    blocks s' cur (block_img st1 (recover cur [] es) sp) other {| space := sp; b_state := st1 |} o n /\ log_ok st1 (recover cur [] es) sp.
Proof.
  intros Hb Horg Hok Hst. destruct (init_traverse _ _ _ _ _ _ _ _ _ Hb Horg Hok) as (s' & st1 & Hst1 & Hb' & Hok' & E); [by destruct Hst as [-> | ->]|].
  exists s', st1. split; [rewrite E; by destruct Hst as [-> | ->]|]. split; [|done]. destruct Hst as [-> | ->], Hst1 as [-> | ->]; cbn; tauto.
Qed.

(** A clean block, with copies of items or without. *)
Lemma init_copies s cur cp other b o n u :
  blocks s cur (block_img BLK_STATE_CLEAN cp (4092 - log_size cp)) other b o n -> orgs_ok cur other cp -> log_ok BLK_STATE_CLEAN cp (4092 - log_size cp) ->
  recover cur [] cp = cp -> 0 <= n < 255 ->
  exists s', init_block (idx cur) u s = (RES_OK, if decide (cp = []) then u else idx cur :: u, s') /\
    blocks s' cur (block_img BLK_STATE_CLEAN cp (4092 - log_size cp)) other {| space := 4092 - log_size cp; b_state := BLK_STATE_CLEAN |} o (if decide (cp = []) then n + 1 else n).
Proof.
  intros Hb Horg Hok Hrec Hn. destruct (init_traverse _ _ _ _ _ _ _ _ _ Hb Horg Hok) as (s' & st1 & Hst1 & Hb' & Hok' & E); [done|].
  assert (st1 = BLK_STATE_CLEAN) as -> by by destruct Hst1 as [-> | ->]. rewrite Hrec in Hb'. rewrite E. change (BLK_STATE_CLEAN =? BLK_STATE_CLEAN) with true. cbn iota.
  destruct (decide (cp = [])) as [->|Hne].
  - cbn. eexists. split; [done|]. destruct Hb' as [? ? ? ? Hcl ? ?]. split; try done. rsimpl. rewrite Hcl. apply Z.mod_small. lia.
  - exists s'. split; [|done]. destruct (Z.eqb_spec (4092 - log_size cp) 4092) as [Hz|]; [|done]. pose proof (log_ok_length _ _ _ Hok). destruct cp; [done|]. cbn [length] in *. lia.
Qed.

(** A block with nothing in it. *)
Definition empty_img (img : list Z) : Prop := unformatted img \/ img = clean_img.

Lemma recover_nil cur : recover cur [] [] = [].
Proof. done. Qed.

Lemma empty_log_ok st : log_ok st [] 4092.
Proof. split; [constructor|done|done|by intros Hx; inversion Hx]. Qed.

Lemma orgs_nil cur other : orgs_ok cur other [].
Proof. intros [|? ?] ? ? ?; done. Qed.

Lemma init_empty s cur img other b o n u :
  blocks s cur img other b o n -> empty_img img -> 0 <= n < 255 ->
  exists s', init_block (idx cur) u s = (RES_OK, u, s') /\ blocks s' cur clean_img other {| space := 4092; b_state := BLK_STATE_CLEAN |} o (n + 1).
Proof. intros Hb [Hu | ->] Hn; [by eapply init_format|]. by apply (init_copies s cur [] other b o n u Hb (orgs_nil _ _) (empty_log_ok _)). Qed.

(** ** Both blocks *)
Lemma init_blocks_two u0 s u1 s1 u2 s2 : init_block 0 u0 s = (RES_OK, u1, s1) -> init_block 1 u1 s1 = (RES_OK, u2, s2) -> init_blocks (Z.to_nat BLK_NUMS) 0 u0 s = (RES_OK, u2, s2).
Proof. intros E1 E2. change (Z.to_nat BLK_NUMS) with 2%nat. cbn [init_blocks]. rewrite E1. change (0 + 1) with 1. by rewrite E2. Qed.

(** Where the [origin_off]s of copies may point, before and after the recovery of the log. *)
Definition copies_ok cur (es : list entry) (sp : Z) (cp : list entry) : Prop :=
  log_ok BLK_STATE_CLEAN cp (4092 - log_size cp) /\ recover (negb cur) [] cp = cp /\
  forall st, orgs_ok (negb cur) (block_img st es sp) cp /\ orgs_ok (negb cur) (block_img st (recover cur [] es) sp) cp.

Lemma init_blocks_log s cur st es sp cp b o :
  blocks s cur (block_img st es sp) (block_img BLK_STATE_CLEAN cp (4092 - log_size cp)) b o 0 ->
  orgs_ok cur (block_img BLK_STATE_CLEAN cp (4092 - log_size cp)) es -> log_ok BLK_STATE_CLEAN es sp -> st = BLK_STATE_USED \/ st = BLK_STATE_DIRTY -> copies_ok cur es sp cp ->
  exists s' st1, init_blocks (Z.to_nat BLK_NUMS) 0 [] s = (RES_OK, if decide (cp = []) then [] else [idx (negb cur)], s') /\ (st1 = BLK_STATE_USED \/ st1 = BLK_STATE_DIRTY) /\
    log_ok st1 (recover cur [] es) sp /\
    blocks s' cur (block_img st1 (recover cur [] es) sp) (block_img BLK_STATE_CLEAN cp (4092 - log_size cp)) {| space := sp; b_state := st1 |}
      {| space := 4092 - log_size cp; b_state := BLK_STATE_CLEAN |} (if decide (cp = []) then 1 else 0).
Proof.
  intros Hb Horg Hok Hst (Hcok & Hrec & Hco). destruct cur.
  - apply blocks_swap in Hb. destruct (init_copies _ _ _ _ _ _ _ [] Hb (proj1 (Hco st)) Hcok Hrec) as (s1 & E1 & Hb1); [lia|]. apply blocks_swap in Hb1.
    destruct (init_log _ _ _ _ _ _ _ _ _ (if decide (cp = []) then [] else [idx (negb true)]) Hb1 Horg Hok Hst) as (s2 & st1 & E2 & Hst1 & Hb2 & Hok2).
    exists s2, st1. split_and!; [by eapply init_blocks_two|done|done|done].
  - destruct (init_log _ _ _ _ _ _ _ _ _ [] Hb Horg Hok Hst) as (s1 & st1 & E1 & Hst1 & Hb1 & Hok1). apply blocks_swap in Hb1.
    destruct (init_copies _ _ _ _ _ _ _ [] Hb1 (proj2 (Hco st1)) Hcok Hrec) as (s2 & E2 & Hb2); [lia|]. apply blocks_swap in Hb2.
    exists s2, st1. split_and!; [by eapply init_blocks_two|done|done|done].
Qed.

(** The block with copies is formatted, the log being there. *)
Lemma init_unclean_format s cur img other b o :
  blocks s cur img other b o 0 ->
  exists s', init_unclean [idx (negb cur)] s = (RES_OK, s') /\ blocks s' cur img clean_img b {| space := 4092; b_state := BLK_STATE_CLEAN |} 1.
Proof.
  intros Hb. apply blocks_swap in Hb. destruct Hb as [Hc Hl Ho Hi Hn Hm Hg]. cbn [init_unclean]. rewrite Hn. change (KV_GC_RESERVED <=? 0) with false. cbn iota.
  destruct (format_spec s _ _ _ _ _ Hc Hl Ho Hi) as (s' & -> & Hc' & Hi' & Hn' & _ & Hm' & Hg' & _); [lia|]. exists s'. split; [done|].
  rewrite two_blocks_swap, negb_involutive in Hc'. rewrite two_infos_swap, negb_involutive in Hi'. split; [done|done|apply length_clean|done|lia|congruence|congruence].
Qed.

(** The copies become the log, the other block being empty. *)
Lemma init_unclean_dirty s cur st cp sp other x o :
  blocks s cur (block_img st cp sp) other {| space := x; b_state := st |} o 1 ->
  exists s', init_unclean [idx cur] s = (RES_OK, s') /\ blocks s' cur (block_img BLK_STATE_DIRTY cp sp) other {| space := x; b_state := BLK_STATE_DIRTY |} o 1.
Proof.
  intros [Hc Hl Ho Hi Hn Hm Hg]. cbn [init_unclean]. rewrite Hn. change (KV_GC_RESERVED <=? 1) with true. cbn iota. rewrite base_shiftl.
  destruct (set_blk_state s cur st BLK_STATE_DIRTY cp sp other Hl Hc Ho) as (d' & -> & Hw). eexists. split; [done|]. split; try done; [exact (proj1 Hw)|by eapply set_state_two].
Qed.

(** ** The write position *)
Lemma write_pos_spec s cur img other sp st x n :
  blocks s cur img other {| space := sp; b_state := st |} {| space := x; b_state := BLK_STATE_CLEAN |} n -> st = BLK_STATE_USED \/ st = BLK_STATE_DIRTY ->
  init_write_pos (Z.to_nat BLK_NUMS) 0 s = s <| write_pos := base cur + BLK_SIZE - sp |>.
Proof.
  intros Hb Hst. pose proof (info_two _ _ _ _ (b_info _ _ _ _ _ _ _ Hb)) as H1'. pose proof (info_other _ _ _ _ (b_info _ _ _ _ _ _ _ Hb)) as H2'.
  assert (Hs : ((st =? BLK_STATE_USED) || (st =? BLK_STATE_DIRTY)) = true) by by destruct Hst as [-> | ->]. change (Z.to_nat BLK_NUMS) with 2%nat. cbn [init_write_pos].
  destruct cur; cbn [idx Z.b2z negb] in *.
  - rewrite H2'. cbn [b_state]. change ((BLK_STATE_CLEAN =? BLK_STATE_USED) || (BLK_STATE_CLEAN =? BLK_STATE_DIRTY)) with false. cbn [andb].
    change (0 + 1 + 1 =? BLK_NUMS) with true. change (0 + 1) with 1. cbn iota. rewrite H1', H2'. cbn [b_state space]. by rewrite Hs.
  - rewrite H1'. cbn [b_state]. rewrite Hs. change (0 + 1 =? BLK_NUMS) with false. change (0 + 1) with 1. cbn iota. by rewrite H2'.
Qed.

(** The end of [kv_init] and [aos_kv_init] on one log and one clean block. *)
Definition started s : kv_mgr_t F :=
  let s := s <| kv_initialize := 1 |> in
  if (space (info_of s (Z.shiftr (write_pos s) BLK_BITS)) <? ITEM_MAX_LEN) && (clean_blk_nums s <? KV_GC_RESERVED + 1) then trigger_gc s else s.

Lemma started_rep s cur st es sp : kv_rep s cur st es sp -> gc_triggered s = 0 ->
  kv_rep (started s) cur st es sp /\ gc_triggered (started s) = if sp <? ITEM_MAX_LEN then 1 else 0.
Proof.
  intros [Hok Hc Hi Hp Hn Hm Hst] Hg. unfold started. set (s1 := s <| kv_initialize := 1 |>). change (write_pos s1) with (write_pos s). change (clean_blk_nums s1) with (clean_blk_nums s).
  rewrite Hp, Hn, shiftr_pos by by eapply log_pos_small. change (info_of s1 (idx cur)) with (info_of s (idx cur)). rewrite (info_two _ _ _ _ Hi). cbn [space].
  change (1 <? KV_GC_RESERVED + 1) with true. rewrite andb_true_r. assert (kv_rep s1 cur st es sp) by by split. case_match; [|done]. split; [by apply trigger_rep|].
  unfold trigger_gc. change (gc_triggered s1) with (gc_triggered s). by rewrite Hg.
Qed.

Lemma kv_init_ok d s1 u s2 cur st es sp :
  init_blocks (Z.to_nat BLK_NUMS) 0 [] (kv_mgr_zero d) = (RES_OK, u, s1) -> init_unclean u s1 = (RES_OK, s2) -> log_ok st es sp -> st = BLK_STATE_USED \/ st = BLK_STATE_DIRTY ->
  blocks s2 cur (block_img st es sp) clean_img {| space := sp; b_state := st |} {| space := 4092; b_state := BLK_STATE_CLEAN |} 1 ->
  exists s', aos_kv_init (kv_mgr_zero d) = (RES_OK, s') /\ kv_rep s' cur st es sp /\ gc_triggered s' = if sp <? ITEM_MAX_LEN then 1 else 0.
Proof.
  intros E1 E2 Hok Hst Hb. exists (started (s2 <| write_pos := base cur + BLK_SIZE - sp |>)). split.
  - unfold aos_kv_init. cbn [kv_initialize kv_mgr_zero]. change (negb (0 =? 0)) with false. change (BLK_NUMS <=? KV_GC_RESERVED) with false. cbn iota.
    change (_ <| mallocs := _ |>) with (kv_mgr_zero d). unfold kv_init. rewrite E1, E2, (b_clean _ _ _ _ _ _ _ Hb). change (1 =? 0) with false. cbn iota. rewrite decide_False by tauto.
    rewrite (b_clean _ _ _ _ _ _ _ Hb). change (1 =? BLK_NUMS) with false. cbn iota. rewrite (write_pos_spec _ _ _ _ _ _ _ _ Hb Hst), decide_False by tauto. done.
  - destruct Hb as [Hc Hl Ho Hi Hn Hm Hg]. apply started_rep; [|done]. split; try done. rsimpl. pose proof (lo_size _ _ _ Hok). unfold pos_of. change BLK_SIZE with 4096. lia.
Qed.

Lemma zero_blocks d cur img other : contents d = two_blocks cur img other -> Z.of_nat (length img) = 4096 -> Z.of_nat (length other) = 4096 ->
  blocks (kv_mgr_zero d) cur img other {| space := 0; b_state := 0 |} {| space := 0; b_state := 0 |} 0.
Proof. intros. split; try done. by destruct cur. Qed.

(** ** What the start does *)

(** A log, and a clean block with copies of items or without. *)
Theorem init_with_log d cur st es sp cp :
  contents d = two_blocks cur (block_img st es sp) (block_img BLK_STATE_CLEAN cp (4092 - log_size cp)) ->
  orgs_ok cur (block_img BLK_STATE_CLEAN cp (4092 - log_size cp)) es -> log_ok BLK_STATE_CLEAN es sp -> st = BLK_STATE_USED \/ st = BLK_STATE_DIRTY -> copies_ok cur es sp cp ->
  exists s' st', aos_kv_init (kv_mgr_zero d) = (RES_OK, s') /\ kv_rep s' cur st' (recover cur [] es) sp /\ gc_triggered s' = if sp <? ITEM_MAX_LEN then 1 else 0.
Proof.
  intros Hc Horg Hok Hst Hcp. pose proof (zero_blocks d _ _ _ Hc (length_img st _ _ _ Hok) (length_img BLK_STATE_CLEAN _ _ _ (proj1 Hcp))) as Hb.
  destruct (init_blocks_log _ _ _ _ _ _ _ _ Hb Horg Hok Hst Hcp) as (s1 & st1 & E1 & Hst1 & Hok1 & Hb1). destruct (decide (cp = [])) as [->|].
  - destruct (kv_init_ok d s1 [] s1 cur st1 (recover cur [] es) sp E1 eq_refl Hok1 Hst1 Hb1) as (s' & ? & ? & ?). by exists s', st1.
  - destruct (init_unclean_format _ _ _ _ _ _ Hb1) as (s2 & E2 & Hb2). destruct (kv_init_ok d _ _ s2 cur st1 (recover cur [] es) sp E1 E2 Hok1 Hst1 Hb2) as (s' & ? & ? & ?). by exists s', st1.
Qed.

(** Copies of items, and nothing else. *)
Lemma init_blocks_copies s cur img cp b o :
  blocks s cur img (block_img BLK_STATE_CLEAN cp (4092 - log_size cp)) b o 0 -> empty_img img -> cp <> [] ->
  log_ok BLK_STATE_CLEAN cp (4092 - log_size cp) -> recover (negb cur) [] cp = cp -> orgs_ok (negb cur) img cp -> orgs_ok (negb cur) clean_img cp ->
  exists s', init_blocks (Z.to_nat BLK_NUMS) 0 [] s = (RES_OK, [idx (negb cur)], s') /\
    blocks s' (negb cur) (block_img BLK_STATE_CLEAN cp (4092 - log_size cp)) clean_img {| space := 4092 - log_size cp; b_state := BLK_STATE_CLEAN |}
      {| space := 4092; b_state := BLK_STATE_CLEAN |} 1.
Proof.
  intros Hb He Hne Hok Hrec Ho1 Ho2. destruct cur; cbn [negb] in *.
  - apply blocks_swap in Hb. destruct (init_copies _ _ _ _ _ _ _ [] Hb Ho1 Hok Hrec) as (s1 & E1 & Hb1); [lia|]. rewrite decide_False in E1 by done. rewrite decide_False in Hb1 by done. apply blocks_swap in Hb1.
    destruct (init_empty _ _ _ _ _ _ _ [idx false] Hb1 He) as (s2 & E2 & Hb2); [lia|]. exists s2. split; [by eapply init_blocks_two|]. by apply blocks_swap in Hb2.
  - destruct (init_empty _ _ _ _ _ _ _ [] Hb He) as (s1 & E1 & Hb1); [lia|]. apply blocks_swap in Hb1.
    destruct (init_copies _ _ _ _ _ _ _ [] Hb1 Ho2 Hok Hrec) as (s2 & E2 & Hb2); [lia|]. rewrite decide_False in E2 by done. rewrite decide_False in Hb2 by done. exists s2. split; [by eapply init_blocks_two|done].
Qed.

Theorem init_with_copies d cur img cp :
  contents d = two_blocks cur img (block_img BLK_STATE_CLEAN cp (4092 - log_size cp)) -> Z.of_nat (length img) = 4096 -> empty_img img -> cp <> [] ->
  log_ok BLK_STATE_CLEAN cp (4092 - log_size cp) -> recover (negb cur) [] cp = cp -> orgs_ok (negb cur) img cp -> orgs_ok (negb cur) clean_img cp ->
  exists s', aos_kv_init (kv_mgr_zero d) = (RES_OK, s') /\ kv_rep s' (negb cur) BLK_STATE_DIRTY cp (4092 - log_size cp) /\
    gc_triggered s' = if 4092 - log_size cp <? ITEM_MAX_LEN then 1 else 0.
Proof.
  intros Hc Hl He Hne Hok Hrec Ho1 Ho2. pose proof (zero_blocks d _ _ _ Hc Hl (length_img BLK_STATE_CLEAN _ _ _ Hok)) as Hb.
  destruct (init_blocks_copies _ _ _ _ _ _ Hb He Hne Hok Hrec Ho1 Ho2) as (s1 & E1 & Hb1). destruct (init_unclean_dirty _ _ _ _ _ _ _ _ Hb1) as (s2 & E2 & Hb2).
  eapply (kv_init_ok d _ _ s2); [done|done| |by right|done]. by destruct Hok.
Qed.

(** Nothing on the flash: the first block is used. *)
Theorem init_fresh d cur img other :
  contents d = two_blocks cur img other -> Z.of_nat (length img) = 4096 -> Z.of_nat (length other) = 4096 -> empty_img img -> empty_img other ->
  exists s', aos_kv_init (kv_mgr_zero d) = (RES_OK, s') /\ kv_rep s' false BLK_STATE_USED [] 4092 /\ gc_triggered s' = 0.
Proof.
  intros Hc Hl Hlo He Heo. assert (Hb : exists i o, blocks (kv_mgr_zero d) false i o {| space := 0; b_state := 0 |} {| space := 0; b_state := 0 |} 0 /\ empty_img i /\ empty_img o).
  { destruct cur; [exists other, img|exists img, other]; split_and!; done || by apply zero_blocks. }
  destruct Hb as (i & o & Hb & Hi & Ho). destruct (init_empty _ _ _ _ _ _ _ [] Hb Hi) as (s1 & E1 & Hb1); [lia|]. apply blocks_swap in Hb1.
  destruct (init_empty _ _ _ _ _ _ _ [] Hb1 Ho) as (s2 & E2 & Hb2); [lia|]. apply blocks_swap in Hb2. cbn [negb] in *. pose proof (init_blocks_two _ _ _ _ _ _ E1 E2) as E3.
  destruct Hb2 as [Hc2 Hl2 Ho2 Hi2 Hn2 Hm2 Hg2]. pose (s3 := s2 <| write_pos := BLK_HEADER_SIZE |>).
  destruct (set_blk_state s3 false BLK_STATE_CLEAN BLK_STATE_USED [] 4092 clean_img Hl2 Hc2 Ho2) as (d3 & E4 & Hw).
  eexists (started _). split.
  - unfold aos_kv_init. cbn [kv_initialize kv_mgr_zero]. change (negb (0 =? 0)) with false. change (BLK_NUMS <=? KV_GC_RESERVED) with false. cbn iota.
    change (_ <| mallocs := _ |>) with (kv_mgr_zero d). unfold kv_init. rewrite E3. cbn [init_unclean]. rewrite Hn2. change (0 + 1 + 1 =? 0) with false. cbn iota. rewrite decide_False by tauto.
    rewrite Hn2. change (0 + 1 + 1 =? BLK_NUMS) with true. cbn iota. fold s3. change (Z.land (write_pos s3) BLK_OFF_MASK) with (base false). rewrite E4, decide_False by tauto. done.
  - eapply started_rep; [|done]. split; [apply empty_log_ok|exact (proj1 Hw)| |done| |done|by left].
    + eapply (set_state_two _ false). exact Hi2.
    + unfold set_state. rsimpl. change (clean_blk_nums s3) with (clean_blk_nums s2). by rewrite Hn2.
Qed.
End Init.
