(* ===== verification/KvCrash.v ===== *)
(** * Loss of power

    The flash can lose power after any write or erasure; its [journal] holds what it then
    holds.  Starting again on such contents gives a store with the map before or after the
    call that was interrupted, as long as the items were collected at most once since the
    flash was formatted: their [origin_off]s then name older versions of them or places in
    the clean block. *)
From stdpp Require Import gmap.
From S2P Require Import Prelude KTypes Kv KvLog KvFind KvOps KvSpec KvRecover.
Local Open Scope Z_scope.

(** ** Where the origins point *)
Lemma orgs_mono cur other es : orgs_ok cur [] es -> orgs_ok cur other es.
Proof.
  intros Ho pre e post He Hd. destruct (Ho pre e post He Hd) as [?|(a & x & b & E & Hx & _)|l e0 m ? ? ?]; [by apply org_none| |by eapply org_here].
  apply (f_equal length) in E. rewrite !length_app in E. cbn in E. lia.
Qed.

Lemma middle_split {A} (pre post l r : list A) (y x : A) : pre ++ y :: post = l ++ x :: r ->
  (exists r', pre = l ++ x :: r' /\ r = r' ++ y :: post) \/ (l = pre /\ x = y /\ r = post) \/ (exists l', l = pre ++ y :: l' /\ post = l' ++ x :: r).
Proof.
  revert l. induction pre as [|z pre IH]; intros [|w l]; cbn [app]; intros [= E1 E2].
  - right. left. by subst.
  - right. right. exists l. by subst.
  - left. exists pre. by subst.
  - subst w. destruct (IH l E2) as [(r' & -> & ->)|[(-> & -> & ->)|(l' & -> & ->)]]; [left; by exists r'|right; by left|right; right; by exists l'].
Qed.

Lemma orgs_snoc cur other es e : orgs_ok cur other es -> org_ok cur other es e -> orgs_ok cur other (es ++ [e]).
Proof.
  intros Ho He pre e' post E Hd. destruct (middle_split _ _ _ _ _ _ E) as [(r' & -> & _)|[(-> & -> & ->)|(l' & _ & E')]]; [by eapply Ho|done|by destruct l'].
Qed.

Lemma orgs_mark cur other pre e post : orgs_ok cur other (pre ++ e :: post) -> orgs_ok cur other (pre ++ mark e :: post).
Proof.
  intros Ho l x r E Hd. destruct (middle_split _ _ _ _ _ _ E) as [(r' & -> & _)|[(-> & -> & ->)|(l' & -> & ->)]]; [|done|].
  - eapply (Ho l x (r' ++ e :: post)); [by rewrite <- app_assoc|done].
  - eapply org_ok_shape; [|eapply (Ho (pre ++ e :: l') x r); [by rewrite <- app_assoc|done]]. apply Forall2_app; [apply shape_refl|]. constructor; [done|apply shape_refl].
Qed.

(** ** Unique keys *)
Lemma uniq_settled es : uniq es -> settled es.
Proof.
  intros Hu l e0 m e post -> Hd Hk. destruct (e_del e0) eqn:Hd0; [done|]. unfold uniq in Hu. rewrite live_app, live_cons, Hd0, live_app, live_cons, Hd in Hu.
  rewrite fmap_app in Hu. apply NoDup_app in Hu as (_ & _ & Hu). rewrite fmap_cons in Hu. apply NoDup_cons in Hu as [Hn _]. destruct Hn. rewrite fmap_app, fmap_cons, Hk. set_solver.
Qed.

Lemma live_in es e : e ∈ live es <-> e ∈ es /\ e_del e = false.
Proof. unfold live. rewrite list_elem_of_filter. tauto. Qed.

(** ** Places where nothing begins *)
Lemma blank_cut (n : nat) k : 0 <= k -> k + 8 <= Z.of_nat n -> replicate n 255 = blank k ++ replicate 8 255 ++ blank (Z.of_nat n - 8 - k).
Proof. intros. unfold blank. rewrite <- !replicate_add. f_equal. lia. Qed.

Lemma blank_silent cur k : 0 <= k <= 4084 -> silent cur clean_img (base (negb cur) + 4 + k) /\ silent cur (replicate 4096 0xFF) (base (negb cur) + 4 + k).
Proof.
  intros Hk. split.
  - exists (blk_head BLK_STATE_CLEAN ++ blank k), (replicate 8 255), (blank (Z.of_nat (Z.to_nat 4092) - 8 - k)). split_and!; [|done| | |by left].
    + unfold clean_img, block_img. cbn [log_bytes fmap list_fmap concat]. rewrite (blank_cut (Z.to_nat 4092) k) by lia. by rewrite app_nil_l, <- app_assoc.
    + rewrite length_app. unfold blank. rewrite length_replicate. cbn [length blk_head]. lia.
    + rewrite length_app. cbn [length blk_head]. lia.
  - exists (blank (4 + k)), (replicate 8 255), (blank (Z.of_nat 4096 - 8 - (4 + k))). split_and!; [|done| | |by left].
    + by apply blank_cut; lia.
    + unfold blank. rewrite length_replicate. lia.
    + unfold blank. rewrite length_replicate. lia.
Qed.

Lemma deleted_silent cur st st' l e0 m sp : log_ok st' (l ++ e0 :: m) sp -> e_del e0 = true -> silent (negb cur) (block_img st (l ++ e0 :: m) sp) (pos_of cur l).
Proof.
  intros Hok Hd. pose proof (log_ok_mid _ _ _ _ _ Hok) as (Hl & _ & _ & Hl0 & _). rewrite img_split. unfold ebytes. rewrite <- !(app_assoc (hdr_bytes _)).
  eexists _, _, _. split; [done|]. split_and!; [done| | |].
  - rewrite negb_involutive, length_head by done. unfold pos_of. lia.
  - rewrite length_head by done. lia.
  - right. rewrite bytes_hdr_bytes. cbn [ehdr i_state]. unfold estate. by rewrite Hd.
Qed.

Section Crash.
Context {F : Type} `{FlashOk F}.
Implicit Types (s : kv_mgr_t F) (a : kvs) (cur : bool) (m : gmap (list Z) (list Z)).

(** Starting on the contents [c] gives a store with the map [m]. *)
Definition recovers m (c : list Z) : Prop :=
  forall d : F, contents d = c -> exists s a, aos_kv_init (kv_mgr_zero d) = (RES_OK, s) /\ stands s a /\ kv_map a = m.

Lemma rep_recovers d s cur st es sp : aos_kv_init (kv_mgr_zero d) = (RES_OK, s) -> kv_rep s cur st es sp -> (gc_triggered s = if sp <? ITEM_MAX_LEN then 1 else 0) -> uniq es ->
  exists s a, aos_kv_init (kv_mgr_zero d) = (RES_OK, s) /\ stands s a /\ kv_map a = kvmap es.
Proof.
  intros E Hr Hg Hu. exists s, {| kv_map := kvmap es; kv_free := sp; kv_gc := negb (gc_triggered s =? 0) |}. split_and!; [done| |done]. split; [|done]. by exists cur, st, es.
Qed.

(** ** A log and a clean block *)
Lemma no_copies cur es sp : copies_ok cur es sp [].
Proof. split; [apply empty_log_ok|]. split; [done|]. intros st. split; apply orgs_nil. Qed.

Lemma log_recovers cur es sp c : log_ok BLK_STATE_CLEAN es sp -> orgs_ok cur clean_img es -> uniq (recover cur [] es) -> any_state cur es sp c -> recovers (kvmap (recover cur [] es)) c.
Proof.
  intros Hok Horg Hu (st & Hst & ->) d Hd. destruct (init_with_log d cur st es sp [] Hd Horg Hok Hst (no_copies _ _ _)) as (s' & st' & E & Hr & Hg). by eapply rep_recovers.
Qed.

Lemma settled_recovers cur es sp c : log_ok BLK_STATE_CLEAN es sp -> orgs_ok cur clean_img es -> uniq es -> any_state cur es sp c -> recovers (kvmap es) c.
Proof.
  intros Hok Horg Hu Hc. pose proof (recover_settled cur clean_img _ es sp [] es Horg (uniq_settled _ Hu) Hok length_clean eq_refl) as Hrec.
  rewrite <- Hrec at 1. eapply log_recovers; [done|done|by rewrite Hrec|done].
Qed.

(** The new version is written and the old one is not yet marked. *)
Lemma update_recovers cur l e0 post e sp c :
  log_ok BLK_STATE_CLEAN ((l ++ e0 :: post) ++ [e]) sp -> log_ok BLK_STATE_CLEAN (l ++ e0 :: post) (sp + esize e) -> orgs_ok cur clean_img (l ++ e0 :: post) -> uniq (l ++ e0 :: post) ->
  e_del e0 = false -> e_del e = false -> e_key e = e_key e0 -> e_org e = pos_of cur l -> any_state cur ((l ++ e0 :: post) ++ [e]) sp c ->
  recovers (<[e_key e := e_val e]> (kvmap (l ++ e0 :: post))) c.
Proof.
  intros Hok Hok0 Horg Hu Hd0 Hd Hk Ho Hc. pose proof (recover_update _ _ _ _ _ _ _ _ Horg (uniq_settled _ Hu) Hok0 length_clean Hd Ho) as Hrec.
  destruct (uniq_update _ _ _ e Hu Hd0 Hd Hk) as [Hu' <-]. rewrite <- Hrec. eapply log_recovers; [done| |by rewrite Hrec|done].
  apply orgs_snoc; [done|]. by eapply org_here; [done|done|].
Qed.

(** ** The collection *)
Section Collect.
Context (cur : bool) (es : list entry) (sp : Z).
Context (Hok : log_ok BLK_STATE_DIRTY es sp) (Horg : orgs_ok cur [] es) (Hu : uniq es).

(** The origin of a live item is nothing, or an item that is marked. *)
Lemma live_origin e : e ∈ live es -> e_org e = 0 \/ exists l e0 r, es = l ++ e0 :: r /\ e_org e = pos_of cur l /\ e_del e0 = true.
Proof.
  intros [He Hd]%live_in. apply list_elem_of_split in He as (pre & post & E). destruct (Horg pre e post E Hd) as [?|(a & x & b & Ex & Hx & _)|l e0 m -> Ho Hk]; [by left| |].
  - apply (f_equal length) in Ex. rewrite !length_app in Ex. cbn in Ex. lia.
  - right. exists l, e0, (m ++ e :: post). rewrite <- app_assoc in E. split_and!; [done|done|]. by eapply (uniq_settled _ Hu); [exact E|..].
Qed.

Lemma copies_orgs other cp : (forall e, e ∈ cp -> e ∈ live es) ->
  (forall l e0 r, es = l ++ e0 :: r -> e_del e0 = true -> silent (negb cur) other (pos_of cur l)) -> orgs_ok (negb cur) other cp.
Proof.
  intros Hcp Hs pre e post -> Hd. destruct (live_origin e) as [?|(l & e0 & r & E & Ho & Hd0)]; [apply Hcp; set_solver|by apply org_none|]. apply org_other. rewrite Ho. by eapply Hs.
Qed.

Lemma silent_log st l e0 r : es = l ++ e0 :: r -> e_del e0 = true -> silent (negb cur) (block_img st es sp) (pos_of cur l).
Proof. intros E Hd. rewrite E. eapply deleted_silent; [|done]. by rewrite <- E. Qed.

Lemma silent_blank l e0 r : es = l ++ e0 :: r -> silent (negb cur) clean_img (pos_of cur l) /\ silent (negb cur) (replicate 4096 0xFF) (pos_of cur l).
Proof.
  intros E. rewrite E in Hok. pose proof (log_ok_mid _ _ _ _ _ Hok) as (_ & He & _ & Hl & Hl' & Hsz & Hsp). pose proof (esize_spec e0 He).
  pose proof (blank_silent (negb cur) (log_size l)) as Hb. rewrite negb_involutive in Hb. apply Hb. lia.
Qed.

Lemma live_prefix_ok pre post : es = pre ++ post -> log_ok BLK_STATE_CLEAN (live pre) (4092 - log_size (live pre)) /\ uniq (live pre) /\ (forall e, e ∈ live pre -> e ∈ live es).
Proof.
  intros E. rewrite E in Hok, Hu. destruct Hok as [Hf Hs Hsp _]. apply Forall_app in Hf as [Hf Hf']. rewrite log_size_app in Hs. pose proof (live_size pre Hf). pose proof (log_size_nonneg post Hf').
  split_and!.
  - split; [by apply live_ok|lia|lia|done].
  - apply uniq_live. unfold uniq in *. rewrite live_app, fmap_app in Hu. by apply NoDup_app in Hu as (? & _).
  - intros e He. rewrite E, live_app. set_solver.
Qed.

Lemma recover_same : recover cur [] es = es.
Proof. eapply recover_settled; [by eapply (orgs_mono cur clean_img)|by apply uniq_settled|done|apply length_clean|done]. Qed.

Lemma recover_copies pre post : es = pre ++ post -> recover (negb cur) [] (live pre) = live pre.
Proof.
  intros E. destruct (live_prefix_ok pre post E) as (Hlok & Hlu & Hin).
  eapply (recover_settled _ (block_img BLK_STATE_CLEAN es sp)); [|by apply uniq_settled|done|by eapply length_img|done]. apply copies_orgs; [done|]. intros. by eapply silent_log.
Qed.

Lemma copying_recovers pre post : es = pre ++ post -> recovers (kvmap es) (two_blocks cur (block_img BLK_STATE_DIRTY es sp) (copy_img pre)).
Proof.
  intros E d Hd. destruct (live_prefix_ok pre post E) as (Hlok & Hlu & Hin).
  destruct (init_with_log d cur BLK_STATE_DIRTY es sp (live pre) Hd) as (s' & st' & Ei & Hr & Hg); [by apply orgs_mono|by destruct Hok|by right| |].
  - split; [done|]. split; [by eapply recover_copies|]. intros st. rewrite recover_same. split; apply copies_orgs; done || (intros; by eapply silent_log).
  - rewrite recover_same in Hr. by eapply rep_recovers.
Qed.

Lemma copied_recovers img : img = replicate 4096 0xFF \/ img = clean_img -> recovers (kvmap es) (two_blocks cur img (copy_img es)).
Proof.
  intros Himg d Hd. destruct (live_prefix_ok es []) as (Hlok & Hlu & Hin); [by rewrite app_nil_r|]. rewrite <- kvmap_live.
  assert (He : empty_img img) by (destruct Himg as [-> | ->]; [left; exists 255, 255, 255, 255, (replicate 4092 255); split; [done|by left]|by right]).
  assert (Hl : Z.of_nat (length img) = 4096) by (destruct Himg as [-> | ->]; [by rewrite length_replicate|apply length_clean]).
  destruct (decide (live es = [])) as [E0|Hne].
  - unfold copy_img in Hd. rewrite E0 in *. destruct (init_fresh d cur img _ Hd Hl length_clean He) as (s' & E & Hr & Hg); [by right|]. by eapply rep_recovers.
  - destruct (init_with_copies d cur img (live es) Hd Hl He Hne Hlok) as (s' & E & Hr & Hg); [eapply recover_copies; by rewrite app_nil_r| | |by eapply rep_recovers].
    + apply copies_orgs; [done|]. intros l e0 r El _. destruct (silent_blank l e0 r El). by destruct Himg as [-> | ->].
    + apply copies_orgs; [done|]. intros l e0 r El _. by apply (silent_blank l e0 r El).
Qed.

Lemma aged_orgs : orgs_ok (negb cur) clean_img (live es).
Proof. apply copies_orgs; [done|]. intros l e0 r El _. by apply (silent_blank l e0 r El). Qed.

Lemma phase_recovers c : gc_phase cur es sp c -> recovers (kvmap es) c.
Proof.
  intros [pre post E| | |]; [by eapply copying_recovers|apply copied_recovers; by left|apply copied_recovers; by right|].
  destruct (live_prefix_ok es []) as (Hlok & Hlu & _); [by rewrite app_nil_r|]. rewrite <- kvmap_live. eapply settled_recovers; [exact Hlok|apply aged_orgs|done|].
  exists BLK_STATE_USED. split; [by left|]. by rewrite two_blocks_swap.
Qed.
End Collect.

(** ** Calls *)

(** The store stands for [a], and the origins of its items are fit for a start when the
    clean block holds [other]. *)
Record kept (other : list Z) s a : Prop := {
  kp_log : exists cur st es, kv_rep s cur st es (kv_free a) /\ uniq es /\ kv_map a = kvmap es /\ orgs_ok cur other es;
  kp_gc : kv_gc a = negb (gc_triggered s =? 0);
}.

Lemma kept_stands other s a : kept other s a -> stands s a.
Proof. intros [(cur & st & es & ? & ? & ? & _) ?]. split; [by exists cur, st, es|done]. Qed.

Lemma log_ok_clean st es sp : log_ok st es sp -> log_ok BLK_STATE_CLEAN es sp.
Proof. by intros []. Qed.

(** [other] is nothing, for items never collected, or a clean block. *)
Definition origins (other : list Z) : Prop := other = [] \/ other = clean_img.

Lemma orgs_clean other cur es : origins other -> orgs_ok cur other es -> orgs_ok cur clean_img es.
Proof. intros [-> | ->]; [apply orgs_mono|done]. Qed.

Lemma log_set_orgs other cur es sp key val r es' sp' g : log_set cur es sp key val r es' sp' g -> orgs_ok cur other es -> orgs_ok cur other es'.
Proof.
  intros [Hl|? Hn Hs ->|pre e post ? -> Hd <- Hl Hne Hs ->|Hl Hs] Ho; [done| | |done].
  - apply orgs_snoc; [done|by apply org_none].
  - rewrite app_comm_cons, app_assoc. apply orgs_snoc; [by apply orgs_mark|]. by eapply org_here.
Qed.

Lemma set_phase_recovers other cur es sp key val r es' sp' g st st' c :
  origins other -> log_ok st es sp -> log_ok st' es' sp' -> uniq es -> orgs_ok cur other es -> log_set cur es sp key val r es' sp' g -> set_phase cur es key val es' sp' c -> recovers (kvmap es') c.
Proof.
  intros Hoth Hok Hok' Hu Ho Hls [Hc|(pre & e & post & -> & Hd & <- & -> & Hc)]; destruct (log_set_map _ _ _ _ _ _ _ _ _ Hls Hu) as [Hu' Hm'].
  - eapply settled_recovers; [by eapply log_ok_clean|by eapply orgs_clean, log_set_orgs|done|done].
  - destruct (uniq_update _ _ _ (new_entry (e_key e) val (pos_of cur pre)) Hu Hd eq_refl eq_refl) as [_ ->].
    assert (Hsh : shape (pre ++ mark e :: post ++ [new_entry (e_key e) val (pos_of cur pre)]) ((pre ++ e :: post) ++ [new_entry (e_key e) val (pos_of cur pre)])).
    { rewrite <- app_assoc. apply Forall2_app; [apply shape_refl|]. constructor; [done|apply shape_refl]. }
    eapply update_recovers; [eapply log_ok_shape; [exact Hsh|done|done]| |by eapply orgs_clean|done|done|done|done|done|done].
    pose proof (lo_size _ _ _ Hok) as Hs1. pose proof (lo_size _ _ _ Hok') as Hs2. pose proof (lo_space _ _ _ Hok). rewrite <- (proj1 (shape_size _ _ Hsh)), !log_size_app in Hs2.
    destruct Hok as [? ? ? _]. split; [done| | |done]; rewrite log_size_app in *; cbn [log_size foldr] in *; lia.
Qed.

Lemma kept_set other s a key val : origins other -> kept other s a -> spec_invalid key val = false ->
  exists s', kv_set_locked key val s = ((spec_write key val a).1, s') /\ kept other s' (spec_write key val a).2 /\
    grows (recovers (kv_map (spec_write key val a).2)) (dev s) (dev s').
Proof.
  intros Hoth [(cur & st & es & Hr & Hu & Hm & Ho) Hg] Hv. destruct (set_step _ _ _ _ _ key val Hr Hv) as (r & s' & E & st' & es' & sp' & g & Hr' & Hls & Hj & Hg'). exists s'.
  rewrite E, (spec_write_log _ _ _ _ _ _ _ _ _ Hls Hu Hm). split; [done|]. split; [split; [|by rewrite Hg', <- Hg]|].
  - exists cur, st', es'. split_and!; [done|by eapply log_set_map|done|by eapply log_set_orgs].
  - eapply grows_mono; [|exact Hj]. intros c Hc. by eapply set_phase_recovers; [done|exact (k_log _ _ _ _ _ Hr)|exact (k_log _ _ _ _ _ Hr')|..].
Qed.

Lemma kept_del other s a key : origins other -> kept other s a ->
  exists s', aos_kv_del key s = ((spec_del key a).1, s') /\ kept other s' (spec_del key a).2 /\ grows (recovers (kv_map (spec_del key a).2)) (dev s) (dev s').
Proof.
  intros Hoth Hs. pose proof Hs as [(cur & st & es & Hr & Hu & Hm & Ho) Hg]. pose proof (del_step _ _ _ _ _ key Hr) as Hd. unfold spec_del. rewrite Hm, kvmap_lookup.
  destruct (first_live key es) as [[pre e]|]; cbn [fmap option_fmap option_map]; [|exists s; split; [done|split; [done|apply grows_refl]]].
  destruct Hd as (post & s' & -> & Hd & <- & -> & Hr' & Hg' & Hj). exists s'. destruct (uniq_mark _ _ _ Hu Hd) as [Hu' Hm'].
  split; [done|]. cbn [snd kv_map kv_free kv_gc]. split; [split; cbn [kv_map kv_free kv_gc]; [|by rewrite Hg']|].
  - eexists _, _, _. split_and!; [done|done|done|by apply orgs_mark].
  - eapply grows_mono; [|exact Hj]. intros c Hc. rewrite <- Hm'. eapply settled_recovers; [eapply log_ok_clean, (k_log _ _ _ _ _ Hr')|by eapply orgs_clean, orgs_mark|done|done].
Qed.

(** Starting again between two calls. *)
Lemma kept_restart other s a : origins other -> kept other s a ->
  exists s', aos_kv_init (kv_mgr_zero (dev s)) = (RES_OK, s') /\ stands s' {| kv_map := kv_map a; kv_free := kv_free a; kv_gc := kv_free a <? ITEM_MAX_LEN |}.
Proof.
  intros Hoth [(cur & st & es & Hr & Hu & Hm & Ho) _]. pose proof (log_ok_clean _ _ _ (k_log _ _ _ _ _ Hr)) as Hok. pose proof (orgs_clean _ _ _ Hoth Ho) as Hoc.
  pose proof (recover_settled cur clean_img _ es _ [] es Hoc (uniq_settled _ Hu) Hok length_clean eq_refl) as Hrec.
  destruct (init_with_log (dev s) cur st es (kv_free a) [] (k_contents _ _ _ _ _ Hr) Hoc Hok (k_state _ _ _ _ _ Hr) (no_copies _ _ _)) as (s' & st' & E & Hr' & Hg).
  exists s'. split; [done|]. rewrite Hrec in Hr'. split; [by exists cur, st', es|]. rewrite Hg. cbn [kv_gc]. by case_match.
Qed.

Lemma kept_gc s a : kept [] s a -> kept clean_img (aos_kv_gc s) (spec_gc a) /\ grows (recovers (kv_map a)) (dev s) (dev (aos_kv_gc s)).
Proof.
  intros [(cur & st & es & Hr & Hu & Hm & Ho) Hg]. destruct (gc_spec _ _ _ _ _ Hr) as (Hg' & Hj & st' & Hr'). pose proof (k_log _ _ _ _ _ Hr) as Hok.
  destruct (Z.eqb_spec st BLK_STATE_DIRTY) as [->|Hst].
  - split; [split; [|by rewrite Hg']|].
    + exists (negb cur), st', (live es). cbn [spec_gc kv_map kv_free]. rewrite kvmap_live, Hm, (map_size_kvmap _ Hu). split_and!; [done|by apply uniq_live|done|by eapply aged_orgs].
    + eapply grows_mono; [|exact Hj]. intros c [_ Hc]. rewrite Hm. by eapply phase_recovers.
  - split; [split; [|by rewrite Hg']|].
    + exists cur, st', es. cbn [spec_gc kv_map kv_free]. rewrite Hm, (map_size_kvmap _ Hu). split_and!; [done|done|done|by apply orgs_mono].
    + eapply grows_mono; [|exact Hj]. by intros c [? _].
Qed.

(** A call other than the collection keeps the origins as they are; the first collection
    makes them point to the clean block. *)
Definition is_gc (o : kv_op) : bool := match o with KGc => true | _ => false end.

Definition either (m m' : gmap (list Z) (list Z)) (c : list Z) : Prop := recovers m c \/ recovers m' c.

Lemma kept_step other o s a : origins other -> kept other s a -> (is_gc o = true -> other = []) ->
  exists s', kv_step o s = ((spec_step o a).1, s') /\ kept (if is_gc o then clean_img else other) s' (spec_step o a).2 /\
    grows (either (kv_map a) (kv_map (spec_step o a).2)) (dev s) (dev s').
Proof.
  intros Hoth Hs Hgc. assert (Hright : forall m' s', grows (recovers m') (dev s) (dev s') -> grows (either (kv_map a) m') (dev s) (dev s')) by (intros m' s'; apply grows_mono; by right).
  destruct o as [key val|key val|key|key n|]; cbn [kv_step spec_step is_gc].
  - unfold aos_kv_set, spec_set. fold (spec_invalid key val). destruct (spec_invalid key val) eqn:Hv; [exists s; split; [done|split; [done|apply grows_refl]]|].
    rewrite (kp_gc _ _ _ Hs). destruct (negb (gc_triggered s =? 0)) eqn:Hg.
    + eexists. split; [done|]. split; [|apply grows_refl]. destruct Hs as [(cur & st & es & [] & Hu & Hm & Ho) Hgg]. split; [|done]. exists cur, st, es. by split_and!.
    + destruct (kept_set _ s a key val Hoth Hs Hv) as (s' & -> & Hk & Hj). exists s'. destruct (spec_write key val a). split; [done|]. split; [done|]. by apply Hright.
  - destruct (spec_invalid key val) eqn:Hv; [exists s; split; [done|split; [done|apply grows_refl]]|].
    destruct (kept_set _ s a key val Hoth Hs Hv) as (s' & -> & Hk & Hj). exists s'. destruct (spec_write key val a). split; [done|]. split; [done|]. by apply Hright.
  - destruct (kept_del _ s a key Hoth Hs) as (s' & -> & Hk & Hj). exists s'. destruct (spec_del key a). split; [done|]. split; [done|]. by apply Hright.
  - rewrite (refine_get s a key n (kept_stands _ _ _ Hs)). exists s. split; [done|split; [done|apply grows_refl]].
  - rewrite Hgc in Hs by done. destruct (kept_gc s a Hs) as [Hk Hj]. eexists. split; [done|]. split; [done|]. by apply Hright.
Qed.
End Crash.
