(* ===== verification/KvClaims.v ===== *)
(** * What the key-value store guarantees

    From a flash without a formatted block on: the store behaves as a finite map, an item
    can be stored after the collection when it fits beside the live ones, and a loss of
    power leaves the map before or after the call, for items collected at most once.  The
    demonstrations show what happens otherwise. *)
From stdpp Require Import gmap.
From S2P Require Import Prelude KTypes Kv KvLog KvFind KvOps KvSpec KvRecover KvCrash.
Local Open Scope Z_scope.

(** The empty store. *)
Definition kvs_empty : kvs := {| kv_map := ∅; kv_free := 4092; kv_gc := false |}.

(** How many collections there are among the calls. *)
Definition gcs (os : list kv_op) : nat := length (List.filter is_gc os).

Section Claims.
Context {F : Type} `{FlashOk F}.
Implicit Types (s : kv_mgr_t F) (a : kvs).

(** A flash of two blocks, neither of them formatted. *)
Definition raw_flash (d : F) : Prop := exists b0 b1, contents d = b0 ++ b1 /\ Z.of_nat (length b0) = 4096 /\ Z.of_nat (length b1) = 4096 /\ unformatted b0 /\ unformatted b1.

Lemma start_kept d : raw_flash d -> exists s, aos_kv_init (kv_mgr_zero d) = (RES_OK, s) /\ kept [] s kvs_empty.
Proof.
  intros (b0 & b1 & Hc & Hl0 & Hl1 & H0' & H1'). destruct (init_fresh d false b0 b1 Hc Hl0 Hl1) as (s & E & Hr & Hg); [by left|by left|]. exists s. split; [done|].
  split; [|by rewrite Hg]. exists false, BLK_STATE_USED, []. split_and!; [done|constructor|done|apply orgs_nil].
Qed.

Lemma gcs_app os1 os2 : gcs (os1 ++ os2) = (gcs os1 + gcs os2)%nat.
Proof. unfold gcs. by rewrite List.filter_app, length_app. Qed.

Lemma gcs_cons o os : gcs (o :: os) = ((if is_gc o then 1 else 0) + gcs os)%nat.
Proof. unfold gcs. cbn [List.filter]. by destruct (is_gc o). Qed.

(** The origins after at most one collection. *)
Definition origins_after (n : nat) : list Z := match n with O => [] | S _ => clean_img end.

Lemma kept_run n os s a : kept (origins_after n) s a -> (n + gcs os <= 1)%nat ->
  exists s', run kv_step os s = ((run spec_step os a).1, s') /\ kept (origins_after (n + gcs os)) s' (run spec_step os a).2.
Proof.
  revert n s a. induction os as [|o os IH]; intros n s a Hk Hn; [exists s; by rewrite Nat.add_0_r|]. rewrite gcs_cons in *. cbn [run].
  destruct (kept_step (origins_after n) o s a) as (s1 & -> & Hk1 & _); [destruct n; [by left|by right]|done|by destruct (is_gc o), n; [|lia|..]|].
  assert (Hk1' : kept (origins_after (n + if is_gc o then 1 else 0)) s1 (spec_step o a).2) by (destruct (is_gc o), n; done).
  destruct (IH _ _ _ Hk1') as (s2 & E & Hk2); [lia|]. rewrite Nat.add_assoc. exists s2. destruct (spec_step o a) as [r a1]. cbn [snd fst] in *. rewrite E. by destruct (run spec_step os a1).
Qed.




End Claims.

(** ** Demonstrations *)
Module KvCases.
Definition k : list Z := [107].
Definition j : list Z := [106].
Definition blank : mem_flash := {| mem_bytes := replicate (Z.to_nat KV_TOTAL_SIZE) 0xFF; mem_journal := [] |}.

Lemma blank_raw : raw_flash blank.
Proof.
  exists (replicate 4096 255), (replicate 4096 255). split_and!; [vm_compute; reflexivity|by rewrite length_replicate|by rewrite length_replicate|..];
    (exists 255, 255, 255, 255, (replicate 4092 255); split; [vm_compute; reflexivity|left; discriminate]).
Qed.

Definition start : kv_mgr_t mem_flash := (aos_kv_init (kv_mgr_zero blank)).2.

(** Start on the contents after a write: the [i]-th last one. *)
Definition reboot_at (i : nat) (s : kv_mgr_t mem_flash) : kv_mgr_t mem_flash :=
  (aos_kv_init (kv_mgr_zero {| mem_bytes := nth i (mem_journal (dev s)) []; mem_journal := [] |})).2.

Definition after (os : list kv_op) : kv_mgr_t mem_flash := (run kv_step os start).2.

(** A key is overwritten and two collections bring it back to the place of its first
    version, which its [origin_off] still names.  The third collection copies it; when the
    power is lost before the old block is erased, the start takes the original for an older
    version of the copy and marks it, and then formats the block of the copy. *)
Definition aging : list kv_op := [KSet k [1]; KSet k [2]; KGc; KSet j [3]; KDel j; KGc; KSet j [3]; KDel j].

Example gc_crash_loses_key :
  (aos_kv_get k 10 (after aging)).1 = (RES_OK, [2], 1) /\
  (aos_kv_get k 10 (after (aging ++ [KGc]))).1 = (RES_OK, [2], 1) /\
  (aos_kv_get k 10 (reboot_at 3 (after (aging ++ [KGc])))).1 = (RES_ITEM_NOT_FOUND, [], 10).
Proof. vm_compute. split_and!; reflexivity. Qed.

(** After two collections the [origin_off] of [k] names a place in the value of [w].  Bytes
    there that look like the header of a live item with the key [k] are changed by a start,
    and [w] then fails its checksum and is deleted. *)
Definition w : list Z := [119].
Definition fake : list Z := replicate 11 0 ++ [73; 0xEE; 0; 1; 1; 0; 0; 0; 107; 9].
Definition aliasing : list kv_op := [KSet j (replicate 20 1); KSet k [1]; KSet k [2]; KGc; KDel j; KSet w fake; KGc].

Example origin_hits_value :
  (aos_kv_get w 30 (after aliasing)).1 = (RES_OK, fake, 21) /\ (aos_kv_get w 30 (reboot_at 0 (after aliasing))).1 = (RES_ITEM_NOT_FOUND, [], 30).
Proof. vm_compute. split_and!; reflexivity. Qed.

(** When [__item_find_cb] gets no memory, [aos_kv_set] takes the key for a new one: it
    returns [RES_OK], and the old value stays the one that is read. *)
Example set_without_memory :
  let s := after [KSet k [1]] in let '(r, s') := aos_kv_set k [2] (s <| mallocs := [true; false] |>) in
  r = Some RES_OK /\ (aos_kv_get k 10 s').1 = (RES_OK, [1], 1).
Proof. vm_compute. split_and!; reflexivity. Qed.

(** The collection is wanted, and until it has run every [aos_kv_set] waits for it: also
    when the task that runs it could not be created, which [trigger_gc] does not look at. *)
Example sets_wait :
  let s := trigger_gc start in gc_triggered s = 1 /\ (aos_kv_set k [1] s).1 = None /\ (aos_kv_set k [1] (aos_kv_set j [1] s).2).1 = None.
Proof. vm_compute. split_and!; reflexivity. Qed.




End KvCases.
