(* ===== verification/FlashDrv.v ===== *)
(** * The flash driver of the boards ([flash_l4.c], [flash_port.c])

    The internal flash of the STM32L4 is memory mapped, in two banks of pages of 2048 bytes.
    It is written by double words that were erased before and erased by pages; so a chunk is
    updated by reading its pages, changing them, erasing them and writing them back.
    [flash_port.c] maps offsets in the partitions to addresses; the key-value store has two
    partitions of 4096 bytes, one per block.

    The chip and the vendor library that drives its registers are the interface [Chip]:
    bytes at addresses, page erasure, programming of a double word, and the two bits that
    tell which bank is mapped first.  The partition table is a parameter.  The bytes in
    memory at and behind a source buffer are a function of the offset: [FLASH_update] may
    read behind the end of its buffer. *)
From S2P Require Import Prelude KTypes Kv.
Local Open Scope Z_scope.

Definition FLASH_BASE : Z := 0x08000000.
(** The size register of the STM32L496AG reads 1024 (kilobytes). *)
Definition FLASH_SIZE : Z := Z.shiftl 0x400 10.
Definition FLASH_BANK_SIZE : Z := Z.shiftr FLASH_SIZE 1.
Definition FLASH_PAGE_SIZE : Z := 0x800.
Definition FLASH_BANK_1 : Z := 1.
Definition FLASH_BANK_2 : Z := 2.

Definition ROUND_DOWN (a b : Z) : Z := a / b * b.
(** Conversion of an unsigned to a signed integer: [remaining] is an [int]. *)
Definition to_int (x : Z) : Z := if x <? 2 ^ 31 then x else x - 2 ^ 32.
Definition MIN (a b : Z) : Z := if a <? b then a else b.

(** The partitions the code names. *)
Definition HAL_PARTITION_PARAMETER_1 : Z := 5.
Definition HAL_PARTITION_PARAMETER_4 : Z := 8.
Definition CONFIG_AOS_KV_PTN : Z := 6.
Definition CONFIG_AOS_KV_SECOND_PTN : Z := 7.
Definition CONFIG_AOS_KV_PTN_SIZE : Z := 4096.

Record hal_logic_partition_t := { partition_start_addr : Z; partition_length : Z }.

Class Chip (C : Type) := {
  chip_byte : Z -> C -> Z;                              (** the byte at an address *)
  HAL_FLASHEx_Erase : Z -> Z -> Z -> C -> bool * C;     (** bank, first page, number of pages *)
  HAL_FLASH_Program : Z -> list Z -> C -> bool * C;     (** address and eight bytes *)
  chip_fb_mode : C -> bool;                             (** [SYSCFG_MEMRMP_FB_MODE]: the banks are swapped *)
  chip_bfb2 : C -> bool;                                (** the option byte [OB_BFB2_ENABLE] *)
}.

Section Driver.
Context {C : Type} `{Chip C}.
Implicit Types (c : C) (address addr len_bytes size : Z).

Definition chip_bytes addr (n : nat) c : list Z := (fun i => chip_byte (addr + Z.of_nat i) c) <$> seq 0 n.

(** ** [flash_l4.c] *)
Definition FLASH_get_bank addr c : Z :=
  if negb (chip_fb_mode c) then if addr <? FLASH_BASE + FLASH_BANK_SIZE then FLASH_BANK_1 else FLASH_BANK_2
  else if addr <? FLASH_BASE + FLASH_BANK_SIZE then FLASH_BANK_2 else FLASH_BANK_1.

Definition FLASH_get_pageInBank addr : Z :=
  if (addr <? FLASH_BASE + FLASH_SIZE) && (FLASH_BASE <=? addr) then
    if addr <? FLASH_BASE + FLASH_BANK_SIZE then (addr - FLASH_BASE) / FLASH_PAGE_SIZE
    else (addr - FLASH_BASE - FLASH_BANK_SIZE) / FLASH_PAGE_SIZE
  else -1.

Definition FLASH_unlock_erase address len_bytes c : Z * C :=
  let banks := FLASH_get_bank address c in
  if negb (banks =? FLASH_get_bank (wrap32 (address + len_bytes)) c) then (-1, c)
  else
    let page := wrap32 (FLASH_get_pageInBank address) in
    let nb_pages := wrap32 (FLASH_get_pageInBank (wrap32 (address + len_bytes - 1)) - page + 1) in
    let '(ok, c) := HAL_FLASHEx_Erase banks page nb_pages c in
    (if ok then 0 else -1, c).

(** Programming stops at the first double word that fails. *)
Fixpoint program_loop address (words : list (list Z)) c : C :=
  match words with
  | [] => c
  | w :: words =>
      let '(ok, c) := HAL_FLASH_Program address w c in
      if ok then program_loop (address + 8) words c else c
  end.

(** The check of the words: [ret] is set at every word that is right, and kept at the first
    one that is not. *)
Fixpoint check_loop address (words : list (list Z)) (ret : Z) c : Z :=
  match words with
  | [] => ret
  | w :: words => if decide (chip_bytes address 4 c = w) then check_loop (address + 4) words 0 c else ret
  end.

(** The [n]-byte words of a buffer. *)
Fixpoint words_of (fuel : nat) (n : nat) (l : list Z) : list (list Z) :=
  match fuel with
  | O => []
  | S fuel => if decide (l = []) then [] else take n l :: words_of fuel n (drop n l)
  end.

Definition FLASH_write_at address (pData : list Z) c : Z * C :=
  let c := program_loop address (words_of (length pData) 8 pData) c in
  (check_loop address (words_of (length pData) 4 pData) (-1) c, c).

(** One page: load it, change it, erase it, write it. *)
Definition update_page (dst_addr : Z) (src : Z -> Z) (len : Z) c : Z * C :=
  let fl_addr := ROUND_DOWN dst_addr FLASH_PAGE_SIZE in
  let fl_offset := dst_addr - fl_addr in
  let page_cache := chip_bytes fl_addr (Z.to_nat FLASH_PAGE_SIZE) c in
  let page_cache := overwrite fl_offset ((fun i => src (Z.of_nat i)) <$> seq 0 (Z.to_nat len)) page_cache in
  let '(ret, c) := FLASH_unlock_erase fl_addr FLASH_PAGE_SIZE c in
  if negb (ret =? 0) then (ret, c) else FLASH_write_at fl_addr page_cache c.

(** [len] is computed from [size], not from what remains. *)
Fixpoint update_loop (fuel : nat) (dst_addr : Z) (src : Z -> Z) (remaining size : Z) c : Z * C :=
  match fuel with
  | O => (-1, c)
  | S fuel =>
      let len := MIN (FLASH_PAGE_SIZE - (dst_addr - ROUND_DOWN dst_addr FLASH_PAGE_SIZE)) size in
      let '(ret, c) := update_page dst_addr src len c in
      if negb (ret =? 0) then (ret, c)
      else if 0 <? remaining - len then update_loop fuel (wrap32 (dst_addr + len)) (fun i => src (len + i)) (remaining - len) size c
      else (ret, c)
  end.

(** A round for every page the chunk can touch. *)
Definition update_fuel size : nat := Z.to_nat (size / FLASH_PAGE_SIZE + 2).

Definition FLASH_update (dst_addr : Z) (data : Z -> Z) size c : Z * C := update_loop (update_fuel size) dst_addr data (to_int size) size c.

(** Whole words are copied: the bytes that are written to the buffer. *)
Definition FLASH_read_at address len_bytes c : list Z := chip_bytes address (4 * Z.to_nat ((len_bytes + 3) / 4)) c.

Definition FLASH_bank1_enabled c : bool := negb (chip_bfb2 c).

(** ** [flash_port.c] *)
Section Port.
Context (hal_partitions : Z -> hal_logic_partition_t).
Implicit Types (pno off : Z).

Definition hal_flash_get_info pno : hal_logic_partition_t := hal_partitions pno.

(** The partition and the offset in it; the prologue of the three functions. *)
Definition real_partition pno off c : Z * Z :=
  let '(pno, off) := if (pno =? CONFIG_AOS_KV_PTN) && (CONFIG_AOS_KV_PTN_SIZE <=? off) then (CONFIG_AOS_KV_SECOND_PTN, off - CONFIG_AOS_KV_PTN_SIZE) else (pno, off) in
  let real_pno :=
    if negb (FLASH_bank1_enabled c) then
      if pno =? CONFIG_AOS_KV_PTN then HAL_PARTITION_PARAMETER_4
      else if pno =? CONFIG_AOS_KV_SECOND_PTN then HAL_PARTITION_PARAMETER_1 else pno
    else pno in
  (real_pno, off).

(** The status, the new offset and the chip. *)
Definition port_flash_write pno off (buf : Z -> Z) (buf_size : Z) c : Z * Z * C :=
  let '(real_pno, off) := real_partition pno off c in
  let start_addr := wrap32 (partition_start_addr (hal_flash_get_info real_pno) + off) in
  let '(_, c) := FLASH_update start_addr buf buf_size c in
  (0, wrap32 (off + buf_size), c).

(** The status, the new offset and the bytes written to the buffer. *)
Definition port_flash_read pno off (buf_size : Z) c : Z * Z * list Z :=
  let '(real_pno, off) := real_partition pno off c in
  let info := hal_flash_get_info real_pno in
  if partition_length info <? wrap32 (off + buf_size) then (-1, off, [])
  else (0, wrap32 (off + buf_size), FLASH_read_at (wrap32 (partition_start_addr info + off)) buf_size c).

Definition port_flash_erase pno off size c : Z * C :=
  let '(real_pno, off) := real_partition pno off c in
  let info := hal_flash_get_info real_pno in
  if partition_length info <? wrap32 (size + off) then (-1, c)
  else
    let start_addr := ROUND_DOWN (wrap32 (partition_start_addr info + off)) FLASH_PAGE_SIZE in
    (0, (FLASH_unlock_erase start_addr size c).2).
End Port.
End Driver.
