(* ===== verification/FlashSpec.v ===== *)
(** * What the flash driver does

    [ChipOk] is the documented behaviour of the chip: erased pages read as 0xFF, and a double
    word that is erased can be programmed.  On such a chip [FLASH_update] writes its chunk
    and, when the chunk crosses a page boundary, also bytes behind it. *)
From S2P Require Import Prelude KTypes Kv FlashDrv.
Local Open Scope Z_scope.

(** The layout of the chip in numbers. *)
Ltac flash_nums := change FLASH_SIZE with 1048576 in *; change FLASH_BANK_SIZE with 524288 in *; change FLASH_PAGE_SIZE with 2048 in *; change FLASH_BASE with 134217728 in *.

(** Where a bank is mapped. *)
Definition bank_addr (bank : Z) (swapped : bool) : Z :=
  if xorb (bank =? FLASH_BANK_1) swapped then FLASH_BASE else FLASH_BASE + FLASH_BANK_SIZE.

Definition in_flash (a n : Z) : Prop := FLASH_BASE <= a /\ a + n <= FLASH_BASE + FLASH_SIZE.

Section Spec.
Context {C : Type} `{Chip C}.
Implicit Types (c : C) (a : Z) (l : list Z).

Definition same_bits c c' : Prop := chip_fb_mode c' = chip_fb_mode c /\ chip_bfb2 c' = chip_bfb2 c.

(** From [c] to [c'] the bytes [f] were written to the [n] addresses from [a] on. *)
Definition put (a n : Z) (f : Z -> Z) c c' : Prop :=
  same_bits c c' /\ forall x, chip_byte x c' = if (a <=? x) && (x <? a + n) then f (x - a) else chip_byte x c.
End Spec.

Class ChipOk (C : Type) `{Chip C} : Prop := {
  chip_erase_ok : forall c bank page n, bank = FLASH_BANK_1 \/ bank = FLASH_BANK_2 -> 0 <= page -> 0 < n -> page + n <= FLASH_BANK_SIZE / FLASH_PAGE_SIZE ->
    exists c', HAL_FLASHEx_Erase bank page n c = (true, c') /\
      put (bank_addr bank (chip_fb_mode c) + page * FLASH_PAGE_SIZE) (n * FLASH_PAGE_SIZE) (fun _ => 0xFF) c c';
  chip_program_ok : forall c a l, a mod 8 = 0 -> in_flash a 8 -> length l = 8%nat -> (forall x, a <= x < a + 8 -> chip_byte x c = 0xFF) ->
    exists c', HAL_FLASH_Program a l c = (true, c') /\ put a 8 (fun i => nth (Z.to_nat i) l 0) c c';
}.

Section Driver.
Context {C : Type} `{ChipOk C}.
Implicit Types (c : C) (a : Z) (l : list Z).

(** ** Bytes *)
Lemma chip_bytes_lookup a n c i : (i < n)%nat -> chip_bytes a n c !! i = Some (chip_byte (a + Z.of_nat i) c).
Proof. intros Hi. unfold chip_bytes. rewrite list_lookup_fmap, lookup_seq_lt by done. done. Qed.

Lemma length_chip_bytes a n c : length (chip_bytes a n c) = n.
Proof. unfold chip_bytes. by rewrite length_fmap, length_seq. Qed.

Lemma put_inside a n f c c' x : put a n f c c' -> a <= x < a + n -> chip_byte x c' = f (x - a).
Proof. intros [_ Hp] Hx. rewrite Hp. destruct (Z.leb_spec a x); [|lia]. by destruct (Z.ltb_spec x (a + n)); [|lia]. Qed.

Lemma put_outside a n f c c' x : put a n f c c' -> x < a \/ a + n <= x -> chip_byte x c' = chip_byte x c.
Proof. intros [_ Hp] Hx. rewrite Hp. destruct (Z.leb_spec a x); [|done]. by destruct (Z.ltb_spec x (a + n)); [lia|]. Qed.

Lemma put_intro a n f c c' : same_bits c c' -> (forall x, a <= x < a + n -> chip_byte x c' = f (x - a)) -> (forall x, x < a \/ a + n <= x -> chip_byte x c' = chip_byte x c) -> put a n f c c'.
Proof. intros Hb Hi Ho. split; [done|]. intros x. destruct (Z.leb_spec a x), (Z.ltb_spec x (a + n)); cbn [andb]; (apply Hi || apply Ho); lia. Qed.

Lemma same_bits_trans c1 c2 c3 : same_bits c1 c2 -> same_bits c2 c3 -> same_bits c1 c3.
Proof. intros [? ?] [? ?]. split; congruence. Qed.

(** ** Erasure *)
Definition pages (a n : Z) : Prop := a mod FLASH_PAGE_SIZE = 0 /\ 0 < n /\ in_flash a (n * FLASH_PAGE_SIZE).

(** The pages are in one bank, and do not end at the end of the lower one. *)
Definition one_bank (a n : Z) : Prop := a + n * FLASH_PAGE_SIZE < FLASH_BASE + FLASH_BANK_SIZE \/ FLASH_BASE + FLASH_BANK_SIZE <= a.

Lemma bank_cases a c : bank_addr (FLASH_get_bank a c) (chip_fb_mode c) = (if a <? FLASH_BASE + FLASH_BANK_SIZE then FLASH_BASE else FLASH_BASE + FLASH_BANK_SIZE) /\
  (FLASH_get_bank a c = FLASH_BANK_1 \/ FLASH_get_bank a c = FLASH_BANK_2).
Proof. unfold FLASH_get_bank, bank_addr. destruct (chip_fb_mode c), (a <? FLASH_BASE + FLASH_BANK_SIZE); cbn; auto. Qed.

Lemma same_bank a b c : (a <? FLASH_BASE + FLASH_BANK_SIZE) = (b <? FLASH_BASE + FLASH_BANK_SIZE) -> FLASH_get_bank a c = FLASH_get_bank b c.
Proof. unfold FLASH_get_bank. by intros ->. Qed.

Lemma page_spec a : in_flash a 1 ->
  FLASH_get_pageInBank a = (a - (if a <? FLASH_BASE + FLASH_BANK_SIZE then FLASH_BASE else FLASH_BASE + FLASH_BANK_SIZE)) / FLASH_PAGE_SIZE.
Proof.
  intros [H1' H2']. unfold FLASH_get_pageInBank. destruct (Z.ltb_spec a (FLASH_BASE + FLASH_SIZE)); [|lia]. destruct (Z.leb_spec FLASH_BASE a); [|lia]. cbn [andb].
  case_match; [done|]. by rewrite Z.sub_add_distr.
Qed.

Lemma erase_spec c a n : pages a n -> one_bank a n -> exists c', FLASH_unlock_erase a (n * FLASH_PAGE_SIZE) c = (0, c') /\ put a (n * FLASH_PAGE_SIZE) (fun _ => 0xFF) c c'.
Proof.
  intros (Ha & Hn & Hin) Hb. unfold in_flash in Hin. unfold FLASH_unlock_erase.
  set (lo := if a <? FLASH_BASE + FLASH_BANK_SIZE then FLASH_BASE else FLASH_BASE + FLASH_BANK_SIZE). destruct (bank_cases a c) as [Hba Hbank]. fold lo in Hba.
  assert (Hlo : (a <? FLASH_BASE + FLASH_BANK_SIZE) = (a + n * FLASH_PAGE_SIZE <? FLASH_BASE + FLASH_BANK_SIZE) /\
    (a <? FLASH_BASE + FLASH_BANK_SIZE) = (a + n * FLASH_PAGE_SIZE - 1 <? FLASH_BASE + FLASH_BANK_SIZE) /\
    lo <= a /\ a + n * FLASH_PAGE_SIZE <= lo + FLASH_BANK_SIZE /\ (lo = FLASH_BASE \/ lo = FLASH_BASE + FLASH_BANK_SIZE)).
  { unfold lo, one_bank in *. flash_nums. destruct (Z.ltb_spec a (134217728 + 524288)), (Z.ltb_spec (a + n * 2048) (134217728 + 524288)), (Z.ltb_spec (a + n * 2048 - 1) (134217728 + 524288)); split_and!; lia. }
  destruct Hlo as (E1 & E2 & Hlo & Hhi & Hlo'). rewrite (wrap32_small (a + n * FLASH_PAGE_SIZE)), (wrap32_small (a + n * FLASH_PAGE_SIZE - 1)) by (unfold u32; flash_nums; lia). rewrite <- (same_bank _ _ c E1), Z.eqb_refl. cbn [negb].
  rewrite !page_spec by (unfold in_flash; flash_nums; lia). rewrite <- E2. fold lo.
  assert (Hk : exists k, a = lo + k * FLASH_PAGE_SIZE /\ 0 <= k). { exists ((a - lo) / FLASH_PAGE_SIZE). flash_nums. Z.to_euclidean_division_equations. lia. }
  destruct Hk as (k & Hk & Hk0). assert (Hp1 : (a - lo) / FLASH_PAGE_SIZE = k) by (flash_nums; Z.to_euclidean_division_equations; lia).
  assert (Hp2 : (a + n * FLASH_PAGE_SIZE - 1 - lo) / FLASH_PAGE_SIZE = k + n - 1) by (flash_nums; Z.to_euclidean_division_equations; lia).
  rewrite Hp1, Hp2. rewrite (wrap32_small k) by (unfold u32; flash_nums; lia). replace (k + n - 1 - k + 1) with n by lia. rewrite wrap32_small by (unfold u32; flash_nums; lia).
  destruct (chip_erase_ok c (FLASH_get_bank a c) k n Hbank Hk0 Hn) as (c' & -> & Hput); [flash_nums; change (524288 / 2048) with 256; lia|].
  exists c'. split; [done|]. rewrite Hba in Hput. by rewrite <- Hk in Hput.
Qed.

(** ** Programming *)
Lemma words_cons fuel n l : (0 < n)%nat -> l <> [] -> words_of (S fuel) n l = take n l :: words_of fuel n (drop n l).
Proof. intros _ Hl. cbn [words_of]. by rewrite decide_False. Qed.

Lemma program_spec k c a l fuel :
  length l = (8 * k)%nat -> (length l <= fuel)%nat -> a mod 8 = 0 -> in_flash a (Z.of_nat (8 * k)) -> (forall x, a <= x < a + Z.of_nat (8 * k) -> chip_byte x c = 0xFF) ->
  put a (Z.of_nat (8 * k)) (fun i => nth (Z.to_nat i) l 0) c (program_loop a (words_of fuel 8 l) c).
Proof.
  revert c a l fuel. induction k as [|k IH]; intros c a l fuel Hl Hf Ha Hin He.
  - destruct l; [|done]. assert (words_of fuel 8 [] = []) as -> by by destruct fuel. apply put_intro; [done|intros; lia|done].
  - destruct fuel as [|fuel]; [lia|]. assert (Hne : l <> []) by (intros ->; cbn in Hl; lia). rewrite words_cons by (done || lia). cbn [program_loop]. unfold in_flash in Hin.
    destruct (chip_program_ok c a (take 8 l) Ha) as (c1 & -> & Hp1); [unfold in_flash; lia|rewrite length_take; lia|intros; apply He; lia|].
    assert (Hp2 : put (a + 8) (Z.of_nat (8 * k)) (fun i => nth (Z.to_nat i) (drop 8 l) 0) c1 (program_loop (a + 8) (words_of fuel 8 (drop 8 l)) c1)).
    { apply IH; [rewrite length_drop; lia|rewrite length_drop; lia|by rewrite <- (Z.mod_add a 1 8) in Ha|unfold in_flash; lia|].
      intros x Hx. rewrite (put_outside _ _ _ _ _ _ Hp1) by lia. apply He. lia. }
    apply put_intro.
    + eapply same_bits_trans; [apply Hp1|apply Hp2].
    + intros x Hx. destruct (Z.lt_ge_cases x (a + 8)).
      * rewrite (put_outside _ _ _ _ _ _ Hp2), (put_inside _ _ _ _ _ _ Hp1) by lia. rewrite nth_firstn. by destruct (Nat.ltb_spec (Z.to_nat (x - a)) 8); [|lia].
      * rewrite (put_inside _ _ _ _ _ _ Hp2) by lia. rewrite nth_skipn. f_equal. lia.
    + intros x Hx. rewrite (put_outside _ _ _ _ _ _ Hp2), (put_outside _ _ _ _ _ _ Hp1) by lia. done.
Qed.

Lemma check_spec k c a l fuel ret :
  length l = (4 * k)%nat -> (length l <= fuel)%nat -> (forall i, (i < length l)%nat -> chip_byte (a + Z.of_nat i) c = nth i l 0) ->
  check_loop a (words_of fuel 4 l) ret c = if decide (k = O) then ret else 0.
Proof.
  revert a l fuel ret. induction k as [|k IH]; intros a l fuel ret Hl Hf Hb.
  - destruct l; [|done]. by destruct fuel.
  - destruct fuel as [|fuel]; [lia|]. assert (Hne : l <> []) by (intros ->; cbn in Hl; lia). rewrite words_cons by (done || lia). cbn [check_loop]. rewrite decide_True.
    + rewrite IH; [by case_decide|rewrite length_drop; lia|rewrite length_drop; lia|]. intros i Hi. rewrite length_drop in Hi. rewrite nth_skipn, <- Hb by lia. f_equal. lia.
    + apply (nth_ext _ _ 0 0); [rewrite length_chip_bytes, length_take; lia|]. intros i Hi. rewrite length_chip_bytes in Hi. rewrite nth_firstn. destruct (Nat.ltb_spec i 4); [|lia].
      rewrite <- Hb by lia. apply nth_lookup_Some. by rewrite chip_bytes_lookup.
Qed.

Lemma write_at_spec k c a l :
  length l = (8 * S k)%nat -> a mod 8 = 0 -> in_flash a (Z.of_nat (length l)) -> (forall x, a <= x < a + Z.of_nat (length l) -> chip_byte x c = 0xFF) ->
  exists c', FLASH_write_at a l c = (0, c') /\ put a (Z.of_nat (length l)) (fun i => nth (Z.to_nat i) l 0) c c'.
Proof.
  intros Hl Ha Hin He. assert (Hp : put a (Z.of_nat (length l)) (fun i => nth (Z.to_nat i) l 0) c (program_loop a (words_of (length l) 8 l) c)).
  { rewrite Hl in Hin, He. rewrite Hl at 1. by apply program_spec. }
  unfold FLASH_write_at. eexists. split; [|exact Hp]. f_equal. rewrite (check_spec (2 * S k)); [by rewrite decide_False by lia|lia|done|].
  intros i Hi. rewrite (put_inside _ _ _ _ _ _ Hp) by lia. f_equal. lia.
Qed.

(** ** Updating a page *)
Lemma nth_overwrite (off : nat) (new d : list Z) i : (off + length new <= length d)%nat ->
  nth i (overwrite (Z.of_nat off) new d) 0 = if (off <=? i)%nat && (i <? off + length new)%nat then nth (i - off) new 0 else nth i d 0.
Proof.
  intros Hl. unfold overwrite. rewrite Nat2Z.id. assert (Ht : length (take off d) = off) by (rewrite length_take; lia).
  destruct (Nat.leb_spec off i); cbn [andb].
  - rewrite app_nth2, Ht by lia. destruct (Nat.ltb_spec i (off + length new)); [by rewrite app_nth1 by lia|]. rewrite app_nth2, nth_skipn by lia. f_equal. lia.
  - rewrite app_nth1 by lia. rewrite nth_firstn. by destruct (Nat.ltb_spec i off); [|lia].
Qed.

Lemma length_overwrite (off : nat) (new d : list Z) : (off + length new <= length d)%nat -> length (overwrite (Z.of_nat off) new d) = length d.
Proof. intros Hl. unfold overwrite. rewrite Nat2Z.id, !length_app, length_take, length_drop. lia. Qed.

Lemma nth_chip_bytes a n c i : (i < n)%nat -> nth i (chip_bytes a n c) 0 = chip_byte (a + Z.of_nat i) c.
Proof. intros Hi. apply nth_lookup_Some. by rewrite chip_bytes_lookup. Qed.

Lemma nth_source (src : Z -> Z) n i : (i < n)%nat -> nth i ((fun i => src (Z.of_nat i)) <$> seq 0 n) 0 = src (Z.of_nat i).
Proof. intros Hi. apply nth_lookup_Some. rewrite list_lookup_fmap, lookup_seq_lt by done. done. Qed.

(** The page in the cache, changed. *)
Lemma cache_byte c fl dst src len x : 0 <= len -> fl <= dst -> dst + len <= fl + 2048 -> fl <= x < fl + 2048 ->
  nth (Z.to_nat (x - fl)) (overwrite (dst - fl) ((fun i => src (Z.of_nat i)) <$> seq 0 (Z.to_nat len)) (chip_bytes fl 2048 c)) 0 =
  if (dst <=? x) && (x <? dst + len) then src (x - dst) else chip_byte x c.
Proof.
  intros Hl Hd Hf Hx. rewrite <- (Z2Nat.id (dst - fl)) by lia. rewrite nth_overwrite by (rewrite length_chip_bytes, length_fmap, length_seq; lia). rewrite length_fmap, length_seq.
  destruct (Nat.leb_spec (Z.to_nat (dst - fl)) (Z.to_nat (x - fl))), (Z.leb_spec dst x); cbn [andb]; try lia.
  - destruct (Nat.ltb_spec (Z.to_nat (x - fl)) (Z.to_nat (dst - fl) + Z.to_nat len)), (Z.ltb_spec x (dst + len)); try lia.
    + rewrite nth_source by lia. f_equal. lia.
    + rewrite nth_chip_bytes by lia. f_equal. lia.
  - rewrite nth_chip_bytes by lia. f_equal. lia.
Qed.

Lemma update_page_spec c dst src len :
  let fl := ROUND_DOWN dst FLASH_PAGE_SIZE in
  pages fl 1 -> one_bank fl 1 -> 0 <= len -> dst + len <= fl + FLASH_PAGE_SIZE ->
  exists c', update_page dst src len c = (0, c') /\ put dst len src c c'.
Proof.
  intros fl Hpg Hob Hlen Hfit. unfold update_page. fold fl. assert (Hoff : fl <= dst) by (unfold fl, ROUND_DOWN; flash_nums; Z.to_euclidean_division_equations; lia).
  destruct (erase_spec c fl 1 Hpg Hob) as (c1 & He & Hp1). rewrite Z.mul_1_l in He, Hp1. rewrite He. cbn [Z.eqb negb]. destruct Hpg as (Ha & _ & Hin). unfold in_flash in *.
  change (Z.to_nat FLASH_PAGE_SIZE) with 2048%nat. set (cache := overwrite _ _ _).
  assert (Hc : length cache = 2048%nat). { unfold cache. rewrite <- (Z2Nat.id (dst - fl)) by lia. rewrite length_overwrite; rewrite length_chip_bytes; [done|]. rewrite length_fmap, length_seq. flash_nums. lia. }
  destruct (write_at_spec 255 c1 fl cache) as (c2 & -> & Hp2); [by rewrite Hc| |rewrite Hc; unfold in_flash; flash_nums; lia| |].
  { flash_nums. Z.to_euclidean_division_equations. lia. }
  { intros x Hx. rewrite Hc in Hx. apply (put_inside _ _ _ _ _ _ Hp1). flash_nums. lia. }
  exists c2. split; [done|]. rewrite Hc in Hp2.
  assert (Hbyte : forall x, fl <= x < fl + 2048 -> chip_byte x c2 = if (dst <=? x) && (x <? dst + len) then src (x - dst) else chip_byte x c).
  { intros x Hx. rewrite (put_inside _ _ _ _ _ _ Hp2) by lia. flash_nums. by apply cache_byte. }
  split; [by eapply same_bits_trans; [apply Hp1|apply Hp2]|]. intros x. destruct (Z.lt_ge_cases x fl), (Z.lt_ge_cases x (fl + 2048)); try (apply Hbyte; lia); try lia;
    rewrite (put_outside _ _ _ _ _ _ Hp2), (put_outside _ _ _ _ _ _ Hp1) by (flash_nums; lia); destruct (Z.leb_spec dst x), (Z.ltb_spec x (dst + len)); cbn [andb]; done || (flash_nums; lia).
Qed.

(** ** Updating a chunk *)
Lemma put_app a n m f c1 c2 c3 : 0 <= n -> 0 <= m -> put a n f c1 c2 -> put (a + n) m (fun i => f (n + i)) c2 c3 -> put a (n + m) f c1 c3.
Proof.
  intros Hn Hm Hp1 Hp2. apply put_intro; [by eapply same_bits_trans; [apply Hp1|apply Hp2]| |].
  - intros x Hx. destruct (Z.lt_ge_cases x (a + n)); [by rewrite (put_outside _ _ _ _ _ _ Hp2), (put_inside _ _ _ _ _ _ Hp1) by lia|].
    rewrite (put_inside _ _ _ _ _ _ Hp2) by lia. f_equal. lia.
  - intros x Hx. by rewrite (put_outside _ _ _ _ _ _ Hp2), (put_outside _ _ _ _ _ _ Hp1) by lia.
Qed.

(** The bytes written from the second page on, [rem] of them being asked for. *)
Definition rest_extent (rem size : Z) : Z := if size <? FLASH_PAGE_SIZE then size else FLASH_PAGE_SIZE * ((rem + FLASH_PAGE_SIZE - 1) / FLASH_PAGE_SIZE).

(** The bytes [FLASH_update] writes. *)
Definition update_extent (dst size : Z) : Z :=
  let first := FLASH_PAGE_SIZE - (dst - ROUND_DOWN dst FLASH_PAGE_SIZE) in
  if size <=? first then size else first + rest_extent (size - first) size.

(** The pages from [a] to the one that ends at [b]. *)
Definition page_range (a b : Z) : Prop := a mod FLASH_PAGE_SIZE = 0 /\ b mod FLASH_PAGE_SIZE = 0 /\ FLASH_BASE <= a /\ b <= FLASH_BASE + FLASH_SIZE /\
  (b < FLASH_BASE + FLASH_BANK_SIZE \/ FLASH_BASE + FLASH_BANK_SIZE <= a).

Lemma range_page a b p : page_range a b -> a <= p -> p mod FLASH_PAGE_SIZE = 0 -> p < b -> pages p 1 /\ one_bank p 1.
Proof.
  intros (Ha & Hb & Hlo & Hhi & Hbk) Hp Hm Hpb. assert (p + FLASH_PAGE_SIZE <= b) by (flash_nums; Z.to_euclidean_division_equations; lia).
  split; [split; [done|]; split; [done|]; unfold in_flash; flash_nums; lia|]. unfold one_bank. flash_nums. lia.
Qed.

Lemma range_wrap a b x : page_range a b -> a <= x <= b -> wrap32 x = x.
Proof. intros (_ & _ & Hlo & Hhi & _) Hx. apply wrap32_small. unfold u32. flash_nums. lia. Qed.

Lemma range_int a b dst size : page_range a b -> a <= dst -> dst + size <= b -> to_int size = size.
Proof. intros (_ & _ & Hlo & Hhi & _) Ha Hb. unfold to_int. destruct (Z.ltb_spec size (2 ^ 31)); [done|]. flash_nums. lia. Qed.

Lemma loop_aligned fuel c dst src rem size a b :
  page_range a b -> a <= dst -> dst mod FLASH_PAGE_SIZE = 0 -> 0 < rem <= size -> dst + rem <= b -> rem <= Z.of_nat fuel * FLASH_PAGE_SIZE ->
  exists c', update_loop fuel dst src rem size c = (0, c') /\ put dst (rest_extent rem size) src c c'.
Proof.
  intros Hr. revert c dst src rem. induction fuel as [|fuel IH]; intros c dst src rem Ha Hm Hrem Hb Hf; [lia|]. cbn [update_loop].
  assert (Hrd : ROUND_DOWN dst FLASH_PAGE_SIZE = dst) by (unfold ROUND_DOWN; flash_nums; Z.to_euclidean_division_equations; lia).
  rewrite Hrd, Z.sub_diag, Z.sub_0_r. set (len := MIN FLASH_PAGE_SIZE size). destruct (range_page a b dst Hr Ha Hm) as [Hpg Hob]; [lia|].
  destruct (update_page_spec c dst src len) as (c1 & -> & Hp1); [by rewrite Hrd|by rewrite Hrd|unfold len, MIN; case_match; flash_nums; lia|rewrite Hrd; unfold len, MIN; case_match; flash_nums; lia|].
  cbn [Z.eqb negb]. unfold rest_extent. destruct (Z.ltb_spec size FLASH_PAGE_SIZE) as [Hsm|Hbig].
  - assert (len = size) as Hlen by (unfold len, MIN; case_match; lia). destruct (Z.ltb_spec 0 (rem - len)); [lia|]. exists c1. by rewrite <- Hlen.
  - assert (len = FLASH_PAGE_SIZE) as Hlen by (unfold len, MIN; case_match; lia). rewrite Hlen in *. destruct (Z.ltb_spec 0 (rem - FLASH_PAGE_SIZE)).
    + rewrite (range_wrap a b) by (done || flash_nums; lia). destruct (IH c1 (dst + FLASH_PAGE_SIZE) (fun i => src (FLASH_PAGE_SIZE + i)) (rem - FLASH_PAGE_SIZE)) as (c2 & -> & Hp2); [flash_nums; lia|flash_nums; Z.to_euclidean_division_equations; lia|flash_nums; lia|lia|lia|].
      exists c2. split; [done|]. unfold rest_extent in Hp2. destruct (Z.ltb_spec size FLASH_PAGE_SIZE); [lia|].
      replace (FLASH_PAGE_SIZE * ((rem + FLASH_PAGE_SIZE - 1) / FLASH_PAGE_SIZE)) with (FLASH_PAGE_SIZE + FLASH_PAGE_SIZE * ((rem - FLASH_PAGE_SIZE + FLASH_PAGE_SIZE - 1) / FLASH_PAGE_SIZE)) by (flash_nums; Z.to_euclidean_division_equations; lia).
      eapply put_app; [done| |exact Hp1|exact Hp2]. flash_nums. Z.to_euclidean_division_equations. lia.
    + exists c1. split; [done|]. replace (FLASH_PAGE_SIZE * ((rem + FLASH_PAGE_SIZE - 1) / FLASH_PAGE_SIZE)) with FLASH_PAGE_SIZE by (flash_nums; Z.to_euclidean_division_equations; lia). done.
Qed.

Lemma update_spec c dst src size a b :
  page_range a b -> a <= dst -> 0 < size -> dst + size <= b -> exists c', FLASH_update dst src size c = (0, c') /\ put dst (update_extent dst size) src c c'.
Proof.
  intros Hr Ha Hs Hb. unfold FLASH_update, update_fuel. rewrite (range_int a b dst) by (done || lia). assert (Hq : 0 <= size / FLASH_PAGE_SIZE) by (flash_nums; Z.to_euclidean_division_equations; lia).
  destruct (Z.to_nat (size / FLASH_PAGE_SIZE + 2)) as [|fuel] eqn:Hfuel; [lia|]. cbn [update_loop]. set (fl := ROUND_DOWN dst FLASH_PAGE_SIZE). set (first := FLASH_PAGE_SIZE - (dst - fl)).
  assert (Hfl : fl mod FLASH_PAGE_SIZE = 0 /\ a <= fl /\ fl <= dst < fl + FLASH_PAGE_SIZE). { destruct Hr as (Hm & _). unfold fl, ROUND_DOWN. flash_nums. Z.to_euclidean_division_equations. lia. }
  destruct (range_page a b fl Hr) as [Hpg Hob]; [lia|lia|lia|]. unfold update_extent. fold fl. fold first.
  destruct (update_page_spec c dst src (MIN first size)) as (c1 & -> & Hp1); [done|done|unfold MIN, first; case_match; lia|fold fl; unfold MIN, first; case_match; lia|]. cbn [Z.eqb negb].
  destruct (Z.leb_spec size first) as [Hle|Hgt].
  - assert (MIN first size = size) as Hmin by (unfold MIN; case_match; lia). rewrite Hmin in *. rewrite Z.sub_diag. exists c1. by split.
  - assert (MIN first size = first) as Hmin by (unfold MIN; case_match; lia). rewrite Hmin in *. destruct (Z.ltb_spec 0 (size - first)); [|lia].
    rewrite (range_wrap a b) by (done || lia). destruct (loop_aligned fuel c1 (dst + first) (fun i => src (first + i)) (size - first) size a b Hr) as (c2 & -> & Hp2); [lia|unfold first; flash_nums; Z.to_euclidean_division_equations; lia|lia|lia| |].
    { assert (Z.of_nat fuel = size / FLASH_PAGE_SIZE + 1) as -> by lia. flash_nums. Z.to_euclidean_division_equations. lia. }
    exists c2. split; [done|]. eapply put_app; [lia| |exact Hp1|exact Hp2]. unfold rest_extent. case_match; flash_nums; [lia|]. Z.to_euclidean_division_equations. lia.
Qed.
End Driver.

(** * The store's flash on the boards

    The driver as an instance of the interface [Flash] of the key-value store: the two
    blocks are two partitions of one bank.  Reads return what the chip holds, a block is
    erased as a whole, and a write inside a page changes exactly its bytes.  A write across
    the page boundary in the middle of a block also changes bytes behind it. *)

(** The chip, and the bytes in memory behind the buffers that are written. *)
Record board (C : Type) := { b_chip : C; b_beyond : Z -> Z }.
Arguments b_chip {C}. Arguments b_beyond {C}.

(** The bytes at and behind a buffer. *)
Definition buffer (l : list Z) (beyond : Z -> Z) (i : Z) : Z := if i <? Z.of_nat (length l) then nth (Z.to_nat i) l 0 else beyond (i - Z.of_nat (length l)).

Section Board.
Context {C : Type} `{Chip C} (hal_partitions : Z -> hal_logic_partition_t).
Implicit Types (d : board C).

(** The functions as [raw_read], [raw_write] and [raw_erase] call them. *)
Definition board_flash : Flash (board C) := {|
  hal_flash_read off n d :=
    let '(rc, _, l) := port_flash_read hal_partitions CONFIG_AOS_KV_PTN off n (b_chip d) in if rc =? 0 then Some (take (Z.to_nat n) l) else None;
  hal_flash_write off l d :=
    let '(rc, _, c) := port_flash_write hal_partitions CONFIG_AOS_KV_PTN off (buffer l (b_beyond d)) (Z.of_nat (length l)) (b_chip d) in
    (rc =? 0, {| b_chip := c; b_beyond := b_beyond d |});
  hal_flash_erase off n d :=
    let '(rc, c) := port_flash_erase hal_partitions CONFIG_AOS_KV_PTN off n (b_chip d) in (rc =? 0, {| b_chip := c; b_beyond := b_beyond d |});
|}.

(** The partition of a block of the store. *)
Definition block_part (c : C) (second : bool) : hal_logic_partition_t :=
  hal_partitions (if FLASH_bank1_enabled c then if second then CONFIG_AOS_KV_SECOND_PTN else CONFIG_AOS_KV_PTN
                  else if second then HAL_PARTITION_PARAMETER_1 else HAL_PARTITION_PARAMETER_4).

Definition block_start (c : C) (second : bool) : Z := partition_start_addr (block_part c second).

(** What the store sees. *)
Definition board_contents d : list Z := chip_bytes (block_start (b_chip d) false) 4096 (b_chip d) ++ chip_bytes (block_start (b_chip d) true) 4096 (b_chip d).

(** The table gives the store two partitions of two pages, apart from each other. *)
Record parts_ok (c : C) : Prop := {
  po_length : forall b, partition_length (block_part c b) = 4096;
  po_range : forall b, page_range (block_start c b) (block_start c b + 4096);
  po_apart : block_start c false + 4096 <= block_start c true \/ block_start c true + 4096 <= block_start c false;
}.

(** ** Offsets *)
Lemma real_partition_spec c off : real_partition CONFIG_AOS_KV_PTN off c =
  ((if FLASH_bank1_enabled c then if 4096 <=? off then CONFIG_AOS_KV_SECOND_PTN else CONFIG_AOS_KV_PTN
    else if 4096 <=? off then HAL_PARTITION_PARAMETER_1 else HAL_PARTITION_PARAMETER_4), if 4096 <=? off then off - 4096 else off).
Proof. unfold real_partition. change CONFIG_AOS_KV_PTN_SIZE with 4096. rewrite Z.eqb_refl. cbn [andb]. destruct (4096 <=? off), (FLASH_bank1_enabled c); done. Qed.

(** An offset is a block and a place in it. *)
Lemma in_block_split off n : in_block off n = true -> exists b o, off = (if b : bool then 4096 else 0) + o /\ 0 <= o /\ 0 <= n /\ o + n <= 4096 /\ (4096 <=? off) = b.
Proof.
  unfold in_block. change BLK_SIZE with 4096. change KV_TOTAL_SIZE with 8192. rewrite !andb_true_iff, !Z.leb_le. intros [[H1 H2] H3]. destruct (Z.ltb_spec off 4096); rewrite Z.leb_le in H3.
  - exists false, off. split_and!; lia.
  - exists true, (off - 4096). split_and!; lia.
Qed.

Lemma part_addr c b o off : (4096 <=? off) = b -> off = (if b : bool then 4096 else 0) + o ->
  real_partition CONFIG_AOS_KV_PTN off c = ((if FLASH_bank1_enabled c then if b then CONFIG_AOS_KV_SECOND_PTN else CONFIG_AOS_KV_PTN
    else if b then HAL_PARTITION_PARAMETER_1 else HAL_PARTITION_PARAMETER_4), o).
Proof. intros Hb ->. rewrite real_partition_spec, Hb. f_equal. destruct b; lia. Qed.

Lemma start_bound c b o n : parts_ok c -> 0 <= o -> 0 <= n -> o + n <= 4096 -> wrap32 (block_start c b + o) = block_start c b + o /\ in_flash (block_start c b + o) n.
Proof.
  intros [_ Hr _] Ho Hn Hon. destruct (Hr b) as (_ & _ & Hlo & Hhi & _). unfold in_flash. flash_nums. split; [apply wrap32_small; unfold u32|]; lia.
Qed.

(** ** The contents at an offset *)
Lemma contents_at d b o : 0 <= o < 4096 -> board_contents d !! Z.to_nat ((if b : bool then 4096 else 0) + o) = Some (chip_byte (block_start (b_chip d) b + o) (b_chip d)).
Proof.
  intros Ho. unfold board_contents. destruct b.
  - rewrite lookup_app_r; rewrite length_chip_bytes; [|lia]. rewrite chip_bytes_lookup by lia. do 2 f_equal. lia.
  - rewrite lookup_app_l by (rewrite length_chip_bytes; lia). rewrite chip_bytes_lookup by lia. do 2 f_equal. lia.
Qed.

Lemma length_contents d : Z.of_nat (length (board_contents d)) = 8192.
Proof. unfold board_contents. by rewrite length_app, !length_chip_bytes. Qed.

(** Two lists of 8192 bytes that agree in every place of both blocks. *)
Lemma two_block_ext (l1 l2 : list Z) : Z.of_nat (length l1) = 8192 -> Z.of_nat (length l2) = 8192 ->
  (forall (b : bool) o, 0 <= o < 4096 -> l1 !! Z.to_nat ((if b then 4096 else 0) + o) = l2 !! Z.to_nat ((if b then 4096 else 0) + o)) -> l1 = l2.
Proof.
  intros H1' H2' He. apply list_eq. intros i. destruct (Z.lt_ge_cases (Z.of_nat i) 8192); [|by rewrite !lookup_ge_None_2 by lia]. destruct (Z.lt_ge_cases (Z.of_nat i) 4096).
  - specialize (He false (Z.of_nat i)). cbn iota in He. rewrite Z.add_0_l, Nat2Z.id in He. apply He. lia.
  - specialize (He true (Z.of_nat i - 4096)). cbn iota in He. replace (Z.to_nat (4096 + (Z.of_nat i - 4096))) with i in He by lia. apply He. lia.
Qed.

Lemma overwrite_lookup off (new l : list Z) i : 0 <= off -> (Z.to_nat off + length new <= length l)%nat ->
  overwrite off new l !! i = if (Z.to_nat off <=? i)%nat && (i <? Z.to_nat off + length new)%nat then new !! (i - Z.to_nat off)%nat else l !! i.
Proof.
  intros Ho Hl. unfold overwrite. destruct (Nat.leb_spec (Z.to_nat off) i); cbn [andb].
  - rewrite lookup_app_r; rewrite length_take_le by lia; [|done]. destruct (Nat.ltb_spec i (Z.to_nat off + length new)); [by rewrite lookup_app_l by lia|].
    rewrite lookup_app_r, lookup_drop by lia. f_equal. lia.
  - rewrite lookup_app_l by (rewrite length_take_le; lia). by rewrite lookup_take_lt.
Qed.

Definition bytes_from (f : Z -> Z) (n : Z) : list Z := (fun i => f (Z.of_nat i)) <$> seq 0 (Z.to_nat n).

Lemma length_bytes_from f n : length (bytes_from f n) = Z.to_nat n.
Proof. unfold bytes_from. by rewrite length_fmap, length_seq. Qed.

Lemma lookup_bytes_from f n i : (i < Z.to_nat n)%nat -> bytes_from f n !! i = Some (f (Z.of_nat i)).
Proof. intros Hi. unfold bytes_from. by rewrite list_lookup_fmap, lookup_seq_lt. Qed.

Lemma same_start c c' b : same_bits c c' -> block_part c' b = block_part c b.
Proof. intros [_ Hb]. unfold block_part, FLASH_bank1_enabled. by rewrite Hb. Qed.

Lemma parts_ok_same c c' : same_bits c c' -> parts_ok c -> parts_ok c'.
Proof.
  intros Hs [H1' H2' H3']. split; intros; unfold block_start in *; rewrite ?(same_start c c') in * by done; auto.
Qed.

(** Bytes written to the chip inside a block are bytes written to the contents. *)
Lemma put_contents c c' f beyond b o n : parts_ok c -> 0 <= o -> 0 <= n -> o + n <= 4096 -> put (block_start c b + o) n f c c' ->
  board_contents {| b_chip := c'; b_beyond := beyond |} = overwrite ((if b : bool then 4096 else 0) + o) (bytes_from f n) (board_contents {| b_chip := c; b_beyond := beyond |}).
Proof.
  intros Hpo Ho Hn Hon Hp. pose proof (length_contents {| b_chip := c; b_beyond := beyond |}) as Hl. pose proof (length_bytes_from f n) as Hlf.
  assert (Hb4 : 0 <= (if b then 4096 else 0) <= 4096) by (destruct b; lia).
  apply two_block_ext; [apply length_contents| |].
  - unfold overwrite. rewrite !length_app, length_take, length_drop. lia.
  - intros b' o' Ho'. rewrite contents_at by done. cbn [b_chip]. rewrite overwrite_lookup by lia. rewrite Hlf. unfold block_start at 1. rewrite (same_start c c') by apply Hp. fold (block_start c b').
    assert (Hsep : b' <> b -> block_start c b + 4096 <= block_start c b' \/ block_start c b' + 4096 <= block_start c b) by (pose proof (po_apart _ Hpo); destruct b, b'; [congruence|tauto|tauto|congruence]).
    destruct (Nat.leb_spec (Z.to_nat ((if b then 4096 else 0) + o)) (Z.to_nat ((if b' then 4096 else 0) + o'))), (Nat.ltb_spec (Z.to_nat ((if b' then 4096 else 0) + o')) (Z.to_nat ((if b then 4096 else 0) + o) + Z.to_nat n)); cbn [andb].
    1: { assert (b' = b) as -> by (destruct b, b'; [reflexivity|lia|lia|reflexivity]). rewrite (put_inside _ _ _ _ _ _ Hp) by (destruct b; lia). rewrite lookup_bytes_from by lia. do 2 f_equal. destruct b; lia. }
    all: rewrite contents_at by done; cbn [b_chip]; f_equal; apply (put_outside _ _ _ _ _ _ Hp); destruct (decide (b' = b)) as [->|Hne]; [destruct b; lia|specialize (Hsep Hne); lia].
Qed.
End Board.

(** ** The three functions *)
Section Functions.
Context {C : Type} `{ChipOk C} (hal_partitions : Z -> hal_logic_partition_t).
Implicit Types (d : board C).

Lemma board_read d off n : parts_ok hal_partitions (b_chip d) -> in_block off n = true ->
  @hal_flash_read _ (board_flash hal_partitions) off n d = Some (take (Z.to_nat n) (drop (Z.to_nat off) (board_contents hal_partitions d))).
Proof.
  intros Hpo (b & o & -> & Ho & Hn & Hon & Hb)%in_block_split. cbn [hal_flash_read board_flash]. unfold port_flash_read. rewrite (part_addr _ b o) by done.
  fold (block_part hal_partitions (b_chip d) b). unfold hal_flash_get_info. fold (block_part hal_partitions (b_chip d) b). rewrite (po_length _ _ Hpo), (wrap32_small (o + n)) by (unfold u32; lia).
  destruct (Z.ltb_spec 4096 (o + n)); [lia|]. cbn [Z.eqb]. fold (block_start hal_partitions (b_chip d) b). destruct (start_bound _ _ b o n Hpo Ho Hn Hon) as [-> _]. f_equal.
  apply list_eq. intros i. destruct (Nat.lt_ge_cases i (Z.to_nat n)).
  - rewrite !lookup_take_lt, lookup_drop by done. unfold FLASH_read_at. rewrite chip_bytes_lookup by (Z.to_euclidean_division_equations; lia).
    replace (Z.to_nat ((if b then 4096 else 0) + o) + i)%nat with (Z.to_nat ((if b then 4096 else 0) + (o + Z.of_nat i))) by (destruct b; lia).
    rewrite contents_at by lia. do 2 f_equal. lia.
  - by rewrite !lookup_take_ge.
Qed.

Lemma board_erase d off : parts_ok hal_partitions (b_chip d) -> off = 0 \/ off = 4096 ->
  exists d', @hal_flash_erase _ (board_flash hal_partitions) off 4096 d = (true, d') /\ parts_ok hal_partitions (b_chip d') /\ b_beyond d' = b_beyond d /\
    board_contents hal_partitions d' = overwrite off (replicate (Z.to_nat 4096) 0xFF) (board_contents hal_partitions d).
Proof.
  intros Hpo Hoff. set (b := 4096 <=? off). assert (Hb : off = (if b then 4096 else 0) + 0) by (destruct Hoff as [-> | ->]; done).
  cbn [hal_flash_erase board_flash]. unfold port_flash_erase. rewrite (part_addr _ b 0) by done. unfold hal_flash_get_info. fold (block_part hal_partitions (b_chip d) b). rewrite (po_length _ _ Hpo).
  change (4096 <? wrap32 (4096 + 0)) with false. cbn [Z.eqb]. fold (block_start hal_partitions (b_chip d) b).
  destruct (start_bound _ _ b 0 4096 Hpo) as [-> Hin]; [lia..|]. destruct (po_range _ _ Hpo b) as (Hm & _ & _ & _ & Hbk).
  assert (ROUND_DOWN (block_start hal_partitions (b_chip d) b + 0) FLASH_PAGE_SIZE = block_start hal_partitions (b_chip d) b) as -> by (unfold ROUND_DOWN; flash_nums; Z.to_euclidean_division_equations; lia).
  destruct (erase_spec (b_chip d) (block_start hal_partitions (b_chip d) b) 2) as (c' & E & Hp).
  { split; [done|]. split; [done|]. rewrite Z.add_0_r in Hin. exact Hin. }
  { unfold one_bank. flash_nums. lia. }
  change (2 * FLASH_PAGE_SIZE) with 4096 in E, Hp. rewrite E. eexists. split; [done|]. cbn [b_chip b_beyond snd]. split; [by eapply parts_ok_same; [apply Hp|]|]. split; [done|].
  rewrite Hb. rewrite (put_contents hal_partitions (b_chip d) c' (fun _ => 255) (b_beyond d) b 0 4096) by (done || lia || by rewrite Z.add_0_r). by destruct d.
Qed.

Lemma extent_shift k o size : k mod FLASH_PAGE_SIZE = 0 -> update_extent (k + o) size = update_extent o size.
Proof.
  intros Hk. unfold update_extent. assert (k + o - ROUND_DOWN (k + o) FLASH_PAGE_SIZE = o - ROUND_DOWN o FLASH_PAGE_SIZE) as ->; [|done].
  unfold ROUND_DOWN. flash_nums. Z.to_euclidean_division_equations. lia.
Qed.

(** A write inside a page has no bytes behind it, and a chunk of at most a page stays in
    its block. *)
Lemma extent_in_page o size : 0 <= o -> 0 < size -> o / FLASH_PAGE_SIZE = (o + size - 1) / FLASH_PAGE_SIZE -> update_extent o size = size.
Proof.
  intros Ho Hs Hp. unfold update_extent. destruct (Z.leb_spec size (FLASH_PAGE_SIZE - (o - ROUND_DOWN o FLASH_PAGE_SIZE))) as [|Hgt]; [done|].
  unfold ROUND_DOWN in Hgt. flash_nums. Z.to_euclidean_division_equations. lia.
Qed.

Lemma extent_bound o size : 0 <= o -> 0 < size <= FLASH_PAGE_SIZE -> o + size <= 4096 -> size <= update_extent o size /\ o + update_extent o size <= 4096.
Proof.
  intros Ho Hs Hos. unfold update_extent, rest_extent, ROUND_DOWN.
  destruct (Z.leb_spec size (FLASH_PAGE_SIZE - (o - o / FLASH_PAGE_SIZE * FLASH_PAGE_SIZE))); [lia|]. destruct (Z.ltb_spec size FLASH_PAGE_SIZE); flash_nums; Z.to_euclidean_division_equations; lia.
Qed.

Lemma board_write d off l : parts_ok hal_partitions (b_chip d) -> in_block off (Z.of_nat (length l)) = true -> 0 < Z.of_nat (length l) <= FLASH_PAGE_SIZE ->
  exists d', @hal_flash_write _ (board_flash hal_partitions) off l d = (true, d') /\ parts_ok hal_partitions (b_chip d') /\ b_beyond d' = b_beyond d /\
    board_contents hal_partitions d' = overwrite off (bytes_from (buffer l (b_beyond d)) (update_extent off (Z.of_nat (length l)))) (board_contents hal_partitions d).
Proof.
  intros Hpo (b & o & Hoff & Ho & Hn & Hon & Hb)%in_block_split Hl. set (n := Z.of_nat (length l)) in *. cbn [hal_flash_write board_flash]. unfold port_flash_write. rewrite (part_addr _ b o) by done.
  unfold hal_flash_get_info. fold (block_part hal_partitions (b_chip d) b). fold (block_start hal_partitions (b_chip d) b). destruct (start_bound _ _ b o n Hpo Ho Hn Hon) as [-> Hin].
  pose proof (po_range _ _ Hpo b) as Hr. fold n. destruct (update_spec (b_chip d) (block_start hal_partitions (b_chip d) b + o) (buffer l (b_beyond d)) n _ _ Hr) as (c' & -> & Hp); [lia..|].
  rewrite (extent_shift (block_start hal_partitions (b_chip d) b) o n) in Hp by apply Hr. assert (update_extent off n = update_extent o n) as -> by (rewrite Hoff; destruct b; by apply extent_shift).
  destruct (extent_bound o n Ho Hl Hon) as [Hx1 Hx2]. eexists. split; [done|]. cbn [b_chip b_beyond]. split; [by eapply parts_ok_same; [apply Hp|]|]. split; [done|].
  rewrite Hoff. rewrite (put_contents hal_partitions (b_chip d) c' (buffer l (b_beyond d)) (b_beyond d) b o (update_extent o n)) by (done || lia). by destruct d.
Qed.
End Functions.
