(* ===== verification/FlashClaims.v ===== *)
(** * What the store can rely on, on the boards

    The driver on a chip that behaves as documented: which bytes an update writes, and that
    reads, erasures and writes inside a page do what the key-value store expects.  The
    demonstrations run the store on the driver and a chip in memory. *)
From stdpp Require Import gmap.
From S2P Require Import Prelude KTypes Kv FlashDrv FlashSpec.
Local Open Scope Z_scope.

(** ** A chip in memory *)
Record mem_chip := { mc_bytes : gmap Z Z; mc_fb_mode : bool; mc_bfb2 : bool }.

Definition mc_byte (a : Z) (c : mem_chip) : Z := default 0xFF (mc_bytes c !! a).

(** The bytes are stored one after the other. *)
Fixpoint mc_store (a : Z) (l : list Z) (m : gmap Z Z) : gmap Z Z :=
  match l with [] => m | x :: l => <[a := x]> (mc_store (a + 1) l m) end.

Definition mc_erased (a n : Z) (m : gmap Z Z) : gmap Z Z := filter (fun p => ~ (a <= p.1 < a + n)) m.

#[export] Instance mem_chip_ops : Chip mem_chip := {
  chip_byte := mc_byte;
  HAL_FLASHEx_Erase bank page n c :=
    (true, {| mc_bytes := mc_erased (bank_addr bank (mc_fb_mode c) + page * FLASH_PAGE_SIZE) (n * FLASH_PAGE_SIZE) (mc_bytes c); mc_fb_mode := mc_fb_mode c; mc_bfb2 := mc_bfb2 c |});
  HAL_FLASH_Program a l c :=
    if forallb (fun i => mc_byte (a + Z.of_nat i) c =? 0xFF) (seq 0 8)
    then (true, {| mc_bytes := mc_store a l (mc_bytes c); mc_fb_mode := mc_fb_mode c; mc_bfb2 := mc_bfb2 c |}) else (false, c);
  chip_fb_mode := mc_fb_mode;
  chip_bfb2 := mc_bfb2;
}.

Lemma mc_store_lookup a l m x : mc_store a l m !! x = if (a <=? x) && (x <? a + Z.of_nat (length l)) then l !! Z.to_nat (x - a) else m !! x.
Proof.
  revert a. induction l as [|y l IH]; intros a; cbn [mc_store length].
  - destruct (Z.leb_spec a x), (Z.ltb_spec x (a + Z.of_nat 0)); cbn [andb]; done || lia.
  - destruct (decide (a = x)) as [->|Hne].
    + rewrite lookup_insert_eq, Z.sub_diag. destruct (Z.leb_spec x x), (Z.ltb_spec x (x + Z.of_nat (S (length l)))); cbn [andb]; done || lia.
    + rewrite lookup_insert_ne by done. rewrite IH. destruct (Z.leb_spec (a + 1) x), (Z.leb_spec a x), (Z.ltb_spec x (a + 1 + Z.of_nat (length l))), (Z.ltb_spec x (a + Z.of_nat (S (length l)))); cbn [andb]; try lia; try done.
      replace (Z.to_nat (x - a)) with (S (Z.to_nat (x - (a + 1)))) by lia. done.
Qed.

#[export] Instance mem_chip_ok : ChipOk mem_chip.
Proof.
  split.
  - intros c bank page n _ _ _ _. eexists. split; [done|]. split; [done|]. intros x. cbn [chip_byte mem_chip_ops]. unfold mc_byte, mc_erased. cbn [mc_bytes]. rewrite map_lookup_filter.
    change (chip_fb_mode c) with (mc_fb_mode c). set (a := bank_addr bank (mc_fb_mode c) + page * FLASH_PAGE_SIZE).
    destruct (mc_bytes c !! x) as [y|] eqn:E; cbn [mbind option_bind]; [|by destruct (_ && _)].
    case_guard as Hx; cbn [fst] in Hx; destruct (Z.leb_spec a x), (Z.ltb_spec x (a + n * FLASH_PAGE_SIZE)); cbn [andb]; done || lia.
  - intros c a l _ _ Hl He. cbn [HAL_FLASH_Program mem_chip_ops]. assert (forallb (fun i => mc_byte (a + Z.of_nat i) c =? 0xFF) (seq 0 8) = true) as ->.
    { apply forallb_forall. intros i [_ Hi]%in_seq. apply Z.eqb_eq. apply He. lia. }
    eexists. split; [done|]. split; [done|]. intros x. cbn [chip_byte mem_chip_ops]. unfold mc_byte. cbn [mc_bytes]. rewrite mc_store_lookup, Hl. change (Z.of_nat 8) with 8.
    destruct (Z.leb_spec a x), (Z.ltb_spec x (a + 8)); cbn [andb]; try done. rewrite <- nth_lookup. apply nth_indep. lia.
Qed.

Section Claims.
Context {C : Type} `{ChipOk C}.


(** C29: On the boards the store sees its two partitions as one array of 8192 bytes: reads
    inside a block return it, erasing a block sets it to 0xFF, and a write inside a page of a
    block changes exactly the bytes that are written. *)
Theorem board_flash_exact hal_partitions (d : board C) :
  parts_ok hal_partitions (b_chip d) ->
  let cont := board_contents hal_partitions in
  (forall off n, in_block off n = true -> @hal_flash_read _ (board_flash hal_partitions) off n d = Some (take (Z.to_nat n) (drop (Z.to_nat off) (cont d)))) /\
  (forall off, off = 0 \/ off = BLK_SIZE ->
     exists d', @hal_flash_erase _ (board_flash hal_partitions) off BLK_SIZE d = (true, d') /\ cont d' = overwrite off (replicate (Z.to_nat BLK_SIZE) 0xFF) (cont d)) /\
  (forall off l, in_block off (Z.of_nat (length l)) = true -> l <> [] -> off / FLASH_PAGE_SIZE = (off + Z.of_nat (length l) - 1) / FLASH_PAGE_SIZE ->
     exists d', @hal_flash_write _ (board_flash hal_partitions) off l d = (true, d') /\ cont d' = overwrite off l (cont d)).
Proof.
  intros Hpo cont. split_and!.
  - intros off n. by apply board_read.
  - intros off Hoff. destruct (board_erase hal_partitions d off Hpo Hoff) as (d' & E & _ & _ & Hc). by exists d'.
  - intros off l Hb Hl Hp. assert (Hn : 0 < Z.of_nat (length l)) by (destruct l; [done|cbn; lia]). pose proof Hb as (b & o & Hoff & Ho & _)%in_block_split.
    assert (Ho' : 0 <= off) by (destruct b; lia). destruct (board_write hal_partitions d off l Hpo Hb) as (d' & E & _ & _ & Hc).
    { split; [done|]. flash_nums. Z.to_euclidean_division_equations. lia. }
    exists d'. split; [done|]. unfold cont. rewrite Hc, extent_in_page by done. f_equal. apply list_eq. intros i. destruct (Nat.lt_ge_cases i (length l)) as [Hi|Hi].
    + rewrite lookup_bytes_from by lia. unfold buffer. destruct (Z.ltb_spec (Z.of_nat i) (Z.of_nat (length l))); [|lia]. rewrite Nat2Z.id.
      destruct (lookup_lt_is_Some_2 l i Hi) as [y Hy]. rewrite Hy. f_equal. by apply nth_lookup_Some.
    + rewrite !lookup_ge_None_2; [done|done|]. rewrite length_bytes_from. lia.
Qed.
End Claims.

(** ** The store on the driver *)
Module BoardCases.
Definition parts (pno : Z) : hal_logic_partition_t := {| partition_start_addr := FLASH_BASE + 0x70000 + pno * 0x1000; partition_length := 0x1000 |}.
#[export] Instance drv : Flash (board mem_chip) := board_flash parts.

Definition blank_chip : mem_chip := {| mc_bytes := ∅; mc_fb_mode := false; mc_bfb2 := false |}.
(** In memory behind every buffer: an old item with the key [107], and erased bytes. *)
Definition stale (i : Z) : Z := nth (Z.to_nat i) [73; 0xEE; 0; 1; 1; 0; 0; 0; 107; 9; 0; 0] 0xFF.
Definition start : kv_mgr_t (board mem_chip) := (aos_kv_init (kv_mgr_zero {| b_chip := blank_chip; b_beyond := stale |})).2.
Definition sets (kvs : list (list Z * list Z)) (s : kv_mgr_t (board mem_chip)) : kv_mgr_t (board mem_chip) := fold_left (fun s p => (aos_kv_set p.1 p.2 s).2) kvs s.

(** A key is deleted.  The fourth long item crosses the middle of the block, [FLASH_update]
    writes bytes from behind its buffer behind the log, and the deleted key is back. *)
Definition before : kv_mgr_t (board mem_chip) :=
  sets [([1], replicate 512 1); ([2], replicate 512 2); ([3], replicate 512 3)] (aos_kv_del [107] (aos_kv_set [107] [5] start).2).2.
Definition behind : kv_mgr_t (board mem_chip) := sets [([4], replicate 512 4)] before.

Example crossing_brings_back :
  (aos_kv_get [107] 10 before).1.1.1 = RES_ITEM_NOT_FOUND /\ (aos_kv_get [4] 600 behind).1 = (RES_OK, replicate 512 4, 512) /\
  (aos_kv_get [107] 10 behind).1 = (RES_OK, [9], 1).
Proof. vm_compute. split_and!; reflexivity. Qed.

(** The check of [FLASH_write_at] returns 0 when the first word is right, whatever follows;
    and the last page of the lower bank cannot be erased, so that it is never updated,
    without the caller being told. *)
Example check_stops_late : check_loop FLASH_BASE [[0xFF; 0xFF; 0xFF; 0xFF]; [1; 2; 3; 4]] (-1) blank_chip = 0.
Proof. vm_compute. reflexivity. Qed.

Definition last_page : Z := FLASH_BASE + FLASH_BANK_SIZE - FLASH_PAGE_SIZE.
Definition at_last (pno : Z) : hal_logic_partition_t := {| partition_start_addr := last_page; partition_length := 0x800 |}.

Example last_page_not_written :
  (FLASH_unlock_erase last_page FLASH_PAGE_SIZE blank_chip).1 = -1 /\
  (port_flash_write at_last 0 0 (fun _ => 7) 4 blank_chip).1.1 = 0 /\ chip_byte last_page (port_flash_write at_last 0 0 (fun _ => 7) 4 blank_chip).2 = 0xFF.
Proof. vm_compute. split_and!; reflexivity. Qed.

(** A read of one byte writes four bytes to the buffer. *)
Example read_writes_words : length (port_flash_read parts CONFIG_AOS_KV_PTN 0 1 blank_chip).2 = 4%nat.
Proof. vm_compute. reflexivity. Qed.


Lemma board_parts : parts_ok parts blank_chip.
Proof. split; [by intros []|intros []; repeat split; vm_compute; try reflexivity; try discriminate; by left|by left]. Qed.

Lemma board_flash_exact_witness :
  let d := {| b_chip := blank_chip; b_beyond := stale |} in let cont := board_contents parts in
  (forall off n, in_block off n = true -> @hal_flash_read _ (board_flash parts) off n d = Some (take (Z.to_nat n) (drop (Z.to_nat off) (cont d)))) /\
  (forall off, off = 0 \/ off = BLK_SIZE -> exists d', @hal_flash_erase _ (board_flash parts) off BLK_SIZE d = (true, d') /\ cont d' = overwrite off (replicate (Z.to_nat BLK_SIZE) 0xFF) (cont d)) /\
  (forall off l, in_block off (Z.of_nat (length l)) = true -> l <> [] -> off / FLASH_PAGE_SIZE = (off + Z.of_nat (length l) - 1) / FLASH_PAGE_SIZE ->
     exists d', @hal_flash_write _ (board_flash parts) off l d = (true, d') /\ cont d' = overwrite off l (cont d)).
Proof. apply (board_flash_exact parts {| b_chip := blank_chip; b_beyond := stale |}). exact board_parts. Defined.
End BoardCases.
