(* ===== verification/Vfs.v ===== *)
(** * The virtual file system ([vfs.c], [vfs_inode.c], [vfs_register.c])

    Drivers and file systems are registered under a path, in a table of 25 nodes; an open
    file is an entry of a table of 50 files that refers to a node, and its descriptor is
    the index of the entry plus 64.  A node counts the files that refer to it.

    A call is a function on the state [vfs_t] that returns nothing when the code has
    undefined behaviour: a null pointer is followed, or the union of the operations of a node
    is read through the member that was not stored.  The calls that run a driver release the
    mutex of the file system first; they are split there ([open_enter], [open_driver], ...),
    so that other tasks can be interleaved.  A driver sees the node and the file and may
    change the private data and the offset of the file and its own state [W].

    Mutexes, memory, and the descriptors below 64, which belong to sockets, are the interface
    [Aos].  Polling is in the file of the event device. *)
From Stdlib Require Import Ascii.
From stdpp Require Import strings.
From S2P Require Import Prelude KTypes.
Local Open Scope Z_scope.

(** ** Calls that may be undefined *)
Definition ub (S A : Type) : Type := S -> option (A * S).
#[export] Instance ub_ret S : MRet (ub S) := fun A x s => Some (x, s).
#[export] Instance ub_bind S : MBind (ub S) := fun A B k m s => match m s with Some (x, s) => k x s | None => None end.
Definition undefined {S A} : ub S A := fun _ => None.
Definition get {S} : ub S S := fun s => Some (s, s).
Definition modify {S} (f : S -> S) : ub S unit := fun s => Some (tt, f s).

Definition EPERM : Z := 1.
Definition ENOENT : Z := 2.
Definition ENOMEM : Z := 12.
Definition EBUSY : Z := 16.
Definition ENODEV : Z := 19.
Definition EINVAL : Z := 22.
Definition ENFILE : Z := 23.
Definition ENAMETOOLONG : Z := 36.
Definition ENOSYS : Z := 38.
Definition VFS_SUCCESS : Z := 0.
Definition AOS_CONFIG_VFS_DEV_NODES : nat := 25.
Definition AOS_CONFIG_VFS_FD_OFFSET : Z := 64.
Definition MAX_FILE_NUM : nat := AOS_CONFIG_VFS_DEV_NODES * 2.
Definition PATH_MAX : Z := 256.

Inductive vfs_type := VFS_TYPE_NOT_INIT | VFS_TYPE_CHAR_DEV | VFS_TYPE_BLOCK_DEV | VFS_TYPE_FS_DEV.
#[export] Instance vfs_type_eq_dec : EqDecision vfs_type.
Proof. solve_decision. Defined.

(** [union inode_ops_t]: the member that was stored last, a pointer to a table. *)
Inductive inode_ops_t := no_ops | i_ops (ops : Z) | i_fops (ops : Z).

Record inode_t := { ops : inode_ops_t; i_arg : Z; i_name : option string; i_flags : Z; type : vfs_type; refs : Z; mutex : Z }.
#[export] Instance eta_inode : Eta inode_t := {| eta_expand := fun n => {|
  ops := ops n; i_arg := i_arg n; i_name := i_name n; i_flags := i_flags n; type := type n; refs := refs n; mutex := mutex n |} |}.

(** All bytes zero. *)
Definition inode_zero : inode_t := {| ops := no_ops; i_arg := 0; i_name := None; i_flags := 0; type := VFS_TYPE_NOT_INIT; refs := 0; mutex := 0 |}.

(** [node] is the index of the node, if any. *)
Record file_t := { node : option nat; f_arg : Z; offset : Z }.
#[export] Instance eta_file : Eta file_t := {| eta_expand := fun f => {| node := node f; f_arg := f_arg f; offset := offset f |} |}.
Definition file_zero : file_t := {| node := None; f_arg := 0; offset := 0 |}.

Definition INODE_IS_TYPE (i : inode_t) (t : vfs_type) : bool := bool_decide (type i = t).
Definition INODE_IS_FS (i : inode_t) : bool := INODE_IS_TYPE i VFS_TYPE_FS_DEV.
Definition INODE_SET_TYPE (t : vfs_type) (i : inode_t) : inode_t := i <| type := t |>.
Definition INODE_SET_CHAR : inode_t -> inode_t := INODE_SET_TYPE VFS_TYPE_CHAR_DEV.
Definition INODE_SET_FS : inode_t -> inode_t := INODE_SET_TYPE VFS_TYPE_FS_DEV.

(** A function of a driver: the node and the file, to a result, the file and the state. *)
Definition drv (W A : Type) : Type := inode_t -> file_t -> W -> A * file_t * W.

(** A read returns the status and the bytes of the buffer; the argument of [ioctl] comes with
    the bytes it points to; [poll] gets the flag, the entry to notify and the argument. *)
Record file_ops (W : Type) := {
  fo_open : option (drv W Z);
  fo_close : option (drv W Z);
  fo_read : option (Z -> drv W (Z * list Z));
  fo_write : option (list Z -> drv W Z);
  fo_ioctl : option (Z -> Z * list Z -> drv W Z);
  fo_poll : option (bool -> Z -> Z -> drv W Z);
}.
Record fs_ops (W : Type) := {
  fs_open : option (string -> Z -> drv W Z);
  fs_close : option (drv W Z);
  fs_read : option (Z -> drv W (Z * list Z));
  fs_write : option (list Z -> drv W Z);
  fs_lseek : option (Z -> Z -> drv W Z);
  fs_sync : option (drv W Z);
  fs_stat : option (string -> drv W (Z * list Z));
  fs_unlink : option (string -> drv W Z);
  fs_rename : option (string -> string -> drv W Z);
  fs_opendir : option (string -> drv W Z);
  fs_readdir : option (Z -> drv W Z);
  fs_closedir : option (Z -> drv W Z);
  fs_mkdir : option (string -> drv W Z);
  fs_ioctl : option (Z -> Z * list Z -> drv W Z);
}.
Arguments fo_open {W}. Arguments fo_close {W}. Arguments fo_read {W}. Arguments fo_write {W}. Arguments fo_ioctl {W}. Arguments fo_poll {W}.
Arguments fs_open {W}. Arguments fs_close {W}. Arguments fs_read {W}. Arguments fs_write {W}. Arguments fs_lseek {W}. Arguments fs_sync {W}.
Arguments fs_stat {W}. Arguments fs_unlink {W}. Arguments fs_rename {W}. Arguments fs_opendir {W}. Arguments fs_readdir {W}.
Arguments fs_closedir {W}. Arguments fs_mkdir {W}. Arguments fs_ioctl {W}.

(** What the file system uses of the system. *)
Class Aos (W : Type) := {
  aos_mutex_new : W -> Z * Z * W;              (** status and mutex *)
  aos_mutex_lock : Z -> W -> Z * W;            (** waits forever *)
  aos_mutex_unlock : Z -> W -> Z * W;
  aos_malloc_ok : Z -> W -> bool * W;          (** is there memory of this size? *)
  trap_open : string -> Z -> W -> Z * W;
  trap_close : Z -> W -> Z * W;
  trap_read : Z -> Z -> W -> Z * list Z * W;
  trap_write : Z -> list Z -> W -> Z * W;
  trap_fcntl : Z -> Z -> Z -> W -> Z * W;
}.

Record vfs_t (W : Type) := {
  g_vfs_init : Z;
  g_vfs_mutex : Z;
  g_vfs_dev_nodes : list inode_t;
  files : list file_t;
  dd_vfs_fd : gmap Z Z;    (** the descriptor stored in a directory object *)
  world : W;
}.
Arguments g_vfs_init {W}. Arguments g_vfs_mutex {W}. Arguments g_vfs_dev_nodes {W}. Arguments files {W}. Arguments dd_vfs_fd {W}. Arguments world {W}.
#[export] Instance eta_vfs {W} : Eta (vfs_t W) := {| eta_expand := fun s => {|
  g_vfs_init := g_vfs_init s; g_vfs_mutex := g_vfs_mutex s; g_vfs_dev_nodes := g_vfs_dev_nodes s; files := files s; dd_vfs_fd := dd_vfs_fd s; world := world s |} |}.

(** The first index whose element satisfies [p]; the loops of the tables. *)
Fixpoint find_index {A} (p : A -> bool) (l : list A) : option nat :=
  match l with [] => None | x :: l => if p x then Some O else S <$> find_index p l end.

Section Vfs.
Context {W : Type} `{Aos W} (fops : Z -> file_ops W) (fsops : Z -> fs_ops W).
Abbreviation M := (ub (vfs_t W)).
Implicit Types (n f : nat) (fd flags err ret : Z) (path : string).

(** ** The system *)
Definition on_world {A} (g : W -> A * W) : M A := fun s => let '(x, w) := g (world s) in Some (x, s <| world := w |>).
Definition vfs_lock : M Z := s ← get; on_world (aos_mutex_lock (g_vfs_mutex s)).
Definition vfs_unlock : M Z := s ← get; on_world (aos_mutex_unlock (g_vfs_mutex s)).

(** A pointer to a node is followed. *)
Definition deref (p : option nat) : M nat := match p with Some n => mret n | None => undefined end.

(** [&g_vfs_dev_nodes[n]] and [&files[f]] followed. *)
Definition node_at n : M inode_t := s ← get; match g_vfs_dev_nodes s !! n with Some i => mret i | None => undefined end.
Definition file_at f : M file_t := s ← get; match files s !! f with Some x => mret x | None => undefined end.
Definition set_node n (g : inode_t -> inode_t) : M unit := _ ← node_at n; modify (fun s => s <| g_vfs_dev_nodes ::= alter g n |>).
Definition set_file f (g : file_t -> file_t) : M unit := _ ← file_at f; modify (fun s => s <| files ::= alter g f |>).

(** ** [vfs_inode.c] *)
Definition inode_init : M unit := modify (fun s => s <| g_vfs_dev_nodes := replicate AOS_CONFIG_VFS_DEV_NODES inode_zero |>).

Definition inode_alloc : M (option nat) := s ← get; mret (find_index (fun i => INODE_IS_TYPE i VFS_TYPE_NOT_INIT) (g_vfs_dev_nodes s)).

Definition inode_del n : M Z :=
  i ← node_at n;
  if 0 <? refs i then mret (- EBUSY)
  else
    _ ← (if refs i =? 0 then set_node n (fun i => i <| i_name := None |> <| i_arg := 0 |> <| i_flags := 0 |> <| type := VFS_TYPE_NOT_INIT |>) else mret tt);
    mret VFS_SUCCESS.

(** A file system matches the paths below its name, every node its own name. *)
Definition inode_matches path (i : inode_t) : bool :=
  match i_name i with
  | None => false
  | Some name =>
      (INODE_IS_FS i && String.prefix name path && bool_decide (String.get (String.length name) path = Some "/"%char)) ||
      bool_decide (name = path)
  end.

Definition inode_open path : M (option nat) := s ← get; mret (find_index (inode_matches path) (g_vfs_dev_nodes s)).

Definition inode_ptr_get (fd : Z) : Z * option nat :=
  if (fd <? 0) || (Z.of_nat AOS_CONFIG_VFS_DEV_NODES <=? fd) then (- EINVAL, None) else (VFS_SUCCESS, Some (Z.to_nat fd)).

Definition inode_ref n : M unit := set_node n (fun i => i <| refs ::= fun r => wrap8 (r + 1) |>).
Definition inode_unref n : M unit := set_node n (fun i => if 0 <? refs i then i <| refs ::= fun r => r - 1 |> else i).
Definition inode_busy n : M bool := i ← node_at n; mret (0 <? refs i).

(** The loop looks at [g_vfs_dev_nodes[count]]. *)
Definition inode_avail_count : M Z :=
  s ← get;
  mret (Nat.iter AOS_CONFIG_VFS_DEV_NODES (fun count =>
    match g_vfs_dev_nodes s !! Z.to_nat count with Some i => if INODE_IS_TYPE i VFS_TYPE_NOT_INIT then count + 1 else count | None => count end) 0).

Definition inode_set_name path n : M Z :=
  ok ← on_world (aos_malloc_ok (Z.of_nat (String.length path) + 1));
  if negb ok then mret (- ENOMEM) else _ ← set_node n (fun i => i <| i_name := Some path |>); mret VFS_SUCCESS.

(** The status and the node that was stored through [inode]. *)
Definition inode_reserve (path : option string) : M (Z * option nat) :=
  match path with
  | None => mret (- EINVAL, None)
  | Some path =>
      if negb (bool_decide (String.get 0 path = Some "/"%char)) then mret (- EINVAL, None)
      else
        r ← inode_alloc;
        match r with
        | None => mret (- ENOMEM, None)
        | Some n =>
            ret ← inode_set_name path n;
            if ret <? 0 then mret (ret, None) else mret (VFS_SUCCESS, Some n)
        end
  end.

Definition inode_release (path : option string) : M Z :=
  match path with
  | None => mret (- EINVAL)
  | Some path =>
      r ← inode_open path;
      match r with
      | None => mret (- ENODEV)
      | Some n => ret ← inode_del n; if ret <? 0 then mret ret else mret VFS_SUCCESS
      end
  end.

(** ** [vfs_register.c] *)
Definition register_end (node : option nat) ret : M Z :=
  err ← vfs_unlock;
  if negb (err =? 0) then
    n ← deref node; _ ← set_node n (fun _ => inode_zero); mret err
  else mret ret.

Definition aos_register_driver (path : option string) (ops_p : Z) (arg : Z) : M Z :=
  err ← vfs_lock;
  if negb (err =? 0) then mret err
  else
    r ← inode_reserve path;
    let '(ret, node) := r in
    ret ← (if ret =? VFS_SUCCESS then
             n ← deref node;
             _ ← set_node n (fun i => INODE_SET_CHAR i <| ops := i_ops ops_p |> <| i_arg := arg |>);
             m ← on_world aos_mutex_new;
             _ ← (if m.1 =? 0 then set_node n (fun i => i <| mutex := m.2 |>) else mret tt);
             mret m.1
           else mret ret);
    register_end node ret.

Definition aos_register_fs (path : option string) (ops_p : Z) (arg : Z) : M Z :=
  err ← vfs_lock;
  if negb (err =? 0) then mret err
  else
    r ← inode_reserve path;
    let '(ret, node) := r in
    _ ← (if ret =? VFS_SUCCESS then n ← deref node; set_node n (fun i => INODE_SET_FS i <| ops := i_fops ops_p |> <| i_arg := arg |>) else mret tt);
    register_end node ret.

(** [aos_unregister_driver] and [aos_unregister_fs] are the same. *)
Definition aos_unregister_driver (path : option string) : M Z :=
  err ← vfs_lock;
  if negb (err =? 0) then mret err
  else
    ret ← inode_release path;
    err ← vfs_unlock;
    if negb (err =? 0) then mret err else mret ret.
Definition aos_unregister_fs (path : option string) : M Z := aos_unregister_driver path.

(** ** [vfs.c]: descriptors *)
Definition vfs_init : M Z :=
  s ← get;
  if g_vfs_init s =? 1 then mret VFS_SUCCESS
  else
    m ← on_world aos_mutex_new;
    if negb (m.1 =? VFS_SUCCESS) then mret m.1
    else
      _ ← modify (fun s => s <| g_vfs_mutex := m.2 |>);
      _ ← inode_init;
      _ ← modify (fun s => s <| g_vfs_init := 1 |>);
      mret m.1.

Definition get_fd f : Z := Z.of_nat f + AOS_CONFIG_VFS_FD_OFFSET.

Definition get_file fd : M (option nat) :=
  let fd := fd - AOS_CONFIG_VFS_FD_OFFSET in
  if (fd <? 0) || (Z.of_nat MAX_FILE_NUM <=? fd) then mret None
  else x ← file_at (Z.to_nat fd); mret (match node x with Some _ => Some (Z.to_nat fd) | None => None end).

Definition new_file n : M (option nat) :=
  s ← get;
  match find_index (fun x => bool_decide (node x = None)) (files s) with
  | None => mret None
  | Some f =>
      _ ← set_file f (fun _ => {| node := Some n; f_arg := 0; offset := 0 |});
      _ ← inode_ref n;
      mret (Some f)
  end.

Definition del_file f : M unit :=
  x ← file_at f;
  n ← deref (node x);
  _ ← inode_unref n;
  set_file f (fun x => x <| node := None |>).

(** ** Calls of drivers *)
Definition iops_of (i : inode_t) : M (file_ops W) := match ops i with i_ops p => mret (fops p) | _ => undefined end.
Definition ifops_of (i : inode_t) : M (fs_ops W) := match ops i with i_fops p => mret (fsops p) | _ => undefined end.

(** A driver may change the private data and the offset of the file. *)
Definition run_drv {A} (d : drv W A) (i : inode_t) (x : file_t) f : M A := fun s =>
  let '(r, y, w) := d i x (world s) in
  Some (r, s <| files ::= alter (fun x => x <| f_arg := f_arg y |> <| offset := offset y |>) f |> <| world := w |>).
Definition call_drv {A} (d : drv W A) n f : M A := i ← node_at n; x ← file_at f; run_drv d i x f.

Definition call_or {A} (def : A) (d : option (drv W A)) n f : M A := match d with Some d => call_drv d n f | None => mret def end.

(** The operation of the file system or of the device. *)
Definition node_call {A} (def : A) (dfs : fs_ops W -> option (drv W A)) (dc : file_ops W -> option (drv W A)) n f : M A :=
  i ← node_at n;
  if INODE_IS_FS i then o ← ifops_of i; call_or def (dfs o) n f else o ← iops_of i; call_or def (dc o) n f.

(** An operation that only file systems have. *)
Definition fs_call {A} (def : A) (dfs : fs_ops W -> option (drv W A)) n f : M A :=
  i ← node_at n;
  if INODE_IS_FS i then o ← ifops_of i; call_or def (dfs o) n f else mret def.

(** ** [vfs.c]: calls

    A call that ends before its driver returns [inl]; else the file and the node. *)
Definition open_enter (path : option string) flags : M (Z + nat * nat) :=
  match path with
  | None => mret (inl (- EINVAL))
  | Some path =>
      if PATH_MAX <? Z.of_nat (String.length path) then mret (inl (- ENAMETOOLONG))
      else
        ret ← vfs_lock;
        if negb (ret =? 0) then mret (inl ret)
        else
          r ← inode_open path;
          match r with
          | None => _ ← vfs_unlock; ret ← on_world (trap_open path flags); mret (inl ret)
          | Some n =>
              _ ← set_node n (fun i => i <| i_flags := flags |>);
              file ← new_file n;
              _ ← vfs_unlock;
              match file with None => mret (inl (- ENFILE)) | Some f => mret (inr (f, n)) end
          end
  end.

(** The file is deleted without the mutex when the driver fails. *)
Definition open_driver path flags n f : M Z :=
  ret ← node_call VFS_SUCCESS (fun o => (fun d => d path flags) <$> fs_open o) fo_open n f;
  if negb (ret =? VFS_SUCCESS) then _ ← del_file f; mret ret else mret (get_fd f).

Definition aos_open (path : option string) flags : M Z :=
  r ← open_enter path flags;
  match r, path with
  | inr (f, n), Some path => open_driver path flags n f
  | inr _, None => undefined
  | inl ret, _ => mret ret
  end.

(** The file that is being closed, after its driver was called. *)
Definition close_driver fd : M (Z + nat) :=
  r ← get_file fd;
  match r with
  | None => ret ← on_world (trap_close fd); mret (inl ret)
  | Some f => x ← file_at f; n ← deref (node x); _ ← node_call VFS_SUCCESS fs_close fo_close n f; mret (inr f)
  end.

Definition close_leave f : M Z :=
  ret ← vfs_lock;
  if negb (ret =? 0) then mret ret else _ ← del_file f; _ ← vfs_unlock; mret ret.

Definition aos_close fd : M Z :=
  r ← close_driver fd;
  match r with inl ret => mret ret | inr f => close_leave f end.

(** A call on an open file: a driver's operation, or what there is instead. *)
Definition with_file {A} fd (none : M A) (k : nat -> nat -> M A) : M A :=
  r ← get_file fd;
  match r with
  | None => none
  | Some f => x ← file_at f; n ← deref (node x); k n f
  end.

Definition aos_read fd nbytes : M (Z * list Z) :=
  with_file fd (on_world (trap_read fd nbytes)) (node_call (-1, []) (fun o => (fun d => d nbytes) <$> fs_read o) (fun o => (fun d => d nbytes) <$> fo_read o)).

Definition aos_write fd (buf : list Z) : M Z :=
  with_file fd (on_world (trap_write fd buf)) (node_call (-1) (fun o => (fun d => d buf) <$> fs_write o) (fun o => (fun d => d buf) <$> fo_write o)).

Definition aos_ioctl fd cmd (arg : Z * list Z) : M Z :=
  if fd <? 0 then mret (- EINVAL)
  else with_file fd (mret (- ENOENT)) (node_call (- ENOSYS) (fun o => (fun d => d cmd arg) <$> fs_ioctl o) (fun o => (fun d => d cmd arg) <$> fo_ioctl o)).

Definition aos_lseek fd (off whence : Z) : M Z :=
  with_file fd (mret (- ENOENT)) (fs_call (- ENOSYS) (fun o => (fun d => d off whence) <$> fs_lseek o)).

Definition aos_sync fd : M Z := with_file fd (mret (- ENOENT)) (fs_call (- ENOSYS) fs_sync).

(** The calls on a path open a file for the time of the call. *)
Definition path_enter path : M (Z + nat * nat) :=
  err ← vfs_lock;
  if negb (err =? 0) then mret (inl err)
  else
    r ← inode_open path;
    match r with
    | None => _ ← vfs_unlock; mret (inl (- ENODEV))
    | Some n =>
        file ← new_file n;
        _ ← vfs_unlock;
        match file with None => mret (inl (- ENOENT)) | Some f => mret (inr (f, n)) end
    end.

Definition path_leave f ret : M Z :=
  err ← vfs_lock;
  if negb (err =? 0) then mret err else _ ← del_file f; _ ← vfs_unlock; mret ret.

Definition path_call path (dfs : fs_ops W -> option (drv W Z)) : M Z :=
  r ← path_enter path;
  match r with
  | inl ret => mret ret
  | inr (f, n) => ret ← fs_call (- ENOSYS) dfs n f; path_leave f ret
  end.

(** The status and the bytes of [struct stat]. *)
Definition aos_stat (path : option string) : M (Z * list Z) :=
  match path with
  | None => mret (- EINVAL, [])
  | Some path =>
      r ← path_enter path;
      match r with
      | inl ret => mret (ret, [])
      | inr (f, n) => st ← fs_call (- ENOSYS, []) (fun o => (fun d => d path) <$> fs_stat o) n f; ret ← path_leave f st.1; mret (ret, st.2)
      end
  end.

Definition aos_unlink (path : option string) : M Z :=
  match path with None => mret (- EINVAL) | Some path => path_call path (fun o => (fun d => d path) <$> fs_unlink o) end.

Definition aos_rename (oldpath newpath : option string) : M Z :=
  match oldpath, newpath with
  | Some oldpath, Some newpath => path_call oldpath (fun o => (fun d => d oldpath newpath) <$> fs_rename o)
  | _, _ => mret (- EINVAL)
  end.

Definition aos_mkdir (path : option string) : M Z :=
  match path with None => mret (- EINVAL) | Some path => path_call path (fun o => (fun d => d path) <$> fs_mkdir o) end.

(** A directory keeps its file while it is open. *)
Definition opendir_leave f (dp : Z) : M Z :=
  if dp =? 0 then
    err ← vfs_lock;
    if negb (err =? 0) then mret 0 else _ ← del_file f; _ ← vfs_unlock; mret 0
  else _ ← modify (fun s => s <| dd_vfs_fd ::= <[dp := get_fd f]> |>); mret dp.

Definition aos_opendir (path : option string) : M Z :=
  match path with
  | None => mret 0
  | Some path =>
      r ← path_enter path;
      match r with
      | inl _ => mret 0
      | inr (f, n) => dp ← fs_call 0 (fun o => (fun d => d path) <$> fs_opendir o) n f; opendir_leave f dp
      end
  end.

(** [dir->dd_vfs_fd] *)
Definition dir_fd (dir : Z) : M Z := s ← get; match dd_vfs_fd s !! dir with Some fd => mret fd | None => undefined end.

Definition aos_closedir (dir : Z) : M Z :=
  if dir =? 0 then mret (- EINVAL)
  else
    fd ← dir_fd dir;
    with_file fd (mret (- ENOENT)) (fun n f => ret ← fs_call (- ENOSYS) (fun o => (fun d => d dir) <$> fs_closedir o) n f; path_leave f ret).

Definition aos_readdir (dir : Z) : M Z :=
  if dir =? 0 then mret 0
  else fd ← dir_fd dir; with_file fd (mret 0) (fs_call 0 (fun o => (fun d => d dir) <$> fs_readdir o)).

Definition aos_fcntl fd (cmd val : Z) : M Z :=
  if fd <? 0 then mret (- EINVAL) else if fd <? AOS_CONFIG_VFS_FD_OFFSET then on_world (trap_fcntl fd cmd val) else mret 0.

(** One round: [Some] is the result of the call, [None] goes on.  The operation is read as
    that of a device. *)
Definition ioctl_round cmd arg fd : M (option Z) :=
  err ← vfs_lock;
  if negb (err =? 0) then mret (Some err)
  else
    r ← get_file fd;
    match r with
    | None => _ ← vfs_unlock; mret (Some (- ENOENT))
    | Some f =>
        err ← vfs_unlock;
        if negb (err =? 0) then mret (Some err)
        else
          x ← file_at f;
          n ← deref (node x);
          i ← node_at n;
          o ← iops_of i;
          match fo_ioctl o with
          | Some d => err ← call_drv (d cmd arg) n f; if negb (err =? VFS_SUCCESS) then mret (Some err) else mret None
          | None => mret None
          end
    end.

Fixpoint ioctl_loop cmd arg (fds : list Z) : M Z :=
  match fds with
  | [] => mret VFS_SUCCESS
  | fd :: fds => r ← ioctl_round cmd arg fd; match r with Some ret => mret ret | None => ioctl_loop cmd arg fds end
  end.

Definition aos_ioctl_in_loop cmd arg : M Z := ioctl_loop cmd arg (get_fd <$> seq 0 AOS_CONFIG_VFS_DEV_NODES).
End Vfs.
