(* ===== verification/VfsInv.v ===== *)
(** * Well-formed tables of the virtual file system

    The reference count of a node is the number of files that refer to it, files refer to
    registered nodes, and the member of the union of operations is the one for the type of
    the node.  Every call keeps the tables well-formed and is defined, also when the calls
    of several tasks are interleaved where they release the mutex. *)
From stdpp Require Import strings.
From S2P Require Import Prelude KTypes Vfs.
Local Open Scope Z_scope.

(** ** Total correctness of calls *)
Definition triple {S A} (P : S -> Prop) (m : ub S A) (Q : A -> S -> Prop) : Prop :=
  forall s, P s -> exists x s', m s = Some (x, s') /\ Q x s'.

Section Triples.
Context {S : Type}.
Implicit Types (P : S -> Prop).

Lemma triple_ret {A} P (x : A) (Q : A -> S -> Prop) : (forall s, P s -> Q x s) -> triple P (mret x) Q.
Proof. intros H s Hs. exists x, s. split; [done|by apply H]. Qed.

Lemma triple_bind {A B} P (m : ub S A) (k : A -> ub S B) Q R : triple P m Q -> (forall x, triple (Q x) (k x) R) -> triple P (mbind k m) R.
Proof. intros Hm Hk s Hs. destruct (Hm s Hs) as (x & s1 & E & Hq). destruct (Hk x s1 Hq) as (y & s2 & E2 & Hr). exists y, s2. split; [|done]. unfold mbind, ub_bind. by rewrite E. Qed.

Lemma triple_conseq {A} P P' (m : ub S A) (Q Q' : A -> S -> Prop) : triple P' m Q' -> (forall s, P s -> P' s) -> (forall x s, Q' x s -> Q x s) -> triple P m Q.
Proof. intros Hm Hp Hq s Hs. destruct (Hm s (Hp s Hs)) as (x & s' & E & H). exists x, s'. split; [done|by apply Hq]. Qed.

Lemma triple_if {A} P (b : bool) (m1 m2 : ub S A) Q : (b = true -> triple P m1 Q) -> (b = false -> triple P m2 Q) -> triple P (if b then m1 else m2) Q.
Proof. destruct b; auto. Qed.

Lemma triple_get P (Q : S -> S -> Prop) : (forall s, P s -> Q s s) -> triple P get Q.
Proof. intros H s Hs. exists s, s. split; [done|by apply H]. Qed.

Lemma triple_modify P (g : S -> S) (Q : unit -> S -> Prop) : (forall s, P s -> Q tt (g s)) -> triple P (modify g) Q.
Proof. intros H s Hs. exists tt, (g s). split; [done|by apply H]. Qed.
End Triples.

(** ** The tables *)
Definition node_ok (i : inode_t) : Prop :=
  match type i with
  | VFS_TYPE_NOT_INIT => i_name i = None
  | VFS_TYPE_CHAR_DEV => i_name i <> None /\ exists p, ops i = i_ops p
  | VFS_TYPE_FS_DEV => i_name i <> None /\ exists p, ops i = i_fops p
  | VFS_TYPE_BLOCK_DEV => False
  end.

(** The number of files that refer to node [n]. *)
Definition users (n : nat) (fs : list (option nat)) : nat := length (filter (fun o => o = Some n) fs).

Record wf (ns : list inode_t) (fs : list (option nat)) : Prop := {
  wf_nodes : length ns = AOS_CONFIG_VFS_DEV_NODES;
  wf_files : length fs = MAX_FILE_NUM;
  wf_ok : forall n i, ns !! n = Some i -> node_ok i;
  wf_refs : forall n i, ns !! n = Some i -> refs i = Z.of_nat (users n fs);
  wf_open : forall f n, fs !! f = Some (Some n) -> exists i, ns !! n = Some i /\ type i <> VFS_TYPE_NOT_INIT;
}.

Lemma users_le n fs : (users n fs <= length fs)%nat.
Proof. apply length_filter. Qed.

Lemma users_insert n fs f o o' : fs !! f = Some o ->
  (users n (<[f := o']> fs) + (if decide (o = Some n) then 1 else 0) = users n fs + (if decide (o' = Some n) then 1 else 0))%nat.
Proof.
  unfold users. revert f. induction fs as [|x fs IH]; intros [|f] Hf; [done..| |]; simpl in Hf.
  - simplify_eq. cbn [insert list_insert]. rewrite !filter_cons. repeat case_decide; cbn [length]; lia.
  - change (<[S f := o']> (x :: fs)) with (x :: <[f := o']> fs). rewrite !filter_cons. specialize (IH f Hf). revert IH. repeat case_decide; cbn [length]; lia.
Qed.

Lemma users_pos n fs : (0 < users n fs)%nat <-> exists f, fs !! f = Some (Some n).
Proof.
  unfold users. split.
  - destruct (filter _ fs) as [|o l] eqn:E; cbn [length]; [lia|]. intros _.
    assert (o ∈ filter (fun o => o = Some n) fs) as [-> [f Hf]%list_elem_of_lookup]%list_elem_of_filter by (rewrite E; left). by exists f.
  - intros [f Hf%list_elem_of_lookup_2]. assert (Some n ∈ filter (fun o => o = Some n) fs) by (by apply list_elem_of_filter).
    destruct (filter _ fs); [by apply not_elem_of_nil in H|cbn; lia].
Qed.

(** A node changes; if it is taken out of use, no file refers to it. *)
Lemma wf_set ns fs n i j : wf ns fs -> ns !! n = Some i -> node_ok j -> refs j = refs i ->
  (type i <> VFS_TYPE_NOT_INIT -> type j = VFS_TYPE_NOT_INIT -> refs i = 0) -> wf (<[n := j]> ns) fs.
Proof.
  intros [Hn Hf Hok Hr Ho] Hi Hj Hrj Ht. assert (Hlt := lookup_lt_Some _ _ _ Hi). split; [by rewrite length_insert|done| | |].
  - intros m k. destruct (decide (m = n)) as [->|Hne]; [rewrite list_lookup_insert_eq by done; by intros [= <-]|rewrite list_lookup_insert_ne by done; apply Hok].
  - intros m k. destruct (decide (m = n)) as [->|Hne]; [rewrite list_lookup_insert_eq by done; intros [= <-]; rewrite Hrj; by apply Hr|rewrite list_lookup_insert_ne by done; apply Hr].
  - intros f m Hfm. destruct (Ho f m Hfm) as (k & Hk & Htk). destruct (decide (m = n)) as [->|Hne]; [|exists k; by rewrite list_lookup_insert_ne].
    exists j. rewrite list_lookup_insert_eq by done. split; [done|]. simplify_eq. intros E. specialize (Ht Htk E). rewrite (Hr _ _ Hi) in Ht.
    assert (0 < users n fs)%nat by (apply users_pos; by exists f). lia.
Qed.

Lemma wf_ref ns fs n i f : wf ns fs -> ns !! n = Some i -> type i <> VFS_TYPE_NOT_INIT -> fs !! f = Some None ->
  wf (<[n := i <| refs ::= fun r => wrap8 (r + 1) |>]> ns) (<[f := Some n]> fs).
Proof.
  intros [Hn Hf Hok Hr Ho] Hi Ht Hff. assert (Hlt := lookup_lt_Some _ _ _ Hi). assert (Hltf := lookup_lt_Some _ _ _ Hff).
  assert (Hu := users_insert n fs f None (Some n) Hff). rewrite decide_False, decide_True in Hu by done.
  assert (Hle := users_le n (<[f := Some n]> fs)). rewrite length_insert, Hf in Hle. unfold MAX_FILE_NUM, AOS_CONFIG_VFS_DEV_NODES in *.
  split; [by rewrite length_insert..| | |].
  - intros m k. destruct (decide (m = n)) as [->|Hne]; [rewrite list_lookup_insert_eq by done; intros [= <-]; exact (Hok _ _ Hi)|rewrite list_lookup_insert_ne by done; apply Hok].
  - intros m k. destruct (decide (m = n)) as [->|Hne].
    + rewrite list_lookup_insert_eq by done. intros [= <-]. cbn. rewrite (Hr _ _ Hi). rewrite wrap8_small by (unfold u8; lia). lia.
    + rewrite list_lookup_insert_ne by done. intros Hk. rewrite (Hr _ _ Hk). assert (Hm := users_insert m fs f None (Some n) Hff). rewrite !decide_False in Hm by congruence. lia.
  - intros g m Hgm. destruct (decide (m = n)) as [->|Hne]; [exists (i <| refs ::= fun r => wrap8 (r + 1) |>); by rewrite list_lookup_insert_eq|].
    destruct (decide (g = f)) as [->|Hg]; [rewrite list_lookup_insert_eq in Hgm by done; congruence|]. rewrite list_lookup_insert_ne in Hgm by done.
    destruct (Ho g m Hgm) as (k & Hk & Htk). exists k. by rewrite list_lookup_insert_ne.
Qed.

Lemma wf_unref ns fs n f : wf ns fs -> fs !! f = Some (Some n) -> exists i, ns !! n = Some i /\ 0 < refs i /\ wf (<[n := i <| refs ::= fun r => r - 1 |>]> ns) (<[f := None]> fs).
Proof.
  intros [Hn Hf Hok Hr Ho] Hff. destruct (Ho _ _ Hff) as (i & Hi & Ht). assert (Hlt := lookup_lt_Some _ _ _ Hi). assert (Hltf := lookup_lt_Some _ _ _ Hff).
  assert (Hu := users_insert n fs f (Some n) None Hff). rewrite decide_True, decide_False in Hu by done.
  assert (Hp : (0 < users n fs)%nat) by (apply users_pos; by exists f). exists i. split; [done|]. split; [rewrite (Hr _ _ Hi); lia|]. split; [by rewrite length_insert..| | |].
  - intros m k. destruct (decide (m = n)) as [->|Hne]; [rewrite list_lookup_insert_eq by done; intros [= <-]; exact (Hok _ _ Hi)|rewrite list_lookup_insert_ne by done; apply Hok].
  - intros m k. destruct (decide (m = n)) as [->|Hne].
    + rewrite list_lookup_insert_eq by done. intros [= <-]. cbn. rewrite (Hr _ _ Hi). lia.
    + rewrite list_lookup_insert_ne by done. intros Hk. rewrite (Hr _ _ Hk). assert (Hm := users_insert m fs f (Some n) None Hff). rewrite !decide_False in Hm by congruence. lia.
  - intros g m Hgm. destruct (decide (g = f)) as [->|Hg]; [rewrite list_lookup_insert_eq in Hgm by done; congruence|]. rewrite list_lookup_insert_ne in Hgm by done.
    destruct (Ho g m Hgm) as (k & Hk & Htk). destruct (decide (m = n)) as [->|Hne]; [exists (i <| refs ::= fun r => r - 1 |>); by rewrite list_lookup_insert_eq|exists k; by rewrite list_lookup_insert_ne].
Qed.

Lemma triple_pure {S A} (phi : Prop) (P : S -> Prop) (m : ub S A) Q : (phi -> triple P m Q) -> triple (fun s => phi /\ P s) m Q.
Proof. intros H s [Hp Hs]. by apply H. Qed.

(** [tstep l] runs the first call of a sequence with lemma [l]. *)
Tactic Notation "tstep" uconstr(l) := eapply triple_bind; [eapply l|cbn beta].
Ltac tret := apply triple_ret; intros.

(** ** Undoing a lock always works *)
Class AosOk (W : Type) `{Aos W} := {
  unlock_ok : forall m w, (aos_mutex_unlock m w).1 = 0;
}.

Section Calls.
Context {W : Type} `{AosOk W} (fops : Z -> file_ops W) (fsops : Z -> fs_ops W).
Implicit Types (s : vfs_t W) (ns : list inode_t) (fs : list (option nat)) (n f : nat).

Definition fnodes s : list (option nat) := node <$> files s.
Definition tabs ns fs s : Prop := g_vfs_dev_nodes s = ns /\ fnodes s = fs.
Definition ok fs s : Prop := fnodes s = fs /\ wf (g_vfs_dev_nodes s) fs.

Lemma alter_insert {A} (g : A -> A) i (l : list A) x : l !! i = Some x -> alter g i l = <[i := g x]> l.
Proof. revert i. induction l as [|y l IH]; intros [|i] Hx; [done..| |]; [by injection Hx as ->|]. change (y :: alter g i l = y :: <[i := g x]> l). f_equal. by apply IH. Qed.

(** ** Access to the tables *)
Lemma t_world {A} (g : W -> A * W) (P : vfs_t W -> Prop) : (forall s w, P s -> P (s <| world := w |>)) -> triple P (on_world g) (fun _ => P).
Proof. intros HP s Hs. unfold on_world. destruct (g (world s)) as [x w]. eexists _, _. split; [done|by apply HP]. Qed.

Lemma t_lock fs : triple (ok fs) vfs_lock (fun _ => ok fs).
Proof. eapply triple_bind; [by apply (triple_get _ (fun _ => ok fs))|]. intros s. by apply t_world. Qed.

Lemma t_unlock (P : vfs_t W -> Prop) : (forall s w, P s -> P (s <| world := w |>)) -> triple P vfs_unlock (fun r s => r = 0 /\ P s).
Proof.
  intros HP s Hs. unfold vfs_unlock, mbind, ub_bind, get, on_world. pose proof (unlock_ok (g_vfs_mutex s) (world s)) as E.
  destruct (aos_mutex_unlock _ _) as [r w]. cbn in E. eexists _, _. split; [done|]. split; [done|by apply HP].
Qed.

Lemma t_node_at ns fs n i : ns !! n = Some i -> triple (tabs ns fs) (node_at n) (fun x s => x = i /\ tabs ns fs s).
Proof. intros Hi s [Hn Hf]. unfold node_at, mbind, ub_bind, get. rewrite Hn, Hi. by eexists _, _. Qed.

Lemma t_file_at ns fs f o : fs !! f = Some o -> triple (tabs ns fs) (file_at f) (fun x s => node x = o /\ tabs ns fs s).
Proof.
  intros Ho s [Hn Hf]. unfold file_at, mbind, ub_bind, get. rewrite <- Hf in Ho. unfold fnodes in Ho. rewrite list_lookup_fmap in Ho.
  destruct (files s !! f) as [x|]; [|done]. cbn in Ho. simplify_eq. by eexists _, _.
Qed.

Lemma t_set_node ns fs n i g : ns !! n = Some i -> triple (tabs ns fs) (set_node n g) (fun _ => tabs (<[n := g i]> ns) fs).
Proof.
  intros Hi. tstep t_node_at; [done|]. intros x. apply triple_pure. intros _. apply triple_modify. intros s [Hn Hf]. split; [|done].
  rsimpl. rewrite Hn. by apply alter_insert.
Qed.

Lemma t_set_file ns fs f o g o' : fs !! f = Some o -> (forall x, node x = o -> node (g x) = o') -> triple (tabs ns fs) (set_file f g) (fun _ => tabs ns (<[f := o']> fs)).
Proof.
  intros Ho Hg. tstep t_file_at; [done|]. intros x. apply triple_pure. intros _. apply triple_modify. intros s [Hn Hf]. split; [done|].
  unfold fnodes in *. rsimpl. rewrite <- Hf in Ho. rewrite list_lookup_fmap in Ho. destruct (files s !! f) as [y|] eqn:E; [|done]. cbn in Ho. simplify_eq.
  by rewrite (alter_insert g f _ y E), list_fmap_insert, (Hg y eq_refl).
Qed.

Lemma ok_tabs fs (A : Type) (m : ub (vfs_t W) A) Q : (forall ns, wf ns fs -> triple (tabs ns fs) m Q) -> triple (ok fs) m Q.
Proof. intros Hm s [Hf Hw]. by apply (Hm _ Hw). Qed.

Lemma tabs_ok ns fs s : wf ns fs -> tabs ns fs s -> ok fs s.
Proof. by intros Hw [<- <-]. Qed.

Lemma find_index_Some {A} (p : A -> bool) l i : find_index p l = Some i -> exists x, l !! i = Some x /\ p x = true.
Proof.
  revert i. induction l as [|y l IH]; intros i; cbn [find_index]; [done|]. destruct (p y) eqn:E; [intros [= <-]; by exists y|].
  destruct (find_index p l) as [j|]; [|done]. intros [= <-]. by apply IH.
Qed.

(** ** Files *)
Lemma t_new_file_tabs ns fs n i : ns !! n = Some i ->
  triple (tabs ns fs) (new_file n) (fun r s => match r with
    | None => tabs ns fs s
    | Some f => fs !! f = Some None /\ tabs (<[n := i <| refs ::= fun r => wrap8 (r + 1) |>]> ns) (<[f := Some n]> fs) s end).
Proof.
  intros Hi s Hs. unfold new_file, mbind at 1, ub_bind at 1, get at 1. destruct (find_index _ (files s)) as [f|] eqn:E; [|by eexists _, s].
  apply find_index_Some in E as (x & Hx & Hnone%bool_decide_eq_true). destruct Hs as [Hn Hf].
  assert (Hff : fs !! f = Some None) by (rewrite <- Hf; unfold fnodes; rewrite list_lookup_fmap, Hx; cbn; by rewrite Hnone).
  refine (triple_bind (tabs ns fs) _ _ _ _ (t_set_file ns fs f None _ (Some n) Hff _) _ s (conj Hn Hf)); [done|]. intros []; cbn beta.
  eapply triple_bind; [by apply t_set_node|]. intros []; cbn beta. by apply triple_ret.
Qed.

Lemma t_new_file ns fs n i : wf ns fs -> ns !! n = Some i -> type i <> VFS_TYPE_NOT_INIT ->
  triple (tabs ns fs) (new_file n) (fun r s => match r with None => ok fs s | Some f => fs !! f = Some None /\ ok (<[f := Some n]> fs) s end).
Proof.
  intros Hw Hi Ht. eapply triple_conseq; [by apply t_new_file_tabs|done|]. intros [f|] s; [|by apply tabs_ok]. intros [Hf Hs]. split; [done|].
  eapply tabs_ok; [by apply wf_ref|done].
Qed.

Lemma t_del_file_tabs ns fs f n i : fs !! f = Some (Some n) -> ns !! n = Some i -> 0 < refs i ->
  triple (tabs ns fs) (del_file f) (fun _ => tabs (<[n := i <| refs ::= fun r => r - 1 |>]> ns) (<[f := None]> fs)).
Proof.
  intros Hf Hi Hr. tstep t_file_at; [done|]. intros x. apply triple_pure. intros ->. cbn [deref].
  eapply triple_bind; [by apply (triple_ret _ n (fun m s => m = n /\ tabs ns fs s))|]. intros m. apply triple_pure. intros ->.
  tstep t_set_node; [done|]. intros []; cbn beta. destruct (Z.ltb_spec 0 (refs i)); [|lia]. by eapply (t_set_file _ _ _ _ _ None).
Qed.

Lemma t_del_file fs f n : fs !! f = Some (Some n) -> triple (ok fs) (del_file f) (fun _ => ok (<[f := None]> fs)).
Proof.
  intros Hf. apply ok_tabs. intros ns Hw. destruct (wf_unref ns fs n f Hw Hf) as (i & Hi & Hr & Hw').
  eapply triple_conseq; [by apply t_del_file_tabs|done|]. intros [] s. by apply tabs_ok.
Qed.

Lemma t_call_drv {A} (d : drv W A) fs n f : fs !! f = Some (Some n) -> triple (ok fs) (call_drv d n f) (fun _ => ok fs).
Proof.
  intros Hf. apply ok_tabs. intros ns Hw. destruct (wf_open _ _ Hw _ _ Hf) as (i & Hi & _).
  tstep t_node_at; [done|]. intros x. apply triple_pure. intros ->. tstep t_file_at; [done|]. intros x. apply triple_pure. intros _.
  intros s [Hn Hs]. unfold run_drv. destruct (d i x (world s)) as [[r y] w]. eexists _, _. split; [done|]. eapply tabs_ok; [done|]. split; [done|].
  unfold fnodes in *. rsimpl. rewrite (list_fmap_alter node _ id); [rewrite list_alter_id by done; done|]. by apply Forall_true.
Qed.

Lemma t_call_or {A} (def : A) (d : option (drv W A)) fs n f : fs !! f = Some (Some n) -> triple (ok fs) (call_or def d n f) (fun _ => ok fs).
Proof. intros Hf. destruct d; [by apply t_call_drv|by apply triple_ret]. Qed.

(** The member of the union is the one that was stored. *)
Lemma t_node_call {A} (def : A) dfs dc fs n f : fs !! f = Some (Some n) -> triple (ok fs) (node_call fops fsops def dfs dc n f) (fun _ => ok fs).
Proof.
  intros Hf. apply ok_tabs. intros ns Hw. destruct (wf_open _ _ Hw _ _ Hf) as (i & Hi & Ht). pose proof (wf_ok _ _ Hw _ _ Hi) as Hok.
  tstep t_node_at; [done|]. intros x. apply triple_pure. intros ->. unfold INODE_IS_FS, INODE_IS_TYPE. unfold node_ok in Hok.
  apply (triple_conseq _ (ok fs) _ _ (fun _ => ok fs)); [|intros s Hs; by eapply tabs_ok|done].
  destruct (type i); try done; cbn; destruct Hok as (_ & p & Hp); unfold iops_of, ifops_of; rewrite Hp;
    (eapply triple_bind; [by apply (triple_ret _ _ (fun _ => ok fs))|]); intros o; by apply t_call_or.
Qed.

Lemma t_fs_call {A} (def : A) dfs fs n f : fs !! f = Some (Some n) -> triple (ok fs) (fs_call fsops def dfs n f) (fun _ => ok fs).
Proof.
  intros Hf. apply ok_tabs. intros ns Hw. destruct (wf_open _ _ Hw _ _ Hf) as (i & Hi & Ht). pose proof (wf_ok _ _ Hw _ _ Hi) as Hok.
  tstep t_node_at; [done|]. intros x. apply triple_pure. intros ->. unfold INODE_IS_FS, INODE_IS_TYPE. unfold node_ok in Hok.
  apply (triple_conseq _ (ok fs) _ _ (fun _ => ok fs)); [|intros s Hs; by eapply tabs_ok|done].
  destruct (type i); try done; cbn; [by apply triple_ret|]. destruct Hok as (_ & p & Hp). unfold ifops_of. rewrite Hp.
  eapply triple_bind; [by apply (triple_ret _ _ (fun _ => ok fs))|]. intros o. by apply t_call_or.
Qed.

(** ** Calls on paths *)
Lemma t_inode_open path ns fs : wf ns fs ->
  triple (tabs ns fs) (inode_open path) (fun r s => match r with None => True | Some n => exists i, ns !! n = Some i /\ type i <> VFS_TYPE_NOT_INIT end /\ tabs ns fs s).
Proof.
  intros Hw s [Hn Hs]. eexists _, s. split; [done|]. split; [|done]. rewrite Hn. destruct (find_index _ ns) as [n|] eqn:E; [|done].
  apply find_index_Some in E as (i & Hi & Hm). exists i. split; [done|]. intros Ht. pose proof (wf_ok _ _ Hw _ _ Hi) as Hok. unfold node_ok in Hok. rewrite Ht in Hok.
  unfold inode_matches in Hm. by rewrite Hok in Hm.
Qed.

(** What a call leaves that may have opened file [f] on node [n]. *)
Definition entered fs (r : Z + nat * nat) s : Prop :=
  match r with inl _ => ok fs s | inr (f, n) => fs !! f = Some None /\ ok (<[f := Some n]> fs) s end.

Lemma t_enter {A} fs (file : option nat) n (e : A) : triple (fun s => match file with None => ok fs s | Some f => fs !! f = Some None /\ ok (<[f := Some n]> fs) s end)
  (_ ← vfs_unlock; match file with None => mret (inl e) | Some f => mret (inr (f, n)) end)
  (fun r s => match r with inl _ => ok fs s | inr (f, n) => fs !! f = Some None /\ ok (<[f := Some n]> fs) s end).
Proof.
  tstep t_unlock; [by intros; destruct file|]. intros r. apply triple_pure. intros _. destruct file as [f|]; by apply triple_ret.
Qed.

Lemma t_open_enter path flags fs : triple (ok fs) (open_enter path flags) (entered fs).
Proof.
  unfold open_enter. destruct path as [path|]; [|by apply triple_ret]. apply triple_if; intros _; [by apply triple_ret|].
  tstep t_lock. intros ret. apply triple_if; intros _; [by apply triple_ret|]. apply ok_tabs. intros ns Hw.
  tstep t_inode_open; [done|]. intros r. apply triple_pure. intros Hr. destruct r as [n|].
  - destruct Hr as (i & Hi & Ht). tstep t_set_node; [done|]. intros []; cbn beta. eapply triple_bind; [|intros file; apply t_enter].
    eapply t_new_file; [|apply list_lookup_insert_eq; by eapply lookup_lt_Some|done]. eapply wf_set; try done; by apply (wf_ok _ _ Hw _ _ Hi).
  - apply (triple_conseq _ (ok fs) _ _ (entered fs)); [|intros s Hs; by eapply tabs_ok|done]. tstep t_unlock; [done|]. intros r. apply triple_pure. intros _.
    tstep t_world; [done|]. intros e. by apply triple_ret.
Qed.

Lemma t_path_enter path fs : triple (ok fs) (path_enter path) (entered fs).
Proof.
  unfold path_enter. tstep t_lock. intros ret. apply triple_if; intros _; [by apply triple_ret|]. apply ok_tabs. intros ns Hw.
  tstep t_inode_open; [done|]. intros r. apply triple_pure. intros Hr. destruct r as [n|].
  - destruct Hr as (i & Hi & Ht). eapply triple_bind; [by eapply t_new_file|]. intros file. apply t_enter.
  - apply (triple_conseq _ (ok fs) _ _ (entered fs)); [|intros s Hs; by eapply tabs_ok|done]. tstep t_unlock; [done|]. intros r. apply triple_pure. intros _. by apply triple_ret.
Qed.

(** What a call leaves that may have closed file [f]. *)
Definition closed fs f s : Prop := ok fs s \/ ok (<[f := None]> fs) s.

Lemma t_leave {A} fs f n (ret ret' : Z -> A) : fs !! f = Some (Some n) ->
  triple (ok fs) (err ← vfs_lock; if negb (err =? 0) then mret (ret err) else _ ← del_file f; _ ← vfs_unlock; mret (ret' err)) (fun _ => closed fs f).
Proof.
  intros Hf. tstep t_lock. intros e. apply triple_if; intros _; [apply triple_ret; by left|]. tstep t_del_file; [done|]. intros []; cbn beta.
  tstep t_unlock; [done|]. intros r. apply triple_pure. intros _. apply triple_ret. by right.
Qed.

Lemma t_path_leave fs f n ret : fs !! f = Some (Some n) -> triple (ok fs) (path_leave f ret) (fun _ => closed fs f).
Proof. exact (t_leave fs f n (fun err => err) (fun _ => ret)). Qed.

Lemma t_close_leave fs f n : fs !! f = Some (Some n) -> triple (ok fs) (close_leave f) (fun _ => closed fs f).
Proof. exact (t_leave fs f n (fun err => err) (fun err => err)). Qed.

Lemma t_opendir_leave fs f n dp : fs !! f = Some (Some n) -> triple (ok fs) (opendir_leave f dp) (fun _ => closed fs f).
Proof.
  intros Hf. unfold opendir_leave. apply triple_if; intros _; [by apply (t_leave fs f n (fun _ => 0) (fun _ => 0))|].
  eapply triple_bind; [apply (triple_modify _ _ (fun _ => ok fs)); done|]. intros []. apply triple_ret. by left.
Qed.

Lemma t_open_driver path flags fs n f : fs !! f = Some (Some n) -> triple (ok fs) (open_driver fops fsops path flags n f) (fun _ => closed fs f).
Proof.
  intros Hf. unfold open_driver. tstep t_node_call; [done|]. intros ret. apply triple_if; intros _; [|apply triple_ret; by left].
  tstep t_del_file; [done|]. intros []. apply triple_ret. by right.
Qed.

(** ** Calls on descriptors *)
Definition fd_file fs (fd : Z) : option nat :=
  if fd <? AOS_CONFIG_VFS_FD_OFFSET then None
  else let f := Z.to_nat (fd - AOS_CONFIG_VFS_FD_OFFSET) in match fs !! f with Some (Some _) => Some f | _ => None end.

Lemma fd_file_Some fs fd f : fd_file fs fd = Some f <-> fd = get_fd f /\ exists n, fs !! f = Some (Some n).
Proof.
  unfold fd_file, get_fd. destruct (Z.ltb_spec fd AOS_CONFIG_VFS_FD_OFFSET); [split; [done|]; intros [-> _]; lia|]. split.
  - destruct (fs !! Z.to_nat (fd - _)) as [[n|]|] eqn:E; intros [= <-]. split; [lia|by exists n].
  - intros [-> (n & Hn)]. rewrite Z.add_simpl_r, Nat2Z.id. by rewrite Hn.
Qed.

Lemma t_get_file fs fd : triple (ok fs) (get_file fd) (fun r s => r = fd_file fs fd /\ ok fs s).
Proof.
  unfold get_file, fd_file. apply ok_tabs. intros ns Hw. pose proof (wf_files _ _ Hw) as Hl.
  destruct (Z.ltb_spec fd AOS_CONFIG_VFS_FD_OFFSET), (Z.ltb_spec (fd - AOS_CONFIG_VFS_FD_OFFSET) 0); try lia; cbn [orb].
  { apply triple_ret. intros s Hs. split; [done|by eapply tabs_ok]. }
  destruct (Z.leb_spec (Z.of_nat MAX_FILE_NUM) (fd - AOS_CONFIG_VFS_FD_OFFSET)).
  { apply triple_ret. intros s Hs. split; [|by eapply tabs_ok]. rewrite lookup_ge_None_2 by lia. done. }
  destruct (fs !! Z.to_nat (fd - AOS_CONFIG_VFS_FD_OFFSET)) as [o|] eqn:E; [|apply lookup_ge_None_1 in E; lia].
  tstep t_file_at; [done|]. intros x. apply triple_pure. intros ->. apply triple_ret. intros s Hs. split; [by destruct o|by eapply tabs_ok].
Qed.

Lemma t_with_file {A} fs fd (none : ub (vfs_t W) A) k Q :
  (fd_file fs fd = None -> triple (ok fs) none Q) ->
  (forall n f, fd_file fs fd = Some f -> fs !! f = Some (Some n) -> triple (ok fs) (k n f) Q) -> triple (ok fs) (with_file fd none k) Q.
Proof.
  intros Hnone Hk. unfold with_file. tstep t_get_file. intros r. apply triple_pure. intros ->. destruct (fd_file fs fd) as [f|] eqn:E; [|by apply Hnone].
  pose proof E as (_ & n & Hf)%fd_file_Some. apply ok_tabs. intros ns Hw. tstep t_file_at; [done|]. intros x. apply triple_pure. intros ->.
  eapply triple_bind; [apply (triple_ret _ n (fun m s => m = n /\ ok fs s)); intros s Hs; split; [done|by eapply tabs_ok]|].
  intros m. apply triple_pure. intros ->. by apply Hk.
Qed.

Lemma t_close_driver fs fd : triple (ok fs) (close_driver fops fsops fd)
  (fun r s => match r with inl _ => fd_file fs fd = None | inr f => fd_file fs fd = Some f end /\ ok fs s).
Proof.
  unfold close_driver. tstep t_get_file. intros r. apply triple_pure. intros ->. destruct (fd_file fs fd) as [f|] eqn:E.
  - pose proof E as (_ & n & Hf)%fd_file_Some. apply ok_tabs. intros ns Hw. tstep t_file_at; [done|]. intros x. apply triple_pure. intros ->.
    eapply triple_bind; [apply (triple_ret _ n (fun m s => m = n /\ ok fs s)); intros s Hs; split; [done|by eapply tabs_ok]|].
    intros m. apply triple_pure. intros ->. tstep t_node_call; [done|]. intros _. by apply triple_ret.
  - tstep t_world; [done|]. intros e. by apply triple_ret.
Qed.

(** ** Registration *)
Lemma t_register_end ns fs node ret : wf ns fs -> triple (tabs ns fs) (register_end node ret) (fun r s => r = ret /\ ok fs s).
Proof. intros Hw. unfold register_end. tstep t_unlock; [done|]. intros e. apply triple_pure. intros ->. cbn. apply triple_ret. intros s Hs. split; [done|by eapply tabs_ok]. Qed.

Lemma t_reserve ns fs path : wf ns fs ->
  triple (tabs ns fs) (inode_reserve path) (fun r s =>
    match r.2 with
    | None => r.1 <> VFS_SUCCESS /\ tabs ns fs s
    | Some n => exists i name, r.1 = VFS_SUCCESS /\ ns !! n = Some i /\ type i = VFS_TYPE_NOT_INIT /\ tabs (<[n := i <| i_name := Some name |>]> ns) fs s
    end).
Proof.
  intros Hw. unfold inode_reserve. destruct path as [path|]; [|by apply triple_ret]. apply triple_if; intros _; [by apply triple_ret|].
  eapply (triple_bind _ _ _ (fun r s => match r with None => True | Some n => exists i, ns !! n = Some i /\ type i = VFS_TYPE_NOT_INIT end /\ tabs ns fs s)).
  { intros s [Hn Hs]. eexists _, s. split; [done|]. split; [|done]. rewrite Hn. destruct (find_index _ ns) as [n|] eqn:E; [|done].
    apply find_index_Some in E as (i & Hi & Ht%bool_decide_eq_true). by exists i. }
  intros [n|]; apply triple_pure; [|intros _; by apply triple_ret]. intros (i & Hi & Ht). unfold inode_set_name.
  eapply (triple_bind _ _ _ (fun r s => match r with 0 => tabs (<[n := i <| i_name := Some path |>]> ns) fs s | _ => r = - ENOMEM /\ tabs ns fs s end)).
  { tstep t_world; [done|]. intros []; cbn [negb]; [|by apply triple_ret]. tstep t_set_node; [done|]. intros []. by apply triple_ret. }
  intros [|p|p]; cbn; [|apply triple_pure; intros Hc; discriminate|].
  - apply triple_ret. intros s Hs. by exists i, path.
  - apply triple_pure. intros ->. by apply triple_ret.
Qed.

Lemma t_register ns fs n i j ret node : wf ns fs -> ns !! n = Some i -> type i = VFS_TYPE_NOT_INIT -> node_ok j -> refs j = refs i ->
  triple (tabs (<[n := j]> ns) fs) (register_end node ret) (fun r s => r = ret /\ ok fs s).
Proof. intros Hw Hi Ht Hj Hr. apply t_register_end. by eapply wf_set. Qed.

Lemma t_register_driver fs path p arg : triple (ok fs) (aos_register_driver path p arg) (fun _ => ok fs).
Proof.
  unfold aos_register_driver. tstep t_lock. intros e. apply triple_if; intros _; [by apply triple_ret|]. apply ok_tabs. intros ns Hw.
  tstep t_reserve; [done|]. intros [ret [n|]]; cbn.
  - intros s (i & name & -> & Hi & Ht & Hs). revert s Hs. cbn. pose proof (lookup_lt_Some _ _ _ Hi) as Hlt.
    eapply (triple_bind _ _ _ (fun _ s => exists j, node_ok j /\ refs j = refs i /\ tabs (<[n := j]> ns) fs s)).
    { eapply triple_bind; [by apply (triple_ret _ n (fun m s => m = n /\ tabs (<[n := i <| i_name := Some name |>]> ns) fs s))|].
      intros m. apply triple_pure. intros ->. tstep t_set_node; [by apply list_lookup_insert_eq|]. intros []; cbn beta. rewrite list_insert_insert_eq.
      tstep t_world; [done|]. intros [e' m]. cbn. set (j := _ : inode_t). destruct (e' =? 0).
      - eapply (triple_bind _ _ _ (fun _ s => exists j, node_ok j /\ refs j = refs i /\ tabs (<[n := j]> ns) fs s)); [|intros []; by apply triple_ret]. eapply triple_conseq; [eapply t_set_node; by apply list_lookup_insert_eq|done|].
        intros [] s Hs. rewrite list_insert_insert_eq in Hs. eexists. split; [|split; [|exact Hs]]; [|done]. split; [done|by eexists].
      - eapply triple_bind; [by apply (triple_ret _ tt (fun _ => tabs (<[n := j]> ns) fs))|]. intros []. apply triple_ret. intros s Hs. exists j. split_and!; [|done|done]. split; [done|by eexists]. }
    intros ret s (j & Hj & Hr & Hs). revert s Hs. eapply triple_conseq; [by eapply (t_register ns fs n i j)|done|]. by intros ? s [_ ?].
  - intros s [Hret Hs]. revert s Hs. destruct (Z.eqb_spec ret VFS_SUCCESS) as [|_]; [done|]. eapply triple_bind; [by apply (triple_ret _ _ (fun _ => tabs ns fs))|].
    intros r. eapply triple_conseq; [by apply t_register_end|done|]. by intros ? s [_ ?].
Qed.

Lemma t_register_fs fs path p arg : triple (ok fs) (aos_register_fs path p arg) (fun _ => ok fs).
Proof.
  unfold aos_register_fs. tstep t_lock. intros e. apply triple_if; intros _; [by apply triple_ret|]. apply ok_tabs. intros ns Hw.
  tstep t_reserve; [done|]. intros [ret [n|]]; cbn.
  - intros s (i & name & -> & Hi & Ht & Hs). revert s Hs. cbn. pose proof (lookup_lt_Some _ _ _ Hi) as Hlt.
    eapply triple_bind; [eapply triple_bind; [by apply (triple_ret _ n (fun m s => m = n /\ tabs (<[n := i <| i_name := Some name |>]> ns) fs s))|]|].
    { intros m. apply triple_pure. intros ->. apply t_set_node. by apply list_lookup_insert_eq. }
    intros []; cbn beta. rewrite list_insert_insert_eq. match goal with |- triple (tabs (<[n := ?j]> ns) fs) _ _ => eapply triple_conseq; [apply (t_register ns fs n i j); try done; split; [done|by eexists]|done|] end. by intros ? s [_ ?].
  - intros s [Hret Hs]. revert s Hs. destruct (Z.eqb_spec ret VFS_SUCCESS) as [|_]; [done|]. eapply triple_bind; [by apply (triple_ret _ _ (fun _ => tabs ns fs))|].
    intros r. eapply triple_conseq; [by apply t_register_end|done|]. by intros ? s [_ ?].
Qed.

(** A node is released only when no file refers to it. *)
Lemma t_release path fs : triple (ok fs) (inode_release path) (fun _ => ok fs).
Proof.
  unfold inode_release. destruct path as [path|]; [|by apply triple_ret]. apply ok_tabs. intros ns Hw. tstep t_inode_open; [done|].
  intros [n|]; apply triple_pure; [|intros _; apply triple_ret; intros s Hs; by eapply tabs_ok]. intros (i & Hi & Ht).
  eapply (triple_bind _ _ _ (fun _ => ok fs)); [|intros r; apply triple_if; intros _; by apply triple_ret]. unfold inode_del. tstep t_node_at; [done|].
  intros x. apply triple_pure. intros ->. apply triple_if; [intros _; apply triple_ret; intros s Hs; by eapply tabs_ok|]. intros Hr%Z.ltb_ge.
  eapply (triple_bind _ _ _ (fun _ => ok fs)); [|intros []; by apply triple_ret]. apply triple_if; [intros Hz%Z.eqb_eq|intros _; apply triple_ret; intros s Hs; by eapply tabs_ok].
  eapply triple_conseq; [by apply t_set_node|done|]. intros [] s Hs. eapply tabs_ok; [|exact Hs]. by eapply wf_set.
Qed.

Lemma t_unregister path fs : triple (ok fs) (aos_unregister_driver path) (fun _ => ok fs).
Proof.
  unfold aos_unregister_driver. tstep t_lock. intros e. apply triple_if; intros _; [by apply triple_ret|]. tstep t_release. intros r.
  tstep t_unlock; [done|]. intros e'. apply triple_pure. intros ->. by apply triple_ret.
Qed.
End Calls.

(** ** Interleaved calls

    A call that is between two of its parts is in flight, with the file it uses. *)
Section Machine.
Context {W : Type} `{Aos W} (fops : Z -> file_ops W) (fsops : Z -> fs_ops W).
Implicit Types (fd flags ret dp dir : Z) (f n : nat).

(** Calls on a path that run a driver. *)
Inductive path_op := op_stat (path : string) | op_unlink (path : string) | op_rename (oldpath newpath : string) | op_mkdir (path : string) | op_opendir (path : string).

Definition op_path (o : path_op) : string :=
  match o with op_stat p | op_unlink p | op_rename p _ | op_mkdir p | op_opendir p => p end.

(** What is left of a call. *)
Inductive pend :=
  | p_open (path : string) (flags : Z) (n : nat)
  | p_path (o : path_op) (n : nat)
  | p_leave (ret : Z)
  | p_dir (dp : Z)
  | p_close.

(** A step of a task: a whole call, the start of a call, or the next part of a call in
    flight. *)
Inductive action :=
  | a_register_driver (path : option string) (ops arg : Z)
  | a_register_fs (path : option string) (ops arg : Z)
  | a_unregister (path : option string)
  | a_read (fd nbytes : Z)
  | a_write (fd : Z) (buf : list Z)
  | a_ioctl (fd cmd : Z) (arg : Z * list Z)
  | a_lseek (fd off whence : Z)
  | a_sync (fd : Z)
  | a_readdir (dir : Z)
  | a_open (path : option string) (flags : Z)
  | a_path (o : path_op)
  | a_close (fd : Z)
  | a_closedir (dir : Z)
  | a_continue (k : nat).

Record config := { vfs : vfs_t W; inflight : list (nat * pend) }.

(** The driver part of a call on a path, and what is left after it. *)
Definition path_driver (o : path_op) n f : ub (vfs_t W) pend :=
  match o with
  | op_stat p => r ← fs_call fsops (- ENOSYS, []) (fun o => (fun d => d p) <$> fs_stat o) n f; mret (p_leave r.1)
  | op_unlink p => r ← fs_call fsops (- ENOSYS) (fun o => (fun d => d p) <$> fs_unlink o) n f; mret (p_leave r)
  | op_rename p q => r ← fs_call fsops (- ENOSYS) (fun o => (fun d => d p q) <$> fs_rename o) n f; mret (p_leave r)
  | op_mkdir p => r ← fs_call fsops (- ENOSYS) (fun o => (fun d => d p) <$> fs_mkdir o) n f; mret (p_leave r)
  | op_opendir p => r ← fs_call fsops 0 (fun o => (fun d => d p) <$> fs_opendir o) n f; mret (p_dir r)
  end.

(** The next part of a call; nothing is left of it when it returns [None]. *)
Definition continue f (p : pend) : ub (vfs_t W) (option pend) :=
  match p with
  | p_open path flags n => _ ← open_driver fops fsops path flags n f; mret None
  | p_path o n => p ← path_driver o n f; mret (Some p)
  | p_leave ret => _ ← path_leave f ret; mret None
  | p_dir dp => _ ← opendir_leave f dp; mret None
  | p_close => _ ← close_leave f; mret None
  end.

(** A step that starts; if the call goes on, its file and what is left. *)
Definition start (a : action) : ub (vfs_t W) (option (nat * pend)) :=
  match a with
  | a_register_driver path p arg => _ ← aos_register_driver path p arg; mret None
  | a_register_fs path p arg => _ ← aos_register_fs path p arg; mret None
  | a_unregister path => _ ← aos_unregister_driver path; mret None
  | a_read fd n => _ ← aos_read fops fsops fd n; mret None
  | a_write fd buf => _ ← aos_write fops fsops fd buf; mret None
  | a_ioctl fd cmd arg => _ ← aos_ioctl fops fsops fd cmd arg; mret None
  | a_lseek fd off whence => _ ← aos_lseek fsops fd off whence; mret None
  | a_sync fd => _ ← aos_sync fsops fd; mret None
  | a_readdir dir => _ ← aos_readdir fsops dir; mret None
  | a_open path flags =>
      r ← open_enter path flags;
      mret (match r, path with inr (f, n), Some path => Some (f, p_open path flags n) | _, _ => None end)
  | a_path o => r ← path_enter (op_path o); mret (match r with inr (f, n) => Some (f, p_path o n) | inl _ => None end)
  | a_close fd => r ← close_driver fops fsops fd; mret (match r with inr f => Some (f, p_close) | inl _ => None end)
  | a_closedir dir =>
      if dir =? 0 then mret None
      else
        fd ← dir_fd dir;
        with_file fd (mret None) (fun n f => ret ← fs_call fsops (- ENOSYS) (fun o => (fun d => d dir) <$> fs_closedir o) n f; mret (Some (f, p_leave ret)))
  | a_continue _ => mret None
  end.

Definition vfs_step (c : config) (a : action) : option config :=
  match a with
  | a_continue k =>
      match inflight c !! k with
      | None => Some c
      | Some (f, p) =>
          '(o, s) ← continue f p (vfs c);
          Some {| vfs := s; inflight := match o with Some p => <[k := (f, p)]> (inflight c) | None => delete k (inflight c) end |}
      end
  | _ => '(o, s) ← start a (vfs c); Some {| vfs := s; inflight := inflight c ++ option_list o |}
  end.
End Machine.

(** * Safety of the virtual file system under interleaving

    Every state that tasks can reach by interleaved calls has well-formed tables, and every
    further step is defined, if nobody closes a descriptor that a call in progress uses. *)

Section Safe.
Context {W : Type} `{AosOk W} (fops : Z -> file_ops W) (fsops : Z -> fs_ops W).
Implicit Types (s : vfs_t W) (c : @config W) (fs : list (option nat)) (n f : nat).

(** The static data before [vfs_init]. *)
Definition vfs_zero (w : W) : vfs_t W :=
  {| g_vfs_init := 0; g_vfs_mutex := 0; g_vfs_dev_nodes := replicate AOS_CONFIG_VFS_DEV_NODES inode_zero; files := replicate MAX_FILE_NUM file_zero; dd_vfs_fd := ∅; world := w |}.

(** What callers respect: no descriptor is closed that a call in flight uses, and directory
    calls get what [aos_opendir] returned. *)
Definition allowed c (a : action) : Prop :=
  let free fd := forall f, fd_file (fnodes (vfs c)) fd = Some f -> f ∉ (inflight c).*1 in
  match a with
  | a_close fd => free fd
  | a_closedir dir => dir = 0 \/ exists fd, dd_vfs_fd (vfs c) !! dir = Some fd /\ free fd
  | a_readdir dir => dir = 0 \/ is_Some (dd_vfs_fd (vfs c) !! dir)
  | _ => True
  end.

Inductive reachable : config -> Prop :=
  | reach_init w s : vfs_init (vfs_zero w) = Some (VFS_SUCCESS, s) -> reachable {| vfs := s; inflight := [] |}
  | reach_step c a c' : reachable c -> allowed c a -> vfs_step fops fsops c a = Some c' -> reachable c'.

(** A call in flight has its file. *)
Definition pend_node (p : pend) : option nat := match p with p_open _ _ n | p_path _ n => Some n | _ => None end.
Definition flies fs (q : nat * pend) : Prop := exists n, fs !! q.1 = Some (Some n) /\ (pend_node q.2 = Some n \/ pend_node q.2 = None).
Definition flying fs (m : list (nat * pend)) : Prop := NoDup m.*1 /\ Forall (flies fs) m.
Definition inv c : Prop := exists fs, ok fs (vfs c) /\ flying fs (inflight c).

Lemma wf_zero : wf (replicate AOS_CONFIG_VFS_DEV_NODES inode_zero) (replicate MAX_FILE_NUM None).
Proof.
  split; [apply length_replicate|apply length_replicate| | |].
  - intros n i [-> _]%lookup_replicate. reflexivity.
  - intros n i [-> _]%lookup_replicate. reflexivity.
  - intros f n [Hn _]%lookup_replicate. discriminate.
Qed.

Lemma inv_init w s : vfs_init (vfs_zero w) = Some (VFS_SUCCESS, s) -> inv {| vfs := s; inflight := [] |}.
Proof.
  unfold vfs_init, mbind, ub_bind, get, on_world. cbn -[replicate]. destruct (aos_mutex_new w) as [[r m] w']. cbn -[replicate].
  destruct (negb (r =? VFS_SUCCESS)); intros [= -> <-]; exists (replicate MAX_FILE_NUM None); (split; [split; [done|apply wf_zero]|by split; constructor]).
Qed.

Lemma flies_insert fs f o q : q.1 <> f -> flies (<[f := o]> fs) q <-> flies fs q.
Proof. intros Hq. unfold flies. by rewrite list_lookup_insert_ne. Qed.

Lemma flying_insert fs m f o : flying fs m -> f ∉ m.*1 -> flying (<[f := o]> fs) m.
Proof.
  intros [Hn Hm] Hf. split; [done|]. rewrite Forall_forall in *. intros q Hq. apply flies_insert; [|by apply Hm].
  intros <-. apply Hf. apply list_elem_of_fmap. by exists q.
Qed.

(** A call starts, goes on, and ends. *)
Lemma flying_start fs m q : flying fs m -> q.1 ∉ m.*1 -> flies fs q -> flying fs (m ++ [q]).
Proof.
  intros [Hn Hm] Hf Hq. split; [|apply Forall_app; split; [done|by repeat constructor]]. rewrite fmap_app. apply NoDup_app. split; [done|]. split; [|apply NoDup_singleton].
  intros x Hx [->|?%elem_of_nil]%elem_of_cons; done.
Qed.

Lemma flying_next fs m k f p p' : flying fs m -> m !! k = Some (f, p) -> flies fs (f, p') -> flying fs (<[k := (f, p')]> m).
Proof.
  intros [Hn Hm] Hk Hp. split; [|by apply Forall_insert]. rewrite list_fmap_insert. cbn. rewrite list_insert_id; [done|]. by rewrite list_lookup_fmap, Hk.
Qed.

Lemma flying_end fs m k f p : flying fs m -> m !! k = Some (f, p) -> flying fs (delete k m) /\ f ∉ (delete k m).*1.
Proof.
  intros [Hn Hm] Hk. rewrite delete_take_drop. rewrite <- (take_drop_middle _ _ _ Hk) in Hn, Hm. rewrite fmap_app, fmap_cons in Hn. cbn in Hn.
  apply NoDup_app in Hn as (H1 & H2 & [H3 H4]%NoDup_cons). apply Forall_app in Hm as [Hm1 Hm2]. inversion Hm2; subst. split.
  - split; [|by apply Forall_app]. rewrite fmap_app. apply NoDup_app. split_and!; [done| |done]. intros x Hx Hx2. apply (H2 x Hx). by right.
  - rewrite fmap_app. intros [Hf|Hf]%elem_of_app; [|done]. apply (H2 f Hf). by left.
Qed.

Lemma flying_fresh fs m f : flying fs m -> fs !! f = Some None -> f ∉ m.*1.
Proof. intros [_ Hm] Hf ([g p] & -> & Hg)%list_elem_of_fmap. rewrite Forall_forall in Hm. destruct (Hm _ Hg) as (n & Hn & _). cbn in *. congruence. Qed.

(** ** The parts of a call *)
Lemma t_drop {A B} P (m : ub (vfs_t W) A) (x : B) (Q : vfs_t W -> Prop) : triple P m (fun _ => Q) -> triple P (_ ← m; mret x) (fun y s => y = x /\ Q s).
Proof. intros Hm. eapply triple_bind; [exact Hm|]. intros ?. by apply triple_ret. Qed.

Lemma t_continue fs m k f p : flying fs m -> m !! k = Some (f, p) ->
  triple (ok fs) (continue fops fsops f p) (fun o s => exists fs', ok fs' s /\ flying fs' (match o with Some p => <[k := (f, p)]> m | None => delete k m end)).
Proof.
  intros Hm Hp. assert (flies fs (f, p)) as (n & Hf & Hn) by (destruct Hm as [_ Hm]; by eapply Forall_lookup_1). cbn in Hf, Hn.
  assert (Hdrop : forall A (c : ub (vfs_t W) A), triple (ok fs) c (fun _ => closed fs f) ->
    triple (ok fs) (_ ← c; mret None) (fun o s => exists fs', ok fs' s /\ flying fs' (match o with Some p => <[k := (f, p)]> m | None => delete k m end))).
  { intros A c Hc. eapply triple_conseq; [by apply t_drop|done|]. destruct (flying_end fs m k f p Hm Hp) as [He Hfe].
    intros o s [-> [Hs|Hs]]; [by exists fs|exists (<[f := None]> fs)]. split; [done|]. by apply flying_insert. }
  destruct p as [path flags n'|o n'|ret|dp|]; cbn [continue].
  - destruct Hn as [[= <-]|?]; [|done]. apply Hdrop. by apply t_open_driver.
  - destruct Hn as [[= <-]|?]; [|done]. eapply (triple_bind _ _ _ (fun p s => (pend_node p = Some n' \/ pend_node p = None) /\ ok fs s)).
    + destruct o; cbn [path_driver]; (tstep t_fs_call; [done|]); intros r; apply triple_ret; intros s Hs; (split; [by right|done]).
    + intros p. apply triple_pure. intros Hp'. apply triple_ret. intros s Hs. exists fs. split; [done|]. eapply flying_next; [done|done|]. by exists n'.
  - apply Hdrop. by eapply t_path_leave.
  - apply Hdrop. by eapply t_opendir_leave.
  - apply Hdrop. by eapply t_close_leave.
Qed.

Definition started (m : list (nat * pend)) (o : option (nat * pend)) s : Prop := exists fs, ok fs s /\ flying fs (m ++ option_list o).

Lemma started_none fs m s : flying fs m -> ok fs s -> started m None s.
Proof. intros Hm Hs. exists fs. by rewrite app_nil_r. Qed.

Lemma t_quiet {A} fs m (c : ub (vfs_t W) A) : flying fs m -> triple (ok fs) c (fun _ => ok fs) -> triple (ok fs) (_ ← c; mret None) (started m).
Proof. intros Hm Hc. eapply triple_conseq; [by apply t_drop|done|]. intros o s [-> Hs]. by eapply started_none. Qed.

(** A call on a descriptor that runs one driver changes no table. *)
Lemma t_fd_call {A} fs fd (none : ub (vfs_t W) A) k :
  triple (ok fs) none (fun _ => ok fs) -> (forall n f, fs !! f = Some (Some n) -> triple (ok fs) (k n f) (fun _ => ok fs)) -> triple (ok fs) (with_file fd none k) (fun _ => ok fs).
Proof. intros Hn Hk. apply t_with_file; [done|]. intros n f _ Hf. by apply Hk. Qed.

Lemma t_entered fs m r (g : nat -> nat -> pend) : flying fs m -> (forall f n, pend_node (g f n) = Some n) ->
  triple (entered fs r) (mret (match r with inr (f, n) => Some (f, g f n) | inl _ => None end)) (started m).
Proof.
  intros Hm Hg. apply triple_ret. intros s Hs. destruct r as [e|[f n]]; cbn in Hs; [by eapply started_none|]. destruct Hs as [Hf Hs]. exists (<[f := Some n]> fs). split; [done|].
  assert (Hfresh := flying_fresh _ _ _ Hm Hf). apply flying_start; [by apply flying_insert|done|]. exists n. cbn. rewrite list_lookup_insert_eq by (by eapply lookup_lt_Some). rewrite Hg. by split; [|left].
Qed.

(** The calls without a part in flight. *)
Definition whole (a : action) : bool :=
  match a with a_readdir _ | a_open _ _ | a_path _ | a_close _ | a_closedir _ => false | _ => true end.

Lemma t_whole fs m a : flying fs m -> whole a = true -> triple (ok fs) (start fops fsops a) (started m).
Proof.
  intros Hm Ha. destruct a; try done; cbn [start]; try (eapply t_quiet; [done|]).
  - apply t_register_driver.
  - apply t_register_fs.
  - apply t_unregister.
  - apply t_fd_call; [by apply t_world|]. intros n f Hf. by apply t_node_call.
  - apply t_fd_call; [by apply t_world|]. intros n f Hf. by apply t_node_call.
  - unfold aos_ioctl. apply triple_if; intros _; [by apply triple_ret|]. apply t_fd_call; [by apply triple_ret|]. intros n f Hf. by apply t_node_call.
  - apply t_fd_call; [by apply triple_ret|]. intros n f Hf. by apply t_fs_call.
  - apply t_fd_call; [by apply triple_ret|]. intros n f Hf. by apply t_fs_call.
  - apply triple_ret. intros s Hs. by eapply started_none.
Qed.

(** ** The calls on descriptors and directories *)
Definition not_used fs (m : list (nat * pend)) (fd : Z) : Prop := forall f, fd_file fs fd = Some f -> f ∉ m.*1.

Lemma started_file fs m f n p s : flying fs m -> fs !! f = Some (Some n) -> f ∉ m.*1 -> pend_node p = None -> ok fs s -> started m (Some (f, p)) s.
Proof. intros Hm Hf Hfm Hp Hs. exists fs. split; [done|]. apply flying_start; [done|done|]. exists n. by split; [|right]. Qed.

Lemma t_start_close fs m fd : flying fs m -> not_used fs m fd -> triple (ok fs) (start fops fsops (a_close fd)) (started m).
Proof.
  intros Hm Hu. cbn [start]. tstep t_close_driver. intros [e|f]; apply triple_pure; intros Hf; apply triple_ret; intros s Hs; [by eapply started_none|].
  pose proof Hf as (_ & n & Hn)%fd_file_Some. eapply started_file; [done|done|by apply Hu|done|done].
Qed.

Lemma t_dir_fd fs dir fd : triple (fun s => dd_vfs_fd s !! dir = Some fd /\ ok fs s) (dir_fd dir) (fun x s => x = fd /\ ok fs s).
Proof. intros s [Hd Hs]. unfold dir_fd, mbind, ub_bind, get. rewrite Hd. by eexists _, _. Qed.

Lemma t_start_closedir fs m dir fd : flying fs m -> dir <> 0 -> not_used fs m fd ->
  triple (fun s => dd_vfs_fd s !! dir = Some fd /\ ok fs s) (start fops fsops (a_closedir dir)) (started m).
Proof.
  intros Hm Hd Hu. cbn [start]. destruct (Z.eqb_spec dir 0) as [|_]; [done|]. tstep t_dir_fd. intros x. apply triple_pure. intros ->.
  apply t_with_file; [intros _; apply triple_ret; intros s Hs; by eapply started_none|]. intros n f Hf Hn. tstep t_fs_call; [done|]. intros r. apply triple_ret. intros s Hs.
  eapply started_file; [done|done|by apply Hu|done|done].
Qed.

Lemma t_start_readdir fs m dir fd : flying fs m -> dir <> 0 ->
  triple (fun s => dd_vfs_fd s !! dir = Some fd /\ ok fs s) (start fops fsops (a_readdir dir)) (started m).
Proof.
  intros Hm Hd. cbn [start]. unfold aos_readdir. destruct (Z.eqb_spec dir 0) as [|_]; [done|].
  apply (triple_conseq _ (fun s => dd_vfs_fd s !! dir = Some fd /\ ok fs s) _ _ (fun y s => y = None /\ ok fs s)); [apply t_drop|done|intros o s [-> Hs]; by eapply started_none]. tstep t_dir_fd. intros x. apply triple_pure. intros ->.
  apply t_fd_call; [by apply triple_ret|]. intros n f Hf. by apply t_fs_call.
Qed.

Lemma step_start fs c a : ok fs (vfs c) -> flying fs (inflight c) -> allowed c a -> exists o s, start fops fsops a (vfs c) = Some (o, s) /\ started (inflight c) o s.
Proof.
  intros Hs Hm Ha. set (m := inflight c) in *. destruct (whole a) eqn:Hw; [by apply (t_whole fs m a)|].
  destruct a as [| | | | | | | |dir|path flags|o|fd|dir|]; try done.
  - destruct Ha as [->|[fd Hd]]; [by apply (t_quiet fs m (mret 0) Hm); [apply triple_ret|]|]. destruct (decide (dir = 0)) as [->|Hne]; [by apply (t_quiet fs m (mret 0) Hm); [apply triple_ret|]|].
    by apply (t_start_readdir fs m dir fd).
  - destruct path as [path|].
    + refine (triple_bind (ok fs) _ _ _ _ (t_open_enter _ _ _) _ _ Hs). intros r. by apply (t_entered fs m r (fun _ n => p_open path flags n)).
    + exists None, (vfs c). split; [done|by eapply started_none].
  - refine (triple_bind (ok fs) _ _ _ _ (t_path_enter _ _) _ _ Hs). intros r. by apply (t_entered fs m r (fun _ n => p_path o n)).
  - apply (t_start_close fs m fd); [done| |done]. intros f Hf. apply Ha. by rewrite (proj1 Hs).
  - destruct (decide (dir = 0)) as [->|Hne]; [exists None, (vfs c); split; [done|by eapply started_none]|]. destruct Ha as [->|(fd & Hd & Hf)]; [done|].
    apply (t_start_closedir fs m dir fd); [done|done| |done]. intros f Hff. apply Hf. by rewrite (proj1 Hs).
Qed.

Lemma vfs_step_inv c a : inv c -> allowed c a -> exists c', vfs_step fops fsops c a = Some c' /\ inv c'.
Proof.
  intros (fs & Hs & Hm) Ha.
  assert (Hstart : exists c', ('(o, s) ← start fops fsops a (vfs c); Some {| vfs := s; inflight := inflight c ++ option_list o |}) = Some c' /\ inv c').
  { destruct (step_start fs c a Hs Hm Ha) as (o & s & E & Hst). rewrite E. by eexists. }
  destruct a; try exact Hstart. clear Hstart. cbn [vfs_step]. destruct (inflight c !! k) as [[f p]|] eqn:E; [|by exists c; split; [|exists fs]].
  destruct (t_continue fs _ k f p Hm E _ Hs) as (o & s & E' & Hst). rewrite E'. by eexists.
Qed.

Lemma reachable_inv c : reachable c -> inv c.
Proof. induction 1 as [w s Hi|c a c' Hc IH Ha E]; [by eapply inv_init|]. destruct (vfs_step_inv c a IH Ha) as (c2 & E2 & Hi). congruence. Qed.
End Safe.
