(* ===== verification/VfsDev.v ===== *)
(** * The device drivers of the file system ([src/kernel/vfs/device])

    Eight drivers that put the hardware abstraction layer under the file system: the first
    file on a device initialises it, the last one turns it off, and transfers run under the
    mutex of the node.  The hardware abstraction layer is the interface [Hal]; a device is
    the address in [i_arg]. *)
From S2P Require Import Prelude KTypes Vfs.
Local Open Scope Z_scope.

Definition IOCTL_GPIO_OUTPUT_HIGHT : Z := 1.
Definition IOCTL_GPIO_OUTPUT_LOW : Z := 2.
Definition IOCTL_GPIO_OUTPUT_TOGGLE : Z := 3.
Definition IOCTL_PWM_OUTPUT_START : Z := 1.
Definition IOCTL_PWM_OUTPUT_STOP : Z := 2.
Definition IOCTL_WDG_RELOAD : Z := 1.
Definition sizeof_rtc_time_t : Z := 7.

(** A call returns its status, data that is received, and the state. *)
Class Hal (W : Type) := {
  hal_adc_init : Z -> W -> Z * W;
  hal_adc_finalize : Z -> W -> Z * W;
  hal_adc_value_get : Z -> W -> Z * list Z * W;
  hal_gpio_init : Z -> W -> Z * W;
  hal_gpio_finalize : Z -> W -> Z * W;
  hal_gpio_input_get : Z -> W -> Z * list Z * W;
  hal_gpio_output_high : Z -> W -> Z * W;
  hal_gpio_output_low : Z -> W -> Z * W;
  hal_gpio_output_toggle : Z -> W -> Z * W;
  i2c_dev_addr : Z -> W -> Z;
  hal_i2c_init : Z -> W -> Z * W;
  hal_i2c_finalize : Z -> W -> Z * W;
  hal_i2c_master_recv : Z -> Z -> Z -> W -> Z * list Z * W;
  hal_i2c_master_send : Z -> Z -> list Z -> W -> Z * W;
  hal_pwm_init : Z -> W -> Z * W;
  hal_pwm_finalize : Z -> W -> Z * W;
  hal_pwm_start : Z -> W -> Z * W;
  hal_pwm_stop : Z -> W -> Z * W;
  hal_rtc_init : Z -> W -> Z * W;
  hal_rtc_finalize : Z -> W -> Z * W;
  hal_rtc_get_time : Z -> W -> Z * list Z * W;
  hal_rtc_set_time : Z -> list Z -> W -> Z * W;
  hal_spi_init : Z -> W -> Z * W;
  hal_spi_finalize : Z -> W -> Z * W;
  hal_spi_recv : Z -> Z -> W -> Z * list Z * W;
  hal_spi_send : Z -> list Z -> W -> Z * W;
  hal_uart_init : Z -> W -> Z * W;
  hal_uart_finalize : Z -> W -> Z * W;
  hal_uart_recv : Z -> Z -> W -> Z * list Z * W;     (** the bytes that were received *)
  hal_uart_send : Z -> list Z -> W -> Z * W;
  hal_wdg_init : Z -> W -> Z * W;
  hal_wdg_finalize : Z -> W -> Z * W;
  hal_wdg_reload : Z -> W -> W;
}.

Section Drivers.
Context {W : Type} `{Aos W} `{Hal W}.
Implicit Types (i : inode_t) (fp : file_t) (w : W).

(** ** What the drivers have in common *)
Definition dev_open (init : Z -> W -> Z * W) : drv W Z := fun i fp w =>
  match node fp with
  | None => (- EINVAL, fp, w)
  | Some _ => if refs i =? 1 then let '(ret, w) := init (i_arg i) w in (ret, fp, w) else (VFS_SUCCESS, fp, w)
  end.

Definition dev_close (finalize : Z -> W -> Z * W) : drv W Z := fun i fp w =>
  match node fp with
  | None => (- EINVAL, fp, w)
  | Some _ =>
      if refs i =? 1 then
        let '(ret, w) := aos_mutex_lock (mutex i) w in
        let '(ret, w) := if ret =? 0 then finalize (i_arg i) w else (ret, w) in
        let '(_, w) := aos_mutex_unlock (mutex i) w in
        (ret, fp, w)
      else (VFS_SUCCESS, fp, w)
  end.

(** A transfer: [done] is what it returns when the call succeeded with some data. *)
Definition dev_read (call : Z -> W -> Z * list Z * W) (done : list Z -> Z) : drv W (Z * list Z) := fun i fp w =>
  match node fp with
  | None => ((- EINVAL, []), fp, w)
  | Some _ =>
      let '(ret, w) := aos_mutex_lock (mutex i) w in
      let '(ret, data, w) := if ret =? 0 then let '(ret, data, w) := call (i_arg i) w in (if ret =? 0 then done data else ret, data, w) else (ret, [], w) in
      let '(_, w) := aos_mutex_unlock (mutex i) w in
      ((ret, data), fp, w)
  end.

Definition dev_write (call : Z -> W -> Z * W) (nbytes : Z) : drv W Z := fun i fp w =>
  match node fp with
  | None => (- EINVAL, fp, w)
  | Some _ =>
      let '(ret, w) := aos_mutex_lock (mutex i) w in
      let '(ret, w) := if ret =? 0 then let '(ret, w) := call (i_arg i) w in (if ret =? 0 then nbytes else ret, w) else (ret, w) in
      let '(_, w) := aos_mutex_unlock (mutex i) w in
      (ret, fp, w)
  end.

Definition dev_ioctl (call : Z -> W -> Z * W) : drv W Z := fun i fp w =>
  match node fp with
  | None => (- EINVAL, fp, w)
  | Some _ =>
      let '(ret, w) := aos_mutex_lock (mutex i) w in
      if negb (ret =? 0) then (ret, fp, w)
      else
        let '(ret, w) := call (i_arg i) w in
        let '(_, w) := aos_mutex_unlock (mutex i) w in
        (ret, fp, w)
  end.

(** ** The drivers *)
Definition vfs_adc_open : drv W Z := dev_open hal_adc_init.
Definition vfs_adc_close : drv W Z := dev_close hal_adc_finalize.
Definition vfs_adc_read (nbytes : Z) : drv W (Z * list Z) := dev_read hal_adc_value_get (fun _ => nbytes).
Definition adc_ops : file_ops W :=
  {| fo_open := Some vfs_adc_open; fo_close := Some vfs_adc_close; fo_read := Some vfs_adc_read; fo_write := None; fo_ioctl := None; fo_poll := None |}.

Definition vfs_gpio_open : drv W Z := dev_open hal_gpio_init.
Definition vfs_gpio_close : drv W Z := dev_close hal_gpio_finalize.
Definition vfs_gpio_read (nbytes : Z) : drv W (Z * list Z) := dev_read hal_gpio_input_get (fun _ => 4).
Definition vfs_gpio_ioctl (cmd : Z) (arg : Z * list Z) : drv W Z := dev_ioctl (fun gpio w =>
  if cmd =? IOCTL_GPIO_OUTPUT_HIGHT then hal_gpio_output_high gpio w
  else if cmd =? IOCTL_GPIO_OUTPUT_LOW then hal_gpio_output_low gpio w
  else if cmd =? IOCTL_GPIO_OUTPUT_TOGGLE then hal_gpio_output_toggle gpio w
  else (- EINVAL, w)).
Definition gpio_ops : file_ops W :=
  {| fo_open := Some vfs_gpio_open; fo_close := Some vfs_gpio_close; fo_read := Some vfs_gpio_read; fo_write := None; fo_ioctl := Some vfs_gpio_ioctl; fo_poll := None |}.

Definition vfs_i2c_open : drv W Z := dev_open hal_i2c_init.
Definition vfs_i2c_close : drv W Z := dev_close hal_i2c_finalize.
Definition vfs_i2c_read (nbytes : Z) : drv W (Z * list Z) := fun i fp w =>
  dev_read (fun i2c => hal_i2c_master_recv i2c (i2c_dev_addr (i_arg i) w) nbytes) (fun _ => nbytes) i fp w.
Definition vfs_i2c_write (buf : list Z) : drv W Z := fun i fp w =>
  dev_write (fun i2c => hal_i2c_master_send i2c (i2c_dev_addr (i_arg i) w) buf) (Z.of_nat (length buf)) i fp w.
Definition i2c_ops : file_ops W :=
  {| fo_open := Some vfs_i2c_open; fo_close := Some vfs_i2c_close; fo_read := Some vfs_i2c_read; fo_write := Some vfs_i2c_write; fo_ioctl := None; fo_poll := None |}.

Definition vfs_pwm_open : drv W Z := dev_open hal_pwm_init.
Definition vfs_pwm_close : drv W Z := dev_close hal_pwm_finalize.
Definition vfs_pwm_ioctl (cmd : Z) (arg : Z * list Z) : drv W Z := dev_ioctl (fun pwm w =>
  if cmd =? IOCTL_PWM_OUTPUT_START then hal_pwm_start pwm w
  else if cmd =? IOCTL_PWM_OUTPUT_STOP then hal_pwm_stop pwm w
  else (- EINVAL, w)).
Definition pwm_ops : file_ops W :=
  {| fo_open := Some vfs_pwm_open; fo_close := Some vfs_pwm_close; fo_read := None; fo_write := None; fo_ioctl := Some vfs_pwm_ioctl; fo_poll := None |}.

Definition vfs_rtc_open : drv W Z := dev_open hal_rtc_init.
Definition vfs_rtc_close : drv W Z := dev_close hal_rtc_finalize.
Definition vfs_rtc_read (nbytes : Z) : drv W (Z * list Z) := fun i fp w =>
  if nbytes <? sizeof_rtc_time_t then ((- EINVAL, []), fp, w) else dev_read hal_rtc_get_time (fun _ => nbytes) i fp w.
Definition vfs_rtc_write (buf : list Z) : drv W Z := fun i fp w =>
  if Z.of_nat (length buf) <? sizeof_rtc_time_t then (- EINVAL, fp, w)
  else dev_write (fun rtc => hal_rtc_set_time rtc (take (Z.to_nat sizeof_rtc_time_t) buf)) (Z.of_nat (length buf)) i fp w.
Definition rtc_ops : file_ops W :=
  {| fo_open := Some vfs_rtc_open; fo_close := Some vfs_rtc_close; fo_read := Some vfs_rtc_read; fo_write := Some vfs_rtc_write; fo_ioctl := None; fo_poll := None |}.

Definition vfs_spi_open : drv W Z := dev_open hal_spi_init.
Definition vfs_spi_close : drv W Z := dev_close hal_spi_finalize.
Definition vfs_spi_read (nbytes : Z) : drv W (Z * list Z) := dev_read (fun spi => hal_spi_recv spi nbytes) (fun _ => nbytes).
Definition vfs_spi_write (buf : list Z) : drv W Z := dev_write (fun spi => hal_spi_send spi buf) (Z.of_nat (length buf)).
Definition spi_ops : file_ops W :=
  {| fo_open := Some vfs_spi_open; fo_close := Some vfs_spi_close; fo_read := Some vfs_spi_read; fo_write := Some vfs_spi_write; fo_ioctl := None; fo_poll := None |}.

Definition vfs_uart_open : drv W Z := dev_open hal_uart_init.
Definition vfs_uart_close : drv W Z := dev_close hal_uart_finalize.
Definition vfs_uart_read (nbytes : Z) : drv W (Z * list Z) := dev_read (fun uart => hal_uart_recv uart nbytes) (fun data => Z.of_nat (length data)).
Definition vfs_uart_write (buf : list Z) : drv W Z := dev_write (fun uart => hal_uart_send uart buf) (Z.of_nat (length buf)).
Definition uart_ops : file_ops W :=
  {| fo_open := Some vfs_uart_open; fo_close := Some vfs_uart_close; fo_read := Some vfs_uart_read; fo_write := Some vfs_uart_write; fo_ioctl := None; fo_poll := None |}.

Definition vfs_wdg_open : drv W Z := dev_open hal_wdg_init.
Definition vfs_wdg_close : drv W Z := dev_close hal_wdg_finalize.
Definition vfs_wdg_ioctl (cmd : Z) (arg : Z * list Z) : drv W Z := dev_ioctl (fun wdg w =>
  if cmd =? IOCTL_WDG_RELOAD then (VFS_SUCCESS, hal_wdg_reload wdg w) else (- EINVAL, w)).
Definition wdg_ops : file_ops W :=
  {| fo_open := Some vfs_wdg_open; fo_close := Some vfs_wdg_close; fo_read := None; fo_write := None; fo_ioctl := Some vfs_wdg_ioctl; fo_poll := None |}.

(** The tables by the addresses used below. *)
Definition device_ops (p : Z) : file_ops W :=
  nth (Z.to_nat p) [adc_ops; gpio_ops; i2c_ops; pwm_ops; rtc_ops; spi_ops; uart_ops; wdg_ops] uart_ops.
End Drivers.
