(* ===== verification/VfsPower.v ===== *)
(** * Devices are on while they are open

    On hardware that obeys its documentation, a device is initialised exactly while a
    descriptor is open on it, whatever sequence of calls is made.  The calls run one after
    the other; [VfsClaims] shows what happens when two tasks open a device at the same time. *)
From stdpp Require Import strings.
From S2P Require Import Prelude KTypes Vfs VfsInv VfsDev.
Local Open Scope Z_scope.

(** ** The hardware *)
Section Power.
Context {W : Type} (powered : Z -> W -> bool).

(** A call that turns nothing on or off. *)
Definition keeps {A} (g : W -> A * W) : Prop := forall q w, powered q (g w).2 = powered q w.

(** The initialisation of a device that is off turns it on, or fails. *)
Definition turns_on (init : Z -> W -> Z * W) : Prop := forall p w, powered p w = false ->
  (forall q, q <> p -> powered q (init p w).2 = powered q w) /\ powered p (init p w).2 = ((init p w).1 =? 0).
Definition turns_off (fin : Z -> W -> Z * W) : Prop := forall p w, powered p w = true ->
  forall q, powered q (fin p w).2 = powered q w && negb (q =? p).
End Power.

Class PowerOk (W : Type) `{Aos W} `{Hal W} := {
  powered : Z -> W -> bool;
  lock_zero : forall m w, (aos_mutex_lock m w).1 = 0;
  unlock_zero : forall m w, (aos_mutex_unlock m w).1 = 0;
  lock_keeps : forall m, keeps powered (aos_mutex_lock m);
  unlock_keeps : forall m, keeps powered (aos_mutex_unlock m);
  new_keeps : keeps powered aos_mutex_new;
  malloc_keeps : forall n, keeps powered (aos_malloc_ok n);
  trap_keeps : forall fd n buf path flags, keeps powered (trap_close fd) /\ keeps powered (trap_read fd n) /\ keeps powered (trap_write fd buf) /\ keeps powered (trap_open path flags);
  init_on : Forall (turns_on powered) [hal_adc_init; hal_gpio_init; hal_i2c_init; hal_pwm_init; hal_rtc_init; hal_spi_init; hal_uart_init; hal_wdg_init];
  finalize_off : Forall (turns_off powered) [hal_adc_finalize; hal_gpio_finalize; hal_i2c_finalize; hal_pwm_finalize; hal_rtc_finalize; hal_spi_finalize; hal_uart_finalize; hal_wdg_finalize];
  reads_keep : forall p a n, keeps powered (hal_adc_value_get p) /\ keeps powered (hal_gpio_input_get p) /\ keeps powered (hal_i2c_master_recv p a n) /\
    keeps powered (hal_rtc_get_time p) /\ keeps powered (hal_spi_recv p n) /\ keeps powered (hal_uart_recv p n);
  writes_keep : forall p a buf, keeps powered (hal_i2c_master_send p a buf) /\ keeps powered (hal_rtc_set_time p buf) /\ keeps powered (hal_spi_send p buf) /\ keeps powered (hal_uart_send p buf);
  controls_keep : forall p, keeps powered (hal_gpio_output_high p) /\ keeps powered (hal_gpio_output_low p) /\ keeps powered (hal_gpio_output_toggle p) /\
    keeps powered (hal_pwm_start p) /\ keeps powered (hal_pwm_stop p);
  reload_keeps : forall p q w, powered q (hal_wdg_reload p w) = powered q w;
}.

Section Drivers.
Context {W : Type} `{PowerOk W}.
Implicit Types (i : inode_t) (x : file_t) (w : W) (q : Z).

#[global] Instance power_aos_ok : AosOk W := {| unlock_ok := unlock_zero |}.

(** The drivers change the power only when the first file is opened and the last closed. *)
Definition opens (d : drv W Z) : Prop := forall i x w, node x <> None -> (refs i = 1 -> powered (i_arg i) w = false) ->
  (forall q, q <> i_arg i \/ refs i <> 1 -> powered q (d i x w).2 = powered q w) /\
  (if refs i =? 1 then powered (i_arg i) (d i x w).2 = ((d i x w).1.1 =? 0) else (d i x w).1.1 = 0).
Definition closes (d : drv W Z) : Prop := forall i x w, node x <> None -> (refs i = 1 -> powered (i_arg i) w = true) ->
  forall q, powered q (d i x w).2 = powered q w && negb ((q =? i_arg i) && (refs i =? 1)).
Definition runs {A} (d : drv W A) : Prop := forall i x w q, powered q (d i x w).2 = powered q w.

Lemma dev_open_opens init : turns_on powered init -> opens (dev_open init).
Proof.
  intros Hi i x w Hx Hp. unfold dev_open. destruct (node x) as [n|]; [|done]. destruct (Z.eqb_spec (refs i) 1) as [E|E]; [|by split].
  destruct (Hi (i_arg i) w (Hp E)) as [Ho Hon]. destruct (init (i_arg i) w) as [r w']. cbn in *. split; [|done]. intros q [Hq|]; [by apply Ho|done].
Qed.

Lemma dev_close_closes fin : turns_off powered fin -> closes (dev_close fin).
Proof.
  intros Hf i x w Hx Hp q. unfold dev_close. destruct (node x) as [n|]; [|done]. destruct (Z.eqb_spec (refs i) 1) as [E|E]; [|cbn; by rewrite !andb_false_r, andb_true_r].
  pose proof (lock_zero (mutex i) w) as Hl.
  assert (Hk1 : forall q, powered q (aos_mutex_lock (mutex i) w).2 = powered q w) by (intros q'; apply lock_keeps).
  destruct (aos_mutex_lock (mutex i) w) as [l w1]. cbn in Hl, Hk1. subst l. cbn [Z.eqb].
  assert (Hon : powered (i_arg i) w1 = true) by (rewrite Hk1; by apply Hp). pose proof (Hf (i_arg i) w1 Hon q) as Hoff.
  destruct (fin (i_arg i) w1) as [r w2]. cbn in Hoff. pose proof (unlock_keeps (mutex i) q w2) as Hu. destruct (aos_mutex_unlock (mutex i) w2) as [u w3]. cbn in *.
  by rewrite Hu, Hoff, Hk1, andb_true_r.
Qed.

Lemma dev_read_runs call g : (forall p, keeps powered (call p)) -> runs (dev_read call g).
Proof.
  intros Hc i x w q. unfold dev_read. destruct (node x); [|done]. pose proof (lock_keeps (mutex i) q w) as Hk1. destruct (aos_mutex_lock (mutex i) w) as [l w1]. cbn in Hk1.
  destruct (l =? 0).
  - pose proof (Hc (i_arg i) q w1) as Hk2. destruct (call (i_arg i) w1) as [[r data] w2]. cbn in Hk2. pose proof (unlock_keeps (mutex i) q w2) as Hk3. destruct (aos_mutex_unlock _ w2). cbn in *. congruence.
  - pose proof (unlock_keeps (mutex i) q w1) as Hk3. destruct (aos_mutex_unlock _ w1). cbn in *. congruence.
Qed.

Lemma dev_write_runs call n : (forall p, keeps powered (call p)) -> runs (dev_write call n).
Proof.
  intros Hc i x w q. unfold dev_write. destruct (node x); [|done]. pose proof (lock_keeps (mutex i) q w) as Hk1. destruct (aos_mutex_lock (mutex i) w) as [l w1]. cbn in Hk1.
  destruct (l =? 0).
  - pose proof (Hc (i_arg i) q w1) as Hk2. destruct (call (i_arg i) w1) as [r w2]. cbn in Hk2. pose proof (unlock_keeps (mutex i) q w2) as Hk3. destruct (aos_mutex_unlock _ w2). cbn in *. congruence.
  - pose proof (unlock_keeps (mutex i) q w1) as Hk3. destruct (aos_mutex_unlock _ w1). cbn in *. congruence.
Qed.

Lemma dev_ioctl_runs call : (forall p, keeps powered (call p)) -> runs (dev_ioctl call).
Proof.
  intros Hc i x w q. unfold dev_ioctl. destruct (node x); [|done]. pose proof (lock_keeps (mutex i) q w) as Hk1. destruct (aos_mutex_lock (mutex i) w) as [l w1]. cbn in Hk1.
  destruct (negb (l =? 0)); [done|]. pose proof (Hc (i_arg i) q w1) as Hk2. destruct (call (i_arg i) w1) as [r w2]. cbn in Hk2.
  pose proof (unlock_keeps (mutex i) q w2) as Hk3. destruct (aos_mutex_unlock _ w2). cbn in *. congruence.
Qed.

(** What the tables of the drivers hold. *)
Record ops_power (o : file_ops W) : Prop := {
  op_opens : exists d, fo_open o = Some d /\ opens d;
  op_closes : exists d, fo_close o = Some d /\ closes d;
  op_reads : forall d n, fo_read o = Some d -> runs (d n);
  op_writes : forall d buf, fo_write o = Some d -> runs (d buf);
  op_ioctls : forall d cmd arg, fo_ioctl o = Some d -> runs (d cmd arg);
}.

Lemma device_power p : ops_power (device_ops p).
Proof.
  pose proof init_on as Hi. pose proof finalize_off as Hf. pose proof reads_keep as Hr. pose proof writes_keep as Hw. pose proof controls_keep as Hc.
  repeat match goal with Hl : Forall _ (_ :: _) |- _ => apply Forall_cons in Hl as [? Hl] end.
  assert (forall k, ops_power (nth k [adc_ops; gpio_ops; i2c_ops; pwm_ops; rtc_ops; spi_ops; uart_ops; wdg_ops] uart_ops)) as Hall; [|apply Hall].
  intros [|[|[|[|[|[|[|[|[|k]]]]]]]]]; cbn [nth]; split; cbn [fo_open fo_close fo_read fo_write fo_ioctl adc_ops gpio_ops i2c_ops pwm_ops rtc_ops spi_ops uart_ops wdg_ops];
    try (eexists; split; [reflexivity|by apply dev_open_opens]); try (eexists; split; [reflexivity|by apply dev_close_closes]); try discriminate;
    intros ?; intros; simplify_eq.
  - apply dev_read_runs. intros p'. by apply (Hr p' 0 0).
  - apply dev_read_runs. intros p'. by apply (Hr p' 0 0).
  - apply dev_ioctl_runs. intros p' q w. destruct (Hc p') as (? & ? & ? & _). by repeat case_match.
  - intros i x w q. refine (dev_read_runs _ _ _ i x w q). intros p'. apply Hr.
  - intros i x w q. refine (dev_write_runs _ _ _ i x w q). intros p'. apply Hw.
  - apply dev_ioctl_runs. intros p' q w. destruct (Hc p') as (_ & _ & _ & ? & ?). by repeat case_match.
  - intros i x w q. unfold vfs_rtc_read. case_match; [done|]. refine (dev_read_runs _ _ _ i x w q). intros p'. by apply (Hr p' 0 0).
  - intros i x w q. unfold vfs_rtc_write. case_match; [done|]. refine (dev_write_runs _ _ _ i x w q). intros p'. by apply (Hw p' 0).
  - apply dev_read_runs. intros p'. by apply (Hr p' 0 n).
  - apply dev_write_runs. intros p'. by apply (Hw p' 0 buf).
  - apply dev_read_runs. intros p'. by apply (Hr p' 0 n).
  - apply dev_write_runs. intros p'. by apply (Hw p' 0 buf).
  - apply dev_ioctl_runs. intros p' q w. case_match; [apply reload_keeps|done].
  - apply dev_read_runs. intros p'. by apply (Hr p' 0 n).
  - apply dev_write_runs. intros p'. by apply (Hw p' 0 buf).
  - apply dev_read_runs. intros p'. by apply (Hr p' 0 n).
  - apply dev_write_runs. intros p'. by apply (Hw p' 0 buf).
Qed.

(** ** The calls, one after the other *)
Inductive dcall :=
  | d_register (path : option string) (ops arg : Z)
  | d_unregister (path : option string)
  | d_open (path : option string) (flags : Z)
  | d_close (fd : Z)
  | d_read (fd nbytes : Z)
  | d_write (fd : Z) (buf : list Z)
  | d_ioctl (fd cmd : Z) (arg : Z * list Z).

(** There are no file systems. *)
Definition no_fs (p : Z) : fs_ops W :=
  {| fs_open := None; fs_close := None; fs_read := None; fs_write := None; fs_lseek := None; fs_sync := None; fs_stat := None; fs_unlink := None;
     fs_rename := None; fs_opendir := None; fs_readdir := None; fs_closedir := None; fs_mkdir := None; fs_ioctl := None |}.

Definition dstep (c : dcall) : ub (vfs_t W) Z :=
  match c with
  | d_register path p arg => aos_register_driver path p arg
  | d_unregister path => aos_unregister_driver path
  | d_open path flags => aos_open device_ops no_fs path flags
  | d_close fd => aos_close device_ops no_fs fd
  | d_read fd n => r ← aos_read device_ops no_fs fd n; mret r.1
  | d_write fd buf => aos_write device_ops no_fs fd buf
  | d_ioctl fd cmd arg => aos_ioctl device_ops no_fs fd cmd arg
  end.

(** A device is registered at most once at a time. *)
Definition registered_for (arg : Z) (s : vfs_t W) : Prop := exists n i, g_vfs_dev_nodes s !! n = Some i /\ type i <> VFS_TYPE_NOT_INIT /\ i_arg i = arg.
Definition one_node (c : dcall) (s : vfs_t W) : Prop := match c with d_register _ _ arg => ~ registered_for arg s | _ => True end.

(** The runs from the start with all devices off. *)
Inductive device_run : vfs_t W -> Prop :=
  | run_init w s : (forall q, powered q w = false) -> vfs_init (vfs_zero w) = Some (VFS_SUCCESS, s) -> device_run s
  | run_call s c r s' : device_run s -> one_node c s -> dstep c s = Some (r, s') -> device_run s'.

(** ** Calls that do not reach the hardware *)
Definition steady {A} (m : ub (vfs_t W) A) : Prop := forall s (r : A) s', m s = Some (r, s') -> world s' = world s.

Lemma steady_ret {A} (r : A) : steady (mret r).
Proof. by intros s y s' [= _ <-]. Qed.
Lemma steady_undefined {A} : @steady A undefined.
Proof. by intros s y s'. Qed.
Lemma steady_get : steady get.
Proof. by intros s y s' [= _ <-]. Qed.
Lemma steady_bind {A B} (m : ub (vfs_t W) A) (k : A -> ub (vfs_t W) B) : steady m -> (forall r, steady (k r)) -> steady (mbind k m).
Proof. intros Hm Hk s y s'. unfold mbind, ub_bind. destruct (m s) as [[x s1]|] eqn:E; [|done]. intros E2. rewrite (Hk _ _ _ _ E2). by eapply Hm. Qed.
Lemma steady_if {A} (b : bool) (m1 m2 : ub (vfs_t W) A) : steady m1 -> steady m2 -> steady (if b then m1 else m2).
Proof. by destruct b. Qed.
Lemma steady_option {A B} (o : option B) (m1 : B -> ub (vfs_t W) A) m2 : (forall r, steady (m1 r)) -> steady m2 -> steady (match o with Some r => m1 r | None => m2 end).
Proof. intros H1' H2'. destruct o; [apply H1'|apply H2']. Qed.

Create HintDb vfs_steady.
#[local] Hint Resolve steady_ret steady_undefined steady_get : vfs_steady.
Ltac steady := repeat first [progress auto with vfs_steady | apply steady_bind; [|intros ?] | apply steady_if | apply steady_option; [intros ?|] | (intros ? ? ? [= _ <-]; reflexivity)].

Lemma steady_node_at n : steady (node_at n).
Proof. unfold node_at. steady. Qed.
Lemma steady_file_at f : steady (file_at f).
Proof. unfold file_at. steady. Qed.
#[local] Hint Resolve steady_node_at steady_file_at : vfs_steady.
Lemma steady_set_node n g : steady (set_node n g).
Proof. unfold set_node. steady. Qed.
Lemma steady_set_file f g : steady (set_file f g).
Proof. unfold set_file. steady. Qed.
#[local] Hint Resolve steady_set_node steady_set_file : vfs_steady.
Lemma steady_new_file n : steady (new_file n).
Proof. unfold new_file, inode_ref. steady. Qed.
Lemma steady_del_file f : steady (del_file f).
Proof. unfold del_file, deref, inode_unref. steady. Qed.
Lemma steady_release path : steady (inode_release path).
Proof. unfold inode_release, inode_del, inode_open. steady. Qed.
#[local] Hint Resolve steady_new_file steady_del_file steady_release : vfs_steady.

(** The power, beside an assertion on the tables. *)
Definition with_power (P : vfs_t W -> Prop) (pw : Z -> bool) (s : vfs_t W) : Prop := P s /\ forall q, powered q (world s) = pw q.

Lemma t_steady {A} P (m : ub (vfs_t W) A) Q pw : triple P m Q -> steady m -> triple (with_power P pw) m (fun r => with_power (Q r) pw).
Proof. intros Hm Hs s [HP Hp]. destruct (Hm s HP) as (x & s' & E & HQ). exists x, s'. split; [done|]. split; [done|]. by rewrite (Hs _ _ _ E). Qed.

Lemma t_keeps {A} (g : W -> A * W) ns fs pw : keeps powered g -> triple (with_power (tabs ns fs) pw) (on_world g) (fun _ => with_power (tabs ns fs) pw).
Proof. intros Hg s [HP Hp]. unfold on_world. pose proof (fun q => Hg q (world s)) as Hq. destruct (g (world s)) as [x w]. eexists _, _. split; [done|]. split; [done|]. intros q. rsimpl. rewrite <- Hp. exact (Hq q). Qed.

Lemma t_mutex ns fs pw : triple (with_power (tabs ns fs) pw) vfs_lock (fun r s => r = 0 /\ with_power (tabs ns fs) pw s) /\
  triple (with_power (tabs ns fs) pw) vfs_unlock (fun r s => r = 0 /\ with_power (tabs ns fs) pw s).
Proof.
  split; intros s [HP Hp]; unfold vfs_lock, vfs_unlock, mbind, ub_bind, get, on_world.
  - pose proof (lock_zero (g_vfs_mutex s) (world s)) as Hz. pose proof (fun q => lock_keeps (g_vfs_mutex s) q (world s)) as Hk. destruct (aos_mutex_lock _ _) as [r w].
    eexists _, _. split; [done|]. split; [done|]. split; [done|]. intros q. rsimpl. rewrite <- Hp. exact (Hk q).
  - pose proof (unlock_zero (g_vfs_mutex s) (world s)) as Hz. pose proof (fun q => unlock_keeps (g_vfs_mutex s) q (world s)) as Hk. destruct (aos_mutex_unlock _ _) as [r w].
    eexists _, _. split; [done|]. split; [done|]. split; [done|]. intros q. rsimpl. rewrite <- Hp. exact (Hk q).
Qed.

(** A driver runs on the node and an open file. *)
Lemma t_driver {A} (d : drv W A) ns fs pw n f i : ns !! n = Some i -> fs !! f = Some (Some n) ->
  triple (with_power (tabs ns fs) pw) (call_drv d n f)
    (fun r s => exists x w, node x = Some n /\ (forall q, powered q w = pw q) /\ r = (d i x w).1.1 /\ with_power (tabs ns fs) (fun q => powered q (d i x w).2) s).
Proof.
  intros Hi Hf. eapply triple_bind; [apply t_steady; [by apply t_node_at|auto with vfs_steady]|]. intros j s [[-> Hs] Hp]. revert s Hs Hp.
  intros s Hs Hp. refine (triple_bind (with_power (tabs ns fs) pw) _ _ _ _ (t_steady _ _ _ _ (t_file_at ns fs f _ Hf) (steady_file_at f)) _ s (conj Hs Hp)).
  intros x s1 [[Hx [Hn Hfs]] Hp1]. unfold run_drv. exists (d i x (world s1)).1.1. destruct (d i x (world s1)) as [[r y] w'] eqn:E. eexists. split; [done|].
  exists x, (world s1). rewrite E. split_and!; [done|done|done|]. split; [|done]. split; [done|].
  unfold fnodes in *. rsimpl. rewrite (list_fmap_alter node _ id); [by rewrite list_alter_id|]. by apply Forall_true.
Qed.

(** ** The power of the devices *)
Definition in_use (ns : list inode_t) (q : Z) : Prop := exists n i, ns !! n = Some i /\ type i <> VFS_TYPE_NOT_INIT /\ i_arg i = q /\ 0 < refs i.

Record dok (ns : list inode_t) (fs : list (option nat)) (pw : Z -> bool) : Prop := {
  d_wf : wf ns fs;
  d_one : forall n m i j, ns !! n = Some i -> ns !! m = Some j -> type i <> VFS_TYPE_NOT_INIT -> type j <> VFS_TYPE_NOT_INIT -> i_arg i = i_arg j -> n = m;
  d_char : forall n i, ns !! n = Some i -> type i <> VFS_TYPE_FS_DEV;
  d_power : forall q, pw q = true <-> in_use ns q;
}.

Lemma dok_on ns fs pw n i : dok ns fs pw -> ns !! n = Some i -> type i <> VFS_TYPE_NOT_INIT -> pw (i_arg i) = true <-> 0 < refs i.
Proof.
  intros Hd Hi Ht. rewrite (d_power _ _ _ Hd). split; [|intros Hr; by exists n, i].
  intros (m & j & Hj & Htj & Ha & Hr). assert (m = n) as -> by (by eapply (d_one _ _ _ Hd m n j i)). by simplify_eq.
Qed.

Lemma dok_set ns fs pw n i j fs' pw' : dok ns fs pw -> ns !! n = Some i -> type i <> VFS_TYPE_NOT_INIT -> wf (<[n := j]> ns) fs' ->
  type j = type i -> i_arg j = i_arg i -> (forall q, q <> i_arg i -> pw' q = pw q) -> (pw' (i_arg i) = true <-> 0 < refs j) -> dok (<[n := j]> ns) fs' pw'.
Proof.
  intros Hd Hi Ht Hw Htj Haj Hq Hp. assert (Hlt := lookup_lt_Some _ _ _ Hi).
  assert (Hl : forall m k, <[n := j]> ns !! m = Some k -> exists k', ns !! m = Some k' /\ type k = type k' /\ i_arg k = i_arg k' /\ (m <> n -> k = k')).
  { intros m k. destruct (decide (m = n)) as [->|Hne]; [rewrite list_lookup_insert_eq by done; intros [= <-]; by exists i|].
    rewrite list_lookup_insert_ne by done. intros Hk. by exists k. }
  split; [done| | |].
  - intros m1 m2 k1 k2 (k1' & H1' & Ht1 & Ha1 & _)%Hl (k2' & H2' & Ht2 & Ha2 & _)%Hl. rewrite Ht1, Ht2, Ha1, Ha2. by apply (d_one _ _ _ Hd).
  - intros m k (k' & Hk & -> & _)%Hl. by apply (d_char _ _ _ Hd m).
  - intros q. destruct (decide (q = i_arg i)) as [->|Hne].
    + rewrite Hp. split; [intros Hr; exists n, j; rewrite list_lookup_insert_eq by done; rewrite Htj; by split_and!|].
      intros (m & k & Hk & Htk & Ha & Hr). destruct (Hl m k Hk) as (k' & Hk' & Ht' & Ha' & Hmn).
      assert (m = n) as -> by (eapply (d_one _ _ _ Hd m n k' i); [done|done|congruence|done|congruence]).
      rewrite list_lookup_insert_eq in Hk by done. by simplify_eq.
    + rewrite Hq by done. rewrite (d_power _ _ _ Hd). split.
      * intros (m & k & Hk & Htk & Ha & Hr). exists m, k. rewrite list_lookup_insert_ne; [done|]. intros ->. simplify_eq.
      * intros (m & k & Hk & Htk & Ha & Hr). destruct (decide (m = n)) as [->|Hmn]; [rewrite list_lookup_insert_eq in Hk by done; simplify_eq; congruence|].
        exists m, k. by rewrite list_lookup_insert_ne in Hk.
Qed.

(** A node without files comes into use or goes out of it. *)
Lemma dok_idle ns fs pw n i j : dok ns fs pw -> ns !! n = Some i -> refs i = 0 -> refs j = 0 -> wf (<[n := j]> ns) fs -> type j <> VFS_TYPE_FS_DEV ->
  (type j <> VFS_TYPE_NOT_INIT -> forall m k, ns !! m = Some k -> type k <> VFS_TYPE_NOT_INIT -> i_arg k <> i_arg j) -> dok (<[n := j]> ns) fs pw.
Proof.
  intros Hd Hi Hri Hrj Hw Htj Hone. assert (Hlt := lookup_lt_Some _ _ _ Hi).
  assert (Hl : forall m k, <[n := j]> ns !! m = Some k -> (m = n /\ k = j) \/ (m <> n /\ ns !! m = Some k)).
  { intros m k. destruct (decide (m = n)) as [->|Hne]; [rewrite list_lookup_insert_eq by done; intros [= <-]; by left|rewrite list_lookup_insert_ne by done; by right]. }
  split; [done| | |].
  - intros m1 m2 k1 k2 [[-> ->]|[Hn1 Hk1]]%Hl [[-> ->]|[Hn2 Hk2]]%Hl Ht1 Ht2 Ha; [done| | |by eapply (d_one _ _ _ Hd)].
    + by destruct (Hone Ht1 m2 k2 Hk2 Ht2).
    + by destruct (Hone Ht2 m1 k1 Hk1 Ht1).
  - intros m k [[-> ->]|[_ Hk]]%Hl; [done|by apply (d_char _ _ _ Hd m)].
  - intros q. rewrite (d_power _ _ _ Hd). split; intros (m & k & Hk & Htk & Ha & Hr).
    + exists m, k. rewrite list_lookup_insert_ne; [done|]. intros ->. simplify_eq. lia.
    + apply Hl in Hk as [[-> ->]|[_ Hk]]; [lia|]. by exists m, k.
Qed.

(** ** The calls keep it *)
Definition st ns fs pw : vfs_t W -> Prop := with_power (tabs ns fs) pw.
Definition dinv (s : vfs_t W) : Prop := exists ns fs pw, dok ns fs pw /\ st ns fs pw s.

Lemma t_st {A} ns fs pw (m : ub (vfs_t W) A) (phi : A -> Prop) ns' fs' : triple (tabs ns fs) m (fun r s => phi r /\ tabs (ns' r) (fs' r) s) -> steady m ->
  triple (st ns fs pw) m (fun r s => phi r /\ st (ns' r) (fs' r) pw s).
Proof. intros Hm Hs. eapply triple_conseq; [by apply t_steady|done|]. by intros r s [[Hr Ht] Hp]. Qed.

Lemma p_node_at ns fs pw n i : ns !! n = Some i -> triple (st ns fs pw) (node_at n) (fun r s => r = i /\ st ns fs pw s).
Proof. intros Hi. apply (t_st ns fs pw _ (fun r => r = i) (fun _ => ns) (fun _ => fs)); [by apply t_node_at|auto with vfs_steady]. Qed.

Lemma p_set_node ns fs pw n i g : ns !! n = Some i -> triple (st ns fs pw) (set_node n g) (fun _ => st (<[n := g i]> ns) fs pw).
Proof. intros Hi. apply t_steady; [by apply t_set_node|auto with vfs_steady]. Qed.

Lemma p_lock ns fs pw : triple (st ns fs pw) vfs_lock (fun r s => r = 0 /\ st ns fs pw s).
Proof. apply t_mutex. Qed.

Lemma p_unlock ns fs pw : triple (st ns fs pw) vfs_unlock (fun r s => r = 0 /\ st ns fs pw s).
Proof. apply t_mutex. Qed.

Lemma p_new_file ns fs pw n i : ns !! n = Some i ->
  triple (st ns fs pw) (new_file n) (fun r s => match r with
    | None => st ns fs pw s
    | Some f => fs !! f = Some None /\ st (<[n := i <| refs ::= fun r => wrap8 (r + 1) |>]> ns) (<[f := Some n]> fs) pw s end).
Proof.
  intros Hi. eapply triple_conseq; [apply t_steady; [by apply t_new_file_tabs|auto with vfs_steady]|done|]. intros [f|] s [Ht Hp]; [|by split].
  destruct Ht as [Hf Ht]. by split.
Qed.

Lemma p_del_file ns fs pw f n i : fs !! f = Some (Some n) -> ns !! n = Some i -> 0 < refs i ->
  triple (st ns fs pw) (del_file f) (fun _ => st (<[n := i <| refs ::= fun r => r - 1 |>]> ns) (<[f := None]> fs) pw).
Proof. intros Hf Hi Hr. apply t_steady; [by apply t_del_file_tabs|auto with vfs_steady]. Qed.

Lemma p_inode_open path ns fs pw : wf ns fs ->
  triple (st ns fs pw) (inode_open path) (fun r s => match r with None => True | Some n => exists i, ns !! n = Some i /\ type i <> VFS_TYPE_NOT_INIT end /\ st ns fs pw s).
Proof.
  intros Hw. apply (t_st ns fs pw _ (fun r => match r with None => True | Some n => exists i, ns !! n = Some i /\ type i <> VFS_TYPE_NOT_INIT end) (fun _ => ns) (fun _ => fs)).
  - by apply t_inode_open.
  - unfold inode_open. steady.
Qed.

Lemma p_get_file ns fs pw fd : wf ns fs -> triple (st ns fs pw) (get_file fd) (fun r s => r = fd_file fs fd /\ st ns fs pw s).
Proof.
  intros Hw s [[Hn Hf] Hp]. destruct (t_get_file fs fd s) as (r & s' & E & -> & Hs); [split; [done|by rewrite Hn]|].
  assert (s' = s) as ->.
  { revert E. unfold get_file. case_match; [by intros [= _ <-]|]. unfold file_at, mbind, ub_bind, get. destruct (files s !! _); [|done]. by intros [= _ <-]. }
  eexists _, s. split; [done|]. split; [done|]. by split.
Qed.

(** All nodes are devices. *)
Lemma p_node_call {A} (def : A) dfs dc ns fs pw n f i Q : dok ns fs pw -> ns !! n = Some i -> type i <> VFS_TYPE_NOT_INIT ->
  (forall p, ops i = i_ops p -> triple (st ns fs pw) (call_or def (dc (device_ops p)) n f) Q) -> triple (st ns fs pw) (node_call device_ops no_fs def dfs dc n f) Q.
Proof.
  intros Hd Hi Ht Hc. pose proof (d_char _ _ _ Hd _ _ Hi) as Hch. pose proof (wf_ok _ _ (d_wf _ _ _ Hd) _ _ Hi) as Hok. unfold node_ok in Hok.
  tstep p_node_at; [done|]. intros j. apply triple_pure. intros ->. unfold INODE_IS_FS, INODE_IS_TYPE. destruct (type i) eqn:E; try done. cbn.
  destruct Hok as (_ & p & Hp). unfold iops_of. rewrite Hp. eapply triple_bind; [by apply (triple_ret _ (device_ops p) (fun o s => o = device_ops p /\ st ns fs pw s))|].
  intros o. apply triple_pure. intros ->. by apply Hc.
Qed.

Lemma dinv_st ns fs pw s : dok ns fs pw -> st ns fs pw s -> dinv s.
Proof. intros Hd Hs. by exists ns, fs, pw. Qed.

(** The power may be described by an equivalent function. *)
Lemma st_ext ns fs pw pw' s : (forall q, pw q = pw' q) -> st ns fs pw s -> st ns fs pw' s.
Proof. intros Hq [Ht Hp]. split; [done|]. intros q. by rewrite Hp, Hq. Qed.

(** What [open_enter] leaves: the file is on the node, the driver has not run. *)
Definition opened ns fs pw (r : Z + nat * nat) (s : vfs_t W) : Prop :=
  match r with
  | inl _ => dinv s
  | inr (f, n) => exists i flags, ns !! n = Some i /\ type i <> VFS_TYPE_NOT_INIT /\ fs !! f = Some None /\
      st (<[n := i <| i_flags := flags |> <| refs ::= fun r => wrap8 (r + 1) |>]> ns) (<[f := Some n]> fs) pw s
  end.

Lemma p_open_enter path flags ns fs pw : dok ns fs pw -> triple (st ns fs pw) (open_enter path flags) (opened ns fs pw).
Proof.
  intros Hd. assert (Hin : forall e s, st ns fs pw s -> opened ns fs pw (inl e) s) by (intros e s Hs; by eapply dinv_st).
  unfold open_enter. destruct path as [path|]; [|by apply triple_ret, Hin]. apply triple_if; intros _; [by apply triple_ret, Hin|].
  tstep p_lock. intros r. apply triple_pure. intros ->. cbn [Z.eqb negb]. tstep p_inode_open; [apply Hd|]. intros [n|]; apply triple_pure.
  - intros (i & Hi & Ht). assert (Hlt := lookup_lt_Some _ _ _ Hi). tstep p_set_node; [done|]. intros []; cbn beta.
    assert (Hfl : dok (<[n := i <| i_flags := flags |>]> ns) fs pw).
    { eapply dok_set; [done|done|done| |done|done|done|exact (dok_on _ _ _ _ _ Hd Hi Ht)]. eapply wf_set; try done; [apply Hd|]. exact (wf_ok _ _ (d_wf _ _ _ Hd) _ _ Hi). }
    tstep p_new_file; [by apply list_lookup_insert_eq|]. intros [f|].
    + apply triple_pure. intros Hf. tstep p_unlock. intros r. apply triple_pure. intros _. apply triple_ret. intros s Hs. exists i, flags. rewrite list_insert_insert_eq in Hs. done.
    + tstep p_unlock. intros r. apply triple_pure. intros _. apply triple_ret. intros s Hs. by eapply dinv_st.
  - intros _. tstep p_unlock. intros r. apply triple_pure. intros _. tstep t_keeps; [by apply (trap_keeps 0 0 [] path flags)|]. intros e. by apply triple_ret, Hin.
Qed.

Lemma p_open_driver path flags ns fs pw n f i fl : dok ns fs pw -> ns !! n = Some i -> type i <> VFS_TYPE_NOT_INIT -> fs !! f = Some None ->
  triple (st (<[n := i <| i_flags := fl |> <| refs ::= fun r => wrap8 (r + 1) |>]> ns) (<[f := Some n]> fs) pw) (open_driver device_ops no_fs path flags n f) (fun _ => dinv).
Proof.
  intros Hd Hi Ht Hf. assert (Hlt := lookup_lt_Some _ _ _ Hi). assert (Hltf := lookup_lt_Some _ _ _ Hf). set (j := i <| i_flags := fl |> <| refs ::= fun r => wrap8 (r + 1) |>).
  assert (Hr : refs j = refs i + 1 /\ 0 <= refs i).
  { pose proof (wf_refs _ _ (d_wf _ _ _ Hd) _ _ Hi) as Hr. pose proof (users_le n fs) as Hu. rewrite (wf_files _ _ (d_wf _ _ _ Hd)) in Hu. unfold MAX_FILE_NUM, AOS_CONFIG_VFS_DEV_NODES in Hu.
    unfold j. rsimpl. rewrite Hr, wrap8_small by (unfold u8; lia). lia. }
  destruct Hr as [Hrj Hri]. assert (Hw : wf (<[n := j]> ns) (<[f := Some n]> fs)).
  { assert (Hw1 : wf (<[n := i <| i_flags := fl |>]> ns) fs) by (eapply wf_set; try done; [apply Hd|exact (wf_ok _ _ (d_wf _ _ _ Hd) _ _ Hi)]).
    pose proof (wf_ref _ _ n (i <| i_flags := fl |>) f Hw1 (list_lookup_insert_eq _ _ _ Hlt) Ht Hf) as Hw2. by rewrite list_insert_insert_eq in Hw2. }
  set (ns1 := <[n := j]> ns). assert (Hj : ns1 !! n = Some j) by (by apply list_lookup_insert_eq).
  unfold open_driver. eapply (triple_bind _ _ _ (fun r s => exists pw', (forall q, q <> i_arg i -> pw' q = pw q) /\ (if refs i =? 0 then pw' (i_arg i) = (r =? 0) else r = 0 /\ pw' (i_arg i) = pw (i_arg i)) /\ st ns1 (<[f := Some n]> fs) pw' s)).
  - tstep p_node_at; [exact Hj|]. intros k. apply triple_pure. intros ->. pose proof (d_char _ _ _ Hd _ _ Hi) as Hch. pose proof (wf_ok _ _ (d_wf _ _ _ Hd) _ _ Hi) as Hok. unfold node_ok in Hok.
    unfold INODE_IS_FS, INODE_IS_TYPE. change (type j) with (type i). unfold iops_of. change (ops j) with (ops i).
    destruct (type i) eqn:E; try done. cbn. destruct Hok as (_ & p & Hp). rewrite Hp.
    eapply triple_bind; [by apply (triple_ret _ (device_ops p) (fun o s => o = device_ops p /\ st ns1 (<[f := Some n]> fs) pw s))|]. intros o. apply triple_pure. intros ->.
    destruct (op_opens _ (device_power p)) as (d & -> & Ho). cbn. eapply triple_conseq; [eapply (t_driver d); [exact Hj|by apply list_lookup_insert_eq]|done|].
    intros r s (x & w & Hx & Hpw & -> & Hs). destruct (Ho j x w) as [Hoq Hoa]; [by rewrite Hx| |].
    { intros H1'. change (i_arg j) with (i_arg i). rewrite Hpw. apply not_true_is_false. rewrite (dok_on _ _ _ _ _ Hd Hi) by (by rewrite E). lia. }
    change (i_arg j) with (i_arg i) in *. eexists. split; [|split; [|exact Hs]]; cbn beta.
    + intros q Hq. rewrite Hoq by (by left). apply Hpw.
    + rewrite Hrj in Hoa, Hoq. destruct (Z.eqb_spec (refs i) 0) as [Hz|Hz]; destruct (Z.eqb_spec (refs i + 1) 1) as [Hz1|Hz1]; try lia; [done|]. split; [done|]. rewrite Hoq by (by right). apply Hpw.
  - intros r s (pw' & Hq & Ha & Hs). revert s Hs. apply triple_if.
    + intros Hr%negb_true_iff%Z.eqb_neq. destruct (Z.eqb_spec (refs i) 0) as [Hz|Hz]; [|by destruct Ha].
      tstep p_del_file; [by apply list_lookup_insert_eq|exact Hj|lia|]. intros []; cbn beta. apply triple_ret. intros s Hs. unfold ns1 in Hs. rewrite !list_insert_insert_eq in Hs. rewrite (list_insert_id fs f None Hf) in Hs.
      eapply dinv_st; [|exact Hs]. eapply (dok_set ns fs pw n i); [done|done|done| |done|done|done|].
      * eapply wf_set; [apply Hd|done|exact (wf_ok _ _ (d_wf _ _ _ Hd) _ _ Hi)| |done]. change (refs j - 1 = refs i). lia.
      * change (pw' (i_arg i) = true <-> 0 < refs j - 1). rewrite Ha. destruct (Z.eqb_spec r 0); [by destruct Hr|]. split; [done|lia].
    + intros Hr%negb_false_iff%Z.eqb_eq. apply triple_ret. intros s Hs. eapply dinv_st; [|exact Hs]. eapply (dok_set ns fs pw n i); [done|done|done|exact Hw|done|done|done|].
      rewrite Hrj. destruct (Z.eqb_spec (refs i) 0) as [Hz|Hz].
      * rewrite Ha, Hr. split; [lia|done].
      * destruct Ha as [_ ->]. rewrite (dok_on _ _ _ _ _ Hd Hi Ht). lia.
Qed.

Lemma p_open path flags ns fs pw : dok ns fs pw -> triple (st ns fs pw) (aos_open device_ops no_fs path flags) (fun _ => dinv).
Proof.
  intros Hd. unfold aos_open. destruct path as [path|]; [|by apply triple_ret; intros s Hs; eapply dinv_st].
  tstep p_open_enter; [done|]. intros [e|[f n]]; [by apply triple_ret|]. cbn. intros s (i & fl & Hi & Ht & Hf & Hs). by eapply p_open_driver.
Qed.

(** A descriptor that is open, its file and its node. *)
Lemma p_with_file {A} (fd : Z) (none : ub (vfs_t W) A) k Q ns fs pw : dok ns fs pw ->
  triple (st ns fs pw) none Q ->
  (forall n f i, fs !! f = Some (Some n) -> ns !! n = Some i -> type i <> VFS_TYPE_NOT_INIT -> triple (st ns fs pw) (k n f) Q) -> triple (st ns fs pw) (with_file fd none k) Q.
Proof.
  intros Hd Hn Hk. tstep p_get_file; [apply Hd|]. intros r. apply triple_pure. intros ->. destruct (fd_file fs fd) as [f|] eqn:E; [|done].
  apply fd_file_Some in E as (_ & n & Hf). destruct (wf_open _ _ (d_wf _ _ _ Hd) _ _ Hf) as (i & Hi & Ht).
  eapply triple_bind; [apply t_steady; [by apply t_file_at|auto with vfs_steady]|]. intros x s [[Hx Hs] Hp].
  refine (triple_bind (st ns fs pw) _ _ (fun m s => m = n /\ st ns fs pw s) _ _ _ s (conj Hs Hp)); [rewrite Hx; by apply triple_ret|].
  intros m. apply triple_pure. intros ->. by eapply Hk.
Qed.

Lemma p_close fd ns fs pw : dok ns fs pw -> triple (st ns fs pw) (aos_close device_ops no_fs fd) (fun _ => dinv).
Proof.
  intros Hd. assert (triple (st ns fs pw) (with_file fd (ret ← on_world (trap_close fd); mret ret)
    (fun n f => _ ← node_call device_ops no_fs VFS_SUCCESS fs_close fo_close n f; close_leave f)) (fun _ => dinv)) as Hc.
  2: { intros s Hs. destruct (Hc s Hs) as (r & s' & E & Hi). exists r, s'. split; [|done]. rewrite <- E. unfold aos_close, close_driver, with_file, mbind, ub_bind.
       destruct (get_file fd s) as [[[f|] s1]|]; [|by destruct (on_world _ _) as [[]|]|done]. destruct (file_at f s1) as [[x s2]|]; [|done].
       destruct (deref (node x) s2) as [[n s3]|]; [|done]. by destruct (node_call _ _ _ _ _ n f s3) as [[]|]. }
  apply p_with_file; [done| |].
  { tstep t_keeps; [by apply (trap_keeps fd 0 [] ""%string 0)|]. intros r. apply triple_ret. intros s Hs. by eapply dinv_st. }
  intros n f i Hf Hi Ht. assert (Hr : 0 < refs i) by (rewrite (wf_refs _ _ (d_wf _ _ _ Hd) _ _ Hi); assert (0 < users n fs)%nat by (apply users_pos; by exists f); lia).
  assert (Hlt := lookup_lt_Some _ _ _ Hi). eapply (triple_bind _ _ _ (fun _ => st ns fs (fun q => pw q && negb ((q =? i_arg i) && (refs i =? 1))))).
  - apply (p_node_call _ _ _ ns fs pw n f i); [done..|]. intros p _. destruct (op_closes _ (device_power p)) as (d & -> & Hcl). cbn.
    eapply triple_conseq; [by eapply (t_driver d)|done|]. intros r s (x & w & Hx & Hpw & -> & Hs). eapply st_ext; [|exact Hs]. intros q. cbn beta. rewrite Hcl; [by rewrite Hpw|by rewrite Hx|].
    intros _. rewrite Hpw. by apply (dok_on _ _ _ _ _ Hd Hi Ht).
  - intros _. unfold close_leave. tstep p_lock. intros r. apply triple_pure. intros ->. cbn [Z.eqb negb]. tstep p_del_file; [done|done|done|]. intros []; cbn beta.
    tstep p_unlock. intros r. apply triple_pure. intros _. apply triple_ret. intros s Hs. eapply dinv_st; [|exact Hs]. destruct (wf_unref ns fs n f (d_wf _ _ _ Hd) Hf) as (i' & Hi' & _ & Hw'). simplify_eq.
    eapply (dok_set ns fs pw n i); [done|done|done|exact Hw'|done|done| |].
    + intros q Hq. cbn beta. destruct (Z.eqb_spec q (i_arg i)); [done|]. by rewrite andb_true_r.
    + cbn beta. rewrite Z.eqb_refl. change (pw (i_arg i) && negb (refs i =? 1) = true <-> 0 < refs i - 1). rewrite andb_true_iff, (dok_on _ _ _ _ _ Hd Hi Ht), negb_true_iff, Z.eqb_neq. lia.
Qed.

(** A transfer or a control command. *)
Lemma p_transfer {A} (fd : Z) (none : ub (vfs_t W) A) def dfs dc ns fs pw : dok ns fs pw -> triple (st ns fs pw) none (fun _ => dinv) ->
  (forall p d, dc (device_ops p) = Some d -> runs d) -> triple (st ns fs pw) (with_file fd none (node_call device_ops no_fs def dfs dc)) (fun _ => dinv).
Proof.
  intros Hd Hn Hr. apply p_with_file; [done|done|]. intros n f i Hf Hi Ht. apply (p_node_call _ _ _ ns fs pw n f i); [done..|]. intros p _.
  destruct (dc (device_ops p)) as [d|] eqn:E; [|apply triple_ret; intros s Hs; by eapply dinv_st]. eapply triple_conseq; [by eapply (t_driver d)|done|].
  intros r s (x & w & Hx & Hpw & -> & Hs). eapply dinv_st; [done|]. eapply st_ext; [|exact Hs]. intros q. cbn beta. by rewrite (Hr p d E), Hpw.
Qed.

(** A node that is not registered has no files. *)
Lemma idle_refs ns fs n i : wf ns fs -> ns !! n = Some i -> type i = VFS_TYPE_NOT_INIT -> refs i = 0.
Proof.
  intros Hw Hi Ht. rewrite (wf_refs _ _ Hw _ _ Hi). destruct (users n fs) eqn:E; [done|]. assert (0 < users n fs)%nat as [f Hf]%users_pos by lia.
  destruct (wf_open _ _ Hw _ _ Hf) as (j & Hj & Htj). simplify_eq.
Qed.

Lemma p_unregister path ns fs pw : dok ns fs pw -> triple (st ns fs pw) (aos_unregister_driver path) (fun _ => dinv).
Proof.
  intros Hd. unfold aos_unregister_driver. tstep p_lock. intros r. apply triple_pure. intros ->. cbn [Z.eqb negb].
  eapply (triple_bind _ _ _ (fun _ s => exists ns' fs' pw', dok ns' fs' pw' /\ st ns' fs' pw' s)).
  - unfold inode_release. destruct path as [path|]; [|apply triple_ret; intros s Hs; by exists ns, fs, pw]. tstep p_inode_open; [apply Hd|].
    intros [n|]; apply triple_pure; [|intros _; apply triple_ret; intros s Hs; by exists ns, fs, pw]. intros (i & Hi & Ht).
    eapply (triple_bind _ _ _ (fun _ s => exists ns' fs' pw', dok ns' fs' pw' /\ st ns' fs' pw' s)); [|intros r; apply triple_if; intros _; by apply triple_ret].
    unfold inode_del. tstep p_node_at; [done|]. intros j. apply triple_pure. intros ->. apply triple_if; [intros _; apply triple_ret; intros s Hs; by exists ns, fs, pw|]. intros Hr%Z.ltb_ge.
    eapply (triple_bind _ _ _ (fun _ s => exists ns' fs' pw', dok ns' fs' pw' /\ st ns' fs' pw' s)); [|intros []; by apply triple_ret].
    apply triple_if; [intros Hz%Z.eqb_eq|intros _; apply triple_ret; intros s Hs; by exists ns, fs, pw].
    eapply triple_conseq; [by apply p_set_node|done|]. intros [] s Hs. eexists _, _, _. split; [|exact Hs]. eapply dok_idle; [done|done|done|done| |done|done].
    eapply wf_set; [apply Hd|done|done|done|done].
  - intros r s (ns' & fs' & pw' & Hd' & Hs). revert s Hs. tstep p_unlock. intros e. apply triple_pure. intros ->. apply triple_ret. intros s Hs. by eapply dinv_st.
Qed.

Lemma p_reserve path ns fs pw : triple (st ns fs pw) (inode_reserve path) (fun r s =>
  match r.2 with
  | None => r.1 <> VFS_SUCCESS /\ st ns fs pw s
  | Some n => exists i name, r.1 = VFS_SUCCESS /\ ns !! n = Some i /\ type i = VFS_TYPE_NOT_INIT /\ st (<[n := i <| i_name := Some name |>]> ns) fs pw s
  end).
Proof.
  unfold inode_reserve. destruct path as [path|]; [|by apply triple_ret]. apply triple_if; intros _; [by apply triple_ret|].
  eapply (triple_bind _ _ _ (fun r s => match r with None => True | Some n => exists i, ns !! n = Some i /\ type i = VFS_TYPE_NOT_INIT end /\ st ns fs pw s)).
  { intros s [[Hn Hf] Hp]. eexists _, s. split; [done|]. split; [|by split]. rewrite Hn. destruct (find_index _ ns) as [n|] eqn:E; [|done].
    apply find_index_Some in E as (i & Hi & Ht%bool_decide_eq_true). by exists i. }
  intros [n|]; apply triple_pure; [|intros _; by apply triple_ret]. intros (i & Hi & Ht). unfold inode_set_name.
  eapply (triple_bind _ _ _ (fun r s => match r with 0 => st (<[n := i <| i_name := Some path |>]> ns) fs pw s | _ => r = - ENOMEM /\ st ns fs pw s end)).
  { tstep t_keeps; [apply malloc_keeps|]. intros []; cbn [negb]; [|by apply triple_ret]. tstep p_set_node; [done|]. intros []. by apply triple_ret. }
  intros [|p|p]; cbn; [|apply triple_pure; intros Hc; discriminate|].
  - apply triple_ret. intros s Hs. by exists i, path.
  - apply triple_pure. intros ->. by apply triple_ret.
Qed.

Lemma p_register_end ns fs pw node ret : dok ns fs pw -> triple (st ns fs pw) (register_end node ret) (fun _ => dinv).
Proof. intros Hd. unfold register_end. tstep p_unlock. intros e. apply triple_pure. intros ->. cbn. apply triple_ret. intros s Hs. by eapply dinv_st. Qed.

Lemma p_register path p arg ns fs pw : dok ns fs pw -> (forall n i, ns !! n = Some i -> type i <> VFS_TYPE_NOT_INIT -> i_arg i <> arg) ->
  triple (st ns fs pw) (aos_register_driver path p arg) (fun _ => dinv).
Proof.
  intros Hd Harg. unfold aos_register_driver. tstep p_lock. intros r. apply triple_pure. intros ->. cbn [Z.eqb negb].
  tstep p_reserve. intros [ret [n|]]; cbn.
  - intros s (i & name & -> & Hi & Ht & Hs). revert s Hs. cbn. assert (Hlt := lookup_lt_Some _ _ _ Hi). assert (Hr0 := idle_refs _ _ _ _ (d_wf _ _ _ Hd) Hi Ht).
    assert (Hdok : forall m, dok (<[n := {| ops := i_ops p; i_arg := arg; i_name := Some name; i_flags := i_flags i; type := VFS_TYPE_CHAR_DEV; refs := refs i; mutex := m |}]> ns) fs pw).
    { intros m. eapply dok_idle; [done|done|done|done| |done|by intros _]. eapply wf_set; [apply Hd|done|split; [done|by eexists]|done|done]. }
    eapply (triple_bind _ _ _ (fun _ s => exists j, dok (<[n := j]> ns) fs pw /\ st (<[n := j]> ns) fs pw s)).
    { eapply triple_bind; [by apply (triple_ret _ n (fun m s => m = n /\ st (<[n := i <| i_name := Some name |>]> ns) fs pw s))|].
      intros m. apply triple_pure. intros ->. tstep p_set_node; [by apply list_lookup_insert_eq|]. intros []; cbn beta. rewrite list_insert_insert_eq.
      tstep t_keeps; [apply new_keeps|]. intros [e m]. cbn [fst snd]. eapply (triple_bind _ _ _ (fun _ s => exists j, dok (<[n := j]> ns) fs pw /\ st (<[n := j]> ns) fs pw s)); [|intros []; by apply triple_ret].
      apply triple_if; intros _; [|apply triple_ret; intros s Hs; eexists; split; [|exact Hs]; apply Hdok].
      eapply triple_conseq; [eapply p_set_node; by apply list_lookup_insert_eq|done|]. intros [] s Hs. rewrite list_insert_insert_eq in Hs. eexists. split; [|exact Hs]. apply Hdok. }
    intros ret s (j & Hj & Hs). by apply (p_register_end _ _ _ _ _ Hj).
  - intros s [Hret Hs]. revert s Hs. destruct (Z.eqb_spec ret VFS_SUCCESS) as [|_]; [done|]. eapply triple_bind; [by apply (triple_ret _ _ (fun _ => st ns fs pw))|].
    intros r. by apply p_register_end.
Qed.

Lemma p_call c ns fs pw s : dok ns fs pw -> st ns fs pw s -> one_node c s -> exists r s', dstep c s = Some (r, s') /\ dinv s'.
Proof.
  intros Hd Hs Hone. assert (Hquit : forall A (x : A), triple (st ns fs pw) (mret x) (fun _ => dinv)) by (intros A x; apply triple_ret; intros s' Hs'; by eapply dinv_st).
  assert (Hkeep : forall A (g : W -> A * W), keeps powered g -> triple (st ns fs pw) (on_world g) (fun _ => dinv)).
  { intros A g Hg. eapply triple_conseq; [by apply t_keeps|done|]. intros r s' Hs'. by eapply dinv_st. }
  destruct c as [path p arg|path|path flags|fd|fd n|fd buf|fd cmd arg]; cbn [dstep].
  - apply (p_register path p arg ns fs pw); [done| |done]. intros n i Hi Ht Ha. apply Hone. exists n, i. destruct Hs as [[Hn _] _]. by rewrite Hn.
  - by apply (p_unregister path ns fs pw).
  - by apply (p_open path flags ns fs pw).
  - by apply (p_close fd ns fs pw).
  - refine (triple_bind (st ns fs pw) _ _ (fun _ => dinv) _ _ _ s Hs); [|intros r; by apply triple_ret]. apply p_transfer; [done|apply Hkeep, (trap_keeps fd n [] ""%string 0)|].
    intros p d Ed. destruct (fo_read (device_ops p)) as [d'|] eqn:E; cbn in Ed; simplify_eq. by apply (op_reads _ (device_power p)).
  - refine (p_transfer fd _ _ _ _ ns fs pw Hd _ _ s Hs); [apply Hkeep, (trap_keeps fd 0 buf ""%string 0)|].
    intros p d Ed. destruct (fo_write (device_ops p)) as [d'|] eqn:E; cbn in Ed; simplify_eq. by apply (op_writes _ (device_power p)).
  - unfold aos_ioctl. destruct (fd <? 0); [by apply Hquit|]. refine (p_transfer fd _ _ _ _ ns fs pw Hd _ _ s Hs); [apply Hquit|].
    intros p d Ed. destruct (fo_ioctl (device_ops p)) as [d'|] eqn:E; cbn in Ed; simplify_eq. by apply (op_ioctls _ (device_power p)).
Qed.

Lemma device_run_inv s : device_run s -> dinv s.
Proof.
  induction 1 as [w s Hoff Hi|s c r s' Hs IH Hone E].
  - revert Hi. unfold vfs_init, mbind, ub_bind, get, on_world. cbn -[replicate]. pose proof (fun q => new_keeps q w) as Hk. destruct (aos_mutex_new w) as [[r m] w']. cbn -[replicate] in *.
    destruct (negb (r =? VFS_SUCCESS)); intros [= -> <-]; exists (replicate AOS_CONFIG_VFS_DEV_NODES inode_zero), (replicate MAX_FILE_NUM None), (fun _ => false);
      (split; [|split; [done|intros q; cbn -[replicate]; by rewrite Hk]]);
      (split; [apply wf_zero|intros ? ? ? ? [-> _]%lookup_replicate; done|intros ? ? [-> _]%lookup_replicate; done|intros q; split; [done|intros (n & i & [-> _]%lookup_replicate & Ht & _); done]]).
  - destruct IH as (ns & fs & pw & Hd & Hst). destruct (p_call c ns fs pw s Hd Hst Hone) as (r' & s2 & E' & Hi). congruence.
Qed.
End Drivers.
