(* ===== verification/VfsClaims.v ===== *)
(** * Guarantees of the virtual file system

    The theorems on interleaved calls and on the devices, with a board in memory on which
    they apply, and executions that show where the guarantees end. *)
From stdpp Require Import strings.
From S2P Require Import Prelude KTypes Vfs VfsInv VfsDev VfsPower.
Local Open Scope Z_scope.



(** ** A board in memory *)
Record board := { devices_on : list Z; init_status : Z; mutexes_made : Z; new_status : Z }.

Definition init_dev (p : Z) (w : board) : Z * board :=
  (init_status w, if init_status w =? 0 then {| devices_on := p :: devices_on w; init_status := 0; mutexes_made := mutexes_made w; new_status := new_status w |} else w).
Definition finalize_dev (p : Z) (w : board) : Z * board :=
  (0, {| devices_on := remove_addr p (devices_on w); init_status := init_status w; mutexes_made := mutexes_made w; new_status := new_status w |}).
Definition on_dev (p : Z) (w : board) : bool := bool_decide (p ∈ devices_on w).

#[export] Instance board_aos : Aos board := {
  aos_mutex_new w := (new_status w, 7, {| devices_on := devices_on w; init_status := init_status w; mutexes_made := mutexes_made w + 1; new_status := new_status w |});
  aos_mutex_lock _ w := (0, w);
  aos_mutex_unlock _ w := (0, w);
  aos_malloc_ok _ w := (true, w);
  trap_open _ _ w := (- ENOSYS, w);
  trap_close _ w := (- ENOSYS, w);
  trap_read _ _ w := (- ENOSYS, [], w);
  trap_write _ _ w := (- ENOSYS, w);
  trap_fcntl _ _ _ w := (- ENOSYS, w);
}.

#[export] Instance board_hal : Hal board := {
  hal_adc_init := init_dev; hal_adc_finalize := finalize_dev; hal_adc_value_get _ w := (0, [1; 2; 3; 4], w);
  hal_gpio_init := init_dev; hal_gpio_finalize := finalize_dev; hal_gpio_input_get _ w := (0, [1; 0; 0; 0], w);
  hal_gpio_output_high _ w := (0, w); hal_gpio_output_low _ w := (0, w); hal_gpio_output_toggle _ w := (0, w);
  i2c_dev_addr _ _ := 0; hal_i2c_init := init_dev; hal_i2c_finalize := finalize_dev;
  hal_i2c_master_recv _ _ n w := (0, replicate (Z.to_nat n) 0, w); hal_i2c_master_send _ _ _ w := (0, w);
  hal_pwm_init := init_dev; hal_pwm_finalize := finalize_dev; hal_pwm_start _ w := (0, w); hal_pwm_stop _ w := (0, w);
  hal_rtc_init := init_dev; hal_rtc_finalize := finalize_dev; hal_rtc_get_time _ w := (0, replicate 7 0, w); hal_rtc_set_time _ _ w := (0, w);
  hal_spi_init := init_dev; hal_spi_finalize := finalize_dev; hal_spi_recv _ n w := (0, replicate (Z.to_nat n) 0, w); hal_spi_send _ _ w := (0, w);
  hal_uart_init := init_dev; hal_uart_finalize := finalize_dev; hal_uart_recv _ n w := (0, replicate (Z.to_nat n) 65, w); hal_uart_send _ _ w := (0, w);
  hal_wdg_init := init_dev; hal_wdg_finalize := finalize_dev; hal_wdg_reload _ w := w;
}.

Lemma board_init_on : turns_on on_dev init_dev.
Proof.
  intros p w Hp. unfold init_dev, on_dev. destruct (Z.eqb_spec (init_status w) 0) as [->|Hne]; cbn.
  - split; [|apply bool_decide_eq_true_2; set_solver]. intros q Hq. apply bool_decide_ext. set_solver.
  - split; [done|]. unfold on_dev in Hp. rewrite Hp. by destruct (Z.eqb_spec (init_status w) 0).
Qed.

Lemma board_finalize_off : turns_off on_dev finalize_dev.
Proof.
  intros p w Hp q. unfold finalize_dev, on_dev. cbn. destruct (Z.eqb_spec q p) as [->|Hq]; cbn.
  - rewrite andb_false_r. apply bool_decide_eq_false_2. rewrite elem_of_remove_addr. by intros [? _].
  - rewrite andb_true_r. apply bool_decide_ext. rewrite elem_of_remove_addr. by intuition.
Qed.

#[export] Instance board_power : PowerOk board.
Proof.
  refine {| powered := on_dev |}; try done.
  - cbn. repeat (apply Forall_cons; split; [apply board_init_on|]). by apply Forall_nil.
  - cbn. repeat (apply Forall_cons; split; [apply board_finalize_off|]). by apply Forall_nil.
Defined.

(** ** Executions *)
Module VfsCases.
Definition quiet : board := {| devices_on := []; init_status := 0; mutexes_made := 0; new_status := 0 |}.
Definition boot : vfs_t board := default (vfs_zero quiet) (snd <$> vfs_init (vfs_zero quiet)).
Definition no_files (p : Z) : fs_ops board := no_fs p.

(** Calls one after the other; the results, newest first. *)
Fixpoint calls (cs : list dcall) (rs : list Z) (s : vfs_t board) : list Z * vfs_t board :=
  match cs with
  | [] => (rs, s)
  | c :: cs => match dstep c s with Some (r, s) => calls cs (r :: rs) s | None => (rs, s) end
  end.
(** Steps of tasks; nothing when one is undefined. *)
Definition tasks (acts : list action) (s : vfs_t board) : option (@config board) :=
  fold_left (fun c a => c ← c; vfs_step device_ops no_files c a) acts (Some {| vfs := s; inflight := [] |}).

Definition uart : string := "/dev/uart".
Definition with_uart : vfs_t board := (calls [d_register (Some uart) 6 100] [] boot).2.

(** A device is opened twice and closed twice. *)
Example open_close : let '(rs, s) := calls [d_open (Some uart) 0; d_open (Some uart) 0; d_read 65 3; d_close 64; d_unregister (Some uart); d_close 65; d_unregister (Some uart)] [] with_uart in
  rs = [0; 0; - EBUSY; 0; 3; 65; 64] /\ devices_on (world s) = [].
Proof. vm_compute. by split. Qed.

(** Two tasks close the same descriptor: the second one follows a null pointer. *)
Example double_close_undefined :
  tasks [a_open (Some uart) 0; a_continue 0; a_close 64; a_close 64; a_continue 0; a_continue 0] with_uart = None.
Proof. vm_compute. reflexivity. Qed.

(** Two tasks open a device at the same time.  Both drivers find two references, and
    nobody initialises the hardware. *)
Example both_open_none_on : exists c, tasks [a_open (Some uart) 0; a_open (Some uart) 0; a_continue 0; a_continue 0] with_uart = Some c /\
  take 3 (fnodes (vfs c)) = [Some O; Some O; None] /\ devices_on (world (vfs c)) = [].
Proof. eexists. split; [vm_compute; reflexivity|]. vm_compute. by split. Qed.

(** The hardware layer reports an error with the positive [EIO], and [aos_open] returns it,
    where callers expect a descriptor. *)
Example open_returns_positive_error :
  (calls [d_register (Some uart) 6 100; d_open (Some uart) 0] [] (boot <| world := {| devices_on := []; init_status := 5; mutexes_made := 0; new_status := 0 |} |>)).1 = [5; 0].
Proof. vm_compute. reflexivity. Qed.

(** A registration that fails to create the mutex returns the error and stays. *)
Example failed_registration_stays :
  let '(rs, s) := calls [d_register (Some uart) 6 100] [] (boot <| world := {| devices_on := []; init_status := 0; mutexes_made := 0; new_status := - ENOMEM |} |>) in
  rs = [- ENOMEM] /\ find_index (inode_matches uart) (g_vfs_dev_nodes s) = Some O.
Proof. vm_compute. by split. Qed.

(** Every registration creates a mutex, and unregistering does not free it. *)
Example mutexes_leak : mutexes_made (world (calls [d_unregister (Some uart); d_register (Some uart) 6 100; d_unregister (Some uart)] [] with_uart).2) = 3.
Proof. vm_compute. reflexivity. Qed.

(** [inode_avail_count] reads the entry [count], not the entry [e]: with the first node in
    use there seem to be no free nodes. *)
Example avail_count_wrong : fst <$> inode_avail_count with_uart = Some 0.
Proof. vm_compute. reflexivity. Qed.

(** [aos_ioctl_in_loop] stops at the first descriptor that is not open. *)
Example ioctl_in_loop_stops :
  fst <$> aos_ioctl_in_loop device_ops 1 (0, []) (calls [d_open (Some uart) 0; d_open (Some uart) 0; d_close 64] [] with_uart).2 = Some (- ENOENT).
Proof. vm_compute. reflexivity. Qed.

(** It takes the operations of a file system for those of a device. *)
Example ioctl_in_loop_confuses :
  (s ← snd <$> aos_register_fs (Some "/fs"%string) 0 0 boot; s ← snd <$> aos_open device_ops no_files (Some "/fs/a"%string) 0 s; aos_ioctl_in_loop device_ops 1 (0, []) s) = None.
Proof. vm_compute. reflexivity. Qed.


Lemma uart_open_run : device_run (calls [d_open (Some uart) 0] [] with_uart).2.
Proof.
  assert (Hb : device_run boot) by (apply (run_init quiet); [done|vm_compute; reflexivity]).
  assert (Hu : device_run with_uart).
  { apply (run_call boot (d_register (Some uart) 6 100) 0 _ Hb); [|vm_compute; reflexivity].
    intros (n & i & Hi & Ht & _). change (g_vfs_dev_nodes boot) with (replicate 25 inode_zero) in Hi. apply lookup_replicate in Hi as [-> _]. done. }
  apply (run_call with_uart (d_open (Some uart) 0) 64 _ Hu); [done|vm_compute; reflexivity].
Qed.

End VfsCases.
