(* ===== verification/EvDev.v ===== *)
(** * The event device and polling ([device.c], [vfs.c])

    Every open file on [/dev/event] is a queue of messages of its own.  A message that was
    read is kept in a cache of at most four, from which the next message of the same length
    is taken.  A task that polls leaves an entry for every descriptor with its driver and
    waits for a semaphore, which the drivers signal.

    The state [evw] holds the devices by their address, the memory that is allocated, the
    results of the coming calls of [aos_malloc], the [revents] of the poll entries by their
    address and the counts of the semaphores.  The functions of a device run under its
    mutex, which is not represented.  [bad] records that a null or dangling pointer was
    followed.  Polling is that of the configuration without a network stack. *)
From stdpp Require Import strings.
From S2P Require Import Prelude KTypes Vfs.
Local Open Scope Z_scope.

Definition IOCTL_WRITE_NORMAL : Z := 1.
Definition IOCTL_WRITE_URGENT : Z := 2.
Definition MK_CMD (c l : Z) : Z := Z.lor (Z.shiftl l 4) c.
Definition _GET_LEN (cmd : Z) : Z := Z.shiftr cmd 4.
Definition _GET_CMD (cmd : Z) : Z := Z.land cmd 0xf.
Definition POLLIN : Z := 1.

(** A message and the block it is in. *)
Record dev_event_t := { e_addr : Z; e_len : Z; e_buf : list Z }.

(** [poll_cb] is set or not: it is always [vfs_poll_notify]. *)
Record event_dev_t := { poll_cb : bool; poll_fd : Z; poll_data : Z; counter : Z; bufs : list dev_event_t; cache_count : Z; buf_cache : list dev_event_t }.
#[export] Instance eta_event_dev : Eta event_dev_t := {| eta_expand := fun d => {|
  poll_cb := poll_cb d; poll_fd := poll_fd d; poll_data := poll_data d; counter := counter d; bufs := bufs d; cache_count := cache_count d; buf_cache := buf_cache d |} |}.
Definition event_dev_zero : event_dev_t := {| poll_cb := false; poll_fd := 0; poll_data := 0; counter := 0; bufs := []; cache_count := 0; buf_cache := [] |}.

Record evw := { devs : gmap Z event_dev_t; live : gset Z; next_block : Z; mallocs : list bool; revents : gmap Z Z; sems : gmap Z Z; bad : bool }.
#[export] Instance eta_evw : Eta evw := {| eta_expand := fun w => {|
  devs := devs w; live := live w; next_block := next_block w; mallocs := mallocs w; revents := revents w; sems := sems w; bad := bad w |} |}.

Definition ev_malloc (w : evw) : Z * evw :=
  let w' := w <| mallocs ::= tail |> in
  if default true (head (mallocs w)) then (next_block w, w' <| live ::= fun l => {[next_block w]} ∪ l |> <| next_block ::= Z.succ |>) else (0, w').
Definition ev_free (a : Z) (w : evw) : evw := if decide (a ∈ live w) then w <| live ::= fun l => l ∖ {[a]} |> else w <| bad := true |>.

(** [vfs_poll_notify] *)
Definition vfs_poll_notify (arg : Z) (w : evw) : evw := w <| sems ::= partial_alter (fun c => Some (default 0 c + 1)) arg |>.
Definition set_revents (fd : Z) (w : evw) : evw := w <| revents ::= partial_alter (fun r => Some (Z.lor (default 0 r) POLLIN)) fd |>.

(** ** [device.c] *)
Definition event_open : drv evw Z := fun _ file w =>
  let '(pdev, w) := ev_malloc w in
  if pdev =? 0 then (0, file <| f_arg := 0 |>, w <| bad := true |>)
  else (0, file <| f_arg := pdev |>, w <| devs ::= <[pdev := event_dev_zero]> |>).

Definition event_close : drv evw Z := fun _ file w =>
  match devs w !! f_arg file with
  | None => (0, file, w <| bad := true |>)
  | Some pdev => (0, file, ev_free (f_arg file) (foldr ev_free w (e_addr <$> bufs pdev ++ buf_cache pdev)) <| devs ::= delete (f_arg file) |>)
  end.

(** The block for a message: from the cache if its first block has the right length. *)
Definition event_block (len : Z) (pdev : event_dev_t) (w : evw) : Z * event_dev_t * evw :=
  if 0 <? cache_count pdev then
    match buf_cache pdev with
    | [] => (0, pdev, w <| bad := true |>)
    | evt :: rest =>
        if e_len evt =? len then (e_addr evt, pdev <| buf_cache := rest |> <| cache_count ::= Z.pred |>, w)
        else let '(a, w) := ev_malloc w in (a, pdev, w)
    end
  else let '(a, w) := ev_malloc w in (a, pdev, w).

Definition _event_write (buf : list Z) (urgent : bool) : drv evw Z := fun _ f w =>
  match devs w !! f_arg f with
  | None => (-1, f, w <| bad := true |>)
  | Some pdev =>
      let len := Z.of_nat (length buf) in
      let '(a, pdev, w) := event_block len pdev w in
      if a =? 0 then (-1, f, w <| devs ::= <[f_arg f := pdev]> |>)
      else
        let evt := {| e_addr := a; e_len := len; e_buf := buf |} in
        let pdev := pdev <| counter ::= Z.succ |> <| bufs ::= fun l => if urgent then evt :: l else l ++ [evt] |> in
        let w := w <| devs ::= <[f_arg f := pdev]> |> in
        let w := if poll_cb pdev then vfs_poll_notify (poll_data pdev) (set_revents (poll_fd pdev) w) else w in
        (len, f, w)
  end.

Definition event_write (buf : list Z) : drv evw Z := _event_write buf false.

Definition event_ioctl (cmd : Z) (arg : Z * list Z) : drv evw Z := fun i f w =>
  let len := _GET_LEN cmd in
  let buf := take (Z.to_nat len) arg.2 in
  if _GET_CMD cmd =? IOCTL_WRITE_NORMAL then _event_write buf false i f w
  else if _GET_CMD cmd =? IOCTL_WRITE_URGENT then _event_write buf true i f w
  else (-1, f, w).

(** The count is looked at before the mutex is taken. *)
Definition event_read (len : Z) : drv evw (Z * list Z) := fun _ f w =>
  match devs w !! f_arg f with
  | None => ((-1, []), f, w <| bad := true |>)
  | Some pdev =>
      if counter pdev =? 0 then ((0, []), f, w)
      else
        match bufs pdev with
        | [] => ((-1, []), f, w <| bad := true |>)
        | evt :: rest =>
            let cnt := if e_len evt <? len then e_len evt else len in
            let pdev := pdev <| bufs := rest |> in
            let '(pdev, w) :=
              if cache_count pdev <? 4 then (pdev <| buf_cache ::= cons evt |> <| cache_count ::= Z.succ |>, w)
              else (pdev, ev_free (e_addr evt) w) in
            let pdev := pdev <| counter ::= Z.pred |> in
            ((cnt, take (Z.to_nat cnt) (e_buf evt)), f, w <| devs ::= <[f_arg f := pdev]> |>)
        end
  end.

Definition event_poll (setup : bool) (fd opa : Z) : drv evw Z := fun _ f w =>
  match devs w !! f_arg f with
  | None => (0, f, w <| bad := true |>)
  | Some pdev =>
      if negb setup then (0, f, w <| devs ::= <[f_arg f := pdev <| poll_cb := false |> <| poll_data := 0 |>]> |>)
      else
        let w := w <| devs ::= <[f_arg f := pdev <| poll_cb := true |> <| poll_fd := fd |> <| poll_data := opa |>]> |> in
        (0, f, if counter pdev =? 0 then w else vfs_poll_notify opa (set_revents fd w))
  end.

Definition event_fops : file_ops evw :=
  {| fo_open := Some event_open; fo_close := Some event_close; fo_read := Some event_read; fo_write := Some event_write; fo_ioctl := Some event_ioctl; fo_poll := Some event_poll |}.

(** [inited] is the static flag; the status and the flag. *)
Definition vfs_device_init `{Aos evw} (inited event_fops_p : Z) : ub (vfs_t evw) (Z * Z) :=
  if inited =? 1 then mret (VFS_SUCCESS, inited)
  else
    ret ← aos_register_driver (Some "/dev/event"%string) event_fops_p 0;
    if negb (ret =? VFS_SUCCESS) then mret (ret, inited) else mret (VFS_SUCCESS, 1).

(** ** [aos_poll]

    A poll entry is its address and its descriptor; [parg] is the address of the semaphore. *)
Section Poll.
Context (fops : Z -> file_ops evw).
Abbreviation M := (ub (vfs_t evw)).

Record pollfd := { p_addr : Z; p_fd : Z }.

Definition init_parg (parg : Z) : M unit := modify (fun s => s <| world ::= fun w => w <| sems ::= <[parg := 0]> |> |>).
Definition deinit_parg (parg : Z) : M unit := modify (fun s => s <| world ::= fun w => w <| sems ::= delete parg |> |>).

(** The operation of a node taken for a device's. *)
Definition poll_call `{Aos evw} (flag : bool) (fd arg : Z) (f : nat) : M unit :=
  x ← file_at f;
  n ← deref (node x);
  i ← node_at n;
  o ← iops_of fops i;
  match fo_poll o with
  | Some d => _ ← call_drv (d flag fd arg) n f; mret tt
  | None => undefined
  end.

Definition clear_revents (p : pollfd) : M unit := modify (fun s => s <| world ::= fun w => w <| revents ::= <[p_addr p := 0]> |> |>).

(** The descriptors below 64 that are polled, or nothing when a descriptor is not open. *)
Fixpoint pre_poll_loop `{Aos evw} (parg : Z) (fds : list pollfd) (rfds : list Z) : M (option (list Z)) :=
  match fds with
  | [] => mret (Some rfds)
  | p :: fds =>
      if p_fd p <? AOS_CONFIG_VFS_FD_OFFSET then pre_poll_loop parg fds (p_fd p :: rfds)
      else
        r ← get_file (p_fd p);
        match r with
        | None => mret None
        | Some f => _ ← poll_call true (p_addr p) parg f; pre_poll_loop parg fds rfds
        end
  end.

Fixpoint clear_loop (fds : list pollfd) : M unit :=
  match fds with [] => mret tt | p :: fds => _ ← clear_revents p; clear_loop fds end.

Definition pre_poll `{Aos evw} (parg : Z) (fds : list pollfd) : M (option (list Z)) :=
  _ ← clear_loop fds; pre_poll_loop parg fds [].

Fixpoint post_poll `{Aos evw} (fds : list pollfd) (ret : Z) : M Z :=
  match fds with
  | [] => mret ret
  | p :: fds =>
      if p_fd p <? AOS_CONFIG_VFS_FD_OFFSET then post_poll fds ret
      else
        r ← get_file (p_fd p);
        match r with
        | None => post_poll fds ret
        | Some f =>
            _ ← poll_call false 0 0 f;
            s ← get;
            post_poll fds (if default 0 (revents (world s) !! p_addr p) =? 0 then ret else ret + 1)
        end
  end.

(** Before the task waits, and after [wait_io] has returned 0. *)
Definition poll_enter `{Aos evw} (parg : Z) (fds : list pollfd) : M (option (list Z)) := _ ← init_parg parg; pre_poll parg fds.

Fixpoint mark_ready (rfds : list Z) (fds : list pollfd) : M unit :=
  match fds with
  | [] => mret tt
  | p :: fds =>
      _ ← modify (fun s => if bool_decide (p_fd p ∈ rfds) then s <| world ::= set_revents (p_addr p) |> else s);
      mark_ready rfds fds
  end.

Definition poll_leave `{Aos evw} (parg : Z) (fds : list pollfd) (r : option (list Z)) : M Z :=
  match r with
  | None => _ ← post_poll fds 0; _ ← deinit_parg parg; mret 0
  | Some rfds => _ ← mark_ready rfds fds; nset ← post_poll fds 0; _ ← deinit_parg parg; mret nset
  end.
End Poll.
