(* ===== verification/LocalEvent.v ===== *)
(** * Events ([local_event.c])

    A task posts an event by writing it to the event device; the task of the event loop
    reads it from there and calls the filters registered for its type, or, for a scheduled
    call, the function in the event.  The calls of filters and functions are recorded in
    [calls], in their order. *)
From stdpp Require Import strings.
From S2P Require Import Prelude KTypes Vfs EvDev.
Local Open Scope Z_scope.

Definition EV_ALL : Z := 0.
Definition EV_RPC : Z := 0x0100.
Definition EV_FLAG_URGENT : Z := 0x8000.

Record input_event_t := { time : Z; e_type : Z; code : Z; value : Z; extra : Z }.
(** A filter and the block it is in. *)
Record event_list_node_t := { n_addr : Z; cb : Z; priv : Z; type_filter : Z }.

(** A call of a filter with its event and private data, or of a scheduled function. *)
Inductive called := call_filter (cb priv : Z) (e : input_event_t) | call_function (handler arg : Z).

(** ** The bytes of an event *)
Fixpoint le_bytes (n : nat) (x : Z) : list Z := match n with O => [] | S n => x mod 256 :: le_bytes n (x / 256) end.
Fixpoint le_value (l : list Z) : Z := match l with [] => 0 | b :: l => b + 256 * le_value l end.

Definition sizeof_event : Z := 16.
Definition event_bytes (e : input_event_t) : list Z := le_bytes 4 (time e) ++ le_bytes 2 (e_type e) ++ le_bytes 2 (code e) ++ le_bytes 4 (value e) ++ le_bytes 4 (extra e).
Definition bytes_event (l : list Z) : input_event_t :=
  {| time := le_value (take 4 l); e_type := le_value (take 2 (drop 4 l)); code := le_value (take 2 (drop 6 l)); value := le_value (take 4 (drop 8 l)); extra := le_value (take 4 (drop 12 l)) |}.

Record lev := { sys : vfs_t evw; local_event_fd : Z; g_local_event_list : list event_list_node_t; calls : list called }.
#[export] Instance eta_lev : Eta lev := {| eta_expand := fun s => {| sys := sys s; local_event_fd := local_event_fd s; g_local_event_list := g_local_event_list s; calls := calls s |} |}.

Section Events.
Context `{Aos evw} (fops : Z -> file_ops evw) (fsops : Z -> fs_ops evw).
Abbreviation L := (ub lev).
Implicit Types (fd : Z) (event : input_event_t).

Definition on_sys {A} (m : ub (vfs_t evw) A) : L A := fun s => match m (sys s) with Some (x, v) => Some (x, s <| sys := v |>) | None => None end.
Definition record (c : list called) : L unit := modify (fun s => s <| calls ::= fun l => l ++ c |>).

(** The filters that want an event. *)
Definition wants event (n : event_list_node_t) : bool := (type_filter n =? EV_ALL) || (type_filter n =? e_type event).

Definition handle_events event : L unit :=
  if e_type event =? EV_RPC then record [call_function (value event) (extra event)]
  else s ← get; record ((fun n => call_filter (cb n) (priv n) event) <$> filter (fun n => wants event n = true) (g_local_event_list s)).

Definition input_add_event fd event : L Z :=
  let urgent := negb (Z.land (e_type event) EV_FLAG_URGENT =? 0) in
  let event := {| time := time event; e_type := Z.land (e_type event) (wrap16 (Z.lnot EV_FLAG_URGENT)); code := code event; value := value event; extra := extra event |} in
  let cmd := if urgent then MK_CMD IOCTL_WRITE_URGENT sizeof_event else MK_CMD IOCTL_WRITE_NORMAL sizeof_event in
  on_sys (aos_ioctl fops fsops fd cmd (0, event_bytes event)).

Definition event_read_cb fd : L unit :=
  r ← on_sys (aos_read fops fsops fd sizeof_event);
  if r.1 =? sizeof_event then handle_events (bytes_event r.2) else mret tt.

Definition aos_post_event (type_ code_ value_ : Z) : L Z :=
  s ← get; input_add_event (local_event_fd s) {| time := 0; e_type := type_; code := code_; value := value_; extra := 0 |}.

Definition on_memory {A} (g : evw -> A * evw) : L A := on_sys (on_world g).

Definition aos_register_event_filter (type_ cb_ priv_ : Z) : L Z :=
  if cb_ =? 0 then mret (- EINVAL)
  else
    a ← on_memory ev_malloc;
    if a =? 0 then mret (- ENOMEM)
    else _ ← modify (fun s => s <| g_local_event_list ::= fun l => l ++ [{| n_addr := a; cb := cb_; priv := priv_; type_filter := type_ |}] |>); mret 0.

(** The first filter with the same type, function and data. *)
Definition is_filter (type_ cb_ priv_ : Z) (n : event_list_node_t) : bool := (type_filter n =? type_) && (cb n =? cb_) && (priv n =? priv_).
Definition aos_unregister_event_filter (type_ cb_ priv_ : Z) : L Z :=
  s ← get;
  match find_index (is_filter type_ cb_ priv_) (g_local_event_list s) with
  | Some k =>
      _ ← modify (fun s => s <| g_local_event_list ::= delete k |>);
      _ ← on_memory (fun w => (tt, match g_local_event_list s !! k with Some n => ev_free (n_addr n) w | None => w end));
      mret 0
  | None => mret (- EINVAL)
  end.

(** [eventfd] is what [aos_loop_get_eventfd] returns for the loop. *)
Definition _schedule_call (eventfd fun_ arg : Z) (urgent : bool) : L Z :=
  if fun_ =? 0 then mret (- EINVAL)
  else
    s ← get;
    let fd := if eventfd <? 0 then local_event_fd s else eventfd in
    input_add_event fd {| time := 0; e_type := if urgent then Z.lor EV_RPC EV_FLAG_URGENT else EV_RPC; code := 0; value := fun_; extra := arg |}.

Definition aos_loop_schedule_urgent_call (eventfd fun_ arg : Z) : L Z := _schedule_call eventfd fun_ arg true.
Definition aos_loop_schedule_call (eventfd fun_ arg : Z) : L Z := _schedule_call eventfd fun_ arg false.
End Events.
