(* ===== verification/EvClaims.v ===== *)
(** * The event device is a queue

    A device holds its messages in order, urgent ones at the front; the blocks of messages
    and of the cache are distinct and allocated, and the cache has at most four of them. *)
From stdpp Require Import strings.
From S2P Require Import Prelude KTypes Vfs VfsInv EvDev LocalEvent.
Local Open Scope Z_scope.

(** ** Bytes *)
Lemma le_length n x : length (le_bytes n x) = n.
Proof. revert x. induction n as [|n IH]; intros x; [done|]. cbn. by rewrite IH. Qed.

Lemma le_roundtrip n x : 0 <= x < 2 ^ (8 * Z.of_nat n) -> le_value (le_bytes n x) = x.
Proof.
  revert x. induction n as [|n IH]; intros x Hx; cbn [le_bytes le_value]; [change (2 ^ (8 * Z.of_nat 0)) with 1 in Hx; lia|].
  rewrite IH; [pose proof (Z.div_mod x 256); lia|]. replace (8 * Z.of_nat (S n)) with (8 + 8 * Z.of_nat n) in Hx by lia. rewrite Z.pow_add_r in Hx by lia. change (2 ^ 8) with 256 in Hx.
  split; [apply Z.div_pos; lia|apply Z.div_lt_upper_bound; lia].
Qed.

(** The fields of an event have their widths. *)
Definition event_ok (e : input_event_t) : Prop := u32 (time e) /\ 0 <= e_type e < 2 ^ 16 /\ 0 <= code e < 2 ^ 16 /\ u32 (value e) /\ u32 (extra e).

Lemma event_bytes_length e : length (event_bytes e) = 16%nat.
Proof. unfold event_bytes. by rewrite !length_app, !le_length. Qed.

Lemma event_roundtrip e : event_ok e -> bytes_event (event_bytes e) = e.
Proof.
  intros (H1 & H2 & H3 & H4 & H5). destruct e as [t ty c v x]. unfold bytes_event, event_bytes. cbn [time e_type code value extra] in *. unfold u32 in *.
  cbn [le_bytes app take drop]. f_equal; [exact (le_roundtrip 4 t H1)|exact (le_roundtrip 2 ty H2)|exact (le_roundtrip 2 c H3)|exact (le_roundtrip 4 v H4)|exact (le_roundtrip 4 x H5)].
Qed.

(** ** Memory *)
Record mem_ok (w : evw) : Prop := {
  mem_next : 0 < next_block w;
  mem_live : forall a, a ∈ live w -> 0 < a < next_block w;
  mem_all : mallocs w = [];
  mem_good : bad w = false;
}.

(** The blocks of a device. *)
Definition blocks (a : Z) (d : event_dev_t) : list Z := a :: ((e_addr <$> bufs d) ++ (e_addr <$> buf_cache d)).

Record dev_ok (w : evw) (a : Z) (d : event_dev_t) (q : list (list Z)) : Prop := {
  dev_here : devs w !! a = Some d;
  dev_queue : e_buf <$> bufs d = q;
  dev_count : counter d = Z.of_nat (length (bufs d));
  dev_cache : cache_count d = Z.of_nat (length (buf_cache d)) /\ (length (buf_cache d) <= 4)%nat;
  dev_lens : Forall (fun e => e_len e = Z.of_nat (length (e_buf e))) (bufs d ++ buf_cache d);
  dev_blocks : NoDup (blocks a d) /\ Forall (fun b => b ∈ live w) (blocks a d);
}.

Lemma malloc_ok w : mem_ok w -> exists b w', ev_malloc w = (b, w') /\ b <> 0 /\ (b ∉ live w) /\ mem_ok w' /\ live w' = {[b]} ∪ live w /\ devs w' = devs w.
Proof.
  intros [Hn Hl Ha Hb]. unfold ev_malloc. rewrite Ha. cbn. eexists _, _. split; [done|]. split_and!; [lia| | |done|done].
  - intros Hin. specialize (Hl _ Hin). lia.
  - split; cbn; [lia| |by rewrite Ha|done]. intros a [->%elem_of_singleton|Hin]%elem_of_union; [lia|]. specialize (Hl _ Hin). lia.
Qed.

Lemma free_ok w b : mem_ok w -> b ∈ live w -> mem_ok (ev_free b w) /\ live (ev_free b w) = live w ∖ {[b]} /\ devs (ev_free b w) = devs w.
Proof.
  intros [Hn Hl Ha Hb] Hin. unfold ev_free. rewrite decide_True by done. split_and!; [|done|done]. split; cbn; [done| |done|done]. intros a [Hal _]%elem_of_difference. by apply Hl.
Qed.

(** ** The device *)
Section Device.
Implicit Types (w : evw) (a : Z) (d : event_dev_t) (q : list (list Z)).

Lemma block_ok w a d q len : mem_ok w -> dev_ok w a d q -> exists b d' w', event_block len d w = (b, d', w') /\ b <> 0 /\ mem_ok w' /\ devs w' = devs w /\
  bufs d' = bufs d /\ counter d' = counter d /\ cache_count d' = Z.of_nat (length (buf_cache d')) /\ (length (buf_cache d') <= 4)%nat /\
  Forall (fun e => e_len e = Z.of_nat (length (e_buf e))) (buf_cache d') /\ NoDup (b :: blocks a d') /\ Forall (fun x => x ∈ live w') (b :: blocks a d').
Proof.
  intros Hm [Hh Hq Hc [Hcc Hle] Hl [Hnd Hlv]]. apply Forall_app in Hl as [Hl1 Hl2]. destruct (malloc_ok w Hm) as (b & w' & Em & Hb & Hfresh & Hm' & Hlive & Hdevs).
  assert (Hnew : NoDup (b :: blocks a d) /\ Forall (fun x => x ∈ live w') (b :: blocks a d)).
  { split; [constructor; [|done]; intros Hin; apply Hfresh; rewrite Forall_forall in Hlv; by apply Hlv|].
    rewrite Hlive. constructor; [set_solver|]. eapply Forall_impl; [exact Hlv|]. set_solver. }
  unfold event_block. rewrite Hcc. destruct (buf_cache d) as [|evt rest] eqn:E; cbn [length] in *.
  - cbn. rewrite Em. exists b, d, w'. rewrite E in *. by destruct Hnew.
  - destruct (Z.ltb_spec 0 (Z.of_nat (S (length rest)))); [|lia]. destruct (e_len evt =? len).
    + eexists _, _, w. split; [done|]. assert (Hp : e_addr evt :: blocks a (d <| buf_cache := rest |> <| cache_count ::= Z.pred |>) ≡ₚ blocks a d).
      { unfold blocks. cbn [bufs buf_cache set_with fmap list_fmap]. rewrite E. cbn. rewrite <- Permutation_middle. apply perm_swap. }
      split_and!; cbn; try done; [|lia|lia|by inversion Hl2|by rewrite Hp|].
      * assert (e_addr evt ∈ live w) as Hin; [|apply (mem_live _ Hm) in Hin; lia]. rewrite Forall_forall in Hlv. apply Hlv. unfold blocks. rewrite E. set_solver.
      * by rewrite Hp.
    + rewrite Em. exists b, d, w'. rewrite E in *. destruct Hnew. split_and!; try done.
Qed.

(** Writing to a device keeps its other data and the other devices. *)
Lemma notify_ok w a p : mem_ok w -> mem_ok (vfs_poll_notify a (set_revents p w)) /\ devs (vfs_poll_notify a (set_revents p w)) = devs w /\ live (vfs_poll_notify a (set_revents p w)) = live w.
Proof. intros [Hn Hl Ha Hb]. split; [by split|done]. Qed.

Lemma write_ok w a d q buf urgent i x : mem_ok w -> dev_ok w a d q -> f_arg x = a ->
  exists w' d', _event_write buf urgent i x w = (Z.of_nat (length buf), x, w') /\ mem_ok w' /\ dev_ok w' a d' (if urgent then buf :: q else q ++ [buf]).
Proof.
  intros Hm Hd Hx. destruct (block_ok w a d q (Z.of_nat (length buf)) Hm Hd) as (b & d1 & w1 & Eb & Hb & Hm1 & Hdv & Hbufs & Hcnt & Hcc & Hle & Hl2 & Hnd & Hlv).
  destruct Hd as [Hh Hq Hc _ Hl _]. apply Forall_app in Hl as [Hl1 _]. unfold _event_write. rewrite Hx, Hh, Eb. destruct (Z.eqb_spec b 0); [done|].
  set (evt := {| e_addr := b; e_len := Z.of_nat (length buf); e_buf := buf |}). set (d2 := d1 <| counter ::= Z.succ |> <| bufs ::= fun l => if urgent then evt :: l else l ++ [evt] |>).
  set (w2 := w1 <| devs ::= <[a := d2]> |>). assert (Hm2 : mem_ok w2) by (destruct Hm1; by split).
  assert (Hp : blocks a d2 ≡ₚ b :: blocks a d1).
  { unfold blocks, d2. cbn [bufs buf_cache set_with]. destruct urgent; cbn; [apply perm_swap|]. rewrite fmap_app. cbn. rewrite <- app_assoc. cbn. rewrite <- Permutation_middle. apply perm_swap. }
  assert (Hok : forall w', devs w' = devs w2 -> live w' = live w2 -> dev_ok w' a d2 (if urgent then buf :: q else q ++ [buf])).
  { intros w' Hd' Hl'. split.
    - rewrite Hd'. apply lookup_insert_eq.
    - unfold d2. cbn [bufs set_with]. rewrite Hbufs. destruct urgent; cbn; [by rewrite Hq|by rewrite fmap_app, Hq].
    - unfold d2. cbn [bufs counter set_with]. rewrite Hcnt, Hc, Hbufs. destruct urgent; cbn [length]; [lia|rewrite length_app; cbn; lia].
    - done.
    - unfold d2. cbn [bufs buf_cache set_with]. rewrite Hbufs. apply Forall_app. split; [|done]. destruct urgent; [by constructor|apply Forall_app; by split; [|constructor]].
    - rewrite Hp, Hl'. by split. }
  change (poll_cb d2) with (poll_cb d1). change (poll_data d2) with (poll_data d1). change (poll_fd d2) with (poll_fd d1). destruct (poll_cb d1).
  - destruct (notify_ok w2 (poll_data d1) (poll_fd d1) Hm2) as (Hm3 & Hd3 & Hl3). eexists _, d2. split; [done|]. split; [done|]. by apply Hok.
  - eexists _, d2. split; [done|]. split; [done|]. by apply Hok.
Qed.

Lemma read_empty w a d i x len : dev_ok w a d [] -> f_arg x = a -> event_read len i x w = ((0, []), x, w).
Proof. intros [Hh Hq Hc _ _ _] Hx. unfold event_read. rewrite Hx, Hh, Hc. by destruct (bufs d). Qed.

Lemma read_ok w a d m q i x len : mem_ok w -> dev_ok w a d (m :: q) -> f_arg x = a -> 0 <= len ->
  exists w' d', event_read len i x w = ((Z.min (Z.of_nat (length m)) len, take (Z.to_nat (Z.min (Z.of_nat (length m)) len)) m), x, w') /\ mem_ok w' /\ dev_ok w' a d' q.
Proof.
  intros Hm [Hh Hq Hc [Hcc Hle] Hl [Hnd Hlv]] Hx Hlen. unfold event_read. rewrite Hx, Hh, Hc. destruct (bufs d) as [|evt rest] eqn:E; [done|]. cbn in Hq. injection Hq as Hm1 Hq.
  cbn [length]. destruct (Z.eqb_spec (Z.of_nat (S (length rest))) 0); [lia|]. cbn [app] in Hl. apply Forall_cons in Hl as [He Hl]. apply Forall_app in Hl as [Hl1 Hl2].
  assert ((if e_len evt <? len then e_len evt else len) = Z.min (Z.of_nat (length m)) len) as -> by (rewrite He, Hm1; destruct (Z.ltb_spec (Z.of_nat (length m)) len); lia).
  rewrite Hm1. change (cache_count (d <| bufs := rest |>)) with (cache_count d). destruct (Z.ltb_spec (cache_count d) 4) as [Hlt|Hge].
  - eexists _, _. split; [done|]. split; [destruct Hm; by split|]. split; [apply lookup_insert_eq|done|rsimpl; rewrite Hc; cbn [length]; lia| |apply Forall_app; split; [done|by constructor]|].
    + rsimpl. rewrite Hcc in *. cbn [length]. split; lia.
    + assert (Hp : blocks a (d <| bufs := rest |> <| buf_cache ::= cons evt |> <| cache_count ::= Z.succ |> <| counter ::= Z.pred |>) ≡ₚ blocks a d).
      { unfold blocks. cbn [bufs buf_cache set_with]. rewrite E. cbn. by rewrite <- Permutation_middle. }
      rewrite Hp. by split.
  - assert (Hin : e_addr evt ∈ live w) by (rewrite Forall_forall in Hlv; apply Hlv; unfold blocks; rewrite E; set_solver).
    destruct (free_ok w (e_addr evt) Hm Hin) as (Hmf & Hlf & Hdf). eexists _, _. split; [done|]. split; [destruct Hmf; by split|].
    unfold blocks in Hnd, Hlv. rewrite E in Hnd, Hlv. cbn in Hnd, Hlv.
    split; [apply lookup_insert_eq|done|rsimpl; rewrite Hc; cbn [length]; lia|done|by apply Forall_app|]. unfold blocks. cbn [bufs buf_cache set_with]. rewrite Hlf.
    apply NoDup_cons in Hnd as [Hna [Hne Hnd]%NoDup_cons]. apply Forall_cons in Hlv as [Hla [_ Hlv]%Forall_cons]. split; [constructor; [set_solver|done]|].
    rewrite !Forall_forall in *. intros y [->|Hy]%elem_of_cons; [set_solver|]. specialize (Hlv y Hy). set_solver.
Qed.
End Device.

(** * Events are delivered in order

    The event device below the file system and [local_event.c] above it: what is posted is
    delivered once, in order, urgent events first. *)

(** ** An open event device *)
Section Deliver.
Context `{Aos evw} (fops : Z -> file_ops evw) (fsops : Z -> fs_ops evw).
Implicit Types (s : lev) (v : vfs_t evw) (fd a : Z) (q : list input_event_t) (e : input_event_t).

Record event_file v fd a (f n : nat) (x : file_t) (i : inode_t) : Prop := {
  ef_fd : fd = get_fd f;
  ef_max : (f < MAX_FILE_NUM)%nat;
  ef_file : files v !! f = Some x;
  ef_node : node x = Some n;
  ef_arg : f_arg x = a;
  ef_inode : g_vfs_dev_nodes v !! n = Some i;
  ef_char : type i = VFS_TYPE_CHAR_DEV;
  ef_ops : exists p, ops i = i_ops p /\ fops p = event_fops;
}.

(** The queue behind a descriptor. *)
Definition event_queue s fd q : Prop :=
  exists a f n x i d, event_file (sys s) fd a f n x i /\ mem_ok (world (sys s)) /\ dev_ok (world (sys s)) a d (event_bytes <$> q).

Lemma alter_same {A} (g : A -> A) k (l : list A) x : l !! k = Some x -> g x = x -> alter g k l = l.
Proof. intros Hx Hg. rewrite (alter_insert g k l x Hx), Hg. by apply list_insert_id. Qed.

(** A call on the descriptor runs the function of the device and changes only its state. *)
Lemma event_call {A} v fd a f n x i (none : ub (vfs_t evw) A) def dfs dc dd r w :
  event_file v fd a f n x i -> dc event_fops = Some dd -> dd i x (world v) = (r, x, w) ->
  with_file fd none (node_call fops fsops def dfs dc) v = Some (r, v <| world := w |>).
Proof.
  intros [-> Hmax Hf Hn Ha Hi Ht (p & Hp & Hev)] Hdc Hdd. unfold with_file, get_file, get_fd. rewrite Z.add_simpl_r.
  destruct (Z.ltb_spec (Z.of_nat f) 0), (Z.leb_spec (Z.of_nat MAX_FILE_NUM) (Z.of_nat f)); try lia. cbn [orb]. rewrite Nat2Z.id.
  unfold file_at, mbind, ub_bind, get, mret, ub_ret. rewrite Hf. cbn. rewrite Hn. cbn. rewrite Hf. cbn. rewrite Hn. cbn.
  unfold node_call, node_at, mbind, ub_bind, get, mret, ub_ret. rewrite Hi. cbn. unfold INODE_IS_FS, INODE_IS_TYPE. rewrite bool_decide_false by congruence.
  unfold iops_of. rewrite Hp, Hev. cbn. unfold call_or. rewrite Hdc. unfold call_drv, node_at, file_at, mbind, ub_bind, get, mret, ub_ret. rewrite Hi, Hf. cbn. unfold run_drv. rewrite Hdd.
  do 2 f_equal. destruct v as [g1 g2 g3 fl g5 g6]. cbn in *. f_equal. apply (alter_same _ _ _ x); [done|]. by destruct x.
Qed.

Lemma event_file_world v fd a f n x i w : event_file v fd a f n x i -> event_file (v <| world := w |>) fd a f n x i.
Proof. by intros []. Qed.

(** ** Posting and reading *)
Definition is_urgent e : bool := negb (Z.land (e_type e) EV_FLAG_URGENT =? 0).
Definition posted e : input_event_t :=
  {| time := time e; e_type := Z.land (e_type e) (wrap16 (Z.lnot EV_FLAG_URGENT)); code := code e; value := value e; extra := extra e |}.
Definition enqueue e q : list input_event_t := if is_urgent e then posted e :: q else q ++ [posted e].

(** What the filters see of an event. *)
Definition dispatch (l : list event_list_node_t) e : list called :=
  if e_type e =? EV_RPC then [call_function (value e) (extra e)]
  else (fun n => call_filter (cb n) (priv n) e) <$> filter (fun n => wants e n = true) l.

Lemma posted_ok e : event_ok e -> event_ok (posted e).
Proof.
  intros (H1 & H2 & H3 & H4 & H5). split; [done|]. split; [|done]. cbn [posted e_type]. change (wrap16 (Z.lnot EV_FLAG_URGENT)) with (Z.ones 15).
  rewrite Z.land_ones by lia. pose proof (Z.mod_pos_bound (e_type e) (2 ^ 15)). lia.
Qed.

Lemma ioctl_cmd c i x w buf : length buf = 16%nat -> c = IOCTL_WRITE_NORMAL \/ c = IOCTL_WRITE_URGENT ->
  event_ioctl (MK_CMD c sizeof_event) (0, buf) i x w = _event_write buf (bool_decide (c = IOCTL_WRITE_URGENT)) i x w.
Proof. intros Hl Hc. unfold event_ioctl. destruct Hc as [->| ->]; cbn [snd]; [change (Z.to_nat _) with 16%nat|change (Z.to_nat _) with 16%nat]; rewrite take_ge by lia; reflexivity. Qed.

Lemma add_event s fd q e : event_queue s fd q ->
  exists v, input_add_event fops fsops fd e s = Some (sizeof_event, s <| sys := v |>) /\ event_queue (s <| sys := v |>) fd (enqueue e q).
Proof.
  intros (a & f & n & x & i & d & Hf & Hm & Hd).
  destruct (write_ok (world (sys s)) a d (event_bytes <$> q) (event_bytes (posted e)) (is_urgent e) i x Hm Hd (ef_arg _ _ _ _ _ _ _ Hf)) as (w' & d' & E & Hm' & Hd').
  unfold input_add_event. fold (posted e). fold (is_urgent e).
  assert (Ei : event_ioctl (if is_urgent e then MK_CMD IOCTL_WRITE_URGENT sizeof_event else MK_CMD IOCTL_WRITE_NORMAL sizeof_event) (0, event_bytes (posted e)) i x (world (sys s)) = (sizeof_event, x, w')).
  { rewrite event_bytes_length in E. change (Z.of_nat 16) with sizeof_event in E. rewrite <- E.
    destruct (is_urgent e); rewrite ioctl_cmd by (by rewrite ?event_bytes_length; auto); done. }
  exists ((sys s) <| world := w' |>). split.
  - unfold on_sys, aos_ioctl. assert ((fd <? 0) = false) as -> by (rewrite (ef_fd _ _ _ _ _ _ _ Hf); unfold get_fd, AOS_CONFIG_VFS_FD_OFFSET; apply Z.ltb_ge; lia).
    by rewrite (event_call (sys s) fd a f n x i _ _ _ _ _ _ _ Hf eq_refl Ei).
  - exists a, f, n, x, i, d'. split; [by apply event_file_world|]. split; [done|]. unfold enqueue. destruct (is_urgent e); [done|]. by rewrite fmap_app.
Qed.

Lemma read_event s fd e q : event_ok e -> event_queue s fd (e :: q) ->
  exists v, event_read_cb fops fsops fd s = Some (tt, s <| sys := v |> <| calls ::= fun l => l ++ dispatch (g_local_event_list s) e |>) /\ event_queue (s <| sys := v |>) fd q.
Proof.
  intros He (a & f & n & x & i & d & Hf & Hm & Hd).
  destruct (read_ok (world (sys s)) a d (event_bytes e) (fmap (M := list) event_bytes q) i x sizeof_event Hm Hd (ef_arg _ _ _ _ _ _ _ Hf)) as (w' & d' & E & Hm' & Hd'); [done|].
  rewrite event_bytes_length in E. change (Z.min (Z.of_nat 16) sizeof_event) with 16 in E. rewrite take_ge in E by (by rewrite event_bytes_length).
  exists ((sys s) <| world := w' |>). split.
  - unfold event_read_cb, aos_read, mbind, ub_bind, on_sys. rewrite (event_call (sys s) fd a f n x i _ _ _ _ _ _ _ Hf eq_refl E). cbn [fst snd].
    change (16 =? sizeof_event) with true. cbn [snd]. rewrite event_roundtrip by done. unfold handle_events, dispatch. by destruct (e_type e =? EV_RPC).
  - exists a, f, n, x, i, d'. split; [by apply event_file_world|]. done.
Qed.

Lemma read_no_event s fd : event_queue s fd [] -> exists v, event_read_cb fops fsops fd s = Some (tt, s <| sys := v |>) /\ event_queue (s <| sys := v |>) fd [].
Proof.
  intros (a & f & n & x & i & d & Hf & Hm & Hd). pose proof (read_empty _ _ _ i x sizeof_event Hd (ef_arg _ _ _ _ _ _ _ Hf)) as E. exists ((sys s) <| world := world (sys s) |>). split.
  - unfold event_read_cb, aos_read, mbind, ub_bind, on_sys. by rewrite (event_call (sys s) fd a f n x i _ _ _ _ _ _ _ Hf eq_refl E).
  - exists a, f, n, x, i, d. split; [by apply event_file_world|]. done.
Qed.

(** ** Runs: events and calls are posted, the loop reads *)
Inductive ev_op :=
  | o_post (type_ code_ value_ : Z)
  | o_call (fun_ arg : Z) (urgent : bool)
  | o_read.

Definition op_event (o : ev_op) : option input_event_t :=
  match o with
  | o_post t c v => Some {| time := 0; e_type := t; code := c; value := v; extra := 0 |}
  | o_call f x u => Some {| time := 0; e_type := if u then Z.lor EV_RPC EV_FLAG_URGENT else EV_RPC; code := 0; value := f; extra := x |}
  | o_read => None
  end.

(** The arguments have the widths of their types, and functions are not null. *)
Definition op_ok (o : ev_op) : Prop :=
  match o with
  | o_post t c v => 0 <= t < 2 ^ 16 /\ 0 <= c < 2 ^ 16 /\ u32 v
  | o_call f x _ => f <> 0 /\ u32 f /\ u32 x
  | o_read => True
  end.

(** The loop of the task that owns the descriptor, without a loop context of its own. *)
Definition ev_step (o : ev_op) : ub lev unit :=
  match o with
  | o_post t c v => _ ← aos_post_event fops fsops t c v; mret tt
  | o_call f x u => _ ← _schedule_call fops fsops (-1) f x u; mret tt
  | o_read => s ← get; event_read_cb fops fsops (local_event_fd s)
  end.
Fixpoint ev_run (os : list ev_op) : ub lev unit := match os with [] => mret tt | o :: os => _ ← ev_step o; ev_run os end.

(** The abstract device: a list of events and the calls that were made. *)
Definition spec_step (l : list event_list_node_t) (st : list input_event_t * list called) (o : ev_op) : list input_event_t * list called :=
  match op_event o, st with
  | Some e, (q, out) => (enqueue e q, out)
  | None, (e :: q, out) => (q, out ++ dispatch l e)
  | None, ([], out) => ([], out)
  end.

Lemma op_event_ok o e : op_ok o -> op_event o = Some e -> event_ok e.
Proof. unfold event_ok, u32. destruct o as [t c v|f x u|]; cbn; intros Ho [= <-]; cbn; [unfold u32 in Ho; lia|]. unfold u32 in Ho. destruct u; [change (Z.lor EV_RPC EV_FLAG_URGENT) with 33024|change EV_RPC with 256]; lia. Qed.

Lemma enqueue_ok e q : event_ok e -> Forall event_ok q -> Forall event_ok (enqueue e q).
Proof. intros He Hq. unfold enqueue. destruct (is_urgent e); [constructor|apply Forall_app; split; [|constructor]]; auto using posted_ok. Qed.

Lemma ev_step_ok o s q : op_ok o -> Forall event_ok q -> event_queue s (local_event_fd s) q ->
  exists s', ev_step o s = Some (tt, s') /\ local_event_fd s' = local_event_fd s /\ g_local_event_list s' = g_local_event_list s /\
    let '(q', out) := spec_step (g_local_event_list s) (q, calls s) o in calls s' = out /\ event_queue s' (local_event_fd s) q' /\ Forall event_ok q'.
Proof.
  intros Ho Hq Hs. destruct (op_event o) as [e|] eqn:Ee.
  - pose proof (op_event_ok o e Ho Ee) as He. destruct (add_event s (local_event_fd s) q e Hs) as (v & E & Hs'). exists (s <| sys := v |>). unfold spec_step. rewrite Ee.
    split; [|split_and!; [done|done|done|done|by apply enqueue_ok]]. destruct o as [t c v'|f x u|]; cbn in Ee; simplify_eq; cbn [ev_step].
    + unfold aos_post_event, mbind, ub_bind, get. by rewrite E.
    + unfold _schedule_call. destruct Ho as [Hf _]. destruct (Z.eqb_spec f 0); [done|]. unfold mbind, ub_bind, get. cbn [Z.ltb Z.compare]. by rewrite E.
  - destruct o; try done. unfold spec_step. rewrite Ee. cbn [ev_step]. destruct q as [|e q].
    + destruct (read_no_event s _ Hs) as (v & E & Hs'). exists (s <| sys := v |>). split; [unfold mbind, ub_bind, get; by rewrite E|]. by split_and!.
    + apply Forall_cons in Hq as [He Hq]. destruct (read_event s _ e q He Hs) as (v & E & Hs'). eexists. split; [unfold mbind, ub_bind, get; by rewrite E|]. by split_and!.
Qed.

Lemma ev_run_ok os s q : Forall op_ok os -> Forall event_ok q -> event_queue s (local_event_fd s) q ->
  exists s', ev_run os s = Some (tt, s') /\
    let '(q', out) := fold_left (spec_step (g_local_event_list s)) os (q, calls s) in calls s' = out /\ event_queue s' (local_event_fd s) q'.
Proof.
  revert s q. induction os as [|o os IH]; intros s q Hos Hq Hs; [by exists s|]. apply Forall_cons in Hos as [Ho Hos].
  destruct (ev_step_ok o s q Ho Hq Hs) as (s1 & E1 & Hfd & Hl & Hspec). cbn [ev_run fold_left]. destruct (spec_step _ (q, calls s) o) as [q1 out1] eqn:Esp.
  destruct Hspec as (Hc & Hs1 & Hq1). rewrite <- Hfd in Hs1. destruct (IH s1 q1 Hos Hq1 Hs1) as (s' & E & Hr). exists s'. split; [unfold mbind, ub_bind; by rewrite E1|].
  by rewrite Hl, Hc, Hfd in Hr.
Qed.
End Deliver.

(** C33: Events that are posted and calls that are scheduled reach the filters and functions
    once each and in order, urgent ones before what is waiting: with memory for the messages,
    every sequence of posting and reading is defined, through the file system and the device,
    and makes exactly the calls of a list from whose front the loop takes events and to whose
    end, or front if urgent, they are added; an event goes to all filters for its type. *)
Theorem events_in_order `{Aos evw} fops fsops (os : list ev_op) (s : lev) (q : list input_event_t) :
  Forall op_ok os -> Forall event_ok q -> event_queue fops s (local_event_fd s) q ->
  exists s', ev_run fops fsops os s = Some (tt, s') /\
    let '(q', out) := fold_left (spec_step (g_local_event_list s)) os (q, calls s) in calls s' = out /\ event_queue fops s' (local_event_fd s) q'.
Proof. apply ev_run_ok. Qed.

(** ** No wake-up is lost

    A device that is polled has told the task when it has messages. *)
Definition told (w : evw) (a : Z) : Prop := forall d, devs w !! a = Some d -> poll_cb d = true -> 0 < counter d ->
  Z.testbit (default 0 (revents w !! poll_fd d)) 0 = true /\ 0 < default 0 (sems w !! poll_data d).

Lemma notify_told w a d : (forall p, 0 <= default 0 (sems w !! p)) -> devs w !! a = Some d -> told (vfs_poll_notify (poll_data d) (set_revents (poll_fd d) w)) a.
Proof.
  intros Hs Hd d' Hd' _ _. cbn in Hd'. assert (d' = d) as -> by congruence. unfold vfs_poll_notify, set_revents. rsimpl. rewrite !lookup_partial_alter_eq. split; [cbn [from_option]; unfold id; rewrite Z.lor_spec; change (Z.testbit POLLIN 0) with true; by rewrite orb_true_r|]. specialize (Hs (poll_data d)). cbn. lia.
Qed.

Lemma poll_tells w a i x fd opa : devs w !! a <> None -> f_arg x = a -> (forall p, 0 <= default 0 (sems w !! p)) -> (forall d, devs w !! a = Some d -> 0 <= counter d) ->
  told (event_poll true fd opa i x w).2 a.
Proof.
  intros Hd Hx Hs Hc. unfold event_poll. rewrite Hx. destruct (devs w !! a) as [d|] eqn:E; [|done]. cbn [negb]. set (d1 := d <| poll_cb := true |> <| poll_fd := fd |> <| poll_data := opa |>).
  destruct (Z.eqb_spec (counter d) 0) as [Hz|Hz].
  - intros d' Hd' _ Hpos. cbn [snd] in Hd'. rsimpl_in Hd'. rewrite lookup_insert_eq in Hd'. injection Hd' as <-. cbn in Hpos. lia.
  - cbn [snd]. change opa with (poll_data d1). change fd with (poll_fd d1). apply notify_told; [done|]. apply lookup_insert_eq.
Qed.

Lemma write_tells w a i x buf urgent : f_arg x = a -> (forall p, 0 <= default 0 (sems w !! p)) -> told w a -> told (_event_write buf urgent i x w).2 a.
Proof.
  intros Hx Hs Ht. unfold _event_write. rewrite Hx. destruct (devs w !! a) as [d|] eqn:E; [|done].
  destruct (event_block _ d w) as [[b d1] w1] eqn:Eb.
  assert (Hw1 : revents w1 = revents w /\ sems w1 = sems w /\ devs w1 = devs w /\ poll_cb d1 = poll_cb d /\ poll_fd d1 = poll_fd d /\ poll_data d1 = poll_data d /\ counter d1 = counter d).
  { revert Eb. unfold event_block, ev_malloc. repeat case_match; intros; simplify_eq; done. }
  destruct Hw1 as (Hr & Hsm & Hdv & Hpc & Hpf & Hpd & Hcn). destruct (b =? 0).
  - intros d' Hd' Hp Hpos. cbn in Hd'. rewrite lookup_insert_eq in Hd'. injection Hd' as <-. cbn. rewrite Hr, Hsm, Hpf, Hpd. rewrite Hpc in Hp. rewrite Hcn in Hpos. by apply (Ht d).
  - set (d2 := d1 <| counter ::= Z.succ |> <| bufs ::= _ |>). change (poll_cb d2) with (poll_cb d1). destruct (poll_cb d1) eqn:Ep.
    + cbn [snd]. apply notify_told; [rsimpl; by rewrite Hsm|]. apply lookup_insert_eq.
    + intros d' Hd' Hp _. cbn in Hd'. rewrite lookup_insert_eq in Hd'. injection Hd' as <-. by rewrite Ep in Hp.
Qed.

(** ** Executions *)
Module EvCases.
#[export] Instance ev_aos : Aos evw := {
  aos_mutex_new w := let '(a, w) := ev_malloc w in (if a =? 0 then - ENOMEM else 0, a, w);
  aos_mutex_lock _ w := (0, w);
  aos_mutex_unlock _ w := (0, w);
  aos_malloc_ok _ w := let '(a, w) := ev_malloc w in (negb (a =? 0), w);
  trap_open _ _ w := (- ENOSYS, w);
  trap_close _ w := (- ENOSYS, w);
  trap_read _ _ w := (- ENOSYS, [], w);
  trap_write _ _ w := (- ENOSYS, w);
  trap_fcntl _ _ _ w := (- ENOSYS, w);
}.
Definition fops (p : Z) : file_ops evw := event_fops.
Definition fsops (p : Z) : fs_ops evw :=
  {| fs_open := None; fs_close := None; fs_read := None; fs_write := None; fs_lseek := None; fs_sync := None; fs_stat := None; fs_unlink := None;
     fs_rename := None; fs_opendir := None; fs_readdir := None; fs_closedir := None; fs_mkdir := None; fs_ioctl := None |}.

Definition memory (ms : list bool) : evw := {| devs := ∅; live := ∅; next_block := 1; mallocs := ms; revents := ∅; sems := ∅; bad := false |}.
(** [vfs_init], [vfs_device_init], and the descriptor of the event service. *)
Definition start (ms : list bool) : lev :=
  match (_ ← vfs_init; _ ← vfs_device_init 0 0; aos_open fops fsops (Some "/dev/event"%string) 0) (vfs_zero (memory ms)) with
  | Some (fd, v) => {| sys := v; local_event_fd := fd; g_local_event_list := [{| n_addr := 100; cb := 11; priv := 1; type_filter := 7 |}; {| n_addr := 101; cb := 12; priv := 2; type_filter := EV_ALL |}]; calls := [] |}
  | None => {| sys := vfs_zero (memory ms); local_event_fd := -1; g_local_event_list := []; calls := [] |}
  end.

Definition ev (t v : Z) : input_event_t := {| time := 0; e_type := t; code := 0; value := v; extra := 0 |}.

(** An event for both filters, one for the second, and an urgent call that overtakes them. *)
Example urgent_first :
  calls <$> (snd <$> ev_run fops fsops [o_post 7 0 1; o_post 8 0 2; o_call 500 9 true; o_read; o_read; o_read; o_read] (start [])) =
  Some [call_function 500 9; call_filter 11 1 (ev 7 1); call_filter 12 2 (ev 7 1); call_filter 12 2 (ev 8 2)].
Proof. vm_compute. reflexivity. Qed.

(** Posting an event returns the size of the event, not 0. *)
Example post_returns_size : fst <$> aos_post_event fops fsops 7 0 1 (start []) = Some 16.
Proof. vm_compute. reflexivity. Qed.

(** [event_open] uses its memory without looking whether there is any: the fourth
    allocation is that of the device. *)
Example open_without_memory : bad (world (sys (start [true; true; true; false]))) = true.
Proof. vm_compute. reflexivity. Qed.

Lemma start_mem : mem_ok (world (sys (start []))).
Proof.
  split; [by vm_compute| |reflexivity|by vm_compute].
  change (set_Forall (fun a => 0 < a < next_block (world (sys (start [])))) (live (world (sys (start []))))).
  apply (bool_decide_unpack _). by vm_compute.
Qed.

Definition no_events : event_dev_t := default event_dev_zero (devs (world (sys (start []))) !! 4).

Lemma start_dev : dev_ok (world (sys (start []))) 4 no_events [].
Proof. split; [by vm_compute|by vm_compute|by vm_compute| | |]; apply (bool_decide_unpack _); by vm_compute. Qed.

Lemma start_queue : event_queue fops (start []) (local_event_fd (start [])) [].
Proof.
  eexists 4, O, O, _, _, no_events. split; [|split; [exact start_mem|exact start_dev]]. split; try reflexivity.
  - vm_compute. lia.
  - by exists 0.
Qed.

Lemma events_in_order_witness : exists s', ev_run fops fsops [o_post 7 0 1; o_read] (start []) = Some (tt, s') /\
  calls s' = [call_filter 11 1 (ev 7 1); call_filter 12 2 (ev 7 1)] /\ event_queue fops s' (local_event_fd (start [])) [].
Proof.
  apply (events_in_order fops fsops [o_post 7 0 1; o_read] (start []) []); [|constructor|exact start_queue].
  repeat constructor; unfold u32; lia.
Defined.
End EvCases.
