(* ===== verification/Yloop.v ===== *)
(** * The event loop ([yloop.c])

    A task that has a loop waits in [aos_poll] for the descriptors of its readers until the
    first of its delayed actions is due, runs that action, and calls the readers whose
    descriptors are ready.  Delayed actions are kept in the order of their times; readers in an
    array that is replaced when one is added.

    A call is a function on the state [yl] that returns nothing when the code has undefined
    behaviour: a context that does not exist, or an array element that does not exist or was
    not written.  Callbacks are programs ([prog]) that call the loop and change the rest of
    the system [W]; the clock, memory, polling and the event device are the interface
    [LoopOs].  [history] is not in the code: it records what the loop does. *)
From S2P Require Import Prelude KTypes Vfs EvDev.
Local Open Scope Z_scope.

Record yloop_sock_t := { sock : Z; r_data : Z; r_cb : Z }.
Record yloop_timeout_t := { timeout_ms : Z; t_data : Z; t_cb : Z; t_ms : Z }.
(** An entry of the poll array, after [aos_poll]. *)
Record pollfd_t := { pfd_fd : Z; pfd_revents : Z }.

Inductive hist :=
  | h_post (t : yloop_timeout_t)
  | h_cancel (ms cb data : Z)
  | h_add (r : yloop_sock_t)
  | h_del (fd : Z)
  | h_poll (now delay : Z) (fds : list Z) (res : Z) (intr : bool) (revents : list Z)
  | h_run (t : yloop_timeout_t) (now : Z)
  | h_early (now : Z)      (** the first action is not due *)
  | h_none                 (** there is no action *)
  | h_read (r : yloop_sock_t).

(** An element of [pollfds] may not have been written; [readers] may be null. *)
Record yloop_ctx_t := {
  timeouts : list yloop_timeout_t;
  pollfds : list (option pollfd_t);
  readers : option (list yloop_sock_t);
  eventfd : Z;
  max_sock : Z;
  reader_count : Z;
  terminate : bool;
  history : list hist;
}.
#[export] Instance eta_ctx : Eta yloop_ctx_t := {| eta_expand := fun x => {|
  timeouts := timeouts x; pollfds := pollfds x; readers := readers x; eventfd := eventfd x; max_sock := max_sock x; reader_count := reader_count x; terminate := terminate x; history := history x |} |}.
Definition ctx_zero : yloop_ctx_t := {| timeouts := []; pollfds := []; readers := None; eventfd := 0; max_sock := 0; reader_count := 0; terminate := false; history := [] |}.

(** What the loop uses of the system. *)
Class LoopOs (W : Type) := {
  aos_now_ms : W -> Z * W;
  aos_malloc : W -> Z * W;                                         (** 0 if there is no memory *)
  set_nonblock : Z -> W -> W;                                      (** the two calls of [aos_fcntl] *)
  aos_poll : list Z -> Z -> W -> (Z * bool * list Z) * W;          (** status, whether [errno] is [EINTR], [revents] *)
  open_event : W -> Z * W;                                         (** [aos_open] of the event device *)
  close_event : Z -> W -> W;
  task_key_create : W -> bool * W;                                 (** is there another key? *)
}.

(** [loop_key] is the context each task has stored. *)
Record yl (W : Type) := { g_main_ctx : Z; g_loop_key : gmap Z Z; ctxs : gmap Z yloop_ctx_t; local_fd : Z; rest : W }.
Arguments g_main_ctx {W}. Arguments g_loop_key {W}. Arguments ctxs {W}. Arguments local_fd {W}. Arguments rest {W}.
#[export] Instance eta_yl {W} : Eta (yl W) := {| eta_expand := fun s => {|
  g_main_ctx := g_main_ctx s; g_loop_key := g_loop_key s; ctxs := ctxs s; local_fd := local_fd s; rest := rest s |} |}.

(** ** Callbacks *)
Inductive ycall :=
  | y_post (ms cb data : Z)
  | y_cancel (ms cb data : Z)
  | y_add (fd cb data : Z)
  | y_del (fd cb data : Z)
  | y_exit.
Inductive prog (W : Type) :=
  | p_end
  | p_call (c : ycall) (k : Z -> prog W)
  | p_rest (f : W -> W) (k : W -> prog W).
Arguments p_end {W}. Arguments p_call {W}. Arguments p_rest {W}.

Section Loop.
Context {W : Type} `{LoopOs W} (self : Z).
Context (action : Z -> Z -> prog W) (reader : Z -> Z -> Z -> prog W) (event_read_cb : Z).
Abbreviation M := (ub (yl W)).
Implicit Types (c fd cb data ms : Z).

Definition on_rest {A} (g : W -> A * W) : M A := fun s => let '(x, w) := g (rest s) in Some (x, s <| rest := w |>).
Definition ctx_at c : M yloop_ctx_t := s ← get; match ctxs s !! c with Some x => mret x | None => undefined end.
Definition set_ctx c (g : yloop_ctx_t -> yloop_ctx_t) : M unit := _ ← ctx_at c; modify (fun s => s <| ctxs ::= alter g c |>).
Definition note c (h : hist) : M unit := set_ctx c (fun x => x <| history ::= fun l => l ++ [h] |>).

Definition _set_context c : M unit := modify (fun s => s <| g_loop_key ::= <[self := c]> |>).
Definition _get_context : M Z := s ← get; mret (default 0 (g_loop_key s !! self)).
Definition get_context : M Z :=
  c ← _get_context;
  if c =? 0 then s ← get; _ ← _set_context (g_main_ctx s); mret (g_main_ctx s) else mret c.

Definition aos_loop_set_eventfd fd : M unit := c ← get_context; set_ctx c (fun x => x <| eventfd := fd |>).
Definition aos_loop_get_eventfd (loop : Z) : M Z := c ← (if loop =? 0 then get_context else mret loop); x ← ctx_at c; mret (eventfd x).
Definition aos_current_loop : M Z := get_context.

(** ** Readers *)
Definition aos_poll_read_fd fd cb data : M Z :=
  c ← get_context;
  if fd <? 0 then mret (- EINVAL)
  else
    x ← ctx_at c;
    let n := Z.to_nat (reader_count x) in
    new_sock ← on_rest aos_malloc;
    new_pollfds ← on_rest aos_malloc;
    if (new_sock =? 0) || (new_pollfds =? 0) then mret (- ENOMEM)
    else
      _ ← on_rest (fun w => (tt, set_nonblock fd w));
      let old := default [] (readers x) in
      if bool_decide (length old < n \/ length (pollfds x) < n)%nat then undefined
      else
        let r := {| sock := fd; r_data := data; r_cb := cb |} in
        _ ← set_ctx c (fun x => x <| reader_count ::= fun k => wrap8 (k + 1) |> <| readers := Some (take n old ++ [r]) |> <| pollfds := take n (pollfds x) ++ [None] |>
                                <| max_sock ::= fun m => if m <? fd then wrap8 fd else m |>);
        _ ← note c (h_add r);
        mret 0.

(** Only the descriptor is compared; the last element stays where it was. *)
Definition aos_cancel_poll_read_fd fd cb data : M unit :=
  c ← get_context;
  x ← ctx_at c;
  match readers x with
  | None => mret tt
  | Some l =>
      let n := Z.to_nat (reader_count x) in
      if reader_count x =? 0 then mret tt
      else if bool_decide (length l < n)%nat then undefined
      else
        match find_index (fun r => sock r =? fd) (take n l) with
        | None => mret tt
        | Some i =>
            _ ← set_ctx c (fun x => x <| reader_count ::= fun k => k - 1 |> <| readers := Some (take i l ++ take (n - i - 1) (drop (S i) l) ++ drop (n - 1) l) |>);
            note c (h_del fd)
        end
  end.

(** ** Delayed actions *)
Fixpoint timeout_insert (t : yloop_timeout_t) (l : list yloop_timeout_t) : list yloop_timeout_t :=
  match l with
  | [] => [t]
  | tmp :: l' => if timeout_ms t <? timeout_ms tmp then t :: l else tmp :: timeout_insert t l'
  end.

Definition aos_post_delayed_action ms cb data : M Z :=
  if cb =? 0 then mret (- EINVAL)
  else
    c ← get_context;
    timeout ← on_rest aos_malloc;
    if timeout =? 0 then mret (- ENOMEM)
    else
      now ← on_rest aos_now_ms;
      let t := {| timeout_ms := now + ms; t_data := data; t_cb := cb; t_ms := ms |} in
      _ ← set_ctx c (fun x => x <| timeouts ::= timeout_insert t |>);
      _ ← note c (h_post t);
      mret 0.

Definition is_action ms cb data (t : yloop_timeout_t) : bool := ((ms =? -1) || (t_ms t =? ms)) && (t_cb t =? cb) && (t_data t =? data).

Definition aos_cancel_delayed_action ms cb data : M unit :=
  c ← get_context;
  x ← ctx_at c;
  _ ← match find_index (is_action ms cb data) (timeouts x) with Some k => set_ctx c (fun x => x <| timeouts ::= delete k |>) | None => mret tt end;
  note c (h_cancel ms cb data).

Definition aos_loop_exit : M unit := c ← get_context; set_ctx c (fun x => x <| terminate := true |>).

Definition api (y : ycall) : M Z :=
  match y with
  | y_post ms cb data => aos_post_delayed_action ms cb data
  | y_cancel ms cb data => _ ← aos_cancel_delayed_action ms cb data; mret 0
  | y_add fd cb data => aos_poll_read_fd fd cb data
  | y_del fd cb data => _ ← aos_cancel_poll_read_fd fd cb data; mret 0
  | y_exit => _ ← aos_loop_exit; mret 0
  end.

Fixpoint run_prog (p : prog W) : M unit :=
  match p with
  | p_end => mret tt
  | p_call y k => r ← api y; run_prog (k r)
  | p_rest f k => _ ← modify (fun s => s <| rest ::= f |>); s ← get; run_prog (k (rest s))
  end.

(** ** The loop *)
Definition s32 (x : Z) : Z := let y := wrap32 x in if y <? 2 ^ 31 then y else y - 2 ^ 32.

(** The time to wait, and the time it was computed at. *)
Definition loop_delay (x : yloop_ctx_t) : M (Z * Z) :=
  match timeouts x with
  | [] => mret (0, -1)
  | tmo :: _ => now ← on_rest aos_now_ms; mret (now, if now <? timeout_ms tmo then s32 (timeout_ms tmo - now) else 0)
  end.

(** One action, if it is due. *)
Definition loop_action c : M unit :=
  x ← ctx_at c;
  match timeouts x with
  | [] => note c h_none
  | tmo :: l =>
      now ← on_rest aos_now_ms;
      if timeout_ms tmo <=? now then
        _ ← set_ctx c (fun x => x <| timeouts := l |>);
        _ ← note c (h_run tmo now);
        run_prog (action (t_cb tmo) (t_data tmo))
      else note c (h_early now)
  end.

(** The arrays are looked at again for every [i]. *)
Fixpoint loop_readers c (ixs : list nat) : M unit :=
  match ixs with
  | [] => mret tt
  | i :: ixs =>
      x ← ctx_at c;
      match pollfds x !! i with
      | Some (Some p) =>
          _ ← (if negb (Z.land (pfd_revents p) POLLIN =? 0) then
                 match default [] (readers x) !! i with
                 | Some r => _ ← note c (h_read r); run_prog (reader (r_cb r) (sock r) (r_data r))
                 | None => undefined
                 end
               else mret tt);
          loop_readers c ixs
      | _ => undefined
      end
  end.

(** One round; false if the loop is left. *)
Definition loop_round c : M bool :=
  x ← ctx_at c;
  let n := Z.to_nat (reader_count x) in
  d ← loop_delay x;
  let '(now, delayed_ms) := d in
  let l := default [] (readers x) in
  if bool_decide (length l < n \/ length (pollfds x) < n)%nat then undefined
  else
    let fds := sock <$> take n l in
    r ← on_rest (aos_poll fds delayed_ms);
    let '(res, intr, revents) := r in
    _ ← set_ctx c (fun x => x <| pollfds := imap (fun i fd => Some {| pfd_fd := fd; pfd_revents := default 0 (revents !! i) |}) fds ++ drop n (pollfds x) |>);
    _ ← note c (h_poll now delayed_ms fds res intr revents);
    if (res <? 0) && negb intr then mret false
    else
      _ ← loop_action c;
      _ ← (if res <=? 0 then mret tt else loop_readers c (seq 0 n));
      mret true.

Definition loop_goes_on (x : yloop_ctx_t) : bool := negb (terminate x) && (bool_decide (timeouts x <> []) || (0 <? reader_count x)).

(** Does the loop end within that many rounds? *)
Fixpoint loop_rounds (fuel : nat) c : M bool :=
  match fuel with
  | O => mret false
  | S fuel =>
      x ← ctx_at c;
      if loop_goes_on x then
        more ← loop_round c;
        if (more : bool) then loop_rounds fuel c else mret true
      else _ ← set_ctx c (fun x => x <| terminate := false |>); mret true
  end.
Definition aos_loop_run (fuel : nat) : M bool := c ← get_context; loop_rounds fuel c.

(** ** Contexts *)
Definition aos_event_service_init : M Z :=
  fd ← on_rest open_event;
  _ ← modify (fun s => if local_fd s <? 0 then s <| local_fd := fd |> else s);
  _ ← aos_poll_read_fd fd event_read_cb 0;
  _ ← aos_loop_set_eventfd fd;
  mret 0.

Definition aos_event_service_deinit fd : M unit := _ ← aos_cancel_poll_read_fd fd event_read_cb 0; on_rest (fun w => (tt, close_event fd w)).

Definition aos_loop_init : M Z :=
  ctx ← _get_context;
  s ← get;
  if negb (g_main_ctx s =? 0) && negb (ctx =? 0) then mret ctx
  else
    _ ← (if g_main_ctx s =? 0 then ok ← on_rest task_key_create; modify (fun s => if (ok : bool) then s <| g_loop_key := ∅ |> else s) else mret tt);
    c ← on_rest aos_malloc;
    if c =? 0 then undefined
    else
      _ ← modify (fun s => if g_main_ctx s =? 0 then s <| g_main_ctx := c |> else s);
      _ ← modify (fun s => s <| ctxs ::= <[c := ctx_zero <| eventfd := -1 |>]> |>);
      _ ← _set_context c;
      _ ← aos_event_service_init;
      mret c.

Definition aos_loop_destroy : M unit :=
  c ← _get_context;
  if c =? 0 then mret tt
  else
    x ← ctx_at c;
    _ ← aos_event_service_deinit (eventfd x);
    _ ← _set_context 0;
    modify (fun s => s <| g_main_ctx ::= fun m => if c =? m then 0 else m |> <| ctxs ::= delete c |>).
End Loop.
