(* ===== verification/YloopSpec.v ===== *)
(** * What the event loop promises

    The history of a loop, checked against an abstract loop: a list of delayed actions in
    the order in which they were posted and a list of readers.  The action that is run is
    the one that is due first, the oldest among equals, and it is due; the loop waits until
    then; after a wait exactly the readers whose descriptors are ready are called, in the
    order of their registration. *)
From S2P Require Import Prelude KTypes Vfs VfsInv EvDev Yloop.
Local Open Scope Z_scope.

#[export] Instance yloop_sock_eq_dec : EqDecision yloop_sock_t.
Proof. solve_decision. Defined.
#[export] Instance yloop_timeout_eq_dec : EqDecision yloop_timeout_t.
Proof. solve_decision. Defined.

(** ** The abstract loop *)
Record loop_spec := { posted_q : list yloop_timeout_t; registered : list yloop_sock_t; todo : list yloop_sock_t; unchecked : bool }.
#[export] Instance eta_loop_spec : Eta loop_spec := {| eta_expand := fun a => {| posted_q := posted_q a; registered := registered a; todo := todo a; unchecked := unchecked a |} |}.
Definition loop_start : loop_spec := {| posted_q := []; registered := []; todo := []; unchecked := false |}.

(** The action that is due first among those that satisfy [p], the oldest among equals, and
    the others. *)
Fixpoint take_earliest (p : yloop_timeout_t -> bool) (q : list yloop_timeout_t) : option (yloop_timeout_t * list yloop_timeout_t) :=
  match q with
  | [] => None
  | t :: q' =>
      match take_earliest p q' with
      | None => if p t then Some (t, q') else None
      | Some (u, r) => if p t && (timeout_ms t <=? timeout_ms u) then Some (t, q') else Some (u, t :: r)
      end
  end.
Definition next_action : list yloop_timeout_t -> option (yloop_timeout_t * list yloop_timeout_t) := take_earliest (fun _ => true).

Definition wait_time (now : Z) (q : list yloop_timeout_t) : Z :=
  match next_action q with None => -1 | Some (t, _) => if now <? timeout_ms t then s32 (timeout_ms t - now) else 0 end.

(** The readers, from the [k]-th on, whose descriptors are ready. *)
Fixpoint ready_from (k : nat) (revents : list Z) (l : list yloop_sock_t) : list yloop_sock_t :=
  match l with
  | [] => []
  | r :: l => if Z.land (default 0 (revents !! k)) POLLIN =? 0 then ready_from (S k) revents l else r :: ready_from (S k) revents l
  end.

Definition spec_event (a : loop_spec) (h : hist) : option loop_spec :=
  match h with
  | h_post t => Some (a <| posted_q ::= fun q => q ++ [t] |>)
  | h_cancel ms cb data => Some (a <| posted_q ::= fun q => match take_earliest (is_action ms cb data) q with Some (_, r) => r | None => q end |>)
  | h_add r => Some (a <| registered ::= fun l => l ++ [r] |>)
  | h_del fd => Some (a <| registered ::= fun l => match find_index (fun r => sock r =? fd) l with Some i => delete i l | None => l end |>)
  | h_poll now delay fds res intr revents =>
      if decide (todo a = [] /\ unchecked a = false /\ fds = sock <$> registered a /\ delay = wait_time now (posted_q a))
      then Some (a <| todo := if 0 <? res then ready_from 0 revents (registered a) else [] |> <| unchecked := negb ((res <? 0) && negb intr) |>) else None
  | h_run t now =>
      match next_action (posted_q a) with
      | Some (u, r) => if decide (unchecked a = true /\ u = t /\ timeout_ms t <= now) then Some (a <| posted_q := r |> <| unchecked := false |>) else None
      | None => None
      end
  | h_early now =>
      match next_action (posted_q a) with
      | Some (u, _) => if decide (unchecked a = true /\ now < timeout_ms u) then Some (a <| unchecked := false |>) else None
      | None => None
      end
  | h_none => if decide (unchecked a = true /\ posted_q a = []) then Some (a <| unchecked := false |>) else None
  | h_read r => match todo a with u :: l => if decide (unchecked a = false /\ u = r) then Some (a <| todo := l |>) else None | [] => None end
  end.
Definition replay (l : list hist) : option loop_spec := foldl (fun a h => a ≫= fun a => spec_event a h) (Some loop_start) l.

Lemma replay_snoc l h a : replay l = Some a -> replay (l ++ [h]) = spec_event a h.
Proof. intros Hl. unfold replay in *. rewrite foldl_app. cbn. by rewrite Hl. Qed.

(** ** The order of actions *)
Fixpoint insert_before (t : yloop_timeout_t) (l : list yloop_timeout_t) : list yloop_timeout_t :=
  match l with [] => [t] | u :: l' => if timeout_ms t <=? timeout_ms u then t :: l else u :: insert_before t l' end.
Definition by_time (q : list yloop_timeout_t) : list yloop_timeout_t := foldr insert_before [] q.
Abbreviation in_order := (Sorted (fun t u : yloop_timeout_t => timeout_ms t <= timeout_ms u)).

Lemma insert_before_comm t u l : insert_before t (timeout_insert u l) = timeout_insert u (insert_before t l).
Proof.
  induction l as [|y l IH]; cbn; [destruct (Z.leb_spec (timeout_ms t) (timeout_ms u)), (Z.ltb_spec (timeout_ms u) (timeout_ms t)); done || lia|].
  destruct (Z.ltb_spec (timeout_ms u) (timeout_ms y)), (Z.leb_spec (timeout_ms t) (timeout_ms y)); cbn;
    destruct (Z.leb_spec (timeout_ms t) (timeout_ms u)), (Z.ltb_spec (timeout_ms u) (timeout_ms t)), (Z.leb_spec (timeout_ms t) (timeout_ms y)), (Z.ltb_spec (timeout_ms u) (timeout_ms y)); try done; try lia; by rewrite IH.
Qed.

Lemma by_time_snoc q t : by_time (q ++ [t]) = timeout_insert t (by_time q).
Proof. induction q as [|u q IH]; [done|]. cbn. change (foldr insert_before [] (q ++ [t])) with (by_time (q ++ [t])). by rewrite IH, insert_before_comm. Qed.

Lemma insert_before_sorted t l : in_order l -> in_order (insert_before t l).
Proof.
  induction 1 as [|u l Hs IH Hd]; cbn; [repeat constructor|]. destruct (Z.leb_spec (timeout_ms t) (timeout_ms u)).
  - constructor; [by constructor|by constructor].
  - constructor; [done|]. destruct l as [|v l]; cbn in *; [constructor; lia|]. inversion Hd; subst. destruct (_ <=? _); constructor; lia.
Qed.

Lemma by_time_sorted q : in_order (by_time q).
Proof. induction q as [|t q IH]; [constructor|by apply insert_before_sorted]. Qed.

(** The first element that satisfies [p], and the rest. *)
Fixpoint extract (p : yloop_timeout_t -> bool) (l : list yloop_timeout_t) : option (yloop_timeout_t * list yloop_timeout_t) :=
  match l with [] => None | t :: l => if p t then Some (t, l) else prod_map id (cons t) <$> extract p l end.

Lemma extract_index p l : extract p l = (k ← find_index p l; t ← l !! k; Some (t, delete k l)).
Proof. induction l as [|t l IH]; [done|]. cbn. destruct (p t); [done|]. rewrite IH. destruct (find_index p l) as [k|]; [|done]. cbn. by destruct (l !! k). Qed.

Lemma extract_ge p l u r t : in_order (t :: l) -> extract p l = Some (u, r) -> timeout_ms t <= timeout_ms u /\ in_order (t :: r).
Proof.
  revert t u r. induction l as [|v l IH]; intros t u r Hs E; [done|]. apply Sorted_inv in Hs as [Hs Hd]. apply HdRel_inv in Hd. cbn in E. destruct (p v).
  - injection E as <- <-. split; [done|]. apply Sorted_inv in Hs as [Hl Hd2]. constructor; [done|]. destruct l; constructor. apply HdRel_inv in Hd2. lia.
  - destruct (extract p l) as [[u' r']|] eqn:El; [|done]. injection E as -> <-. destruct (IH v u r' Hs eq_refl) as [Hv Hr]. split; [lia|]. constructor; [done|by constructor].
Qed.

Lemma insert_before_head t r : in_order (t :: r) -> insert_before t r = t :: r.
Proof. intros [_ Hd]%Sorted_inv. destruct r as [|u r]; [done|]. apply HdRel_inv in Hd. cbn. destruct (Z.leb_spec (timeout_ms t) (timeout_ms u)); [done|lia]. Qed.

Lemma extract_insert p t l : in_order l ->
  extract p (insert_before t l) =
  match extract p l with
  | None => if p t then Some (t, l) else None
  | Some (u, r) => if p t && (timeout_ms t <=? timeout_ms u) then Some (t, l) else Some (u, insert_before t r)
  end.
Proof.
  induction l as [|v l IH]; intros Hs; [cbn; by destruct (p t)|]. cbn [insert_before]. destruct (Z.leb_spec (timeout_ms t) (timeout_ms v)) as [Hle|Hlt].
  - assert (Hs' : in_order (t :: v :: l)) by (constructor; [done|by constructor]).
    change (extract p (t :: v :: l)) with (if p t then Some (t, v :: l) else prod_map id (cons t) <$> extract p (v :: l)).
    destruct (extract p (v :: l)) as [[u r]|] eqn:E; [|by destruct (p t)]. destruct (extract_ge _ _ _ _ _ Hs' E) as [Hu Hr].
    destruct (p t); cbn [andb]; [destruct (Z.leb_spec (timeout_ms t) (timeout_ms u)); [done|lia]|]. cbn. by rewrite insert_before_head.
  - apply Sorted_inv in Hs as [Hs _]. cbn. destruct (p v).
    + destruct (Z.leb_spec (timeout_ms t) (timeout_ms v)); [lia|]. by rewrite andb_false_r.
    + rewrite IH by done. destruct (extract p l) as [[u r]|]; cbn; [|by destruct (p t)].
      destruct (p t && (timeout_ms t <=? timeout_ms u)); cbn; [done|]. destruct (Z.leb_spec (timeout_ms t) (timeout_ms v)); [lia|done].
Qed.

Lemma extract_by_time p q : extract p (by_time q) = prod_map id by_time <$> take_earliest p q.
Proof.
  induction q as [|t q IH]; [done|]. cbn [by_time foldr take_earliest]. change (foldr insert_before [] q) with (by_time q). rewrite extract_insert by apply by_time_sorted. rewrite IH.
  destruct (take_earliest p q) as [[u r]|]; cbn; [|by destruct (p t)]. by destruct (p t && (timeout_ms t <=? timeout_ms u)).
Qed.

Lemma by_time_next q : match by_time q with [] => next_action q = None /\ q = [] | t :: l => exists r, next_action q = Some (t, r) /\ by_time r = l end.
Proof.
  pose proof (extract_by_time (fun _ => true) q) as E. unfold next_action. destruct (by_time q) as [|t l]; cbn in E.
  - destruct (take_earliest _ q) eqn:Et; [done|]. split; [done|]. destruct q as [|t q]; [done|]. cbn in Et. destruct (take_earliest _ q) as [[]|]; [|done]. by destruct (_ <=? _).
  - destruct (take_earliest _ q) as [[u r]|]; [|done]. cbn in E. injection E as -> ->. by exists r.
Qed.

Lemma cancel_by_time p q : match find_index p (by_time q) with Some k => delete k (by_time q) | None => by_time q end =
  by_time (match take_earliest p q with Some (_, r) => r | None => q end).
Proof.
  pose proof (extract_by_time p q) as E. rewrite extract_index in E. destruct (find_index p (by_time q)) as [k|] eqn:Ek; cbn in E.
  - destruct (by_time q !! k) as [t|] eqn:Et; cbn in E.
    + destruct (take_earliest p q) as [[u r]|]; cbn in E; [|done]. by injection E as _ ->.
    + destruct (find_index_Some _ _ _ Ek) as (y & Hy & _). congruence.
  - by destruct (take_earliest p q) as [[]|].
Qed.

(** ** A context and the abstract loop *)
Definition reader_array (x : yloop_ctx_t) : list yloop_sock_t := default [] (readers x).

Record ctx_ok (x : yloop_ctx_t) (a : loop_spec) : Prop := {
  ok_time : timeouts x = by_time (posted_q a);
  ok_hist : replay (history x) = Some a;
  ok_count : reader_count x = Z.of_nat (length (registered a));
  ok_max : (length (registered a) <= 255)%nat;
  ok_array : take (length (registered a)) (reader_array x) = registered a;
  ok_pollfds : (length (registered a) <= length (pollfds x))%nat;
}.

(** What callbacks leave as it is: what is still to do, and the elements of the arrays. *)
Record ctx_ext (x : yloop_ctx_t) (a : loop_spec) (x' : yloop_ctx_t) (a' : loop_spec) (n : nat) : Prop := {
  ext_ok : ctx_ok x' a';
  ext_todo : todo a' = todo a;
  ext_unchecked : unchecked a' = unchecked a;
  ext_array : take (length (registered a)) (reader_array x') = take (length (registered a)) (reader_array x);
  ext_pollfds : take (length (registered a)) (pollfds x') = take (length (registered a)) (pollfds x);
  ext_length : (length (registered a) <= length (registered a') <= length (registered a) + n)%nat;
}.

Lemma take_prefix {A} n m (l l' : list A) : (n <= m)%nat -> take m l = take m l' -> take n l = take n l'.
Proof. intros Hn Hl. rewrite <- (Nat.min_l n m), <- !take_take by done. by rewrite Hl. Qed.

Lemma ext_refl x a : ctx_ok x a -> ctx_ext x a x a 0.
Proof. intros H. split; [done..|lia]. Qed.

Lemma ext_trans x a y b z d n m : ctx_ext x a y b n -> ctx_ext y b z d m -> ctx_ext x a z d (n + m).
Proof.
  intros [H1 H2 H3 H4 H5 H6] [G1 G2 G3 G4 G5 G6]. split; [done|by rewrite G2|by rewrite G3| | |lia].
  - rewrite <- H4. apply (take_prefix _ (length (registered b))); [lia|done].
  - rewrite <- H5. apply (take_prefix _ (length (registered b))); [lia|done].
Qed.

Lemma ext_weaken x a y b n m : (n <= m)%nat -> ctx_ext x a y b n -> ctx_ext x a y b m.
Proof. intros Hn [H1 H2 H3 H4 H5 H6]. split; [done..|lia]. Qed.

Lemma take_snoc_prefix {A} n (l : list A) y : (n <= length l)%nat -> take n (take n l ++ [y]) = take n l.
Proof. intros Hn. rewrite take_app_le by (rewrite length_take; lia). by rewrite take_take, Nat.min_id. Qed.

(** ** The calls *)
Section Calls.
Context {W : Type} `{LoopOs W} (self c : Z) (c_nonzero : c <> 0).
Implicit Types (x : yloop_ctx_t) (a : loop_spec) (s : yl W).

(** The context of the task is [x], at [c]. *)
Definition at_ctx x s : Prop := ctxs s !! c = Some x /\ g_loop_key s !! self = Some c.

Lemma t_context x : triple (at_ctx x) (get_context self) (fun r s => r = c /\ at_ctx x s).
Proof.
  intros s [Hc Hk]. exists c, s. split; [|done]. unfold get_context, _get_context, mbind, ub_bind, get, mret, ub_ret. rewrite Hk. cbn. destruct (Z.eqb_spec c 0); [done|done].
Qed.

Lemma t_ctx x : triple (at_ctx x) (ctx_at c) (fun y s => y = x /\ at_ctx x s).
Proof. intros s [Hc Hk]. exists x, s. split; [|done]. unfold ctx_at, mbind, ub_bind, get, mret, ub_ret. by rewrite Hc. Qed.

Lemma t_set g x : triple (at_ctx x) (set_ctx c g) (fun _ s => at_ctx (g x) s).
Proof.
  intros s [Hc Hk]. eexists tt, _. unfold set_ctx, ctx_at, mbind, ub_bind, get, mret, ub_ret, modify. rewrite Hc. split; [done|]. split; [|done]. rsimpl. by rewrite lookup_alter_eq, Hc.
Qed.

Lemma t_note h x : triple (at_ctx x) (note c h) (fun _ s => at_ctx (x <| history ::= fun l => l ++ [h] |>) s).
Proof. apply t_set. Qed.

Lemma t_rest {A} (g : W -> A * W) x : triple (at_ctx x) (on_rest g) (fun _ s => at_ctx x s).
Proof. intros s [Hc Hk]. unfold on_rest. destruct (g (rest s)) as [y w]. by exists y, (s <| rest := w |>). Qed.

(** A call keeps the context in step with the abstract loop. *)
Definition keeps {A} x a n (m : ub (yl W) A) : Prop := triple (at_ctx x) m (fun _ s => exists x' a', at_ctx x' s /\ ctx_ext x a x' a' n).

Lemma t_pure {A B} x y (m : A -> ub (yl W) B) Q : (forall z, z = y -> triple (at_ctx x) (m z) Q) -> forall z, triple (fun s => z = y /\ at_ctx x s) (m z) Q.
Proof. intros Hm z s [Hz Hs]. by apply (Hm z Hz). Qed.

Lemma keeps_ret {A} x a n (r : A) : ctx_ok x a -> keeps x a n (mret r).
Proof. intros Hx. apply triple_ret. intros s Hs. exists x, a. split; [done|]. eapply ext_weaken; [|by apply ext_refl]. lia. Qed.

Lemma ctx_bind {A} x (m : Z -> ub (yl W) A) Q : triple (at_ctx x) (m c) Q -> triple (at_ctx x) (z ← get_context self; m z) Q.
Proof. intros Hm. eapply triple_bind; [apply t_context|]. apply t_pure. by intros z ->. Qed.
Lemma read_bind {A} x (m : yloop_ctx_t -> ub (yl W) A) Q : triple (at_ctx x) (m x) Q -> triple (at_ctx x) (z ← ctx_at c; m z) Q.
Proof. intros Hm. eapply triple_bind; [apply t_ctx|]. apply t_pure. by intros z ->. Qed.
Lemma rest_bind {A B} x (g : W -> A * W) (m : A -> ub (yl W) B) Q : (forall z, triple (at_ctx x) (m z) Q) -> triple (at_ctx x) (z ← on_rest g; m z) Q.
Proof. intros Hm. eapply triple_bind; [apply t_rest|done]. Qed.
Lemma set_bind {A} x g (m : ub (yl W) A) Q : triple (at_ctx (g x)) m Q -> triple (at_ctx x) (_ ← set_ctx c g; m) Q.
Proof. intros Hm. eapply triple_bind; [apply t_set|]. by intros []. Qed.
Lemma note_bind {A} x h (m : ub (yl W) A) Q : triple (at_ctx (x <| history ::= fun l => l ++ [h] |>)) m Q -> triple (at_ctx x) (_ ← note c h; m) Q.
Proof. apply (set_bind x (fun x => x <| history ::= fun l => l ++ [h] |>)). Qed.

Lemma done_ret {A} x (r : A) (P : yloop_ctx_t -> Prop) : P x -> triple (at_ctx x) (mret r) (fun _ s => exists x', at_ctx x' s /\ P x').
Proof. intros Hp. apply triple_ret. intros s Hs. by exists x. Qed.

Lemma keeps_here {A} x a x' a' n (r : A) : ctx_ext x a x' a' n -> triple (at_ctx x') (mret r) (fun _ s => exists x' a', at_ctx x' s /\ ctx_ext x a x' a' n).
Proof. intros Hx. apply triple_ret. intros s Hs. by exists x', a'. Qed.

Lemma post_keeps x a ms cb data : ctx_ok x a -> keeps x a 0 (aos_post_delayed_action self ms cb data).
Proof.
  intros Hx. unfold aos_post_delayed_action. destruct (cb =? 0); [by apply keeps_ret|]. apply ctx_bind, rest_bind. intros m. destruct (m =? 0); [by apply keeps_ret|].
  apply rest_bind. intros now. set (t := {| timeout_ms := now + ms; t_data := data; t_cb := cb; t_ms := ms |}). apply set_bind, note_bind.
  eapply (keeps_here _ _ _ (a <| posted_q ::= fun q => q ++ [t] |>)). destruct Hx as [H1 H2 H3 H4 H5 H6]. split; [|done..|rsimpl; lia].
  split; [rsimpl; by rewrite H1, by_time_snoc|rsimpl; by rewrite (replay_snoc _ _ _ H2)|done..].
Qed.

Lemma cancel_keeps x a ms cb data : ctx_ok x a -> keeps x a 0 (aos_cancel_delayed_action self ms cb data).
Proof.
  intros Hx. unfold aos_cancel_delayed_action. apply ctx_bind, read_bind.
  set (a' := a <| posted_q ::= fun q => match take_earliest (is_action ms cb data) q with Some (_, r) => r | None => q end |>).
  set (x1 := x <| timeouts := match find_index (is_action ms cb data) (timeouts x) with Some k => delete k (timeouts x) | None => timeouts x end |>).
  eapply triple_bind with (Q := fun _ => at_ctx x1).
  - unfold x1. destruct (find_index _ _) as [k|]; [exact (t_set (fun x => x <| timeouts ::= delete k |>) x)|]. apply triple_ret. intros s Hs. clear x1. by replace (x <| timeouts := timeouts x |>) with x by (by destruct x).
  - intros []. eapply triple_conseq; [apply t_note|done|]. intros ? s Hs. eexists _, a'. split; [exact Hs|]. destruct Hx as [H1 H2 H3 H4 H5 H6].
    split; [|done..|unfold a'; rsimpl; lia]. split; [unfold x1, a'; rsimpl; rewrite H1; apply cancel_by_time|unfold x1; rsimpl; by rewrite (replay_snoc _ _ _ H2)|done..].
Qed.

Lemma exit_keeps x a : ctx_ok x a -> keeps x a 0 (aos_loop_exit self).
Proof. intros Hx. unfold aos_loop_exit. apply ctx_bind. eapply triple_conseq; [apply t_set|done|]. intros ? s Hs. eexists _, a. split; [exact Hs|]. destruct Hx. split; [by split|done..|lia]. Qed.

Lemma add_keeps x a fd cb data : ctx_ok x a -> (length (registered a) < 255)%nat -> keeps x a 1 (aos_poll_read_fd self fd cb data).
Proof.
  intros Hx Hn. unfold aos_poll_read_fd. apply ctx_bind. destruct (fd <? 0); [by apply keeps_ret|]. apply read_bind, rest_bind. intros m1. apply rest_bind. intros m2.
  destruct ((m1 =? 0) || (m2 =? 0)); [by apply keeps_ret|]. apply rest_bind. intros _. destruct Hx as [H1 H2 H3 H4 H5 H6]. fold (reader_array x).
  assert (Hlen : (length (registered a) <= length (reader_array x))%nat) by (rewrite <- H5 at 1; rewrite length_take; lia). rewrite H3, Nat2Z.id.
  rewrite bool_decide_false by lia. set (r := {| sock := fd; r_data := data; r_cb := cb |}). apply set_bind, note_bind.
  eapply (keeps_here _ _ _ (a <| registered ::= fun l => l ++ [r] |>)). split; [|done|done| | |rsimpl; rewrite length_app; cbn; lia].
  - split; [done|rsimpl; by rewrite (replay_snoc _ _ _ H2)|..].
    + rsimpl. rewrite H3, length_app, wrap8_small by (unfold u8; lia). cbn. lia.
    + rsimpl. rewrite length_app. cbn. lia.
    + unfold reader_array at 1. rsimpl. cbn [default]. unfold id. rewrite H5, length_app. cbn. apply take_ge. rewrite length_app. cbn. lia.
    + rsimpl. rewrite !length_app, length_take. cbn. lia.
  - unfold reader_array at 1. rsimpl. cbn [default]. unfold id. by rewrite take_snoc_prefix.
  - rsimpl. by rewrite take_snoc_prefix.
Qed.
(** Between rounds readers can be cancelled, too. *)
Lemma del_ok x a fd cb data : ctx_ok x a ->
  triple (at_ctx x) (aos_cancel_poll_read_fd self fd cb data) (fun _ s => exists x' a', at_ctx x' s /\ ctx_ok x' a' /\ todo a' = todo a /\ unchecked a' = unchecked a /\ (length (registered a') <= length (registered a))%nat).
Proof.
  intros Hx. assert (Hsame : triple (at_ctx x) (mret tt) (fun _ s => exists x' a', at_ctx x' s /\ ctx_ok x' a' /\ todo a' = todo a /\ unchecked a' = unchecked a /\ (length (registered a') <= length (registered a))%nat)).
  { apply triple_ret. intros s Hs. by exists x, a. }
  unfold aos_cancel_poll_read_fd. apply ctx_bind, read_bind. destruct (readers x) as [l|] eqn:El; [|done]. destruct Hx as [H1 H2 H3 H4 H5 H6].
  unfold reader_array in H5. rewrite El in H5. cbn in H5. assert (Hlen : (length (registered a) <= length l)%nat) by (rewrite <- H5 at 1; rewrite length_take; lia).
  rewrite H3, Nat2Z.id. destruct (Z.eqb_spec (Z.of_nat (length (registered a))) 0); [done|]. rewrite bool_decide_false by lia. rewrite H5.
  destruct (find_index _ (registered a)) as [i|] eqn:Ei; [|done]. destruct (find_index_Some _ _ _ Ei) as (y & Hy & _). pose proof (lookup_lt_Some _ _ _ Hy) as Hi. apply set_bind.
  eapply triple_conseq; [apply t_note|done|]. intros ? s Hs. eexists _, (a <| registered := delete i (registered a) |>). split; [exact Hs|]. split; [|rsimpl; rewrite length_delete by (by apply lookup_lt_is_Some); by split_and!; [done..|lia]].
  split; [done| | | | |]; rsimpl; rewrite ?length_delete by (by apply lookup_lt_is_Some).
  - rewrite (replay_snoc _ _ _ H2). cbn. by rewrite Ei.
  - lia.
  - lia.
  - unfold reader_array. rsimpl. cbn. rewrite app_assoc, take_app_le by (rewrite length_app, !length_take, length_drop; lia).
    rewrite take_ge by (rewrite length_app, !length_take, length_drop; lia). rewrite <- H5 at 2. rewrite delete_take_drop, take_take, Nat.min_l by lia. f_equal. rewrite skipn_firstn_comm. f_equal. lia.
  - lia.
Qed.

(** ** Callbacks *)
Section Callbacks.
Context (action : Z -> Z -> prog W) (reader : Z -> Z -> Z -> prog W).

(** The program cancels no reader and registers at most [n]. *)
Fixpoint adds_le (n : nat) (p : prog W) : Prop :=
  match p with
  | p_end => True
  | p_call (y_add _ _ _) k => match n with O => False | S n => forall r, adds_le n (k r) end
  | p_call (y_del _ _ _) _ => False
  | p_call _ k => forall r, adds_le n (k r)
  | p_rest _ k => forall w, adds_le n (k w)
  end.

Lemma keeps_bind {A B} x a n m (f : ub (yl W) A) (k : A -> ub (yl W) B) :
  keeps x a n f -> (forall r x' a', ctx_ext x a x' a' n -> keeps x' a' m (k r)) -> keeps x a (n + m) (r ← f; k r).
Proof.
  intros Hf Hk s Hs. destruct (Hf s Hs) as (r & s1 & E & x1 & a1 & Hs1 & He1). destruct (Hk r x1 a1 He1 s1 Hs1) as (y & s2 & E2 & x2 & a2 & Hs2 & He2).
  exists y, s2. split; [unfold mbind, ub_bind; by rewrite E|]. exists x2, a2. split; [done|]. by eapply ext_trans.
Qed.

Lemma prog_keeps p : forall n x a, adds_le n p -> ctx_ok x a -> (length (registered a) + n <= 255)%nat -> keeps x a n (run_prog self p).
Proof.
  induction p as [|y k IH|f k IH]; intros n x a Hp Hx Hn; [by apply keeps_ret| |].
  - cbn [run_prog]. assert (Hstep : forall m (f : ub (yl W) Z), keeps x a 0 f -> (forall r, adds_le m (k r)) -> m = n -> keeps x a n (r ← f; run_prog self (k r))).
    { intros m f Hf Hk ->. apply (keeps_bind x a 0 n); [done|]. intros r x' a' He. apply IH; [done|apply He|]. destruct (ext_length _ _ _ _ _ He). lia. }
    destruct y; cbn [adds_le api] in *.
    + eapply Hstep; [by apply post_keeps|done|done].
    + eapply Hstep; [|done|done]. apply (keeps_bind x a 0 0); [by apply cancel_keeps|]. intros r x' a' He. apply keeps_ret, He.
    + destruct n as [|n]; [done|]. apply (keeps_bind x a 1 n); [apply add_keeps; [done|lia]|]. intros r x' a' He. apply IH; [done|apply He|]. destruct (ext_length _ _ _ _ _ He). lia.
    + done.
    + eapply Hstep; [|done|done]. apply (keeps_bind x a 0 0); [by apply exit_keeps|]. intros r x' a' He. apply keeps_ret, He.
  - cbn [run_prog]. cbn in Hp. intros s Hs. apply (IH (f (rest s)) n x a); [done..|]. by destruct Hs.
Qed.

Context (adds : nat) (action_adds : forall cb data, adds_le adds (action cb data)) (reader_adds : forall cb fd data, adds_le adds (reader cb fd data)).

Lemma action_ok x a : ctx_ok x a -> unchecked a = true -> (length (registered a) + adds <= 255)%nat ->
  triple (at_ctx x) (loop_action self action c) (fun _ s => exists x' a', at_ctx x' s /\ ctx_ext x (a <| unchecked := false |>) x' a' adds).
Proof.
  intros Hx Hu Hn. unfold loop_action. apply read_bind. pose proof (by_time_next (posted_q a)) as Hq. rewrite <- (ok_time _ _ Hx) in Hq. destruct Hx as [H1 H2 H3 H4 H5 H6].
  destruct (timeouts x) as [|tmo l] eqn:Et.
  - destruct Hq as [Hq Hq0]. eapply triple_conseq; [apply t_note|done|]. intros ? s Hs. eexists _, (a <| unchecked := false |>). split; [exact Hs|]. split; [|done..|rsimpl; lia].
    split; [rsimpl; by rewrite Et|rsimpl; rewrite (replay_snoc _ _ _ H2); cbn; by rewrite decide_True|done..].
  - destruct Hq as (r & Hr & Hl). apply rest_bind. intros now. destruct (Z.leb_spec (timeout_ms tmo) now) as [Hle|Hlt].
    + apply set_bind, note_bind. set (x1 := x <| timeouts := l |> <| history ::= _ |>). set (a1 := a <| posted_q := r |> <| unchecked := false |>).
      assert (Hx1 : ctx_ok x1 a1) by (split; [done|unfold x1; rsimpl; rewrite (replay_snoc _ _ _ H2); cbn; rewrite Hr; by rewrite decide_True|done..]).
      eapply triple_conseq; [apply (prog_keeps _ adds x1 a1); [apply action_adds|done|done]|done|]. intros ? s (x' & a' & Hs & He). exists x', a'. split; [done|]. by destruct He.
    + eapply triple_conseq; [apply t_note|done|]. intros ? s Hs. eexists _, (a <| unchecked := false |>). split; [exact Hs|]. split; [|done..|rsimpl; lia].
      split; [rsimpl; by rewrite Et|rsimpl; rewrite (replay_snoc _ _ _ H2); cbn; rewrite Hr; by rewrite decide_True|done..].
Qed.

(** ** A round *)
Definition poll_entries (revents : list Z) (fds : list Z) : list (option pollfd_t) :=
  imap (fun i fd => Some {| pfd_fd := fd; pfd_revents := default 0 (revents !! i) |}) fds.

(** Nothing is left to do. *)
Definition round_done (s : yl W) : Prop := exists x a, at_ctx x s /\ ctx_ok x a /\ todo a = [] /\ unchecked a = false.

Lemma readers_ok rs revents m : forall i x a, ctx_ok x a -> unchecked a = false -> todo a = ready_from i revents (drop i rs) -> (i + m = length rs)%nat ->
  (length rs <= length (registered a))%nat -> take (length rs) (reader_array x) = rs -> take (length rs) (pollfds x) = poll_entries revents (sock <$> rs) ->
  (length (registered a) + m * adds <= 255)%nat -> triple (at_ctx x) (loop_readers self reader c (seq i m)) (fun _ => round_done).
Proof.
  induction m as [|m IH]; intros i x a Hx Hu Ht Him Hle Harr Hpf Hn; cbn [seq loop_readers].
  { apply triple_ret. intros s Hs. exists x, a. rewrite drop_ge in Ht by lia. by split_and!. }
  destruct (lookup_lt_is_Some_2 rs i) as [r Hr]; [lia|]. apply read_bind.
  assert (Hp : pollfds x !! i = Some (Some {| pfd_fd := sock r; pfd_revents := default 0 (revents !! i) |})).
  { rewrite <- (lookup_take_lt (pollfds x) (length rs)) by lia. rewrite Hpf. unfold poll_entries. rewrite list_lookup_imap, list_lookup_fmap, Hr. done. }
  rewrite Hp. cbn [pfd_revents]. rewrite (drop_S _ _ _ Hr) in Ht. cbn [ready_from] in Ht. destruct (Z.land (default 0 (revents !! i)) POLLIN =? 0); cbn [negb].
  { eapply triple_bind with (Q := fun _ => at_ctx x); [by apply triple_ret|]. intros _. apply (IH (S i) x a); try done; lia. }
  fold (reader_array x). assert (Hri : reader_array x !! i = Some r) by (rewrite <- (lookup_take_lt _ (length rs)), Harr by lia; done). rewrite Hri.
  set (x1 := x <| history ::= fun l => l ++ [h_read r] |>). set (a1 := a <| todo := ready_from (S i) revents (drop (S i) rs) |>).
  assert (Hx1 : ctx_ok x1 a1) by (destruct Hx as [H1 H2 H3 H4 H5 H6]; split; [done|unfold x1; rsimpl; rewrite (replay_snoc _ _ _ H2); cbn; rewrite Ht; by rewrite decide_True|done..]).
  eapply triple_bind with (Q := fun _ s => exists x' a', at_ctx x' s /\ ctx_ext x1 a1 x' a' adds).
  { apply note_bind. eapply prog_keeps; [apply reader_adds|done|]. unfold a1. rsimpl. lia. }
  intros _ s (x' & a' & Hs & He). destruct He as [E1 E2 E3 E4 E5 E6]. revert s Hs. apply (IH (S i) x' a'); [done|by rewrite E3|by rewrite E2|lia| | | |].
  - etrans; [exact Hle|]. apply E6.
  - etrans; [apply (take_prefix _ (length (registered a1)) _ (reader_array x1)); [done|exact E4]|exact Harr].
  - etrans; [apply (take_prefix _ (length (registered a1)) _ (pollfds x1)); [done|exact E5]|exact Hpf].
  - destruct E6 as [_ E6]. change (registered a1) with (registered a) in E6. lia.
Qed.

Lemma delay_ok x a : ctx_ok x a -> triple (at_ctx x) (loop_delay x) (fun d s => d.2 = wait_time d.1 (posted_q a) /\ at_ctx x s).
Proof.
  intros Hx. unfold loop_delay, wait_time. pose proof (by_time_next (posted_q a)) as Hq. rewrite <- (ok_time _ _ Hx) in Hq. destruct (timeouts x) as [|tmo l].
  - destruct Hq as [-> _]. by apply triple_ret.
  - destruct Hq as (r & -> & _). apply rest_bind. intros now. by apply triple_ret.
Qed.

Lemma round_ok x a : ctx_ok x a -> todo a = [] -> unchecked a = false -> (length (registered a) + S (length (registered a)) * adds <= 255)%nat ->
  triple (at_ctx x) (loop_round self action reader c) (fun _ => round_done).
Proof.
  intros Hx Ht Hu Hn. unfold loop_round. apply read_bind. eapply triple_bind; [apply (delay_ok x a Hx)|]. intros [now delay]. cbn [fst snd]. apply triple_pure. intros Hd.
  fold (reader_array x). destruct Hx as [H1 H2 H3 H4 H5 H6]. rewrite H3, Nat2Z.id, H5.
  assert (Hlen : (length (registered a) <= length (reader_array x))%nat) by (rewrite <- H5 at 1; rewrite length_take; lia). rewrite bool_decide_false by lia.
  apply rest_bind. intros [[res intr] revents]. apply set_bind, note_bind. fold (poll_entries revents (sock <$> registered a)).
  set (x1 := x <| pollfds := _ |> <| history ::= _ |>). set (a1 := a <| todo := if 0 <? res then ready_from 0 revents (registered a) else [] |> <| unchecked := negb ((res <? 0) && negb intr) |>).
  assert (Hpl : length (poll_entries revents (sock <$> registered a)) = length (registered a)) by (unfold poll_entries; by rewrite length_imap, length_fmap).
  assert (Hx1 : ctx_ok x1 a1).
  { split; [done|unfold x1; rsimpl; rewrite (replay_snoc _ _ _ H2); cbn; by rewrite decide_True|done..|]. unfold x1, a1. rsimpl. rewrite length_app. lia. }
  destruct ((res <? 0) && negb intr) eqn:Eret.
  { apply triple_ret. intros s Hs. exists x1, a1. apply andb_prop in Eret as [Er _]. split_and!; [done|done| |done]. unfold a1. rsimpl. destruct (Z.ltb_spec 0 res), (Z.ltb_spec res 0); done || lia. }
  eapply triple_bind; [apply (action_ok x1 a1 Hx1); [done|unfold a1; rsimpl; lia]|]. intros _ s (x2 & a2 & Hs & He). revert s Hs. destruct He as [E1 E2 E3 E4 E5 E6].
  eapply triple_bind with (Q := fun _ => round_done); [|intros _; apply triple_ret; auto]. unfold a1 in E2, E3, E6. rsimpl_in E2. rsimpl_in E3. rsimpl_in E6. destruct (Z.leb_spec res 0), (Z.ltb_spec 0 res); try lia.
  { apply triple_ret. intros s Hs. by exists x2, a2. }
  apply (readers_ok (registered a) revents (length (registered a)) 0 x2 a2); [done|by rewrite E3|by rewrite E2|done|lia| | |lia].
  - change (registered (a1 <| unchecked := false |>)) with (registered a) in E4. rewrite E4. exact H5.
  - change (registered (a1 <| unchecked := false |>)) with (registered a) in E5. rewrite E5. unfold x1. rsimpl. rewrite take_app_le by lia. apply take_ge. lia.
Qed.
End Callbacks.
End Calls.
