(* ===== verification/YloopClaims.v ===== *)
(** * Guarantees of the event loop

    From the creation of the loop on, whatever is called and whatever its callbacks do, as
    long as they cancel no reader; and executions that show what a callback that cancels a
    reader does. *)
From S2P Require Import Prelude KTypes Vfs VfsInv EvDev Yloop YloopSpec.
Local Open Scope Z_scope.

(** ** The earliest action *)
Lemma take_earliest_spec p q t r : take_earliest p q = Some (t, r) ->
  exists q1 q2, q = q1 ++ t :: q2 /\ r = q1 ++ q2 /\ p t = true /\
    (forall u, u ∈ q1 -> p u = true -> timeout_ms t < timeout_ms u) /\ (forall u, u ∈ q2 -> p u = true -> timeout_ms t <= timeout_ms u).
Proof.
  revert t r. induction q as [|v q IH]; intros t r E; [done|]. cbn in E. destruct (take_earliest p q) as [[u r']|] eqn:Eq.
  - destruct (IH u r' eq_refl) as (q1 & q2 & -> & -> & Hp & H1 & H2). destruct (p v) eqn:Epv, (Z.leb_spec (timeout_ms v) (timeout_ms u)) as [Hle|Hlt]; cbn in E; injection E as <- <-.
    + exists [], (q1 ++ u :: q2). split_and!; [done|done|done|intros w Hw; by apply not_elem_of_nil in Hw|].
      intros w [Hw|[->|Hw]%elem_of_cons]%elem_of_app Hpw; [specialize (H1 w Hw Hpw)|done|specialize (H2 w Hw Hpw)]; lia.
    + exists (v :: q1), q2. split_and!; [done|done|done| |done]. intros w [->|Hw]%elem_of_cons Hpw; [lia|by apply H1].
    + exists (v :: q1), q2. split_and!; [done|done|done| |done]. intros w [->|Hw]%elem_of_cons Hpw; [congruence|by apply H1].
    + exists (v :: q1), q2. split_and!; [done|done|done| |done]. intros w [->|Hw]%elem_of_cons Hpw; [congruence|by apply H1].
  - destruct (p v) eqn:Epv; [|done]. injection E as <- <-. exists [], q. split_and!; [done|done|done|intros w Hw; by apply not_elem_of_nil in Hw|].
    intros w Hw Hpw. exfalso. clear IH. revert Eq Hw. induction q as [|z q IHq]; intros Eq Hw; [by apply not_elem_of_nil in Hw|]. cbn in Eq.
    destruct (take_earliest p q) as [[]|]; [by destruct (_ && _)|]. destruct (p z) eqn:Ez; [done|]. apply elem_of_cons in Hw as [->|Hw]; [congruence|by apply IHq].
Qed.

(** ** Runs of a loop *)
Section Runs.
Context {W : Type} `{LoopOs W} (self event_read_cb : Z) (action : Z -> Z -> prog W) (reader : Z -> Z -> Z -> prog W).
Context (adds : nat) (action_adds : forall cb data, adds_le adds (action cb data)) (reader_adds : forall cb fd data, adds_le adds (reader cb fd data)).
Implicit Types (s : yl W) (x : yloop_ctx_t).

(** A call, or the next round of [aos_loop_run] if there is one. *)
Inductive loop_op := o_api (y : ycall) | o_round.
Definition loop_step (o : loop_op) : ub (yl W) unit :=
  match o with
  | o_api y => _ ← api self y; mret tt
  | o_round => c ← get_context self; _ ← loop_rounds self action reader 1 c; mret tt
  end.

(** There are never more than 255 readers: a callback registers at most [adds]. *)
Definition fits (o : loop_op) x : Prop :=
  match o with
  | o_api (y_add _ _ _) => reader_count x < 255
  | o_api _ => True
  | o_round => reader_count x + (reader_count x + 1) * Z.of_nat adds <= 255
  end.
Definition loop_of s : option yloop_ctx_t := c ← g_loop_key s !! self; ctxs s !! c.
Definition op_allowed s (o : loop_op) : Prop := exists x, loop_of s = Some x /\ fits o x.

(** The task has no loop. *)
Definition no_loop s : Prop := g_main_ctx s = 0 \/ default 0 (g_loop_key s !! self) = 0.

Inductive loop_reach : yl W -> Prop :=
  | loop_created s0 c s : no_loop s0 -> aos_loop_init self event_read_cb s0 = Some (c, s) -> loop_reach s
  | loop_stepped s o s' : loop_reach s -> op_allowed s o -> loop_step o s = Some (tt, s') -> loop_reach s'.

Definition loop_inv s : Prop := exists c, c <> 0 /\ round_done self c s.

Lemma start_ok : ctx_ok (ctx_zero <| eventfd := -1 |>) loop_start.
Proof. split; cbn; by try lia. Qed.

Lemma init_inv s0 c s : no_loop s0 -> aos_loop_init self event_read_cb s0 = Some (c, s) -> loop_inv s.
Proof.
  intros Hno. unfold aos_loop_init, _get_context, mbind, ub_bind, get, mret, ub_ret. destruct (negb (g_main_ctx s0 =? 0) && negb (default 0 (g_loop_key s0 !! self) =? 0)) eqn:E.
  { apply andb_prop in E as [E1 E2]. exfalso. destruct Hno as [Hno|Hno]; rewrite Hno in *; done. }
  set (m := if g_main_ctx s0 =? 0 then _ else _). destruct (m s0) as [[[] s1]|]; [|done]. unfold on_rest. destruct (aos_malloc (rest s1)) as [c1 w1]. destruct (Z.eqb_spec c1 0) as [|Hc]; [done|].
  unfold modify at 1 2, _set_context, modify at 1. set (s2 := s1 <| rest := w1 |>). set (s3 := if g_main_ctx s2 =? 0 then _ else _). set (s4 := s3 <| ctxs ::= _ |> <| g_loop_key ::= _ |>).
  assert (Ha : at_ctx self c1 (ctx_zero <| eventfd := -1 |>) s4) by (split; apply lookup_insert_eq).
  assert (Ht : triple (at_ctx self c1 (ctx_zero <| eventfd := -1 |>)) (aos_event_service_init self event_read_cb) (fun _ => round_done self c1)).
  { unfold aos_event_service_init. apply rest_bind. intros fd. eapply triple_bind with (Q := fun _ => at_ctx self c1 (ctx_zero <| eventfd := -1 |>)).
    { apply triple_modify. intros s' [H1 H2]. by destruct (local_fd s' <? 0). }
    intros ?. eapply triple_bind; [apply (add_keeps self c1 Hc _ loop_start); [apply start_ok|cbn; lia]|]. intros _ s' (x' & a' & Hs' & He). revert s' Hs'. eapply triple_bind with (Q := fun _ => at_ctx self c1 (x' <| eventfd := fd |>)).
    { unfold aos_loop_set_eventfd. apply ctx_bind; [done|]. apply t_set. }
    intros ?. apply triple_ret. intros s' Hs'. eexists _, a'. split; [done|]. destruct He as [[] E2 E3 _ _ _]. split; [by split|by rewrite E2, E3]. }
  destruct (Ht s4 Ha) as (r & s5 & -> & Hd). intros [= <- <-]. by exists c1.
Qed.

Lemma done_of s c x : at_ctx self c x s -> loop_of s = Some x.
Proof. intros [Hc Hk]. unfold loop_of. rewrite Hk. exact Hc. Qed.

Lemma step_ok s o : loop_inv s -> op_allowed s o -> exists s', loop_step o s = Some (tt, s') /\ loop_inv s'.
Proof.
  intros (c & Hc & x & a & Hs & Hx & Ht & Hu) (x0 & Hx0 & Hf). rewrite (done_of _ _ _ Hs) in Hx0. injection Hx0 as <-.
  assert (Hgoal : triple (at_ctx self c x) (loop_step o) (fun _ => round_done self c)).
  { assert (Hk : forall n (m : ub (yl W) Z), keeps self c x a n m -> triple (at_ctx self c x) (_ ← m; mret tt) (fun _ => round_done self c)).
    { intros n m Hm. eapply triple_bind; [exact Hm|]. intros ?. apply triple_ret. intros s' (x' & a' & Hs' & He). destruct He as [E1 E2 E3 _ _ _]. exists x', a'. split_and!; [done|done|by rewrite E2|by rewrite E3]. }
    assert (Hn := ok_count _ _ Hx). destruct o as [y|]; cbn [loop_step fits] in *; [destruct y; cbn [api]|].
    - apply (Hk O). by apply post_keeps.
    - apply (Hk (0 + 0)%nat). apply keeps_bind; [by apply cancel_keeps|]. intros ??? He. apply keeps_ret, He.
    - apply (Hk 1%nat). apply add_keeps; [done|done|lia].
    - eapply triple_bind with (Q := fun _ => round_done self c); [|intros _; by apply triple_ret]. eapply triple_bind; [by apply (del_ok self c Hc x a)|].
      intros ?. apply triple_ret. intros s' (x' & a' & Hs' & Hx' & E1 & E2 & _). exists x', a'. split_and!; [done|done|by rewrite E1|by rewrite E2].
    - apply (Hk (0 + 0)%nat). apply keeps_bind; [by apply exit_keeps|]. intros ??? He. apply keeps_ret, He.
    - apply ctx_bind; [done|]. eapply triple_bind with (Q := fun _ => round_done self c); [|intros _; by apply triple_ret]. cbn [loop_rounds]. apply read_bind. destruct (loop_goes_on x).
      + eapply triple_bind; [apply (round_ok self c Hc action reader adds action_adds reader_adds x a); [done..|lia]|]. intros more. destruct more; by apply triple_ret.
      + apply set_bind. apply triple_ret. intros s' Hs'. eexists _, a. split; [done|]. destruct Hx. by split. }
  destruct (Hgoal s Hs) as ([] & s' & E & Hd). exists s'. split; [done|]. by exists c.
Qed.

Lemma reach_inv s : loop_reach s -> loop_inv s.
Proof.
  induction 1 as [s0 c s Hno E|s o s' _ IH Ha E]; [by eapply init_inv|]. destruct (step_ok s o IH Ha) as (s1 & E1 & Hi). congruence.
Qed.
End Runs.

(** C37: From its creation on, whatever is called and whatever the callbacks do, if they cancel
    no reader and there are at most 255 of them, the loop is defined and its history is one
    of the abstract loop: every delayed action that is not cancelled is run once, when it is
    due and not before, those that are due first before the others and in the order of
    posting if they are due together; the loop waits exactly until the next one is due; and
    after every wait exactly the readers whose descriptors are ready are called, in order. *)
Theorem loop_keeps_order {W : Type} `{LoopOs W} (self event_read_cb : Z) (action : Z -> Z -> prog W) (reader : Z -> Z -> Z -> prog W) (adds : nat) (s : yl W) :
  (forall cb data, adds_le adds (action cb data)) -> (forall cb fd data, adds_le adds (reader cb fd data)) ->
  loop_reach self event_read_cb action reader adds s ->
  (exists x a, loop_of self s = Some x /\ replay (history x) = Some a /\ timeouts x = by_time (posted_q a) /\ todo a = [] /\ unchecked a = false) /\
  (forall o, op_allowed self adds s o -> exists s', loop_step self action reader o s = Some (tt, s')).
Proof.
  intros Ha Hr Hs. pose proof (reach_inv self event_read_cb action reader adds Ha Hr s Hs) as Hi. split.
  - destruct Hi as (c & Hc & x & a & Hx & Hok & Ht & Hu). exists x, a. split; [by eapply done_of|]. destruct Hok. by split_and!.
  - intros o Ho. destruct (step_ok self action reader adds Ha Hr s o Hi Ho) as (s' & E & _). by exists s'.
Qed.

(** ** Executions *)
Module LoopCases.
(** A clock, and what the coming calls of [aos_poll] do: the time they take, their result and
    the ready descriptors. *)
Record demo := { clock : Z; polls : list (Z * Z * list Z) }.
#[export] Instance demo_os : LoopOs demo := {
  aos_now_ms w := (clock w, w);
  aos_malloc w := (1, w);
  set_nonblock _ w := w;
  aos_poll fds delay w :=
    match polls w with
    | (d, res, revents) :: l => ((res, false, revents), {| clock := clock w + d; polls := l |})
    | [] => ((0, false, []), {| clock := clock w + Z.max 0 delay; polls := [] |})
    end;
  open_event w := (64, w);
  close_event _ w := w;
  task_key_create w := (true, w);
}.

(** Action 2 posts action 1 again; reader 11 cancels the reader of its data, reader 12
    registers another one as well. *)
Definition action (cb data : Z) : prog demo := if cb =? 2 then p_call (y_post 5 1 data) (fun _ => p_end) else p_end.
Definition reader (cb fd data : Z) : prog demo :=
  if cb =? 11 then p_call (y_del data 0 0) (fun _ => p_end)
  else if cb =? 12 then p_call (y_del data 0 0) (fun _ => p_call (y_add 68 10 0) (fun _ => p_end))
  else p_end.
Definition quiet (cb fd data : Z) : prog demo := p_end.

Definition nothing (ps : list (Z * Z * list Z)) : yl demo := {| g_main_ctx := 0; g_loop_key := ∅; ctxs := ∅; local_fd := -1; rest := {| clock := 100; polls := ps |} |}.
Definition created (ps : list (Z * Z * list Z)) : yl demo := match aos_loop_init 7 99 (nothing ps) with Some (_, s) => s | None => nothing ps end.
Fixpoint steps (rd : Z -> Z -> Z -> prog demo) (os : list loop_op) (s : yl demo) : option (yl demo) :=
  match os with [] => Some s | o :: os => match loop_step 7 action rd o s with Some (_, s) => steps rd os s | None => None end end.
Definition past (s : option (yl demo)) : option (list hist) := s ← s; x ← loop_of 7 s; Some (history x).

(** What was run, with the times, and which readers were called. *)
Definition runs (l : list hist) : list (Z * Z) := omap (fun h => match h with h_run t now => Some (t_data t, now) | _ => None end) l.
Definition reads (l : list hist) : list Z := omap (fun h => match h with h_read r => Some (sock r) | _ => None end) l.

(** Actions run in the order of their times, and of posting at equal times; action 2 posts
    another one when it runs. *)
Example actions_in_order :
  runs <$> past (steps quiet [o_api (y_post 20 1 2); o_api (y_post 10 2 1); o_api (y_post 10 1 3); o_api (y_post 12 1 4); o_api (y_cancel (-1) 1 4); o_round; o_round; o_round; o_round] (created [])) =
  Some [(1, 110); (3, 110); (1, 115); (2, 120)].
Proof. vm_compute. reflexivity. Qed.

Lemma demo_adds cb data : adds_le 0 (action cb data).
Proof. unfold action. by destruct (cb =? 2). Qed.

Definition after : yl demo := default (created []) (steps quiet [o_api (y_post 10 1 5)] (created [])).

Lemma after_reached : loop_reach 7 99 action quiet 0 after.
Proof.
  apply (loop_stepped _ _ _ _ _ (created []) (o_api (y_post 10 1 5))); [|exists (default ctx_zero (loop_of 7 (created []))); split; [by vm_compute|exact I]|by vm_compute].
  apply (loop_created _ _ _ _ _ (nothing []) 1); [by left|by vm_compute].
Qed.

Lemma loop_keeps_order_witness :
  (exists x a, loop_of 7 after = Some x /\ replay (history x) = Some a /\ timeouts x = by_time (posted_q a) /\ todo a = [] /\ unchecked a = false) /\
  exists s', loop_step 7 action quiet o_round after = Some (tt, s').
Proof.
  destruct (loop_keeps_order 7 99 action quiet 0 after demo_adds (fun _ _ _ => I) after_reached) as [H1 H2]. split; [exact H1|].
  apply (H2 o_round). eexists. split; [reflexivity|]. vm_compute. discriminate.
Defined.

(** A reader that was cancelled by another one is called all the same: the cancelled element
    is still in the array. *)
Example cancelled_reader_is_called :
  past (steps reader [o_api (y_add 65 11 66); o_api (y_add 66 10 0); o_round] (created [(0, 2, [0; 1; 1])])) =
  Some [h_add {| sock := 64; r_data := 0; r_cb := 99 |}; h_add {| sock := 65; r_data := 66; r_cb := 11 |}; h_add {| sock := 66; r_data := 0; r_cb := 10 |};
        h_poll 0 (-1) [64; 65; 66] 2 false [0; 1; 1]; h_none; h_read {| sock := 65; r_data := 66; r_cb := 11 |}; h_del 66; h_read {| sock := 66; r_data := 0; r_cb := 10 |}].
Proof. vm_compute. reflexivity. Qed.

(** A reader cancels itself: descriptors 65 and 66 are ready, but 67 is read instead of 66. *)
Example wrong_reader_is_called :
  reads <$> past (steps reader [o_api (y_add 65 11 65); o_api (y_add 66 10 0); o_api (y_add 67 10 0); o_round] (created [(0, 2, [0; 1; 1; 0])])) = Some [65; 67].
Proof. vm_compute. reflexivity. Qed.

(** A reader cancels another one and registers a third one: the loop reads an element of the
    poll array that was never written. *)
Example cancel_and_add_undefined :
  steps reader [o_api (y_add 65 12 66); o_api (y_add 66 10 0); o_round] (created [(0, 1, [0; 1; 0])]) = None.
Proof. vm_compute. reflexivity. Qed.

(** The 256th reader makes the count wrap: the loop has no readers any more and ends. *)
Example too_many_readers :
  (fun s => reader_count <$> loop_of 7 s) <$> steps quiet (replicate 255 (o_api (y_add 65 10 0))) (created []) = Some (Some 0).
Proof. vm_compute. reflexivity. Qed.

(** A task without a loop uses the loop of the main task, also after it was destroyed. *)
Example dangling_context :
  (_ ← aos_post_delayed_action 8 10 1 0; _ ← aos_loop_destroy 7 99; aos_post_delayed_action 8 10 1 0) (created []) = None.
Proof. vm_compute. reflexivity. Qed.
End LoopCases.
