(* ===== verification/Base64.v ===== *)
(** * Base64 ([base64.c])

    The two functions on byte arrays.  A function returns nothing when the code reads or
    writes outside an array or an [int] overflows, [Some None] for the null pointer, and else the length it stores
    and the output array. *)
From Stdlib Require Import Ascii String.
From stdpp Require Import strings.
From S2P Require Import Prelude KTypes.
Local Open Scope Z_scope.

Definition chars (s : string) : list Z := (fun c => Z.of_N (N_of_ascii c)) <$> String.list_ascii_of_string s.

Definition encoding_table : list Z := chars "ABCDEFGHIJKLMNOPQRSTUVWXYZabcdefghijklmnopqrstuvwxyz0123456789+/".

Definition decoding_table : list Z :=
  [0;  0;  0;  0;  0;  0;  0;  0;  0;  0;  0;  0;  0;  0;  0;  0;
   0;  0;  0;  0;  0;  0;  0;  0;  0;  0;  0;  0;  0;  0;  0;  0;
   0;  0;  0;  0;  0;  0;  0;  0;  0;  0;  0; 62;  0;  0;  0; 63;
   52; 53; 54; 55; 56; 57; 58; 59; 60; 61;  0;  0;  0;  0;  0;  0;
   0;  0;  1;  2;  3;  4;  5;  6;  7;  8;  9; 10; 11; 12; 13; 14;
   15; 16; 17; 18; 19; 20; 21; 22; 23; 24; 25;  0;  0;  0;  0;  0;
   0; 26; 27; 28; 29; 30; 31; 32; 33; 34; 35; 36; 37; 38; 39; 40;
   41; 42; 43; 44; 45; 46; 47; 48; 49; 50; 51;  0;  0;  0;  0;  0] ++ replicate 128 0.

Definition mod_table : list Z := [0; 2; 1].
Definition equals_sign : Z := 61.

(** Elements of arrays. *)
Definition load (a : list Z) (i : Z) : option Z := if i <? 0 then None else a !! Z.to_nat i.
Definition store (a : list Z) (i x : Z) : option (list Z) := if (0 <=? i) && (i <? Z.of_nat (length a)) then Some (<[Z.to_nat i := x]> a) else None.

(** ** Encoding *)
(** [i < input_len ? input[i++] : 0] *)
Definition next_octet (input : list Z) (input_len i : Z) : option (Z * Z) := if i <? input_len then x ← load input i; Some (x, i + 1) else Some (0, i).

Fixpoint encode_loop (fuel : nat) (input : list Z) (input_len i j : Z) (output : list Z) : option (list Z) :=
  match fuel with
  | O => None
  | S fuel =>
      if i <? input_len then
        '(octet_a, i) ← next_octet input input_len i;
        '(octet_b, i) ← next_octet input input_len i;
        '(octet_c, i) ← next_octet input input_len i;
        let triple := wrap32 (Z.shiftl octet_a 0x10 + Z.shiftl octet_b 0x08 + octet_c) in
        x0 ← load encoding_table (Z.land (Z.shiftr triple 18) 0x3F);
        output ← store output j x0;
        x1 ← load encoding_table (Z.land (Z.shiftr triple 12) 0x3F);
        output ← store output (j + 1) x1;
        x2 ← load encoding_table (Z.land (Z.shiftr triple 6) 0x3F);
        output ← store output (j + 2) x2;
        x3 ← load encoding_table (Z.land (Z.shiftr triple 0) 0x3F);
        output ← store output (j + 3) x3;
        encode_loop fuel input input_len i (j + 4) output
      else Some output
  end.

(** [n] elements from the end of the encoded string. *)
Fixpoint pad_loop (n : nat) (o_len i : Z) (output : list Z) : option (list Z) :=
  match n with
  | O => Some output
  | S n => output ← store output (o_len - 1 - i) equals_sign; pad_loop n o_len (i + 1) output
  end.

Definition INT_MAX : Z := 2 ^ 31 - 1.

Definition base64_encode (input : option (list Z)) (input_len : Z) (output : option (list Z)) (output_len : bool) : option (option (Z * list Z)) :=
  let o_len := 4 * Z.quot (input_len + 2) 3 in
  if INT_MAX <? o_len then None
  else
  match input, output, output_len with
  | Some input, Some output, true =>
      output ← encode_loop (S (length input)) input input_len 0 0 output;
      m ← load mod_table (Z.rem input_len 3);
      output ← pad_loop (Z.to_nat m) o_len 0 output;
      Some (Some (o_len, output))
  | _, _, _ => Some None
  end.

(** ** Decoding *)
(** [if (j < o_len) output[j++] = x] *)
Definition put_octet (output : list Z) (o_len j x : Z) : option (Z * list Z) :=
  if j <? o_len then output ← store output j x; Some (j + 1, output) else Some (j, output).

Definition next_sextet (input : list Z) (i : Z) : option Z := x ← load input i; load decoding_table x.

Fixpoint decode_loop (fuel : nat) (input : list Z) (input_len o_len i j : Z) (output : list Z) : option (list Z) :=
  match fuel with
  | O => None
  | S fuel =>
      if i <? input_len then
        sextet_a ← next_sextet input i;
        sextet_b ← next_sextet input (i + 1);
        sextet_c ← next_sextet input (i + 2);
        sextet_d ← next_sextet input (i + 3);
        let triple := wrap32 (Z.shiftl sextet_a 18 + Z.shiftl sextet_b 12 + Z.shiftl sextet_c 6 + Z.shiftl sextet_d 0) in
        '(j, output) ← put_octet output o_len j (Z.land (Z.shiftr triple 16) 0xFF);
        '(j, output) ← put_octet output o_len j (Z.land (Z.shiftr triple 8) 0xFF);
        '(j, output) ← put_octet output o_len j (Z.land (Z.shiftr triple 0) 0xFF);
        decode_loop fuel input input_len o_len (i + 4) j output
      else Some output
  end.

Definition base64_decode (input : option (list Z)) (input_len : Z) (output : option (list Z)) (output_len : bool) : option (option (Z * list Z)) :=
  let o_len := Z.quot input_len 4 * 3 in
  match input, output, output_len with
  | Some input, Some output, true =>
      last ← load input (input_len - 1);
      let o_len := if last =? equals_sign then o_len - 1 else o_len in
      last ← load input (input_len - 2);
      let o_len := if last =? equals_sign then o_len - 1 else o_len in
      output ← decode_loop (S (length input)) input input_len o_len 0 0 output;
      Some (Some (o_len, output))
  | _, _, _ => Some None
  end.

(** ** The encoding of RFC 4648 *)
Definition base64_char (x : Z) : Z := default 0 (encoding_table !! Z.to_nat x).

Fixpoint rfc_base64 (l : list Z) : list Z :=
  match l with
  | [] => []
  | [a] => [base64_char (a / 4); base64_char (a mod 4 * 16); equals_sign; equals_sign]
  | [a; b] => [base64_char (a / 4); base64_char (a mod 4 * 16 + b / 16); base64_char (b mod 16 * 4); equals_sign]
  | a :: b :: c :: l => [base64_char (a / 4); base64_char (a mod 4 * 16 + b / 16); base64_char (b mod 16 * 4 + c / 64); base64_char (c mod 64)] ++ rfc_base64 l
  end.

Example rfc_test : rfc_base64 (chars "foobar") = chars "Zm9vYmFy" /\ rfc_base64 (chars "foob") = chars "Zm9vYg==" /\ rfc_base64 (chars "fooba") = chars "Zm9vYmE=".
Proof. vm_compute. done. Qed.

(** ** The functions implement it *)
Lemma list_ind3 {A} (P : list A -> Prop) : P [] -> (forall a, P [a]) -> (forall a b, P [a; b]) -> (forall a b c l, P l -> P (a :: b :: c :: l)) -> forall l, P l.
Proof. intros H0 H1 H2 H3. fix IH 1. intros [|a [|b [|c l]]]; [done|done|done|apply H3, IH]. Qed.

Ltac Zify.zify_post_hook ::= Z.to_euclidean_division_equations.

(** The sextets of three octets, and back. *)
Lemma triple_val a b c : byte a -> byte b -> byte c -> wrap32 (Z.shiftl a 0x10 + Z.shiftl b 0x08 + c) = a * 65536 + b * 256 + c.
Proof. unfold byte. intros. rewrite !Z.shiftl_mul_pow2 by lia. change (2 ^ 16) with 65536. change (2 ^ 8) with 256. unfold wrap32. apply Z.mod_small. lia. Qed.

Lemma sextets a b c : byte a -> byte b -> byte c -> let t := wrap32 (Z.shiftl a 0x10 + Z.shiftl b 0x08 + c) in
  Z.land (Z.shiftr t 18) 0x3F = a / 4 /\ Z.land (Z.shiftr t 12) 0x3F = a mod 4 * 16 + b / 16 /\
  Z.land (Z.shiftr t 6) 0x3F = b mod 16 * 4 + c / 64 /\ Z.land (Z.shiftr t 0) 0x3F = c mod 64.
Proof.
  intros Ha Hb Hc t. unfold t. rewrite triple_val by done. change 0x3F with (Z.ones 6). rewrite !Z.land_ones, !Z.shiftr_div_pow2 by lia. unfold byte in *.
  change (2 ^ 6) with 64. change (2 ^ 18) with 262144. change (2 ^ 12) with 4096. change (2 ^ 0) with 1. repeat split; lia.
Qed.

Lemma octets a b c : byte a -> byte b -> byte c ->
  let t := wrap32 (Z.shiftl (a / 4) 18 + Z.shiftl (a mod 4 * 16 + b / 16) 12 + Z.shiftl (b mod 16 * 4 + c / 64) 6 + Z.shiftl (c mod 64) 0) in
  Z.land (Z.shiftr t 16) 0xFF = a /\ Z.land (Z.shiftr t 8) 0xFF = b /\ Z.land (Z.shiftr t 0) 0xFF = c.
Proof.
  intros Ha Hb Hc t. assert (t = a * 65536 + b * 256 + c) as ->.
  { unfold t. rewrite !Z.shiftl_mul_pow2 by lia. unfold byte in *. change (2 ^ 18) with 262144. change (2 ^ 12) with 4096. change (2 ^ 6) with 64. change (2 ^ 0) with 1. unfold wrap32. rewrite Z.mod_small; lia. }
  change 0xFF with (Z.ones 8). rewrite !Z.land_ones, !Z.shiftr_div_pow2 by lia. unfold byte in *. change (2 ^ 16) with 65536. change (2 ^ 8) with 256. change (2 ^ 0) with 1. repeat split; lia.
Qed.

Lemma char_ok x : 0 <= x < 64 -> load encoding_table x = Some (base64_char x) /\ load decoding_table (base64_char x) = Some x /\ base64_char x <> equals_sign.
Proof.
  intros Hx. assert (Hall : Forall (fun k => load encoding_table (Z.of_nat k) = Some (base64_char (Z.of_nat k)) /\ load decoding_table (base64_char (Z.of_nat k)) = Some (Z.of_nat k) /\ base64_char (Z.of_nat k) <> equals_sign) (seq 0 64)).
  { apply (bool_decide_unpack _). by vm_compute. }
  rewrite Forall_forall in Hall. specialize (Hall (Z.to_nat x)). rewrite Z2Nat.id in Hall by lia. apply Hall, elem_of_seq. lia.
Qed.

Lemma store_ok pre x y post : store (pre ++ y :: post) (Z.of_nat (length pre)) x = Some (pre ++ x :: post).
Proof.
  unfold store. rewrite length_app. cbn [length]. destruct (Z.leb_spec 0 (Z.of_nat (length pre))), (Z.ltb_spec (Z.of_nat (length pre)) (Z.of_nat (length pre + S (length post)))); try lia. cbn [andb].
  rewrite Nat2Z.id, insert_app_r_alt by lia. by rewrite Nat.sub_diag.
Qed.

Lemma store_at pre x y post j : j = Z.of_nat (length pre) -> store (pre ++ y :: post) j x = Some (pre ++ x :: post).
Proof. intros ->. apply store_ok. Qed.

Lemma load_at pre y post i : i = Z.of_nat (length pre) -> load (pre ++ y :: post) i = Some y.
Proof. intros ->. unfold load. destruct (Z.ltb_spec (Z.of_nat (length pre)) 0); [lia|]. by rewrite Nat2Z.id, list_lookup_middle. Qed.

Lemma four {A} (l : list A) : (4 <= length l)%nat -> exists w x y z r, l = w :: x :: y :: z :: r.
Proof. intros Hl. destruct l as [|w [|x [|y [|z r]]]]; cbn in Hl; try lia. by exists w, x, y, z, r. Qed.

(** Four characters are stored one after the other. *)
Lemma store_four {B} pre buf a b c d j (k : list Z -> option B) : (4 <= length buf)%nat -> j = Z.of_nat (length pre) ->
  (o ← store (pre ++ buf) j a; o ← store o (j + 1) b; o ← store o (j + 2) c; o ← store o (j + 3) d; k o) = k (pre ++ [a; b; c; d] ++ drop 4 buf).
Proof.
  intros (w & x & y & z & r & ->)%four Hj. rewrite (store_at pre a w _ _ Hj). cbn [mbind option_bind].
  change (pre ++ a :: x :: y :: z :: r) with (pre ++ [a] ++ x :: y :: z :: r). rewrite app_assoc, (store_at (pre ++ [a]) b x) by (rewrite length_app; cbn; lia). cbn [mbind option_bind].
  change (b :: y :: z :: r) with ([b] ++ y :: z :: r). rewrite app_assoc, (store_at ((pre ++ [a]) ++ [b]) c y) by (rewrite !length_app; cbn; lia). cbn [mbind option_bind].
  change (c :: z :: r) with ([c] ++ z :: r). rewrite app_assoc, (store_at (((pre ++ [a]) ++ [b]) ++ [c]) d z) by (rewrite !length_app; cbn; lia). cbn [mbind option_bind].
  f_equal. by rewrite <- !app_assoc.
Qed.

(** The characters before the padding is written. *)
Fixpoint raw_base64 (l : list Z) : list Z :=
  match l with
  | [] => []
  | [a] => [base64_char (a / 4); base64_char (a mod 4 * 16); base64_char 0; base64_char 0]
  | [a; b] => [base64_char (a / 4); base64_char (a mod 4 * 16 + b / 16); base64_char (b mod 16 * 4); base64_char 0]
  | a :: b :: c :: l => [base64_char (a / 4); base64_char (a mod 4 * 16 + b / 16); base64_char (b mod 16 * 4 + c / 64); base64_char (c mod 64)] ++ raw_base64 l
  end.

Lemma raw_length l : Z.of_nat (length (raw_base64 l)) = 4 * ((Z.of_nat (length l) + 2) / 3) /\ length (rfc_base64 l) = length (raw_base64 l).
Proof.
  induction l as [| | |a b c l [IH1 IH2]] using list_ind3; [done..|]. split; [|cbn; by rewrite IH2]. cbn [raw_base64 app length] in *. lia.
Qed.

(** One round of the loop. *)
Lemma encode_round fuel input input_len i0 i1 i2 i3 a b c opre obuf j :
  i0 < input_len -> next_octet input input_len i0 = Some (a, i1) -> next_octet input input_len i1 = Some (b, i2) -> next_octet input input_len i2 = Some (c, i3) ->
  byte a -> byte b -> byte c -> (4 <= length obuf)%nat -> j = Z.of_nat (length opre) ->
  encode_loop (S fuel) input input_len i0 j (opre ++ obuf) =
  encode_loop fuel input input_len i3 (j + 4) (opre ++ [base64_char (a / 4); base64_char (a mod 4 * 16 + b / 16); base64_char (b mod 16 * 4 + c / 64); base64_char (c mod 64)] ++ drop 4 obuf).
Proof.
  intros Hi Ha Hb Hc Ba Bb Bc Hbuf Hj. cbn [encode_loop]. destruct (Z.ltb_spec i0 input_len); [|lia]. rewrite Ha. cbn [mbind option_bind]. rewrite Hb. cbn [mbind option_bind]. rewrite Hc. cbn [mbind option_bind].
  destruct (sextets a b c Ba Bb Bc) as (E1 & E2 & E3 & E4). rewrite E1, E2, E3, E4. unfold byte in *.
  rewrite (proj1 (char_ok (a / 4) ltac:(lia))), (proj1 (char_ok (a mod 4 * 16 + b / 16) ltac:(lia))), (proj1 (char_ok (b mod 16 * 4 + c / 64) ltac:(lia))), (proj1 (char_ok (c mod 64) ltac:(lia))).
  cbn [mbind option_bind]. by apply store_four.
Qed.

Lemma octet_here pre x post n i : i = Z.of_nat (length pre) -> n = Z.of_nat (length (pre ++ x :: post)) -> next_octet (pre ++ x :: post) n i = Some (x, i + 1).
Proof. intros Hi ->. unfold next_octet. rewrite length_app. cbn [length]. destruct (Z.ltb_spec i (Z.of_nat (length pre + S (length post)))); [|lia]. by rewrite load_at. Qed.

Lemma octet_none l n i : n <= i -> next_octet l n i = Some (0, i).
Proof. intros Hi. unfold next_octet. destruct (Z.ltb_spec i n); [lia|done]. Qed.

Lemma encode_stop fuel l n i j o : n <= i -> encode_loop (S fuel) l n i j o = Some o.
Proof. intros Hi. cbn [encode_loop]. destruct (Z.ltb_spec i n); [lia|done]. Qed.

Lemma encode_loop_ok l : forall pre fuel opre obuf i j n, Forall byte l -> (length l < fuel)%nat -> (length (raw_base64 l) <= length obuf)%nat ->
  i = Z.of_nat (length pre) -> j = Z.of_nat (length opre) -> n = Z.of_nat (length (pre ++ l)) ->
  encode_loop fuel (pre ++ l) n i j (opre ++ obuf) = Some (opre ++ raw_base64 l ++ drop (length (raw_base64 l)) obuf).
Proof.
  assert (B0 : byte 0) by (unfold byte; lia).
  induction l as [|a|a b|a b c l IH] using list_ind3; intros pre fuel opre obuf i j n Hb Hfuel Hbuf Hi Hj Hn; destruct fuel as [|fuel]; cbn [length raw_base64 app] in *; try lia.
  - rewrite encode_stop by (rewrite length_app in Hn; cbn in Hn; lia). done.
  - apply Forall_cons in Hb as [Ba _]. destruct fuel as [|fuel]; [lia|]. rewrite length_app in Hn. cbn in Hn.
    rewrite (encode_round _ _ _ _ (i + 1) (i + 1) (i + 1) a 0 0); [|lia|apply octet_here; [done|rewrite length_app; cbn; lia]|by apply octet_none; lia..|done|done|done|lia|done].
    rewrite encode_stop by lia. by rewrite Z.add_0_r.
  - apply Forall_cons in Hb as [Ba [Bb _]%Forall_cons]. destruct fuel as [|fuel]; [lia|]. rewrite length_app in Hn. cbn in Hn.
    rewrite (encode_round _ _ _ _ (i + 1) (i + 2) (i + 2) a b 0); [|lia|apply octet_here; [done|rewrite length_app; cbn; lia]| |by apply octet_none; lia|done|done|done|lia|done].
    + rewrite encode_stop by lia. by rewrite Z.add_0_r.
    + change (pre ++ [a; b]) with (pre ++ [a] ++ [b]). rewrite app_assoc. replace (i + 2) with (i + 1 + 1) by lia. apply octet_here; rewrite !length_app; cbn; lia.
  - apply Forall_cons in Hb as [Ba [Bb [Bc Hb]%Forall_cons]%Forall_cons]. pose proof Hn as Hn'. rewrite length_app in Hn'. cbn in Hn'.
    rewrite (encode_round _ _ _ _ (i + 1) (i + 2) (i + 3) a b c); [|lia|apply octet_here; done| | |done|done|done|lia|done].
    + change (pre ++ a :: b :: c :: l) with (pre ++ [a; b; c] ++ l). rewrite (app_assoc pre), (app_assoc opre). rewrite (IH (pre ++ [a; b; c])); [|done|lia|rewrite length_drop; lia|rewrite length_app; cbn; lia|rewrite length_app; cbn; lia|rewrite !length_app; cbn; lia].
      rewrite <- !app_assoc. do 3 f_equal. by rewrite drop_drop.
    + change (pre ++ a :: b :: c :: l) with (pre ++ [a] ++ b :: c :: l). rewrite app_assoc. replace (i + 2) with (i + 1 + 1) by lia. apply octet_here; rewrite !length_app; cbn; lia.
    + change (pre ++ a :: b :: c :: l) with (pre ++ [a; b] ++ c :: l). rewrite app_assoc. replace (i + 3) with (i + 2 + 1) by lia. apply octet_here; rewrite !length_app; cbn; lia.
Qed.

Definition pads (l : list Z) : Z := default 0 (mod_table !! Z.to_nat (Z.of_nat (length l) mod 3)).

Lemma pad_ok l : forall pre rest o_len, o_len = Z.of_nat (length (pre ++ raw_base64 l)) ->
  pad_loop (Z.to_nat (pads l)) o_len 0 (pre ++ raw_base64 l ++ rest) = Some (pre ++ rfc_base64 l ++ rest).
Proof.
  induction l as [|a|a b|a b c l IH] using list_ind3; intros pre rest o_len Ho; [done| | |].
  - change (Z.to_nat (pads [a])) with 2%nat. cbn [raw_base64 app pad_loop]. rewrite length_app in Ho. cbn in Ho. set (w := base64_char (a / 4)). set (x := base64_char (a mod 4 * 16)).
    change (pre ++ w :: x :: base64_char 0 :: base64_char 0 :: rest) with (pre ++ [w; x; base64_char 0] ++ base64_char 0 :: rest). rewrite app_assoc, store_at by (rewrite length_app; cbn; lia). cbn [mbind option_bind].
    rewrite <- app_assoc. change (pre ++ [w; x; base64_char 0] ++ equals_sign :: rest) with (pre ++ [w; x] ++ base64_char 0 :: equals_sign :: rest). rewrite app_assoc, store_at by (rewrite length_app; cbn; lia). cbn [mbind option_bind]. by rewrite <- app_assoc.
  - change (Z.to_nat (pads [a; b])) with 1%nat. cbn [raw_base64 app pad_loop]. rewrite length_app in Ho. cbn in Ho. set (w := base64_char (a / 4)). set (x := base64_char (a mod 4 * 16 + b / 16)). set (y := base64_char (b mod 16 * 4)).
    change (pre ++ w :: x :: y :: base64_char 0 :: rest) with (pre ++ [w; x; y] ++ base64_char 0 :: rest). rewrite app_assoc, store_at by (rewrite length_app; cbn; lia). cbn [mbind option_bind]. by rewrite <- app_assoc.
  - assert (pads (a :: b :: c :: l) = pads l) as -> by (unfold pads; do 3 f_equal; cbn [length]; lia). cbn [raw_base64 rfc_base64]. rewrite <- !app_assoc, !(app_assoc pre). apply IH. rewrite Ho. cbn [raw_base64]. by rewrite app_assoc.
Qed.

Lemma encode_ok l obuf : Forall byte l -> Z.of_nat (length (rfc_base64 l)) < 2 ^ 31 -> (length (rfc_base64 l) <= length obuf)%nat ->
  base64_encode (Some l) (Z.of_nat (length l)) (Some obuf) true = Some (Some (Z.of_nat (length (rfc_base64 l)), rfc_base64 l ++ drop (length (rfc_base64 l)) obuf)).
Proof.
  intros Hb Hint Hbuf. destruct (raw_length l) as [Hlen Heq]. unfold base64_encode. rewrite Z.quot_div_nonneg, <- Hlen by lia. unfold INT_MAX. destruct (Z.ltb_spec (2 ^ 31 - 1) (Z.of_nat (length (raw_base64 l)))); [lia|].
  rewrite (encode_loop_ok l [] (S (length l)) [] obuf); [|done|lia|lia|done|done|done]. cbn [mbind option_bind app]. rewrite Z.rem_mod_nonneg by lia.
  assert (load mod_table (Z.of_nat (length l) mod 3) = Some (pads l)) as ->.
  { unfold load, pads. destruct (Z.ltb_spec (Z.of_nat (length l) mod 3) 0); [lia|]. assert (Hk : (Z.to_nat (Z.of_nat (length l) mod 3) < 3)%nat) by lia. destruct (Z.to_nat _) as [|[|[|k]]]; [done..|lia]. }
  cbn [mbind option_bind]. pose proof (pad_ok l [] (drop (length (raw_base64 l)) obuf) _ eq_refl) as E. cbn [app] in E. rewrite E. cbn [mbind option_bind]. by rewrite Heq.
Qed.

(** ** Decoding *)
Lemma sextet_at pre l i k x : i = Z.of_nat (length pre) + Z.of_nat k -> l !! k = Some (base64_char x) -> 0 <= x < 64 -> next_sextet (pre ++ l) i = Some x.
Proof.
  intros -> Hk Hx. unfold next_sextet, load. destruct (Z.ltb_spec (Z.of_nat (length pre) + Z.of_nat k) 0); [lia|]. rewrite lookup_app_r by lia.
  replace (Z.to_nat (Z.of_nat (length pre) + Z.of_nat k) - length pre)%nat with k by lia. rewrite Hk. apply char_ok. done.
Qed.

Lemma pad_at pre l i k : i = Z.of_nat (length pre) + Z.of_nat k -> l !! k = Some equals_sign -> next_sextet (pre ++ l) i = Some 0.
Proof.
  intros -> Hk. unfold next_sextet, load. destruct (Z.ltb_spec (Z.of_nat (length pre) + Z.of_nat k) 0); [lia|]. rewrite lookup_app_r by lia.
  replace (Z.to_nat (Z.of_nat (length pre) + Z.of_nat k) - length pre)%nat with k by lia. by rewrite Hk.
Qed.

Lemma put_here opre y post x j n : j = Z.of_nat (length opre) -> j < n -> put_octet (opre ++ y :: post) n j x = Some (j + 1, opre ++ x :: post).
Proof. intros Hj Hn. unfold put_octet. destruct (Z.ltb_spec j n); [|lia]. by rewrite store_at. Qed.

Lemma put_none o n j x : n <= j -> put_octet o n j x = Some (j, o).
Proof. intros Hn. unfold put_octet. destruct (Z.ltb_spec j n); [lia|done]. Qed.

Lemma decode_stop fuel l n m i j o : n <= i -> decode_loop (S fuel) l n m i j o = Some o.
Proof. intros Hi. cbn [decode_loop]. destruct (Z.ltb_spec i n); [lia|done]. Qed.

(** Four characters give up to three octets. *)
Lemma decode_round fuel input n m i j o a b c : i < n -> byte a -> byte b -> byte c ->
  next_sextet input i = Some (a / 4) -> next_sextet input (i + 1) = Some (a mod 4 * 16 + b / 16) -> next_sextet input (i + 2) = Some (b mod 16 * 4 + c / 64) -> next_sextet input (i + 3) = Some (c mod 64) ->
  decode_loop (S fuel) input n m i j o = ('(j, o) ← put_octet o m j a; '(j, o) ← put_octet o m j b; '(j, o) ← put_octet o m j c; decode_loop fuel input n m (i + 4) j o).
Proof.
  intros Hi Ba Bb Bc E1 E2 E3 E4. cbn [decode_loop]. destruct (Z.ltb_spec i n); [|lia]. rewrite E1. cbn [mbind option_bind]. rewrite E2. cbn [mbind option_bind]. rewrite E3. cbn [mbind option_bind]. rewrite E4. cbn [mbind option_bind].
  destruct (octets a b c Ba Bb Bc) as (-> & -> & ->). done.
Qed.

Lemma decode_loop_ok l : forall ipre fuel opre obuf i j n m, Forall byte l -> (length (rfc_base64 l) < fuel)%nat -> (length l <= length obuf)%nat ->
  i = Z.of_nat (length ipre) -> j = Z.of_nat (length opre) -> n = Z.of_nat (length (ipre ++ rfc_base64 l)) -> m = Z.of_nat (length opre + length l) ->
  decode_loop fuel (ipre ++ rfc_base64 l) n m i j (opre ++ obuf) = Some (opre ++ l ++ drop (length l) obuf).
Proof.
  assert (B0 : byte 0) by (unfold byte; lia). assert (Hz : forall x k, 0 < k -> x + 0 / k = x) by (intros; rewrite Z.div_0_l; lia).
  induction l as [|a|a b|a b c l IH] using list_ind3; intros ipre fuel opre obuf i j n m Hb Hfuel Hbuf Hi Hj Hn Hm; rewrite length_app in Hn; destruct fuel as [|fuel]; cbn [length rfc_base64 app] in *; try lia.
  - rewrite decode_stop by lia. done.
  - apply Forall_cons in Hb as [Ba _]. destruct fuel as [|fuel]; [lia|]. destruct obuf as [|y obuf]; [cbn in Hbuf; lia|].
    rewrite (decode_round _ _ _ _ _ _ _ a 0 0); [|lia|done..| | | |]; rewrite ?Hz by lia.
    + rewrite put_here by lia. cbn [mbind option_bind]. rewrite put_none by lia. cbn [mbind option_bind]. rewrite put_none by lia. cbn [mbind option_bind]. by rewrite decode_stop by lia.
    + apply (sextet_at _ _ _ 0); [lia|done|unfold byte in *; lia].
    + apply (sextet_at _ _ _ 1); [lia|done|unfold byte in *; lia].
    + apply (pad_at _ _ _ 2); [lia|done].
    + apply (pad_at _ _ _ 3); [lia|done].
  - apply Forall_cons in Hb as [Ba [Bb _]%Forall_cons]. destruct fuel as [|fuel]; [lia|]. destruct obuf as [|y [|z obuf]]; cbn in Hbuf; try lia.
    rewrite (decode_round _ _ _ _ _ _ _ a b 0); [|lia|done..| | | |]; rewrite ?Hz by lia.
    + rewrite put_here by lia. cbn [mbind option_bind]. change (opre ++ a :: z :: obuf) with (opre ++ [a] ++ z :: obuf). rewrite app_assoc, put_here by (rewrite ?length_app; cbn; lia). cbn [mbind option_bind].
      rewrite put_none by lia. cbn [mbind option_bind]. rewrite decode_stop by lia. by rewrite <- app_assoc.
    + apply (sextet_at _ _ _ 0); [lia|done|unfold byte in *; lia].
    + apply (sextet_at _ _ _ 1); [lia|done|unfold byte in *; lia].
    + apply (sextet_at _ _ _ 2); [lia|done|unfold byte in *; lia].
    + apply (pad_at _ _ _ 3); [lia|done].
  - apply Forall_cons in Hb as [Ba [Bb [Bc Hb]%Forall_cons]%Forall_cons]. destruct obuf as [|y [|z [|w obuf]]]; cbn in Hbuf; try lia.
    rewrite (decode_round _ _ _ _ _ _ _ a b c); [|lia|done..| | | |].
    + rewrite put_here by lia. cbn [mbind option_bind]. change (opre ++ a :: z :: w :: obuf) with (opre ++ [a] ++ z :: w :: obuf). rewrite app_assoc, put_here by (rewrite ?length_app; cbn; lia). cbn [mbind option_bind].
      change (b :: w :: obuf) with ([b] ++ w :: obuf). rewrite app_assoc, put_here by (rewrite ?length_app; cbn; lia). cbn [mbind option_bind]. change (c :: obuf) with ([c] ++ obuf). rewrite app_assoc.
      set (q := [base64_char (a / 4); base64_char (a mod 4 * 16 + b / 16); base64_char (b mod 16 * 4 + c / 64); base64_char (c mod 64)]). change (ipre ++ base64_char (a / 4) :: _) with (ipre ++ q ++ rfc_base64 l). rewrite (app_assoc ipre).
      rewrite (IH (ipre ++ q)); [|done|lia|lia|rewrite !length_app; cbn; lia|rewrite !length_app; cbn; lia|rewrite !length_app; cbn; lia|rewrite !length_app; cbn; lia].
      by rewrite <- !app_assoc.
    + apply (sextet_at _ _ _ 0); [lia|done|unfold byte in *; lia].
    + apply (sextet_at _ _ _ 1); [lia|done|unfold byte in *; lia].
    + apply (sextet_at _ _ _ 2); [lia|done|unfold byte in *; lia].
    + apply (sextet_at _ _ _ 3); [lia|done|unfold byte in *; lia].
Qed.

(** The padding tells the length. *)
Lemma pad_length l : l <> [] -> Forall byte l -> exists pre y z, rfc_base64 l = pre ++ [y; z] /\
  Z.of_nat (length (rfc_base64 l)) / 4 * 3 - (if z =? equals_sign then 1 else 0) - (if y =? equals_sign then 1 else 0) = Z.of_nat (length l).
Proof.
  assert (Hne : forall x, 0 <= x < 64 -> (base64_char x =? equals_sign) = false) by (intros x Hx; apply Z.eqb_neq, char_ok, Hx).
  induction l as [|a|a b|a b c l IH] using list_ind3; intros Hl Hb; [done| | |].
  - by eexists [_; _], _, _.
  - apply Forall_cons in Hb as [Ba [Bb _]%Forall_cons]. eexists [_; _], _, _. split; [done|]. rewrite Hne by (unfold byte in *; lia). done.
  - apply Forall_cons in Hb as [Ba [Bb [Bc Hb]%Forall_cons]%Forall_cons]. unfold byte in Ba, Bb, Bc. destruct (decide (l = [])) as [->|Hl'].
    + eexists [_; _], _, _. split; [done|]. rewrite !Hne by lia. done.
    + destruct (IH Hl' Hb) as (pre & y & z & E & H). exists ([base64_char (a / 4); base64_char (a mod 4 * 16 + b / 16); base64_char (b mod 16 * 4 + c / 64); base64_char (c mod 64)] ++ pre), y, z.
      cbn [rfc_base64]. rewrite E in *. split; [by rewrite app_assoc|]. rewrite !length_app in *. cbn [length] in *. lia.
Qed.

Lemma decode_ok l obuf : l <> [] -> Forall byte l -> (length l <= length obuf)%nat ->
  base64_decode (Some (rfc_base64 l)) (Z.of_nat (length (rfc_base64 l))) (Some obuf) true = Some (Some (Z.of_nat (length l), l ++ drop (length l) obuf)).
Proof.
  intros Hl Hb Hbuf. destruct (pad_length l Hl Hb) as (pre & y & z & E & Hlen). unfold base64_decode. rewrite Z.quot_div_nonneg by lia. set (n := Z.of_nat (length (rfc_base64 l))) in *.
  assert (Hn : n = Z.of_nat (length pre + 2)) by (unfold n; rewrite E, length_app; done).
  assert (load (rfc_base64 l) (n - 1) = Some z) as ->.
  { rewrite E. change [y; z] with ([y] ++ [z]). rewrite app_assoc. apply load_at. rewrite length_app. cbn. lia. }
  assert (load (rfc_base64 l) (n - 2) = Some y) as -> by (rewrite E; apply load_at; lia). cbn [mbind option_bind].
  assert ((if y =? equals_sign then (if z =? equals_sign then n / 4 * 3 - 1 else n / 4 * 3) - 1 else if z =? equals_sign then n / 4 * 3 - 1 else n / 4 * 3) = Z.of_nat (length l)) as ->
    by (destruct (z =? equals_sign), (y =? equals_sign); lia).
  pose proof (decode_loop_ok l [] (S (length (rfc_base64 l))) [] obuf 0 0 n _ Hb ltac:(lia) Hbuf eq_refl eq_refl eq_refl eq_refl) as Ed. cbn [app length Nat.add] in Ed. rewrite Ed. done.
Qed.

(** C38: Encoding is that of RFC 4648 and decoding gives back what was encoded, for every
    non-empty array of bytes whose encoding has a length that is an [int], and output arrays
    that are large enough: both functions stay inside the arrays, store the exact length and leave the rest of the output as it is. *)
Theorem base64_roundtrip (l obuf obuf' : list Z) : l <> [] -> Forall byte l -> 4 * ((Z.of_nat (length l) + 2) / 3) < 2 ^ 31 -> 4 * ((Z.of_nat (length l) + 2) / 3) <= Z.of_nat (length obuf) -> (length l <= length obuf')%nat ->
  exists n out, base64_encode (Some l) (Z.of_nat (length l)) (Some obuf) true = Some (Some (n, out)) /\
    take (Z.to_nat n) out = rfc_base64 l /\ drop (Z.to_nat n) out = drop (Z.to_nat n) obuf /\
    base64_decode (Some (take (Z.to_nat n) out)) n (Some obuf') true = Some (Some (Z.of_nat (length l), l ++ drop (length l) obuf')).
Proof.
  intros Hl Hb Hint Hbuf Hbuf'. destruct (raw_length l) as [Hr1 Hr2]. rewrite <- Hr2 in Hr1. exists (Z.of_nat (length (rfc_base64 l))), (rfc_base64 l ++ drop (length (rfc_base64 l)) obuf).
  rewrite Nat2Z.id, take_app_length, drop_app_length. split_and!; [apply encode_ok; [done|lia|lia]|done|done|by apply decode_ok].
Qed.

Lemma base64_roundtrip_witness : exists n out, base64_encode (Some [102; 111; 111; 98]) 4 (Some (replicate 8 0)) true = Some (Some (n, out)) /\
  take (Z.to_nat n) out = rfc_base64 [102; 111; 111; 98] /\ drop (Z.to_nat n) out = drop (Z.to_nat n) (replicate 8 0) /\
  base64_decode (Some (take (Z.to_nat n) out)) n (Some (replicate 4 0)) true = Some (Some (4, [102; 111; 111; 98])).
Proof. apply (base64_roundtrip [102; 111; 111; 98] (replicate 8 0) (replicate 4 0)); [done|do 4 (constructor; [unfold byte; lia|]); constructor|reflexivity|vm_compute; discriminate|vm_compute; lia]. Defined.

(** Nothing is encoded as nothing, but decoding nothing reads before the array. *)
Example decode_empty : base64_encode (Some []) 0 (Some []) true = Some (Some (0, [])) /\ base64_decode (Some []) 0 (Some []) true = None.
Proof. vm_compute. done. Qed.

(** A string whose length is not a multiple of four is read beyond its end. *)
Example decode_short : base64_decode (Some (chars "Zm9vYg")) 6 (Some (replicate 10 0)) true = None.
Proof. vm_compute. done. Qed.
