(* ===== verification/Crc.v ===== *)
(** * Checksums ([CheckSumUtils.c], [crc.c])

    The checksums of firmware updates and messages, and the polynomial division they
    compute. *)
From Stdlib Require Import Btauto.
From S2P Require Import Prelude KTypes.
Local Open Scope Z_scope.

(** ** [CheckSumUtils.c] *)
Definition crc8_round (crc : Z) : Z := if Z.land crc 0x01 =? 0 then Z.shiftr crc 1 else Z.lxor (Z.shiftr crc 1) 0x8C.
Definition UpdateCRC8 (crcIn byte_ : Z) : Z := Nat.iter 8 crc8_round (Z.lxor crcIn byte_).
Definition CRC8_Init : Z := 0.
Definition CRC8_Update (crc : Z) (src : list Z) : Z := fold_left UpdateCRC8 src crc.
Definition CRC8_Final (crc : Z) : Z := Z.land crc 0xff.

(** The loop ends when the bit above the byte has reached bit 16. *)
Fixpoint crc16_loop (fuel : nat) (crc in_ : Z) : option Z :=
  match fuel with
  | O => None
  | S fuel =>
      let crc := wrap32 (Z.shiftl crc 1) in
      let in_ := wrap32 (Z.shiftl in_ 1) in
      let crc := if Z.land in_ 0x100 =? 0 then crc else wrap32 (crc + 1) in
      let crc := if Z.land crc 0x10000 =? 0 then crc else Z.lxor crc 0x1021 in
      if Z.land in_ 0x10000 =? 0 then crc16_loop fuel crc in_ else Some crc
  end.
Definition UpdateCRC16 (crcIn byte_ : Z) : option Z := crc ← crc16_loop 8 crcIn (Z.lor byte_ 0x100); Some (Z.land crc 0xffff).
Definition CRC16_Init : Z := 0.
Fixpoint CRC16_Update (crc : Z) (src : list Z) : option Z :=
  match src with [] => Some crc | b :: src => crc ← UpdateCRC16 crc b; CRC16_Update crc src end.
Definition CRC16_Final (crc : Z) : option Z := crc ← UpdateCRC16 crc 0; crc ← UpdateCRC16 crc 0; Some (Z.land crc 0xffff).

(** ** [crc.c] *)
Definition CRC16_SEED : Z := 0xFFFF.
Definition POLY16 : Z := 0x1021.
Definition CRC32_SEED : Z := 0xFFFFFFFF.
Definition POLY32 : Z := 0x04C11DB7.

(** [length] counts bits: a byte is taken from the buffer every eighth round. *)
Fixpoint utils_crc16_loop (n : nat) (i : Z) (buf : list Z) (shift data : Z) : option Z :=
  match n with
  | O => Some shift
  | S n =>
      '(data, buf) ← (if i mod 8 =? 0 then match buf with b :: buf => Some (wrap16 (Z.shiftl b 8), buf) | [] => None end else Some (data, buf));
      let val := Z.lxor shift data in
      let shift := wrap16 (Z.shiftl shift 1) in
      let data := wrap16 (Z.shiftl data 1) in
      utils_crc16_loop n (i + 1) buf (if Z.land val 0x8000 =? 0 then shift else Z.lxor shift POLY16) data
  end.
Definition utils_crc16 (buf : list Z) (length : Z) : option Z := utils_crc16_loop (Z.to_nat length) 0 buf CRC16_SEED 0.

Definition crc32_step (crc : Z) : Z := if Z.land crc 0x80000000 =? 0 then wrap32 (Z.shiftl crc 1) else Z.lxor (wrap32 (Z.shiftl crc 1)) POLY32.
Definition utils_crc32 (buf : list Z) : Z := fold_left (fun crc b => Nat.iter 8 crc32_step (Z.lxor crc (wrap32 (Z.shiftl b 24)))) buf CRC32_SEED.

(** ** Division of polynomials

    The remainder of a polynomial, whose coefficients come one after the other, on division
    by [x^w + p]. *)
Definition rem_step (w p s : Z) (b : bool) : Z :=
  let t := Z.lxor (Z.shiftl s 1) (Z.b2z b) in if Z.testbit t w then Z.lxor t (Z.lxor (2 ^ w) p) else t.
Definition remainder (w p s : Z) (l : list bool) : Z := fold_left (rem_step w p) l s.

(** The bits of a message, the highest bit of a byte first. *)
Definition byte_bits (b : Z) : list bool := Z.testbit b <$> [7; 6; 5; 4; 3; 2; 1; 0].
Definition bits (m : list Z) : list bool := m ≫= byte_bits.
Definition zeros (n : nat) : list bool := replicate n false.

Section Remainder.
Context (w p : Z) (w_pos : 0 < w) (p_range : 0 <= p < 2 ^ w) (p_odd : Z.testbit p 0 = true).
Abbreviation step := (rem_step w p).
Abbreviation R := (remainder w p).
Implicit Types (s d : Z) (l : list bool).

Lemma pow_bits i : 0 <= i -> Z.testbit (2 ^ w) i = bool_decide (i = w).
Proof. intros Hi. rewrite Z.pow2_bits_eqb by lia. case_bool_decide; [by apply Z.eqb_eq|apply Z.eqb_neq; lia]. Qed.

Lemma small_bits s i : 0 <= s < 2 ^ w -> w <= i -> Z.testbit s i = false.
Proof. intros Hs Hi. destruct (decide (s = 0)) as [->|]; [apply Z.bits_0|]. apply Z.bits_above_log2; [lia|]. assert (Z.log2 s < w); [apply Z.log2_lt_pow2; lia|lia]. Qed.

Lemma bits_small s : 0 <= s -> (forall i, w <= i -> Z.testbit s i = false) -> s < 2 ^ w.
Proof.
  intros Hs Hb. destruct (Z.lt_ge_cases s (2 ^ w)) as [|Hge]; [done|]. assert (0 < 2 ^ w) by (apply Z.pow_pos_nonneg; lia).
  assert (w <= Z.log2 s) by (apply Z.log2_le_pow2; lia). specialize (Hb (Z.log2 s) H0). rewrite Z.bit_log2 in Hb by lia. done.
Qed.

Lemma shift_nonneg s b : 0 <= s -> 0 <= Z.lxor (Z.shiftl s 1) (Z.b2z b).
Proof. intros Hs. apply Z.lxor_nonneg. rewrite Z.shiftl_nonneg. destruct b; cbn; lia. Qed.

Lemma step_range s b : 0 <= s < 2 ^ w -> 0 <= step s b < 2 ^ w.
Proof.
  intros Hs. pose proof (shift_nonneg s b ltac:(lia)) as Hnn. assert (Hp : 0 <= 2 ^ w) by lia. unfold rem_step. set (t := Z.lxor (Z.shiftl s 1) (Z.b2z b)) in *.
  assert (Ht : forall i, w < i -> Z.testbit t i = false).
  { intros i Hi. unfold t. rewrite Z.lxor_spec, Z.shiftl_spec by lia. rewrite (small_bits s) by lia. rewrite (Z.b2z_bit0 b) || idtac. destruct b; cbn; [rewrite (Z.bits_above_log2 1 i); cbn; lia || done|by rewrite Z.bits_0]. }
  destruct (Z.testbit t w) eqn:E.
  - assert (0 <= Z.lxor t (Z.lxor (2 ^ w) p)) by (rewrite !Z.lxor_nonneg; lia). split; [done|]. apply bits_small; [done|]. intros i Hi. rewrite !Z.lxor_spec, pow_bits, (small_bits p) by lia.
    destruct (decide (i = w)) as [->|]; [by rewrite E, bool_decide_true|]. rewrite bool_decide_false by done. by rewrite Ht by lia.
  - split; [done|]. apply bits_small; [done|]. intros i Hi. destruct (decide (i = w)) as [->|]; [done|apply Ht; lia].
Qed.

Lemma step_xor s s' b b' : step (Z.lxor s s') (xorb b b') = Z.lxor (step s b) (step s' b').
Proof.
  unfold rem_step. assert (Z.lxor (Z.shiftl (Z.lxor s s') 1) (Z.b2z (xorb b b')) = Z.lxor (Z.lxor (Z.shiftl s 1) (Z.b2z b)) (Z.lxor (Z.shiftl s' 1) (Z.b2z b'))) as ->.
  { rewrite Z.shiftl_lxor. assert (Z.b2z (xorb b b') = Z.lxor (Z.b2z b) (Z.b2z b')) as -> by (by destruct b, b'). apply Z.bits_inj'. intros i Hi. rewrite !Z.lxor_spec. by destruct (Z.testbit (Z.shiftl s 1) i), (Z.testbit (Z.shiftl s' 1) i), (Z.testbit (Z.b2z b) i), (Z.testbit (Z.b2z b') i). }
  set (t := Z.lxor (Z.shiftl s 1) (Z.b2z b)). set (t' := Z.lxor (Z.shiftl s' 1) (Z.b2z b')). set (q := Z.lxor (2 ^ w) p). rewrite Z.lxor_spec.
  destruct (Z.testbit t w), (Z.testbit t' w); cbn [xorb]; apply Z.bits_inj'; intros i Hi; rewrite !Z.lxor_spec; by destruct (Z.testbit t i), (Z.testbit t' i), (Z.testbit q i).
Qed.

Lemma step_zero s : 0 <= s -> step s false = 0 -> s = 0.
Proof.
  intros Hs. unfold rem_step. change (Z.b2z false) with 0. rewrite Z.lxor_0_r, Z.shiftl_mul_pow2 by lia. destruct (Z.testbit (s * 2 ^ 1) w); [|lia].
  intros E%(f_equal (fun x => Z.testbit x 0)). exfalso. rewrite !Z.lxor_spec, pow_bits, p_odd, bool_decide_false, Z.bits_0 in E by lia. by rewrite Z.mul_pow2_bits_low in E by lia.
Qed.

Lemma R_range s l : 0 <= s < 2 ^ w -> 0 <= R s l < 2 ^ w.
Proof. revert s. induction l as [|b l IH]; intros s Hs; [done|]. cbn. apply IH, step_range, Hs. Qed.

Lemma R_app s l l' : R s (l ++ l') = R (R s l) l'.
Proof. apply fold_left_app. Qed.

(** The division is linear. *)
Lemma R_xor s s' l l' : length l = length l' -> R (Z.lxor s s') (zip_with xorb l l') = Z.lxor (R s l) (R s' l').
Proof. revert s s' l'. induction l as [|b l IH]; intros s s' [|b' l'] Hl; [done..|]. cbn. rewrite step_xor. apply IH. by injection Hl. Qed.

Lemma xor_same l : zip_with xorb l l = zeros (length l).
Proof. induction l as [|b l IH]; [done|]. cbn. by rewrite IH, xorb_nilpotent. Qed.

Lemma R_same s s' l : Z.lxor (R s l) (R s' l) = R (Z.lxor s s') (zeros (length l)).
Proof. by rewrite <- R_xor, xor_same. Qed.

Lemma R_zeros_nonzero s n : 0 <= s < 2 ^ w -> s <> 0 -> R s (zeros n) <> 0.
Proof.
  revert s. induction n as [|n IH]; intros s Hs Hne; [done|]. cbn. apply IH; [by apply step_range|]. intros E. apply Hne, step_zero; [lia|done].
Qed.

(** Up to [w] coefficients are their own remainder. *)
Lemma R_short l : forall k s, 0 <= s < 2 ^ k -> 0 <= k -> k + Z.of_nat (length l) <= w -> R s l = fold_left (fun x b => 2 * x + Z.b2z b) l s.
Proof.
  induction l as [|b l IH]; intros k s Hs Hk Hl; [done|]. cbn [length] in Hl. cbn [remainder fold_left].
  assert (Et : Z.lxor (Z.shiftl s 1) (Z.b2z b) = 2 * s + Z.b2z b).
  { rewrite Z.shiftl_mul_pow2 by lia. change (2 ^ 1) with 2. rewrite (Z.mul_comm s 2), Z.add_nocarry_lxor; [done|]. apply Z.bits_inj'. intros i Hi. rewrite Z.land_spec, Z.bits_0. destruct (decide (i = 0)) as [->|]; [by rewrite Z.testbit_even_0|].
    destruct b; cbn [Z.b2z]; [|by rewrite Z.bits_0, andb_false_r]. rewrite (Z.bits_above_log2 1 i) by (cbn; lia). apply andb_false_r. }
  assert (Hb : 0 <= 2 * s + Z.b2z b < 2 ^ (k + 1)) by (rewrite Z.pow_add_r by lia; destruct b; cbn; lia).
  assert (step s b = 2 * s + Z.b2z b) as ->.
  { unfold rem_step. rewrite Et. rewrite small_bits; [done| |lia]. split; [lia|]. apply Z.lt_le_trans with (2 ^ (k + 1)); [lia|]. apply Z.pow_le_mono_r; lia. }
  apply (IH (k + 1)); lia.
Qed.

Lemma value_zero l s : 0 <= s -> fold_left (fun x b => 2 * x + Z.b2z b) l s = 0 -> s = 0 /\ l = zeros (length l).
Proof.
  revert s. induction l as [|b l IH]; intros s Hs E; [done|]. cbn [fold_left] in E. apply IH in E as [Hz ->]; [|destruct b; cbn [Z.b2z]; lia]. destruct b; cbn [Z.b2z] in Hz; [lia|]. split; [lia|]. cbn. unfold zeros. by rewrite length_replicate.
Qed.

Lemma xor_zeros u v : length u = length v -> zip_with xorb u v = zeros (length (zip_with xorb u v)) -> u = v.
Proof. revert v. induction u as [|b u IH]; intros [|c v] Hl E; [done..|]. cbn in E. injection E as Eb E. f_equal; [by destruct b, c|]. apply IH; [by injection Hl|done]. Qed.

(** A burst of at most [w] wrong bits changes the remainder. *)
Lemma burst s x u v y : 0 <= s < 2 ^ w -> length u = length v -> Z.of_nat (length u) <= w -> u <> v -> R s (x ++ u ++ y) <> R s (x ++ v ++ y).
Proof.
  intros Hs Hl Hw Hne E. rewrite !R_app in E. assert (Hx : Z.lxor (R (R (R s x) u) y) (R (R (R s x) v) y) = 0) by (rewrite E; apply Z.lxor_nilpotent).
  rewrite R_same, <- (R_xor _ _ u v Hl), Z.lxor_nilpotent in Hx. revert Hx. apply R_zeros_nonzero; [apply R_range; pose proof (Z.pow_pos_nonneg 2 w); lia|].
  rewrite (R_short _ 0) by (rewrite ?length_zip_with; cbn; lia). intros [_ Hz]%value_zero; [|done]. by apply Hne, xor_zeros.
Qed.

(** ** Feeding the coefficients in at the top

    The usual arrangement: a coefficient is added to the highest one of the remainder, as
    if [w] zeros followed. *)
Definition top_step s (b : bool) : Z := if b then Z.lxor (step s false) p else step s false.
Definition top_remainder s l : Z := fold_left top_step l s.

Context (x_w : R 1 (zeros (Z.to_nat w)) = p).

Lemma top_zero l : top_remainder 0 l = R 0 (l ++ zeros (Z.to_nat w)).
Proof.
  induction l as [|b l IH] using rev_ind.
  - assert (Hz : forall n, R 0 (zeros n) = 0) by (induction n as [|n IHn]; [done|]; cbn; assert (step 0 false = 0) as -> by (unfold rem_step; cbn; by rewrite Z.bits_0); done). change (0 = R 0 (zeros (Z.to_nat w))). by rewrite Hz.
  - unfold top_remainder in *. rewrite fold_left_app. cbn [fold_left]. rewrite IH, !R_app. cbn [remainder fold_left]. set (a := R 0 l). set (n := Z.to_nat w) in *.
    assert (step a b = Z.lxor (step a false) (Z.b2z b)) as ->.
    { replace b with (xorb false b) at 1 by (by destruct b). rewrite <- (Z.lxor_0_r a) at 1. rewrite step_xor. f_equal. unfold rem_step. cbn. rewrite (small_bits (Z.b2z b)); [done| |lia]. destruct b; cbn; [|lia]. split; [lia|]. apply (Z.pow_gt_1 2 w); lia. }
    assert (Hc : forall m d, step (R d (zeros m)) false = R (step d false) (zeros m)) by (intros m; induction m as [|m IHm]; intros d; [done|]; cbn; apply IHm).
    change (fold_left step (zeros n) ?d) with (R d (zeros n)). unfold top_step. rewrite Hc. destruct b; cbn [Z.b2z]; [|by rewrite Z.lxor_0_r].
    pose proof (R_same (step a false) 1 (zeros n)) as E. assert (length (zeros n) = n) as Hlen by apply length_replicate. rewrite Hlen, x_w in E. exact E.
Qed.

Lemma top_xor s s' l : top_remainder (Z.lxor s s') l = Z.lxor (top_remainder s l) (R s' (zeros (length l))).
Proof.
  revert s s'. induction l as [|b l IH]; intros s s'; [done|].
  change (top_remainder (top_step (Z.lxor s s') b) l = Z.lxor (top_remainder (top_step s b) l) (R (step s' false) (zeros (length l)))). rewrite <- IH. f_equal. unfold top_step. rewrite (step_xor s s' false false : step (Z.lxor s s') false = _).
  destruct b; [|done]. apply Z.bits_inj'. intros i Hi. rewrite !Z.lxor_spec. by destruct (Z.testbit (step s false) i), (Z.testbit (step s' false) i), (Z.testbit p i).
Qed.

Lemma top_remainder_spec s l : top_remainder s l = Z.lxor (R 0 (l ++ zeros (Z.to_nat w))) (R s (zeros (length l))).
Proof. rewrite <- top_zero, <- top_xor. by rewrite Z.lxor_0_l. Qed.

Lemma top_burst s x u v y : length u = length v -> Z.of_nat (length u) <= w -> u <> v -> top_remainder s (x ++ u ++ y) <> top_remainder s (x ++ v ++ y).
Proof.
  intros Hl Hw Hne E. rewrite !top_remainder_spec in E. assert (length (x ++ u ++ y) = length (x ++ v ++ y)) as El by (rewrite !length_app; lia). rewrite El in E.
  apply (f_equal (fun z => Z.lxor z (R s (zeros (length (x ++ v ++ y)))))) in E. rewrite !Z.lxor_assoc, !Z.lxor_nilpotent, !Z.lxor_0_r in E. revert E. rewrite <- !app_assoc. apply burst; [pose proof (Z.pow_pos_nonneg 2 w); lia|done..].
Qed.
End Remainder.

(** ** The code computes remainders *)
Lemma land_bit x k : 0 <= k -> (Z.land x (2 ^ k) =? 0) = negb (Z.testbit x k).
Proof.
  intros Hk. destruct (Z.testbit x k) eqn:E; cbn.
  - apply Z.eqb_neq. intros Hz%(f_equal (fun y => Z.testbit y k)). rewrite Z.land_spec, E, Z.pow2_bits_true, Z.bits_0 in Hz by done. done.
  - apply Z.eqb_eq, Z.bits_inj'. intros i Hi. rewrite Z.land_spec, Z.bits_0. destruct (decide (i = k)) as [->|]; [by rewrite E|]. rewrite Z.pow2_bits_false by lia. apply andb_false_r.
Qed.

Lemma wrap_bits n x i : 0 <= i < n -> Z.testbit (x mod 2 ^ n) i = Z.testbit x i.
Proof. intros Hi. apply Z.mod_pow2_bits_low. lia. Qed.

Lemma mask_bits n x i : 0 <= n -> 0 <= i -> Z.testbit (Z.land x (Z.ones n)) i = (i <? n) && Z.testbit x i.
Proof. intros Hn Hi. rewrite Z.land_spec. destruct (Z.ltb_spec i n); [rewrite Z.ones_spec_low by lia; by rewrite andb_true_r|rewrite Z.ones_spec_high by lia; by rewrite andb_false_r]. Qed.

Fixpoint low_bits (n : nat) (b : Z) : list bool := match n with O => [] | S n => Z.testbit b (Z.of_nat n) :: low_bits n b end.

Abbreviation R16 := (remainder 16 0x1021).

(** One round: only the low 16 bits matter. *)
Lemma crc16_round crc (b : bool) : 0 <= crc ->
  let c := wrap32 (Z.shiftl crc 1) in let c := if b then wrap32 (c + 1) else c in let c := if Z.testbit c 16 then Z.lxor c 0x1021 else c in
  0 <= c /\ Z.land c 0xffff = rem_step 16 0x1021 (Z.land crc 0xffff) b.
Proof.
  intros Hc c0 c1 c2.
  assert (H1 : c1 = Z.lxor c0 (Z.b2z b)).
  { unfold c1. destruct b; [|by rewrite Z.lxor_0_r]. change (Z.b2z true) with 1. assert (Hr : 0 <= c0 < 2 ^ 32) by (apply Z.mod_pos_bound; lia). assert (He : Z.testbit c0 0 = false) by (unfold c0, wrap32; rewrite wrap_bits, Z.shiftl_spec_low by lia; done).
    assert (c0 + 1 = Z.lxor c0 1) as E.
    { apply Z.add_nocarry_lxor, Z.bits_inj'. intros i Hi. rewrite Z.land_spec, Z.bits_0. destruct (decide (i = 0)) as [->|]; [by rewrite He|]. rewrite (Z.bits_above_log2 1 i) by (cbn; lia). apply andb_false_r. }
    rewrite <- E. unfold wrap32. apply Z.mod_small. split; [lia|]. assert (c0 <> 2 ^ 32 - 1); [|lia]. intros Heq. by rewrite Heq in He. }
  assert (Hnn : 0 <= c1) by (rewrite H1; apply Z.lxor_nonneg; unfold c0, wrap32; pose proof (Z.mod_pos_bound (Z.shiftl crc 1) (2 ^ 32)); destruct b; cbn; lia).
  assert (Hb : forall i, 0 <= i <= 16 -> Z.testbit c1 i = Z.testbit (Z.lxor (Z.shiftl (Z.land crc 0xffff) 1) (Z.b2z b)) i).
  { intros i Hi. rewrite H1, !Z.lxor_spec. f_equal. unfold c0, wrap32. rewrite wrap_bits, !Z.shiftl_spec by lia. destruct (decide (i = 0)) as [->|]; [done|].
    change 0xffff with (Z.ones 16). rewrite mask_bits by lia. destruct (Z.ltb_spec (i - 1) 16); [done|lia]. }
  split; [unfold c2; destruct (Z.testbit c1 16); [apply Z.lxor_nonneg; lia|done]|].
  assert (Hs : 0 <= Z.land crc 0xffff < 2 ^ 16) by (change 0xffff with (Z.ones 16); rewrite Z.land_ones by lia; apply Z.mod_pos_bound; lia).
  pose proof (step_range 16 0x1021 ltac:(lia) ltac:(lia) (Z.land crc 0xffff) b Hs) as Hr. apply Z.bits_inj'. intros i Hi. change 0xffff with (Z.ones 16) at 1. rewrite mask_bits by lia.
  destruct (Z.ltb_spec i 16); cbn [andb]; [|symmetry; apply (small_bits 16); lia].
  unfold c2, rem_step. rewrite Hb by lia. destruct (Z.testbit (Z.lxor (Z.shiftl (Z.land crc 0xffff) 1) (Z.b2z b)) 16); [|apply Hb; lia].
  rewrite (Z.lxor_spec c1), Hb, !Z.lxor_spec by lia. f_equal. rewrite Z.pow2_bits_false by lia. by rewrite xorb_false_l.
Qed.

Lemma crc16_loop_ok n : forall k crc b, (n + k = 8)%nat -> (0 < n)%nat -> byte b -> 0 <= crc ->
  exists c, crc16_loop n crc (Z.shiftl (Z.lor b 0x100) (Z.of_nat k)) = Some c /\ Z.land c 0xffff = R16 (Z.land crc 0xffff) (low_bits n b).
Proof.
  induction n as [|n IH]; intros k crc b Hnk Hn Hb Hc; [lia|]. cbn [crc16_loop low_bits]. set (in0 := Z.lor b 0x100).
  assert (Hin : 0 <= in0 < 2 ^ 9). { unfold in0. split; [apply Z.lor_nonneg; unfold byte in Hb; lia|]. apply (bits_small 9); [lia|apply Z.lor_nonneg; unfold byte in Hb; lia|]. intros i Hi. rewrite Z.lor_spec, (small_bits 8) by (unfold byte in Hb; lia). apply Z.bits_above_log2; cbn; lia. }
  assert (wrap32 (Z.shiftl (Z.shiftl in0 (Z.of_nat k)) 1) = Z.shiftl in0 (Z.of_nat (S k))) as ->.
  { rewrite Z.shiftl_shiftl by lia. replace (Z.of_nat k + 1) with (Z.of_nat (S k)) by lia. unfold wrap32. apply Z.mod_small. rewrite Z.shiftl_mul_pow2 by lia. split; [apply Z.mul_nonneg_nonneg; [lia|apply Z.pow_nonneg; lia]|].
    apply Z.lt_le_trans with (2 ^ 9 * 2 ^ Z.of_nat (S k)); [apply Z.mul_lt_mono_pos_r; [apply Z.pow_pos_nonneg; lia|lia]|]. rewrite <- Z.pow_add_r by lia. apply Z.pow_le_mono_r; lia. }
  assert (H8 : Z.testbit (Z.shiftl in0 (Z.of_nat (S k))) 8 = Z.testbit b (Z.of_nat n)).
  { rewrite Z.shiftl_spec by lia. replace (8 - Z.of_nat (S k)) with (Z.of_nat n) by lia. unfold in0. rewrite Z.lor_spec. change 0x100 with (2 ^ 8). rewrite Z.pow2_bits_false by lia. apply orb_false_r. }
  assert (H16 : Z.testbit (Z.shiftl in0 (Z.of_nat (S k))) 16 = bool_decide (n = 0%nat)).
  { rewrite Z.shiftl_spec by lia. case_bool_decide as E; [subst n; replace (16 - Z.of_nat (S k)) with 8 by lia; unfold in0; rewrite Z.lor_spec; apply orb_true_r|]. apply (small_bits 9); lia. }
  change 0x10000 with (2 ^ 16). rewrite !(land_bit _ 16) by lia. change 0x100 with (2 ^ 8). rewrite land_bit, H8, H16 by lia.
  destruct (crc16_round crc (Z.testbit b (Z.of_nat n)) Hc) as [Hnn E]. cbv zeta in Hnn, E.
  set (c1 := if negb (Z.testbit b (Z.of_nat n)) then _ else _). assert (c1 = (if Z.testbit b (Z.of_nat n) then wrap32 (wrap32 (Z.shiftl crc 1) + 1) else wrap32 (Z.shiftl crc 1))) as Ec1 by (unfold c1; by destruct (Z.testbit b (Z.of_nat n))).
  rewrite <- Ec1 in Hnn, E. set (c2 := if negb (Z.testbit c1 16) then _ else _). assert (c2 = (if Z.testbit c1 16 then Z.lxor c1 0x1021 else c1)) as Ec2 by (unfold c2; by destruct (Z.testbit c1 16)). rewrite <- Ec2 in Hnn, E.
  cbn [remainder fold_left]. change (fold_left (rem_step 16 0x1021) ?l ?s) with (R16 s l). rewrite <- E. case_bool_decide; cbn [negb]; [subst n; by exists c2|].
  apply (IH (S k)); [lia|lia|done|done].
Qed.

Lemma mask16 x : 0 <= x < 2 ^ 16 -> Z.land x 0xffff = x.
Proof. intros Hx. change 0xffff with (Z.ones 16). rewrite Z.land_ones by lia. by apply Z.mod_small. Qed.

Lemma update16 crc b : 0 <= crc < 2 ^ 16 -> byte b -> UpdateCRC16 crc b = Some (R16 crc (byte_bits b)).
Proof.
  intros Hc Hb. unfold UpdateCRC16. destruct (crc16_loop_ok 8 0 crc b eq_refl ltac:(lia) Hb ltac:(lia)) as (c & E & Hr). change (Z.of_nat 0) with 0 in E. rewrite Z.shiftl_0_r in E. rewrite E. cbn [mbind option_bind]. by rewrite Hr, mask16.
Qed.

Lemma r16_range s l : 0 <= s < 2 ^ 16 -> 0 <= R16 s l < 2 ^ 16.
Proof. apply R_range; lia. Qed.

Lemma update16_all m : forall crc, 0 <= crc < 2 ^ 16 -> Forall byte m -> CRC16_Update crc m = Some (R16 crc (bits m)).
Proof.
  induction m as [|b m IH]; intros crc Hc Hm; [done|]. apply Forall_cons in Hm as [Hb Hm]. cbn [CRC16_Update]. rewrite update16 by done. cbn [mbind option_bind]. rewrite IH by (by try apply r16_range). change (bits (b :: m)) with (byte_bits b ++ bits m). by rewrite R_app.
Qed.

(** A checksum over a message that comes in parts. *)
Definition crc16 (parts : list (list Z)) : option Z := crc ← foldl (fun crc part => crc ← crc; CRC16_Update crc part) (Some CRC16_Init) parts; CRC16_Final crc.

Lemma parts16 parts : forall crc, 0 <= crc < 2 ^ 16 -> Forall (Forall byte) parts -> foldl (fun crc part => crc ← crc; CRC16_Update crc part) (Some crc) parts = Some (R16 crc (bits (concat parts))).
Proof.
  induction parts as [|part parts IH]; intros crc Hc Hp; [done|]. apply Forall_cons in Hp as [Hb Hp]. cbn [foldl concat]. cbn [mbind option_bind]. rewrite update16_all by done. rewrite IH by (by try apply r16_range).
  unfold bits. by rewrite bind_app, R_app.
Qed.

Lemma final16 crc : 0 <= crc < 2 ^ 16 -> CRC16_Final crc = Some (R16 crc (zeros 16)).
Proof.
  intros Hc. assert (B0 : byte 0) by (unfold byte; lia). unfold CRC16_Final. rewrite (update16 crc 0 Hc B0), some_bind, (update16 _ 0 (r16_range crc _ Hc) B0), some_bind.
  rewrite mask16 by (apply r16_range, r16_range, Hc). rewrite <- R_app. assert (E : byte_bits 0 ++ byte_bits 0 = zeros 16) by (by vm_compute). by rewrite E.
Qed.

Lemma crc16_ok parts : Forall (Forall byte) parts -> crc16 parts = Some (R16 0 (bits (concat parts) ++ zeros 16)).
Proof.
  intros Hp. unfold crc16, CRC16_Init. rewrite parts16 by (done || lia). cbn [mbind option_bind]. rewrite final16 by (apply r16_range; lia). by rewrite R_app.
Qed.

(** ** What the checksum of 16 bits detects *)
(** The parity of the remainder is that of the message. *)
Definition parity16 (s : Z) : bool := foldr (fun i p => xorb (Z.testbit s i) p) false [0; 1; 2; 3; 4; 5; 6; 7; 8; 9; 10; 11; 12; 13; 14; 15].
Definition parity (l : list bool) : bool := foldr xorb false l.

Lemma parity16_xor x y : parity16 (Z.lxor x y) = xorb (parity16 x) (parity16 y).
Proof.
  unfold parity16. induction [0; 1; 2; 3; 4; 5; 6; 7; 8; 9; 10; 11; 12; 13; 14; 15] as [|i l IH]; [done|]. cbn [foldr]. rewrite IH, Z.lxor_spec.
  by destruct (Z.testbit x i), (Z.testbit y i), (foldr (fun i p => xorb (Z.testbit x i) p) false l), (foldr (fun i p => xorb (Z.testbit y i) p) false l).
Qed.

Lemma parity16_shift s : parity16 (Z.shiftl s 1) = xorb (parity16 s) (Z.testbit s 15).
Proof.
  assert (H : forall i j, j = i - 1 -> 0 <= i -> Z.testbit (Z.shiftl s 1) i = Z.testbit s j) by (intros i j -> Hi; by apply Z.shiftl_spec).
  unfold parity16. cbn [foldr]. rewrite (H 0 (-1)), (H 1 0), (H 2 1), (H 3 2), (H 4 3), (H 5 4), (H 6 5), (H 7 6), (H 8 7), (H 9 8), (H 10 9), (H 11 10), (H 12 11), (H 13 12), (H 14 13), (H 15 14) by lia.
  rewrite Z.testbit_neg_r by lia. btauto.
Qed.

Lemma parity_step s b : 0 <= s < 2 ^ 16 -> parity16 (rem_step 16 0x1021 s b) = xorb b (parity16 s).
Proof.
  intros Hs. unfold rem_step. assert (Hb : parity16 (Z.b2z b) = b /\ Z.testbit (Z.b2z b) 16 = false) by (by destruct b). destruct Hb as [Hb Hb16].
  assert (Hq : parity16 (Z.lxor (2 ^ 16) 0x1021) = true) by (by vm_compute). rewrite Z.lxor_spec, Z.shiftl_spec, Hb16 by lia. change (16 - 1) with 15.
  destruct (Z.testbit s 15) eqn:E; cbn [xorb]; rewrite ?(parity16_xor _ (Z.lxor (2 ^ 16) 0x1021)), ?Hq, parity16_xor, parity16_shift, Hb, E; by destruct b, (parity16 s).
Qed.

Lemma parity_R l s : 0 <= s < 2 ^ 16 -> parity16 (R16 s l) = xorb (parity l) (parity16 s).
Proof.
  revert s. induction l as [|b l IH]; intros s Hs; [change (parity16 s = xorb false (parity16 s)); by destruct (parity16 s)|]. cbn [remainder fold_left]. change (fold_left (rem_step 16 0x1021) l ?d) with (R16 d l).
  rewrite IH by (apply step_range; lia). rewrite parity_step by done. cbn [parity foldr]. fold (parity l). by destruct b, (parity l), (parity16 s).
Qed.

(** One wrong bit takes 32767 further bits to be hidden by another one. *)
Fixpoint never_one (n : nat) (d : Z) : bool := match n with O => true | S n => let d := rem_step 16 0x1021 d false in negb (d =? 1) && never_one n d end.

Lemma never_one_spec n d k : never_one n d = true -> (k < n)%nat -> R16 d (zeros (S k)) <> 1.
Proof.
  revert d k. induction n as [|n IH]; intros d k Hn Hk; [lia|]. cbn [never_one] in Hn. apply andb_prop in Hn as [H1 Hn]. cbn [zeros replicate remainder fold_left].
  destruct k as [|k]; [intros E; cbn in E; by rewrite E in H1|]. apply (IH (rem_step 16 0x1021 d false) k); [done|lia].
Qed.

Lemma order16 k : 0 < Z.of_nat k < 32767 -> R16 1 (zeros k) <> 1.
Proof. intros Hk. destruct k as [|k]; [lia|]. apply (never_one_spec (Z.to_nat 32766)); [by vm_compute|lia]. Qed.

(** The places where two messages differ. *)
Definition differences (m m' : list bool) : nat := length (filter (fun b => b = true) (zip_with xorb m m')).

Lemma parity_differences m m' : length m = length m' -> xorb (parity m) (parity m') = Nat.odd (differences m m').
Proof.
  unfold differences. revert m'. induction m as [|b m IH]; intros [|b' m'] Hl; [done..|]. cbn [parity foldr zip_with]. fold (parity m) (parity m'). rewrite filter_cons. injection Hl as Hl. specialize (IH m' Hl).
  destruct b, b'; cbn [xorb]; case_decide; try done; cbn [length]; rewrite ?Nat.odd_succ, <- ?Nat.negb_odd, <- IH; by destruct (parity m), (parity m').
Qed.

(** C39: The checksum of firmware updates, computed over the parts in which a message arrives,
    does not depend on how it is divided, and differs for two messages of the same length if
    they differ within 16 consecutive bits, or in an odd number of bits, or in exactly two
    bits that are less than 32767 bits apart. *)
Theorem crc16_detects (parts parts' : list (list Z)) : Forall (Forall byte) parts -> Forall (Forall byte) parts' ->
  let m := bits (concat parts) in let m' := bits (concat parts') in
  (exists c, crc16 parts = Some c) /\ (m = m' -> crc16 parts = crc16 parts') /\
  (forall x u v y, m = x ++ u ++ y -> m' = x ++ v ++ y -> length u = length v -> (length u <= 16)%nat -> u <> v -> crc16 parts <> crc16 parts') /\
  (length m = length m' -> Nat.odd (differences m m') = true -> crc16 parts <> crc16 parts') /\
  (forall x a y b z, m = x ++ [a] ++ y ++ [b] ++ z -> m' = x ++ [negb a] ++ y ++ [negb b] ++ z -> Z.of_nat (length y) < 32766 -> crc16 parts <> crc16 parts').
Proof.
  intros Hp Hp' m m'. rewrite !crc16_ok by done. fold m m'. assert (H0 : 0 <= 0 < 2 ^ 16) by lia.
  assert (Hw : 0 < 16 /\ 0 <= 0x1021 < 2 ^ 16 /\ Z.testbit 0x1021 0 = true) by (split_and!; [lia|lia|lia|done]). destruct Hw as (W1 & W2 & W3).
  split; [by eexists|]. split; [by intros ->|]. split; [|split].
  - intros x u v y -> -> Hl Hu Hne [= E]. revert E. rewrite <- !app_assoc. apply burst; [done..|lia|done].
  - intros Hl Hodd [= E]. apply (f_equal parity16) in E. rewrite !R_app, !parity_R in E by (done || apply R_range; done). rewrite <- (parity_differences _ _ Hl) in Hodd. by destruct (parity m), (parity m').
  - intros x a y b z -> -> Hy E%(inj Some). rewrite <- !app_assoc, !R_app in E.
    set (q := R16 0 x) in E. assert (E' : Z.lxor (R16 (R16 (R16 (R16 (R16 q [a]) y) [b]) z) (zeros 16)) (R16 (R16 (R16 (R16 (R16 q [negb a]) y) [negb b]) z) (zeros 16)) = 0) by (rewrite E; apply Z.lxor_nilpotent).
    rewrite !R_same in E'. revert E'. assert (Hone : forall s s' c, Z.lxor (R16 s [c]) (R16 s' [negb c]) = Z.lxor (rem_step 16 0x1021 (Z.lxor s s') false) 1).
    { intros s s' c. rewrite <- (R_xor _ _ s s' [c] [negb c]) by done. cbn [zip_with]. replace (xorb c (negb c)) with (xorb false true) by (by destruct c). cbn [remainder fold_left]. rewrite <- (Z.lxor_0_r (Z.lxor s s')) at 1. by rewrite step_xor. }
    rewrite Hone, R_same, Hone, Z.lxor_nilpotent. set (d := R16 (Z.lxor (rem_step 16 0x1021 0 false) 1) (zeros (length y))).
    assert (Hd : rem_step 16 0x1021 d false = R16 1 (zeros (S (length y)))).
    { unfold d. assert (Z.lxor (rem_step 16 0x1021 0 false) 1 = 1) as -> by (by vm_compute). replace (S (length y)) with (length y + 1)%nat by lia. unfold zeros. rewrite replicate_add, R_app. done. }
    assert (Hr : 0 <= rem_step 16 0x1021 d false < 2 ^ 16) by (rewrite Hd; apply R_range; lia || done).
    assert (Hx : 0 <= Z.lxor (rem_step 16 0x1021 d false) 1 < 2 ^ 16).
    { assert (0 <= Z.lxor (rem_step 16 0x1021 d false) 1) by (apply Z.lxor_nonneg; lia). split; [done|]. apply (bits_small 16); [lia|done|]. intros i Hi. rewrite Z.lxor_spec, (small_bits 16 W1 _ _ Hr Hi). apply (small_bits 16); lia. }
    apply R_zeros_nonzero; [done..| |].
    + apply R_range; done.
    + apply R_zeros_nonzero; [done..|]. rewrite Z.lxor_eq_0_iff, Hd. apply order16. lia.
Qed.

(** ** The other checksums *)
(** A step without a coefficient: the highest one is divided out. *)
Lemma step_false w p s : 0 < w -> 0 <= s < 2 ^ w -> 0 <= p < 2 ^ w -> rem_step w p s false = if Z.testbit s (w - 1) then Z.lxor (Z.shiftl s 1 mod 2 ^ w) p else Z.shiftl s 1 mod 2 ^ w.
Proof.
  intros Hw Hs Hp. pose proof (step_range w p Hw Hp s false Hs) as Hr. apply Z.bits_inj'. intros i Hi.
  assert (Hhi : w <= i -> Z.testbit (if Z.testbit s (w - 1) then Z.lxor (Z.shiftl s 1 mod 2 ^ w) p else Z.shiftl s 1 mod 2 ^ w) i = false).
  { intros Hwi. destruct (Z.testbit s (w - 1)); [rewrite Z.lxor_spec, (small_bits w Hw p) by done|]; by rewrite Z.mod_pow2_bits_high by lia. }
  destruct (Z.lt_ge_cases i w) as [Hlt|Hge]; [|rewrite Hhi by lia; by apply (small_bits w)].
  unfold rem_step. change (Z.b2z false) with 0. rewrite Z.lxor_0_r, (Z.shiftl_spec s 1 w) by lia. destruct (Z.testbit s (w - 1)); rewrite ?Z.lxor_spec, ?wrap_bits by lia; [|done]. rewrite pow_bits, bool_decide_false by lia. by rewrite xorb_false_l.
Qed.

Abbreviation top32 := (top_remainder 32 POLY32).

Lemma crc32_iter n s : 0 <= s < 2 ^ 32 -> Nat.iter n crc32_step s = remainder 32 POLY32 s (zeros n).
Proof.
  intros Hs. assert (Hstep : forall c, 0 <= c < 2 ^ 32 -> crc32_step c = rem_step 32 POLY32 c false).
  { intros c Hc. rewrite step_false by (unfold POLY32; lia). unfold crc32_step. change 0x80000000 with (2 ^ 31). rewrite land_bit by lia. change (32 - 1) with 31. unfold wrap32. by destruct (Z.testbit c 31). }
  induction n as [|n IH]; [done|]. cbn [Nat.iter nat_rect]. change (nat_rect _ s (fun _ => crc32_step) n) with (Nat.iter n crc32_step s). rewrite IH, Hstep by (apply R_range; unfold POLY32; lia).
  unfold zeros. rewrite <- Nat.add_1_r, replicate_add, R_app. done.
Qed.

Lemma byte32 s b : 0 <= s < 2 ^ 32 -> byte b -> Nat.iter 8 crc32_step (Z.lxor s (wrap32 (Z.shiftl b 24))) = top32 s (byte_bits b).
Proof.
  intros Hs Hb. assert (Hall : Forall (fun k => let b := Z.of_nat k in remainder 32 POLY32 (wrap32 (Z.shiftl b 24)) (zeros 8) = top32 0 (byte_bits b)) (seq 0 256)) by (apply (bool_decide_unpack _); by vm_compute).
  rewrite Forall_forall in Hall. specialize (Hall (Z.to_nat b)). cbv zeta in Hall. rewrite Z2Nat.id in Hall by (unfold byte in Hb; lia). specialize (Hall ltac:(apply elem_of_seq; unfold byte in Hb; lia)).
  assert (Hr : 0 <= wrap32 (Z.shiftl b 24) < 2 ^ 32) by (apply Z.mod_pos_bound; lia).
  rewrite crc32_iter; cycle 1.
  { assert (0 <= Z.lxor s (wrap32 (Z.shiftl b 24))) by (apply Z.lxor_nonneg; lia). split; [done|]. apply (bits_small 32); [lia|done|]. intros i Hi. rewrite Z.lxor_spec, !(small_bits 32) by (lia || done). done. }
  assert (Hz : zeros 8 = zip_with xorb (zeros 8) (zeros 8)) by done. rewrite Hz, R_xor by done. rewrite Hall. rewrite <- (Z.lxor_0_l s) at 2. rewrite top_xor by (lia || done). rewrite Z.lxor_comm. done.
Qed.

Lemma x_w32 : remainder 32 POLY32 1 (zeros (Z.to_nat 32)) = POLY32.
Proof. by vm_compute. Qed.

Lemma crc32_ok m : Forall byte m -> utils_crc32 m = top32 CRC32_SEED (bits m).
Proof.
  unfold utils_crc32. assert (Hseed : 0 <= CRC32_SEED < 2 ^ 32) by (unfold CRC32_SEED; lia). revert Hseed. generalize CRC32_SEED as s. induction m as [|b m IH]; intros s Hs Hm; [done|]. apply Forall_cons in Hm as [Hb Hm]. cbn [fold_left].
  rewrite byte32 by done. change (bits (b :: m)) with (byte_bits b ++ bits m). unfold top_remainder. rewrite fold_left_app. apply IH; [|done].
  change (fold_left (top_step 32 POLY32) (byte_bits b) s) with (top32 s (byte_bits b)). rewrite (top_remainder_spec 32 POLY32) by (exact x_w32 || (unfold POLY32; lia)).
  assert (H1 := R_range 32 POLY32 ltac:(lia) ltac:(unfold POLY32; lia) 0 (byte_bits b ++ zeros (Z.to_nat 32)) ltac:(lia)). assert (H2 := R_range 32 POLY32 ltac:(lia) ltac:(unfold POLY32; lia) s (zeros (length (byte_bits b))) Hs).
  assert (0 <= Z.lxor (remainder 32 POLY32 0 (byte_bits b ++ zeros (Z.to_nat 32))) (remainder 32 POLY32 s (zeros (length (byte_bits b))))) by (apply Z.lxor_nonneg; lia).
  split; [done|]. apply (bits_small 32); [lia|done|]. intros i Hi. rewrite Z.lxor_spec, !(small_bits 32) by (lia || done). done.
Qed.

(** Bursts of up to 32 bits change the checksum of 32 bits. *)
Lemma crc32_detects_bursts m m' x u v y : Forall byte m -> Forall byte m' -> bits m = x ++ u ++ y -> bits m' = x ++ v ++ y -> length u = length v -> (length u <= 32)%nat -> u <> v -> utils_crc32 m <> utils_crc32 m'.
Proof. intros Hm Hm' E E' Hl Hu Hne. rewrite !crc32_ok, E, E' by done. apply top_burst; [lia|unfold POLY32; lia|done|exact x_w32|done|lia|done]. Qed.

(** The checksum of 8 bits takes the lowest bit first and is mirrored itself. *)
Definition mirrored (b : Z) : Z := remainder 8 0x31 0 (rev (byte_bits b)).
Definition low_first (m : list Z) : list bool := m ≫= (fun b => rev (byte_bits b)).

Lemma byte_bits_xor x y : byte_bits (Z.lxor x y) = zip_with xorb (byte_bits x) (byte_bits y).
Proof. unfold byte_bits. cbn [fmap list_fmap zip_with]. by rewrite !Z.lxor_spec. Qed.

Lemma mirrored_xor x y : mirrored (Z.lxor x y) = Z.lxor (mirrored x) (mirrored y).
Proof. unfold mirrored. rewrite byte_bits_xor. rewrite <- R_xor by done. rewrite Z.lxor_0_l. done. Qed.

Lemma crc8_table : Forall (fun k => mirrored (Nat.iter 8 crc8_round (Z.of_nat k)) = remainder 8 0x31 (mirrored (Z.of_nat k)) (zeros 8) /\
  remainder 8 0x31 (mirrored (Z.of_nat k)) (zeros 8) = top_remainder 8 0x31 0 (rev (byte_bits (Z.of_nat k))) /\ 0 <= Nat.iter 8 crc8_round (Z.of_nat k) < 256) (seq 0 256).
Proof. apply (bool_decide_unpack _). by vm_compute. Qed.

Lemma byte_xor x y : byte x -> byte y -> byte (Z.lxor x y).
Proof.
  unfold byte. intros Hx Hy. assert (0 <= Z.lxor x y) by (apply Z.lxor_nonneg; lia). split; [done|]. apply (bits_small 8); [lia|done|]. intros i Hi. rewrite Z.lxor_spec, !(small_bits 8) by lia. done.
Qed.

Lemma update8 c b : byte c -> byte b -> byte (UpdateCRC8 c b) /\ mirrored (UpdateCRC8 c b) = top_remainder 8 0x31 (mirrored c) (rev (byte_bits b)).
Proof.
  intros Hc Hb. pose proof crc8_table as T. rewrite Forall_forall in T. assert (Hx := byte_xor c b Hc Hb). unfold UpdateCRC8.
  destruct (T (Z.to_nat (Z.lxor c b))) as (T1 & _ & T3); [apply elem_of_seq; unfold byte in Hx; lia|]. destruct (T (Z.to_nat b)) as (_ & T2 & _); [apply elem_of_seq; unfold byte in Hb; lia|].
  rewrite Z2Nat.id in T1, T3 by (unfold byte in Hx; lia). rewrite Z2Nat.id in T2 by (unfold byte in Hb; lia). split; [exact T3|].
  rewrite T1, mirrored_xor. assert (Hz : zeros 8 = zip_with xorb (zeros 8) (zeros 8)) by done. rewrite Hz, R_xor by done. rewrite T2, Z.lxor_comm. rewrite <- (Z.lxor_0_l (mirrored c)) at 2. by rewrite top_xor by (lia || done).
Qed.

Lemma top_nil w p s : top_remainder w p s [] = s.
Proof. done. Qed.

Lemma crc8_ok m : forall c, byte c -> Forall byte m -> byte (CRC8_Update c m) /\ mirrored (CRC8_Update c m) = top_remainder 8 0x31 (mirrored c) (low_first m).
Proof.
  induction m as [|b m IH]; intros c Hc Hm; [split; [done|]; change (low_first []) with (@nil bool); by rewrite top_nil|]. apply Forall_cons in Hm as [Hb Hm]. destruct (update8 c b Hc Hb) as [H1 H2]. cbn [CRC8_Update fold_left]. change (fold_left UpdateCRC8 m ?d) with (CRC8_Update d m).
  destruct (IH _ H1 Hm) as [H3 H4]. split; [done|]. rewrite H4, H2. change (low_first (b :: m)) with (rev (byte_bits b) ++ low_first m). unfold top_remainder. by rewrite fold_left_app.
Qed.

Lemma crc8_detects_bursts m m' x u v y : Forall byte m -> Forall byte m' -> low_first m = x ++ u ++ y -> low_first m' = x ++ v ++ y -> length u = length v -> (length u <= 8)%nat -> u <> v ->
  CRC8_Final (CRC8_Update CRC8_Init m) <> CRC8_Final (CRC8_Update CRC8_Init m').
Proof.
  intros Hm Hm' E E' Hl Hu Hne Heq. assert (H0 : byte CRC8_Init) by (unfold byte, CRC8_Init; lia). destruct (crc8_ok m _ H0 Hm) as [H1 H2], (crc8_ok m' _ H0 Hm') as [H3 H4].
  unfold CRC8_Final in Heq. change 0xff with (Z.ones 8) in Heq. rewrite !Z.land_ones, !Z.mod_small in Heq by (lia || done). rewrite Heq, H4, E, E' in H2. symmetry in H2. revert H2. apply top_burst; [lia|lia|done|by vm_compute|done|lia|done].
Qed.

(** The other checksum of 16 bits, over the given number of bits. *)
Abbreviation top16 := (top_remainder 16 POLY16).

Lemma top16_step s (b : bool) : 0 <= s < 2 ^ 16 -> (if xorb (Z.testbit s 15) b then Z.lxor (wrap16 (Z.shiftl s 1)) POLY16 else wrap16 (Z.shiftl s 1)) = top_step 16 POLY16 s b.
Proof.
  intros Hs. unfold top_step. rewrite step_false by (unfold POLY16; lia). change (16 - 1) with 15. unfold wrap16. destruct (Z.testbit s 15), b; cbn [xorb]; [|done..]. by rewrite Z.lxor_assoc, Z.lxor_nilpotent, Z.lxor_0_r.
Qed.

Lemma top16_range s b : 0 <= s < 2 ^ 16 -> 0 <= top_step 16 POLY16 s b < 2 ^ 16.
Proof.
  intros Hs. pose proof (step_range 16 POLY16 ltac:(lia) ltac:(unfold POLY16; lia) s false Hs) as Hr. unfold top_step. destruct b; [|done]. assert (0 <= Z.lxor (rem_step 16 POLY16 s false) POLY16) by (apply Z.lxor_nonneg; split; intros _; [unfold POLY16; lia|lia]).
  split; [done|]. apply (bits_small 16); [lia|done|]. intros i Hi. rewrite Z.lxor_spec, (small_bits 16 ltac:(lia) _ i Hr Hi). apply (small_bits 16); [lia|unfold POLY16; lia|lia].
Qed.

(** [r] bits of the current byte are left. *)
Lemma utils16_loop n : forall i r b buf shift, (r <= 7)%nat -> i mod 8 = (8 - Z.of_nat r) mod 8 -> byte b -> Forall byte buf -> 0 <= shift < 2 ^ 16 -> (n <= r + 8 * length buf)%nat ->
  utils_crc16_loop n i buf shift (wrap16 (Z.shiftl b (16 - Z.of_nat r))) = Some (top16 shift (take n (low_bits r b ++ bits buf))).
Proof.
  induction n as [|n IH]; intros i r b buf shift Hr Hi Hb Hbuf Hs Hn; [done|].
  assert (Hstep : forall r b buf, (r <= 7)%nat -> (i + 1) mod 8 = (8 - Z.of_nat r) mod 8 -> byte b -> Forall byte buf -> (n <= r + 8 * length buf)%nat ->
    (let data := wrap16 (Z.shiftl b (16 - Z.of_nat (S r))) in let val := Z.lxor shift data in let shift := wrap16 (Z.shiftl shift 1) in
     utils_crc16_loop n (i + 1) buf (if Z.land val 0x8000 =? 0 then shift else Z.lxor shift POLY16) (wrap16 (Z.shiftl data 1))) = Some (top16 shift (take (S n) (low_bits (S r) b ++ bits buf)))).
  { clear r b buf Hr Hi Hb Hbuf Hn. intros r b buf Hr Hi Hb Hbuf Hn. cbv zeta. change 0x8000 with (2 ^ 15). rewrite land_bit, Z.lxor_spec by lia. unfold wrap16 at 1. rewrite wrap_bits, Z.shiftl_spec by lia. replace (15 - (16 - Z.of_nat (S r))) with (Z.of_nat r) by lia.
    replace (if negb (xorb (Z.testbit shift 15) (Z.testbit b (Z.of_nat r))) then wrap16 (Z.shiftl shift 1) else Z.lxor (wrap16 (Z.shiftl shift 1)) POLY16) with (top_step 16 POLY16 shift (Z.testbit b (Z.of_nat r))) by (rewrite <- top16_step by done; by destruct (xorb _ _)).
    replace (wrap16 (Z.shiftl (wrap16 (Z.shiftl b (16 - Z.of_nat (S r)))) 1)) with (wrap16 (Z.shiftl b (16 - Z.of_nat r))).
    2:{ apply Z.bits_inj'. intros j Hj. unfold wrap16. destruct (Z.lt_ge_cases j 16); [|by rewrite !Z.mod_pow2_bits_high by lia]. rewrite !wrap_bits, !Z.shiftl_spec by lia. destruct (decide (j = 0)) as [->|]; [rewrite !Z.testbit_neg_r by lia; done|]. rewrite wrap_bits, Z.shiftl_spec by lia. f_equal. lia. }
    rewrite (IH (i + 1) r b buf); [done|done|done|done|done|by apply top16_range|done]. }
  cbn [utils_crc16_loop]. destruct r as [|r].
  - assert (i mod 8 = 0) as -> by (rewrite Hi; done). cbn [Z.eqb]. destruct buf as [|b' buf]; [cbn in Hn; lia|]. apply Forall_cons in Hbuf as [Hb' Hbuf]. cbn [mbind option_bind]. change (low_bits 0 b ++ bits (b' :: buf)) with (low_bits 8 b' ++ bits buf).
    apply (Hstep 7%nat b' buf); [lia| |done|done|cbn in Hn; lia]. rewrite <- Zplus_mod_idemp_l. assert (i mod 8 = 0) as -> by (rewrite Hi; done). done.
  - assert (i mod 8 <> 0) by (rewrite Hi, Z.mod_small by lia; lia). destruct (Z.eqb_spec (i mod 8) 0); [done|]. cbn [mbind option_bind].
    apply (Hstep r b buf); [lia| |done|done|lia]. rewrite <- Zplus_mod_idemp_l, Hi, Zplus_mod_idemp_l. f_equal. lia.
Qed.

Lemma utils_crc16_ok buf n : Forall byte buf -> 0 <= n <= 8 * Z.of_nat (length buf) -> utils_crc16 buf n = Some (top16 CRC16_SEED (take (Z.to_nat n) (bits buf))).
Proof.
  intros Hb Hn. unfold utils_crc16. pose proof (utils16_loop (Z.to_nat n) 0 0 0 buf CRC16_SEED ltac:(lia) eq_refl ltac:(unfold byte; lia) Hb ltac:(unfold CRC16_SEED; lia) ltac:(lia)) as E. exact E.
Qed.

(** ** Executions *)
Module CrcCases.
(** The check values of CRC-16/XMODEM, CRC-8/MAXIM and CRC-32/MPEG-2 for "123456789". *)
Definition check : list Z := [49; 50; 51; 52; 53; 54; 55; 56; 57].
Example check_values : crc16 [check] = Some 0x31C3 /\ CRC8_Final (CRC8_Update CRC8_Init check) = 0xA1 /\ utils_crc32 check = 0x0376E6E7 /\ utils_crc16 check 72 = Some 0x29B1.
Proof. vm_compute. done. Qed.

Lemma crc16_detects_witness : crc16 [[49; 50]; [51]] = crc16 [[49; 50; 51]] /\ crc16 [[49; 50; 51]] <> crc16 [[49; 50; 55]].
Proof.
  assert (H1 : Forall (Forall byte) [[49; 50; 51]]) by (apply (bool_decide_unpack _); by vm_compute). assert (H2 : Forall (Forall byte) [[49; 50; 55]]) by (apply (bool_decide_unpack _); by vm_compute).
  assert (H3 : Forall (Forall byte) [[49; 50]; [51]]) by (apply (bool_decide_unpack _); by vm_compute).
  split.
  - destruct (crc16_detects [[49; 50]; [51]] [[49; 50; 51]] H3 H1) as (_ & Hs & _). by apply Hs.
  - destruct (crc16_detects [[49; 50; 51]] [[49; 50; 55]] H1 H2) as (_ & _ & _ & Ho & _). apply Ho; by vm_compute.
Defined.

(** [utils_crc16] counts its length in bits: with a length in bytes it looks at an eighth of
    the message. *)
Example crc16_counts_bits : utils_crc16 [1; 2; 3; 4; 5; 6; 7; 8] 8 = utils_crc16 [1; 0; 0; 0; 0; 0; 0; 0] 8.
Proof. vm_compute. done. Qed.
End CrcCases.
