(* ===== verification/Md5.v ===== *)
(** * MD5 and its keyed form ([md5.c], [hmac.c], [digest_algorithm.c])

    A message is hashed in portions of any size; the context keeps the state, the number of
    bits in two words and the bytes of an unfinished block. *)
From Stdlib Require Import Ascii String ZifyNat.
From stdpp Require Import strings.
From S2P Require Import Prelude KTypes.
Local Open Scope Z_scope.

Definition S11 : Z := 7.
Definition S12 : Z := 12.
Definition S13 : Z := 17.
Definition S14 : Z := 22.
Definition S21 : Z := 5.
Definition S22 : Z := 9.
Definition S23 : Z := 14.
Definition S24 : Z := 20.
Definition S31 : Z := 4.
Definition S32 : Z := 11.
Definition S33 : Z := 16.
Definition S34 : Z := 23.
Definition S41 : Z := 6.
Definition S42 : Z := 10.
Definition S43 : Z := 15.
Definition S44 : Z := 21.

Definition PADDING : list Z := 0x80 :: replicate 63 0.

(** ** The functions on 32-bit words *)
Definition F (x y z : Z) : Z := Z.lor (Z.land x y) (Z.land (wrap32 (Z.lnot x)) z).
Definition G (x y z : Z) : Z := Z.lor (Z.land x z) (Z.land y (wrap32 (Z.lnot z))).
Definition H (x y z : Z) : Z := Z.lxor (Z.lxor x y) z.
Definition I (x y z : Z) : Z := Z.lxor y (Z.lor x (wrap32 (Z.lnot z))).
Definition ROTATE_LEFT (x n : Z) : Z := Z.lor (wrap32 (Z.shiftl x n)) (Z.shiftr x (32 - n)).

(** [FF], [GG], [HH] and [II], by their function. *)
Definition md5_step (f : Z -> Z -> Z -> Z) (a b c d x s ac : Z) : Z := wrap32 (ROTATE_LEFT (wrap32 (a + wrap32 (f b c d + x + ac))) s + b).

(** The calls of a round in their order: the word, the shift and the constant.  The registers
    move on by one from call to call: [(a, b, c, d)], [(d, a, b, c)], ... *)
Definition round1 : list (Z * Z * Z) :=
  [(0, S11, 0xd76aa478); (1, S12, 0xe8c7b756); (2, S13, 0x242070db); (3, S14, 0xc1bdceee);
   (4, S11, 0xf57c0faf); (5, S12, 0x4787c62a); (6, S13, 0xa8304613); (7, S14, 0xfd469501);
   (8, S11, 0x698098d8); (9, S12, 0x8b44f7af); (10, S13, 0xffff5bb1); (11, S14, 0x895cd7be);
   (12, S11, 0x6b901122); (13, S12, 0xfd987193); (14, S13, 0xa679438e); (15, S14, 0x49b40821)].
Definition round2 : list (Z * Z * Z) :=
  [(1, S21, 0xf61e2562); (6, S22, 0xc040b340); (11, S23, 0x265e5a51); (0, S24, 0xe9b6c7aa);
   (5, S21, 0xd62f105d); (10, S22, 0x2441453); (15, S23, 0xd8a1e681); (4, S24, 0xe7d3fbc8);
   (9, S21, 0x21e1cde6); (14, S22, 0xc33707d6); (3, S23, 0xf4d50d87); (8, S24, 0x455a14ed);
   (13, S21, 0xa9e3e905); (2, S22, 0xfcefa3f8); (7, S23, 0x676f02d9); (12, S24, 0x8d2a4c8a)].
Definition round3 : list (Z * Z * Z) :=
  [(5, S31, 0xfffa3942); (8, S32, 0x8771f681); (11, S33, 0x6d9d6122); (14, S34, 0xfde5380c);
   (1, S31, 0xa4beea44); (4, S32, 0x4bdecfa9); (7, S33, 0xf6bb4b60); (10, S34, 0xbebfbc70);
   (13, S31, 0x289b7ec6); (0, S32, 0xeaa127fa); (3, S33, 0xd4ef3085); (6, S34, 0x4881d05);
   (9, S31, 0xd9d4d039); (12, S32, 0xe6db99e5); (15, S33, 0x1fa27cf8); (2, S34, 0xc4ac5665)].
Definition round4 : list (Z * Z * Z) :=
  [(0, S41, 0xf4292244); (7, S42, 0x432aff97); (14, S43, 0xab9423a7); (5, S44, 0xfc93a039);
   (12, S41, 0x655b59c3); (3, S42, 0x8f0ccc92); (10, S43, 0xffeff47d); (1, S44, 0x85845dd1);
   (8, S41, 0x6fa87e4f); (15, S42, 0xfe2ce6e0); (6, S43, 0xa3014314); (13, S44, 0x4e0811a1);
   (4, S41, 0xf7537e82); (11, S42, 0xbd3af235); (2, S43, 0x2ad7d2bb); (9, S44, 0xeb86d391)].

(** The state, and the four registers. *)
Definition words4 : Type := Z * Z * Z * Z.

Definition md5_call (f : Z -> Z -> Z -> Z) (x : list Z) (r : words4) (call : Z * Z * Z) : words4 :=
  let '(a, b, c, d) := r in let '(k, s, ac) := call in (d, md5_step f a b c d (nth (Z.to_nat k) x 0) s ac, b, c).

Fixpoint Decode (input : list Z) : list Z :=
  match input with
  | b0 :: b1 :: b2 :: b3 :: input => Z.lor (Z.lor (Z.lor b0 (Z.shiftl b1 8)) (Z.shiftl b2 16)) (Z.shiftl b3 24) :: Decode input
  | _ => []
  end.

Definition Encode (input : list Z) : list Z :=
  input ≫= fun w => [Z.land w 0xff; Z.land (Z.shiftr w 8) 0xff; Z.land (Z.shiftr w 16) 0xff; Z.land (Z.shiftr w 24) 0xff].

Definition MD5Transform (state : words4) (block : list Z) : words4 :=
  let x := Decode (take 64 block) in
  let '(a, b, c, d) := fold_left (md5_call I x) round4 (fold_left (md5_call H x) round3 (fold_left (md5_call G x) round2 (fold_left (md5_call F x) round1 state))) in
  let '(a0, b0, c0, d0) := state in
  (wrap32 (a0 + a), wrap32 (b0 + b), wrap32 (c0 + c), wrap32 (d0 + d)).

(** ** The context *)
Record MD5_CTX := { state : words4; count0 : Z; count1 : Z; buffer : list Z }.
#[export] Instance eta_md5 : Eta MD5_CTX := {| eta_expand := fun c => {| state := state c; count0 := count0 c; count1 := count1 c; buffer := buffer c |} |}.

Definition MD5_Init (ctx : MD5_CTX) : MD5_CTX := ctx <| count0 := 0 |> <| count1 := 0 |> <| state := (0x67452301, 0xefcdab89, 0x98badcfe, 0x10325476) |>.

(** [memcpy(&buf[off], l, ...)] *)
Definition splice (off : nat) (l buf : list Z) : list Z := take off buf ++ l ++ drop (off + length l) buf.

(** Whole blocks from [i] on; the state and the [i] behind them. *)
Fixpoint md5_blocks (fuel : nat) (st : words4) (msg : list Z) (i : nat) : words4 * nat :=
  match fuel with
  | O => (st, i)
  | S fuel => if bool_decide (i + 63 < length msg)%nat then md5_blocks fuel (MD5Transform st (drop i msg)) msg (i + 64) else (st, i)
  end.

Definition MD5_Update (ctx : MD5_CTX) (msg : list Z) : MD5_CTX :=
  let len := Z.of_nat (length msg) in
  let x := Z.to_nat (Z.land (Z.shiftr (count0 ctx) 3) 0x3F) in
  let c0 := wrap32 (count0 ctx + wrap32 (Z.shiftl len 3)) in
  let c1 := if c0 <? wrap32 (Z.shiftl len 3) then wrap32 (count1 ctx + 1) else count1 ctx in
  let c1 := wrap32 (c1 + Z.shiftr len 29) in
  let ctx := ctx <| count0 := c0 |> <| count1 := c1 |> in
  let partLen := (64 - x)%nat in
  if bool_decide (partLen <= length msg)%nat then
    let buf := splice x (take partLen msg) (buffer ctx) in
    let '(st, i) := md5_blocks (length msg) (MD5Transform (state ctx) buf) msg partLen in
    ctx <| state := st |> <| buffer := splice 0 (drop i msg) buf |>
  else ctx <| buffer ::= splice x msg |>.

Definition MD5_Final (ctx : MD5_CTX) : list Z :=
  let bits := Encode [count0 ctx; count1 ctx] in
  let x := Z.to_nat (Z.land (Z.shiftr (count0 ctx) 3) 0x3f) in
  let padLen := if bool_decide (x < 56)%nat then (56 - x)%nat else (120 - x)%nat in
  let ctx := MD5_Update ctx (take padLen PADDING) in
  let ctx := MD5_Update ctx bits in
  let '(a, b, c, d) := state ctx in Encode [a; b; c; d].

(** ** [digest_algorithm.c] and [hmac.c]

    [aos_malloc] gives memory with any contents, or nothing. *)
Definition digest_md5_init (mem : option MD5_CTX) : option MD5_CTX := MD5_Init <$> mem.
Definition digest_md5_update (md5 : MD5_CTX) (data : list Z) : MD5_CTX := MD5_Update md5 data.
Definition digest_md5_final (md5 : MD5_CTX) : list Z := MD5_Final md5.
Definition digest_md5 (mem : option MD5_CTX) (data : list Z) : option (list Z) := (fun ctx => MD5_Final (MD5_Update (MD5_Init ctx) data)) <$> mem.

(** The result of [digest_md5_init] is used without looking at it: nothing when there is no
    memory. *)
Definition digest_hmac_md5 (mems : nat -> option MD5_CTX) (msg key : list Z) : option (list Z) :=
  key ← (if bool_decide (64 < length key)%nat then ctx ← digest_md5_init (mems 0%nat); Some (digest_md5_final (digest_md5_update ctx key)) else Some key);
  let k_ipad := splice 0 key (replicate 65 0) in
  let k_opad := splice 0 key (replicate 65 0) in
  let k_ipad := ((fun b => Z.lxor b 0x36) <$> take 64 k_ipad) ++ drop 64 k_ipad in
  let k_opad := ((fun b => Z.lxor b 0x5c) <$> take 64 k_opad) ++ drop 64 k_opad in
  context ← digest_md5_init (mems 1%nat);
  let digest := digest_md5_final (digest_md5_update (digest_md5_update context (take 64 k_ipad)) msg) in
  context ← digest_md5_init (mems 2%nat);
  Some (digest_md5_final (digest_md5_update (digest_md5_update context (take 64 k_opad)) (take 16 digest))).

(** ** The algorithm of RFC 1321

    The message is followed by a one bit, zeros up to eight bytes before the end of a block,
    and its length in bits; the blocks are absorbed one after the other. *)
Definition md5_iv : words4 := (0x67452301, 0xefcdab89, 0x98badcfe, 0x10325476).

(** The words and shifts of the 64 calls, with the table of constants. *)
Definition rfc_calls : list (Z * Z * Z) :=
  imap (fun i t =>
    let i := Z.of_nat i in
    let k := if i <? 16 then i else if i <? 32 then (5 * i + 1) mod 16 else if i <? 48 then (3 * i + 5) mod 16 else 7 * i mod 16 in
    let s := nth (Z.to_nat (4 * (i / 16) + i mod 4)) [7; 12; 17; 22; 5; 9; 14; 20; 4; 11; 16; 23; 6; 10; 15; 21] 0 in
    (k, s, t)) (snd <$> round1 ++ round2 ++ round3 ++ round4).
Lemma calls_ok : round1 ++ round2 ++ round3 ++ round4 = rfc_calls.
Proof. vm_compute. reflexivity. Qed.

Fixpoint absorb (n : nat) (st : words4) (l : list Z) : words4 := match n with O => st | S n => absorb n (MD5Transform st l) (drop 64 l) end.

Definition le64 (v : Z) : list Z := (fun k => v / 2 ^ (8 * k) mod 256) <$> [0; 1; 2; 3; 4; 5; 6; 7].
Definition rfc_pad (m : list Z) : list Z :=
  let n := Z.of_nat (length m) in m ++ 0x80 :: replicate (Z.to_nat ((55 - n) mod 64)) 0 ++ le64 (8 * n).
Definition rfc_md5 (m : list Z) : list Z :=
  let '(a, b, c, d) := absorb (length (rfc_pad m) / 64) md5_iv (rfc_pad m) in Encode [a; b; c; d].

(** RFC 2104. *)
Definition rfc_hmac (key msg : list Z) : list Z :=
  let key := if bool_decide (64 < length key)%nat then rfc_md5 key else key in
  let key := key ++ replicate (64 - length key) 0 in
  rfc_md5 (((fun b => Z.lxor b 0x5c) <$> key) ++ rfc_md5 (((fun b => Z.lxor b 0x36) <$> key) ++ msg)).

(** ** Absorbing blocks *)
Lemma transform_take st l l' : (64 <= length l)%nat -> MD5Transform st (l ++ l') = MD5Transform st l.
Proof. intros Hl. unfold MD5Transform. by rewrite take_app_le. Qed.

Lemma absorb_app n st l l' : (64 * n <= length l)%nat -> absorb n st (l ++ l') = absorb n st l.
Proof. revert st l. induction n as [|n IH]; intros st l Hn; [done|]. cbn [absorb]. rewrite transform_take, drop_app_le by lia. apply IH. rewrite length_drop. lia. Qed.

Lemma absorb_add a b st l : absorb (a + b) st l = absorb b (absorb a st l) (drop (64 * a) l).
Proof. revert st l. induction a as [|a IH]; intros st l; [done|]. cbn [Nat.add absorb]. rewrite IH, drop_drop. f_equal. f_equal. lia. Qed.

Lemma blocks_ok fuel st msg i : (i <= length msg)%nat -> (length msg - i < 64 * S fuel)%nat ->
  md5_blocks fuel st msg i = (absorb ((length msg - i) / 64) st (drop i msg), (i + 64 * ((length msg - i) / 64))%nat).
Proof.
  revert st i. induction fuel as [|fuel IH]; intros st i Hi Hf; cbn [md5_blocks].
  - rewrite Nat.div_small by lia. cbn. f_equal. lia.
  - case_bool_decide as Hlt.
    + rewrite IH by lia. replace (length msg - i)%nat with (length msg - (i + 64) + 1 * 64)%nat by lia. rewrite Nat.div_add by lia. rewrite Nat.add_1_r. cbn [absorb]. rewrite drop_drop. f_equal. lia.
    + rewrite Nat.div_small by lia. cbn. f_equal. lia.
Qed.

(** ** Portions *)
Record md5_rep (ctx : MD5_CTX) (m : list Z) : Prop := {
  rep_state : state ctx = absorb (length m / 64) md5_iv m;
  rep_length : length (buffer ctx) = 64%nat;
  rep_buffer : take (length m mod 64) (buffer ctx) = drop (64 * (length m / 64)) m;
  rep_count0 : count0 ctx = 8 * Z.of_nat (length m) mod 2 ^ 32;
  rep_count1 : count1 ctx = 8 * Z.of_nat (length m) / 2 ^ 32 mod 2 ^ 32;
}.

Lemma init_rep mem : length (buffer mem) = 64%nat -> md5_rep (MD5_Init mem) [].
Proof. intros Hl. by split. Qed.

Lemma splice_length off l buf : (off + length l <= length buf)%nat -> length (splice off l buf) = length buf.
Proof. intros Hl. unfold splice. rewrite !length_app, length_take, length_drop. lia. Qed.

Lemma splice_take off l buf : (off + length l <= length buf)%nat -> take (off + length l) (splice off l buf) = take off buf ++ l.
Proof. intros Hl. unfold splice. rewrite app_assoc. apply take_app_length'. rewrite length_app, length_take. lia. Qed.

Ltac Zify.zify_post_hook ::= Z.to_euclidean_division_equations.

(** What [MD5_Update] does to the state and the buffer, [x] bytes of which are used. *)
Definition md5_data (x : nat) (st : words4) (buf msg : list Z) : words4 * list Z :=
  let partLen := (64 - x)%nat in
  if bool_decide (partLen <= length msg)%nat then
    let buf := splice x (take partLen msg) buf in
    let '(st, i) := md5_blocks (length msg) (MD5Transform st buf) msg partLen in (st, splice 0 (drop i msg) buf)
  else (st, splice x msg buf).

Lemma data_ok m c q x st buf0 : length m = (64 * q + x)%nat -> (x < 64)%nat -> length buf0 = 64%nat -> take x buf0 = drop (64 * q) m -> st = absorb q md5_iv m ->
  exists q' x', length (m ++ c) = (64 * q' + x')%nat /\ (x' < 64)%nat /\ length (md5_data x st buf0 c).2 = 64%nat /\
    take x' (md5_data x st buf0 c).2 = drop (64 * q') (m ++ c) /\ (md5_data x st buf0 c).1 = absorb q' md5_iv (m ++ c).
Proof.
  intros Hm Hx64 Hl Hb Hs. assert (Hd : drop (64 * q) (m ++ c) = take x buf0 ++ c) by (rewrite drop_app_le by lia; by rewrite Hb). unfold md5_data. case_bool_decide as Hp.
  - set (k := ((length c - (64 - x)) / 64)%nat). assert (Hk : (64 * k <= length c - (64 - x) < 64 * k + 64)%nat) by (unfold k; lia).
    set (buf := splice x (take (64 - x) c) buf0). assert (Hlen : length (take (64 - x) c) = (64 - x)%nat) by (rewrite length_take; lia).
    assert (Hbuf : buf = take 64 (drop (64 * q) (m ++ c))).
    { unfold buf, splice. rewrite Hlen, drop_ge, app_nil_r by lia. rewrite Hd, take_app_ge by (rewrite length_take; lia). rewrite length_take, Nat.min_l by lia. done. }
    assert (Hbl : length buf = 64%nat) by (unfold buf; rewrite splice_length; lia).
    rewrite blocks_ok by lia. fold k. clearbody k buf. cbn [fst snd]. set (i := (64 - x + 64 * k)%nat). assert (Hdl : length (drop i c) = (length c - i)%nat) by apply length_drop.
    exists (q + S k)%nat, (length c - i)%nat. split_and!; [rewrite length_app; lia|lia|rewrite splice_length; lia| |].
    + rewrite <- Hdl. change (length (drop i c)) with (0 + length (drop i c))%nat. rewrite splice_take by lia. cbn [take app]. rewrite drop_app_ge by lia. replace (64 * (q + S k) - length m)%nat with i by lia. done.
    + rewrite absorb_add. cbn [absorb]. rewrite (absorb_app q md5_iv m c), <- Hs by lia. rewrite drop_drop.
      assert (E64 : drop (64 * q + 64) (m ++ c) = drop (64 - x) c) by (rewrite drop_app_ge by lia; replace (64 * q + 64 - length m)%nat with (64 - x)%nat by lia; done). rewrite E64. f_equal.
      rewrite <- (take_drop 64 (drop (64 * q) (m ++ c))). rewrite <- Hbuf. symmetry. apply transform_take. lia.
  - exists q, (x + length c)%nat. cbn [fst snd]. split_and!; [rewrite length_app; lia|lia|rewrite splice_length; lia|by rewrite splice_take, Hd by lia|by rewrite absorb_app by lia].
Qed.

(** The 64-bit count in two words. *)
Lemma count_ok n k : 0 <= n -> 0 <= k < 2 ^ 31 -> let c0 := 8 * n mod 2 ^ 32 in let c1 := 8 * n / 2 ^ 32 mod 2 ^ 32 in
  let k3 := wrap32 (Z.shiftl k 3) in let d0 := wrap32 (c0 + k3) in
  d0 = 8 * (n + k) mod 2 ^ 32 /\ wrap32 ((if d0 <? k3 then wrap32 (c1 + 1) else c1) + Z.shiftr k 29) = 8 * (n + k) / 2 ^ 32 mod 2 ^ 32.
Proof.
  intros Hn Hk c0 c1 k3 d0. subst d0 k3 c1 c0. unfold wrap32. rewrite Z.shiftl_mul_pow2, Z.shiftr_div_pow2 by lia. change (2 ^ 32) with 4294967296. change (2 ^ 3) with 8. change (2 ^ 29) with 536870912. change (2 ^ 31) with 2147483648 in Hk.
  set (q := 8 * n / 4294967296). set (r := 8 * n mod 4294967296). assert (E : 8 * n = 4294967296 * q + r) by (unfold q, r; lia). assert (Hr : 0 <= r < 4294967296) by (unfold r; lia). clearbody q r.
  set (q' := k / 536870912). set (r' := k * 8 mod 4294967296). assert (E' : 8 * k = 4294967296 * q' + r') by (unfold q', r'; lia). assert (Hr' : 0 <= r' < 4294967296) by (unfold r'; lia). clearbody q' r'.
  replace (8 * (n + k)) with (4294967296 * (q + q') + (r + r')) by lia. clear E E' Hn Hk n k. split; [lia|].
  destruct (Z.ltb_spec ((r + r') mod 4294967296) r'); lia.
Qed.

Lemma used_ok n : 0 <= n -> Z.to_nat (Z.land (Z.shiftr (8 * n mod 2 ^ 32) 3) 0x3F) = Z.to_nat (n mod 64).
Proof. intros Hn. change 0x3F with (Z.ones 6). rewrite Z.land_ones, Z.shiftr_div_pow2 by lia. change (2 ^ 32) with 4294967296. change (2 ^ 3) with 8. change (2 ^ 6) with 64. f_equal. lia. Qed.

Lemma update_rep ctx m c : md5_rep ctx m -> Z.of_nat (length c) < 2 ^ 31 -> md5_rep (MD5_Update ctx c) (m ++ c).
Proof.
  intros [Hs Hl Hb H0 H1] Hc. destruct (count_ok (Z.of_nat (length m)) (Z.of_nat (length c)) ltac:(lia) ltac:(lia)) as [D0 D1]. cbv zeta in D0, D1. rewrite <- H0 in D0, D1. rewrite <- H1 in D1. rewrite <- Nat2Z.inj_add, <- length_app in D0, D1.
  assert (Hx : Z.to_nat (Z.land (Z.shiftr (count0 ctx) 3) 0x3F) = (length m mod 64)%nat) by (rewrite H0, used_ok by lia; lia).
  destruct (data_ok m c (length m / 64) (length m mod 64) (state ctx) (buffer ctx)) as (q & x & Hlen & Hx64 & H2 & H3 & H4); [apply Nat.div_mod_eq|by apply Nat.mod_upper_bound|done..|].
  assert ((length (m ++ c) / 64)%nat = q) as Eq by (symmetry; by apply (Nat.div_unique _ _ _ x)). assert ((length (m ++ c) mod 64)%nat = x) as Ex by (symmetry; by apply (Nat.mod_unique _ _ q)).
  assert (MD5_Update ctx c = ctx <| state := (md5_data (length m mod 64) (state ctx) (buffer ctx) c).1 |> <| buffer := (md5_data (length m mod 64) (state ctx) (buffer ctx) c).2 |>
    <| count0 := 8 * Z.of_nat (length (m ++ c)) mod 2 ^ 32 |> <| count1 := 8 * Z.of_nat (length (m ++ c)) / 2 ^ 32 mod 2 ^ 32 |>) as ->.
  { unfold MD5_Update, md5_data. cbv zeta. rewrite Hx, D0. rewrite D0 in D1. rewrite D1. destruct ctx as [st c0 c1 buf]. cbn [state buffer]. rsimpl. case_bool_decide; [|done]. by destruct (md5_blocks _ _ _ _). }
  split; rsimpl; by rewrite ?Eq, ?Ex.
Qed.

(** ** The digest *)
Lemma bits_ok v : 0 <= v -> Encode [v mod 2 ^ 32; v / 2 ^ 32 mod 2 ^ 32] = le64 v.
Proof.
  intros Hv. unfold Encode, le64. cbn [mbind list_bind app fmap list_fmap]. change 0xff with (Z.ones 8). rewrite !Z.land_ones, !Z.shiftr_div_pow2 by lia.
  change (2 ^ 32) with 4294967296. change (2 ^ 8) with 256. change (2 ^ 16) with 65536. change (2 ^ 24) with 16777216. change (2 ^ (8 * 0)) with 1. change (2 ^ (8 * 1)) with 256. change (2 ^ (8 * 2)) with 65536. change (2 ^ (8 * 3)) with 16777216.
  change (2 ^ (8 * 4)) with 4294967296. change (2 ^ (8 * 5)) with (4294967296 * 256). change (2 ^ (8 * 6)) with (4294967296 * 65536). change (2 ^ (8 * 7)) with (4294967296 * 16777216). rewrite <- !Z.div_div by lia.
  set (w := v / 4294967296). assert (Hw : 0 <= w) by (unfold w; lia). clearbody w. repeat (apply (f_equal2 cons); [lia|]). done.
Qed.

Lemma md5_pad_ok (m : list Z) : let x := (length m mod 64)%nat in m ++ take (if bool_decide (x < 56)%nat then 56 - x else 120 - x)%nat PADDING = m ++ 0x80 :: replicate (Z.to_nat ((55 - Z.of_nat (length m)) mod 64)) 0.
Proof.
  intros x. f_equal. assert (Hx : (x < 64)%nat) by (unfold x; lia). set (n := if bool_decide _ then _ else _). assert (Hn : n = S (Z.to_nat ((55 - Z.of_nat (length m)) mod 64)) /\ (n <= 64)%nat) by (unfold n; case_bool_decide; unfold x in *; lia).
  destruct Hn as [-> Hn]. unfold PADDING. cbn [take]. f_equal. rewrite take_replicate. f_equal. lia.
Qed.

Lemma final_ok ctx m : md5_rep ctx m -> MD5_Final ctx = rfc_md5 m.
Proof.
  intros Hr. pose proof Hr as [_ _ _ H0 H1]. unfold MD5_Final. cbv zeta. rewrite H0, H1, bits_ok, used_ok by lia.
  assert (Z.to_nat (Z.of_nat (length m) mod 64) = (length m mod 64)%nat) as -> by lia. pose proof (md5_pad_ok m) as Hp. cbv zeta in Hp. set (n := if bool_decide _ then _ else _) in *.
  assert (Hn : (n <= 120)%nat) by (unfold n; case_bool_decide; lia). pose proof (update_rep ctx m (take n PADDING) Hr ltac:(rewrite length_take; lia)) as Hr1. rewrite Hp in Hr1.
  pose proof (update_rep _ _ (le64 (8 * Z.of_nat (length m))) Hr1 ltac:(cbn; lia)) as Hr2. rewrite <- app_assoc in Hr2. change ((0x80 :: ?l) ++ ?r) with (0x80 :: l ++ r) in Hr2.
  unfold rfc_md5. unfold rfc_pad at 1 2. cbv zeta. rewrite (rep_state _ _ Hr2). done.
Qed.

Lemma parts_rep parts : forall ctx m, md5_rep ctx m -> Forall (fun part => Z.of_nat (length part) < 2 ^ 31) parts -> md5_rep (fold_left MD5_Update parts ctx) (m ++ concat parts).
Proof.
  induction parts as [|part parts IH]; intros ctx m Hr Hp; [cbn; by rewrite app_nil_r|]. apply Forall_cons in Hp as [Hl Hp]. cbn [fold_left concat]. rewrite app_assoc. apply IH; [by apply update_rep|done].
Qed.

Lemma md5_streaming mem parts : length (buffer mem) = 64%nat -> Forall (fun part => Z.of_nat (length part) < 2 ^ 31) parts -> MD5_Final (fold_left MD5_Update parts (MD5_Init mem)) = rfc_md5 (concat parts).
Proof. intros Hm Hp. apply final_ok, (parts_rep parts _ []); [by apply init_rep|done]. Qed.

Lemma md5_length m : length (rfc_md5 m) = 16%nat.
Proof. unfold rfc_md5. by destruct (absorb _ _ _) as [[[a b] c] d]. Qed.

(** [hmac.c] pads the key with zeros in arrays of 65 bytes. *)
Lemma padded_key (key : list Z) (f : Z -> Z) : (length key <= 64)%nat -> take 64 ((f <$> take 64 (splice 0 key (replicate 65 0))) ++ drop 64 (splice 0 key (replicate 65 0))) = f <$> (key ++ replicate (64 - length key) 0).
Proof.
  intros Hk. assert (splice 0 key (replicate 65 0) = key ++ replicate (65 - length key) 0) as -> by (unfold splice; by rewrite drop_replicate). assert (E : take 64 (key ++ replicate (65 - length key) 0) = key ++ replicate (64 - length key) 0).
  { rewrite take_app_ge by lia. rewrite take_replicate. do 2 f_equal. lia. }
  rewrite E. apply take_app_length'. rewrite length_fmap, length_app, length_replicate. lia.
Qed.

Lemma init_some mem : digest_md5_init (Some mem) = Some (MD5_Init mem).
Proof. done. Qed.

Lemma hmac_ok mems msg key : (forall k, exists mem, mems k = Some mem /\ length (buffer mem) = 64%nat) -> Z.of_nat (length msg) < 2 ^ 31 -> Z.of_nat (length key) < 2 ^ 31 ->
  digest_hmac_md5 mems msg key = Some (rfc_hmac key msg).
Proof.
  intros Hmem Hmsg Hkey. unfold digest_hmac_md5, rfc_hmac. cbv zeta. set (key' := if bool_decide (64 < length key)%nat then rfc_md5 key else key).
  assert (Ek : (if bool_decide (64 < length key)%nat then ctx ← digest_md5_init (mems 0%nat); Some (digest_md5_final (digest_md5_update ctx key)) else Some key) = Some key').
  { unfold key'. case_bool_decide; [|done]. destruct (Hmem 0%nat) as (mem & -> & Hl). rewrite init_some, some_bind. f_equal. pose proof (md5_streaming mem [key] Hl ltac:(by repeat constructor)) as E. cbn [fold_left concat] in E. by rewrite app_nil_r in E. }
  rewrite Ek, some_bind. assert (Hk : (length key' <= 64)%nat) by (unfold key'; case_bool_decide; [rewrite md5_length; lia|lia]). rewrite !padded_key by done. clearbody key'.
  set (ki := (fun b => Z.lxor b 0x36) <$> _). set (ko := (fun b => Z.lxor b 0x5c) <$> _).
  assert (Hl2 : forall f : Z -> Z, length (f <$> (key' ++ replicate (64 - length key') 0)) = 64%nat) by (intros; rewrite length_fmap, length_app, length_replicate; lia).
  destruct (Hmem 1%nat) as (mem1 & -> & Hm1). destruct (Hmem 2%nat) as (mem2 & -> & Hm2). rewrite !init_some, !some_bind. f_equal. unfold digest_md5_final, digest_md5_update.
  pose proof (md5_streaming mem1 [ki; msg] Hm1) as E1. cbn [fold_left concat] in E1. rewrite app_nil_r in E1. rewrite E1 by (constructor; [unfold ki; rewrite Hl2; lia|by repeat constructor]).
  rewrite take_ge by (rewrite md5_length; lia). pose proof (md5_streaming mem2 [ko; rfc_md5 (ki ++ msg)] Hm2) as E2. cbn [fold_left concat] in E2. rewrite app_nil_r in E2.
  apply E2. constructor; [unfold ko; rewrite Hl2; lia|]. constructor; [rewrite md5_length; lia|constructor].
Qed.


(** ** Executions *)
Module Md5Cases.
Definition chars (s : string) : list Z := (fun c => Z.of_N (N_of_ascii c)) <$> String.list_ascii_of_string s.
Definition some_memory : MD5_CTX := {| state := (1, 2, 3, 4); count0 := 5; count1 := 6; buffer := replicate 64 7 |}.
Example md5_empty : digest_md5 (Some some_memory) [] = Some [0xd4; 0x1d; 0x8c; 0xd9; 0x8f; 0x00; 0xb2; 0x04; 0xe9; 0x80; 0x09; 0x98; 0xec; 0xf8; 0x42; 0x7e].
Proof. vm_compute. reflexivity. Qed.
Example md5_abc : digest_md5 (Some some_memory) (chars "abc") = Some [0x90; 0x01; 0x50; 0x98; 0x3c; 0xd2; 0x4f; 0xb0; 0xd6; 0x96; 0x3f; 0x7d; 0x28; 0xe1; 0x7f; 0x72].
Proof. vm_compute. reflexivity. Qed.
Example hmac_test : digest_hmac_md5 (fun _ => Some some_memory) (chars "Hi There") (replicate 16 0x0b) = Some [0x92; 0x94; 0x72; 0x7a; 0x36; 0x38; 0xbb; 0x1c; 0x13; 0xf4; 0x8e; 0xf8; 0x15; 0x8b; 0xfc; 0x9d].
Proof. vm_compute. reflexivity. Qed.


(** The keyed digest does not look whether it got memory. *)
Example hmac_without_memory : digest_hmac_md5 (fun _ => None) [] [] = None.
Proof. done. Qed.
End Md5Cases.
